(* ===== verification/_CoqProject ===== *)
-Q . S2P
Prelude.v
RustStd.v
ThirdParty.v
Fs.v
Net.v
Network.v
Config.v
Defaults.v
Placeholders.v
Validation.v
Registry.v
Parameters.v
Enrollment.v
Pairing.v
Certificates.v
ClientStore.v
Approve.v
SessionState.v
SessionManager.v
Verification.v
RelayTokens.v
Tunnel.v
RelayState.v
RelayClient.v
RelayFlow.v
Proto.v
Delivery.v
Service.v
Access.v
ShellScript.v
Reload.v
Io.v
ClientConfig.v
ClientStorage.v
Discovery.v
ClientRelay.v
RelayEnds.v
ClientConnect.v
ClientEnroll.v
EnrollFlow.v
ClientCommands.v
SessionEnds.v
Interactive.v
ServerStart.v
Mdns.v
Tls.v
ServerCli.v
CliArgs.v
Cli.v
CliCompletion.v
CliSession.v
TuiApp.v
Tui.v
TuiRun.v
TuiForm.v
TuiDraw.v
Kotlin.v
Fips180.v
AndroidModel.v
AndroidDb.v
AndroidLayout.v
AndroidPairing.v
AndroidEnroll.v
AndroidQr.v
AndroidSettings.v
AndroidConnect.v
AndroidRelay.v
AndroidCommands.v
AndroidShell.v
AndroidPanel.v
AndroidDiscovery.v
