(* ===== verification/Prelude.v ===== *)
(** * HandControl: a verification development

    HandControl lets enrolled devices run vetted commands on a machine.  A server
    ([server/src]) offers the capabilities of its configuration file over gRPC with
    TLS; clients (the library [client-lib/src], used by [cli/src] and [tui/src], and
    the Android application [android/app/src/main/kotlin]) enrol with a QR code or by approval, keep a certificate and the server's
    fingerprint, and open sessions that survive lost connections.  A relay
    ([relay/src]) lets clients reach a server behind a firewall: the server keeps a
    WebSocket to it, a client presents a token the server signed, and the relay joins
    the two ends of a tunnel.

    ** Method

    The model is a shallow embedding.  Pure functions are Rocq functions; fallible
    ones return [result], [anyhow] errors being the text of their outermost context;
    a panic, or a handler that never returns, is [None].  Stateful code passes its
    state; code whose tasks or threads interleave (sessions, tunnels, the relay,
    reload, approval, the capabilities) is a step function on a state, and its
    theorems quantify over all sequences of steps.  Machine integers are [Z] with
    their wrap-around written out; a [String] is its UTF-8 bytes; times are
    nanoseconds.  What comes from outside is an input: clock readings, fresh
    identifiers and random bytes, the answers of the disk to each call (a failing
    write may leave part of a file), of the network, of processes and daemons.

    Code outside the repository is a parameter, as a type class per group of crates:
    [Sha256], [HexEncode], [TomlCodec], [RegexEngine], [ShellEscape] (ThirdParty),
    [CertCrates], [UuidText], [TokenCrates], [QrCrates], [RelayCrates],
    [ClientCrates], [FlowCrates], [ClientRelayCrates], [GrpcCrates], [EnrollCrates],
    [TlsServer], [CliCrates], [UuidSimple], [JsonOutput], [PayloadJson], [ClapGenerate],
    [Layout]; for Android [JavaUtf8], [JavaRegex], [JavaUuid], [JavaText], [OrgJson],
    [LayoutJson], [TunnelJson].
    What a theorem assumes of them is a second class of laws ([TomlLaws], [HexLaws],
    [TlsServerLaws], [LayoutLaws], [OrgJsonLaws], ...), documented behaviour of the
    library, and each has a concrete instance at the end of a file, on which the
    theorems are applied.

    ** Files

    Foundations: [Prelude] ([result], notations, tactics, hint databases, list
    lemmas), [RustStd] (integers, [str], paths), [ThirdParty], [Fs] (file system),
    [Net] (IP addresses and their syntax), [Io] (sequences of file operations that
    stop at the first error, their footprints).

    The server, [server/src]:
    - [Config], [Defaults], [Validation], [Placeholders]: config/parser.rs,
      defaults.rs, validation.rs; [Reload]: watcher.rs and broadcaster.rs.
    - [Registry], [Parameters], [ShellScript], [Interactive]: capabilities/.
    - [Enrollment], [Pairing], [Approve], [Certificates], [Verification]:
      security/ and cli/approve.rs; [ClientStore]: storage/clients.rs.
    - [SessionState], [SessionManager]: sessions/.  [Delivery]: the way of a session's
      events to the client (the broadcast channel, the forwarding task and the response
      channel of grpc/server.rs).  [Network]: utils/network.rs.
    - [RelayTokens], [RelayClient]: relay/.
    - [Proto], [Service], [Access]: the messages, every RPC of grpc/server.rs as a
      function on the record [RemoteControlService], and one step function over all
      of them.  [Tls]: security/tls.rs and [start_server].
    - [ServerStart]: storage/paths.rs, storage/server_identity.rs and
      [start_handcontrol_server]; [ServerCli]: the subcommands of main.rs,
      cli/enroll.rs, [display_qr] and notifications/; [Mdns]: mdns/service.rs.

    The relay, [relay/src]: [RelayState] (configuration, registration, opening a
    tunnel), [Tunnel] (the hand-shake of the two ends); [RelayFlow] composes them
    with the server's side.

    The client library, [client-lib/src]: [ClientConfig], [ClientStorage] (storage.rs,
    certificates.rs), [Discovery], [ClientRelay], [ClientConnect] (grpc_client.rs),
    [ClientEnroll], [ClientCommands].

    Compositions of several programs: [RelayEnds] (client, relay, server),
    [EnrollFlow] (client and server, both enrolments), [SessionEnds] (both ends of a
    session, resuming and executing included), [Mdns] (announcing and discovering),
    [Tls] (connecting and accepting).

    The command-line client, [cli/src/main.rs]: [CliArgs] (parameters, servers,
    sessions, addresses and configuration keys as they are typed), [Cli] (the
    subcommands, each a function from the disk and what the library answers to what is
    printed, stored and sent), [CliCompletion] (the generated completion scripts and
    the bash function they define), [CliSession] ([exec], the interactive shell with
    its input and resize tasks, [resume]).

    The terminal user interface, [tui/src/main.rs]: [TuiApp] (the module [app]: state,
    filters, form), [Tui] (keys, overlays, background tasks, the event loop as a step
    function over key, task and tick events), [TuiRun] (invariants of its runs),
    [TuiForm] (from the form through both checks of the parameters), [TuiDraw] (a
    frame as the list of widgets handed to the drawing library).

    The Android application, files under [com/handcontrol]:
    - [Kotlin] and [Fips180]: what it uses of Kotlin and Java, and SHA-256, on which
      statements about digests are evaluated.
    - [AndroidModel], [AndroidDb], [AndroidSettings]: commands, layouts and the check of
      parameters (data/commands), the table of servers with its converters and queries
      (data/database), the preferences (data/settings).
    - [AndroidPairing], [AndroidEnroll], [AndroidQr]: verification codes and the trust
      manager (core/security, core/network), the enrolment repository with the points
      at which its time limits strike, the scanner and the enrolment view model.
    - [AndroidConnect], [AndroidRelay]: ServerConnectionManager.kt with its cache of
      relay channels as a step function, and core/network/relay.
    - [AndroidCommands], [AndroidShell]: GrpcCommandRepository.kt and the screens that
      show an execution and a shell, down to the terminal.
    - [AndroidPanel], [AndroidLayout]: the remote panel with its telemetry jobs, and the
      builder of its layout.  [AndroidDiscovery]: announcements, health checks and the
      lists of servers.
    [AndroidQr], [AndroidCommands] and [AndroidShell] run the application against the
    server's own definitions ([Service], [ShellScript], [SessionManager]).

    ** What the theorems show

    Access: strangers are refused by every protected RPC, a certificate becomes
    enrolled in two ways only, the store of clients is what the enrolments and
    removals say, tokens and resume tokens work once, approval is only of pending
    requests.  Against this stand what the code lets through: anyone can fetch an
    enrolment token, a reload can switch client certificates off, neither side checks
    the other's handshake signature, a rejected device can stay enrolled, a value can
    break out of the quotes of a command.
    Enrolment: from the QR code, and from the verification code, to credentials and a
    pin on the client's disk and the certificate in the server's store; the two
    programs compute the same code; polling is bounded.
    Sessions: a client that resumes while the session is quiet, having missed fewer than
    128 frames, sees each output exactly once; under any interleaving the replay is what
    was missed, and live events follow unless the forwarding task falls 256 events
    behind; a longer backlog hangs the call.  Executing a script whose messages arrive
    reports its exit code, parameters accepted by the client are accepted by the server,
    validation and substitution mean what they should; and where output or limits are
    lost.
    Relay: who may open a tunnel, each tunnel joins one client and one server, bytes
    arrive unchanged, a wake-up can be lost.
    Configuration and start: validation accepts exactly the documented
    configurations, readers see configuration and version together, a restart keeps
    the server's identity, what it announces is what clients discover.
    Command line: [exec] ends like the script, [remove] forgets one server and nothing
    else, [config set] takes effect or changes nothing, a server argument is never
    guessed and completions are accepted; but detaching ends the shell, resuming skips
    what it printed meanwhile, and Tab runs what a server put into its host name.
    Interface: its state stays well formed whatever is pressed and arrives, the view
    of a command shows exactly what it sent and no two commands run at once, a
    command runs with the values its form shows if its defaults are in range and its
    texts match, every frame can be drawn unless, in a debug build, a search query has
    65529 characters.
    Android: a scanned code ends in a row with the code's fingerprint and the device in
    the server's store, and in nothing else; connections follow the preference to the
    pinned certificate, whatever is announced on the network; relay channels are
    accounted for, up to their being handed over to be closed, unless calls overlap or
    are cancelled; silent tunnels are closed; the database is a map of servers; a script
    is shown with its output and exit code, a shell resumed while the session is quiet with
    each output once; what the form lets through the server accepts where the two regular
    expression libraries agree; each telemetry card has one poller.
    Against this: pairing by approval fails unless two different codes coincide and pins
    whoever answers the last poll, frames of a tunnel can change places, closing a
    relay channel never ends, a cancelled call leaks its channel, a slow screen loses
    output.

    ** Bounds and fuel

    Loops over a string use its length as fuel, which is enough since each round
    consumes a character ([pieces], [trim_start], [ktrim_start], [replace],
    [from_utf8_lossy], [chars]; the lemmas [source_pieces_fuel], [replace_fuel_enough]).  [exec_loop] takes the number
    of messages left plus one, and [exec_loop_ends] proves that enough.  Other loops
    are structural, on the list of what arrives.  The capacities of channels are the
    code's: 256 events of a broadcast channel, 128 messages of a response, 64 events of
    the channels of the Android application, 1024 frames of replay; a pipe holds 65536
    bytes, as on Linux.

    ** Not modelled

    Encodings on the wire (protobuf, JSON, TOML, JWT, PEM, TLS records, WebSocket
    frames) and cryptography, SHA-256 apart, are libraries.  The interactive shell for
    systems other than Unix does not compile (its signature is not the one its caller
    uses).  Module declarations and build scripts hold no behaviour of the programs, and
    logging is left out.  Of the Android application, the Compose screens beyond the
    logic named above, theme, navigation, home-screen widgets, key storage and
    dependency injection are calls of the platform.
    The command-line client's argument parser is clap's; the set-up of the terminal is
    left out.
    *)

From Stdlib Require Export Ascii.
From stdpp Require Export base tactics option list gmap strings numbers.
From Stdlib Require Export Strings.Byte.

#[export] Set Default Goal Selector "!".

#[export] Instance byte_eq_decision : EqDecision byte := Byte.byte_eq_dec.

(** ** Rust's [Result]

    [anyhow::Result<T>] is [result string T]: an [anyhow] error is the text that
    [to_string] prints for it (its outermost context).  Typed errors use their
    own enumeration for [E]. *)
Inductive result (E A : Type) : Type :=
  | Ok (a : A)
  | Err (e : E).
Arguments Ok {E A} a.
Arguments Err {E A} e.

#[export] Instance result_ret {E} : MRet (result E) := λ A a, Ok a.
#[export] Instance result_bind {E} : MBind (result E) := λ A B f r,
  match r with Ok a => f a | Err e => Err e end.
#[export] Instance result_fmap {E} : FMap (result E) := λ A B f r,
  match r with Ok a => Ok (f a) | Err e => Err e end.
#[export] Instance result_eq_dec `{EqDecision E, EqDecision A} : EqDecision (result E A).
Proof. solve_decision. Defined.

Definition ok_or {E A} (o : option A) (e : E) : result E A :=
  match o with Some a => Ok a | None => Err e end.
Definition is_ok {E A} (r : result E A) : bool :=
  match r with Ok _ => true | Err _ => false end.
Definition map_err {E F A} (f : E → F) (r : result E A) : result F A :=
  match r with Ok a => Ok a | Err e => Err (f e) end.

(** [bail_if b e] is the statement [if b { bail!(e) }]. *)
Definition bail_if {E} (b : bool) (e : E) : result E unit :=
  if b then Err e else Ok tt.

Declare Scope hc_scope.
Delimit Scope hc_scope with hc.
Notation "'ensure!' b 'else' e ; k" :=
  (mbind (λ _ : unit, k) (bail_if (negb b) e))
  (at level 100, b at level 99, e at level 99, k at level 200, right associativity) : hc_scope.
Notation "'bail!' e 'when' b ; k" :=
  (mbind (λ _ : unit, k) (bail_if b e))
  (at level 100, b at level 99, e at level 99, k at level 200, right associativity) : hc_scope.
Open Scope hc_scope.

Lemma result_bind_ok {E A B} (r : result E A) (f : A → result E B) b :
  r ≫= f = Ok b ↔ ∃ a, r = Ok a ∧ f a = Ok b.
Proof. destruct r; simpl; naive_solver. Qed.

Lemma bail_if_ok {E} b (e : E) u : bail_if b e = Ok u ↔ b = false.
Proof. destruct b, u; naive_solver. Qed.

Lemma ok_or_ok {E A} (o : option A) (e : E) a : ok_or o e = Ok a ↔ o = Some a.
Proof. destruct o; naive_solver. Qed.

Lemma bail_then {E A} b (e : E) (k : result E A) a :
  (bail_if b e ≫= λ _, k) = Ok a ↔ b = false ∧ k = Ok a.
Proof. destruct b; simpl; naive_solver. Qed.

Lemma unit_then {E A} (r : result E unit) (k : result E A) a :
  (r ≫= λ _, k) = Ok a ↔ r = Ok tt ∧ k = Ok a.
Proof. destruct r as [[]|]; simpl; naive_solver. Qed.

Lemma bool_decide_ne_false `{EqDecision A} (a b : A) : bool_decide (a ≠ b) = false ↔ a = b.
Proof. rewrite bool_decide_eq_false. split; [apply dec_stable|intros -> Hne; by apply Hne]. Qed.
Lemma bool_decide_ne_false_2 `{EqDecision A} (a b : A) : a = b → bool_decide (a ≠ b) = false.
Proof. apply bool_decide_ne_false. Qed.

(** ** Automation *)
Create HintDb hc.

(** [inv_ok] turns a hypothesis [e1 ;; e2 = Ok a] about a chain of checks into
    the facts that each check passed. *)
Ltac inv_ok :=
  repeat match goal with
  | H : mbind _ _ = Ok _ |- _ => apply result_bind_ok in H as (? & ? & H)
  | H : bail_if _ _ = Ok _ |- _ => apply bail_if_ok in H
  | H : ok_or _ _ = Ok _ |- _ => apply ok_or_ok in H
  | H : Ok _ = Ok _ |- _ => injection H as H
  | H : Err _ = Ok _ |- _ => discriminate H
  | H : Ok _ = Err _ |- _ => discriminate H
  end; simplify_eq/=.

(** Case analysis on every [match] and [if] of the goal, then simplification. *)
Ltac cases := repeat (case_match || case_bool_decide || case_decide); simplify_eq/=.

(** ** Lists: the last [n] elements *)
Section lastn.
Context {A : Type}.
Implicit Types l k : list A.

Definition lastn (n : nat) l : list A := drop (length l - n) l.

Lemma length_lastn n l : length (lastn n l) = n `min` length l.
Proof. unfold lastn. rewrite length_drop. lia. Qed.

Lemma lastn_all n l : length l ≤ n → lastn n l = l.
Proof. intros. unfold lastn. by replace (length l - n) with 0 by lia. Qed.

Lemma lastn_suffix n l : lastn n l `suffix_of` l.
Proof. exists (take (length l - n) l). unfold lastn. by rewrite take_drop. Qed.

Lemma lastn_app_r n l k : length k ≤ n → lastn n (l ++ k) = lastn (n - length k) l ++ k.
Proof.
  intros Hk. unfold lastn. rewrite length_app.
  rewrite drop_app_le by lia. by replace (length l + length k - n)
    with (length l - (n - length k)) by lia.
Qed.

Lemma lastn_app_ge n l k : n ≤ length k → lastn n (l ++ k) = lastn n k.
Proof.
  intros Hk. unfold lastn. rewrite length_app, drop_app_ge by lia. f_equal. lia.
Qed.

Lemma tail_drop n l : tail (drop n l) = drop (S n) l.
Proof. revert l; induction n; intros [|x l]; simpl; auto. Qed.

(** Pushing one element and dropping the head when the bound is exceeded is
    what a bounded [VecDeque] does. *)
Lemma lastn_push n l x :
  lastn n (l ++ [x]) =
    (let q := lastn n l ++ [x] in if decide (n < length q) then tail q else q).
Proof.
  cbv zeta. rewrite length_app, length_lastn. simpl.
  unfold lastn. rewrite length_app. simpl.
  case_decide as Hlt.
  - destruct (decide (n = 0)) as [->|Hn].
    { rewrite !Nat.sub_0_r. replace (length l + 1) with (length (l ++ [x])) by (rewrite length_app; done).
      rewrite !drop_all. done. }
    replace (length l + 1 - n) with (S (length l - n)) by lia.
    rewrite <- tail_drop. f_equal. by rewrite drop_app_le by lia.
  - rewrite drop_app_le by lia. do 2 f_equal. lia.
Qed.
End lastn.

(** ** Lists: filters that keep all or nothing *)
Section filter.
Context {A : Type} (P : A → Prop) `{!∀ x, Decision (P x)}.

Lemma filter_none (l : list A) : (∀ x, x ∈ l → ¬ P x) → filter P l = [].
Proof.
  induction l as [|x l IH]; intros Hl; [done|]. rewrite filter_cons, decide_False.
  - apply IH. intros y Hy. apply Hl. by right.
  - apply Hl. by left.
Qed.

Lemma filter_every (l : list A) : (∀ x, x ∈ l → P x) → filter P l = l.
Proof.
  induction l as [|x l IH]; intros Hl; [done|]. rewrite filter_cons, decide_True.
  - f_equal. apply IH. intros y Hy. apply Hl. by right.
  - apply Hl. by left.
Qed.
End filter.

(** ** Duplicate detection with a set of the elements seen so far *)
Lemma nodup_seen_cons `{Countable A} (x : A) (l : list A) (seen : gset A) :
  ((x ∉ seen) ∧ NoDup l ∧ (∀ y, y ∈ l → (y ∉ {[x]} ∪ seen))) ↔
  (NoDup (x :: l) ∧ (∀ y, y ∈ x :: l → (y ∉ seen))).
Proof.
  rewrite list.NoDup_cons. setoid_rewrite elem_of_cons. setoid_rewrite not_elem_of_union.
  setoid_rewrite not_elem_of_singleton. split.
  - intros (Hs & Hnd & Hl). split_and!; [intros Hin; by destruct (Hl _ Hin)|done|].
    intros y [->|Hy]; [done|]. by destruct (Hl _ Hy).
  - intros [[Hx Hnd] Hl]. split_and!; [by apply Hl; left|done|].
    intros y Hy. split; [by intros ->|]. apply Hl. by right.
Qed.
