(* ===== verification/RustStd.v ===== *)
(** * The parts of Rust's standard library the program uses

    Machine integers as [Z] at their width, clock readings, and the [str]
    operations.  A Rust [String] is the byte string of its UTF-8 encoding. *)

From stdpp Require Export pretty.
From S2P Require Import Prelude.

Open Scope Z_scope.

(** ** Machine integers *)

Definition U8_MAX : Z := 2 ^ 8 - 1.
Definition U32_MAX : Z := 2 ^ 32 - 1.
Definition U64_MAX : Z := 2 ^ 64 - 1.
Definition I32_MIN : Z := - 2 ^ 31.
Definition I32_MAX : Z := 2 ^ 31 - 1.
Definition I64_MIN : Z := - 2 ^ 63.
Definition I64_MAX : Z := 2 ^ 63 - 1.

(** [as uN] and [as iN] casts: the value modulo [2^w], read unsigned or signed. *)
Definition wrap_u (w : Z) (z : Z) : Z := z mod 2 ^ w.
Definition wrap_i (w : Z) (z : Z) : Z := (z + 2 ^ (w - 1)) mod 2 ^ w - 2 ^ (w - 1).

Definition saturating_mul_u64 (a b : Z) : Z := Z.min (a * b) U64_MAX.
Definition saturating_add_u64 (a b : Z) : Z := Z.min (a + b) U64_MAX.
Definition checked_add_u64 (a b : Z) : option Z :=
  if a + b <=? U64_MAX then Some (a + b) else None.

Lemma wrap_i_small w z : 0 < w → - 2 ^ (w - 1) ≤ z < 2 ^ (w - 1) → wrap_i w z = z.
Proof.
  intros Hw Hz. unfold wrap_i. rewrite Z.mod_small; [lia|].
  replace (2 ^ w) with (2 ^ (w - 1) + 2 ^ (w - 1)); [lia|].
  replace w with (Z.succ (w - 1)) at 3 by lia. rewrite Z.pow_succ_r; lia.
Qed.

Lemma wrap_u_small w z : 0 ≤ z < 2 ^ w → wrap_u w z = z.
Proof. intros. by apply Z.mod_small. Qed.

(** ** Time

    [OffsetDateTime], [SystemTime] and [Instant] are nanoseconds on one axis,
    with the UNIX epoch at 0; every operation that reads the clock takes the
    reading as an argument.  Adding a [time::Duration] to an [OffsetDateTime]
    panics outside the years -9999 to 9999: [None] is that panic. *)
Definition NANOS : Z := 10 ^ 9.
Definition ODT_MIN : Z := -377705116800 * NANOS.
Definition ODT_MAX : Z := 253402300800 * NANOS - 1.

Definition odt_add (t d : Z) : option Z :=
  let r := t + d in
  if (ODT_MIN <=? r) && (r <=? ODT_MAX) then Some r else None.

(** [time::Duration::seconds(n as i64)] for [n : u64]. *)
Definition duration_seconds_u64 (n : Z) : Z := wrap_i 64 n * NANOS.

(** [SystemTime::now().duration_since(UNIX_EPOCH)...as_millis() as i64]. *)
Definition as_millis (t : Z) : Z := t / 10 ^ 6.

(** ** Characters and strings *)

Definition byte_of (n : N) : ascii := ascii_of_N n.
Definition ascii_code (c : ascii) : Z := Z.of_N (N_of_ascii c).
Definition in_range (lo hi : Z) (c : ascii) : bool :=
  (lo <=? ascii_code c) && (ascii_code c <=? hi).

Definition is_ascii_digit (c : ascii) : bool := in_range 48 57 c.
Definition is_ascii_upper (c : ascii) : bool := in_range 65 90 c.
Definition is_ascii_lower (c : ascii) : bool := in_range 97 122 c.
Definition is_ascii_alpha (c : ascii) : bool := is_ascii_upper c || is_ascii_lower c.
Definition is_ascii_hexdigit (c : ascii) : bool :=
  is_ascii_digit c || in_range 65 70 c || in_range 97 102 c.
(** [u8::is_ascii_whitespace]: space, tab, line feed, form feed, carriage return. *)
Definition is_ascii_whitespace (c : ascii) : bool :=
  bool_decide (ascii_code c ∈ [32; 9; 10; 12; 13]).

Definition to_ascii_lower_char (c : ascii) : ascii :=
  if is_ascii_upper c then ascii_of_N (N_of_ascii c + 32) else c.

Fixpoint string_map (f : ascii → ascii) (s : string) : string :=
  match s with EmptyString => EmptyString | String c s' => String (f c) (string_map f s') end.
Fixpoint string_filter (f : ascii → bool) (s : string) : string :=
  match s with
  | EmptyString => EmptyString
  | String c s' => if f c then String c (string_filter f s') else string_filter f s'
  end.
Fixpoint string_forall (f : ascii → bool) (s : string) : bool :=
  match s with EmptyString => true | String c s' => f c && string_forall f s' end.
Fixpoint string_exists (f : ascii → bool) (s : string) : bool :=
  match s with EmptyString => false | String c s' => f c || string_exists f s' end.

Definition to_ascii_lowercase : string → string := string_map to_ascii_lower_char.
Definition eq_ignore_ascii_case (a b : string) : bool :=
  bool_decide (to_ascii_lowercase a = to_ascii_lowercase b).
Definition str_is_empty (s : string) : bool :=
  match s with EmptyString => true | _ => false end.
Definition str_contains_char (c : ascii) (s : string) : bool :=
  string_exists (λ d, bool_decide (d = c)) s.
Definition starts_with (p s : string) : bool := String.prefix p s.

(** [strip_prefix p s]: the rest of [s] after [p]. *)
Fixpoint strip_prefix (p s : string) : option string :=
  match p, s with
  | EmptyString, _ => Some s
  | String a p', String b s' => if decide (a = b) then strip_prefix p' s' else None
  | String _ _, EmptyString => None
  end.

(** The number of bytes of the Unicode [White_Space] character a string starts
    with, 0 if it starts with another one: U+0009..000D, U+0020, U+0085, U+00A0,
    U+1680, U+2000..200A, U+2028, U+2029, U+202F, U+205F and U+3000. *)
Definition ws_len (s : string) : nat :=
  match s with
  | String a s1 =>
      if in_range 9 13 a || in_range 32 32 a then 1%nat else
      match s1 with
      | String b s2 =>
          if in_range 0xC2 0xC2 a && (in_range 0x85 0x85 b || in_range 0xA0 0xA0 b) then 2%nat else
          match s2 with
          | String c _ =>
              if (in_range 0xE1 0xE1 a && in_range 0x9A 0x9A b && in_range 0x80 0x80 c)
              || (in_range 0xE2 0xE2 a && in_range 0x80 0x80 b &&
                    (in_range 0x80 0x8A c || in_range 0xA8 0xA9 c || in_range 0xAF 0xAF c))
              || (in_range 0xE2 0xE2 a && in_range 0x81 0x81 b && in_range 0x9F 0x9F c)
              || (in_range 0xE3 0xE3 a && in_range 0x80 0x80 b && in_range 0x80 0x80 c)
              then 3%nat else 0%nat
          | EmptyString => 0%nat
          end
      | EmptyString => 0%nat
      end
  | EmptyString => 0%nat
  end.

Fixpoint string_drop (n : nat) (s : string) : string :=
  match n, s with
  | O, _ => s
  | S n', String _ s' => string_drop n' s'
  | S _, EmptyString => EmptyString
  end.

(** [str::trim_start]; [fuel] bounds the number of characters removed, and the
    length of the string is always enough. *)
Fixpoint trim_start_fuel (fuel : nat) (s : string) : string :=
  match fuel with
  | O => s
  | S fuel' => match ws_len s with O => s | n => trim_start_fuel fuel' (string_drop n s) end
  end.
Definition trim_start (s : string) : string := trim_start_fuel (String.length s) s.

(** [str::trim_end]: the shortest prefix after which only white space follows. *)
Fixpoint trim_end (s : string) : string :=
  if str_is_empty (trim_start s) then EmptyString else
  match s with EmptyString => EmptyString | String c s' => String c (trim_end s') end.

Definition trim (s : string) : string := trim_end (trim_start s).

(** [str::replace] for a non-empty pattern: non-overlapping occurrences, from the
    left.  [fuel] bounds the number of steps; the length of [s] is enough. *)
Fixpoint replace_fuel (fuel : nat) (pat by_ s : string) : string :=
  match fuel with
  | O => s
  | S fuel' =>
      match strip_prefix pat s with
      | Some rest => String.append by_ (replace_fuel fuel' pat by_ rest)
      | None =>
          match s with
          | EmptyString => EmptyString
          | String c s' => String c (replace_fuel fuel' pat by_ s')
          end
      end
  end.
Definition str_replace (s pat by_ : string) : string :=
  replace_fuel (String.length s) pat by_ s.

Fixpoint join (sep : string) (l : list string) : string :=
  match l with
  | [] => EmptyString
  | [s] => s
  | s :: l' => String.append s (String.append sep (join sep l'))
  end.

(** ** Decimal numbers *)

Definition digit_val (c : ascii) : option Z :=
  if is_ascii_digit c then Some (ascii_code c - 48) else None.

Fixpoint digits_val (acc : Z) (s : string) : option Z :=
  match s with
  | EmptyString => Some acc
  | String c s' => d ← digit_val c; digits_val (10 * acc + d) s'
  end.

(** [str::parse::<i32>()]: an optional sign, at least one digit, in range. *)
Definition parse_digits (s : string) : option Z :=
  match s with EmptyString => None | _ => digits_val 0 s end.
Definition parse_i32 (s : string) : option Z :=
  z ← match s with
      | String c s' =>
          if decide (c = "+"%char) then parse_digits s'
          else if decide (c = "-"%char) then Z.opp <$> parse_digits s'
          else parse_digits s
      | EmptyString => None
      end;
  if (I32_MIN <=? z) && (z <=? I32_MAX) then Some z else None.

(** [format!("{:03}", n)] for [0 <= n]. *)
Definition pad3 (n : Z) : string :=
  let s := pretty n in
  match String.length s with
  | 1%nat => String.append "00" s
  | 2%nat => String.append "0" s
  | _ => s
  end.

(** ** UTF-8

    The well-formedness test of [str::from_utf8]: the length of the first
    character, 0 when the bytes start with no valid one. *)
Definition cont (c : ascii) : bool := in_range 0x80 0xBF c.
Definition utf8_len (s : string) : nat :=
  match s with
  | EmptyString => 0
  | String a s1 =>
      if in_range 0 0x7F a then 1 else
      match s1 with
      | EmptyString => 0
      | String b s2 =>
          if in_range 0xC2 0xDF a && cont b then 2 else
          match s2 with
          | EmptyString => 0
          | String c s3 =>
              if ((in_range 0xE0 0xE0 a && in_range 0xA0 0xBF b)
                  || ((in_range 0xE1 0xEC a || in_range 0xEE 0xEF a) && cont b)
                  || (in_range 0xED 0xED a && in_range 0x80 0x9F b)) && cont c then 3 else
              match s3 with
              | EmptyString => 0
              | String d _ =>
                  if ((in_range 0xF0 0xF0 a && in_range 0x90 0xBF b)
                      || (in_range 0xF1 0xF3 a && cont b)
                      || (in_range 0xF4 0xF4 a && in_range 0x80 0x8F b)) && cont c && cont d
                  then 4 else 0
              end
          end
      end
  end%nat.

(** [skip] counts the bytes of the current character still to pass over. *)
Fixpoint utf8_valid_skip (skip : nat) (s : string) : bool :=
  match skip, s with
  | O, EmptyString => true
  | S _, EmptyString => false
  | S k, String _ s' => utf8_valid_skip k s'
  | O, String _ s' =>
      match utf8_len s with O => false | S k => utf8_valid_skip k s' end
  end.
Definition utf8_valid (s : string) : bool := utf8_valid_skip 0 s.

(** ** Paths: [Path::join] *)
Fixpoint ends_with_slash (s : string) : bool :=
  match s with
  | EmptyString => false
  | String c EmptyString => bool_decide (c = "/"%char)
  | String _ s' => ends_with_slash s'
  end.
Definition path_join (dir file : string) : string :=
  if starts_with "/" file then file
  else if str_is_empty dir || ends_with_slash dir then String.append dir file
  else String.append dir (String.append "/" file).

(** ** Laws of concatenation *)
Lemma append_nil_l s : String.append EmptyString s = s.
Proof. done. Qed.
Lemma append_cons c s t : String.append (String c s) t = String c (String.append s t).
Proof. done. Qed.
Lemma append_assoc s t u : String.append s (String.append t u) = String.append (String.append s t) u.
Proof. induction s as [|c s IH]; [done|]. by rewrite !append_cons, IH. Qed.
Lemma append_nil_r s : String.append s EmptyString = s.
Proof. induction s as [|c s IH]; [done|]. by rewrite append_cons, IH. Qed.
Lemma length_append s t : String.length (String.append s t) = (String.length s + String.length t)%nat.
Proof. induction s as [|c s IH]; [done|]. rewrite append_cons. simpl. by rewrite IH. Qed.

(** ** Laws of paths *)
Lemma path_join_ne dir file : str_is_empty file = false → starts_with "/" file = false → path_join dir file ≠ dir.
Proof.
  intros Hf Hs Heq. apply (f_equal String.length) in Heq. unfold path_join in Heq. rewrite Hs in Heq.
  destruct file as [|c f]; [done|]. destruct (_ || _); rewrite ?length_append in Heq; cbn in Heq; lia.
Qed.

#[global] Instance append_inj s : Inj (=) (=) (String.append s).
Proof. induction s as [|c s IH]; intros x y; rewrite ?append_nil_l, ?append_cons; [done|]. intros [= E]. by apply IH. Qed.

Definition path_base (dir : string) : string :=
  if str_is_empty dir || ends_with_slash dir then dir else String.append dir "/".
Lemma path_join_base dir f : starts_with "/" f = false → path_join dir f = String.append (path_base dir) f.
Proof. unfold path_join, path_base. intros ->. destruct (_ || _); [done|]. by rewrite append_assoc. Qed.

Lemma path_join_inj dir f g : starts_with "/" f = false → starts_with "/" g = false →
  path_join dir f = path_join dir g → f = g.
Proof.
  intros Hf Hg. rewrite !path_join_base by done. apply append_inj.
Qed.

(** Paths below [dir] whose first component starts with [c]. *)
Definition below (dir : string) (c : ascii) (p : string) : Prop := ∃ t, p = String.append (path_base dir) (String c t).

Lemma below_join dir c p f : below dir c p → starts_with "/" f = false → below dir c (path_join p f).
Proof.
  intros [t ->] Hf. rewrite path_join_base by done. unfold path_base at 1. destruct (_ || _).
  - exists (String.append t f). by rewrite <-append_assoc, append_cons.
  - exists (String.append t (String.append "/" f)). by rewrite <-!append_assoc, append_cons.
Qed.
Lemma below_ne dir c d p q : below dir c p → below dir d q → c ≠ d → p ≠ q.
Proof. intros [t ->] [u ->] Hne E%append_inj. by injection E. Qed.
Lemma below_dir dir c p : below dir c p → p ≠ dir.
Proof.
  intros [t ->] E%(f_equal String.length). unfold path_base in E.
  destruct (_ || _); rewrite ?length_append in E; cbn in E; lia.
Qed.

(** ** Laws of [str::replace] *)
Lemma strip_prefix_Some p s r : strip_prefix p s = Some r ↔ s = String.append p r.
Proof.
  revert s. induction p as [|a p IH]; intros s; rewrite ?append_nil_l, ?append_cons; simpl; [split; congruence|].
  destruct s as [|b s]; [done|]. case_decide; [rewrite IH|]; split; congruence.
Qed.

Lemma strip_prefix_length p s r :
  strip_prefix p s = Some r → (String.length r + String.length p = String.length s)%nat.
Proof.
  intros ->%strip_prefix_Some. rewrite length_append. lia.
Qed.

Section replace.
Context (a : ascii) (p by_ : string).
Let pat := String a p.

Lemma replace_fuel_enough f s :
  (String.length s ≤ f)%nat → replace_fuel f pat by_ s = str_replace s pat by_.
Proof.
  unfold str_replace. remember (String.length s) as n eqn:Hn. revert f s Hn.
  induction (lt_wf n) as [n _ IH]; intros f s Hn Hf. destruct f as [|f].
  { destruct s; simpl in *; [subst n; done|lia]. }
  destruct n as [|n]; [destruct s; [done|simpl in *; lia]|]. cbn [replace_fuel].
  destruct (strip_prefix pat s) as [rest|] eqn:Ep.
  - pose proof (strip_prefix_length _ _ _ Ep) as Hl. unfold pat in Hl. simpl in Hl.
    rewrite (IH (String.length rest)) with (f := f), (IH (String.length rest)) with (f := n) by lia. done.
  - destruct s as [|c s]; [done|]. simpl in Hn.
    rewrite (IH (String.length s)) with (f := f), (IH (String.length s)) with (f := n) by lia. done.
Qed.

Lemma str_replace_match rest : str_replace (String.append pat rest) pat by_ = String.append by_ (str_replace rest pat by_).
Proof.
  unfold str_replace at 1.
  destruct (String.length (String.append pat rest)) as [|n] eqn:Hn; [done|]. cbn [replace_fuel].
  rewrite (proj2 (strip_prefix_Some pat _ rest)) by done. f_equal. apply replace_fuel_enough.
  rewrite length_append in Hn. unfold pat in Hn. simpl in Hn. lia.
Qed.

Lemma str_replace_skip c s :
  strip_prefix pat (String c s) = None → str_replace (String c s) pat by_ = String c (str_replace s pat by_).
Proof. intros Hs. unfold str_replace at 1. cbn [String.length replace_fuel]. rewrite Hs. done. Qed.

Lemma str_replace_other c s : c ≠ a → str_replace (String c s) pat by_ = String c (str_replace s pat by_).
Proof. intros Hc. apply str_replace_skip. simpl. by rewrite decide_False. Qed.

Lemma str_replace_without v s :
  str_contains_char a v = false →
  str_replace (String.append v s) pat by_ = String.append v (str_replace s pat by_).
Proof.
  induction v as [|c v IH]; [done|]. unfold str_contains_char. simpl.
  rewrite orb_false_iff, bool_decide_eq_false. intros [Hc Hv]. rewrite !append_cons, str_replace_other by done. by rewrite IH.
Qed.
End replace.

(** ** Trimming by character *)
(** [trim_start_matches] and [trim_end_matches] for a set of ASCII characters. *)
Fixpoint trim_start_matches (f : ascii → bool) (s : string) : string :=
  match s with String c s' => if f c then trim_start_matches f s' else s | EmptyString => EmptyString end.
Fixpoint trim_end_matches (f : ascii → bool) (s : string) : string :=
  if string_forall f s then EmptyString else
  match s with EmptyString => EmptyString | String c s' => String c (trim_end_matches f s') end.
Definition trim_matches (f : ascii → bool) (s : string) : string := trim_end_matches f (trim_start_matches f s).

(** [strip_suffix p s]: what [s] has before the suffix [p]. *)
Fixpoint strip_suffix (p s : string) : option string :=
  if bool_decide (s = p) then Some EmptyString else
  match s with EmptyString => None | String c s' => String c <$> strip_suffix p s' end.

Lemma strip_suffix_Some p s r : strip_suffix p s = Some r ↔ s = String.append r p.
Proof.
  revert r. induction s as [|c s IH]; intros r; cbn [strip_suffix]; case_bool_decide as Heq.
  - subst p. destruct r; rewrite ?append_nil_l, ?append_cons; split; congruence.
  - destruct r; rewrite ?append_nil_l, ?append_cons; split; congruence.
  - subst p. split; [intros [= <-]; by rewrite append_nil_l|]. intros E. apply (f_equal String.length) in E as El.
    rewrite length_append in El. destruct r; [done|]. cbn in El. lia.
  - destruct r as [|d r]; rewrite ?append_nil_l, ?append_cons.
    + split; [|congruence]. by destruct (strip_suffix p s).
    + rewrite fmap_Some. setoid_rewrite IH. naive_solver.
Qed.

(** ** [String::from_utf8_lossy] *)
(** The bytes replaced together when a string starts with no character: the longest
    prefix that could have been the beginning of one, at least one byte. *)
Definition utf8_bad_len (s : string) : nat :=
  match s with
  | String a (String b s2) =>
      if (in_range 0xE0 0xE0 a && in_range 0xA0 0xBF b) || ((in_range 0xE1 0xEC a || in_range 0xEE 0xEF a) && cont b)
         || (in_range 0xED 0xED a && in_range 0x80 0x9F b) then 2
      else if (in_range 0xF0 0xF0 a && in_range 0x90 0xBF b) || (in_range 0xF1 0xF3 a && cont b)
              || (in_range 0xF4 0xF4 a && in_range 0x80 0x8F b) then
        match s2 with String c _ => if cont c then 3 else 2 | EmptyString => 2 end
      else 1
  | _ => 1
  end%nat.
Definition REPLACEMENT_CHARACTER : string := String "239" (String "191" (String "189" EmptyString)).

Fixpoint lossy_fuel (fuel : nat) (s : string) : string :=
  match fuel, s with
  | O, _ | _, EmptyString => EmptyString
  | S fuel', _ =>
      match utf8_len s with
      | O => String.append REPLACEMENT_CHARACTER (lossy_fuel fuel' (string_drop (utf8_bad_len s) s))
      | n => String.append (String.substring 0 n s) (lossy_fuel fuel' (string_drop n s))
      end
  end.
(** Every round removes at least one byte, so the length is enough fuel. *)
Definition from_utf8_lossy (s : string) : string := lossy_fuel (String.length s) s.

Lemma utf8_valid_skip_drop k s : utf8_valid_skip k s = true → (k ≤ String.length s)%nat ∧ utf8_valid (string_drop k s) = true.
Proof.
  revert s. induction k as [|k IH]; intros s; [split; [lia|by destruct s]|]. destruct s as [|c s]; [done|].
  cbn. intros [? ?]%IH. split; [lia|done].
Qed.
Lemma substring_drop n s : (n ≤ String.length s)%nat → String.append (String.substring 0 n s) (string_drop n s) = s.
Proof.
  revert s. induction n as [|n IH]; intros [|c s] Hn; cbn in *; try done; try lia. rewrite append_cons, IH by lia. done.
Qed.
Lemma string_drop_length n s : String.length (string_drop n s) = (String.length s - n)%nat.
Proof. revert s. induction n as [|n IH]; intros [|c s]; cbn; try done; apply IH. Qed.

Lemma from_utf8_lossy_valid s : utf8_valid s = true → from_utf8_lossy s = s.
Proof.
  unfold from_utf8_lossy. assert (∀ fuel t, (String.length t ≤ fuel)%nat → utf8_valid t = true → lossy_fuel fuel t = t) as Hf.
  { induction fuel as [|fuel IH]; intros [|c t] Hl Hv; cbn in Hl; try done; [lia|].
    unfold utf8_valid in Hv. cbn [utf8_valid_skip lossy_fuel] in *. destruct (utf8_len (String c t)) as [|k]; [done|].
    apply utf8_valid_skip_drop in Hv as [Hk Hv]. cbn [string_drop]. rewrite IH; [|rewrite string_drop_length; lia|done].
    cbn [String.substring]. rewrite append_cons, substring_drop by done. done. }
  by apply Hf.
Qed.
Example from_utf8_lossy_examples :
  from_utf8_lossy (String "255" "a") = String.append REPLACEMENT_CHARACTER "a" ∧
  from_utf8_lossy (String "226" (String "130" "a")) = String.append REPLACEMENT_CHARACTER "a" ∧
  from_utf8_lossy (String "240" (String "040" "a")) = String.append REPLACEMENT_CHARACTER "(a".
Proof. vm_compute. done. Qed.

(** ** Texts without white space *)
(** ASCII characters that are not white space. *)
Definition visible (c : ascii) : bool := in_range 33 126 c.

Lemma ws_len_visible c s : visible c = true → ws_len (String c s) = O.
Proof.
  unfold visible, in_range. rewrite andb_true_iff, !Z.leb_le. intros [H1 H2].
  assert (∀ lo hi, hi < 33 ∨ 126 < lo → in_range lo hi c = false) as Hout.
  { intros lo hi Hr. unfold in_range. apply andb_false_iff. rewrite !Z.leb_gt. lia. }
  unfold ws_len. rewrite !(Hout _ _) by lia. cbn. by destruct s as [|b [|d s]].
Qed.

Lemma trim_visible s : string_forall visible s = true → trim s = s.
Proof.
  assert (∀ t, string_forall visible t = true → trim_start t = t) as Hs.
  { intros [|c t]; [done|]. cbn [string_forall]. intros [Hc _]%andb_prop. unfold trim_start. cbn [String.length trim_start_fuel].
    by rewrite ws_len_visible. }
  intros H. unfold trim. rewrite Hs by done. revert H. induction s as [|c s IH]; [done|]. intros H. cbn [trim_end].
  rewrite Hs by done. cbn [str_is_empty string_forall] in *. apply andb_prop in H as [_ H]. by rewrite IH.
Qed.

Lemma string_forall_append f s t : string_forall f (String.append s t) = string_forall f s && string_forall f t.
Proof. induction s as [|c s IH]; [done|]. rewrite append_cons. cbn [string_forall]. by rewrite IH, andb_assoc. Qed.
Lemma string_forall_impl (f g : ascii → bool) s : (∀ c, f c = true → g c = true) → string_forall f s = true → string_forall g s = true.
Proof. intros Hfg. induction s as [|c s IH]; [done|]. cbn. intros [Hc Hs]%andb_prop. by rewrite Hfg, IH. Qed.
Lemma string_filter_all f s : string_forall f s = true → string_filter f s = s.
Proof. induction s as [|c s IH]; [done|]. cbn. intros [-> Hs]%andb_prop. by rewrite IH. Qed.
