(* ===== verification/ThirdParty.v ===== *)
(** * Code outside the repository

    The crates the program calls are parameters of the model, given as type
    classes: the operations of a crate in one class, what the program relies on
    in a second class of laws.  The last section builds one concrete codec from
    stdpp's [Countable], on which the laws hold. *)

From S2P Require Import Prelude RustStd.

Abbreviation bytes := (list byte).

(** ** [sha2] and [hex] *)
Class Sha256 := sha256 : bytes → bytes.
(** A SHA-256 digest has 32 bytes. *)
Class Sha256Laws `{Sha256} := sha256_length : ∀ b, length (sha256 b) = 32%nat.
Class HexEncode := hex_encode : bytes → string.

(** ** [toml]: a serializer and a parser for one type *)
Class TomlCodec (A : Type) := {
  toml_to_string_pretty : A → result string string;
  toml_from_str : string → result string A;
}.

(** What is printed is a [String] (so valid UTF-8) that parses back. *)
Class TomlLaws (A : Type) `{TomlCodec A} := toml_roundtrip : ∀ (a : A) s,
  toml_to_string_pretty a = Ok s → toml_from_str s = Ok a ∧ utf8_valid s = true.

(** ** [regex]: the patterns written in the configuration *)
Class RegexEngine := {
  (** [Regex::new]: the error text, [None] when the pattern compiles. *)
  regex_error : string → option string;
  regex_is_match : string → string → bool;
  (** The [\w] class on characters outside ASCII. *)
  unicode_word : string → bool;
}.

(** ** [shell_escape] *)
Class ShellEscape := shell_escape : string → string.

(** ** Concrete instances *)
Definition demo_regex : RegexEngine := {|
  regex_error _ := None; regex_is_match p v := starts_with p v; unicode_word _ := false |}.
Definition demo_sha256 : Sha256 := λ b, take 32 (b ++ replicate 32 x00).
Definition demo_hex : HexEncode := String.string_of_list_byte.

Lemma demo_sha256_laws : @Sha256Laws demo_sha256.
Proof. intros b. unfold sha256, demo_sha256. rewrite length_take, length_app, length_replicate. lia. Qed.

Fixpoint bits_of_pos (p : positive) : string :=
  match p with
  | xH => ""
  | xO p => String "0" (bits_of_pos p)
  | xI p => String "1" (bits_of_pos p)
  end.
Fixpoint pos_of_bits (s : string) : positive :=
  match s with
  | "" => xH
  | String c s => if decide (c = "0"%char) then xO (pos_of_bits s) else xI (pos_of_bits s)
  end%string.

Lemma pos_of_bits_of_pos p : pos_of_bits (bits_of_pos p) = p.
Proof. induction p; simpl; by f_equal. Qed.

Lemma bits_of_pos_utf8 p : utf8_valid (bits_of_pos p) = true.
Proof. induction p; simpl; auto. Qed.

Section countable_codec.
Context (A : Type) `{Countable A}.

Definition countable_toml : TomlCodec A := {|
  toml_to_string_pretty a := Ok (bits_of_pos (encode a));
  toml_from_str s := ok_or (decode (pos_of_bits s)) "invalid"%string;
|}.

Lemma countable_toml_laws : @TomlLaws A countable_toml.
Proof.
  intros a s [= <-]. split; [|apply bits_of_pos_utf8].
  simpl. by rewrite pos_of_bits_of_pos, decode_encode.
Qed.
End countable_codec.

(** Records as lists of texts: each character is marked, each text terminated. *)
Fixpoint enc_field (s k : string) : string :=
  match s with
  | EmptyString => String "0" k
  | String c s => String "1" (String c (enc_field s k))
  end.
Fixpoint enc_fields (l : list string) : string :=
  match l with [] => EmptyString | s :: l => enc_field s (enc_fields l) end.
Fixpoint dec_fields (s : string) : option (list string) :=
  match s with
  | EmptyString => Some []
  | String "0" r => l ← dec_fields r; Some (EmptyString :: l)
  | String _ (String c r) =>
      l ← dec_fields r;
      match l with f :: fs => Some (String c f :: fs) | [] => None end
  | String _ EmptyString => None
  end.

Lemma dec_enc_field s k l : dec_fields k = Some l → dec_fields (enc_field s k) = Some (s :: l).
Proof. intros Hk. induction s as [|c s IH]; simpl; [by rewrite Hk|by rewrite IH]. Qed.

Lemma dec_enc_fields l : dec_fields (enc_fields l) = Some l.
Proof. induction l as [|s l IH]; [done|]. by apply dec_enc_field. Qed.

Definition enc_Z (z : Z) : string := bits_of_pos (encode z).
Definition dec_Z (s : string) : option Z := decode (pos_of_bits s).
Lemma dec_enc_Z z : dec_Z (enc_Z z) = Some z.
Proof. unfold dec_Z, enc_Z. by rewrite pos_of_bits_of_pos, decode_encode. Qed.

Definition enc_opt (o : option string) : string := enc_fields (option_list o).
Definition dec_opt (s : string) : option (option string) :=
  l ← dec_fields s; match l with [] => Some None | [x] => Some (Some x) | _ => None end.
Lemma dec_enc_opt o : dec_opt (enc_opt o) = Some o.
Proof. unfold dec_opt, enc_opt. rewrite dec_enc_fields. by destruct o. Qed.
