(* ===== verification/Fs.v ===== *)
(** * The file system ([std::fs])

    A file system maps paths to contents.  The operating system decides whether a
    call succeeds: its answer is an input.  A write that fails may have truncated
    or partly written the file, so a failing answer says what is left in it. *)

From S2P Require Import Prelude RustStd ThirdParty.

Record FileSystem := mkFs {
  fs_files : gmap string bytes;
  fs_dirs : gset string;
}.

(** [WErr None]: the file was not touched; [WErr (Some l)]: it now holds [l]. *)
Inductive write_answer := WOk | WErr (left : option bytes).

Definition fs_exists (p : string) (fs : FileSystem) : bool :=
  bool_decide (is_Some (fs_files fs !! p)) || bool_decide (p ∈ fs_dirs fs).

Definition set_file (p : string) (b : bytes) (fs : FileSystem) : FileSystem :=
  mkFs (<[p := b]> (fs_files fs)) (fs_dirs fs).

Definition fs_write (ans : write_answer) (p : string) (b : bytes) (fs : FileSystem)
    : FileSystem * bool :=
  match ans with
  | WOk => (set_file p b fs, true)
  | WErr None => (fs, false)
  | WErr (Some l) => (set_file p l fs, false)
  end.

Definition fs_remove_file (ans : bool) (p : string) (fs : FileSystem) : FileSystem * bool :=
  if ans then (mkFs (delete p (fs_files fs)) (fs_dirs fs), true) else (fs, false).

Definition fs_create_dir_all (ans : bool) (p : string) (fs : FileSystem) : FileSystem * bool :=
  if ans then (mkFs (fs_files fs) ({[p]} ∪ fs_dirs fs), true) else (fs, false).

(** [ans = false]: the call failed although the file is there. *)
Definition fs_read (ans : bool) (p : string) (fs : FileSystem) : option bytes :=
  if ans then fs_files fs !! p else None.

(** [fs::read_to_string] also refuses bytes that are not UTF-8. *)
Definition fs_read_to_string (ans : bool) (p : string) (fs : FileSystem) : option string :=
  b ← fs_read ans p fs;
  let s := String.string_of_list_byte b in
  if utf8_valid s then Some s else None.

Definition to_bytes (s : string) : bytes := String.list_byte_of_string s.

Lemma to_bytes_app s t : to_bytes (String.append s t) = to_bytes s ++ to_bytes t.
Proof.
  unfold to_bytes, String.list_byte_of_string.
  induction s as [|c s IH]; simpl; [done|]. by rewrite IH.
Qed.

Lemma fs_read_to_string_set_file p s fs :
  utf8_valid s = true →
  fs_read_to_string true p (set_file p (to_bytes s) fs) = Some s.
Proof.
  intros Hu. unfold fs_read_to_string, fs_read, set_file, to_bytes. simpl.
  rewrite lookup_insert_eq. simpl. by rewrite String.string_of_list_byte_of_string, Hu.
Qed.

Lemma fs_exists_set_file p b fs : fs_exists p (set_file p b fs) = true.
Proof. unfold fs_exists, set_file. simpl. by rewrite lookup_insert_eq. Qed.

#[export] Hint Resolve fs_exists_set_file : hc.
