(* ===== verification/Net.v ===== *)
(** * IP addresses ([std::net])

    The address types, their predicates, [Display] and [FromStr], as the
    program uses them. *)

From S2P Require Import Prelude RustStd.

Open Scope Z_scope.

(** The four octets, respectively the eight 16-bit segments. *)
Record Ipv4Addr := mkIpv4 { v4_a : Z; v4_b : Z; v4_c : Z; v4_d : Z }.
Record Ipv6Addr := mkIpv6 {
  v6_0 : Z; v6_1 : Z; v6_2 : Z; v6_3 : Z; v6_4 : Z; v6_5 : Z; v6_6 : Z; v6_7 : Z }.
Inductive IpAddr := V4 (a : Ipv4Addr) | V6 (a : Ipv6Addr).

#[export] Instance Ipv4Addr_eq_dec : EqDecision Ipv4Addr.
Proof. solve_decision. Defined.
#[export] Instance Ipv6Addr_eq_dec : EqDecision Ipv6Addr.
Proof. solve_decision. Defined.
#[export] Instance IpAddr_eq_dec : EqDecision IpAddr.
Proof. solve_decision. Defined.

Definition v4_octets (a : Ipv4Addr) : list Z := [v4_a a; v4_b a; v4_c a; v4_d a].
Definition v6_segments (a : Ipv6Addr) : list Z :=
  [v6_0 a; v6_1 a; v6_2 a; v6_3 a; v6_4 a; v6_5 a; v6_6 a; v6_7 a].

Definition v4_wf (a : Ipv4Addr) : Prop := Forall (λ o, 0 ≤ o < 2 ^ 8) (v4_octets a).
Definition v6_wf (a : Ipv6Addr) : Prop := Forall (λ s, 0 ≤ s < 2 ^ 16) (v6_segments a).
Definition ip_wf (ip : IpAddr) : Prop :=
  match ip with V4 a => v4_wf a | V6 a => v6_wf a end.

Definition is_ipv4 (ip : IpAddr) : bool := match ip with V4 _ => true | V6 _ => false end.
Definition is_ipv6 (ip : IpAddr) : bool := match ip with V4 _ => false | V6 _ => true end.

(** ** Predicates on IPv4 addresses *)
Definition v4_is_private (a : Ipv4Addr) : bool :=
  (v4_a a =? 10)
  || ((v4_a a =? 172) && ((16 <=? v4_b a) && (v4_b a <=? 31)))
  || ((v4_a a =? 192) && (v4_b a =? 168)).
Definition v4_is_loopback (a : Ipv4Addr) : bool := v4_a a =? 127.
Definition v4_is_link_local (a : Ipv4Addr) : bool := (v4_a a =? 169) && (v4_b a =? 254).
Definition v4_is_broadcast (a : Ipv4Addr) : bool := forallb (Z.eqb 255) (v4_octets a).
Definition v4_is_documentation (a : Ipv4Addr) : bool :=
  ((v4_a a =? 192) && (v4_b a =? 0) && (v4_c a =? 2))
  || ((v4_a a =? 198) && (v4_b a =? 51) && (v4_c a =? 100))
  || ((v4_a a =? 203) && (v4_b a =? 0) && (v4_c a =? 113)).

Definition v6_is_loopback (a : Ipv6Addr) : bool :=
  bool_decide (v6_segments a = [0; 0; 0; 0; 0; 0; 0; 1]).
Definition ip_is_unspecified (ip : IpAddr) : bool :=
  match ip with
  | V4 a => forallb (Z.eqb 0) (v4_octets a)
  | V6 a => forallb (Z.eqb 0) (v6_segments a)
  end.

(** ** Display *)
Definition v4_to_string (a : Ipv4Addr) : string := join "." (map pretty (v4_octets a)).

Definition hex_digit (n : Z) : ascii :=
  ascii_of_N (Z.to_N (if n <? 10 then 48 + n else 87 + n)).
(** [{:x}] of a 16-bit number. *)
Definition hex16 (n : Z) : string :=
  let d3 := n / 4096 in let d2 := (n / 256) mod 16 in
  let d1 := (n / 16) mod 16 in let d0 := n mod 16 in
  let s0 := String (hex_digit d0) EmptyString in
  if n <? 16 then s0 else
  let s1 := String (hex_digit d1) s0 in
  if n <? 256 then s1 else
  let s2 := String (hex_digit d2) s1 in
  if n <? 4096 then s2 else String (hex_digit d3) s2.

(** The first longest run of zero segments, as (start, length). *)
Fixpoint zero_run (i : nat) (segs : list Z) (longest current : nat * nat) : nat * nat :=
  match segs with
  | [] => longest
  | s :: segs' =>
      if s =? 0 then
        let current' := match current.2 with O => (i, 1%nat) | n => (current.1, S n) end in
        zero_run (S i) segs' (if (longest.2 <? current'.2)%nat then current' else longest) current'
      else zero_run (S i) segs' longest (0%nat, 0%nat)
  end.

Definition to_ipv4_mapped (a : Ipv6Addr) : option Ipv4Addr :=
  match v6_segments a with
  | [0; 0; 0; 0; 0; 65535; g; h] => Some (mkIpv4 (g / 256) (g mod 256) (h / 256) (h mod 256))
  | _ => None
  end.

Definition v6_to_string (a : Ipv6Addr) : string :=
  match to_ipv4_mapped a with
  | Some v4 => String.append "::ffff:" (v4_to_string v4)
  | None =>
      let segs := v6_segments a in
      let '(start, len) := zero_run 0 segs (0%nat, 0%nat) (0%nat, 0%nat) in
      if (1 <? len)%nat then
        String.append (join ":" (map hex16 (take start segs)))
          (String.append "::" (join ":" (map hex16 (drop (start + len) segs))))
      else join ":" (map hex16 segs)
  end.

Definition ip_to_string (ip : IpAddr) : string :=
  match ip with V4 a => v4_to_string a | V6 a => v6_to_string a end.

(** ** Parsing (the [core::net] parser: each reader takes the input and returns
    what it read with the rest of the input) *)
Definition char_digit (radix : Z) (c : ascii) : option Z :=
  let n := ascii_code c in
  d ← (if is_ascii_digit c then Some (n - 48)
       else if in_range 97 122 c then Some (n - 87)
       else if in_range 65 90 c then Some (n - 55) else None);
  if d <? radix then Some d else None.

Fixpoint read_digits (radix acc : Z) (count : nat) (s : string) : Z * nat * string :=
  match s with
  | String c s' =>
      match char_digit radix c with
      | Some d => read_digits radix (acc * radix + d) (S count) s'
      | None => (acc, count, s)
      end
  | EmptyString => (acc, count, s)
  end.

Definition starts_with_zero (s : string) : bool :=
  match s with String c _ => bool_decide (c = "0"%char) | EmptyString => false end.

(** [read_number] with a digit bound; the value must fit the type ([limit]). *)
Definition read_number (radix : Z) (max_digits : nat) (limit : Z) (zero_prefix : bool) (s : string)
    : option (Z * string) :=
  let '(n, count, rest) := read_digits radix 0 0 s in
  if (count =? 0)%nat || (max_digits <? count)%nat then None else
  if negb zero_prefix && starts_with_zero s && (1 <? count)%nat then None else
  if n <? limit then Some (n, rest) else None.

Definition read_char (c : ascii) (s : string) : option string :=
  match s with
  | String d s' => if decide (d = c) then Some s' else None
  | EmptyString => None
  end.

(** [read_separator]: the separator is expected before every group but the first. *)
Definition read_separator {A} (c : ascii) (i : nat) (rd : string → option (A * string)) (s : string)
    : option (A * string) :=
  match i with O => rd s | _ => s' ← read_char c s; rd s' end.

Definition read_ipv4_addr (s : string) : option (Ipv4Addr * string) :=
  let grp i := read_separator "."%char i (read_number 10 3 256 false) in
  '(a, s) ← grp 0%nat s; '(b, s) ← grp 1%nat s; '(c, s) ← grp 2%nat s; '(d, s) ← grp 3%nat s;
  Some (mkIpv4 a b c d, s).

(** [read_groups]: up to [limit] groups from group [i] on; the flag says that the
    last two came from an embedded IPv4 address. *)
Fixpoint read_groups (left i : nat) (s : string) : list Z * bool * string :=
  match left with
  | O => ([], false, s)
  | S left' =>
      let v4 := match left' with
                | O => None
                | _ => read_separator ":"%char i read_ipv4_addr s
                end in
      match v4 with
      | Some (a, rest) => ([v4_a a * 256 + v4_b a; v4_c a * 256 + v4_d a], true, rest)
      | None =>
          match read_separator ":"%char i (read_number 16 4 65536 true) s with
          | Some (g, rest) => let '(gs, b, rest') := read_groups left' (S i) rest in (g :: gs, b, rest')
          | None => ([], false, s)
          end
      end
  end.

Definition v6_of_segments (l : list Z) : option Ipv6Addr :=
  match l with
  | [a; b; c; d; e; f; g; h] => Some (mkIpv6 a b c d e f g h)
  | _ => None
  end.

Definition read_ipv6_addr (s : string) : option (Ipv6Addr * string) :=
  let '(head, head_ipv4, rest) := read_groups 8 0 s in
  if (length head =? 8)%nat then a ← v6_of_segments head; Some (a, rest) else
  if head_ipv4 then None else
  rest ← read_char ":"%char rest; rest ← read_char ":"%char rest;
  let '(tl, _, rest) := read_groups (8 - (length head + 1)) 0 rest in
  a ← v6_of_segments (head ++ replicate (8 - length head - length tl) 0 ++ tl);
  Some (a, rest).

Definition parse_all {A} (r : option (A * string)) : option A :=
  '(a, rest) ← r; if str_is_empty rest then Some a else None.

(** [str::parse::<IpAddr>()]: the first reader that succeeds must consume the
    whole input. *)
Definition parse_ip (s : string) : option IpAddr :=
  match read_ipv4_addr s with
  | Some (a, rest) => if str_is_empty rest then Some (V4 a) else None
  | None => V6 <$> parse_all (read_ipv6_addr s)
  end.

Example parse_ip_examples :
  parse_ip "192.168.1.7" = Some (V4 (mkIpv4 192 168 1 7)) ∧
  parse_ip "1.2.3" = None ∧ parse_ip "01.2.3.4" = None ∧
  parse_ip "::1" = Some (V6 (mkIpv6 0 0 0 0 0 0 0 1)) ∧
  parse_ip "fe80::1:2" = Some (V6 (mkIpv6 0xfe80 0 0 0 0 0 1 2)) ∧
  parse_ip "::ffff:1.2.3.4" = Some (V6 (mkIpv6 0 0 0 0 0 0xffff 0x102 0x304)) ∧
  ip_to_string (V6 (mkIpv6 0x2001 0xdb8 0 0 1 0 0 1)) = "2001:db8::1:0:0:1"%string.
Proof. vm_compute. done. Qed.

(** ** Socket addresses: [str::parse::<SocketAddr>()] *)
Record SocketAddr := mkSocketAddr { sa_ip : IpAddr; sa_port : Z; sa_scope : Z }.

(** [read_number] without a bound on the digits, leading zeros allowed. *)
Definition read_unbounded (limit : Z) (s : string) : option (Z * string) :=
  let '(n, count, rest) := read_digits 10 0 0 s in
  if (count =? 0)%nat then None else if n <? limit then Some (n, rest) else None.
Definition read_port (s : string) : option (Z * string) :=
  s ← read_char ":"%char s; read_unbounded 65536 s.

Definition read_socket_addr_v4 (s : string) : option (SocketAddr * string) :=
  '(ip, s) ← read_ipv4_addr s; '(port, s) ← read_port s; Some (mkSocketAddr (V4 ip) port 0, s).
Definition read_scope_id (s : string) : Z * string :=
  default (0, s) (s' ← read_char "%"%char s; read_unbounded (2 ^ 32) s').
Definition read_socket_addr_v6 (s : string) : option (SocketAddr * string) :=
  s ← read_char "["%char s; '(ip, s) ← read_ipv6_addr s;
  let '(scope, s) := read_scope_id s in
  s ← read_char "]"%char s; '(port, s) ← read_port s; Some (mkSocketAddr (V6 ip) port scope, s).

(** The first reader that succeeds must consume the whole input. *)
Definition parse_socket_addr (s : string) : option SocketAddr :=
  match read_socket_addr_v4 s with
  | Some (a, rest) => if str_is_empty rest then Some a else None
  | None => parse_all (read_socket_addr_v6 s)
  end.

Example parse_socket_addr_examples :
  parse_socket_addr "10.0.0.7:50051" = Some (mkSocketAddr (V4 (mkIpv4 10 0 0 7)) 50051 0) ∧
  parse_socket_addr "[fe80::1%3]:80" = Some (mkSocketAddr (V6 (mkIpv6 0xfe80 0 0 0 0 0 0 1)) 80 3) ∧
  parse_socket_addr "10.0.0.7:65536" = None ∧ parse_socket_addr "den.local:80" = None ∧ parse_socket_addr "::1:80" = None.
Proof. vm_compute. done. Qed.
