(* ===== verification/Network.v ===== *)
(** * Local addresses and client addresses (server/src/utils/network.rs)

    The interfaces of the machine are an input: the list [if_addrs] returns, with
    each interface's name and address, or [None] when the call fails. *)

From S2P Require Import Prelude RustStd Net.

Local Open Scope string_scope.
Open Scope Z_scope.

Inductive Ipv6AddressScope := LinkLocal | UniqueLocal | Global | Multicast | OtherScope.
#[export] Instance Ipv6AddressScope_eq_dec : EqDecision Ipv6AddressScope.
Proof. solve_decision. Defined.

Definition from_address (a : Ipv6Addr) : Ipv6AddressScope :=
  if Z.land (v6_0 a) 0xffc0 =? 0xfe80 then LinkLocal
  else if Z.land (v6_0 a) 0xfe00 =? 0xfc00 then UniqueLocal
  else if Z.land (v6_0 a) 0xe000 =? 0x2000 then Global
  else if Z.land (v6_0 a) 0xff00 =? 0xff00 then Multicast
  else OtherScope.

Definition is_ipv6_temporary (a : Ipv6Addr) : bool := negb (v6_5 a =? 0xfffe).

Record AddressPriority := mkAddressPriority { ap_score : Z; ap_is_temporary : bool }.

Definition is_public_ipv4 (a : Ipv4Addr) : bool :=
  negb (v4_is_private a) && negb (v4_is_loopback a) && negb (v4_is_link_local a)
  && negb (v4_is_broadcast a) && negb (v4_is_documentation a).

Definition calculate (ip : IpAddr) : AddressPriority :=
  match ip with
  | V4 a => mkAddressPriority (if is_public_ipv4 a then 80 else 40) false
  | V6 a =>
      mkAddressPriority match from_address a with
                        | Global => 100 | UniqueLocal => 60 | LinkLocal => 20 | _ => 0
                        end (is_ipv6_temporary a)
  end.

Record NetworkOptions := mkNetworkOptions {
  no_include_link_local_ipv6 : bool;
  no_prefer_stable_addresses : bool;
  no_max_addresses : option nat;
}.
Definition NetworkOptions_default : NetworkOptions := mkNetworkOptions false true (Some 5%nat).

(** [str::to_lowercase] as far as a comparison with the ASCII names below can
    tell: ASCII letters, and the Kelvin sign, the only other character whose
    lower case is an ASCII letter of these names. *)
Fixpoint to_lowercase (s : string) : string :=
  match s with
  | EmptyString => EmptyString
  | String a (String b (String c s') as t) =>
      if in_range 0xE2 0xE2 a && in_range 0x84 0x84 b && in_range 0xAA 0xAA c
      then String "k" (to_lowercase s') else String (to_ascii_lower_char a) (to_lowercase t)
  | String a t => String (to_ascii_lower_char a) (to_lowercase t)
  end.

Definition should_filter_interface (name : string) : bool :=
  let name_lower := to_lowercase name in
  (bool_decide (name_lower = "docker0") || starts_with "br-" name_lower || starts_with "veth" name_lower)
  || (starts_with "tun" name_lower || starts_with "tap" name_lower
      || starts_with "vpn" name_lower || starts_with "wg" name_lower).

Definition should_filter_ip (ip : IpAddr) : bool :=
  match ip with
  | V4 a => (v4_a a =? 127) || ((v4_a a =? 169) && (v4_b a =? 254))
  | V6 a => v6_is_loopback a || (Z.land (v6_0 a) 0xffc0 =? 0xfe80)
  end.

Definition skip_link_local (o : NetworkOptions) (ip : IpAddr) : bool :=
  negb (no_include_link_local_ipv6 o) &&
  match ip with V6 a => bool_decide (from_address a = LinkLocal) | V4 _ => false end.

(** The addresses that survive the loop over the interfaces. *)
Definition usable (o : NetworkOptions) (i : string * IpAddr) : bool :=
  negb (should_filter_interface i.1) && negb (should_filter_ip i.2) && negb (skip_link_local o i.2).

Definition collect_addresses (o : NetworkOptions) (ifs : list (string * IpAddr)) : list (IpAddr * AddressPriority) :=
  (λ i, (i.2, calculate i.2)) <$> filter (λ i, usable o i = true) ifs.

(** [str::cmp]: bytes, lexicographically. *)
Fixpoint str_cmp (s t : string) : comparison :=
  match s, t with
  | EmptyString, EmptyString => Eq
  | EmptyString, _ => Lt
  | _, EmptyString => Gt
  | String a s', String b t' =>
      match ascii_code a ?= ascii_code b with Eq => str_cmp s' t' | c => c end
  end.
Definition bool_cmp (a b : bool) : comparison :=
  match a, b with false, true => Lt | true, false => Gt | _, _ => Eq end.
Definition then_with (c d : comparison) : comparison := match c with Eq => d | _ => c end.

Definition address_cmp (a b : IpAddr * AddressPriority) : comparison :=
  then_with (ap_score b.2 ?= ap_score a.2)
    (then_with (bool_cmp (ap_is_temporary a.2) (ap_is_temporary b.2))
       (str_cmp (ip_to_string a.1) (ip_to_string b.1))).

(** [slice::sort_by], a stable sort. *)
Section sort.
Context {A : Type} (cmp : A → A → comparison).
Fixpoint insert_by (x : A) (l : list A) : list A :=
  match l with
  | [] => [x]
  | y :: l' => match cmp x y with Gt => y :: insert_by x l' | _ => x :: l end
  end.
Definition sort_by (l : list A) : list A := foldr insert_by [] l.
End sort.

(** [best IPv6, best IPv4, remaining IPv6, remaining IPv4]. *)
Definition interleave (v6 v4 : list IpAddr) : list IpAddr :=
  (take 1 v6 ++ take 1 v4 ++ drop 1 v6 ++ drop 1 v4)%list.

Definition ordered_addresses (o : NetworkOptions) (ifs : list (string * IpAddr)) : list IpAddr :=
  let addresses := sort_by address_cmp (collect_addresses o ifs) in
  let ipv6_addrs := filter (λ ip, is_ipv6 ip = true) addresses.*1 in
  let ipv4_addrs := filter (λ ip, is_ipv4 ip = true) addresses.*1 in
  interleave ipv6_addrs ipv4_addrs.

Definition get_all_local_ips_with_options (ifs : option (list (string * IpAddr))) (o : NetworkOptions) : list string :=
  match ifs with
  | None => []
  | Some ifs =>
      let ordered := ordered_addresses o ifs in
      let addresses := match no_max_addresses o with Some max => take max ordered | None => ordered end in
      ip_to_string <$> addresses
  end.

Definition get_all_local_ips (ifs : option (list (string * IpAddr))) : list string :=
  get_all_local_ips_with_options ifs NetworkOptions_default.

(** [get_local_ip]: the answers of binding, connecting and reading the address. *)
Definition get_local_ip (bound connected : bool) (local_addr : option IpAddr) : option string :=
  if bound then if connected then ip_to_string <$> local_addr else None else None.

(** The text before the first comma. *)
Fixpoint before_comma (s : string) : string :=
  match s with
  | EmptyString => EmptyString
  | String c s' => if decide (c = ","%char) then EmptyString else String c (before_comma s')
  end.

(** [headers name] is the header, if present, and its text, if it is readable. *)
Definition extract_client_ip_from_headers (headers : string → option (option string)) (peer : option IpAddr)
    : option IpAddr :=
  match (v ← headers "x-forwarded-for"; value ← v; parse_ip (trim (before_comma value))) with
  | Some ip => Some ip
  | None =>
      match (v ← headers "x-real-ip"; value ← v; parse_ip value) with
      | Some ip => Some ip
      | None => peer
      end
  end.

(** ** The order on addresses *)
Fixpoint list_cmp (l k : list Z) : comparison :=
  match l, k with
  | [], [] => Eq
  | [], _ => Lt
  | _, [] => Gt
  | a :: l', b :: k' => match a ?= b with Eq => list_cmp l' k' | c => c end
  end.

Lemma list_cmp_opp l k : list_cmp k l = CompOpp (list_cmp l k).
Proof.
  revert k. induction l as [|a l IH]; intros [|b k]; try done. simpl.
  rewrite (Z.compare_antisym b a). by destruct (b ?= a); simpl.
Qed.

Lemma list_cmp_trans l k j : list_cmp l k ≠ Gt → list_cmp k j ≠ Gt → list_cmp l j ≠ Gt.
Proof.
  revert k j. induction l as [|a l IH]; intros [|b k] [|c j]; try done. simpl.
  destruct (Z.compare_spec a b), (Z.compare_spec b c); try done; intros H1 H2; subst.
  - rewrite Z.compare_refl. eauto.
  - by rewrite (proj2 (Z.compare_lt_iff _ _)).
  - by rewrite (proj2 (Z.compare_lt_iff _ _)).
  - rewrite (proj2 (Z.compare_lt_iff _ _)); [done|lia].
Qed.

Fixpoint codes (s : string) : list Z :=
  match s with EmptyString => [] | String c s' => ascii_code c :: codes s' end.

(** The comparison is lexicographic on this key. *)
Definition address_key (ip : IpAddr) : list Z :=
  - ap_score (calculate ip) :: (if ap_is_temporary (calculate ip) then 1 else 0) :: codes (ip_to_string ip).

Lemma str_cmp_codes s t : str_cmp s t = list_cmp (codes s) (codes t).
Proof. revert t. induction s as [|a s IH]; intros [|b t]; try done. simpl. by rewrite IH. Qed.

Definition with_priority (ip : IpAddr) : IpAddr * AddressPriority := (ip, calculate ip).
Definition ip_cmp (a b : IpAddr) : comparison := address_cmp (with_priority a) (with_priority b).

Lemma ip_cmp_key a b : ip_cmp a b = list_cmp (address_key a) (address_key b).
Proof.
  unfold ip_cmp, address_cmp, with_priority, address_key. cbn [fst snd list_cmp]. rewrite str_cmp_codes.
  rewrite Z.compare_opp.
  destruct (_ ?= _); [|done..]. simpl. by destruct (ap_is_temporary _), (ap_is_temporary _).
Qed.

(** [better a b]: [a] is not sorted after [b]. *)
Definition better (a b : IpAddr) : Prop := ip_cmp a b ≠ Gt.

Lemma better_trans a b c : better a b → better b c → better a c.
Proof. unfold better. rewrite !ip_cmp_key. apply list_cmp_trans. Qed.

Lemma better_total a b : ip_cmp a b = Gt → better b a.
Proof. unfold better. rewrite !ip_cmp_key, (list_cmp_opp (address_key a)). by intros ->. Qed.

(** ** Sorting *)
Lemma insert_by_perm {A} cmp (x : A) l : insert_by cmp x l ≡ₚ x :: l.
Proof.
  induction l as [|y l IH]; [done|]. simpl. destruct (cmp x y); [done..|]. rewrite IH. by apply Permutation_swap.
Qed.
Lemma sort_by_perm {A} cmp (l : list A) : sort_by cmp l ≡ₚ l.
Proof. induction l as [|x l IH]; [done|]. simpl. by rewrite insert_by_perm, IH. Qed.

Lemma sort_by_fmap {A B} (cmp : B → B → comparison) (f : A → B) l :
  sort_by cmp (f <$> l) = f <$> sort_by (λ x y, cmp (f x) (f y)) l.
Proof.
  assert (∀ x k, insert_by cmp (f x) (f <$> k) = f <$> insert_by (λ x y, cmp (f x) (f y)) x k) as Hins.
  { intros x k. induction k as [|y k IH]; [done|]. simpl. destruct (cmp (f x) (f y)); [done..|]. simpl. by f_equal. }
  induction l as [|x l IH]; [done|]. simpl. by rewrite <-Hins, <-IH.
Qed.

Inductive ranked : list IpAddr → Prop :=
  | ranked_nil : ranked []
  | ranked_cons a l : Forall (better a) l → ranked l → ranked (a :: l).

Lemma insert_by_ranked x l : ranked l → ranked (insert_by ip_cmp x l).
Proof.
  induction 1 as [|y l Hy Hl IH]; [by repeat constructor|]. simpl.
  destruct (ip_cmp x y) eqn:E.
  1,2: constructor; [|by constructor]; constructor; [unfold better; congruence|];
       eapply Forall_impl; [done|]; intros z Hz; eapply better_trans; [|done]; unfold better; congruence.
  constructor; [|done]. rewrite insert_by_perm. constructor; [by apply better_total|done].
Qed.

Lemma sort_by_ranked l : ranked (sort_by ip_cmp l).
Proof. induction l as [|x l IH]; [constructor|]. by apply insert_by_ranked. Qed.

Lemma ranked_filter (P : IpAddr → Prop) `{!∀ x, Decision (P x)} l : ranked l → ranked (filter P l).
Proof.
  induction 1 as [|a l Ha Hl IH]; [constructor|]. rewrite filter_cons. case_decide; [|done].
  constructor; [|done]. rewrite Forall_forall in *. intros x [_ Hx]%list_elem_of_filter. by apply Ha.
Qed.

(** ** The addresses offered to clients *)
Definition usable_ips (o : NetworkOptions) (ifs : list (string * IpAddr)) : list IpAddr :=
  (filter (λ i, usable o i = true) ifs).*2.

Lemma sorted_addresses o ifs :
  (sort_by address_cmp (collect_addresses o ifs)).*1 = sort_by ip_cmp (usable_ips o ifs).
Proof.
  assert (collect_addresses o ifs = with_priority <$> usable_ips o ifs) as ->.
  { unfold collect_addresses, usable_ips. by rewrite <-list_fmap_compose. }
  rewrite sort_by_fmap, <-list_fmap_compose. apply list_fmap_id.
Qed.

Lemma filter_families (l : list IpAddr) :
  (filter (λ ip, is_ipv6 ip = true) l ++ filter (λ ip, is_ipv4 ip = true) l)%list ≡ₚ l.
Proof.
  induction l as [|[a|a] l IH]; [done| |]; rewrite !filter_cons; simpl.
  - by rewrite <-Permutation_middle, IH.
  - by rewrite IH.
Qed.

Lemma interleave_perm v6 v4 : interleave v6 v4 ≡ₚ (v6 ++ v4)%list.
Proof.
  unfold interleave. rewrite <-(take_drop 1 v6) at 3. rewrite <-(take_drop 1 v4) at 3.
  rewrite <-!app_assoc. apply Permutation_app_head. rewrite !app_assoc. apply Permutation_app_tail, Permutation_app_comm.
Qed.

Lemma ordered_addresses_perm o ifs : ordered_addresses o ifs ≡ₚ usable_ips o ifs.
Proof.
  unfold ordered_addresses. rewrite sorted_addresses, interleave_perm, filter_families. apply sort_by_perm.
Qed.

Lemma ranked_head l ip : ranked l → ip ∈ l → ∃ a, l !! 0%nat = Some a ∧ better a ip.
Proof.
  destruct 1 as [|a l Ha Hl]; [by intros ?%elem_of_nil|]. intros [->|Hin]%elem_of_cons; exists a; (split; [done|]).
  - unfold better. rewrite ip_cmp_key. pose proof (list_cmp_opp (address_key a) (address_key a)) as Ho.
    by destruct (list_cmp _ _).
  - rewrite Forall_forall in Ha. by apply Ha.
Qed.

Section families.
Context (o : NetworkOptions) (ifs : list (string * IpAddr)).
Let srt := sort_by ip_cmp (usable_ips o ifs).

Lemma srt_elem ip : ip ∈ srt ↔ ip ∈ usable_ips o ifs.
Proof. unfold srt. by rewrite sort_by_perm. Qed.

Lemma best_of_family (f : IpAddr → bool) ip :
  ip ∈ usable_ips o ifs → f ip = true →
  ∃ best l, filter (λ ip, f ip = true) srt = best :: l ∧ f best = true ∧ better best ip.
Proof.
  intros Hip Hf. destruct (ranked_head (filter (λ ip, f ip = true) srt) ip) as (a & Ha & Hb).
  { apply ranked_filter, sort_by_ranked. }
  { apply list_elem_of_filter. by rewrite srt_elem. }
  destruct (filter (λ ip, f ip = true) srt) as [|b l] eqn:E; simplify_eq/=. exists a, l. split_and!; [done| |done].
  assert (a ∈ filter (λ ip, f ip = true) srt) as Hin by (rewrite E; by left). by apply list_elem_of_filter in Hin as [? _].
Qed.

Lemma family_empty (f : IpAddr → bool) :
  ¬ Exists (λ ip, f ip = true) (usable_ips o ifs) → filter (λ ip, f ip = true) srt = [].
Proof.
  intros Hn. apply filter_none. intros x Hx Hf. apply Hn, Exists_exists. exists x. by rewrite srt_elem in Hx.
Qed.
End families.

(** The addresses offered to clients are exactly the usable ones (no
    loopback or link-local address, no container or VPN interface), at most the
    configured number, and the first is the best usable IPv6 address whenever
    there is one, the best usable IPv4 address coming next (or first). *)
Lemma local_addresses_best_first o ifs :
  let l := ordered_addresses o ifs in
  get_all_local_ips_with_options (Some ifs) o
    = ip_to_string <$> match no_max_addresses o with Some max => take max l | None => l end ∧
  l ≡ₚ usable_ips o ifs ∧
  (∀ ip, ip ∈ usable_ips o ifs → is_ipv6 ip = true →
     ∃ best, l !! 0%nat = Some best ∧ is_ipv6 best = true ∧ better best ip) ∧
  (∀ ip, ip ∈ usable_ips o ifs → is_ipv4 ip = true →
     ∃ best, l !! (if decide (Exists (λ ip, is_ipv6 ip = true) (usable_ips o ifs)) then 1 else 0)%nat = Some best ∧
       is_ipv4 best = true ∧ better best ip).
Proof.
  cbv zeta. split_and!; [done|apply ordered_addresses_perm| |].
  all: intros ip Hip Hfam; unfold ordered_addresses, interleave; rewrite sorted_addresses.
  - destruct (best_of_family o ifs is_ipv6 ip Hip Hfam) as (best & l & -> & ? & ?). by exists best.
  - destruct (best_of_family o ifs is_ipv4 ip Hip Hfam) as (best & l & -> & ? & ?). exists best.
    case_decide as Hd; [|by rewrite family_empty].
    apply Exists_exists in Hd as (x & Hx & Hv).
    by destruct (best_of_family o ifs is_ipv6 x Hx Hv) as (y & k & -> & _ & _).
Qed.

(** Two settings have no effect: link-local IPv6 addresses are dropped
    before the option [include_link_local_ipv6] is looked at, and
    [prefer_stable_addresses] is never read. *)
Lemma network_options_ignored ifs a b c d max :
  get_all_local_ips_with_options ifs (mkNetworkOptions a b max)
  = get_all_local_ips_with_options ifs (mkNetworkOptions c d max).
Proof.
  assert (∀ i, usable (mkNetworkOptions a b max) i = usable (mkNetworkOptions c d max) i) as Hu.
  { intros [name ip]. unfold usable, skip_link_local. simpl.
    destruct (should_filter_ip ip) eqn:E; [by rewrite !andb_false_r|].
    destruct ip as [v4|v6]; [by rewrite !andb_false_r|]. simpl in E. apply orb_false_iff in E as [_ E].
    unfold from_address. rewrite E. rewrite bool_decide_false; [by rewrite !andb_false_r|]. by repeat case_match. }
  destruct ifs as [ifs|]; [|done]. unfold get_all_local_ips_with_options, ordered_addresses, collect_addresses. simpl.
  by rewrite (list_filter_iff _ (λ i, usable (mkNetworkOptions c d max) i = true) ifs) by (intros i; by rewrite Hu).
Qed.

(** The heuristic for temporary addresses never recognizes an EUI-64 address:
    every address whose interface identifier has [ff:fe] in its middle is
    classified as temporary. *)
Lemma eui64_classified_temporary a :
  v6_5 a mod 256 = 0xff → v6_6 a / 256 = 0xfe → is_ipv6_temporary a = true.
Proof.
  intros H5 _. unfold is_ipv6_temporary. destruct (Z.eqb_spec (v6_5 a) 0xfffe) as [E|E]; [|done].
  rewrite E in H5. vm_compute in H5. done.
Qed.
