(* ===== verification/Config.v ===== *)
(** * Configuration (server/src/config/parser.rs, config/defaults.rs)

    The configuration records, the defaults serde fills in for absent keys, the
    generated default configuration of each platform, and [load_config].  The
    TOML parser delivers a [RawConfig], in which an absent key is [None]; the
    [de_*] functions are the [serde] attributes of the source. *)

From S2P Require Import Prelude RustStd ThirdParty Fs.

Open Scope Z_scope.

Definition DEFAULT_RELAY_SUBPROTOCOL : string := "handcontrol-relay.v1".

Inductive TargetOs := Linux | Windows | MacOs | OtherOs.

(** ** Records *)
Record ServerConfig := mkServerConfig {
  srv_port : Z;
  srv_bind_address : string;
  srv_mdns_service_name : string;
  srv_mdns_instance_name : option string;
}.

Record EnrollmentConfig := mkEnrollmentConfig {
  enr_qr_code_enabled : bool;
  enr_approval_enabled : bool;
  enr_approval_timeout_seconds : Z;
  enr_approval_notification : bool;
}.

Record SecurityConfig := mkSecurityConfig {
  sec_cert_path : option string;
  sec_key_path : option string;
  sec_authorized_clients_dir : option string;
  sec_enrollment_token_ttl : Z;
  sec_require_client_cert : bool;
  sec_enrollment : EnrollmentConfig;
}.

Record NetworkConfig := mkNetworkConfig {
  net_prefer_ipv6 : bool;
  net_include_link_local : bool;
  net_include_ula : bool;
  net_prefer_stable_addresses : bool;
  net_excluded_interface_prefixes : list string;
  net_max_advertised_addresses : nat;
}.

Record RelayConfig := mkRelayConfig {
  rel_enabled : bool;
  rel_relay_server_url : option string;
  rel_relay_auth_secret : option string;
  rel_max_relay_tunnels : option Z;
  rel_auto_connect : bool;
  rel_include_in_enrollment : bool;
  rel_reconnect_delay_seconds : Z;
  rel_relay_token_ttl_hours : Z;
  rel_allow_self_signed_tls : bool;
  rel_pinned_cert_sha256 : option string;
  rel_debug_mode : bool;
  rel_websocket_subprotocol : string;
}.

Inductive CapabilitySessionMode := CmOneShot | CmRealtime | CmUpload | CmDownload.
Inductive CapabilityKindConfig := CkShellScript | CkShellInteractive | CkFileTransfer.

#[export] Instance CapabilitySessionMode_eq_dec : EqDecision CapabilitySessionMode.
Proof. solve_decision. Defined.

Record ShellScriptDefinition := mkShellScriptDefinition {
  sh_command : string;
  sh_timeout_seconds : Z;
  sh_env : gmap string string;
  sh_show_output : bool;
  sh_session_mode : CapabilitySessionMode;
}.

Record ShellInteractiveDefinition := mkShellInteractiveDefinition {
  si_path : string;
  si_argv : list string;
  si_working_directory : option string;
  si_env : gmap string string;
  si_idle_timeout_seconds : option Z;
  si_max_duration_seconds : option Z;
  si_session_mode : option CapabilitySessionMode;
}.

Inductive CapabilityDefinition :=
  | DefShellScript (d : ShellScriptDefinition)
  | DefShellInteractive (d : ShellInteractiveDefinition).

Record CapabilityParameterConfig := mkCapabilityParameterConfig {
  pc_name : string;
  pc_param_type : string;
  pc_description : option string;
  pc_min : option Z;
  pc_max : option Z;
  pc_default : option string;
  pc_options : list string;
  pc_validation : option string;
  pc_label_on : option string;
  pc_label_off : option string;
  pc_step : option Z;
  pc_default_value_command : option string;
  pc_default_value_pattern : option string;
}.

Record CapabilityAclConfig := mkCapabilityAclConfig { acl_allow : list string; acl_deny : list string }.

Record CapabilityConfig := mkCapabilityConfig {
  cap_id : string;
  cap_name : string;
  cap_description : option string;
  cap_tags : list string;
  cap_requires_confirmation : bool;
  cap_privileged : bool;
  cap_parameters : list CapabilityParameterConfig;
  cap_acl : CapabilityAclConfig;
  cap_definition : CapabilityDefinition;
}.

Record Config := mkConfig {
  cfg_server : ServerConfig;
  cfg_security : SecurityConfig;
  cfg_network : NetworkConfig;
  cfg_relay : RelayConfig;
  cfg_capabilities : list CapabilityConfig;
}.

Definition def_session_mode (d : CapabilityDefinition) : CapabilitySessionMode :=
  match d with
  | DefShellScript d => sh_session_mode d
  | DefShellInteractive d => default CmRealtime (si_session_mode d)
  end.

Definition def_kind (d : CapabilityDefinition) : CapabilityKindConfig :=
  match d with DefShellScript _ => CkShellScript | DefShellInteractive _ => CkShellInteractive end.

(** ** Default values *)
Definition default_port : Z := 50051.
Definition default_bind_address : string := "::".
Definition default_mdns_service_name : string := "handcontrol".
Definition default_enrollment_token_ttl : Z := 300.
Definition default_true : bool := true.
Definition default_require_client_cert : bool := false.
Definition default_approval_timeout : Z := 60.
Definition default_command_timeout : Z := 30.
Definition default_max_addresses : nat := 5.
Definition default_excluded_interfaces : list string :=
  ["docker"; "veth"; "br-"; "virbr"; "tun"; "tap"]%string.
Definition default_relay_reconnect_delay : Z := 30.
Definition default_relay_token_ttl_hours : Z := 2160.
Definition default_relay_subprotocol : string := DEFAULT_RELAY_SUBPROTOCOL.
Definition one_shot_default : CapabilitySessionMode := CmOneShot.
Definition default_interactive_shell_path (os : TargetOs) : string :=
  match os with Windows => "cmd.exe" | _ => "/bin/sh" end.
Definition default_interactive_shell_argv : list string := ["-i"%string].

(** [#[derive(Default)]]: [false] and [0], not the [serde] defaults. *)
Definition EnrollmentConfig_default : EnrollmentConfig := mkEnrollmentConfig false false 0 false.
Definition NetworkConfig_default : NetworkConfig :=
  mkNetworkConfig true false true true default_excluded_interfaces default_max_addresses.
Definition RelayConfig_default : RelayConfig :=
  mkRelayConfig false None None None true false default_relay_reconnect_delay default_relay_token_ttl_hours
    false None false default_relay_subprotocol.
Definition CapabilityAclConfig_default : CapabilityAclConfig := mkCapabilityAclConfig [] [].

(** ** Absent keys *)
Record RawServer := mkRawServer {
  rs_port : option Z; rs_bind_address : option string;
  rs_mdns_service_name : option string; rs_mdns_instance_name : option string }.
Record RawEnrollment := mkRawEnrollment {
  re_qr : option bool; re_approval : option bool; re_timeout : option Z; re_notification : option bool }.
Record RawSecurity := mkRawSecurity {
  rse_cert_path : option string; rse_key_path : option string; rse_clients_dir : option string;
  rse_ttl : option Z; rse_require : option bool; rse_enrollment : option RawEnrollment }.
Record RawNetwork := mkRawNetwork {
  rn_prefer_ipv6 : option bool; rn_include_link_local : option bool; rn_include_ula : option bool;
  rn_prefer_stable : option bool; rn_excluded : option (list string); rn_max : option nat }.
Record RawRelay := mkRawRelay {
  rr_enabled : option bool; rr_url : option string; rr_secret : option string; rr_max_tunnels : option Z;
  rr_auto_connect : option bool; rr_include : option bool; rr_delay : option Z; rr_ttl_hours : option Z;
  rr_self_signed : option bool; rr_pinned : option string; rr_debug : option bool; rr_subprotocol : option string }.
Record RawConfig := mkRawConfig {
  rc_server : RawServer; rc_security : RawSecurity; rc_network : option RawNetwork;
  rc_relay : option RawRelay; rc_capabilities : option (list CapabilityConfig) }.

Definition de_server (r : RawServer) : ServerConfig :=
  mkServerConfig (default default_port (rs_port r)) (default default_bind_address (rs_bind_address r))
    (default default_mdns_service_name (rs_mdns_service_name r)) (rs_mdns_instance_name r).

Definition de_enrollment (r : RawEnrollment) : EnrollmentConfig :=
  mkEnrollmentConfig (default default_true (re_qr r)) (default default_true (re_approval r))
    (default default_approval_timeout (re_timeout r)) (default default_true (re_notification r)).

Definition de_security (r : RawSecurity) : SecurityConfig :=
  mkSecurityConfig (rse_cert_path r) (rse_key_path r) (rse_clients_dir r)
    (default default_enrollment_token_ttl (rse_ttl r)) (default default_require_client_cert (rse_require r))
    (default EnrollmentConfig_default (de_enrollment <$> rse_enrollment r)).

Definition de_network (r : RawNetwork) : NetworkConfig :=
  mkNetworkConfig (default default_true (rn_prefer_ipv6 r)) (default false (rn_include_link_local r))
    (default default_true (rn_include_ula r)) (default default_true (rn_prefer_stable r))
    (default default_excluded_interfaces (rn_excluded r)) (default default_max_addresses (rn_max r)).

Definition de_relay (r : RawRelay) : RelayConfig :=
  mkRelayConfig (default false (rr_enabled r)) (rr_url r) (rr_secret r) (rr_max_tunnels r)
    (default default_true (rr_auto_connect r)) (default false (rr_include r))
    (default default_relay_reconnect_delay (rr_delay r)) (default default_relay_token_ttl_hours (rr_ttl_hours r))
    (default false (rr_self_signed r)) (rr_pinned r) (default false (rr_debug r))
    (default default_relay_subprotocol (rr_subprotocol r)).

Definition de_config (r : RawConfig) : Config :=
  mkConfig (de_server (rc_server r)) (de_security (rc_security r))
    (default NetworkConfig_default (de_network <$> rc_network r))
    (default RelayConfig_default (de_relay <$> rc_relay r))
    (default [] (rc_capabilities r)).

(** ** Loading *)
Definition expand_tilde (path home : string) : string :=
  if starts_with "~/" path then path_join home (string_drop 2 path) else path.

Definition expand_paths (home : option string) (c : Config) : result string Config :=
  home ← ok_or home "Failed to determine home directory"%string;
  let ex p := expand_tilde p home in
  let s := cfg_security c in
  Ok (mkConfig (cfg_server c)
        (mkSecurityConfig (ex <$> sec_cert_path s) (ex <$> sec_key_path s) (ex <$> sec_authorized_clients_dir s)
           (sec_enrollment_token_ttl s) (sec_require_client_cert s) (sec_enrollment s))
        (cfg_network c) (cfg_relay c) (cfg_capabilities c)).

Section load.
(** [toml::from_str] as far as the [RawConfig]. *)
Context (toml_config : string → option RawConfig).

Definition load_config_from_str (home : option string) (content : string) : result string Config :=
  raw ← ok_or (toml_config content) "Failed to parse config from string"%string;
  expand_paths home (de_config raw).

Definition load_config (home : option string) (ans : bool) (path : string) (fs : FileSystem) : result string Config :=
  content ← ok_or (fs_read_to_string ans path fs) (String.append "Failed to read config file: " path);
  raw ← ok_or (toml_config content) (String.append "Failed to parse config file: " path);
  expand_paths home (de_config raw).
End load.

Definition default_config_path (config_dir : result string string) : result string string :=
  d ← config_dir; Ok (path_join d "config.toml").

(** Leaving out the section [security.enrollment] disables both ways to enroll,
    while an empty section enables them. *)
Lemma absent_enrollment_section_disables r :
  (rse_enrollment r = None → sec_enrollment (de_security r) = mkEnrollmentConfig false false 0 false) ∧
  (rse_enrollment r = Some (mkRawEnrollment None None None None) →
   sec_enrollment (de_security r) = mkEnrollmentConfig true true 60 true).
Proof. unfold de_security. simpl. by split; intros ->. Qed.
