(* ===== verification/Defaults.v ===== *)
(** * The generated default configuration (server/src/config/defaults.rs)

    One list of capabilities per target platform; the conditional compilation of
    the source is the argument [os]. *)

From S2P Require Import Prelude RustStd ThirdParty Config.

Local Open Scope string_scope.
Open Scope Z_scope.

Definition default_interactive_shell_capability (os : TargetOs) : CapabilityConfig :=
  mkCapabilityConfig "shell.interactive" "Interactive Shell" (Some "Open an interactive shell session")
    ["system"; "shell"] true true [] CapabilityAclConfig_default
    (DefShellInteractive (mkShellInteractiveDefinition
       match os with Windows => "cmd.exe" | _ => "/bin/sh" end
       ["-i"] None ∅ (Some 600) (Some 3600) None)).

Definition script (id name description : string) (tags : list string) (confirm : bool)
    (parameters : list CapabilityParameterConfig) (command : string) (timeout : Z) (show : bool)
    : CapabilityConfig :=
  mkCapabilityConfig id name (Some description) tags confirm false parameters CapabilityAclConfig_default
    (DefShellScript (mkShellScriptDefinition command timeout ∅ show CmOneShot)).

Definition level_parameter : CapabilityParameterConfig :=
  mkCapabilityParameterConfig "level" "slider" (Some "Volume level (0-100)") (Some 0) (Some 100) (Some "50")
    [] None None None (Some 5) None None.

Definition muted_parameter : CapabilityParameterConfig :=
  mkCapabilityParameterConfig "muted" "toggle" (Some "Mute state") None None (Some "1")
    [] None (Some "Mute") (Some "Unmute") None None None.

Definition linux_capabilities : list CapabilityConfig :=
  [script "lock-screen" "Lock Screen" "Locks the computer screen" ["system"; "security"] false []
     "loginctl lock-session" 5 true;
   script "suspend" "Suspend" "Suspends the computer" ["system"; "power"] true []
     "systemctl suspend" 5 true;
   script "set-volume" "Set Volume" "Adjust system volume" ["media"; "audio"] false [level_parameter]
     "pactl set-sink-volume @DEFAULT_SINK@ {level}%" 3 false;
   script "toggle-mute" "Toggle Mute" "Mute or unmute audio" ["media"; "audio"] false [muted_parameter]
     "pactl set-sink-mute @DEFAULT_SINK@ {muted}" 3 false;
   default_interactive_shell_capability Linux].

Definition windows_capabilities : list CapabilityConfig :=
  [script "lock-screen" "Lock Screen" "Locks the computer screen" ["system"; "security"] false []
     "rundll32.exe user32.dll,LockWorkStation" 5 true;
   script "shutdown" "Shutdown" "Shuts down the computer" ["system"; "power"] true []
     "shutdown /s /t 0" 5 true;
   default_interactive_shell_capability Windows].

Definition macos_capabilities : list CapabilityConfig :=
  [script "lock-screen" "Lock Screen" "Locks the computer screen" ["system"; "security"] false []
     "/System/Library/CoreServices/Menu\ Extras/User.menu/Contents/Resources/CGSession -suspend" 5 true;
   script "set-volume" "Set Volume" "Adjust system volume" ["media"; "audio"] false [level_parameter]
     "osascript -e 'set volume output volume {level}'" 3 false;
   default_interactive_shell_capability MacOs].

Definition generate_platform_capabilities (os : TargetOs) : list CapabilityConfig :=
  match os with
  | Linux => linux_capabilities
  | Windows => windows_capabilities
  | MacOs => macos_capabilities
  | OtherOs => [default_interactive_shell_capability OtherOs]
  end.

Definition generate_default_config (os : TargetOs) : Config :=
  mkConfig (mkServerConfig 50051 "::" "handcontrol" None)
    (mkSecurityConfig None None None 300 false (mkEnrollmentConfig true true 60 true))
    NetworkConfig_default RelayConfig_default (generate_platform_capabilities os).

Definition generate_default_config_toml `{!TomlCodec Config} (os : TargetOs) : result string string :=
  toml_to_string_pretty (generate_default_config os).
