(* ===== verification/Placeholders.v ===== *)
(** * Placeholders of a shell command

    The two regular expressions of the program have the shape of a class of
    characters, one or more, in braces: [\{(\w+)\}] (config/validation.rs) and
    [\{([a-zA-Z0-9_-]+)\}] (capabilities/parameters.rs).  Neither class contains
    a brace, so [captures_iter] is the scan below.  A class is given by the
    number of bytes of the member a string starts with, 0 for none. *)

From S2P Require Import Prelude RustStd.

Open Scope Z_scope.

Abbreviation char_class := (string → nat) (only parsing).

(** [[a-zA-Z0-9_-]]. *)
Definition sub_char (c : ascii) : bool :=
  is_ascii_alpha c || is_ascii_digit c || bool_decide (c = "_"%char) || bool_decide (c = "-"%char).
Definition sub_class (s : string) : nat :=
  match s with String c _ => if sub_char c then 1 else 0 | EmptyString => 0 end.

(** [\w]: the ASCII word characters; for the others the Unicode tables of the
    [regex] crate decide, given as the parameter [uni]. *)
Definition word_char (c : ascii) : bool :=
  is_ascii_alpha c || is_ascii_digit c || bool_decide (c = "_"%char).
Definition word_class (uni : string → bool) (s : string) : nat :=
  match s with
  | String c _ => if word_char c then 1
                  else if (1 <? Z.of_nat (utf8_len s)) && uni (String.substring 0 (utf8_len s) s)
                       then utf8_len s else 0
  | EmptyString => 0
  end.

(** The longest run of members at the head of [s], and the rest. *)
Fixpoint class_run (fuel : nat) (cl : string → nat) (s : string) : string * string :=
  match fuel with
  | O => (EmptyString, s)
  | S fuel' =>
      match cl s with
      | O => (EmptyString, s)
      | n => let '(name, rest) := class_run fuel' cl (string_drop n s) in
             (String.append (String.substring 0 n s) name, rest)
      end
  end.

(** A match at the head of [s]: the captured name and what follows. *)
Definition placeholder_at (cl : string → nat) (s : string) : option (string * string) :=
  match s with
  | String c s' =>
      if decide (c = "{"%char) then
        let '(name, rest) := class_run (String.length s') cl s' in
        match name, rest with
        | String _ _, String d rest' => if decide (d = "}"%char) then Some (name, rest') else None
        | _, _ => None
        end
      else None
  | EmptyString => None
  end.

(** The names [captures_iter] yields; [fuel] bounds the scan and the length of
    the command is enough. *)
Fixpoint captures_fuel (fuel : nat) (cl : string → nat) (s : string) : list string :=
  match fuel with
  | O => []
  | S fuel' =>
      match placeholder_at cl s with
      | Some (name, rest) => name :: captures_fuel fuel' cl rest
      | None => match s with String _ s' => captures_fuel fuel' cl s' | EmptyString => [] end
      end
  end.
Definition captures (cl : string → nat) (s : string) : list string :=
  captures_fuel (String.length s) cl s.

Example captures_examples :
  captures sub_class "a {b} {{c-d}} {} {é} {e" = ["b"; "c-d"]%string ∧
  captures (word_class (λ _, true)) "a {b} {{c-d}} {} {é} {e" = ["b"; "é"]%string.
Proof. done. Qed.

(** ** Templates: a command as literal characters and holes *)
Definition braced (name : string) : string := String "{" (String.append name (String "}" EmptyString)).

Definition sub_name (n : string) : Prop := n ≠ EmptyString ∧ string_forall sub_char n = true.

Inductive piece := Lit (c : ascii) | Hole (name : string).

Definition render_piece (σ : string → string) (p : piece) : string :=
  match p with Lit c => String c EmptyString | Hole n => σ n end.
Definition render (σ : string → string) (ps : list piece) : string :=
  foldr (λ p s, String.append (render_piece σ p) s) EmptyString ps.

Definition holes (ps : list piece) : list string := omap (λ p, match p with Hole n => Some n | Lit _ => None end) ps.

Fixpoint pieces_fuel (fuel : nat) (s : string) : list piece :=
  match fuel with
  | O => []
  | S fuel' =>
      match placeholder_at sub_class s with
      | Some (name, rest) => Hole name :: pieces_fuel fuel' rest
      | None => match s with String c s' => Lit c :: pieces_fuel fuel' s' | EmptyString => [] end
      end
  end.
Definition pieces (s : string) : list piece := pieces_fuel (String.length s) s.

Lemma string_forall_app f s t : string_forall f (String.append s t) = string_forall f s && string_forall f t.
Proof. induction s as [|c s IH]; [done|]. rewrite append_cons. simpl. by rewrite IH, andb_assoc. Qed.

Lemma str_contains_char_app c s t : str_contains_char c (String.append s t) = str_contains_char c s || str_contains_char c t.
Proof.
  unfold str_contains_char. induction s as [|d s IH]; [done|]. rewrite append_cons. simpl. by rewrite IH, orb_assoc.
Qed.

Lemma class_run_split cl f s name rest :
  class_run f cl s = (name, rest) → s = String.append name rest.
Proof.
  assert (∀ n s, s = String.append (String.substring 0 n s) (string_drop n s)) as Hsplit.
  { intros n. induction n as [|n IH]; intros [|c t]; try done. cbn [String.substring string_drop].
    rewrite append_cons. by rewrite <-IH. }
  revert s name rest. induction f as [|f IH]; intros s name rest; cbn [class_run]; [by intros; simplify_eq|].
  destruct (cl s) as [|n]; [by intros; simplify_eq|].
  destruct (class_run f cl (string_drop (S n) s)) as [name' rest'] eqn:E. intros ?; simplify_eq.
  apply IH in E. by rewrite <-append_assoc, <-E.
Qed.

Lemma placeholder_at_split cl s name rest :
  placeholder_at cl s = Some (name, rest) → s = String.append (braced name) rest ∧ name ≠ EmptyString.
Proof.
  destruct s as [|c s]; simpl; [done|]. case_decide; [subst c|done].
  destruct (class_run (String.length s) cl s) as [n r] eqn:E. apply class_run_split in E.
  destruct n as [|a n]; [done|]. destruct r as [|d r]; [done|]. case_decide; [subst d|done].
  intros ?; simplify_eq. split; [|done]. unfold braced. by rewrite (append_cons "{"), <-append_assoc.
Qed.

Lemma placeholder_at_length cl s name rest :
  placeholder_at cl s = Some (name, rest) → (String.length rest < String.length s)%nat.
Proof.
  intros [-> _]%placeholder_at_split. rewrite length_append. unfold braced. simpl. lia.
Qed.

Lemma substring_one c s : String.substring 0 1 (String c s) = String c EmptyString.
Proof. by destruct s. Qed.

Lemma class_run_sub_name f s name rest :
  class_run f sub_class s = (name, rest) → string_forall sub_char name = true.
Proof.
  revert s name rest. induction f as [|f IH]; intros s name rest; cbn [class_run]; [by intros; simplify_eq|].
  destruct s as [|c s]; cbn [sub_class]; [by intros; simplify_eq|].
  destruct (sub_char c) eqn:Ec; [|by intros; simplify_eq].
  destruct (class_run f sub_class (string_drop 1 (String c s))) as [name' rest'] eqn:E. apply IH in E.
  rewrite substring_one, append_cons, append_nil_l. intros; simplify_eq. simpl. by rewrite Ec.
Qed.

Lemma placeholder_at_sub s name rest : placeholder_at sub_class s = Some (name, rest) → sub_name name.
Proof.
  intros Hp. split; [by apply placeholder_at_split in Hp as [_ ?]|]. revert Hp.
  destruct s as [|c s]; simpl; [done|]. case_decide; [|done].
  destruct (class_run (String.length s) sub_class s) as [n r] eqn:E. apply class_run_sub_name in E.
  destruct n as [|a n]; [done|]. destruct r as [|d r]; [done|]. case_decide; [|done]. by intros; simplify_eq.
Qed.

Lemma holes_pieces_fuel f s : holes (pieces_fuel f s) = captures_fuel f sub_class s.
Proof.
  revert s. induction f as [|f IH]; intros s; [done|]. cbn [pieces_fuel captures_fuel].
  destruct (placeholder_at sub_class s) as [[n r]|]; [|destruct s as [|c s]; [done|apply IH]].
  unfold holes. cbn. f_equal. apply IH.
Qed.

Lemma source_pieces_fuel f s : (String.length s ≤ f)%nat → render braced (pieces_fuel f s) = s.
Proof.
  revert s. induction f as [|f IH]; intros s Hf; [by destruct s; simpl in *; [|lia]|]. cbn [pieces_fuel].
  destruct (placeholder_at sub_class s) as [[n r]|] eqn:E.
  - pose proof (placeholder_at_length _ _ _ _ E). apply placeholder_at_split in E as [-> _].
    cbn [render foldr render_piece]. f_equal. apply IH. lia.
  - destruct s as [|c s]; [done|]. cbn [render foldr render_piece]. rewrite append_cons, append_nil_l. f_equal.
    apply IH. simpl in Hf. lia.
Qed.

Lemma pieces_fuel_names f s : Forall sub_name (holes (pieces_fuel f s)).
Proof.
  revert s. induction f as [|f IH]; intros s; [constructor|]. cbn [pieces_fuel].
  destruct (placeholder_at sub_class s) as [[n r]|] eqn:E; [|destruct s as [|c s]; [constructor|apply IH]].
  unfold holes. cbn. constructor; [by eapply placeholder_at_sub|apply IH].
Qed.

Lemma holes_pieces s : holes (pieces s) = captures sub_class s.
Proof. apply holes_pieces_fuel. Qed.
Lemma source_pieces s : render braced (pieces s) = s.
Proof. by apply source_pieces_fuel. Qed.
Lemma pieces_names s : Forall sub_name (holes (pieces s)).
Proof. apply pieces_fuel_names. Qed.

(** ** Replacing one name *)
Lemma sub_char_brace c : sub_char c = true → c ≠ "{"%char ∧ c ≠ "}"%char.
Proof. intros Hc; split; intros ->; vm_compute in Hc; done. Qed.

Lemma sub_name_no_brace n :
  string_forall sub_char n = true → str_contains_char "{" (String.append n (String "}" EmptyString)) = false.
Proof.
  induction n as [|c n IH]; [done|]. rewrite append_cons. unfold str_contains_char in *. simpl.
  intros [Hc Hn]%andb_true_iff. rewrite IH by done. apply sub_char_brace in Hc as [Hc _].
  by rewrite bool_decide_false.
Qed.

Lemma strip_prefix_braced m n s :
  string_forall sub_char m = true → string_forall sub_char n = true → m ≠ n →
  strip_prefix (braced m) (String.append (braced n) s) = None.
Proof.
  unfold braced. rewrite (append_cons "{"). simpl. revert n.
  induction m as [|a m IH]; intros [|b n] Hm Hn Hne; [done| | |]; rewrite ?append_nil_l, ?append_cons; simpl in *.
  - apply andb_true_iff in Hn as [Hb _]. apply sub_char_brace in Hb as [_ Hb]. by rewrite decide_False by congruence.
  - apply andb_true_iff in Hm as [Ha _]. apply sub_char_brace in Ha as [_ Ha]. by rewrite decide_False by congruence.
  - apply andb_true_iff in Hm as [Ha Hm], Hn as [Hb Hn]. case_decide; [|done]. subst b. apply IH; [done..|congruence].
Qed.

Lemma replace_other_braced m n by_ s :
  string_forall sub_char m = true → string_forall sub_char n = true → n ≠ m →
  str_replace (String.append (braced n) s) (braced m) by_ = String.append (braced n) (str_replace s (braced m) by_).
Proof.
  intros Hm Hn Hne.
  pose proof (strip_prefix_braced m n s Hm Hn (not_eq_sym Hne)) as Hs.
  unfold braced at 1 3. unfold braced at 2 in Hs. rewrite !(append_cons "{") in *.
  transitivity (String "{" (str_replace (String.append (String.append n (String "}" EmptyString)) s) (braced m) by_)).
  - by apply str_replace_skip.
  - f_equal. by apply str_replace_without, sub_name_no_brace.
Qed.

(** Holes named in [D] are filled with [σ], the others still read [{name}]. *)
Definition filled (σ : string → string) (D : list string) (n : string) : string :=
  if decide (n ∈ D) then σ n else braced n.

Lemma str_replace_render σ D m ps :
  (∀ c, Lit c ∈ ps → c ≠ "{"%char) → Forall sub_name (holes ps) →
  (∀ n, n ∈ D → str_contains_char "{" (σ n) = false) → sub_name m →
  str_replace (render (filled σ D) ps) (braced m) (σ m) = render (filled σ (m :: D)) ps.
Proof.
  intros Hlit Hnames HD [_ Hm]. induction ps as [|[c|n] ps IH]; [done| |].
  all: cbn [render foldr render_piece]; fold (render (filled σ D) ps); fold (render (filled σ (m :: D)) ps).
  - rewrite !append_cons, !append_nil_l. transitivity (String c (str_replace (render (filled σ D) ps) (braced m) (σ m))).
    + apply str_replace_other. apply Hlit. by left.
    + f_equal. apply IH; [|done]. intros d Hd. apply Hlit. by right.
  - apply Forall_cons in Hnames as [[_ Hn] Hnames]. rewrite <-IH; [|intros d Hd; apply Hlit; by right|done].
    unfold filled at 1 3. destruct (decide (n ∈ D)) as [HnD|HnD].
    + rewrite decide_True by (by right). by apply str_replace_without, HD.
    + destruct (decide (n = m)) as [->|Hne].
      * rewrite decide_True by (by left). apply str_replace_match.
      * rewrite decide_False by (rewrite elem_of_cons; tauto). by apply replace_other_braced.
Qed.

Lemma render_ext σ τ ps : (∀ n, n ∈ holes ps → σ n = τ n) → render σ ps = render τ ps.
Proof.
  induction ps as [|[c|n] ps IH]; intros Hh; [done| |]; cbn [render foldr render_piece]; f_equal.
  - by apply IH.
  - apply Hh. by left.
  - apply IH. intros m Hm. apply Hh. by right.
Qed.

(** ** Which names are captured *)
Lemma captures_fuel_split f cl s n :
  n ∈ captures_fuel f cl s → ∃ pre post, s = String.append pre (String.append (braced n) post).
Proof.
  revert s. induction f as [|f IH]; intros s; cbn [captures_fuel]; [by intros ?%elem_of_nil|].
  destruct (placeholder_at cl s) as [[m r]|] eqn:E.
  - apply placeholder_at_split in E as [-> _]. intros [->|Hn]%elem_of_cons; [by exists EmptyString, r|].
    destruct (IH r Hn) as (pre & post & ->). exists (String.append (braced m) pre), post. by rewrite append_assoc.
  - destruct s as [|c s]; [by intros ?%elem_of_nil|]. intros Hn.
    destruct (IH s Hn) as (pre & post & ->). by exists (String c pre), post.
Qed.

Lemma captures_names s n : n ∈ captures sub_class s → sub_name n.
Proof. rewrite <-holes_pieces. apply Forall_forall, pieces_names. Qed.

(** A string without an opening brace that is a prefix of [x{y] ends before the
    brace. *)
Lemma brace_free_prefix w x y r :
  str_contains_char "{" w = false → String.append x (String "{" y) = String.append w r →
  ∃ x', x = String.append w x' ∧ r = String.append x' (String "{" y).
Proof.
  unfold str_contains_char. revert x. induction w as [|c w IH]; intros x Hw Heq.
  { exists x. by rewrite append_nil_l in Heq. }
  simpl in Hw. apply orb_false_iff in Hw as [Hc%bool_decide_eq_false Hw].
  destruct x as [|d x]; rewrite ?append_nil_l, ?append_cons in Heq; [congruence|]. injection Heq as -> Heq.
  destruct (IH x Hw Heq) as (x' & -> & ->). by exists x'.
Qed.

Section word.
Context (uni : string → bool).

Lemma word_char_brace c : word_char c = true → c ≠ "{"%char ∧ c ≠ "}"%char.
Proof. intros Hc; split; intros ->; vm_compute in Hc; done. Qed.

Lemma ascii_code_range lo hi c d :
  in_range lo hi c = true → c = d → (lo <= ascii_code d <= hi).
Proof. unfold in_range. intros [? ?]%andb_true_iff ->. lia. Qed.

(** The bytes of a character outside ASCII are not braces. *)
Lemma in_range_not_brace lo hi c : 128 <= lo → in_range lo hi c = true → c ≠ "{"%char.
Proof. intros Hlo Hc ->. apply (ascii_code_range lo hi _ "{"%char) in Hc; [|done]. change (ascii_code "{") with 123 in Hc. lia. Qed.

Lemma utf8_tail_no_brace s :
  (1 < utf8_len s)%nat → str_contains_char "{" (String.substring 0 (utf8_len s) s) = false.
Proof.
  destruct s as [|a [|b [|c [|d s]]]]; cbn [utf8_len]; repeat case_match; try (simpl; lia); intros _.
  all: repeat match goal with
       | H : (_ && _) = true |- _ => apply andb_true_iff in H as [? ?]
       | H : (_ || _) = true |- _ => apply orb_true_iff in H as [?|?]
       end.
  all: unfold str_contains_char, cont in *; cbn [String.substring string_exists].
  all: repeat (rewrite bool_decide_false by (eapply in_range_not_brace; [|eassumption]; lia)).
  all: try destruct s; done.
Qed.

Lemma word_class_no_brace s : str_contains_char "{" (String.substring 0 (word_class uni s) s) = false.
Proof.
  destruct s as [|c s]; [done|]. unfold word_class. destruct (word_char c) eqn:Ec.
  - apply word_char_brace in Ec as [Ec _]. rewrite substring_one. unfold str_contains_char. simpl.
    by rewrite bool_decide_false.
  - destruct (Z.ltb_spec 1 (Z.of_nat (utf8_len (String c s)))); [|done].
    case_match; [|done]. apply utf8_tail_no_brace. lia.
Qed.

Lemma class_run_no_brace f s name rest :
  class_run f (word_class uni) s = (name, rest) → str_contains_char "{" name = false.
Proof.
  revert s name rest. induction f as [|f IH]; intros s name rest; cbn [class_run]; [by intros; simplify_eq|].
  pose proof (word_class_no_brace s) as Hs. destruct (word_class uni s) as [|n]; [by intros; simplify_eq|].
  destruct (class_run f _ _) as [name' rest'] eqn:E. intros ?; simplify_eq.
  rewrite str_contains_char_app, Hs. by apply IH in E.
Qed.

Lemma class_run_word f n r :
  string_forall word_char n = true → (String.length n < f)%nat →
  class_run f (word_class uni) (String.append n (String "}" r)) = (n, String "}" r).
Proof.
  revert f. induction n as [|c n IH]; intros f Hn Hf; (destruct f as [|f]; [lia|]); [done|].
  simpl in Hn. apply andb_true_iff in Hn as [Hc Hn]. rewrite append_cons. cbn [class_run word_class].
  rewrite Hc, substring_one. cbn [string_drop]. rewrite (IH f) by (simpl in Hf; auto with lia). done.
Qed.

Lemma placeholder_at_word n r :
  n ≠ EmptyString → string_forall word_char n = true →
  placeholder_at (word_class uni) (String.append (braced n) r) = Some (n, r).
Proof.
  intros Hne Hn. unfold braced. rewrite append_cons, <-append_assoc, append_cons, append_nil_l.
  cbn [placeholder_at]. rewrite decide_True by done.
  rewrite class_run_word by (done || (rewrite length_append; simpl; lia)). by destruct n.
Qed.

Lemma captures_fuel_word f pre n post :
  n ≠ EmptyString → string_forall word_char n = true →
  (String.length (String.append pre (String.append (braced n) post)) ≤ f)%nat →
  n ∈ captures_fuel f (word_class uni) (String.append pre (String.append (braced n) post)).
Proof.
  intros Hne Hn. revert pre. induction f as [|f IH]; intros pre Hf.
  { rewrite !length_append in Hf. simpl in Hf. lia. }
  cbn [captures_fuel]. destruct pre as [|c pre].
  { rewrite append_nil_l, placeholder_at_word by done. by left. }
  rewrite append_cons in *. set (s := String c _) in *.
  destruct (placeholder_at (word_class uni) s) as [[m r]|] eqn:E; [|apply IH; simpl in Hf; lia].
  right. assert (str_contains_char "{" m = false) as Hm.
  { revert E. subst s. cbn [placeholder_at]. case_decide; [|done].
    destruct (class_run _ _ _) as [m' r'] eqn:Er. apply class_run_no_brace in Er.
    repeat case_match; try done. by intros [= <- <-]. }
  pose proof (placeholder_at_length _ _ _ _ E) as Hl. apply placeholder_at_split in E as [E _].
  subst s. unfold braced in E at 2. rewrite append_cons in E. injection E as -> E.
  destruct (brace_free_prefix (String.append m (String "}" EmptyString)) pre
              (String.append (String.append n (String "}" EmptyString)) post) r) as (pre' & -> & ->).
  - rewrite str_contains_char_app, Hm. done.
  - rewrite <-E. unfold braced. by rewrite append_cons.
  - apply IH. unfold braced. rewrite append_cons. simpl in Hf, Hl. lia.
Qed.
End word.
