(* ===== verification/Validation.v ===== *)
(** * Validation of the configuration (server/src/config/validation.rs) *)

From S2P Require Import Prelude RustStd ThirdParty Config Placeholders Defaults.

Local Open Scope string_scope.
Open Scope Z_scope.

(** [format!] of a list of parts. *)
Definition fmt (parts : list string) : string := foldr String.append "" parts.

Definition session_mode_debug (m : CapabilitySessionMode) : string :=
  match m with CmOneShot => "OneShot" | CmRealtime => "Realtime" | CmUpload => "Upload" | CmDownload => "Download" end.

Definition normalize_fingerprint (s : string) : string :=
  string_filter (λ c, negb (is_ascii_whitespace c) && negb (bool_decide (c = ":"%char))) s.

Definition non_blank (s : option string) : option string :=
  t ← trim <$> s; if str_is_empty t then None else Some t.

Definition relay_secret_missing (r : RelayConfig) : bool :=
  match rel_relay_auth_secret r with Some s => str_is_empty (trim s) | None => true end.

Definition validate_pinned (r : RelayConfig) : result string unit :=
  match rel_pinned_cert_sha256 r with
  | None => Ok tt
  | Some fingerprint =>
      bail! "relay.pinned_cert_sha256 requires relay.allow_self_signed_tls to be true"
        when negb (rel_allow_self_signed_tls r);
      let normalized := normalize_fingerprint fingerprint in
      bail! "relay.pinned_cert_sha256 must be a SHA-256 fingerprint (64 hex characters, colons optional)"
        when negb (bool_decide (String.length normalized = 64%nat))
             || negb (string_forall is_ascii_hexdigit normalized);
      Ok tt
  end.

Definition validate_server_config (c : Config) : result string unit :=
  let s := cfg_server c in
  let r := cfg_relay c in
  bail! "Server port cannot be 0" when srv_port s =? 0;
  bail! "Server bind_address cannot be empty" when str_is_empty (srv_bind_address s);
  bail! "Server mdns_service_name cannot be empty" when str_is_empty (srv_mdns_service_name s);
  bail! "Enrollment token TTL cannot be 0" when sec_enrollment_token_ttl (cfg_security c) =? 0;
  _ ← validate_pinned r;
  let relay_url := non_blank (rel_relay_server_url r) in
  _ ← (if rel_enabled r then
         bail! "Relay enabled but relay_server_url is missing" when bool_decide (relay_url = None);
         bail! "Relay enabled but relay_auth_secret is missing" when relay_secret_missing r;
         bail! "relay.reconnect_delay_seconds must be greater than 0" when rel_reconnect_delay_seconds r =? 0;
         bail! "relay.max_relay_tunnels must be greater than 0 when specified"
           when bool_decide (rel_max_relay_tunnels r = Some 0);
         Ok tt
       else Ok tt);
  (if rel_include_in_enrollment r then
     bail! "relay.include_in_enrollment requires relay.enabled = true" when negb (rel_enabled r);
     bail! "relay.include_in_enrollment requires relay.relay_server_url to be set" when bool_decide (relay_url = None);
     bail! "relay.include_in_enrollment requires relay.relay_auth_secret to be configured"
       when relay_secret_missing r;
     bail! "relay.websocket_subprotocol cannot be empty when relay.include_in_enrollment is true"
       when str_is_empty (trim (rel_websocket_subprotocol r));
     Ok tt
   else Ok tt).

Section validation.
Context `{RegexEngine}.

Definition validate_parameter (capability_id : string) (param : CapabilityParameterConfig) : result string unit :=
  let pre := fmt ["Capability '"; capability_id; "' parameter '"; pc_name param; "': "] in
  bail! fmt ["Capability '"; capability_id; "' has parameter with empty name"] when str_is_empty (pc_name param);
  if bool_decide (pc_param_type param = "slider") then
    match pc_min param, pc_max param with
    | Some min, Some max =>
        bail! fmt [pre; "min ("; pretty min; ") must be less than max ("; pretty max; ")"] when max <=? min;
        Ok tt
    | _, _ => Err (fmt [pre; "slider must define min and max"])
    end
  else if bool_decide (pc_param_type param = "text") then
    match pc_validation param with
    | Some regex => match regex_error regex with
                    | Some e => Err (fmt [pre; "invalid validation regex: "; e])
                    | None => Ok tt
                    end
    | None => Ok tt
    end
  else if bool_decide (pc_param_type param = "toggle") then Ok tt
  else if bool_decide (pc_param_type param = "dropdown") then
    bail! fmt [pre; "dropdown must include options"] when bool_decide (pc_options param = []);
    Ok tt
  else Err (fmt [pre; "unsupported type '"; pc_param_type param; "'"]).

(** The loop over the captures of the command. *)
Fixpoint check_placeholders (capability_id : string) (names : gset string) (caps : list string)
    : result string unit :=
  match caps with
  | [] => Ok tt
  | placeholder :: caps' =>
      bail! fmt ["Capability '"; capability_id; "' shell command references undefined parameter: "; placeholder]
        when negb (bool_decide (placeholder ∈ names));
      check_placeholders capability_id names caps'
  end.

Definition validate_parameter_placeholders (capability_id command : string)
    (parameters : list CapabilityParameterConfig) : result string unit :=
  check_placeholders capability_id (list_to_set (pc_name <$> parameters))
    (captures (word_class unicode_word) command).

Fixpoint validate_params_loop (capability_id : string) (seen : gset string)
    (params : list CapabilityParameterConfig) : result string unit :=
  match params with
  | [] => Ok tt
  | param :: params' =>
      bail! fmt ["Capability '"; capability_id; "' has duplicate parameter '"; pc_name param; "'"]
        when bool_decide (pc_name param ∈ seen);
      _ ← validate_parameter capability_id param;
      validate_params_loop capability_id ({[pc_name param]} ∪ seen) params'
  end.

Definition validate_definition (c : CapabilityConfig) : result string unit :=
  let id := cap_id c in
  match cap_definition c with
  | DefShellScript def =>
      bail! fmt ["Capability '"; id; "' shell command cannot be empty"] when str_is_empty (trim (sh_command def));
      bail! fmt ["Capability '"; id; "' timeout cannot be 0"] when sh_timeout_seconds def =? 0;
      validate_parameter_placeholders id (sh_command def) (cap_parameters c)
  | DefShellInteractive def =>
      bail! fmt ["Capability '"; id; "' interactive shell cannot be empty"] when str_is_empty (trim (si_path def));
      bail! fmt ["Capability '"; id; "' idle_timeout_seconds must be greater than 0"]
        when bool_decide (si_idle_timeout_seconds def = Some 0);
      bail! fmt ["Capability '"; id; "' max_duration_seconds must be greater than 0"]
        when bool_decide (si_max_duration_seconds def = Some 0);
      let mode := default CmRealtime (si_session_mode def) in
      bail! fmt ["Capability '"; id; "' interactive shell must use realtime session mode, found "; session_mode_debug mode]
        when negb (bool_decide (mode = CmRealtime));
      Ok tt
  end.

Definition validate_capability (c : CapabilityConfig) : result string unit :=
  bail! "Capability ID cannot be empty" when str_is_empty (cap_id c);
  bail! fmt ["Capability '"; cap_id c; "' has empty name"] when str_is_empty (cap_name c);
  _ ← validate_params_loop (cap_id c) ∅ (cap_parameters c);
  validate_definition c.

Fixpoint validate_caps_loop (seen : gset string) (caps : list CapabilityConfig) : result string unit :=
  match caps with
  | [] => Ok tt
  | c :: caps' =>
      bail! fmt ["Duplicate capability ID: "; cap_id c] when bool_decide (cap_id c ∈ seen);
      _ ← validate_capability c;
      validate_caps_loop ({[cap_id c]} ∪ seen) caps'
  end.

Definition validate_capabilities (c : Config) : result string unit := validate_caps_loop ∅ (cfg_capabilities c).

Definition validate_config (c : Config) : result string unit :=
  _ ← validate_server_config c;
  validate_capabilities c.

(** ** Specification *)
Definition pinned_ok (r : RelayConfig) : Prop :=
  ∀ fp, rel_pinned_cert_sha256 r = Some fp →
    rel_allow_self_signed_tls r = true ∧ String.length (normalize_fingerprint fp) = 64%nat ∧
    string_forall is_ascii_hexdigit (normalize_fingerprint fp) = true.

Definition has_text (s : option string) : Prop := ∃ t, s = Some t ∧ trim t ≠ "".

Definition relay_ok (r : RelayConfig) : Prop :=
  (rel_enabled r = true →
     has_text (rel_relay_server_url r) ∧ has_text (rel_relay_auth_secret r) ∧
     rel_reconnect_delay_seconds r ≠ 0 ∧ rel_max_relay_tunnels r ≠ Some 0) ∧
  (rel_include_in_enrollment r = true →
     rel_enabled r = true ∧ trim (rel_websocket_subprotocol r) ≠ "").

Definition server_ok (c : Config) : Prop :=
  srv_port (cfg_server c) ≠ 0 ∧ srv_bind_address (cfg_server c) ≠ "" ∧
  srv_mdns_service_name (cfg_server c) ≠ "" ∧ sec_enrollment_token_ttl (cfg_security c) ≠ 0 ∧
  pinned_ok (cfg_relay c) ∧ relay_ok (cfg_relay c).

Inductive param_type_ok (p : CapabilityParameterConfig) : Prop :=
  | ok_slider min max : pc_param_type p = "slider" → pc_min p = Some min → pc_max p = Some max → min < max → param_type_ok p
  | ok_text : pc_param_type p = "text" → (∀ re, pc_validation p = Some re → regex_error re = None) → param_type_ok p
  | ok_toggle : pc_param_type p = "toggle" → param_type_ok p
  | ok_dropdown : pc_param_type p = "dropdown" → pc_options p ≠ [] → param_type_ok p.

Definition param_ok (p : CapabilityParameterConfig) : Prop := pc_name p ≠ "" ∧ param_type_ok p.

Definition definition_ok (c : CapabilityConfig) : Prop :=
  match cap_definition c with
  | DefShellScript d =>
      trim (sh_command d) ≠ "" ∧ sh_timeout_seconds d ≠ 0 ∧
      ∀ n, n ∈ captures (word_class unicode_word) (sh_command d) → n ∈ pc_name <$> cap_parameters c
  | DefShellInteractive d =>
      trim (si_path d) ≠ "" ∧ si_idle_timeout_seconds d ≠ Some 0 ∧ si_max_duration_seconds d ≠ Some 0 ∧
      (si_session_mode d = None ∨ si_session_mode d = Some CmRealtime)
  end.

Definition capability_ok (c : CapabilityConfig) : Prop :=
  cap_id c ≠ "" ∧ cap_name c ≠ "" ∧ NoDup (pc_name <$> cap_parameters c) ∧
  Forall param_ok (cap_parameters c) ∧ definition_ok c.

Definition config_ok (c : Config) : Prop :=
  server_ok c ∧ NoDup (cap_id <$> cfg_capabilities c) ∧ Forall capability_ok (cfg_capabilities c).

(** ** The checks decide the specification *)
Lemma str_is_empty_false s : str_is_empty s = false ↔ s ≠ "".
Proof. by destruct s. Qed.

Lemma non_blank_None s : non_blank s ≠ None ↔ has_text s.
Proof.
  unfold non_blank, has_text. destruct s as [s|]; simpl; [|naive_solver].
  destruct (str_is_empty (trim s)) eqn:E; simpl.
  - destruct (trim s) eqn:Et; [|done]. split; [done|]. intros (t & [= <-] & Ht). congruence.
  - apply str_is_empty_false in E. naive_solver.
Qed.

Lemma relay_secret_missing_false r : relay_secret_missing r = false ↔ has_text (rel_relay_auth_secret r).
Proof.
  unfold relay_secret_missing, has_text. destruct (rel_relay_auth_secret r); [|naive_solver].
  rewrite str_is_empty_false. naive_solver.
Qed.

Lemma validate_pinned_iff r : validate_pinned r = Ok tt ↔ pinned_ok r.
Proof.
  unfold validate_pinned, pinned_ok. destruct (rel_pinned_cert_sha256 r) as [fp|]; [|naive_solver].
  cbv zeta. rewrite !bail_then, orb_false_iff, !negb_false_iff, bool_decide_eq_true.
  split; [intros (? & [? ?] & _) ? [= <-]; auto|]. intros Hp. specialize (Hp fp eq_refl). tauto.
Qed.

Lemma validate_server_config_iff c : validate_server_config c = Ok tt ↔ server_ok c.
Proof.
  unfold validate_server_config, server_ok, relay_ok. cbv zeta.
  rewrite !bail_then, !unit_then, !Z.eqb_neq, !str_is_empty_false, validate_pinned_iff.
  assert (∀ b (P : result string unit), (if b : bool then P else Ok tt) = Ok tt ↔ (b = true → P = Ok tt)) as Hif.
  { intros [] P; naive_solver. }
  rewrite !Hif, !bail_then, !Z.eqb_neq, !bool_decide_eq_false, negb_false_iff, !str_is_empty_false,
    non_blank_None, relay_secret_missing_false. tauto.
Qed.

Lemma validate_parameter_iff id p : validate_parameter id p = Ok tt ↔ param_ok p.
Proof.
  unfold validate_parameter, param_ok. cbv zeta. rewrite bail_then, str_is_empty_false.
  apply and_iff_compat_l.
  destruct (bool_decide_reflect (pc_param_type p = "slider")) as [E|E].
  { destruct (pc_min p) as [min|] eqn:Emin, (pc_max p) as [max|] eqn:Emax; rewrite ?bail_then, ?Z.leb_gt.
    1: split; [intros [? _]; by econstructor|].
    all: try (split; [done|]). all: intros [min' max'| | |]; try congruence.
    simplify_eq. auto. }
  destruct (bool_decide_reflect (pc_param_type p = "text")) as [E1|E1].
  { split.
    - intros Hok. apply ok_text; [done|]. intros re Hre. rewrite Hre in Hok. by destruct (regex_error re).
    - intros [| Ht Hre| |]; try congruence. destruct (pc_validation p) as [re|]; [|done]. by rewrite (Hre re). }
  destruct (bool_decide_reflect (pc_param_type p = "toggle")) as [E2|E2].
  { split; [|done]. intros _. by apply ok_toggle. }
  destruct (bool_decide_reflect (pc_param_type p = "dropdown")) as [E3|E3].
  { rewrite bail_then, bool_decide_eq_false. split; [intros [? _]; by apply ok_dropdown|].
    intros []; try congruence. auto. }
  split; [done|]. intros []; congruence.
Qed.

Lemma validate_params_loop_iff id seen ps :
  validate_params_loop id seen ps = Ok tt ↔
  NoDup (pc_name <$> ps) ∧ (∀ n, n ∈ pc_name <$> ps → n ∉ seen) ∧ Forall param_ok ps.
Proof.
  revert seen. induction ps as [|p ps IH]; intros seen; cbn [validate_params_loop validate_caps_loop]; rewrite ?fmap_cons.
  { split; [intros _|done]. split_and!; [constructor|by intros ? ?%elem_of_nil|constructor]. }
  rewrite bail_then, unit_then, validate_parameter_iff, IH, bool_decide_eq_false, Forall_cons.
  pose proof (nodup_seen_cons (pc_name p) (pc_name <$> ps) seen). tauto.
Qed.

Lemma check_placeholders_iff id names caps :
  check_placeholders id names caps = Ok tt ↔ ∀ n, n ∈ caps → n ∈ names.
Proof.
  induction caps as [|n caps IH]; simpl; [split; [by intros _ ? ?%elem_of_nil|done]|].
  rewrite bail_then, negb_false_iff, bool_decide_eq_true, IH. setoid_rewrite elem_of_cons. naive_solver.
Qed.

Lemma validate_definition_iff c : validate_definition c = Ok tt ↔ definition_ok c.
Proof.
  unfold validate_definition, definition_ok, validate_parameter_placeholders. cbv zeta.
  destruct (cap_definition c) as [d|d]; rewrite !bail_then, !str_is_empty_false.
  - rewrite Z.eqb_neq, check_placeholders_iff. by setoid_rewrite elem_of_list_to_set.
  - rewrite !bool_decide_eq_false, negb_false_iff, bool_decide_eq_true.
    assert (default CmRealtime (si_session_mode d) = CmRealtime ↔
            si_session_mode d = None ∨ si_session_mode d = Some CmRealtime) as ->; [|tauto].
    destruct (si_session_mode d); simpl; naive_solver.
Qed.

Lemma validate_capability_iff c : validate_capability c = Ok tt ↔ capability_ok c.
Proof.
  unfold validate_capability, capability_ok.
  rewrite !bail_then, unit_then, !str_is_empty_false, validate_params_loop_iff, validate_definition_iff.
  split; [tauto|]. intros (? & ? & ? & ? & ?). split_and!; auto. set_solver.
Qed.

Lemma validate_caps_loop_iff seen cs :
  validate_caps_loop seen cs = Ok tt ↔
  NoDup (cap_id <$> cs) ∧ (∀ n, n ∈ cap_id <$> cs → n ∉ seen) ∧ Forall capability_ok cs.
Proof.
  revert seen. induction cs as [|c cs IH]; intros seen; cbn [validate_params_loop validate_caps_loop]; rewrite ?fmap_cons.
  { split; [intros _|done]. split_and!; [constructor|by intros ? ?%elem_of_nil|constructor]. }
  rewrite bail_then, unit_then, validate_capability_iff, IH, bool_decide_eq_false, Forall_cons.
  pose proof (nodup_seen_cons (cap_id c) (cap_id <$> cs) seen). tauto.
Qed.

Lemma config_ok_of_checks c : validate_config c = Ok tt ↔ config_ok c.
Proof.
  unfold validate_config, config_ok, validate_capabilities.
  rewrite unit_then, validate_server_config_iff, validate_caps_loop_iff. set_solver.
Qed.
End validation.

(** C32: [validate_config] accepts exactly the well-formed configurations: the
    server section is complete, a pinned fingerprint is 64 hexadecimal digits,
    an enabled relay has its address and secret, capability ids are non-empty
    and distinct, every parameter is well formed, every placeholder of a command
    names a parameter, and interactive shells are realtime. *)
Theorem validate_config_correct `{RegexEngine} c : validate_config c = Ok tt ↔ config_ok c.
Proof. apply config_ok_of_checks. Qed.

(** The default configuration generated for each platform passes validation. *)
Lemma default_config_valid `{RegexEngine} os : validate_config (generate_default_config os) = Ok tt.
Proof. destruct os; vm_compute; reflexivity. Qed.
