(* ===== verification/Registry.v ===== *)
(** * Capabilities and their registry (server/src/capabilities/mod.rs, registry.rs)

    A capability is the shell script or interactive shell built from its
    configuration; the trait object [Arc<dyn Capability>] is the sum of the two. *)

From S2P Require Import Prelude RustStd ThirdParty Config Defaults Validation.

Local Open Scope string_scope.
Open Scope Z_scope.

Inductive SessionMode := OneShot | Realtime | Upload | Download.
Inductive CapabilityKind := ShellScript | ShellInteractive | FileTransfer.

#[export] Instance SessionMode_eq_dec : EqDecision SessionMode.
Proof. solve_decision. Defined.
#[export] Instance CapabilityKind_eq_dec : EqDecision CapabilityKind.
Proof. solve_decision. Defined.

Definition SessionMode_from (m : CapabilitySessionMode) : SessionMode :=
  match m with CmOneShot => OneShot | CmRealtime => Realtime | CmUpload => Upload | CmDownload => Download end.

Definition CapabilityKind_from (d : CapabilityDefinition) : CapabilityKind :=
  match d with DefShellScript _ => ShellScript | DefShellInteractive _ => ShellInteractive end.

Record CapabilityParameter := mkCapabilityParameter {
  cp_name : string;
  cp_param_type : string;
  cp_description : option string;
  cp_min : option Z;
  cp_max : option Z;
  cp_default_value : option string;
  cp_options : list string;
  cp_validation : option string;
  cp_label_on : option string;
  cp_label_off : option string;
  cp_step : option Z;
  cp_default_value_command : option string;
  cp_default_value_pattern : option string;
}.

Definition CapabilityParameter_from (p : CapabilityParameterConfig) : CapabilityParameter :=
  mkCapabilityParameter (pc_name p) (pc_param_type p) (pc_description p) (pc_min p) (pc_max p)
    (pc_default p) (pc_options p) (pc_validation p) (pc_label_on p) (pc_label_off p) (pc_step p)
    (pc_default_value_command p) (pc_default_value_pattern p).

Record CapabilityMetadata := mkCapabilityMetadata {
  md_id : string;
  md_name : string;
  md_description : option string;
  md_tags : list string;
  md_kind : CapabilityKind;
  md_session_mode : SessionMode;
  md_requires_confirmation : bool;
  md_privileged : bool;
  md_parameters : list CapabilityParameter;
}.

Record CapabilityOpenContext := mkCapabilityOpenContext {
  oc_metadata : CapabilityMetadata;
  oc_parameters : gmap string string;
  oc_client_fingerprint : option string;
}.

Inductive Capability :=
  | ShellScriptCapability (config : CapabilityConfig) (metadata : CapabilityMetadata)
  | ShellInteractiveCapability (config : CapabilityConfig) (metadata : CapabilityMetadata).

Definition cap_metadata (c : Capability) : CapabilityMetadata :=
  match c with ShellScriptCapability _ m | ShellInteractiveCapability _ m => m end.
Definition cap_config (c : Capability) : CapabilityConfig :=
  match c with ShellScriptCapability c _ | ShellInteractiveCapability c _ => c end.

Definition build_metadata (config : CapabilityConfig) : CapabilityMetadata :=
  mkCapabilityMetadata (cap_id config) (cap_name config) (cap_description config) (cap_tags config)
    (CapabilityKind_from (cap_definition config)) (SessionMode_from (def_session_mode (cap_definition config)))
    (cap_requires_confirmation config) (cap_privileged config)
    (CapabilityParameter_from <$> cap_parameters config).

Abbreviation CapabilityRegistry := (gmap string Capability).

Definition make_capability (config : CapabilityConfig) : Capability :=
  let metadata := build_metadata config in
  match cap_definition config with
  | DefShellScript _ => ShellScriptCapability config metadata
  | DefShellInteractive _ => ShellInteractiveCapability config metadata
  end.

Definition register (config : CapabilityConfig) (registry : CapabilityRegistry) : result string CapabilityRegistry :=
  bail! fmt ["Duplicate capability '"; cap_id config; "' while building registry"]
    when bool_decide (is_Some (registry !! cap_id config));
  let capability := make_capability config in
  Ok (<[md_id (cap_metadata capability) := capability]> registry).

Fixpoint register_all (cs : list CapabilityConfig) (registry : CapabilityRegistry) : result string CapabilityRegistry :=
  match cs with
  | [] => Ok registry
  | c :: cs' => r ← register c registry; register_all cs' r
  end.

Definition from_config (c : Config) : result string CapabilityRegistry := register_all (cfg_capabilities c) ∅.

Definition list_metadata (registry : CapabilityRegistry) : list CapabilityMetadata :=
  cap_metadata <$> (map_to_list registry).*2.

Definition registry_get (id : string) (registry : CapabilityRegistry) : option Capability := registry !! id.

(** ** The registry holds exactly the configured capabilities *)
Lemma make_capability_metadata c : cap_metadata (make_capability c) = build_metadata c ∧ cap_config (make_capability c) = c.
Proof. unfold make_capability. by destruct (cap_definition c). Qed.

Lemma register_ok c r r' :
  register c r = Ok r' ↔ r !! cap_id c = None ∧ r' = <[cap_id c := make_capability c]> r.
Proof.
  unfold register. rewrite bail_then, bool_decide_eq_false, <-eq_None_not_Some. cbv zeta.
  destruct (make_capability_metadata c) as [-> _]. simpl. naive_solver.
Qed.

Lemma register_all_ok cs r r' :
  register_all cs r = Ok r' →
  ∀ id cap, r' !! id = Some cap ↔
    r !! id = Some cap ∨ ∃ c, c ∈ cs ∧ cap_id c = id ∧ cap = make_capability c.
Proof.
  revert r. induction cs as [|c cs IH]; intros r Hr id cap; simpl in Hr.
  { simplify_eq. setoid_rewrite elem_of_nil. naive_solver. }
  apply result_bind_ok in Hr as (r1 & Hr1 & Hr). apply register_ok in Hr1 as [Hn ->].
  rewrite (IH _ Hr), lookup_insert_Some. setoid_rewrite elem_of_cons. split.
  - intros [[[? ?]|[? ?]]|(c' & ? & ? & ?)]; eauto 6.
  - intros [Hid|(c' & [->|?] & Hid & ->)]; eauto 6. left. right. split; [|done]. intros Heq. rewrite Heq in Hn. congruence.
Qed.

Lemma register_all_succeeds cs r :
  NoDup (cap_id <$> cs) → (∀ c, c ∈ cs → r !! cap_id c = None) → ∃ r', register_all cs r = Ok r'.
Proof.
  revert r. induction cs as [|c cs IH]; intros r Hnd Hr; [by eexists|].
  rewrite fmap_cons in Hnd. apply list.NoDup_cons in Hnd as [Hc Hnd]. simpl.
  rewrite (proj2 (register_ok c r (<[cap_id c := make_capability c]> r))) by (split; [apply Hr; by left|done]).
  apply IH; [done|]. intros c' Hc'. rewrite lookup_insert_ne; [apply Hr; by right|].
  intros Heq. apply Hc. rewrite Heq. by apply list_elem_of_fmap_2.
Qed.

(** A configuration that passes validation builds a registry, and the
    registry holds under each id exactly the capability configured with that id,
    with the metadata of its configuration. *)
Lemma validated_config_registry `{RegexEngine} c :
  validate_config c = Ok tt →
  ∃ r, from_config c = Ok r ∧
    ∀ id cap, registry_get id r = Some cap ↔
      ∃ cc, cc ∈ cfg_capabilities c ∧ cap_id cc = id ∧ cap_config cap = cc ∧
        cap_metadata cap = build_metadata cc ∧ cap = make_capability cc.
Proof.
  intros (_ & Hnd & _)%config_ok_of_checks. unfold from_config.
  destruct (register_all_succeeds (cfg_capabilities c) ∅ Hnd) as [r Hr]; [done|].
  exists r. split; [done|]. intros id cap. unfold registry_get. rewrite (register_all_ok _ _ _ Hr), lookup_empty.
  split.
  - intros [?|(cc & ? & ? & ->)]; [done|]. exists cc. pose proof (make_capability_metadata cc). naive_solver.
  - intros (cc & ? & ? & ? & ? & ->). eauto.
Qed.

#[local] Existing Instance demo_regex.

Lemma validated_config_registry_witness :
  ∃ r, from_config (generate_default_config Linux) = Ok r ∧
    ∀ id cap, registry_get id r = Some cap ↔
      ∃ cc, cc ∈ cfg_capabilities (generate_default_config Linux) ∧ cap_id cc = id ∧ cap_config cap = cc ∧
        cap_metadata cap = build_metadata cc ∧ cap = make_capability cc.
Proof. apply (validated_config_registry (generate_default_config Linux)). vm_compute. reflexivity. Defined.
