(* ===== verification/Parameters.v ===== *)
(** * Parameter values (server/src/capabilities/parameters.rs)

    Checking the values a client sends, and substituting them into the command
    of a shell script. *)

From S2P Require Import Prelude RustStd ThirdParty Config Placeholders Validation.

Local Open Scope string_scope.
Open Scope Z_scope.

Section parameters.
Context `{RegexEngine, ShellEscape}.

Definition validate_parameter_value (c : CapabilityConfig) (p : CapabilityParameterConfig) (value : string)
    : result string unit :=
  if bool_decide (pc_param_type p = "slider") then
    num ← ok_or (parse_i32 value) "Slider value must be a valid integer";
    bail! fmt ["Value "; pretty num; " for parameter '"; pc_name p; "' is below minimum ";
               pretty (default 0 (pc_min p)); " on capability '"; cap_id c; "'"]
      when match pc_min p with Some min => num <? min | None => false end;
    bail! fmt ["Value "; pretty num; " for parameter '"; pc_name p; "' is above maximum ";
               pretty (default 0 (pc_max p)); " on capability '"; cap_id c; "'"]
      when match pc_max p with Some max => max <? num | None => false end;
    Ok tt
  else if bool_decide (pc_param_type p = "toggle") then
    bail! fmt ["Toggle parameter '"; pc_name p; "' on capability '"; cap_id c; "' must be one of true/false/1/0"]
      when negb (bool_decide (value ∈ ["true"; "false"; "1"; "0"]));
    Ok tt
  else if bool_decide (pc_param_type p = "dropdown") then
    bail! fmt ["Parameter '"; pc_name p; "' on capability '"; cap_id c; "' received invalid option '"; value; "'"]
      when negb (bool_decide (value ∈ pc_options p));
    Ok tt
  else if bool_decide (pc_param_type p = "text") then
    match pc_validation p with
    | Some pattern =>
        match regex_error pattern with
        | Some _ => Err "Invalid regex defined for parameter validation"
        | None =>
            bail! fmt ["Parameter '"; pc_name p; "' on capability '"; cap_id c; "' does not match pattern "; pattern]
              when negb (regex_is_match pattern value);
            Ok tt
        end
    | None => Ok tt
    end
  else Err (fmt ["Capability '"; cap_id c; "' parameter '"; pc_name p; "' has unsupported type '"; pc_param_type p; "'"]).

(** The value used for a parameter: the client's, else the default. *)
Definition chosen_value (provided : gmap string string) (p : CapabilityParameterConfig) : option string :=
  match provided !! pc_name p with Some v => Some v | None => pc_default p end.

Fixpoint validate_parameters_loop (c : CapabilityConfig) (provided : gmap string string)
    (ps : list CapabilityParameterConfig) (validated : gmap string string) : result string (gmap string string) :=
  match ps with
  | [] => Ok validated
  | p :: ps' =>
      value ← ok_or (chosen_value provided p)
        (fmt ["Missing required parameter '"; pc_name p; "' for capability '"; cap_id c; "'"]);
      _ ← validate_parameter_value c p value;
      validate_parameters_loop c provided ps' (<[pc_name p := value]> validated)
  end.

(** The unknown keys; the source stops at the first one the hash map yields. *)
Definition unknown_keys (c : CapabilityConfig) (provided : gmap string string) : list string :=
  filter (λ k, k ∉ pc_name <$> cap_parameters c) (map_to_list provided).*1.

Definition validate_parameters (c : CapabilityConfig) (provided : gmap string string)
    : result string (gmap string string) :=
  validated ← validate_parameters_loop c provided (cap_parameters c) ∅;
  match unknown_keys c provided with
  | key :: _ => Err (fmt ["Unknown parameter '"; key; "' for capability '"; cap_id c; "'"])
  | [] => Ok validated
  end.

Fixpoint substitute_loop (parameters : gmap string string) (names : list string) (acc : string)
    : result string string :=
  match names with
  | [] => Ok acc
  | name :: names' =>
      value ← ok_or (parameters !! name) (fmt ["Parameter '"; name; "' not provided"]);
      substitute_loop parameters names' (str_replace acc (braced name) (shell_escape value))
  end.

(** The error for an interactive shell prints the definition with [{:?}]; its
    text is the argument [debug]. *)
Definition substitute_parameters (debug : CapabilityDefinition → string) (c : CapabilityConfig)
    (parameters : gmap string string) : result string string :=
  match cap_definition c with
  | DefShellScript def =>
      substitute_loop parameters (captures sub_class (sh_command def)) (sh_command def)
  | other => Err (fmt ["Capability '"; cap_id c; "' of type "; debug other; " does not support parameter substitution"])
  end.

(** ** What a validated value satisfies *)
Inductive value_ok (p : CapabilityParameterConfig) (v : string) : Prop :=
  | val_slider n :
      pc_param_type p = "slider" → parse_i32 v = Some n →
      (∀ min, pc_min p = Some min → min <= n) → (∀ max, pc_max p = Some max → n <= max) → value_ok p v
  | val_toggle : pc_param_type p = "toggle" → v ∈ ["true"; "false"; "1"; "0"] → value_ok p v
  | val_dropdown : pc_param_type p = "dropdown" → v ∈ pc_options p → value_ok p v
  | val_text :
      pc_param_type p = "text" →
      (∀ re, pc_validation p = Some re → regex_error re = None ∧ regex_is_match re v = true) → value_ok p v.

Lemma validate_parameter_value_iff c p v : validate_parameter_value c p v = Ok tt ↔ value_ok p v.
Proof.
  unfold validate_parameter_value.
  destruct (bool_decide_reflect (pc_param_type p = "slider")) as [E|E].
  { destruct (parse_i32 v) as [n|] eqn:En; simpl; [rewrite !bail_then|split; [done|intros []; congruence]]. split.
    - intros (Hmin & Hmax & _). apply (val_slider _ _ n); [done..| |].
      + intros min Em. rewrite Em in Hmin. lia.
      + intros max Em. rewrite Em in Hmax. lia.
    - intros [n' _ Hn Hmin Hmax| | |]; try congruence. simplify_eq. split_and!; [| |done].
      + destruct (pc_min p) as [min|]; [|done]. specialize (Hmin _ eq_refl). lia.
      + destruct (pc_max p) as [max|]; [|done]. specialize (Hmax _ eq_refl). lia. }
  destruct (bool_decide_reflect (pc_param_type p = "toggle")) as [E1|E1].
  { rewrite bail_then, negb_false_iff, bool_decide_eq_true.
    split; [intros [? _]; by apply val_toggle|intros []; try congruence; done]. }
  destruct (bool_decide_reflect (pc_param_type p = "dropdown")) as [E2|E2].
  { rewrite bail_then, negb_false_iff, bool_decide_eq_true.
    split; [intros [? _]; by apply val_dropdown|intros []; try congruence; done]. }
  destruct (bool_decide_reflect (pc_param_type p = "text")) as [E3|E3]; [|split; [done|intros []; congruence]].
  destruct (pc_validation p) as [re|] eqn:Ev.
  - destruct (regex_error re) eqn:Er.
    + split; [done|]. intros [| | |_ Hre]; try congruence. destruct (Hre re Ev). congruence.
    + rewrite bail_then, negb_false_iff. split.
      * intros [? _]. apply val_text; [done|]. intros ? Hre. rewrite Hre in Ev. by simplify_eq.
      * intros [| | |_ Hre]; try congruence. destruct (Hre re Ev). done.
  - split; [|done]. intros _. apply val_text; [done|]. congruence.
Qed.

Lemma validate_parameters_loop_ok c provided ps acc m :
  NoDup (pc_name <$> ps) →
  validate_parameters_loop c provided ps acc = Ok m →
  Forall (λ p, ∃ v, chosen_value provided p = Some v ∧ value_ok p v ∧ m !! pc_name p = Some v) ps ∧
  ∀ k, k ∉ pc_name <$> ps → m !! k = acc !! k.
Proof.
  revert acc. induction ps as [|p ps IH]; intros acc Hnd Hm; simpl in Hm.
  { simplify_eq. auto. }
  rewrite fmap_cons in Hnd. apply list.NoDup_cons in Hnd as [Hp Hnd].
  apply result_bind_ok in Hm as (v & Hv & Hm). apply ok_or_ok in Hv.
  apply unit_then in Hm as [Hok Hm]. apply validate_parameter_value_iff in Hok.
  destruct (IH _ Hnd Hm) as [Hall Hacc]. split.
  - constructor; [|done]. exists v. split_and!; [done..|]. rewrite Hacc by done. apply lookup_insert_eq.
  - intros k Hk. rewrite fmap_cons, not_elem_of_cons in Hk. destruct Hk as [Hk1 Hk2].
    rewrite (Hacc _ Hk2). by rewrite lookup_insert_ne.
Qed.

Lemma validate_parameters_loop_succeeds c provided ps acc :
  Forall (λ p, ∃ v, chosen_value provided p = Some v ∧ value_ok p v) ps →
  ∃ m, validate_parameters_loop c provided ps acc = Ok m.
Proof.
  intros Hps. revert acc. induction Hps as [|p ps (v & Hv & Hok) _ IH]; intros acc; [by eexists|]. simpl.
  rewrite Hv. simpl. apply validate_parameter_value_iff with (c := c) in Hok. rewrite Hok. apply IH.
Qed.

Lemma unknown_keys_nil c provided :
  unknown_keys c provided = [] ↔ ∀ k, is_Some (provided !! k) → k ∈ pc_name <$> cap_parameters c.
Proof.
  unfold unknown_keys. split.
  - intros Hnil k [v Hk]. apply dec_stable. intros Hn.
    assert (k ∈ filter (λ k, k ∉ pc_name <$> cap_parameters c) (map_to_list provided).*1) as Hin.
    { apply list_elem_of_filter. split; [done|]. apply list_elem_of_fmap. exists (k, v).
      split; [done|]. by apply elem_of_map_to_list. }
    rewrite Hnil in Hin. by apply elem_of_nil in Hin.
  - intros Hk. apply filter_none. intros k ([k' v] & -> & Hin)%list_elem_of_fmap Hn. apply Hn, Hk.
    apply elem_of_map_to_list in Hin. by eexists.
Qed.

(** [validate_parameters] accepts a request exactly when every key it sends
    is a declared parameter and every declared parameter has a value (sent or
    default) that satisfies its type: a slider value is an [i32] within its
    bounds, a toggle value one of four words, a dropdown value one of the
    options, a text value a match of its pattern.  The result maps exactly the
    declared names to those values. *)
Lemma validate_parameters_correct c provided m :
  NoDup (pc_name <$> cap_parameters c) →
  validate_parameters c provided = Ok m ↔
    (∀ k, is_Some (provided !! k) → k ∈ pc_name <$> cap_parameters c) ∧
    Forall (λ p, ∃ v, chosen_value provided p = Some v ∧ value_ok p v ∧ m !! pc_name p = Some v) (cap_parameters c) ∧
    (∀ k, k ∉ pc_name <$> cap_parameters c → m !! k = None).
Proof.
  intros Hnd. unfold validate_parameters. rewrite result_bind_ok. split.
  - intros (m' & Hloop & Hm). destruct (unknown_keys c provided) eqn:Hu; simplify_eq.
    apply validate_parameters_loop_ok in Hloop as [Hall Hacc]; [|done].
    split_and!; [by apply unknown_keys_nil|done|]. intros k Hk. by rewrite Hacc.
  - intros (Hk & Hall & Hn). apply unknown_keys_nil in Hk. rewrite Hk.
    destruct (validate_parameters_loop_succeeds c provided (cap_parameters c) ∅) as [m' Hm'].
    { eapply Forall_impl; [done|]. naive_solver. }
    exists m'. split; [done|]. f_equal. apply map_eq. intros k.
    destruct (validate_parameters_loop_ok _ _ _ _ _ Hnd Hm') as [Hall' Hn'].
    destruct (decide (k ∈ pc_name <$> cap_parameters c)) as [Hin|Hin].
    + apply list_elem_of_fmap in Hin as (p & -> & Hp).
      rewrite Forall_forall in Hall, Hall'. destruct (Hall p Hp) as (v & Hv & _ & ->).
      destruct (Hall' p Hp) as (v' & Hv' & _ & ->). congruence.
    + by rewrite Hn, Hn'.
Qed.

(** ** Substitution *)
(** What a hole is filled with. *)
Definition escaped (parameters : gmap string string) (n : string) : string :=
  match parameters !! n with Some v => shell_escape v | None => braced n end.

Lemma substitute_loop_render parameters ps D names :
  (∀ c, Lit c ∈ ps → c ≠ "{"%char) → Forall sub_name (holes ps) → Forall sub_name names →
  (∀ n, n ∈ (D ++ names)%list → is_Some (parameters !! n) ∧ str_contains_char "{" (escaped parameters n) = false) →
  substitute_loop parameters names (render (filled (escaped parameters) D) ps)
    = Ok (render (filled (escaped parameters) (rev names ++ D)%list) ps).
Proof.
  intros Hlit Hholes. revert D. induction names as [|n names IH]; intros D Hn Hp; [done|].
  apply Forall_cons in Hn as [Hn Hnames]. cbn [substitute_loop].
  destruct (Hp n) as [[v Hv] _]; [rewrite elem_of_app; right; by left|]. rewrite Hv. simpl.
  assert (shell_escape v = escaped parameters n) as -> by (unfold escaped; by rewrite Hv).
  rewrite str_replace_render; [|done..| |done].
  - rewrite IH; [|done|].
    + by rewrite <-app_assoc.
    + intros m Hm. apply Hp. revert Hm. rewrite !elem_of_app, !elem_of_cons. tauto.
  - intros m Hm. apply Hp. rewrite elem_of_app. by left.
Qed.

(** C33: When every brace of the command opens a placeholder and no escaped value
    contains one, the sequence of textual replacements is the simultaneous
    substitution: each placeholder is replaced by the escaped value of its
    parameter and nothing else changes. *)
Theorem substitute_is_simultaneous debug c def parameters :
  cap_definition c = DefShellScript def →
  (∀ ch, Lit ch ∈ pieces (sh_command def) → ch ≠ "{"%char) →
  (∀ n, n ∈ captures sub_class (sh_command def) →
     ∃ v, parameters !! n = Some v ∧ str_contains_char "{" (shell_escape v) = false) →
  substitute_parameters debug c parameters = Ok (render (escaped parameters) (pieces (sh_command def))).
Proof.
  intros Hdef Hlit Hp. unfold substitute_parameters. rewrite Hdef.
  pose proof (pieces_names (sh_command def)) as Hnames.
  assert (render (filled (escaped parameters) []) (pieces (sh_command def)) = sh_command def) as Hsrc.
  { rewrite (render_ext _ braced) by done. apply source_pieces. }
  rewrite <-Hsrc at 2. rewrite substitute_loop_render; [|done..| |].
  - f_equal. apply render_ext. intros n Hn. unfold filled. rewrite decide_True; [done|].
    rewrite app_nil_r, <-holes_pieces. apply list_elem_of_In, in_rev. rewrite rev_involutive. by apply list_elem_of_In.
  - by rewrite <-holes_pieces.
  - simpl. intros n Hn. destruct (Hp n Hn) as (v & Hv & Hb). split; [by eexists|]. unfold escaped. by rewrite Hv.
Qed.

Lemma substitute_loop_succeeds parameters names acc :
  (∀ n, n ∈ names → is_Some (parameters !! n)) → ∃ r, substitute_loop parameters names acc = Ok r.
Proof.
  revert acc. induction names as [|n names IH]; intros acc Hn; [by eexists|]. simpl.
  destruct (Hn n) as [v ->]; [by left|]. simpl. apply IH. intros m Hm. apply Hn. by right.
Qed.

(** Without a hyphen, the names of the two regular expressions agree. *)
Lemma sub_capture_is_word_capture uni s n :
  n ∈ captures sub_class s → str_contains_char "-" n = false → n ∈ captures (word_class uni) s.
Proof.
  intros Hn Hh. pose proof (captures_names _ _ Hn) as [Hne Hsub].
  apply captures_fuel_split in Hn as (pre & post & ->). apply captures_fuel_word; [done| |done].
  clear Hne. revert Hsub Hh. unfold str_contains_char. induction n as [|c n IH]; [done|]. simpl.
  intros [Hc Hn]%andb_true_iff [Hd Hh]%orb_false_iff. rewrite IH by done.
  apply bool_decide_eq_false in Hd. unfold sub_char in Hc. rewrite (bool_decide_false (c = "-"%char)) in Hc by done.
  unfold word_char. by rewrite orb_false_r in Hc; rewrite Hc.
Qed.

(** For a validated shell-script capability whose placeholders contain no
    hyphen, substituting the result of [validate_parameters] never fails: every
    placeholder of the command has a value. *)
Lemma substitution_total debug c def provided m :
  validate_capability c = Ok tt → cap_definition c = DefShellScript def →
  (∀ n, n ∈ captures sub_class (sh_command def) → str_contains_char "-" n = false) →
  validate_parameters c provided = Ok m →
  ∃ command, substitute_parameters debug c m = Ok command.
Proof.
  intros (_ & _ & Hnd & _ & Hd)%validate_capability_iff Hdef Hh Hm.
  unfold definition_ok in Hd. rewrite Hdef in Hd. destruct Hd as (_ & _ & Hcap).
  unfold substitute_parameters. rewrite Hdef. apply substitute_loop_succeeds. intros n Hn.
  pose proof (Hcap n (sub_capture_is_word_capture _ _ _ Hn (Hh n Hn))) as (p & -> & Hp)%list_elem_of_fmap.
  unfold validate_parameters in Hm. apply result_bind_ok in Hm as (m' & Hloop & Hm).
  destruct (unknown_keys c provided); simplify_eq.
  apply validate_parameters_loop_ok in Hloop as [Hall _]; [|done].
  rewrite Forall_forall in Hall. destruct (Hall p Hp) as (v & _ & _ & Hv). by eexists.
Qed.

(** ** Two gaps *)
Definition demo_script (command : string) (names : list string) : CapabilityConfig :=
  mkCapabilityConfig "c" "Demo" None [] false false
    ((λ n, mkCapabilityParameterConfig n "text" None None None None [] None None None None None None) <$> names)
    CapabilityAclConfig_default (DefShellScript (mkShellScriptDefinition command 30 ∅ true CmOneShot)).

(** A placeholder with a hyphen passes validation undeclared, since the
    validator's pattern does not match it, and then every run of the capability
    fails in the substitution. *)
Lemma hyphen_placeholder_always_fails debug provided m :
  validate_capability (demo_script "echo {my-param}" []) = Ok tt ∧
  (validate_parameters (demo_script "echo {my-param}" []) provided = Ok m →
   is_ok (substitute_parameters debug (demo_script "echo {my-param}" []) m) = false).
Proof.
  split; [vm_compute; reflexivity|]. intros Hm. unfold validate_parameters in Hm. simpl in Hm.
  destruct (unknown_keys _ provided); simplify_eq. vm_compute. reflexivity.
Qed.

(** The text of a command outside single quotes. *)
Fixpoint outside_quotes (inside : bool) (s : string) : string :=
  match s with
  | EmptyString => EmptyString
  | String c s' =>
      if bool_decide (c = "'"%char) then outside_quotes (negb inside) s'
      else if inside then outside_quotes inside s' else String c (outside_quotes inside s')
  end.

Lemma outside_quotes_app b v s :
  str_contains_char "'" v = false →
  outside_quotes b (String.append v s) = if b then outside_quotes b s else String.append v (outside_quotes b s).
Proof.
  unfold str_contains_char. induction v as [|c v IH]; [by destruct b|]. simpl.
  intros [Hc Hv]%orb_false_iff. rewrite append_cons. simpl. rewrite Hc, IH by done. by destruct b.
Qed.

Definition quoted (v : string) : string := String "'" (String.append v (String "'" EmptyString)).

(** C5: Substitution breaks its own quoting: because replaced text is scanned
    again, the value [{b}] sent for one parameter is replaced inside its quotes
    by the (quoted) value of the next.  Whatever text [v] without a quote a
    client sends for [b], it passes validation and reaches the shell unquoted. *)
Theorem substitution_breaks_quoting debug v :
  str_contains_char "'" v = false →
  shell_escape "{b}" = quoted "{b}" → shell_escape v = quoted v →
  let c := demo_script "echo {a} {b}" ["a"; "b"] in
  let provided := <["a" := "{b}"]> {["b" := v]} in
  validate_capability c = Ok tt ∧ validate_parameters c provided = Ok provided ∧
  ∃ command, substitute_parameters debug c provided = Ok command ∧
    outside_quotes false command = String.append "echo " (String.append v " ").
Proof.
  intros Hv Ha Hb c provided. split_and!; [vm_compute; reflexivity|vm_compute; reflexivity|].
  exists (String.append "echo '" (String.append (quoted v) (String.append "' " (quoted v)))). split.
  - unfold substitute_parameters, c, demo_script. cbn [cap_definition].
    cbn [sh_command]. change (captures sub_class "echo {a} {b}") with ["a"; "b"]. cbn [substitute_loop].
    unfold provided. rewrite lookup_insert_eq, lookup_insert_ne, lookup_singleton_eq by done.
    cbn [ok_or mbind result_bind]. rewrite Ha, Hb.
    change (str_replace "echo {a} {b}" (braced "a") (quoted "{b}")) with "echo '{b}' {b}".
    f_equal. vm_compute. by rewrite !append_nil_r.
  - unfold quoted. rewrite !append_cons, !append_nil_l. simpl.
    rewrite <-!append_assoc, outside_quotes_app by done. rewrite !append_cons, !append_nil_l. simpl.
    rewrite outside_quotes_app by done. done.
Qed.
End parameters.

(** ** Concrete requests *)
#[local] Existing Instance demo_regex.
(** Quotes everything but plain words. *)
#[local] Instance demo_escape : ShellEscape := λ v,
  if string_forall sub_char v && negb (str_is_empty v) then v else quoted v.

Definition demo_slider : CapabilityConfig :=
  mkCapabilityConfig "vol" "Volume" None [] false false
    [mkCapabilityParameterConfig "level" "slider" None (Some 0) (Some 100) (Some "50") [] None None None None None None]
    CapabilityAclConfig_default (DefShellScript (mkShellScriptDefinition "set {level}%" 3 ∅ false CmOneShot)).

Lemma validate_parameters_correct_witness :
  Forall (λ p, ∃ v, chosen_value {["level" := "+7"]} p = Some v ∧ value_ok p v ∧
                    ({["level" := "+7"]} : gmap string string) !! pc_name p = Some v) (cap_parameters demo_slider).
Proof.
  refine (proj1 (proj2 (proj1 (validate_parameters_correct demo_slider {["level" := "+7"]} {["level" := "+7"]} _) _))).
  - apply NoDup_singleton.
  - vm_compute. reflexivity.
Defined.

Lemma substitute_is_simultaneous_witness :
  substitute_parameters (λ _, "") (demo_script "say {a} and {b}, {a}" ["a"; "b"]) (<["a" := "x"]> {["b" := "; ls"]})
    = Ok "say x and '; ls', x".
Proof.
  etransitivity.
  { apply (substitute_is_simultaneous (λ _, "") (demo_script "say {a} and {b}, {a}" ["a"; "b"])
      (mkShellScriptDefinition "say {a} and {b}, {a}" 30 ∅ true CmOneShot)); [reflexivity| |].
    - intros ch Hch. vm_compute in Hch. repeat (apply elem_of_cons in Hch as [Hch|Hch]; [by simplify_eq|]).
      by apply elem_of_nil in Hch.
    - intros n Hn. vm_compute in Hn. repeat (apply elem_of_cons in Hn as [->|Hn]; [by eexists|]).
      by apply elem_of_nil in Hn. }
  vm_compute. reflexivity.
Defined.

Lemma substitution_total_witness :
  ∃ command, substitute_parameters (λ _, "") demo_slider {["level" := "50"]} = Ok command.
Proof.
  apply (substitution_total (λ _, "") demo_slider (mkShellScriptDefinition "set {level}%" 3 ∅ false CmOneShot) ∅).
  - vm_compute. reflexivity.
  - reflexivity.
  - intros n Hn. vm_compute in Hn. apply elem_of_cons in Hn as [->|Hn]; [reflexivity|by apply elem_of_nil in Hn].
  - vm_compute. reflexivity.
Defined.

Lemma hyphen_placeholder_always_fails_witness :
  is_ok (substitute_parameters (λ _, "") (demo_script "echo {my-param}" []) ∅) = false.
Proof. apply (hyphen_placeholder_always_fails (λ _, "") ∅ ∅). vm_compute. reflexivity. Defined.

Lemma substitution_breaks_quoting_witness :
  ∃ command,
    substitute_parameters (λ _, "") (demo_script "echo {a} {b}" ["a"; "b"])
      (<["a" := "{b}"]> {["b" := "; reboot ;"]}) = Ok command ∧
    outside_quotes false command = "echo ; reboot ; ".
Proof. apply (substitution_breaks_quoting (λ _, "") "; reboot ;"); reflexivity. Defined.
