(* ===== verification/Enrollment.v ===== *)
(** * Enrollment tokens (server/src/security/enrollment.rs)

    The QR-code enrollment tokens: a map from token text to token, created with
    a time to live, consumed once.  [Uuid::new_v4().to_string()] and the clock
    are inputs of the operations. *)

From S2P Require Import Prelude RustStd.

Open Scope Z_scope.

Record EnrollmentToken := mkEnrollmentToken {
  et_token : string;
  et_created_at : Z;
  et_expires_at : Z;
  et_used : bool;
}.

#[export] Instance EnrollmentToken_eq_dec : EqDecision EnrollmentToken.
Proof. solve_decision. Defined.

(** [EnrollmentToken::new]; [None] when the date arithmetic panics. *)
Definition EnrollmentToken_new (now : Z) (uuid : string) (ttl_seconds : Z) : option EnrollmentToken :=
  expires ← odt_add now (duration_seconds_u64 ttl_seconds);
  Some (mkEnrollmentToken uuid now expires false).

Definition token_is_expired (now : Z) (t : EnrollmentToken) : bool := et_expires_at t <? now.
Definition token_is_valid (now : Z) (t : EnrollmentToken) : bool :=
  negb (et_used t) && negb (token_is_expired now t).

Record EnrollmentTokenManager := mkEnrollmentTokenManager {
  em_tokens : gmap string EnrollmentToken;
  em_ttl_seconds : Z;
}.

Definition EnrollmentTokenManager_new (ttl_seconds : Z) : EnrollmentTokenManager :=
  mkEnrollmentTokenManager ∅ ttl_seconds.

Definition em_set_tokens (m : EnrollmentTokenManager) (ts : gmap string EnrollmentToken) :=
  mkEnrollmentTokenManager ts (em_ttl_seconds m).

Definition cleanup_expired_tokens (now : Z) (ts : gmap string EnrollmentToken) : gmap string EnrollmentToken :=
  filter (λ kt, token_is_expired now kt.2 = false) ts.

(** [generate_token]: the clock is read when the token is made ([now]) and again
    by the clean-up ([now']). *)
Definition generate_token (now now' : Z) (uuid : string) (m : EnrollmentTokenManager)
    : option (EnrollmentTokenManager * EnrollmentToken) :=
  token ← EnrollmentToken_new now uuid (em_ttl_seconds m);
  let ts := <[uuid := token]> (em_tokens m) in
  Some (em_set_tokens m (cleanup_expired_tokens now' ts), token).

Definition set_used (t : EnrollmentToken) : EnrollmentToken :=
  mkEnrollmentToken (et_token t) (et_created_at t) (et_expires_at t) true.

Definition validate_and_consume (now : Z) (token_str : string) (m : EnrollmentTokenManager)
    : EnrollmentTokenManager * result string unit :=
  match em_tokens m !! token_str with
  | None => (m, Err "Invalid enrollment token"%string)
  | Some token =>
      if et_used token then (m, Err "Enrollment token already used"%string) else
      if token_is_expired now token then
        (em_set_tokens m (delete token_str (em_tokens m)), Err "Enrollment token expired"%string)
      else (em_set_tokens m (<[token_str := set_used token]> (em_tokens m)), Ok tt)
  end.

Definition active_token_count (now : Z) (m : EnrollmentTokenManager) : nat :=
  length (filter (λ t, token_is_valid now t = true) (map_to_list (em_tokens m)).*2).

(** ** Runs of the manager

    The manager is shared behind one mutex, so a run is a sequence of
    operations. *)
Inductive em_op :=
  | OpGenerate (now now' : Z) (uuid : string)
  | OpConsume (now : Z) (token_str : string)
  | OpCount (now : Z).

Inductive em_ret :=
  | RetToken (t : option EnrollmentToken)
  | RetConsume (r : result string unit)
  | RetCount (n : nat).

Definition em_step (o : em_op) (m : EnrollmentTokenManager) : EnrollmentTokenManager * em_ret :=
  match o with
  | OpGenerate now now' uuid =>
      match generate_token now now' uuid m with
      | Some (m', t) => (m', RetToken (Some t))
      | None => (m, RetToken None)
      end
  | OpConsume now tok => let '(m', r) := validate_and_consume now tok m in (m', RetConsume r)
  | OpCount now => (m, RetCount (active_token_count now m))
  end.

Fixpoint em_run (os : list em_op) (m : EnrollmentTokenManager) : EnrollmentTokenManager * list em_ret :=
  match os with
  | [] => (m, [])
  | o :: os' => let '(m1, r) := em_step o m in let '(m2, rs) := em_run os' m1 in (m2, r :: rs)
  end.

(** How many consumptions of [tok] a run accepted. *)
Fixpoint accepted (tok : string) (os : list em_op) (rs : list em_ret) : nat :=
  match os, rs with
  | OpConsume _ tok' :: os', RetConsume (Ok _) :: rs' =>
      ((if decide (tok' = tok) then 1 else 0) + accepted tok os' rs')%nat
  | _ :: os', _ :: rs' => accepted tok os' rs'
  | _, _ => 0%nat
  end.

Definition generates (tok : string) (o : em_op) : Prop :=
  match o with OpGenerate _ _ uuid => uuid = tok | _ => False end.

(** ** Invariant: a token is stored under its own text, with the deadline the
    manager's time to live gives it. *)
Definition token_wf (ttl : Z) (k : string) (t : EnrollmentToken) : Prop :=
  et_token t = k ∧ et_expires_at t = et_created_at t + duration_seconds_u64 ttl.

Definition em_wf (m : EnrollmentTokenManager) : Prop :=
  map_Forall (token_wf (em_ttl_seconds m)) (em_tokens m).

Lemma EnrollmentToken_new_wf now uuid ttl t :
  EnrollmentToken_new now uuid ttl = Some t → token_wf ttl uuid t ∧ et_created_at t = now ∧ et_used t = false.
Proof.
  unfold EnrollmentToken_new, odt_add. simpl. case_match; intros; simplify_eq/=. done.
Qed.

Lemma validate_and_consume_lookup now tok m k :
  k ≠ tok → em_tokens (validate_and_consume now tok m).1 !! k = em_tokens m !! k.
Proof.
  intros Hne. unfold validate_and_consume. cases; by rewrite ?lookup_delete_ne, ?lookup_insert_ne.
Qed.

Lemma validate_and_consume_ttl now tok m :
  em_ttl_seconds (validate_and_consume now tok m).1 = em_ttl_seconds m.
Proof. unfold validate_and_consume. by cases. Qed.

(** A live token is one that a consumption now would accept. *)
Definition spendable (tok : string) (m : EnrollmentTokenManager) : Prop :=
  ∃ t, em_tokens m !! tok = Some t ∧ et_used t = false.

Lemma validate_and_consume_not_spendable now tok tok' m :
  ¬ spendable tok m → ¬ spendable tok (validate_and_consume now tok' m).1.
Proof.
  unfold spendable. intros Hn (t & Ht & Hu). apply Hn. clear Hn.
  destruct (decide (tok = tok')) as [<-|Hne].
  - revert Ht. unfold validate_and_consume.
    destruct (em_tokens m !! tok) as [t'|] eqn:E; simpl; [|naive_solver congruence].
    destruct (et_used t') eqn:Eu; simpl; [naive_solver congruence|]. eauto.
  - rewrite validate_and_consume_lookup in Ht by done. eauto.
Qed.

Lemma validate_and_consume_ok_iff now tok m :
  (validate_and_consume now tok m).2 = Ok tt ↔
    ∃ t, em_tokens m !! tok = Some t ∧ token_is_valid now t = true.
Proof.
  unfold validate_and_consume, token_is_valid.
  destruct (em_tokens m !! tok) as [t|]; simpl; [|naive_solver].
  destruct (et_used t) eqn:Hu; simpl; [split; [done|intros (? & ? & Hv); simplify_eq; by rewrite Hu in Hv]|].
  destruct (token_is_expired now t) eqn:Hx; simpl.
  - split; [done|]. intros (? & ? & Hv); simplify_eq. by rewrite Hu, Hx in Hv.
  - split; [|done]. intros _. exists t. by rewrite Hu, Hx.
Qed.

Lemma consumed_not_spendable now tok m :
  (validate_and_consume now tok m).2 = Ok tt → ¬ spendable tok (validate_and_consume now tok m).1.
Proof.
  intros Hok (t & Ht & Hu). revert Hok Ht. unfold validate_and_consume.
  destruct (em_tokens m !! tok) as [t'|]; simpl; [|done].
  destruct (et_used t'); [done|]. destruct (token_is_expired now t'); [done|]. simpl. intros _.
  rewrite lookup_insert_eq. naive_solver.
Qed.

Lemma generate_token_not_spendable now now' uuid tok m m' t :
  uuid ≠ tok → generate_token now now' uuid m = Some (m', t) → ¬ spendable tok m → ¬ spendable tok m'.
Proof.
  unfold generate_token. intros Hne Hg Hn (t' & Ht & Hu). apply Hn.
  destruct (EnrollmentToken_new now uuid _) as [t0|]; simplify_eq/=.
  apply map_lookup_filter_Some in Ht as [Ht _]. rewrite lookup_insert_ne in Ht by done. by exists t'.
Qed.

Lemma accepted_not_spendable tok os m :
  ¬ spendable tok m → Forall (λ o, ¬ generates tok o) os → accepted tok os (em_run os m).2 = 0%nat.
Proof.
  revert m. induction os as [|o os IH]; intros m Hn Hg; [done|].
  apply Forall_cons in Hg as [Ho Hg]. simpl.
  destruct (em_step o m) as [m1 r] eqn:E. destruct (em_run os m1) as [m2 rs] eqn:E'. simpl.
  assert (¬ spendable tok m1) as Hn1.
  { destruct o as [now now' uuid|now tok'|now]; simpl in E.
    - destruct (generate_token now now' uuid m) as [[mg t]|] eqn:Eg; simplify_eq; [|done].
      by eapply generate_token_not_spendable.
    - pose proof (validate_and_consume_not_spendable now tok tok' m Hn).
      by destruct (validate_and_consume now tok' m); simplify_eq.
    - by simplify_eq. }
  specialize (IH m1 Hn1 Hg). rewrite E' in IH. simpl in IH.
  destruct o as [now now' uuid|now tok'|now]; simpl in E.
  - by destruct r.
  - pose proof (validate_and_consume_ok_iff now tok' m) as Hok.
    destruct (validate_and_consume now tok' m) as [mc rc]; simplify_eq; simpl in *.
    destruct rc as [[]|]; [|done]. rewrite IH. case_decide; [|done]. subst tok'. exfalso.
    destruct Hok as [Hok _]. destruct (Hok eq_refl) as (t & Ht & Hv). apply Hn. exists t. split; [done|].
    unfold token_is_valid in Hv. by destruct (et_used t).
  - by destruct r.
Qed.

(** ** Deadlines *)

(** Every copy of [tok] the manager holds has the deadline [e]. *)
Definition deadline_is (tok : string) (e : Z) (m : EnrollmentTokenManager) : Prop :=
  ∀ t, em_tokens m !! tok = Some t → et_expires_at t = e.

(** [o] is not a consumption of [tok] at or before [e]. *)
Definition consumes_after (tok : string) (e : Z) (o : em_op) : Prop :=
  match o with OpConsume now tok' => tok' = tok → e < now | _ => True end.

Lemma em_step_deadline tok e o m :
  ¬ generates tok o → deadline_is tok e m → deadline_is tok e (em_step o m).1.
Proof.
  intros Hg Hd. destruct o as [now now' uuid|now tok'|now]; simpl; [|clear Hg|done].
  - unfold generate_token. destruct (EnrollmentToken_new now uuid _) as [t0|]; simpl; [|done].
    intros t Ht. simpl in Ht. apply map_lookup_filter_Some in Ht as [Ht _].
    rewrite lookup_insert_ne in Ht by done. by apply Hd.
  - destruct (decide (tok = tok')) as [<-|Hne].
    + unfold validate_and_consume. intros t. destruct (em_tokens m !! tok) as [t'|] eqn:E.
      2: { simpl. by rewrite E. }
      destruct (et_used t'); simpl; [by apply Hd|].
      destruct (token_is_expired now t'); simpl; [by rewrite lookup_delete_eq|].
      rewrite lookup_insert_eq. intros; simplify_eq/=. by apply Hd.
    + intros t. pose proof (validate_and_consume_lookup now tok' m tok Hne) as Hl.
      destruct (validate_and_consume now tok' m); simpl in *. rewrite Hl. apply Hd.
Qed.

Lemma accepted_after_deadline tok e os m :
  Forall (λ o, ¬ generates tok o) os → Forall (consumes_after tok e) os → deadline_is tok e m →
  accepted tok os (em_run os m).2 = 0%nat.
Proof.
  revert m. induction os as [|o os IH]; intros m Hg Hc Hd; [done|].
  apply Forall_cons in Hg as [Hgo Hg]. apply Forall_cons in Hc as [Hco Hc]. simpl.
  pose proof (em_step_deadline tok e o m Hgo Hd) as Hd1.
  destruct (em_step o m) as [m1 r] eqn:E. specialize (IH m1 Hg Hc Hd1).
  destruct (em_run os m1) as [m2 rs] eqn:E'. simpl in *.
  destruct o as [now now' uuid|now tok'|now]; [by destruct r| |by destruct r].
  pose proof (validate_and_consume_ok_iff now tok' m) as Hok. simpl in E.
  destruct (validate_and_consume now tok' m) as [mc rc]; simplify_eq; simpl in *.
  destruct rc as [[]|]; [|done]. rewrite IH. case_decide; [|done]. subst tok'. exfalso.
  destruct (proj1 Hok eq_refl) as (t & Ht & Hv). specialize (Hco eq_refl).
  unfold token_is_valid, token_is_expired in Hv. rewrite (Hd t Ht) in Hv.
  apply Z.ltb_lt in Hco. rewrite Hco in Hv. by rewrite andb_false_r in Hv.
Qed.

(** ** Properties *)

(** C26: An enrollment token is good for one enrollment.  In every run of the
    manager, from every state, in which [tok] is not generated again, at most
    one [validate_and_consume] of [tok] succeeds. *)
Theorem token_single_use (tok : string) (os : list em_op) (m : EnrollmentTokenManager) :
  Forall (λ o, ¬ generates tok o) os →
  (accepted tok os (em_run os m).2 ≤ 1)%nat.
Proof.
  revert m. induction os as [|o os IH]; intros m Hg; simpl; [lia|].
  apply Forall_cons in Hg as [Hgo Hg].
  destruct (em_step o m) as [m1 r] eqn:E. specialize (IH m1 Hg).
  pose proof (accepted_not_spendable tok os m1) as Hns.
  destruct (em_run os m1) as [m2 rs] eqn:E'. simpl in *.
  destruct o as [now now' uuid|now tok'|now]; [by destruct r| |by destruct r].
  pose proof (consumed_not_spendable now tok' m) as Hcs. simpl in E.
  destruct (validate_and_consume now tok' m) as [mc rc]; simplify_eq; simpl in *.
  destruct rc as [[]|]; [|lia]. case_decide; [|lia]. subst. rewrite Hns; [lia| |done].
  by apply Hcs.
Qed.

Definition demo_now : Z := 1700000000 * NANOS.
Definition demo_manager : EnrollmentTokenManager :=
  match generate_token demo_now demo_now "tok" (EnrollmentTokenManager_new 300) with
  | Some (m, _) => m
  | None => EnrollmentTokenManager_new 300
  end.

Lemma token_single_use_witness :
  accepted "tok" [OpConsume demo_now "tok"; OpConsume demo_now "tok"]
    (em_run [OpConsume demo_now "tok"; OpConsume demo_now "tok"] demo_manager).2 = 1%nat ∧
  (accepted "tok" [OpConsume demo_now "tok"; OpConsume demo_now "tok"]
    (em_run [OpConsume demo_now "tok"; OpConsume demo_now "tok"] demo_manager).2 ≤ 1)%nat.
Proof.
  split; [vm_compute; reflexivity|]. apply token_single_use. repeat constructor; simpl; tauto.
Defined.

(** The time to live is enforced.  Once [generate_token] has returned a
    token, no [validate_and_consume] at a later time than its deadline
    (creation plus the configured time to live) succeeds, whatever the other
    operations of the run are. *)
Lemma token_expires (now now' : Z) (uuid : string) (m m' : EnrollmentTokenManager)
    (t : EnrollmentToken) (os : list em_op) :
  generate_token now now' uuid m = Some (m', t) →
  Forall (λ o, ¬ generates uuid o) os →
  Forall (consumes_after uuid (now + duration_seconds_u64 (em_ttl_seconds m))) os →
  accepted uuid os (em_run os m').2 = 0%nat.
Proof.
  unfold generate_token. intros Hgen Hg Hc.
  destruct (EnrollmentToken_new now uuid _) as [t0|] eqn:E; simplify_eq/=.
  apply EnrollmentToken_new_wf in E as ([Hk He] & Hcr & _).
  eapply accepted_after_deadline; [done|exact Hc|].
  intros t' Ht. simpl in Ht. apply map_lookup_filter_Some in Ht as [Ht _].
  rewrite lookup_insert_eq in Ht. by simplify_eq.
Qed.

Lemma token_expires_witness :
  accepted "tok" [OpConsume (demo_now + 301 * NANOS) "tok"]
    (em_run [OpConsume (demo_now + 301 * NANOS) "tok"] demo_manager).2 = 0%nat.
Proof.
  eapply (token_expires demo_now demo_now "tok" (EnrollmentTokenManager_new 300) demo_manager);
    [vm_compute; reflexivity|repeat constructor; simpl; tauto|].
  repeat constructor.
Defined.

(** The [u64] time to live is cast to [i64] when the deadline is computed.
    A configured value of [2^63] seconds or more never yields a usable token:
    [EnrollmentToken::new] panics or makes a token whose deadline is already
    past. *)
Lemma huge_ttl_unusable (now : Z) (uuid : string) (ttl : Z) :
  2 ^ 63 ≤ ttl ≤ U64_MAX →
  EnrollmentToken_new now uuid ttl = None ∨
  ∃ t, EnrollmentToken_new now uuid ttl = Some t ∧ token_is_valid now t = false.
Proof.
  intros Httl. destruct (EnrollmentToken_new now uuid ttl) as [t|] eqn:E; [right|by left].
  exists t. split; [done|]. apply EnrollmentToken_new_wf in E as ([_ He] & Hc & Hu).
  unfold token_is_valid, token_is_expired. rewrite Hu, He, Hc. simpl.
  assert (duration_seconds_u64 ttl < 0) as Hneg.
  { unfold duration_seconds_u64, wrap_i, NANOS. unfold U64_MAX in Httl.
    replace ((ttl + 2 ^ (64 - 1)) mod 2 ^ 64) with (ttl - 2 ^ 63); [lia|].
    apply (Z.mod_unique _ _ 1); lia. }
  destruct (Z.ltb_spec (now + duration_seconds_u64 ttl) now); [done|lia].
Qed.

Lemma huge_ttl_unusable_witness :
  EnrollmentToken_new demo_now "tok" U64_MAX = Some (mkEnrollmentToken "tok" demo_now (demo_now - NANOS) false) ∧
  (EnrollmentToken_new demo_now "tok" U64_MAX = None ∨
   ∃ t, EnrollmentToken_new demo_now "tok" U64_MAX = Some t ∧ token_is_valid demo_now t = false).
Proof. split; [vm_compute; reflexivity|]. apply huge_ttl_unusable. unfold U64_MAX. lia. Defined.
