(* ===== verification/Pairing.v ===== *)
(** * Pairing requests (server/src/security/pairing.rs)

    Approval-mode enrollment: a request waits for the owner's decision until its
    deadline.  Request ids and clock readings are inputs. *)

From S2P Require Import Prelude RustStd Net.

Open Scope Z_scope.

Inductive PairingRequestStatus := Pending | Approved | Rejected | Timeout.

#[export] Instance PairingRequestStatus_eq_dec : EqDecision PairingRequestStatus.
Proof. solve_decision. Defined.

Record PairingRequest := mkPairingRequest {
  pr_request_id : string;
  pr_device_name : string;
  pr_device_model : option string;
  pr_client_certificate : list byte;
  pr_verification_code : string;
  pr_created_at : Z;
  pr_expires_at : Z;
  pr_status : PairingRequestStatus;
  pr_client_id : option string;
  pr_ip_address : option IpAddr;
}.

(** [PairingRequest::new]; [None] when the date arithmetic panics. *)
Definition PairingRequest_new (now : Z) (uuid device_name : string) (device_model : option string)
    (client_certificate : list byte) (verification_code : string) (timeout_seconds : Z)
    (ip_address : option IpAddr) : option PairingRequest :=
  expires ← odt_add now (duration_seconds_u64 timeout_seconds);
  Some (mkPairingRequest uuid device_name device_model client_certificate verification_code
          now expires Pending None ip_address).

Definition pairing_is_expired (now : Z) (r : PairingRequest) : bool := pr_expires_at r <? now.
Definition pairing_is_pending (now : Z) (r : PairingRequest) : bool :=
  bool_decide (pr_status r = Pending) && negb (pairing_is_expired now r).

Definition set_status (s : PairingRequestStatus) (r : PairingRequest) : PairingRequest :=
  mkPairingRequest (pr_request_id r) (pr_device_name r) (pr_device_model r)
    (pr_client_certificate r) (pr_verification_code r) (pr_created_at r) (pr_expires_at r)
    s (pr_client_id r) (pr_ip_address r).
Definition set_approved (client_id : string) (r : PairingRequest) : PairingRequest :=
  mkPairingRequest (pr_request_id r) (pr_device_name r) (pr_device_model r)
    (pr_client_certificate r) (pr_verification_code r) (pr_created_at r) (pr_expires_at r)
    Approved (Some client_id) (pr_ip_address r).

Record PairingRequestManager := mkPairingRequestManager {
  pm_requests : gmap string PairingRequest;
  pm_timeout_seconds : Z;
}.

Definition PairingRequestManager_new (timeout_seconds : Z) : PairingRequestManager :=
  mkPairingRequestManager ∅ timeout_seconds.

Definition pm_set (m : PairingRequestManager) (rs : gmap string PairingRequest) :=
  mkPairingRequestManager rs (pm_timeout_seconds m).

Definition cleanup_keeps (now : Z) (r : PairingRequest) : bool :=
  negb (pairing_is_expired now r) || negb (bool_decide (pr_status r = Pending)).

Definition cleanup_expired_requests (now : Z) (rs : gmap string PairingRequest) : gmap string PairingRequest :=
  filter (λ kr, cleanup_keeps now kr.2 = true) rs.

(** [create_request]: [now] is the reading of [PairingRequest::new], [now'] the
    clean-up's. *)
Definition create_request (now now' : Z) (uuid device_name : string) (device_model : option string)
    (client_certificate : list byte) (verification_code : string) (ip_address : option IpAddr)
    (m : PairingRequestManager) : option (PairingRequestManager * PairingRequest) :=
  request ← PairingRequest_new now uuid device_name device_model client_certificate
              verification_code (pm_timeout_seconds m) ip_address;
  let rs := cleanup_expired_requests now' (pm_requests m) in
  Some (pm_set m (<[pr_request_id request := request]> rs), request).

Definition get_request (now : Z) (request_id : string) (m : PairingRequestManager)
    : PairingRequestManager * option PairingRequest :=
  let is_expired := match pm_requests m !! request_id with
                    | Some r => pairing_is_expired now r
                    | None => false
                    end in
  let rs := if is_expired then alter (set_status Timeout) request_id (pm_requests m)
            else pm_requests m in
  (pm_set m rs, rs !! request_id).

Definition approve_request (now : Z) (request_id client_id : string) (m : PairingRequestManager)
    : PairingRequestManager * result string unit :=
  match pm_requests m !! request_id with
  | None => (m, Err "Pairing request not found"%string)
  | Some r =>
      if pairing_is_expired now r then
        (pm_set m (<[request_id := set_status Timeout r]> (pm_requests m)),
         Err "Pairing request has expired"%string)
      else if negb (bool_decide (pr_status r = Pending)) then
        (m, Err "Pairing request is not pending"%string)
      else (pm_set m (<[request_id := set_approved client_id r]> (pm_requests m)), Ok tt)
  end.

Definition reject_request (request_id : string) (m : PairingRequestManager)
    : PairingRequestManager * result string unit :=
  match pm_requests m !! request_id with
  | None => (m, Err "Pairing request not found"%string)
  | Some r =>
      if negb (bool_decide (pr_status r = Pending)) then
        (m, Err "Pairing request is not pending"%string)
      else (pm_set m (<[request_id := set_status Rejected r]> (pm_requests m)), Ok tt)
  end.

Definition pending_count (now : Z) (m : PairingRequestManager) : nat :=
  length (filter (λ r, pairing_is_pending now r = true) (map_to_list (pm_requests m)).*2).

(** [list_pending]: [now] is the clean-up's reading, [now'] the filter's. *)
Definition list_pending (now now' : Z) (m : PairingRequestManager)
    : PairingRequestManager * list PairingRequest :=
  let rs := cleanup_expired_requests now (pm_requests m) in
  (pm_set m rs, filter (λ r, pairing_is_pending now' r = true) (map_to_list rs).*2).

(** ** Runs *)
Inductive pm_op :=
  | OpCreate (now now' : Z) (uuid device_name : string) (device_model : option string)
      (cert : list byte) (code : string) (ip : option IpAddr)
  | OpGet (now : Z) (request_id : string)
  | OpApprove (now : Z) (request_id client_id : string)
  | OpReject (request_id : string)
  | OpList (now now' : Z).

Definition pm_step (o : pm_op) (m : PairingRequestManager) : PairingRequestManager :=
  match o with
  | OpCreate now now' uuid name model cert code ip =>
      match create_request now now' uuid name model cert code ip m with
      | Some (m', _) => m'
      | None => m
      end
  | OpGet now id => (get_request now id m).1
  | OpApprove now id cid => (approve_request now id cid m).1
  | OpReject id => (reject_request id m).1
  | OpList now now' => (list_pending now now' m).1
  end.

Definition pm_run (os : list pm_op) (m : PairingRequestManager) : PairingRequestManager :=
  foldl (λ m o, pm_step o m) m os.

Definition creates (id : string) (o : pm_op) : Prop :=
  match o with OpCreate _ _ uuid _ _ _ _ _ => uuid = id | _ => False end.

(** ** Invariant

    A request is stored under its own id, its deadline is its creation plus the
    time-out, and it carries a client id only after it was approved (a later
    look-up past the deadline may have overwritten the status). *)
Definition request_wf (timeout : Z) (k : string) (r : PairingRequest) : Prop :=
  pr_request_id r = k ∧
  pr_expires_at r = pr_created_at r + duration_seconds_u64 timeout ∧
  (pr_status r = Approved → is_Some (pr_client_id r)) ∧
  (is_Some (pr_client_id r) → pr_status r = Approved ∨ pr_status r = Timeout).

Definition pm_wf (m : PairingRequestManager) : Prop :=
  map_Forall (request_wf (pm_timeout_seconds m)) (pm_requests m).

Lemma PairingRequest_new_wf now uuid name model cert code timeout ip r :
  PairingRequest_new now uuid name model cert code timeout ip = Some r →
  request_wf timeout uuid r ∧ pr_client_id r = None ∧ pr_request_id r = uuid.
Proof.
  unfold PairingRequest_new, odt_add. simpl. case_match; intros; simplify_eq/=.
  unfold request_wf; simpl. by split_and!.
Qed.

Lemma request_wf_timeout t k r : request_wf t k r → request_wf t k (set_status Timeout r).
Proof. intros (? & ? & ? & ?). unfold request_wf. split_and!; simpl; auto; done. Qed.

Lemma request_wf_approved t k r c : request_wf t k r → request_wf t k (set_approved c r).
Proof. intros (? & ? & ? & ?). unfold request_wf. split_and!; simpl; eauto. Qed.

Lemma request_wf_rejected t k r :
  pr_status r = Pending → request_wf t k r → request_wf t k (set_status Rejected r).
Proof. intros Hp (? & ? & ? & Hc). unfold request_wf. split_and!; simpl; auto; [done|]. intros [Ha|Ht]%Hc; congruence. Qed.

#[export] Hint Resolve request_wf_timeout request_wf_approved request_wf_rejected : hc.

Lemma cleanup_expired_requests_lookup now rs k r :
  cleanup_expired_requests now rs !! k = Some r → rs !! k = Some r.
Proof. by intros [? _]%map_lookup_filter_Some. Qed.

(** ** What one operation does to one request

    [status_next] is the transition relation of a stored request: the owner's
    decision moves a pending request, and the deadline moves any request to
    [Timeout]. *)
Inductive status_next : PairingRequest → PairingRequest → Prop :=
  | next_same r : status_next r r
  | next_approved r c : pr_status r = Pending → status_next r (set_approved c r)
  | next_rejected r : pr_status r = Pending → status_next r (set_status Rejected r)
  | next_timeout r : status_next r (set_status Timeout r).

#[export] Hint Constructors status_next : hc.

Definition approved_by (o : pm_op) (k : string) (r r' : PairingRequest) : Prop :=
  ∃ now c, o = OpApprove now k c ∧ now <= pr_expires_at r ∧ pr_status r = Pending ∧ r' = set_approved c r.

Definition steps_to (o : pm_op) (k : string) (m : PairingRequestManager) (r' : PairingRequest) : Prop :=
  ∃ r, pm_requests m !! k = Some r ∧ status_next r r' ∧
    (pr_client_id r' = pr_client_id r ∨ approved_by o k r r').

Lemma steps_to_same o k m r : pm_requests m !! k = Some r → steps_to o k m r.
Proof. exists r. eauto with hc. Qed.

Lemma steps_to_timeout o k m r : pm_requests m !! k = Some r → steps_to o k m (set_status Timeout r).
Proof. exists r. eauto with hc. Qed.

#[export] Hint Resolve steps_to_same steps_to_timeout : hc.

Lemma get_request_steps now id m k r' :
  pm_requests (get_request now id m).1 !! k = Some r' → steps_to (OpGet now id) k m r'.
Proof.
  unfold get_request; simpl. case_match; [|by eauto with hc]. case_match; [|by eauto with hc].
  rewrite lookup_alter_Some. intros [(<- & r & ? & ->)|[? ?]]; eauto with hc.
Qed.

Lemma approve_request_steps now id c m k r' :
  pm_requests (approve_request now id c m).1 !! k = Some r' → steps_to (OpApprove now id c) k m r'.
Proof.
  unfold approve_request, pairing_is_expired.
  destruct (pm_requests m !! id) as [r|] eqn:E; simpl; [|by eauto with hc].
  destruct (Z.ltb_spec (pr_expires_at r) now); simpl.
  { rewrite lookup_insert_Some. intros [[<- <-]|[? ?]]; eauto with hc. }
  case_bool_decide; simpl; [|by eauto with hc].
  rewrite lookup_insert_Some. intros [[<- <-]|[? ?]]; [|by eauto with hc].
  exists r. split_and!; [done|eauto with hc|]. right. exists now, c. done.
Qed.

Lemma reject_request_steps id m k r' :
  pm_requests (reject_request id m).1 !! k = Some r' → steps_to (OpReject id) k m r'.
Proof.
  unfold reject_request. destruct (pm_requests m !! id) as [r|] eqn:E; simpl; [|by eauto with hc].
  case_bool_decide; simpl; [|by eauto with hc].
  rewrite lookup_insert_Some. intros [[<- <-]|[? ?]]; [|by eauto with hc]. exists r. eauto with hc.
Qed.

Lemma create_request_steps now now' uuid name model cert code ip m m' r k r' :
  create_request now now' uuid name model cert code ip m = Some (m', r) →
  pm_requests m' !! k = Some r' →
  (uuid = k ∧ request_wf (pm_timeout_seconds m) k r' ∧ pr_client_id r' = None) ∨
  (uuid ≠ k ∧ pm_requests m !! k = Some r').
Proof.
  unfold create_request. destruct (PairingRequest_new _ _ _ _ _ _ _ _) as [r0|] eqn:E; [|done].
  intros [= <- <-]; simpl. apply PairingRequest_new_wf in E as (? & ? & ->).
  rewrite lookup_insert_Some. intros [[<- <-]|[? Hl%cleanup_expired_requests_lookup]]; [|by right].
  by left.
Qed.

(** Every operation either creates request [k], or moves it along [status_next]
    and sets its client only by an approval in time. *)
Lemma pm_step_steps o m k r' :
  pm_requests (pm_step o m) !! k = Some r' →
  (creates k o ∧ request_wf (pm_timeout_seconds m) k r' ∧ pr_client_id r' = None) ∨ steps_to o k m r'.
Proof.
  destruct o; simpl; intros Hl.
  - destruct (create_request _ _ _ _ _ _ _ _ _) as [[m' r]|] eqn:E; [|by eauto with hc].
    eapply create_request_steps in E as [?|[? ?]]; eauto with hc.
  - right. by apply get_request_steps.
  - right. by apply approve_request_steps.
  - right. by apply reject_request_steps.
  - right. apply cleanup_expired_requests_lookup in Hl. eauto with hc.
Qed.

Lemma pm_step_timeout o m : pm_timeout_seconds (pm_step o m) = pm_timeout_seconds m.
Proof.
  destruct o; simpl; try done.
  - unfold create_request. by destruct (PairingRequest_new _ _ _ _ _ _ _ _).
  - unfold approve_request. by cases.
  - unfold reject_request. by cases.
Qed.

Lemma status_next_wf t k r r' : status_next r r' → request_wf t k r → request_wf t k r'.
Proof. destruct 1; eauto with hc. Qed.

Lemma pm_step_wf o m : pm_wf m → pm_wf (pm_step o m).
Proof.
  intros Hwf k r' Hl. rewrite pm_step_timeout.
  apply pm_step_steps in Hl as [(_ & ? & _)|(r & Hr & Hn & _)]; [done|].
  eapply status_next_wf; eauto.
Qed.

Lemma pm_run_snoc os o m : pm_run (os ++ [o]) m = pm_step o (pm_run os m).
Proof. unfold pm_run. by rewrite foldl_app. Qed.

(** A request that is no longer pending survives every operation other than a
    creation under its id. *)
Lemma pm_step_decided o m k r :
  pm_requests m !! k = Some r → pr_status r ≠ Pending → ¬ creates k o →
  ∃ r', pm_requests (pm_step o m) !! k = Some r' ∧ pr_client_id r' = pr_client_id r ∧
    (pr_status r' = pr_status r ∨ pr_status r' = Timeout).
Proof.
  intros Hr Hs Hc.
  assert (∀ now, cleanup_expired_requests now (pm_requests m) !! k = Some r) as Hclean.
  { intros now. apply map_lookup_filter_Some. split; [done|]. unfold cleanup_keeps; simpl.
    rewrite (bool_decide_false (pr_status r = Pending)) by done. by rewrite orb_true_r. }
  assert (is_Some (pm_requests (pm_step o m) !! k)) as [r' Hr'].
  { destruct o as [? ? uuid| | | |]; simpl in *; eauto.
    - unfold create_request. destruct (PairingRequest_new _ _ _ _ _ _ _ _) as [r0|] eqn:E; simpl; [|by eauto].
      apply PairingRequest_new_wf in E as (_ & _ & ->). by rewrite lookup_insert_ne by done; eauto.
    - case_match; [|by eauto]. case_match; [|by eauto]. rewrite lookup_alter_is_Some. eauto.
    - unfold approve_request. cases; rewrite ?lookup_insert_is_Some'; eauto.
    - unfold reject_request. cases; rewrite ?lookup_insert_is_Some'; eauto. }
  exists r'. split; [done|].
  apply pm_step_steps in Hr' as [[? _]|(r0 & ? & Hn & Hcl)]; [done|]. simplify_eq.
  destruct Hcl as [Hcl|(? & ? & ? & ? & ? & ?)]; [|done]. split; [done|]. by destruct Hn; auto.
Qed.

(** C27: A client is bound to a pairing request only by the owner: whenever, in
    any interleaving of operations, a request carries a client id, the run
    contains an [approve_request] of that request with that id, made while the
    request was pending and its deadline had not passed. *)
Theorem approval_provenance t os id r c :
  pm_requests (pm_run os (PairingRequestManager_new t)) !! id = Some r →
  pr_client_id r = Some c →
  ∃ os1 now os2 r0, os = os1 ++ OpApprove now id c :: os2 ∧
    pm_requests (pm_run os1 (PairingRequestManager_new t)) !! id = Some r0 ∧
    pr_status r0 = Pending ∧ now <= pr_expires_at r0.
Proof.
  revert r. induction os as [|o os IH] using rev_ind; intros r Hl Hc; [done|].
  rewrite pm_run_snoc in Hl.
  apply pm_step_steps in Hl as [(_ & _ & ?)|(r0 & Hr0 & Hn & Hcl)]; [congruence|].
  destruct Hcl as [Hcl|(now & c' & -> & Ht & Hp & ->)].
  - destruct (IH r0) as (os1 & now & os2 & r1 & -> & ?); [done|congruence|].
    exists os1, now, (os2 ++ [o]), r1. by rewrite <-app_assoc.
  - simplify_eq/=. by exists os, now, [], r0.
Qed.

(** Decisions are final: a request that has left the pending state is never
    dropped, approved, rejected or bound to another client by any later run of
    operations; its status only stays or becomes [Timeout]. *)
Lemma decision_final os m k r :
  pm_requests m !! k = Some r → pr_status r ≠ Pending → Forall (λ o, ¬ creates k o) os →
  ∃ r', pm_requests (pm_run os m) !! k = Some r' ∧ pr_client_id r' = pr_client_id r ∧
    (pr_status r' = pr_status r ∨ pr_status r' = Timeout).
Proof.
  intros Hr Hs Hc. induction os as [|o os IH] using rev_ind; [by exists r; auto|].
  apply Forall_app in Hc as [Hc [Ho _]%Forall_cons]. destruct (IH Hc) as (r1 & Hr1 & Hc1 & Hs1).
  rewrite pm_run_snoc. eapply pm_step_decided in Hr1 as (r2 & ? & ? & Hs2); [| |done].
  - exists r2. split_and!; [done|congruence|]. destruct Hs1, Hs2; [left|right..]; congruence.
  - destruct Hs1; congruence.
Qed.

(** What a polling client is told: past the deadline the answer is [Timeout]
    whatever the stored status was, an approval included, and the stored status
    is overwritten; before it the stored request is returned unchanged. *)
Lemma get_request_reports now id m r :
  pm_requests m !! id = Some r →
  if pairing_is_expired now r
  then (get_request now id m).2 = Some (set_status Timeout r) ∧
       pm_requests (get_request now id m).1 = <[id := set_status Timeout r]> (pm_requests m)
  else get_request now id m = (m, Some r).
Proof.
  intros Hr. unfold get_request. rewrite Hr. destruct (pairing_is_expired now r); simpl.
  - rewrite lookup_alter_eq, Hr. split; [done|].
    apply map_eq. intros k. destruct (decide (k = id)) as [->|].
    + by rewrite lookup_alter_eq, lookup_insert_eq, Hr.
    + by rewrite lookup_alter_ne, lookup_insert_ne.
  - rewrite Hr. by destruct m.
Qed.

(** ** Concrete runs *)
Definition demo_create : pm_op := OpCreate 0 0 "r1" "Pixel" None [] "123-456" None.
Definition demo_pending : PairingRequestManager := pm_step demo_create (PairingRequestManager_new 60).
Definition demo_approved : PairingRequestManager := pm_step (OpApprove 5 "r1" "c1") demo_pending.
Definition demo_request : PairingRequest :=
  mkPairingRequest "r1" "Pixel" None [] "123-456" 0 (60 * NANOS) Approved (Some "c1"%string) None.

Lemma approval_provenance_witness :
  ∃ os1 now os2 r0, [demo_create; OpApprove 5 "r1" "c1"; OpGet 7 "r1"] = os1 ++ OpApprove now "r1" "c1" :: os2 ∧
    pm_requests (pm_run os1 (PairingRequestManager_new 60)) !! "r1"%string = Some r0 ∧
    pr_status r0 = Pending ∧ now <= pr_expires_at r0.
Proof.
  apply (approval_provenance 60 [demo_create; OpApprove 5 "r1" "c1"; OpGet 7 "r1"] "r1" demo_request "c1");
    vm_compute; reflexivity.
Defined.

Lemma decision_final_witness :
  ∃ r', pm_requests (pm_run [OpReject "r1"; OpGet (61 * NANOS) "r1"; OpList 0 0] demo_approved) !! "r1"%string = Some r' ∧
    pr_client_id r' = Some "c1"%string ∧ (pr_status r' = Approved ∨ pr_status r' = Timeout).
Proof.
  apply (decision_final [OpReject "r1"; OpGet (61 * NANOS) "r1"; OpList 0 0] demo_approved "r1" demo_request);
    [vm_compute; reflexivity|done|]. repeat constructor; simpl; tauto.
Defined.

Lemma get_request_reports_witness :
  (get_request (61 * NANOS) "r1" demo_approved).2 = Some (set_status Timeout demo_request) ∧
  pm_requests (get_request (61 * NANOS) "r1" demo_approved).1
    = <["r1"%string := set_status Timeout demo_request]> (pm_requests demo_approved).
Proof. apply (get_request_reports (61 * NANOS) "r1" demo_approved demo_request). vm_compute; reflexivity. Defined.
