(* ===== verification/Certificates.v ===== *)
(** * Certificates (server/src/security/certificates.rs)

    Key generation, signing and PEM are the crates [rcgen], [pem] and
    [rustls_pemfile]: parameters, as the class [CertCrates]. *)

From S2P Require Import Prelude RustStd ThirdParty Net Fs.

Open Scope Z_scope.

Inductive SanType := DnsName (s : string) | IpAddress (ip : IpAddr).

Record CertificateParams := mkCertificateParams {
  cp_common_name : string;
  cp_organization_name : string;
  cp_subject_alt_names : list SanType;
  cp_not_before : Z;
  cp_not_after : Z;
}.

(** A key pair is its PKCS#8 encoding. *)
Class CertCrates := {
  self_signed : CertificateParams → bytes → result string bytes;
  pem_encode : string → bytes → string;
  pem_certs : bytes → option (list bytes);
  pem_pkcs8_keys : bytes → option (list bytes);
}.

(** The readers find the block the encoder wrote. *)
Class CertCratesLaws `{CertCrates} := {
  pem_certs_encode d : pem_certs (to_bytes (pem_encode "CERTIFICATE" d)) = Some [d];
  pem_keys_encode d : pem_pkcs8_keys (to_bytes (pem_encode "PRIVATE KEY" d)) = Some [d];
}.

Record ServerCertificate := mkServerCertificate {
  sc_cert_der : bytes;
  sc_key_der : bytes;
  sc_fingerprint : bytes;
}.

Record ClientCertificate := mkClientCertificate {
  cc_cert_der : bytes;
  cc_fingerprint : bytes;
}.

Section certificates.
Context `{Sha256, HexEncode, CertCrates}.

Definition compute_fingerprint (cert_der : bytes) : bytes := sha256 cert_der.

Definition ClientCertificate_from_der (cert_der : bytes) : ClientCertificate :=
  mkClientCertificate cert_der (compute_fingerprint cert_der).

Definition client_fingerprint_hex (c : ClientCertificate) : string := hex_encode (cc_fingerprint c).
Definition server_fingerprint_hex (c : ServerCertificate) : string := hex_encode (sc_fingerprint c).
Definition fingerprint_display (c : ServerCertificate) : string :=
  String.append "SHA256:" (hex_encode (sc_fingerprint c)).

(** [ServerCertificate::generate]: [key] is the answer of the key generator; the
    outer [None] is a panic of the date arithmetic. *)
Definition generate (now : Z) (key : option bytes) : option (result string ServerCertificate) :=
  match key with
  | None => Some (Err "Failed to generate ECDSA P-256 key pair"%string)
  | Some key_der =>
      not_after ← odt_add now (3650 * 86400 * NANOS);
      let params := mkCertificateParams "HandControl Server" "HandControl"
        [DnsName "localhost"; DnsName "handcontrol.local";
         IpAddress (V4 (mkIpv4 127 0 0 1)); IpAddress (V6 (mkIpv6 0 0 0 0 0 0 0 1))]
        now not_after in
      Some match self_signed params key_der with
           | Err _ => Err "Failed to generate self-signed certificate"%string
           | Ok cert_der => Ok (mkServerCertificate cert_der key_der (compute_fingerprint cert_der))
           end
  end.

Definition save_to_files (a1 a2 : write_answer) (c : ServerCertificate) (cert_path key_path : string)
    (fs : FileSystem) : FileSystem * result string unit :=
  let cert_pem := pem_encode "CERTIFICATE" (sc_cert_der c) in
  let key_pem := pem_encode "PRIVATE KEY" (sc_key_der c) in
  let '(fs1, ok1) := fs_write a1 cert_path (to_bytes cert_pem) fs in
  if ok1 then
    let '(fs2, ok2) := fs_write a2 key_path (to_bytes key_pem) fs1 in
    if ok2 then (fs2, Ok tt)
    else (fs2, Err (String.append "Failed to write private key to " key_path))
  else (fs1, Err (String.append "Failed to write certificate to " cert_path)).

(** [a1], [a2]: whether the two files could be opened and read. *)
Definition load_from_files (a1 a2 : bool) (cert_path key_path : string) (fs : FileSystem)
    : result string ServerCertificate :=
  cert_file ← ok_or (fs_read a1 cert_path fs) (String.append "Failed to open certificate file: " cert_path);
  cert_ders ← ok_or (pem_certs cert_file) "Failed to parse certificate PEM"%string;
  cert_der ← ok_or (head cert_ders) (String.append "No certificates found in " cert_path);
  key_file ← ok_or (fs_read a2 key_path fs) (String.append "Failed to open private key file: " key_path);
  key_ders ← ok_or (pem_pkcs8_keys key_file) "Failed to parse private key PEM"%string;
  key_der ← ok_or (head key_ders) (String.append "No private keys found in " key_path);
  Ok (mkServerCertificate cert_der key_der (compute_fingerprint cert_der)).

Record ensure_input := mkEnsureInput {
  ei_read_cert : bool; ei_read_key : bool;
  ei_now : Z; ei_key : option bytes;
  ei_write_cert : write_answer; ei_write_key : write_answer;
}.

Definition ensure_server_certificate (i : ensure_input) (cert_path key_path : string) (fs : FileSystem)
    : option (FileSystem * result string ServerCertificate) :=
  let loaded := if fs_exists cert_path fs && fs_exists key_path fs
                then load_from_files (ei_read_cert i) (ei_read_key i) cert_path key_path fs
                else Err "absent"%string in
  match loaded with
  | Ok cert => Some (fs, Ok cert)
  | Err _ =>
      g ← generate (ei_now i) (ei_key i);
      Some match g with
           | Err e => (fs, Err e)
           | Ok cert =>
               let '(fs', r) := save_to_files (ei_write_cert i) (ei_write_key i) cert cert_path key_path fs in
               (fs', r ≫= λ _, Ok cert)
           end
  end.

(** A certificate of this server carries the digest of its DER. *)
Definition cert_wf (c : ServerCertificate) : Prop := sc_fingerprint c = compute_fingerprint (sc_cert_der c).

Lemma load_from_files_wf a1 a2 p q fs c : load_from_files a1 a2 p q fs = Ok c → cert_wf c.
Proof. unfold load_from_files. intros. by inv_ok. Qed.

Lemma generate_wf now key c : generate now key = Some (Ok c) → cert_wf c.
Proof.
  unfold generate. destruct key; [|by intros]. unfold odt_add; simpl. case_match; simpl; [|done].
  by case_match; intros; simplify_eq.
Qed.

Context `{!CertCratesLaws}.

Lemma load_after_save c p q fs fs' :
  p ≠ q → cert_wf c →
  save_to_files WOk WOk c p q fs = (fs', Ok tt) → load_from_files true true p q fs' = Ok c.
Proof.
  intros Hpq Hwf [= <-]. unfold load_from_files, fs_read, set_file; simpl.
  rewrite (lookup_insert_ne _ q p) by congruence. rewrite !lookup_insert_eq. simpl.
  rewrite pem_certs_encode. simpl. rewrite pem_keys_encode. simpl. rewrite <-Hwf. by destruct c.
Qed.

Lemma save_to_files_ok a1 a2 c p q fs fs' :
  save_to_files a1 a2 c p q fs = (fs', Ok tt) → a1 = WOk ∧ a2 = WOk.
Proof. unfold save_to_files, fs_write. by cases. Qed.

Lemma save_to_files_exists c p q fs fs' :
  save_to_files WOk WOk c p q fs = (fs', Ok tt) → fs_exists p fs' = true ∧ fs_exists q fs' = true.
Proof.
  intros [= <-]. split; [|auto with hc]. unfold fs_exists, set_file; simpl.
  rewrite bool_decide_true; [done|]. rewrite lookup_insert_is_Some'. right. rewrite lookup_insert_eq. eauto.
Qed.

(** After a successful [ensure_server_certificate] the two files hold its result. *)
Lemma ensured_loads i p q fs fs' c : p ≠ q →
  ensure_server_certificate i p q fs = Some (fs', Ok c) → ei_read_cert i = true → ei_read_key i = true →
  fs_exists p fs' = true ∧ fs_exists q fs' = true ∧ load_from_files true true p q fs' = Ok c.
Proof.
  intros Hpq He Hi1 Hi2. unfold ensure_server_certificate in He. rewrite Hi1, Hi2 in He.
  destruct (fs_exists p fs && fs_exists q fs) eqn:Hex;
    [apply andb_true_iff in Hex as [Hp Hq]; destruct (load_from_files _ _ _ _ _) as [c0|e] eqn:El; [by simplify_eq|]|];
    (destruct (generate _ _) as [[c0|e0]|] eqn:Eg; simplify_eq/=;
     destruct (save_to_files _ _ c0 p q fs) as [fs1 r] eqn:Es; destruct r as [[]|]; simplify_eq/=;
     destruct (save_to_files_ok _ _ _ _ _ _ _ Es) as [E1 E2]; rewrite E1, E2 in Es;
     destruct (save_to_files_exists _ _ _ _ _ Es); split_and!; [done..|];
     by apply (load_after_save _ _ _ _ _ Hpq (generate_wf _ _ _ Eg) Es)).
Qed.
Lemma ensure_loaded j p q fs c : fs_exists p fs = true → fs_exists q fs = true → load_from_files true true p q fs = Ok c →
  ei_read_cert j = true → ei_read_key j = true → ensure_server_certificate j p q fs = Some (fs, Ok c).
Proof. intros Hp Hq Hl R1 R2. unfold ensure_server_certificate. by rewrite R1, R2, Hp, Hq, Hl. Qed.

(** The server's identity is stable: after a successful
    [ensure_server_certificate], a later call that can read the two files
    returns the same certificate and key and writes nothing, whatever the key
    generator and the clock would have given. *)
Lemma ensure_server_certificate_stable i j p q fs fs' c :
  p ≠ q →
  ensure_server_certificate i p q fs = Some (fs', Ok c) →
  ei_read_cert i = true → ei_read_key i = true →
  ei_read_cert j = true → ei_read_key j = true →
  ensure_server_certificate j p q fs' = Some (fs', Ok c).
Proof.
  intros Hpq He Hi1 Hi2 Hj1 Hj2. destruct (ensured_loads _ _ _ _ _ _ Hpq He Hi1 Hi2) as (? & ? & ?). by apply ensure_loaded.
Qed.
End certificates.

(** ** A concrete instance: PEM as the tag line followed by the bytes *)
#[local] Existing Instance demo_sha256.
Definition demo_hdr (tag : string) : bytes := to_bytes (String.append tag ":").
#[local] Instance demo_crates : CertCrates := {|
  self_signed p k := Ok (to_bytes (cp_common_name p) ++ k);
  pem_encode tag d := String.append (String.append tag ":") (String.string_of_list_byte d);
  pem_certs b := if decide (take 12 b = demo_hdr "CERTIFICATE") then Some [drop 12 b] else None;
  pem_pkcs8_keys b := if decide (take 12 b = demo_hdr "PRIVATE KEY") then Some [drop 12 b] else None;
|}.

#[local] Instance demo_crates_laws : CertCratesLaws.
Proof.
  split; intros d; cbn [pem_certs pem_encode pem_pkcs8_keys demo_crates]; rewrite to_bytes_app.
  all: unfold to_bytes at 3; rewrite String.list_byte_of_string_of_list_byte; simpl.
  all: reflexivity.
Qed.

Definition demo_input : ensure_input := mkEnsureInput true true 0 (Some [x01; x02]) WOk WOk.
Definition demo_ensured : option (FileSystem * result string ServerCertificate) :=
  ensure_server_certificate demo_input "c" "k" (mkFs ∅ ∅).

Lemma ensure_server_certificate_stable_witness :
  ∃ fs c, demo_ensured = Some (fs, Ok c) ∧
    ensure_server_certificate (mkEnsureInput true true 7 None (WErr None) WOk) "c" "k" fs = Some (fs, Ok c).
Proof.
  eexists _, _. split; [reflexivity|].
  apply (ensure_server_certificate_stable demo_input _ "c" "k" (mkFs ∅ ∅)); [done|reflexivity..].
Defined.
