(* ===== verification/ClientStore.v ===== *)
(** * The store of authorized clients (server/src/storage/clients.rs)

    The registry lives in memory and in [metadata.toml]; each client's
    certificate in [<id>.crt].  The state of an operation is the file system and
    the store; the answers of the operating system, the clock and the fresh UUID
    are inputs. *)

From S2P Require Import Prelude RustStd ThirdParty Net Fs Certificates.

Open Scope Z_scope.

Record IpConnection := mkIpConnection { ic_ip_address : string; ic_connected_at : Z }.

Record ClientMetadata := mkClientMetadata {
  cm_id : string;
  cm_name : string;
  cm_cert_fingerprint : string;
  cm_enrolled_at : Z;
  cm_last_seen : Z;
  cm_ip_history : list IpConnection;
}.

#[export] Instance IpConnection_eq_dec : EqDecision IpConnection.
Proof. solve_decision. Defined.
#[export] Instance ClientMetadata_eq_dec : EqDecision ClientMetadata.
Proof. solve_decision. Defined.

Definition last_ip (c : ClientMetadata) : option string := ic_ip_address <$> last (cm_ip_history c).

Record ClientRegistry := mkClientRegistry { cr_client : list ClientMetadata }.
Definition ClientRegistry_default : ClientRegistry := mkClientRegistry [].

Record ClientStore := mkClientStore {
  cs_clients_dir : string;
  cs_metadata_path : string;
  cs_registry : ClientRegistry;
}.

Definition MAX_IP_HISTORY : nat := 100.

(** [iter_mut().find(p)] and an assignment through the reference. *)
Fixpoint update_first {A} (p : A → bool) (f : A → A) (l : list A) : option (list A) :=
  match l with
  | [] => None
  | x :: l' => if p x then Some (f x :: l') else (x ::.) <$> update_first p f l'
  end.

Section store.
Context `{Sha256, HexEncode, !TomlCodec ClientRegistry}.

Definition with_clients (cs : list ClientMetadata) (s : ClientStore) : ClientStore :=
  mkClientStore (cs_clients_dir s) (cs_metadata_path s) (mkClientRegistry cs).

Definition load_registry (ans : bool) (path : string) (fs : FileSystem) : result string ClientRegistry :=
  content ← ok_or (fs_read_to_string ans path fs) (String.append "Failed to read metadata file: " path);
  map_err (λ _, String.append "Failed to parse metadata file: " path) (toml_from_str content).

(** [ClientStore::new]: [mk] and [rd] are the answers to creating the directory
    and reading the metadata. *)
Definition ClientStore_new (mk rd : bool) (clients_dir : string) (fs : FileSystem)
    : FileSystem * result string ClientStore :=
  let '(fs1, ok) := if fs_exists clients_dir fs then (fs, true) else fs_create_dir_all mk clients_dir fs in
  if ok then
    let metadata_path := path_join clients_dir "metadata.toml" in
    (fs1, registry ← (if fs_exists metadata_path fs1 then load_registry rd metadata_path fs1
                      else Ok ClientRegistry_default);
          Ok (mkClientStore clients_dir metadata_path registry))
  else (fs1, Err (String.append "Failed to create clients directory: " clients_dir)).

Definition save_registry (ans : write_answer) (s : ClientStore) (fs : FileSystem)
    : FileSystem * result string unit :=
  match toml_to_string_pretty (cs_registry s) with
  | Err _ => (fs, Err "Failed to serialize client registry"%string)
  | Ok content =>
      let '(fs', ok) := fs_write ans (cs_metadata_path s) (to_bytes content) fs in
      (fs', if ok then Ok tt else Err (String.append "Failed to write metadata file: " (cs_metadata_path s)))
  end.

Definition cert_file (s : ClientStore) (client_id : string) : string :=
  path_join (cs_clients_dir s) (String.append client_id ".crt").

(** [add_client]: [a1] answers the write of the certificate, [a2] of the
    metadata. *)
Definition add_client (uuid : string) (now : Z) (a1 a2 : write_answer) (cert : ClientCertificate)
    (device_name : string) (ip : option IpAddr) (fs : FileSystem) (s : ClientStore)
    : FileSystem * ClientStore * result string string :=
  let client_id := uuid in
  let cert_path := cert_file s client_id in
  let '(fs1, ok) := fs_write a1 cert_path (cc_cert_der cert) fs in
  if ok then
    let ip_history := match ip with Some ip => [mkIpConnection (ip_to_string ip) now] | None => [] end in
    let metadata := mkClientMetadata client_id device_name (client_fingerprint_hex cert) now now ip_history in
    let s' := with_clients (cr_client (cs_registry s) ++ [metadata]) s in
    let '(fs2, r) := save_registry a2 s' fs1 in
    (fs2, s', r ≫= λ _, Ok client_id)
  else (fs1, s, Err (String.append "Failed to write client certificate: " cert_path)).

Definition remove_client (rm : bool) (a : write_answer) (client_id : string) (fs : FileSystem) (s : ClientStore)
    : FileSystem * ClientStore * result string unit :=
  let cs := cr_client (cs_registry s) in
  let cs' := filter (λ c, cm_id c ≠ client_id) cs in
  let s' := with_clients cs' s in
  if bool_decide (length cs' = length cs) then
    (fs, s', Err (String.append "Client not found: " client_id))
  else
    let cert_path := cert_file s client_id in
    let '(fs1, ok) := if fs_exists cert_path fs then fs_remove_file rm cert_path fs else (fs, true) in
    if ok then
      let '(fs2, r) := save_registry a s' fs1 in (fs2, s', r)
    else (fs1, s', Err (String.append "Failed to remove certificate: " cert_path)).

Definition get_client (client_id : string) (s : ClientStore) : option ClientMetadata :=
  snd <$> list_find (λ c, cm_id c = client_id) (cr_client (cs_registry s)).

Definition get_client_by_fingerprint (fingerprint : string) (s : ClientStore) : option ClientMetadata :=
  snd <$> list_find (λ c, cm_cert_fingerprint c = fingerprint) (cr_client (cs_registry s)).

(** The two halves of [update_last_seen_with_ip]: the new history, then the
    record. *)
Definition push_ip (now : Z) (ip : option IpAddr) (history : list IpConnection) : list IpConnection :=
  match ip with
  | None => history
  | Some ip =>
      let ip_str := ip_to_string ip in
      let should_add := match last history with
                        | Some l => bool_decide (ic_ip_address l ≠ ip_str)
                        | None => true
                        end in
      if should_add then
        let h := history ++ [mkIpConnection ip_str now] in
        if bool_decide (MAX_IP_HISTORY < length h)%nat then drop (length h - MAX_IP_HISTORY) h else h
      else history
  end.

Definition touch (now : Z) (ip : option IpAddr) (c : ClientMetadata) : ClientMetadata :=
  mkClientMetadata (cm_id c) (cm_name c) (cm_cert_fingerprint c) (cm_enrolled_at c) now
    (push_ip now ip (cm_ip_history c)).

Definition update_last_seen_with_ip (now : Z) (a : write_answer) (client_id : string) (ip : option IpAddr)
    (fs : FileSystem) (s : ClientStore) : FileSystem * ClientStore * result string unit :=
  match update_first (λ c, bool_decide (cm_id c = client_id)) (touch now ip) (cr_client (cs_registry s)) with
  | None => (fs, s, Err (String.append "Client not found: " client_id))
  | Some cs =>
      let s' := with_clients cs s in
      let '(fs', r) := save_registry a s' fs in (fs', s', r)
  end.

Definition update_last_seen (now : Z) (a : write_answer) (client_id : string) :=
  update_last_seen_with_ip now a client_id None.

Definition list_clients (s : ClientStore) : list ClientMetadata := cr_client (cs_registry s).

Definition load_client_certificate (rd : bool) (client_id : string) (fs : FileSystem) (s : ClientStore)
    : result string ClientCertificate :=
  let cert_path := cert_file s client_id in
  cert_der ← ok_or (fs_read rd cert_path fs) (String.append "Failed to read client certificate: " cert_path);
  Ok (ClientCertificate_from_der cert_der).

Definition is_authorized (cert_fingerprint : string) (s : ClientStore) : bool :=
  bool_decide (is_Some (get_client_by_fingerprint cert_fingerprint s)).

(** [collect] into a [HashMap]: a later client replaces an earlier one. *)
Definition authorized_fingerprints (s : ClientStore) : gmap string string :=
  foldl (λ m c, <[cm_cert_fingerprint c := cm_id c]> m) ∅ (cr_client (cs_registry s)).

(** ** Runs: the operations behind the store's lock *)
Inductive cs_op :=
  | OpAdd (uuid : string) (now : Z) (a1 a2 : write_answer) (cert_der : bytes) (name : string) (ip : option IpAddr)
  | OpRemove (rm : bool) (a : write_answer) (client_id : string)
  | OpTouch (now : Z) (a : write_answer) (client_id : string) (ip : option IpAddr).

(** The state after an operation, and whether it returned [Ok]. *)
Definition cs_step (o : cs_op) (st : FileSystem * ClientStore) : FileSystem * ClientStore * bool :=
  let '(fs, s) := st in
  match o with
  | OpAdd uuid now a1 a2 der name ip =>
      let '(fs', s', r) := add_client uuid now a1 a2 (ClientCertificate_from_der der) name ip fs s in (fs', s', is_ok r)
  | OpRemove rm a id => let '(fs', s', r) := remove_client rm a id fs s in (fs', s', is_ok r)
  | OpTouch now a id ip => let '(fs', s', r) := update_last_seen_with_ip now a id ip fs s in (fs', s', is_ok r)
  end.

Definition cs_run (os : list cs_op) (st : FileSystem * ClientStore) : FileSystem * ClientStore :=
  foldl (λ st o, (cs_step o st).1) st os.

(** The fingerprint that [add_client] records for a certificate. *)
Definition fp_of (der : bytes) : string := client_fingerprint_hex (ClientCertificate_from_der der).

(** ** Specification: who is authorized

    The abstract store is the list of (client id, certificate fingerprint). *)
Definition ckey (c : ClientMetadata) : string * string := (cm_id c, cm_cert_fingerprint c).
Definition ckeys (s : ClientStore) : list (string * string) := ckey <$> cr_client (cs_registry s).

Definition spec_step (o : cs_op) (ks : list (string * string)) : list (string * string) :=
  match o with
  | OpAdd uuid _ WOk _ der _ _ => ks ++ [(uuid, fp_of der)]
  | OpAdd _ _ (WErr _) _ _ _ _ => ks
  | OpRemove _ _ id => filter (λ k, k.1 ≠ id) ks
  | OpTouch _ _ _ _ => ks
  end.

Lemma add_client_store uuid now a1 a2 cert name ip fs s :
  ckeys (add_client uuid now a1 a2 cert name ip fs s).1.2 =
    match a1 with WOk => ckeys s ++ [(uuid, client_fingerprint_hex cert)] | WErr _ => ckeys s end.
Proof.
  unfold add_client, fs_write. destruct a1 as [|[l|]]; try done.
  destruct (save_registry _ _ _) as [fs' r]. unfold ckeys; simpl. by rewrite fmap_app.
Qed.

Lemma remove_client_store rm a id fs s :
  (remove_client rm a id fs s).1.2 =
    with_clients (filter (λ c, cm_id c ≠ id) (cr_client (cs_registry s))) s.
Proof. unfold remove_client. cases; done. Qed.

Lemma update_first_map {A B} (g : A → B) p f (l l' : list A) :
  (∀ x, g (f x) = g x) → update_first p f l = Some l' → g <$> l' = g <$> l.
Proof.
  intros Hg. revert l'. induction l as [|x l IH]; intros l' Hu; simpl in Hu; [done|].
  destruct (p x); simplify_eq/=; [by rewrite Hg|].
  destruct (update_first p f l) as [l1|]; simplify_eq/=. by rewrite (IH l1).
Qed.

Lemma update_store_keys now a id ip fs s :
  ckeys (update_last_seen_with_ip now a id ip fs s).1.2 = ckeys s.
Proof.
  unfold update_last_seen_with_ip. destruct (update_first _ _ _) as [cs|] eqn:E; [|done].
  destruct (save_registry _ _ _) as [fs' r]. unfold ckeys; simpl. by eapply update_first_map in E.
Qed.

Lemma ckey_filter id (cs : list ClientMetadata) :
  ckey <$> filter (λ c, cm_id c ≠ id) cs = filter (λ k, k.1 ≠ id) (ckey <$> cs).
Proof. induction cs as [|c cs IH]; [done|]. rewrite fmap_cons, !filter_cons. simpl. case_decide; [rewrite fmap_cons; by f_equal|done]. Qed.

Lemma cs_step_keys o st : ckeys (cs_step o st).1.2 = spec_step o (ckeys st.2).
Proof.
  destruct st as [fs s], o as [uuid now a1 a2 der name ip|rm a id|now a id ip]; simpl.
  - pose proof (add_client_store uuid now a1 a2 (ClientCertificate_from_der der) name ip fs s) as E.
    destruct (add_client _ _ _ _ _ _ _ _ _) as [[fs' s'] r]; simpl in *. by destruct a1.
  - pose proof (remove_client_store rm a id fs s) as E.
    destruct (remove_client _ _ _ _ _) as [[fs' s'] r]; simpl in *. subst s'. apply ckey_filter.
  - pose proof (update_store_keys now a id ip fs s) as E.
    by destruct (update_last_seen_with_ip _ _ _ _ _ _) as [[fs' s'] r].
Qed.

Lemma cs_run_snoc os o st : cs_run (os ++ [o]) st = (cs_step o (cs_run os st)).1.
Proof. unfold cs_run. by rewrite foldl_app. Qed.

Lemma is_authorized_spec fp s : is_authorized fp s = true ↔ fp ∈ (ckeys s).*2.
Proof.
  unfold is_authorized, get_client_by_fingerprint, ckeys. rewrite bool_decide_eq_true, fmap_is_Some.
  rewrite <-list_fmap_compose. split.
  - intros [[i c] (Hl & <- & _)%list_find_Some]. apply list_elem_of_lookup_2 in Hl. apply list_elem_of_fmap. by exists c.
  - intros (c & -> & Hc)%list_elem_of_fmap. by eapply list_find_elem_of.
Qed.

Definition removes (id : string) (o : cs_op) : Prop :=
  match o with OpRemove _ _ id' => id' = id | _ => False end.

Lemma key_in_run id fp os st :
  ckeys st.2 = [] →
  (id, fp) ∈ ckeys (cs_run os st).2 ↔
  ∃ os1 now a2 der name ip os2, os = os1 ++ OpAdd id now WOk a2 der name ip :: os2 ∧
    fp_of der = fp ∧ Forall (λ o, ¬ removes id o) os2.
Proof.
  intros Hst. induction os as [|o os IH] using rev_ind.
  { simpl. rewrite Hst. split; [by intros ?%elem_of_nil|]. by intros ([] & ? & ? & ? & ? & ? & ? & ? & _). }
  rewrite cs_run_snoc, cs_step_keys. split.
  - intros Hin.
    assert ((id, fp) ∈ ckeys (cs_run os st).2 ∧ ¬ removes id o ∨
            ∃ now a2 der name ip, o = OpAdd id now WOk a2 der name ip ∧ fp_of der = fp) as [[Hk Ho]|Ho].
    { destruct o as [uuid now [|] a2 der name ip| |]; simpl in *; auto.
      - apply elem_of_app in Hin as [?|[= -> ->]%list_elem_of_singleton]; [by auto|]. right. by repeat eexists.
      - apply list_elem_of_filter in Hin as [? ?]. left. naive_solver. }
    + apply IH in Hk as (os1 & now & a2 & der & name & ip & os2 & -> & ? & ?).
      exists os1, now, a2, der, name, ip, (os2 ++ [o]). rewrite <-app_assoc. split_and!; [done..|].
      apply Forall_app. by rewrite Forall_singleton.
    + destruct Ho as (now & a2 & der & name & ip & -> & ?). exists os, now, a2, der, name, ip, []. by auto.
  - intros (os1 & now & a2 & der & name & ip & os2 & Heq & Hfp & Hrm).
    destruct os2 as [|o2 os2 _] using rev_ind.
    + apply app_inj_tail in Heq as [-> ->]. simpl. rewrite Hfp. apply elem_of_app. right. by apply list_elem_of_singleton.
    + rewrite app_comm_cons, app_assoc in Heq. apply app_inj_tail in Heq as [-> ->].
      apply Forall_app in Hrm as [Hrm [Ho _]%Forall_cons].
      assert ((id, fp) ∈ ckeys (cs_run (os1 ++ OpAdd id now WOk a2 der name ip :: os2) st).2) as Hk.
      { apply IH. by repeat eexists. }
      destruct o2 as [? ? [|]| |]; simpl in *; [apply elem_of_app; by left|done| |done].
      apply list_elem_of_filter. split; [simpl; congruence|done].
Qed.

(** C18: Authorization is exactly enrollment minus revocation: starting from an
    empty store, in any interleaving of additions, removals and updates (I/O
    failures included), a fingerprint is authorized if and only if some
    [add_client] of a certificate with this fingerprint got its certificate file
    written and its client id was not removed afterwards. *)
Theorem authorized_iff_enrolled fp os fs s :
  cr_client (cs_registry s) = [] →
  is_authorized fp (cs_run os (fs, s)).2 = true ↔
  ∃ id os1 now a2 der name ip os2, os = os1 ++ OpAdd id now WOk a2 der name ip :: os2 ∧
    fp_of der = fp ∧ Forall (λ o, ¬ removes id o) os2.
Proof.
  intros Hs. assert (ckeys (fs, s).2 = []) as Hk by (unfold ckeys; simpl; by rewrite Hs).
  rewrite is_authorized_spec. split.
  - intros ([id fp'] & -> & Hin)%list_elem_of_fmap. exists id. by apply (key_in_run id fp' os (fs, s)).
  - intros (id & Hrun). apply list_elem_of_fmap. exists (id, fp). split; [done|].
    by apply (key_in_run id fp os (fs, s)).
Qed.

Lemma add_client_authorizes uuid now a2 der name ip fs s :
  is_authorized (fp_of der) (add_client uuid now WOk a2 (ClientCertificate_from_der der) name ip fs s).1.2 = true.
Proof.
  apply is_authorized_spec. rewrite add_client_store, fmap_app.
  apply elem_of_app. right. by apply list_elem_of_singleton.
Qed.

(** An enrollment whose registry could not be saved still authorizes the
    client: [add_client] returns an error, and the fingerprint is authorized in
    the running server. *)
Lemma failed_save_still_authorizes uuid now left der name ip fs s :
  let '(fs', s', r) := add_client uuid now WOk (WErr left) (ClientCertificate_from_der der) name ip fs s in
  is_ok r = false ∧ is_authorized (fp_of der) s' = true.
Proof.
  pose proof (add_client_authorizes uuid now (WErr left) der name ip fs s) as Hk.
  destruct (add_client _ _ _ _ _ _ _ _ _) as [[fs' s'] r] eqn:E. split; [|done].
  unfold add_client in E; simpl in E. unfold save_registry in E.
  destruct (toml_to_string_pretty _); [destruct left|]; by simplify_eq/=.
Qed.

(** ** Persistence *)
Definition store_wf (fs : FileSystem) (s : ClientStore) : Prop :=
  cs_metadata_path s = path_join (cs_clients_dir s) "metadata.toml" ∧ cs_clients_dir s ∈ fs_dirs fs.

Lemma save_registry_ok a s fs fs' u :
  save_registry a s fs = (fs', Ok u) →
  ∃ content, toml_to_string_pretty (cs_registry s) = Ok content ∧
    fs' = set_file (cs_metadata_path s) (to_bytes content) fs.
Proof.
  unfold save_registry. destruct (toml_to_string_pretty _) as [content|]; [|done].
  destruct a as [|[l|]]; simpl; intros; simplify_eq. eauto.
Qed.

Lemma save_registry_dirs a s fs : fs_dirs (save_registry a s fs).1 = fs_dirs fs.
Proof. unfold save_registry. destruct (toml_to_string_pretty _); [|done]. by destruct a as [|[l|]]. Qed.

(** The three operations end with a save: when one returns [Ok], the registry it
    leaves in memory is the one it wrote. *)
Lemma cs_step_saved o fs s fs' s' :
  cs_step o (fs, s) = (fs', s', true) →
  cs_clients_dir s' = cs_clients_dir s ∧ cs_metadata_path s' = cs_metadata_path s ∧
  ∃ a fs0 u, fs_dirs fs0 = fs_dirs fs ∧ save_registry a s' fs0 = (fs', Ok u).
Proof.
  destruct o as [uuid now a1 a2 der name ip|rm a id|now a id ip]; simpl.
  - unfold add_client. destruct a1 as [|[l|]]; simpl; [|by intros [=]..].
    destruct (save_registry _ _ _) as [fs2 [u|]] eqn:E; simpl; intros; simplify_eq/=.
    split_and!; [done..|]. by exists a2, (set_file (cert_file s uuid) der fs), u.
  - unfold remove_client. case_bool_decide; [by intros [=]|].
    assert (fs_dirs ((if fs_exists (cert_file s id) fs then fs_remove_file rm (cert_file s id) fs
              else (fs, true)).1) = fs_dirs fs) as Hd.
    { unfold fs_remove_file. by destruct (fs_exists _ _), rm. }
    destruct (if fs_exists _ _ then _ else _) as [fs1 ok]. destruct ok; [|by intros [=]].
    destruct (save_registry _ _ _) as [fs2 [u|]] eqn:E; simpl; intros; simplify_eq/=.
    split_and!; [done..|]. by exists a, fs1, u.
  - unfold update_last_seen_with_ip. destruct (update_first _ _ _) as [cs|]; [|by intros [=]].
    destruct (save_registry _ _ _) as [fs2 [u|]] eqn:E; simpl; intros; simplify_eq/=.
    split_and!; [done..|]. by exists a, fs, u.
Qed.

Lemma saved_loads `{!TomlLaws ClientRegistry} a s fs0 fs' u mk :
  cs_metadata_path s = path_join (cs_clients_dir s) "metadata.toml" → save_registry a s fs0 = (fs', Ok u) →
  fs_exists (cs_clients_dir s) fs' = true → ClientStore_new mk true (cs_clients_dir s) fs' = (fs', Ok s).
Proof.
  intros Hp (content & Hc & ->)%save_registry_ok Hd. destruct (toml_roundtrip _ _ Hc) as [Hparse Hutf].
  unfold ClientStore_new. rewrite Hd, <-Hp, fs_exists_set_file. unfold load_registry.
  rewrite fs_read_to_string_set_file by done. simpl. rewrite Hparse. simpl. by destruct s.
Qed.

(** Persistence: when an operation of the store returns [Ok], a server restarted on the
    resulting file system loads exactly the store that was in memory. *)
Lemma restart_recovers_store `{!TomlLaws ClientRegistry} o fs s fs' s' mk :
  store_wf fs s → cs_step o (fs, s) = (fs', s', true) →
  ClientStore_new mk true (cs_clients_dir s') fs' = (fs', Ok s').
Proof.
  intros [Hp Hd] (Hdir & Hpath & a & fs0 & u & Hd0 & Hsave)%cs_step_saved.
  eapply saved_loads; [congruence|done|]. apply save_registry_ok in Hsave as (content & _ & ->).
  unfold fs_exists. cbn. rewrite (bool_decide_true (_ ∈ _)); [apply orb_true_r|]. by rewrite Hdir, Hd0.
Qed.

(** ** Footprint: an operation touches the metadata file and one certificate file. *)
Definition op_id (o : cs_op) : option string :=
  match o with OpAdd uuid _ _ _ _ _ _ => Some uuid | OpRemove _ _ id => Some id | OpTouch _ _ _ _ => None end.

Lemma save_registry_frame a s fs q : q ≠ cs_metadata_path s →
  fs_files (save_registry a s fs).1 !! q = fs_files fs !! q ∧ fs_dirs (save_registry a s fs).1 = fs_dirs fs.
Proof.
  intros Hq. unfold save_registry. destruct (toml_to_string_pretty _); [|done]. destruct a as [|[l|]]; cbn; by rewrite ?lookup_insert_ne by done.
Qed.
Lemma cs_step_frame o fs s fs' s' ok q :
  cs_step o (fs, s) = (fs', s', ok) → q ≠ cs_metadata_path s → (∀ id, op_id o = Some id → q ≠ cert_file s id) →
  fs_files fs' !! q = fs_files fs !! q ∧ fs_dirs fs' = fs_dirs fs.
Proof.
  intros E Hm Hc. destruct o as [uuid now a1 a2 der name ip|rm a id|now a id ip]; cbn in E.
  - specialize (Hc uuid eq_refl). unfold add_client in E.
    destruct a1 as [|[l|]]; cbn in E; [|injection E as <- <- <-; cbn; by rewrite lookup_insert_ne|by injection E as <- <- <-].
    match type of E with context [save_registry a2 ?s2 ?f2] =>
      destruct (save_registry_frame a2 s2 f2 q Hm) as [Hf Hd]; destruct (save_registry a2 s2 f2) as [fs2 r] end.
    injection E as <- <- <-. cbn in *. by rewrite Hf, Hd, lookup_insert_ne.
  - specialize (Hc id eq_refl). unfold remove_client in E. case_bool_decide; [by injection E as <- <- <-|].
    assert (∃ fs1 b, (if fs_exists (cert_file s id) fs then fs_remove_file rm (cert_file s id) fs else (fs, true)) = (fs1, b) ∧
      fs_files fs1 !! q = fs_files fs !! q ∧ fs_dirs fs1 = fs_dirs fs) as (fs1 & b & Er & Hf & Hd).
    { destruct (fs_exists _ fs); [unfold fs_remove_file; destruct rm|]; do 2 eexists; (split; [reflexivity|]); cbn; by rewrite ?lookup_delete_ne by done. }
    rewrite Er in E. destruct b; [|by injection E as <- <- <-].
    match type of E with context [save_registry a ?s2 ?f2] =>
      destruct (save_registry_frame a s2 f2 q Hm) as [Hf' Hd']; destruct (save_registry a s2 f2) as [fs2 r] end.
    injection E as <- <- <-. cbn in *. by rewrite Hf', Hd'.
  - unfold update_last_seen_with_ip in E. destruct (update_first _ _ _); [|by injection E as <- <- <-].
    match type of E with context [save_registry a ?s2 ?f2] =>
      destruct (save_registry_frame a s2 f2 q Hm) as [Hf' Hd']; destruct (save_registry a s2 f2) as [fs2 r] end.
    by injection E as <- <- <-.
Qed.
Lemma cs_step_paths o fs s fs' s' ok : cs_step o (fs, s) = (fs', s', ok) →
  cs_clients_dir s' = cs_clients_dir s ∧ cs_metadata_path s' = cs_metadata_path s.
Proof.
  destruct o as [uuid now a1 a2 der name ip|rm a id|now a id ip]; cbn;
    [unfold add_client|unfold remove_client|unfold update_last_seen_with_ip]; repeat case_match; intros; by simplify_eq/=.
Qed.

(** ** Connection history *)
(** The unbounded log: an address is appended when it differs from the last. *)
Definition log_push (log : list IpConnection) (e : Z * option IpAddr) : list IpConnection :=
  match e.2 with
  | None => log
  | Some ip => if decide (ic_ip_address <$> last log = Some (ip_to_string ip)) then log
               else log ++ [mkIpConnection (ip_to_string ip) e.1]
  end.

Lemma last_lastn {A} n (l : list A) : (0 < n)%nat → last (lastn n l) = last l.
Proof.
  intros Hn. destruct l as [|x l _] using rev_ind; [done|].
  rewrite lastn_app_r by (simpl; lia). by rewrite !last_snoc.
Qed.

Lemma push_ip_log now ip log :
  push_ip now ip (lastn MAX_IP_HISTORY log) = lastn MAX_IP_HISTORY (log_push log (now, ip)).
Proof.
  unfold push_ip, log_push. destruct ip as [ip|]; [|done]. cbn [fst snd].
  rewrite last_lastn by (unfold MAX_IP_HISTORY; lia).
  assert (match last log with Some l => bool_decide (ic_ip_address l ≠ ip_to_string ip) | None => true end
    = bool_decide (ic_ip_address <$> last log ≠ Some (ip_to_string ip))) as ->.
  { destruct (last log); simpl; [apply bool_decide_ext; split; congruence|done]. }
  destruct (decide (ic_ip_address <$> last log = Some (ip_to_string ip))) as [E|E].
  { by rewrite bool_decide_false by auto. }
  rewrite bool_decide_true by done. rewrite lastn_push. cbv zeta.
  rewrite length_app, length_lastn. cbn [length].
  case_bool_decide; case_decide; try (done || lia).
  rewrite <-(drop_0 (lastn _ _ ++ _)) at 2. rewrite tail_drop. f_equal. lia.
Qed.

Lemma find_cons {A} (P : A → Prop) `{!∀ x, Decision (P x)} x l :
  snd <$> list_find P (x :: l) = if decide (P x) then Some x else snd <$> list_find P l.
Proof. simpl. case_decide; [done|]. by destruct (list_find P l) as [[i y]|]. Qed.

Lemma get_client_app id cs cs' s :
  get_client id (with_clients (cs ++ cs') s) =
    match get_client id (with_clients cs s) with
    | Some c => Some c
    | None => get_client id (with_clients cs' s)
    end.
Proof.
  unfold get_client; simpl. induction cs as [|c cs IH]; [done|].
  rewrite <-app_comm_cons, !find_cons. by case_decide.
Qed.

Lemma get_client_remove_other id id' s :
  id ≠ id' →
  get_client id (with_clients (filter (λ c, cm_id c ≠ id') (cr_client (cs_registry s))) s) = get_client id s.
Proof.
  intros Hne. unfold get_client; simpl. induction (cr_client (cs_registry s)) as [|c cs IH]; [done|].
  rewrite filter_cons, find_cons. case_decide; [rewrite find_cons|]; case_decide; try done. congruence.
Qed.

Lemma get_client_update id id' now ip cs s :
  update_first (λ c, bool_decide (cm_id c = id')) (touch now ip) (cr_client (cs_registry s)) = Some cs →
  get_client id (with_clients cs s) =
    if decide (id = id') then touch now ip <$> get_client id s else get_client id s.
Proof.
  unfold get_client; simpl. revert cs.
  induction (cr_client (cs_registry s)) as [|c l IH]; intros cs Hu; simpl in Hu; [done|].
  rewrite (find_cons _ c). destruct (bool_decide_reflect (cm_id c = id')) as [Hc|Hc].
  - simplify_eq. rewrite find_cons. simpl. destruct (decide (id = cm_id c)) as [->|]; [by rewrite !decide_True|].
    by rewrite !decide_False by congruence.
  - destruct (update_first _ _ l) as [l1|]; [|done]. injection Hu as <-. rewrite find_cons, (IH l1) by done.
    destruct (decide (id = id')); case_decide; try done. congruence.
Qed.

Lemma update_first_None {A} (p : A → bool) f l x : update_first p f l = None → x ∈ l → p x = false.
Proof.
  induction l as [|y l IH]; simpl; [by intros _ ?%elem_of_nil|].
  destruct (p y) eqn:E; [done|]. destruct (update_first p f l); [done|].
  intros _ [->|]%elem_of_cons; auto.
Qed.

Definition adds (id : string) (o : cs_op) : Prop :=
  match o with OpAdd uuid _ _ _ _ _ _ => uuid = id | _ => False end.

(** The accesses of client [id] in a sequence of operations. *)
Definition touches (id : string) (o : cs_op) : option (Z * option IpAddr) :=
  match o with OpTouch now _ id' ip => if decide (id' = id) then Some (now, ip) else None | _ => None end.

Lemma cs_step_get_client id o fs s c :
  ¬ adds id o → ¬ removes id o → get_client id s = Some c →
  get_client id (cs_step o (fs, s)).1.2 =
    Some match touches id o with Some (now, ip) => touch now ip c | None => c end.
Proof.
  intros Ha Hr Hg. destruct o as [uuid now a1 a2 der name ip|rm a id'|now a id' ip]; simpl in *.
  - unfold add_client, fs_write. destruct a1 as [|[l|]]; simpl; [|done..].
    destruct (save_registry _ _ _) as [fs' r]; simpl. rewrite get_client_app.
    change (get_client id (with_clients (cr_client (cs_registry s)) s)) with (get_client id s). by rewrite Hg.
  - pose proof (remove_client_store rm a id' fs s) as E.
    destruct (remove_client _ _ _ _ _) as [[fs' s'] r]; simpl in *. subst s'.
    by rewrite get_client_remove_other.
  - unfold update_last_seen_with_ip. destruct (update_first _ _ _) as [cs|] eqn:E; simpl.
    + destruct (save_registry _ _ _) as [fs' r]; simpl. erewrite get_client_update by done. rewrite Hg.
      destruct (decide (id = id')) as [->|]; [by rewrite decide_True|by rewrite decide_False].
    + destruct (decide (id' = id)) as [->|]; [|done]. exfalso. unfold get_client in Hg.
      destruct (list_find _ _) as [[i c']|] eqn:El; simplify_eq/=. apply list_find_Some in El as (El & Hc & _).
      eapply update_first_None in E; [|by eapply list_elem_of_lookup_2]. by apply bool_decide_eq_false in E.
Qed.

Lemma cs_run_history id os st c log :
  Forall (λ o, ¬ adds id o ∧ ¬ removes id o) os →
  get_client id st.2 = Some c → cm_ip_history c = lastn MAX_IP_HISTORY log →
  ∃ c', get_client id (cs_run os st).2 = Some c' ∧ cm_cert_fingerprint c' = cm_cert_fingerprint c ∧
    cm_ip_history c' = lastn MAX_IP_HISTORY (foldl log_push log (omap (touches id) os)).
Proof.
  revert st c log. induction os as [|o os IH]; intros [fs s] c log Hos Hg Hl; [by eauto|].
  apply Forall_cons in Hos as [[Ha Hr] Hos]. simpl in Hg. apply (cs_step_get_client id o fs) in Hg; [|done..].
  simpl. destruct (touches id o) as [[now ip]|].
  - eapply (IH (cs_step o (fs, s)).1) in Hg as (c' & ? & ? & ?); [by eauto|done|]. simpl. rewrite Hl. apply push_ip_log.
  - by eapply (IH (cs_step o (fs, s)).1) in Hg.
Qed.

(** A client's connection history is, after any run of operations (failed
    saves included), the last hundred entries of the log of its accesses in
    which an address equal to the preceding one is not repeated; and its
    fingerprint never changes. *)
Lemma ip_history_is_bounded_log uuid now a2 der name ip os fs s :
  get_client uuid s = None →
  Forall (λ o, ¬ adds uuid o ∧ ¬ removes uuid o) os →
  ∃ c, get_client uuid (cs_run (OpAdd uuid now WOk a2 der name ip :: os) (fs, s)).2 = Some c ∧
    cm_cert_fingerprint c = fp_of der ∧
    cm_ip_history c = lastn MAX_IP_HISTORY (foldl log_push [] ((now, ip) :: omap (touches uuid) os)).
Proof.
  intros Hn Hos.
  apply (cs_run_history uuid os (cs_step (OpAdd uuid now WOk a2 der name ip) (fs, s)).1
    (mkClientMetadata uuid name (fp_of der) now now
       match ip with Some ip => [mkIpConnection (ip_to_string ip) now] | None => [] end)
    (log_push [] (now, ip))); [done| |].
  - simpl. unfold add_client; simpl. destruct (save_registry _ _ _) as [fs' r]; simpl.
    rewrite get_client_app. change (get_client uuid (with_clients (cr_client (cs_registry s)) s)) with (get_client uuid s).
    rewrite Hn. unfold get_client; simpl. by rewrite decide_True.
  - by destruct ip.
Qed.
End store.

(** ** A concrete store *)
#[export] Instance IpConnection_countable : Countable IpConnection :=
  inj_countable' (λ c, (ic_ip_address c, ic_connected_at c)) (λ '(a, t), mkIpConnection a t) ltac:(by intros []).
#[export] Instance ClientMetadata_countable : Countable ClientMetadata :=
  inj_countable'
    (λ c, (cm_id c, cm_name c, cm_cert_fingerprint c, cm_enrolled_at c, cm_last_seen c, cm_ip_history c))
    (λ '(a, b, c, d, e, h), mkClientMetadata a b c d e h) ltac:(by intros []).
#[export] Instance ClientRegistry_eq_dec : EqDecision ClientRegistry.
Proof. solve_decision. Defined.
#[export] Instance ClientRegistry_countable : Countable ClientRegistry :=
  inj_countable' cr_client mkClientRegistry ltac:(by intros []).

#[local] Existing Instances demo_sha256 demo_hex.
#[local] Instance registry_codec : TomlCodec ClientRegistry := countable_toml ClientRegistry.
#[local] Instance registry_codec_laws : TomlLaws ClientRegistry := countable_toml_laws ClientRegistry.

Definition demo_fs : FileSystem := mkFs ∅ {["clients"%string]}.
Definition demo_store : ClientStore := mkClientStore "clients" "clients/metadata.toml" ClientRegistry_default.
Definition demo_add (uuid : string) (b : byte) : cs_op := OpAdd uuid 10 WOk WOk [b] "Pixel" None.

Lemma authorized_iff_enrolled_witness :
  is_authorized (fp_of [x01]) (cs_run [demo_add "a" x01; OpTouch 20 WOk "a" None; OpRemove true WOk "b"]
                                (demo_fs, demo_store)).2 = true.
Proof.
  apply (authorized_iff_enrolled (fp_of [x01])); [reflexivity|].
  exists "a"%string, [], 10, WOk, [x01], "Pixel"%string, None, [OpTouch 20 WOk "a" None; OpRemove true WOk "b"].
  split_and!; [reflexivity..|]. repeat constructor; simpl; [tauto|discriminate].
Defined.

Lemma restart_recovers_store_witness :
  ∃ fs' s', cs_step (demo_add "a" x01) (demo_fs, demo_store) = (fs', s', true) ∧
    ClientStore_new true true (cs_clients_dir s') fs' = (fs', Ok s').
Proof.
  eexists _, _. split; [reflexivity|].
  apply (restart_recovers_store (demo_add "a" x01) demo_fs demo_store); [|reflexivity].
  split; [reflexivity|]. vm_compute; reflexivity.
Defined.

Lemma ip_history_is_bounded_log_witness :
  ∃ c, get_client "a" (cs_run (demo_add "a" x01 :: replicate 3 (OpTouch 20 WOk "a" (Some (V4 (mkIpv4 10 0 0 1)))))
                        (demo_fs, demo_store)).2 = Some c ∧
    cm_cert_fingerprint c = fp_of [x01] ∧ cm_ip_history c = [mkIpConnection "10.0.0.1" 20].
Proof.
  apply (ip_history_is_bounded_log "a" 10 WOk [x01] "Pixel" None
    (replicate 3 (OpTouch 20 WOk "a" (Some (V4 (mkIpv4 10 0 0 1))))) demo_fs demo_store); [reflexivity|].
  repeat constructor; simpl; tauto.
Defined.
