(* ===== verification/Approve.v ===== *)
(** * Approving a pairing request (server/src/cli/approve.rs)

    The pairing manager is shared with the request handlers and unlocked between
    its calls, so the operations of other threads that run between the look-up
    and the approval are an argument. *)

From S2P Require Import Prelude RustStd ThirdParty Net Fs Certificates Pairing ClientStore.

Open Scope Z_scope.

Record approve_input := mkApproveInput {
  ai_now_get : Z;         (* clock in [get_request] *)
  ai_now_pending : Z;     (* clock in [is_pending] *)
  ai_uuid : string;
  ai_now_add : Z;         (* clock in [add_client] *)
  ai_write_cert : write_answer;
  ai_write_meta : write_answer;
  ai_between : list pm_op; (* other threads, before [approve_request] *)
  ai_now_approve : Z;     (* clock in [approve_request] *)
}.

Section approve.
Context `{Sha256, HexEncode, !TomlCodec ClientRegistry}.

Definition approve_pairing_request (i : approve_input) (request_id : string)
    (pm : PairingRequestManager) (fs : FileSystem) (cs : ClientStore)
    : PairingRequestManager * FileSystem * ClientStore * result string string :=
  let '(pm1, found) := get_request (ai_now_get i) request_id pm in
  match found with
  | None => (pm1, fs, cs, Err "Pairing request not found"%string)
  | Some request =>
      if negb (pairing_is_pending (ai_now_pending i) request) then
        (pm1, fs, cs, Err "Pairing request is not pending"%string)
      else
        let client_cert := ClientCertificate_from_der (pr_client_certificate request) in
        let '(fs', cs', added) := add_client (ai_uuid i) (ai_now_add i) (ai_write_cert i) (ai_write_meta i)
                                    client_cert (pr_device_name request) (pr_ip_address request) fs cs in
        let pm2 := pm_run (ai_between i) pm1 in
        match added with
        | Err e => (pm2, fs', cs', Err e)
        | Ok client_id =>
            let '(pm3, r) := approve_request (ai_now_approve i) request_id client_id pm2 in
            (pm3, fs', cs', r ≫= λ _, Ok client_id)
        end
  end.

Definition reject_pairing_request (request_id : string) (pm : PairingRequestManager)
    : PairingRequestManager * result string unit :=
  reject_request request_id pm.

(** The lines [handle_manual_approval] prints. *)
Definition handle_manual_approval (now : Z) (pm : PairingRequestManager) : list string :=
  let n := pending_count now pm in
  if bool_decide (n = 0%nat) then ["No pending pairing requests."%string]
  else [String.append (String.append "Found " (pretty n)) " pending pairing request(s)";
        "This is a simplified approval interface for testing.";
        "In production, this would be handled via OS notifications.";
        "To approve a pairing request, use the API or wait for notification integration."]%string.

Lemma add_client_ok uuid now a1 a2 cert name ip fs s fs' s' id :
  add_client uuid now a1 a2 cert name ip fs s = (fs', s', Ok id) → id = uuid ∧ a1 = WOk ∧ a2 = WOk.
Proof.
  unfold add_client, save_registry. destruct a1 as [|[l|]]; simpl; [|by intros [=]..].
  destruct (toml_to_string_pretty _); simpl; [|by intros [=]].
  by destruct a2 as [|[l|]]; simpl; intros; simplify_eq/=.
Qed.

Lemma approve_request_ok now id cid pm pm' :
  approve_request now id cid pm = (pm', Ok tt) →
  ∃ r, pm_requests pm !! id = Some r ∧ pr_status r = Pending ∧ now <= pr_expires_at r ∧
    pm_requests pm' !! id = Some (set_approved cid r).
Proof.
  unfold approve_request. destruct (pm_requests pm !! id) as [r|]; [|done].
  unfold pairing_is_expired. destruct (Z.ltb_spec (pr_expires_at r) now); [done|].
  case_bool_decide; simpl; intros; simplify_eq/=. exists r. by rewrite lookup_insert_eq.
Qed.

(** A successful approval does what it says, whatever other threads do
    meanwhile: the request had been pending with its deadline not passed, it is
    now approved and bound to the returned client id, and the certificate of the
    request is authorized in the client store. *)
Lemma approve_pairing_request_ok i id pm fs cs pm' fs' cs' cid :
  approve_pairing_request i id pm fs cs = (pm', fs', cs', Ok cid) →
  ∃ r r', pm_requests pm !! id = Some r ∧ pairing_is_pending (ai_now_pending i) r = true ∧
    is_authorized (fp_of (pr_client_certificate r)) cs' = true ∧
    (∃ c, c ∈ list_clients cs' ∧ cm_id c = cid ∧ cm_name c = pr_device_name r ∧
       cm_cert_fingerprint c = fp_of (pr_client_certificate r)) ∧
    pm_requests pm' !! id = Some r' ∧ pr_status r' = Approved ∧ pr_client_id r' = Some cid.
Proof.
  unfold approve_pairing_request.
  destruct (get_request (ai_now_get i) id pm) as [pm1 found] eqn:Eg. destruct found as [r|]; [|done].
  destruct (pairing_is_pending (ai_now_pending i) r) eqn:Ep; simpl; [|done].
  destruct (add_client _ _ _ _ _ _ _ _ _) as [[fs1 cs1] [cid1|]] eqn:Ea; [|done].
  destruct (approve_request _ _ _ _) as [pm3 [[]|]] eqn:Er; simpl; intros; simplify_eq.
  exists r. apply approve_request_ok in Er as (r0 & _ & _ & _ & Hr'). exists (set_approved cid r0).
  assert (pm_requests pm !! id = Some r) as Hr.
  { unfold get_request in Eg. injection Eg as _ Eg. destruct (pm_requests pm !! id) as [r1|] eqn:E1; [|congruence].
    destruct (pairing_is_expired _ r1); [|congruence]. rewrite lookup_alter_eq, E1 in Eg. simplify_eq/=. }
  destruct (add_client_ok _ _ _ _ _ _ _ _ _ _ _ _ Ea) as (-> & E1 & E2). rewrite E1, E2 in Ea.
  pose proof (add_client_authorizes (ai_uuid i) (ai_now_add i) WOk (pr_client_certificate r)
    (pr_device_name r) (pr_ip_address r) fs cs) as Hk. rewrite Ea in Hk.
  assert (∃ c, c ∈ list_clients cs' ∧ cm_id c = ai_uuid i ∧ cm_name c = pr_device_name r ∧
       cm_cert_fingerprint c = fp_of (pr_client_certificate r)) as Hc.
  { unfold add_client in Ea; simpl in Ea. destruct (save_registry _ _ _); simplify_eq/=.
    eexists. split; [unfold list_clients; simpl; apply elem_of_app; right; by apply list_elem_of_singleton|done]. }
  by split_and!.
Qed.

Lemma reject_then_approve_fails now id cid r pm :
  pm_requests pm !! id = Some r → pr_status r = Pending → now <= pr_expires_at r →
  (approve_request now id cid (pm_step (OpReject id) pm)).2 = Err "Pairing request is not pending"%string.
Proof.
  intros Hr Hp Hn. simpl. unfold reject_request. rewrite Hr, bool_decide_true by done. simpl.
  unfold approve_request. simpl. rewrite lookup_insert_eq. unfold pairing_is_expired. simpl.
  by destruct (Z.ltb_spec (pr_expires_at r) now); [lia|].
Qed.

(** The approval is not atomic: when the owner's rejection lands between the
    look-up and [approve_request], the caller is told the approval failed, yet
    the rejected device's certificate stays authorized. *)
Lemma rejected_during_approval_is_authorized i id r pm fs cs :
  pm_requests pm !! id = Some r → pr_status r = Pending →
  ai_now_get i <= pr_expires_at r → ai_now_pending i <= pr_expires_at r → ai_now_approve i <= pr_expires_at r →
  ai_write_cert i = WOk → ai_between i = [OpReject id] →
  let '(pm', fs', cs', res) := approve_pairing_request i id pm fs cs in
  is_ok res = false ∧ is_authorized (fp_of (pr_client_certificate r)) cs' = true.
Proof.
  intros Hr Hp H1 H2 H3 Hw1 Hb.
  assert (get_request (ai_now_get i) id pm = (pm, Some r)) as Hg.
  { unfold get_request, pairing_is_expired. rewrite Hr. destruct (Z.ltb_spec (pr_expires_at r) (ai_now_get i)); [lia|].
    rewrite Hr. by destruct pm. }
  assert (pairing_is_pending (ai_now_pending i) r = true) as Hpend.
  { unfold pairing_is_pending, pairing_is_expired. rewrite bool_decide_true by done.
    by destruct (Z.ltb_spec (pr_expires_at r) (ai_now_pending i)); [lia|]. }
  unfold approve_pairing_request. rewrite Hg, Hpend, Hw1, Hb. cbn [negb].
  pose proof (add_client_authorizes (ai_uuid i) (ai_now_add i) (ai_write_meta i) (pr_client_certificate r)
    (pr_device_name r) (pr_ip_address r) fs cs) as Hauth.
  destruct (add_client _ _ _ _ _ _ _ _ _) as [[fs1 cs1] added].
  destruct added as [cid|e]; [|done].
  pose proof (reject_then_approve_fails (ai_now_approve i) id cid r pm Hr Hp H3) as Hf.
  cbn [pm_run foldl]. destruct (approve_request _ _ _ _) as [pm3 rr]. simpl in Hf. by subst rr.
Qed.
End approve.

#[local] Existing Instances demo_sha256 demo_hex.
#[local] Instance registry_codec : TomlCodec ClientRegistry := countable_toml ClientRegistry.

Definition demo_approve (between : list pm_op) : approve_input :=
  mkApproveInput 1 2 "c1" 3 WOk WOk between 4.

Lemma rejected_during_approval_is_authorized_witness :
  let '(pm', fs', cs', res) :=
    approve_pairing_request (demo_approve [OpReject "r1"]) "r1" demo_pending demo_fs demo_store in
  is_ok res = false ∧ is_authorized (fp_of []) cs' = true.
Proof.
  apply (rejected_during_approval_is_authorized (demo_approve [OpReject "r1"]) "r1"
    (set_status Pending (mkPairingRequest "r1" "Pixel" None [] "123-456" 0 (60 * NANOS) Pending None None)));
    try reflexivity; vm_compute; discriminate.
Defined.
