(* ===== verification/SessionState.v ===== *)
(** * The state of one session (server/src/sessions/mod.rs, sessions/state.rs)

    Sequence numbers are [u64] and wrap as the release build does.  A UUID is its
    128-bit number; where the code prints one, the text is an input. *)

From S2P Require Import Prelude RustStd ThirdParty.

Open Scope Z_scope.

Abbreviation Uuid := N.

(** ** Events ([sessions/mod.rs]) *)
Inductive SessionClientEvent :=
  | CInput (data : bytes) (binary : bool)
  | CResize (cols rows : Z)
  | CHeartbeat (timestamp_ms : Z)
  | CClose (reason : option string)
  | CResume (resume_token : string) (last_stdout_sequence last_stderr_sequence : option Z).

Inductive SessionServerEvent :=
  | SReady (message : option string)
  | SOutput (data : bytes) (stderr binary : bool) (timestamp_ms : option Z)
  | SExit (exit_code : Z) (timed_out : bool) (message : option string)
  | SError (message : string) (code : option Z)
  | SHeartbeatAck (timestamp_ms : Z) (latency_hint_ms : option Z)
  | SClosed (reason : option string).

#[export] Instance SessionServerEvent_eq_dec : EqDecision SessionServerEvent.
Proof. solve_decision. Defined.

(** ** State ([sessions/state.rs]) *)
Inductive OutputStream := Stdout | Stderr.
#[export] Instance OutputStream_eq_dec : EqDecision OutputStream.
Proof. solve_decision. Defined.

Definition from_stderr_flag (stderr : bool) : OutputStream := if stderr then Stderr else Stdout.

Record BufferedOutput := mkBufferedOutput {
  bo_stream : OutputStream;
  bo_sequence : Z;
  bo_data : bytes;
  bo_binary : bool;
  bo_timestamp_ms : option Z;
}.
#[export] Instance BufferedOutput_eq_dec : EqDecision BufferedOutput.
Proof. solve_decision. Defined.

Record AttachmentState := mkAttachmentState {
  at_attachment_id : Uuid;
  at_client_fingerprint : option string;
  at_attached_at : Z;
  at_last_heartbeat : option Z;
}.

Inductive SessionStateError := StAlreadyAttached | StNotAttached.

Record SessionState := mkSessionState {
  ss_resume_token : string;
  ss_stdout_next_sequence : Z;
  ss_stderr_next_sequence : Z;
  ss_buffer_capacity : nat;
  ss_output_buffer : list BufferedOutput;
  ss_attachment : option AttachmentState;
  ss_created_at : Z;
  ss_last_activity : Z;
  ss_last_detached_at : option Z;
}.

Record SessionStateSnapshot := mkSessionStateSnapshot {
  sn_resume_token : string;
  sn_stdout_next_sequence : Z;
  sn_stderr_next_sequence : Z;
  sn_buffer_len : nat;
  sn_attachment : option AttachmentState;
  sn_created_at : Z;
  sn_last_activity : Z;
  sn_last_detached_at : option Z;
}.

Definition SessionState_new (now : Z) (token : string) (buffer_capacity : nat) : SessionState :=
  mkSessionState token 1 1 buffer_capacity [] None now now None.

Definition set_token (t : string) (s : SessionState) : SessionState :=
  mkSessionState t (ss_stdout_next_sequence s) (ss_stderr_next_sequence s) (ss_buffer_capacity s)
    (ss_output_buffer s) (ss_attachment s) (ss_created_at s) (ss_last_activity s) (ss_last_detached_at s).

Definition rotate_resume_token (uuid : string) (s : SessionState) : SessionState * string :=
  (set_token uuid s, uuid).

Definition validate_resume_token (token : string) (s : SessionState) : bool :=
  bool_decide (ss_resume_token s = token).

Definition state_snapshot (s : SessionState) : SessionStateSnapshot :=
  mkSessionStateSnapshot (ss_resume_token s) (ss_stdout_next_sequence s) (ss_stderr_next_sequence s)
    (length (ss_output_buffer s)) (ss_attachment s) (ss_created_at s) (ss_last_activity s)
    (ss_last_detached_at s).

Definition set_attachment (a : option AttachmentState) (activity : Z) (detached : option Z) (s : SessionState)
    : SessionState :=
  mkSessionState (ss_resume_token s) (ss_stdout_next_sequence s) (ss_stderr_next_sequence s)
    (ss_buffer_capacity s) (ss_output_buffer s) a (ss_created_at s) activity detached.

Definition try_attach (uuid : Uuid) (now : Z) (client_fingerprint : option string) (s : SessionState)
    : SessionState * result SessionStateError AttachmentState :=
  match ss_attachment s with
  | Some _ => (s, Err StAlreadyAttached)
  | None =>
      let attachment := mkAttachmentState uuid client_fingerprint now None in
      (set_attachment (Some attachment) now (ss_last_detached_at s) s, Ok attachment)
  end.

Definition try_detach (now : Z) (s : SessionState) : SessionState * result SessionStateError AttachmentState :=
  match ss_attachment s with
  | Some attachment => (set_attachment None now (Some now) s, Ok attachment)
  | None => (s, Err StNotAttached)
  end.

Definition touch_heartbeat (now : Z) (s : SessionState) : SessionState * result SessionStateError unit :=
  match ss_attachment s with
  | Some a =>
      let a' := mkAttachmentState (at_attachment_id a) (at_client_fingerprint a) (at_attached_at a) (Some now) in
      (set_attachment (Some a') now (ss_last_detached_at s) s, Ok tt)
  | None => (s, Err StNotAttached)
  end.

(** The counters of the two streams, [u64] with wrap-around. *)
Definition next_sequence (stream : OutputStream) (s : SessionState) : Z :=
  match stream with Stdout => ss_stdout_next_sequence s | Stderr => ss_stderr_next_sequence s end.

Definition record_output (now : Z) (stream : OutputStream) (data : bytes) (binary : bool)
    (timestamp_ms : option Z) (s : SessionState) : SessionState * BufferedOutput :=
  let sequence := next_sequence stream s in
  let bump := wrap_u 64 (sequence + 1) in
  let frame := mkBufferedOutput stream sequence data binary timestamp_ms in
  let pushed := ss_output_buffer s ++ [frame] in
  let buffer := if bool_decide (ss_buffer_capacity s < length pushed)%nat then tail pushed else pushed in
  (mkSessionState (ss_resume_token s)
     (match stream with Stdout => bump | Stderr => ss_stdout_next_sequence s end)
     (match stream with Stdout => ss_stderr_next_sequence s | Stderr => bump end)
     (ss_buffer_capacity s) buffer (ss_attachment s) (ss_created_at s) now (ss_last_detached_at s),
   frame).

Definition newer_than (last_stdout_sequence last_stderr_sequence : option Z) (f : BufferedOutput) : bool :=
  match match bo_stream f with Stdout => last_stdout_sequence | Stderr => last_stderr_sequence end with
  | Some seq => seq <? bo_sequence f
  | None => true
  end.

Definition outputs_since (last_stdout_sequence last_stderr_sequence : option Z) (s : SessionState)
    : list BufferedOutput :=
  filter (λ f, newer_than last_stdout_sequence last_stderr_sequence f = true) (ss_output_buffer s).

(** ** Runs *)
Inductive ss_op :=
  | SsAttach (uuid : Uuid) (now : Z) (fingerprint : option string)
  | SsDetach (now : Z)
  | SsHeartbeat (now : Z)
  | SsRotate (uuid : string)
  | SsRecord (now : Z) (stream : OutputStream) (data : bytes) (binary : bool) (timestamp_ms : option Z).

Definition ss_step (s : SessionState) (o : ss_op) : SessionState :=
  match o with
  | SsAttach uuid now fp => (try_attach uuid now fp s).1
  | SsDetach now => (try_detach now s).1
  | SsHeartbeat now => (touch_heartbeat now s).1
  | SsRotate uuid => (rotate_resume_token uuid s).1
  | SsRecord now st data bin ts => (record_output now st data bin ts s).1
  end.

Definition ss_run (os : list ss_op) (s : SessionState) : SessionState := foldl ss_step s os.

(** ** Specification: the log of everything the session printed

    Frame number [k] of a stream carries the number [k], counted from 1. *)
Definition count_of (st : OutputStream) (log : list BufferedOutput) : nat :=
  length (filter (λ f, bo_stream f = st) log).

Definition log_step (log : list BufferedOutput) (o : ss_op) : list BufferedOutput :=
  match o with
  | SsRecord _ st data bin ts =>
      log ++ [mkBufferedOutput st (Z.of_nat (count_of st log) + 1) data bin ts]
  | _ => log
  end.
Definition log_of (os : list ss_op) : list BufferedOutput := foldl log_step [] os.

(** The number of the last frame of a stream, as a client that has seen [log]
    reports it. *)
Definition last_seen (st : OutputStream) (log : list BufferedOutput) : option Z :=
  bo_sequence <$> last (filter (λ f, bo_stream f = st) log).

Definition abstracts (log : list BufferedOutput) (s : SessionState) : Prop :=
  ss_output_buffer s = lastn (ss_buffer_capacity s) log ∧
  ∀ st, next_sequence st s = Z.of_nat (count_of st log) + 1.

(** A log is numbered when every frame carries its position in its stream. *)
Inductive numbered : list BufferedOutput → Prop :=
  | numbered_nil : numbered []
  | numbered_snoc log f :
      numbered log → bo_sequence f = Z.of_nat (count_of (bo_stream f) log) + 1 → numbered (log ++ [f]).

Lemma count_of_snoc st log f :
  count_of st (log ++ [f]) = (count_of st log + if decide (bo_stream f = st) then 1 else 0)%nat.
Proof.
  unfold count_of. rewrite filter_app, length_app, filter_cons, filter_nil. by case_decide.
Qed.

Lemma count_of_le st log : (count_of st log ≤ length log)%nat.
Proof. apply length_filter. Qed.

Lemma count_of_app st p q : count_of st (p ++ q) = (count_of st p + count_of st q)%nat.
Proof. unfold count_of. by rewrite filter_app, length_app. Qed.

Lemma log_of_snoc os o : log_of (os ++ [o]) = log_step (log_of os) o.
Proof. unfold log_of. by rewrite foldl_app. Qed.

Lemma log_of_numbered os : numbered (log_of os).
Proof.
  induction os as [|o os IH] using rev_ind; [constructor|].
  rewrite log_of_snoc. destruct o; try done. by constructor.
Qed.

Lemma record_output_abstracts now st data bin ts log s :
  abstracts log s → Z.of_nat (length log) + 2 < 2 ^ 64 →
  let '(s', f) := record_output now st data bin ts s in
  f = mkBufferedOutput st (Z.of_nat (count_of st log) + 1) data bin ts ∧ abstracts (log ++ [f]) s'.
Proof.
  intros [Hb Hn] Hlen. cbn -[wrap_u lastn tail]. rewrite Hn. split; [done|]. split.
  - cbn -[wrap_u lastn tail]. rewrite Hb, lastn_push. cbv zeta. case_bool_decide; by case_decide.
  - intros st'. pose proof (count_of_le st log). rewrite count_of_snoc. cbn [bo_stream].
    destruct (decide (st = st')) as [<-|Hne].
    + transitivity (wrap_u 64 (Z.of_nat (count_of st log) + 1 + 1)); [by destruct st|].
      rewrite wrap_u_small; lia.
    + rewrite Nat.add_0_r, <-(Hn st'). by destruct st, st'.
Qed.

Lemma ss_run_abstracts os now token cap :
  Z.of_nat (length (log_of os)) + 1 < 2 ^ 64 →
  abstracts (log_of os) (ss_run os (SessionState_new now token cap)) ∧
  ss_buffer_capacity (ss_run os (SessionState_new now token cap)) = cap.
Proof.
  induction os as [|o os IH] using rev_ind; intros Hlen.
  { split; [split; [done|by intros []]|done]. }
  rewrite log_of_snoc in *. unfold ss_run in *. rewrite foldl_app. cbn [foldl].
  set (s := foldl ss_step _ os) in *.
  assert (Z.of_nat (length (log_of os)) + 1 < 2 ^ 64) as Hlen'.
  { destruct o; simpl in Hlen; rewrite ?length_app in Hlen; simpl in Hlen; lia. }
  destruct (IH Hlen') as [[Hb Hn] Hcap]. destruct o as [uuid ? fp| | |uuid|now' st data bin ts]; cbn [ss_step log_step].
  - unfold try_attach. by destruct (ss_attachment s).
  - unfold try_detach. by destruct (ss_attachment s).
  - unfold touch_heartbeat. by destruct (ss_attachment s).
  - done.
  - cbn [log_step] in Hlen. rewrite length_app in Hlen. cbn [length] in Hlen.
    pose proof (record_output_abstracts now' st data bin ts _ s (conj Hb Hn) ltac:(lia)) as Hr.
    destruct (record_output now' st data bin ts s) as [s' f] eqn:E. destruct Hr as [-> Hr].
    split; [done|]. unfold record_output in E. by simplify_eq.
Qed.

(** ** Replay *)
Lemma numbered_app_inv p q : numbered (p ++ q) → numbered p.
Proof.
  induction q as [|f q IH] using rev_ind; [by rewrite app_nil_r|].
  rewrite app_assoc. intros Hn. apply IH. inversion Hn as [Heq|log f' Hlog Hs Heq].
  - by destruct (p ++ q).
  - by apply app_inj_tail in Heq as [-> _].
Qed.

Lemma numbered_last_seen st log :
  numbered log →
  last_seen st log = if decide (count_of st log = 0%nat) then None else Some (Z.of_nat (count_of st log)).
Proof.
  unfold last_seen. induction 1 as [|log f Hlog IH Hs]; [done|].
  rewrite count_of_snoc, filter_app, filter_cons, filter_nil.
  destruct (decide (bo_stream f = st)) as [<-|Hst].
  - rewrite last_snoc. simpl. rewrite decide_False by lia. f_equal. lia.
  - by rewrite app_nil_r, Nat.add_0_r.
Qed.

Lemma numbered_bound log f : numbered log → f ∈ log → 1 <= bo_sequence f <= Z.of_nat (count_of (bo_stream f) log).
Proof.
  induction 1 as [|log g Hlog IH Hs]; [by intros ?%elem_of_nil|].
  rewrite count_of_snoc. intros [Hin| ->%list_elem_of_singleton]%elem_of_app.
  - specialize (IH Hin). lia.
  - rewrite decide_True by done. lia.
Qed.

Lemma numbered_later p q f :
  numbered (p ++ q) → f ∈ q → Z.of_nat (count_of (bo_stream f) p) < bo_sequence f.
Proof.
  revert f. induction q as [|g q IH] using rev_ind; intros f Hn; [by intros ?%elem_of_nil|].
  rewrite app_assoc in Hn. inversion Hn as [Heq|log f' Hlog Hs Heq]; [by destruct (p ++ q)|].
  apply app_inj_tail in Heq as [-> ->].
  intros [Hin| ->%list_elem_of_singleton]%elem_of_app; [by apply IH|]. rewrite Hs, count_of_app. lia.
Qed.

(** What a client that has seen [p] reports. *)
Definition unseen (p : list BufferedOutput) (f : BufferedOutput) : bool :=
  newer_than (last_seen Stdout p) (last_seen Stderr p) f.

Lemma unseen_iff p f :
  numbered p → 1 <= bo_sequence f →
  unseen p f = true ↔ Z.of_nat (count_of (bo_stream f) p) < bo_sequence f.
Proof.
  intros Hp Hf. unfold unseen, newer_than.
  transitivity (match last_seen (bo_stream f) p with Some seq => seq <? bo_sequence f | None => true end = true);
    [by destruct (bo_stream f)|].
  rewrite numbered_last_seen by done. case_decide as Hc; [rewrite Hc; simpl; split; lia|]. apply Z.ltb_lt.
Qed.

Lemma filter_unseen_old p p' : numbered p → p' `suffix_of` p → filter (λ f, unseen p f = true) p' = [].
Proof.
  intros Hp [k ->]. apply filter_none. intros f Hf Hu.
  assert (f ∈ k ++ p') as Hin by (apply elem_of_app; by right).
  pose proof (numbered_bound _ _ Hp Hin). apply unseen_iff in Hu; [lia|done|lia].
Qed.

Lemma filter_unseen_new p q q' : numbered (p ++ q) → q' `suffix_of` q → filter (λ f, unseen p f = true) q' = q'.
Proof.
  intros Hn [k ->]. apply filter_every. intros f Hf.
  assert (f ∈ k ++ q') as Hin by (apply elem_of_app; by right).
  assert (f ∈ p ++ k ++ q') as Hall by (apply elem_of_app; by right).
  apply unseen_iff; [by eapply numbered_app_inv| |by eapply numbered_later].
  by apply (numbered_bound _ _ Hn) in Hall as [? _].
Qed.

Lemma filter_unseen_lastn cap p q :
  numbered (p ++ q) → filter (λ f, unseen p f = true) (lastn cap (p ++ q)) = lastn cap q.
Proof.
  intros Hn. destruct (decide (length q ≤ cap)%nat).
  - rewrite lastn_app_r, (lastn_all cap q) by done. rewrite filter_app.
    rewrite filter_unseen_old by (eauto using numbered_app_inv, lastn_suffix).
    by rewrite (filter_unseen_new p q q).
  - rewrite lastn_app_ge by lia. eapply filter_unseen_new; [done|apply lastn_suffix].
Qed.

(** The output buffer refines the session's output log: after any run the
    buffer is the last [buffer_capacity] frames of the log, and the next sequence
    number of each stream is one more than the frames it has printed, so numbers
    are consecutive from 1. *)
Lemma session_buffer_refines_log os now token cap :
  Z.of_nat (length (log_of os)) + 1 < 2 ^ 64 →
  let s := ss_run os (SessionState_new now token cap) in
  ss_output_buffer s = lastn cap (log_of os) ∧
  ss_stdout_next_sequence s = Z.of_nat (count_of Stdout (log_of os)) + 1 ∧
  ss_stderr_next_sequence s = Z.of_nat (count_of Stderr (log_of os)) + 1.
Proof.
  intros Hlen. destruct (ss_run_abstracts os now token cap Hlen) as [[Hb Hn] Hcap].
  rewrite Hcap in Hb. split_and!; [done|apply (Hn Stdout)|apply (Hn Stderr)].
Qed.

(** Replay is exact: a client that has seen the prefix [p] of the log and
    asks with the last sequence numbers of that prefix receives precisely the
    frames [q] it missed, in order, without repetition, up to the most recent
    [cap] of them. *)
Lemma replay_exact os now token cap p q :
  log_of os = p ++ q → Z.of_nat (length (log_of os)) + 1 < 2 ^ 64 →
  outputs_since (last_seen Stdout p) (last_seen Stderr p) (ss_run os (SessionState_new now token cap))
    = lastn cap q.
Proof.
  intros Hlog Hlen. destruct (ss_run_abstracts os now token cap Hlen) as [[Hb _] Hcap].
  unfold outputs_since. rewrite Hb, Hcap, Hlog. apply filter_unseen_lastn.
  rewrite <-Hlog. apply log_of_numbered.
Qed.

(** ** Attachment *)
Fixpoint attach_count (os : list ss_op) (s : SessionState) : nat :=
  match os with
  | [] => 0
  | o :: os' =>
      (match o with SsAttach u n f => if is_ok (try_attach u n f s).2 then 1 else 0 | _ => 0 end
       + attach_count os' (ss_step s o))%nat
  end.
Fixpoint detach_count (os : list ss_op) (s : SessionState) : nat :=
  match os with
  | [] => 0
  | o :: os' =>
      (match o with SsDetach n => if is_ok (try_detach n s).2 then 1 else 0 | _ => 0 end
       + detach_count os' (ss_step s o))%nat
  end.
Definition attached (s : SessionState) : nat :=
  match ss_attachment s with Some _ => 1 | None => 0 end.

(** A session has at most one attachment at any time: in every run the
    successful attachments outnumber the successful detachments by one exactly
    while the session is attached, and by none otherwise. *)
Lemma attachment_exclusive os s :
  (attached s + attach_count os s = detach_count os s + attached (ss_run os s))%nat.
Proof.
  revert s. induction os as [|o os IH]; intros s; [simpl; lia|].
  cbn [ss_run foldl attach_count detach_count]. specialize (IH (ss_step s o)). unfold ss_run in IH.
  destruct o; cbn [ss_step] in *.
  all: unfold try_attach, try_detach, touch_heartbeat, attached in *.
  all: destruct (ss_attachment s) as [a|] eqn:Ha; cbn in *; try rewrite Ha in *; lia.
Qed.

(** ** Concrete runs *)
Definition demo_record (st : OutputStream) (b : byte) : ss_op := SsRecord 5 st [b] false None.
Definition demo_ops : list ss_op :=
  [SsAttach 1 0 None; demo_record Stdout x01; demo_record Stderr x02; SsDetach 3;
   demo_record Stdout x03; demo_record Stdout x04].

Lemma session_buffer_refines_log_witness :
  ss_output_buffer (ss_run demo_ops (SessionState_new 0 "t" 2)) = lastn 2 (log_of demo_ops) ∧
  ss_stdout_next_sequence (ss_run demo_ops (SessionState_new 0 "t" 2)) = 4 ∧
  ss_stderr_next_sequence (ss_run demo_ops (SessionState_new 0 "t" 2)) = 2.
Proof. apply (session_buffer_refines_log demo_ops 0 "t" 2). reflexivity. Defined.

Lemma replay_exact_witness :
  outputs_since (Some 1) (Some 1) (ss_run demo_ops (SessionState_new 0 "t" 8))
    = [mkBufferedOutput Stdout 2 [x03] false None; mkBufferedOutput Stdout 3 [x04] false None].
Proof.
  apply (replay_exact demo_ops 0 "t" 8
    [mkBufferedOutput Stdout 1 [x01] false None; mkBufferedOutput Stderr 1 [x02] false None]
    [mkBufferedOutput Stdout 2 [x03] false None; mkBufferedOutput Stdout 3 [x04] false None]); reflexivity.
Defined.

#[global] Arguments record_output : simpl never.
