(* ===== verification/SessionManager.v ===== *)
(** * The session manager (server/src/sessions/manager.rs)

    The map of open sessions, the broadcast channel of each session and the task
    that runs its event loop.  A broadcast channel is the list of everything sent
    on it, and a receiver is the position at which it subscribed: it is given
    every later event unless it falls more than the channel's capacity behind, which
    [Delivery] models.
    The event loop is a small machine, so that other threads can run between its
    steps.  A poisoned lock is not modelled. *)

From S2P Require Import Prelude RustStd ThirdParty Config Registry SessionState.

Open Scope Z_scope.

Definition DEFAULT_OUTPUT_BUFFER_CAPACITY : nat := 1024.
Definition DEFAULT_EVENT_CHANNEL_CAPACITY : nat := 256.

Record SessionBroadcastEvent := mkSessionBroadcastEvent {
  be_event : SessionServerEvent;
  be_buffered_output : option BufferedOutput;
  be_resume_token : option string;
}.

(** [client_sender] is the name of the channel to the capability. *)
Record SessionEntry := mkSessionEntry {
  se_capability_id : string;
  se_metadata : CapabilityMetadata;
  se_session_mode : SessionMode;
  se_client_sender : N;
  se_capability : Capability;
  se_state : SessionState;
  se_owner_fingerprint : option string;
}.

Inductive SessionManagerError := NotFound | AlreadyAttached | NotAttached | InvalidResumeToken.

Definition error_display (e : SessionManagerError) : string :=
  match e with
  | NotFound => "session not found"
  | AlreadyAttached => "session already has an active attachment"
  | NotAttached => "session has no active attachment"
  | InvalidResumeToken => "invalid resume token"
  end.

Definition from_state_error (e : SessionStateError) : SessionManagerError :=
  match e with StAlreadyAttached => AlreadyAttached | StNotAttached => NotAttached end.

Record AttachmentMetadata := mkAttachmentMetadata { am_client_fingerprint : option string }.

Record SessionSnapshot := mkSessionSnapshot {
  sp_id : Uuid;
  sp_capability_id : string;
  sp_metadata : CapabilityMetadata;
  sp_session_mode : SessionMode;
  sp_state : SessionStateSnapshot;
  sp_owner_fingerprint : option string;
}.

(** [event_receiver] is a position in the session's channel. *)
Record SessionHandle := mkSessionHandle {
  hd_id : Uuid;
  hd_capability_id : string;
  hd_metadata : CapabilityMetadata;
  hd_session_mode : SessionMode;
  hd_client_sender : N;
  hd_event_receiver : nat;
  hd_resume_token : string;
}.

(** Where the event loop of a session is: waiting for an event, having recorded
    one, about to broadcast, leaving, gone. *)
Inductive loop_pc :=
  | Waiting
  | Recorded (event : SessionServerEvent) (frame : option BufferedOutput)
  | Sending (event : SessionBroadcastEvent)
  | Leaving
  | Stopped.

Record SessionManager := mkSessionManager {
  sm_sessions : gmap Uuid SessionEntry;
  sm_channels : gmap Uuid (list SessionBroadcastEvent);
  sm_loops : gmap Uuid loop_pc;
}.

Definition SessionManager_new : SessionManager := mkSessionManager ∅ ∅ ∅.

Definition set_state (s : SessionState) (e : SessionEntry) : SessionEntry :=
  mkSessionEntry (se_capability_id e) (se_metadata e) (se_session_mode e) (se_client_sender e)
    (se_capability e) s (se_owner_fingerprint e).

Definition set_sessions (ss : gmap Uuid SessionEntry) (m : SessionManager) : SessionManager :=
  mkSessionManager ss (sm_channels m) (sm_loops m).
Definition set_loop (id : Uuid) (pc : loop_pc) (m : SessionManager) : SessionManager :=
  mkSessionManager (sm_sessions m) (sm_channels m) (<[id := pc]> (sm_loops m)).

Definition get_entry (id : Uuid) (m : SessionManager) : result SessionManagerError SessionEntry :=
  ok_or (sm_sessions m !! id) NotFound.

Definition with_session_state {T} (id : Uuid)
    (op : SessionState → SessionState * result SessionManagerError T) (m : SessionManager)
    : SessionManager * result SessionManagerError T :=
  match get_entry id m with
  | Err e => (m, Err e)
  | Ok entry =>
      let '(s', r) := op (se_state entry) in
      (set_sessions (<[id := set_state s' entry]> (sm_sessions m)) m, r)
  end.

(** [open_session]: [opened] is the answer of [capability.open_session], [uuid]
    the new session id, [token] the text of the resume token's UUID, [sender]
    the name of the new client channel. *)
Definition open_session (opened : result string unit) (uuid : Uuid) (token : string) (now : Z) (sender : N)
    (capability : Capability) (client_fingerprint : option string) (m : SessionManager)
    : SessionManager * result string SessionHandle :=
  let metadata := cap_metadata capability in
  match opened with
  | Err e => (m, Err e)
  | Ok _ =>
      let state := SessionState_new now token DEFAULT_OUTPUT_BUFFER_CAPACITY in
      let entry := mkSessionEntry (md_id metadata) metadata (md_session_mode metadata) sender capability
                     state client_fingerprint in
      (mkSessionManager (<[uuid := entry]> (sm_sessions m)) (<[uuid := []]> (sm_channels m))
         (<[uuid := Waiting]> (sm_loops m)),
       Ok (mkSessionHandle uuid (md_id metadata) metadata (md_session_mode metadata) sender 0%nat
             (ss_resume_token state)))
  end.

Definition get_sender (id : Uuid) (m : SessionManager) : option N := se_client_sender <$> sm_sessions m !! id.

Definition channel (id : Uuid) (m : SessionManager) : list SessionBroadcastEvent := default [] (sm_channels m !! id).

Definition subscribe_events (id : Uuid) (m : SessionManager) : result SessionManagerError nat :=
  _ ← get_entry id m; Ok (length (channel id m)).

Definition remove (id : Uuid) (m : SessionManager) : SessionManager :=
  set_sessions (delete id (sm_sessions m)) m.

Definition lift_state {T} (sr : SessionState * result SessionStateError T) : SessionState * result SessionManagerError T :=
  (sr.1, map_err from_state_error sr.2).

Definition attach (uuid : Uuid) (now : Z) (id : Uuid) (md : AttachmentMetadata) (m : SessionManager) :=
  with_session_state id (λ s, lift_state (try_attach uuid now (am_client_fingerprint md) s)) m.

Definition detach (now : Z) (id : Uuid) (m : SessionManager) :=
  with_session_state id (λ s, lift_state (try_detach now s)) m.

Definition attach_with_token (uuid : Uuid) (now : Z) (next_token : string) (id : Uuid) (md : AttachmentMetadata)
    (resume_token : string) (m : SessionManager)
    : SessionManager * result SessionManagerError (AttachmentState * string) :=
  with_session_state id (λ s,
    if negb (validate_resume_token resume_token s) then (s, Err InvalidResumeToken)
    else
      let '(s1, r) := lift_state (try_attach uuid now (am_client_fingerprint md) s) in
      match r with
      | Err e => (s1, Err e)
      | Ok attachment => let '(s2, t) := SessionState.rotate_resume_token next_token s1 in (s2, Ok (attachment, t))
      end) m.

Definition manager_touch_heartbeat (now : Z) (id : Uuid) (m : SessionManager) :=
  with_session_state id (λ s, lift_state (SessionState.touch_heartbeat now s)) m.

Definition record_server_event (now : Z) (id : Uuid) (event : SessionServerEvent) (m : SessionManager)
    : SessionManager * result SessionManagerError (option BufferedOutput) :=
  with_session_state id (λ s,
    match event with
    | SOutput data stderr binary timestamp_ms =>
        let '(s', f) := record_output now (from_stderr_flag stderr) data binary timestamp_ms s in (s', Ok (Some f))
    | _ => (s, Ok None)
    end) m.

Definition buffered_output_since (id : Uuid) (last_stdout last_stderr : option Z) (m : SessionManager)
    : result SessionManagerError (list BufferedOutput) :=
  (with_session_state id (λ s, (s, Ok (outputs_since last_stdout last_stderr s))) m).2.

Definition resume_token (id : Uuid) (m : SessionManager) : result SessionManagerError string :=
  (with_session_state id (λ s, (s, Ok (ss_resume_token s))) m).2.

Definition manager_rotate_resume_token (uuid : string) (id : Uuid) (m : SessionManager) :=
  with_session_state id (λ s, let '(s', t) := SessionState.rotate_resume_token uuid s in (s', Ok t)) m.

Definition entry_snapshot (id : Uuid) (e : SessionEntry) : SessionSnapshot :=
  mkSessionSnapshot id (se_capability_id e) (se_metadata e) (se_session_mode e) (state_snapshot (se_state e))
    (se_owner_fingerprint e).

Definition snapshot (id : Uuid) (m : SessionManager) : result SessionManagerError SessionSnapshot :=
  e ← get_entry id m; Ok (entry_snapshot id e).

Definition list_sessions (m : SessionManager) : list SessionSnapshot :=
  (λ '(id, e), entry_snapshot id e) <$> map_to_list (sm_sessions m).

(** ** The event loop *)
Definition is_ready (e : SessionServerEvent) : bool := match e with SReady _ => true | _ => false end.
Definition is_closed (e : SessionServerEvent) : bool := match e with SClosed _ => true | _ => false end.

(** [receiver.recv()] returned [event] ([None]: every sender is gone). *)
Definition loop_recv (now : Z) (id : Uuid) (event : option SessionServerEvent) (m : SessionManager) : SessionManager :=
  match event with
  | None => set_loop id Leaving m
  | Some e =>
      let '(m', r) := record_server_event now id e m in
      let buffered_output := match r with Ok frame => frame | Err _ => None end in
      set_loop id (Recorded e buffered_output) m'
  end.

Definition loop_token (id : Uuid) (e : SessionServerEvent) (frame : option BufferedOutput) (m : SessionManager)
    : SessionManager :=
  let token := if is_ready e then match resume_token id m with Ok t => Some t | Err _ => None end else None in
  set_loop id (Sending (mkSessionBroadcastEvent e frame token)) m.

Definition loop_send (id : Uuid) (b : SessionBroadcastEvent) (m : SessionManager) : SessionManager :=
  set_loop id (if is_closed (be_event b) then Leaving else Waiting)
    (mkSessionManager (sm_sessions m) (<[id := channel id m ++ [b]]> (sm_channels m)) (sm_loops m)).

Definition loop_leave (id : Uuid) (m : SessionManager) : SessionManager := set_loop id Stopped (remove id m).

(** One step of the loop of session [id]; [event] is what it receives if it is
    waiting. *)
Definition run_session_event_loop (now : Z) (id : Uuid) (event : option SessionServerEvent) (m : SessionManager)
    : SessionManager :=
  match sm_loops m !! id with
  | Some Waiting => loop_recv now id event m
  | Some (Recorded e frame) => loop_token id e frame m
  | Some (Sending b) => loop_send id b m
  | Some Leaving => loop_leave id m
  | Some Stopped | None => m
  end.

(** ** Runs *)
Inductive sm_op :=
  | SmOpen (opened : result string unit) (uuid : Uuid) (token : string) (now : Z) (sender : N)
      (capability : Capability) (fingerprint : option string)
  | SmAttach (uuid : Uuid) (now : Z) (id : Uuid) (md : AttachmentMetadata)
  | SmDetach (now : Z) (id : Uuid)
  | SmAttachToken (uuid : Uuid) (now : Z) (next_token : string) (id : Uuid) (md : AttachmentMetadata) (token : string)
  | SmHeartbeat (now : Z) (id : Uuid)
  | SmRotate (uuid : string) (id : Uuid)
  | SmLoop (now : Z) (id : Uuid) (event : option SessionServerEvent).

Definition sm_step (m : SessionManager) (o : sm_op) : SessionManager :=
  match o with
  | SmOpen opened uuid token now sender cap fp => (open_session opened uuid token now sender cap fp m).1
  | SmAttach uuid now id md => (attach uuid now id md m).1
  | SmDetach now id => (detach now id m).1
  | SmAttachToken uuid now next id md token => (attach_with_token uuid now next id md token m).1
  | SmHeartbeat now id => (manager_touch_heartbeat now id m).1
  | SmRotate uuid id => (manager_rotate_resume_token uuid id m).1
  | SmLoop now id event => run_session_event_loop now id event m
  end.

Definition sm_run (os : list sm_op) (m : SessionManager) : SessionManager := foldl sm_step m os.

(** ** The log of a session

    Everything recorded is either broadcast or held by the loop, in order. *)
Definition pending (pc : option loop_pc) : list BufferedOutput :=
  match pc with
  | Some (Recorded _ (Some f)) => [f]
  | Some (Sending b) => match be_buffered_output b with Some f => [f] | None => [] end
  | _ => []
  end.
Definition frames (es : list SessionBroadcastEvent) : list BufferedOutput := omap be_buffered_output es.
Definition session_log (id : Uuid) (m : SessionManager) : list BufferedOutput :=
  frames (channel id m) ++ pending (sm_loops m !! id).

Definition log_inv (id : Uuid) (m : SessionManager) : Prop :=
  numbered (session_log id m) ∧
  ∀ e, sm_sessions m !! id = Some e →
    abstracts (session_log id m) (se_state e) ∧ ss_buffer_capacity (se_state e) = DEFAULT_OUTPUT_BUFFER_CAPACITY.

(** The operations that only attach, detach or rotate. *)
Definition same_output (s s' : SessionState) : Prop :=
  ss_output_buffer s' = ss_output_buffer s ∧ ss_stdout_next_sequence s' = ss_stdout_next_sequence s ∧
  ss_stderr_next_sequence s' = ss_stderr_next_sequence s ∧ ss_buffer_capacity s' = ss_buffer_capacity s.

Lemma same_output_refl s : same_output s s.
Proof. by repeat split. Qed.
Lemma same_output_attach uuid now fp s : same_output s (try_attach uuid now fp s).1.
Proof. unfold try_attach. by destruct (ss_attachment s). Qed.
Lemma same_output_detach now s : same_output s (try_detach now s).1.
Proof. unfold try_detach. by destruct (ss_attachment s). Qed.
Lemma same_output_heartbeat now s : same_output s (SessionState.touch_heartbeat now s).1.
Proof. unfold SessionState.touch_heartbeat. by destruct (ss_attachment s). Qed.
Lemma same_output_abstracts log s s' : same_output s s' → abstracts log s → abstracts log s'.
Proof. intros (Hb & H1 & H2 & Hc) [Hl Hn]. split; [congruence|]. intros st. rewrite <-Hn. by destruct st. Qed.

#[export] Hint Resolve same_output_refl same_output_attach same_output_detach same_output_heartbeat : hc.

Lemma same_output_attach_token uuid now next md token s :
  same_output s
    (if negb (validate_resume_token token s) then (s, Err InvalidResumeToken)
     else
       let '(s1, r) := lift_state (try_attach uuid now (am_client_fingerprint md) s) in
       match r with
       | Err e => (s1, Err e)
       | Ok attachment => let '(s2, t) := SessionState.rotate_resume_token next s1 in (s2, Ok (attachment, t))
       end).1.
Proof.
  destruct (negb _); [by auto with hc|]. pose proof (same_output_attach uuid now (am_client_fingerprint md) s) as Hs.
  unfold lift_state. destruct (try_attach _ _ _ _) as [s1 [a|e]]; simpl in *; done.
Qed.

Lemma with_session_state_log {T} id id' (op : SessionState → SessionState * result SessionManagerError T) m :
  session_log id (with_session_state id' op m).1 = session_log id m.
Proof. unfold with_session_state. destruct (get_entry id' m); [|done]. by destruct (op _). Qed.

Lemma with_session_state_channel {T} id id' (op : SessionState → SessionState * result SessionManagerError T) m :
  channel id (with_session_state id' op m).1 = channel id m.
Proof. unfold with_session_state. destruct (get_entry id' m); [|done]. by destruct (op _). Qed.

Lemma with_session_state_inv {T} id id' (op : SessionState → SessionState * result SessionManagerError T) m :
  (∀ s, same_output s (op s).1) → log_inv id m → log_inv id (with_session_state id' op m).1.
Proof.
  intros Hop [Hn Hs]. unfold log_inv. rewrite with_session_state_log. split; [done|].
  unfold with_session_state, get_entry. destruct (sm_sessions m !! id') as [e'|] eqn:E; [|done]. simpl.
  specialize (Hop (se_state e')). destruct (op (se_state e')) as [s' r]; simpl in *. intros e.
  rewrite lookup_insert_Some. intros [[-> <-]|[? He]]; [|by apply Hs].
  destruct (Hs _ E) as [Ha Hc]. simpl. split; [by eapply same_output_abstracts|].
  destruct Hop as (_ & _ & _ & ->). done.
Qed.

(** ** One step of the loop *)
Lemma set_loop_log id id' pc m :
  session_log id (set_loop id' pc m) =
    frames (channel id m) ++ pending (if decide (id = id') then Some pc else sm_loops m !! id).
Proof.
  unfold session_log, set_loop, channel; simpl. do 2 f_equal. case_decide as H; [subst; apply lookup_insert_eq|].
  by rewrite lookup_insert_ne.
Qed.

(** What a step that does not open session [id] does to it: its channel and its
    log only grow, and the invariant is kept while the log is shorter than the
    sequence numbers can count. *)
Record step_ok (id : Uuid) (m m' : SessionManager) : Prop := {
  step_channel : channel id m `prefix_of` channel id m';
  step_log : session_log id m `prefix_of` session_log id m';
  step_inv : log_inv id m → Z.of_nat (length (session_log id m')) + 1 < 2 ^ 64 → log_inv id m';
}.

(** A step that leaves channel and log of [id] alone, and its entry alone or removed. *)
Lemma step_ok_same id m m' :
  channel id m' = channel id m → session_log id m' = session_log id m →
  (∀ e, sm_sessions m' !! id = Some e → sm_sessions m !! id = Some e) → step_ok id m m'.
Proof.
  intros Hc Hl He. split; [by rewrite Hc|by rewrite Hl|]. intros [Hn Hs] _. unfold log_inv. rewrite Hl.
  split; [done|]. intros e ?%He. by apply Hs.
Qed.

Lemma set_loop_other_ok id id' pc m : id ≠ id' → step_ok id m (set_loop id' pc m).
Proof. intros Hne. apply step_ok_same; [done| |done]. rewrite set_loop_log. by rewrite decide_False. Qed.

Lemma with_session_state_ok {T} id id' (op : SessionState → SessionState * result SessionManagerError T) m :
  (∀ s, same_output s (op s).1) → step_ok id m (with_session_state id' op m).1.
Proof.
  intros Hop. split; [by rewrite with_session_state_channel|by rewrite with_session_state_log|].
  intros Hinv _. by apply with_session_state_inv.
Qed.

(** The frame that receiving [event] records. *)
Definition recorded (now : Z) (id : Uuid) (event : SessionServerEvent) (m : SessionManager) : option BufferedOutput :=
  match event, sm_sessions m !! id with
  | SOutput data stderr binary ts, Some e =>
      Some (record_output now (from_stderr_flag stderr) data binary ts (se_state e)).2
  | _, _ => None
  end.

Lemma loop_recv_self_log now id ev m :
  sm_loops m !! id = Some Waiting →
  channel id (loop_recv now id (Some ev) m) = channel id m ∧
  session_log id (loop_recv now id (Some ev) m) = session_log id m ++ option_list (recorded now id ev m).
Proof.
  intros Hpc. unfold loop_recv, record_server_event, recorded, with_session_state, get_entry.
  destruct (sm_sessions m !! id) as [e|] eqn:E; simpl.
  - destruct ev; simpl; (split; [done|]); rewrite set_loop_log, decide_True by done;
      unfold session_log; rewrite Hpc; simpl; rewrite ?app_nil_r; done.
  - split; [done|]. rewrite set_loop_log, decide_True by done. unfold session_log. rewrite Hpc. simpl.
    by destruct ev; rewrite !app_nil_r.
Qed.

Lemma loop_recv_self_ok now id ev m :
  sm_loops m !! id = Some Waiting → step_ok id m (loop_recv now id (Some ev) m).
Proof.
  intros Hpc. destruct (loop_recv_self_log now id ev m Hpc) as [Hc Hl].
  split; [by rewrite Hc|rewrite Hl; by apply prefix_app_r|].
  intros [Hn Hs] Hlen. rewrite Hl, length_app in Hlen. unfold log_inv. rewrite Hl.
  unfold loop_recv, record_server_event, recorded, with_session_state, get_entry in *.
  destruct (sm_sessions m !! id) as [e|] eqn:E; cbn [ok_or] in *.
  2: { destruct ev; simpl; rewrite app_nil_r; (split; [done|]); intros e; rewrite E; done. }
  destruct (Hs _ eq_refl) as [Ha Hcap]. destruct ev as [|data err bin ts| | | |].
  2: { pose proof (record_output_abstracts now (from_stderr_flag err) data bin ts _ _ Ha) as Hr.
       destruct (record_output _ _ _ _ _ _) as [s' f] eqn:Er. cbn [fst snd] in *.
       change (option_list (Some f)) with [f] in *. cbn [length] in Hlen.
       destruct Hr as [Hf Hr]; [lia|]. split; [subst f; by constructor|].
       intros e'. simpl. rewrite lookup_insert_eq. intros [= <-]. split; [done|].
       unfold record_output in Er. by simplify_eq. }
  all: simpl; rewrite app_nil_r; split; [done|]; intros e'; rewrite lookup_insert_eq; intros [= <-]; done.
Qed.

Lemma loop_recv_other_ok now id id' event m : id ≠ id' → step_ok id m (loop_recv now id' event m).
Proof.
  intros Hne. unfold loop_recv. destruct event as [ev|]; [|by apply set_loop_other_ok].
  unfold record_server_event, with_session_state, get_entry.
  destruct (sm_sessions m !! id') as [e|] eqn:E; simpl; [|by apply set_loop_other_ok].
  destruct ev; simpl; (apply step_ok_same; [done| |]); simpl.
  all: try (rewrite set_loop_log, decide_False by done; done).
  all: intros e'; by rewrite lookup_insert_ne by done.
Qed.

Lemma loop_send_log id b m :
  sm_loops m !! id = Some (Sending b) →
  channel id (loop_send id b m) = channel id m ++ [b] ∧ session_log id (loop_send id b m) = session_log id m.
Proof.
  intros Hpc. unfold loop_send.
  assert (channel id (mkSessionManager (sm_sessions m) (<[id := channel id m ++ [b]]> (sm_channels m)) (sm_loops m))
    = channel id m ++ [b]) as Hc by (unfold channel at 1; simpl; by rewrite lookup_insert_eq).
  split; [done|]. rewrite set_loop_log, decide_True, Hc by done. unfold session_log, frames. rewrite Hpc, omap_app.
  simpl. destruct (be_buffered_output b), (is_closed _); simpl; by rewrite ?app_nil_r.
Qed.

Lemma run_loop_ok now id id' event m : step_ok id m (run_session_event_loop now id' event m).
Proof.
  unfold run_session_event_loop. destruct (decide (id = id')) as [<-|Hne].
  - destruct (sm_loops m !! id) as [[|e f|b| |]|] eqn:Hpc; try (by apply step_ok_same).
    + destruct event; [by apply loop_recv_self_ok|]. apply step_ok_same; [done| |done]. simpl.
      rewrite set_loop_log, decide_True by done. unfold session_log. by rewrite Hpc.
    + apply step_ok_same; [done| |done]. unfold loop_token. rewrite set_loop_log, decide_True by done.
      unfold session_log. by rewrite Hpc.
    + destruct (loop_send_log id b m Hpc) as [Hc Hl].
      split; [rewrite Hc; by apply prefix_app_r|by rewrite Hl|]. intros [Hn Hs] _. unfold log_inv. by rewrite Hl.
    + apply step_ok_same; [done| |].
      * unfold loop_leave. rewrite set_loop_log, decide_True by done. unfold session_log. by rewrite Hpc.
      * simpl. intros e. by rewrite lookup_delete_eq.
  - destruct (sm_loops m !! id') as [[|e f|b| |]|] eqn:Hpc; try (by apply step_ok_same).
    + by apply loop_recv_other_ok.
    + by apply set_loop_other_ok.
    + apply step_ok_same; [| |done].
      * unfold loop_send, channel. simpl. by rewrite lookup_insert_ne.
      * unfold loop_send. rewrite set_loop_log, decide_False by done. unfold session_log, channel. simpl.
        by rewrite lookup_insert_ne.
    + apply step_ok_same; [done| |].
      * unfold loop_leave. rewrite set_loop_log, decide_False by done. done.
      * simpl. intros e. by rewrite lookup_delete_ne by done.
Qed.

Definition opens (id : Uuid) (o : sm_op) : Prop :=
  match o with SmOpen _ uuid _ _ _ _ _ => uuid = id | _ => False end.

Lemma sm_step_ok id m o : ¬ opens id o → step_ok id m (sm_step m o).
Proof.
  intros Ho. destruct o as [opened uuid token now sender cap fp|uuid now id' md|now id'|uuid now next id' md token
    |now id'|uuid id'|now id' ev]; cbn [sm_step opens] in *.
  - unfold open_session. destruct opened as [[]|]; [|by apply step_ok_same]. apply step_ok_same; simpl.
    + unfold channel. simpl. by rewrite lookup_insert_ne.
    + unfold session_log, channel. simpl. by rewrite !lookup_insert_ne.
    + intros e. by rewrite lookup_insert_ne.
  - apply with_session_state_ok. intros s. apply same_output_attach.
  - apply with_session_state_ok. intros s. apply same_output_detach.
  - apply with_session_state_ok. intros s. apply same_output_attach_token.
  - apply with_session_state_ok. intros s. apply same_output_heartbeat.
  - apply with_session_state_ok. intros s. by repeat split.
  - apply run_loop_ok.
Qed.

Lemma step_ok_trans id m1 m2 m3 : step_ok id m1 m2 → step_ok id m2 m3 → step_ok id m1 m3.
Proof.
  intros [Hc1 Hl1 Hi1] [Hc2 Hl2 Hi2]. split; [by etrans|by etrans|].
  intros Hinv Hlen. apply Hi2; [|done]. apply Hi1; [done|]. apply prefix_length in Hl2. lia.
Qed.

Lemma sm_run_ok id os m : Forall (λ o, ¬ opens id o) os → step_ok id m (sm_run os m).
Proof.
  revert m. induction os as [|o os IH]; intros m Hos; [by apply step_ok_same|].
  apply Forall_cons in Hos as [Ho Hos]. eapply step_ok_trans; [by apply sm_step_ok|by apply IH].
Qed.

(** A session that was just opened has an empty log. *)
Lemma open_session_inv uuid token now sender cap fp m :
  log_inv uuid (open_session (Ok tt) uuid token now sender cap fp m).1.
Proof.
  assert (session_log uuid (open_session (Ok tt) uuid token now sender cap fp m).1 = []) as Hl.
  { unfold session_log, channel. simpl. by rewrite !lookup_insert_eq. }
  unfold log_inv. rewrite Hl. split; [constructor|]. simpl. intros e. rewrite lookup_insert_eq. intros [= <-].
  split; [|done]. split; [done|by intros []].
Qed.

Lemma buffered_output_since_ok id a b m replay :
  buffered_output_since id a b m = Ok replay →
  ∃ e, sm_sessions m !! id = Some e ∧ replay = outputs_since a b (se_state e).
Proof.
  unfold buffered_output_since, with_session_state, get_entry.
  destruct (sm_sessions m !! id) as [e|]; simpl; intros; simplify_eq. eauto.
Qed.

(** A replay from the last sequence numbers of [p] is the rest of the log. *)
Lemma replay_is_missed id m p q replay :
  log_inv id m → session_log id m = p ++ q → (length q ≤ DEFAULT_OUTPUT_BUFFER_CAPACITY)%nat →
  buffered_output_since id (last_seen Stdout p) (last_seen Stderr p) m = Ok replay → replay = q.
Proof.
  intros [Hn Hs] Hlog Hq (e & He & ->)%buffered_output_since_ok. destruct (Hs _ He) as [[Hb _] Hcap].
  unfold outputs_since. rewrite Hb, Hcap, Hlog. transitivity (lastn DEFAULT_OUTPUT_BUFFER_CAPACITY q); [|by apply lastn_all].
  apply filter_unseen_lastn. by rewrite <-Hlog.
Qed.

(** A client that has seen the prefix [p] of a session's output subscribes (at position
    [k] of the broadcast channel), and later asks for the buffered output; whatever the
    event loop and other clients do before, between and after, the replay is exactly what
    the client had missed at that moment, and everything printed later was broadcast
    after the subscription or is about to be: the session's log is [p], the replay and a
    suffix of the live frames. *)
Lemma replay_then_live token t0 sender cap fp m0 os1 os2 os3 id k p q replay :
  let m1 := sm_run os1 (open_session (Ok tt) id token t0 sender cap fp m0).1 in
  let m2 := sm_run os2 m1 in
  let m3 := sm_run os3 m2 in
  Forall (λ o, ¬ opens id o) (os1 ++ os2 ++ os3) → subscribe_events id m1 = Ok k →
  session_log id m2 = p ++ q → (length q ≤ DEFAULT_OUTPUT_BUFFER_CAPACITY)%nat →
  Z.of_nat (length (session_log id m2)) + 1 < 2 ^ 64 →
  buffered_output_since id (last_seen Stdout p) (last_seen Stderr p) m2 = Ok replay →
  replay = q ∧ k = length (channel id m1) ∧
  ∃ later, session_log id m3 = p ++ q ++ later ∧
    later `suffix_of` frames (drop k (channel id m3)) ++ pending (sm_loops m3 !! id).
Proof.
  intros m1 m2 m3 Hos Hsub Hlog Hq Hlen Hrep.
  assert (k = length (channel id m1)) as ->.
  { unfold subscribe_events in Hsub. by apply result_bind_ok in Hsub as (? & _ & [= <-]). }
  apply Forall_app in Hos as [Hos1 [Hos2 Hos3]%Forall_app].
  pose proof (sm_run_ok id os1 (open_session (Ok tt) id token t0 sender cap fp m0).1 Hos1) as S1.
  pose proof (sm_run_ok id os2 m1 Hos2 : step_ok id m1 m2) as S2.
  pose proof (sm_run_ok id os3 m2 Hos3 : step_ok id m2 m3) as S3.
  assert (log_inv id m2) as Hinv.
  { apply (step_inv _ _ _ (step_ok_trans _ _ _ _ S1 S2)); [apply open_session_inv|done]. }
  apply (replay_is_missed id m2 p q) in Hrep as ->; [|done..]. do 2 (split; [done|]).
  destruct (step_log _ _ _ S3) as [later Hlater]. exists later. rewrite Hlater, Hlog. split; [by rewrite app_assoc|].
  destruct (step_channel _ _ _ (step_ok_trans _ _ _ _ S2 S3)) as [es Hes].
  assert (drop (length (channel id m1)) (channel id m3) = es) as -> by (rewrite Hes; apply drop_app_length).
  assert (frames (channel id m1) ++ (frames es ++ pending (sm_loops m3 !! id)) = session_log id m2 ++ later) as Heq.
  { rewrite <-Hlater. unfold session_log. rewrite Hes. unfold frames. by rewrite omap_app, app_assoc. }
  destruct (step_log _ _ _ S2) as [more Hmore]. rewrite Hmore in Heq. unfold session_log in Heq.
  rewrite <-!app_assoc in Heq. apply (inj (app _)) in Heq.
  exists (pending (sm_loops m1 !! id) ++ more). by rewrite Heq, app_assoc.
Qed.

(** ** Resume tokens *)
Definition all_state (id : Uuid) (P : SessionState → Prop) (m : SessionManager) : Prop :=
  ∀ e, sm_sessions m !! id = Some e → P (se_state e).

Lemma with_session_state_all {T} id id' P (op : SessionState → SessionState * result SessionManagerError T) m :
  (∀ s, P s → P (op s).1) → all_state id P m → all_state id P (with_session_state id' op m).1.
Proof.
  intros Hop Hall e. unfold with_session_state, get_entry.
  destruct (sm_sessions m !! id') as [e'|] eqn:E; simpl; [|by apply Hall].
  specialize (Hop (se_state e')). destruct (op (se_state e')) as [s' r]; simpl in *.
  rewrite lookup_insert_Some. intros [[-> <-]|[_ He]]; [|by apply Hall]. simpl. by apply Hop, Hall.
Qed.

(** The operation makes [token] the resume token of a session. *)
Definition issues (token : string) (o : sm_op) : Prop :=
  match o with
  | SmAttachToken _ _ next _ _ _ => next = token
  | SmRotate uuid _ => uuid = token
  | _ => False
  end.

Lemma try_attach_token uuid now fp s : ss_resume_token (try_attach uuid now fp s).1 = ss_resume_token s.
Proof. unfold try_attach. by destruct (ss_attachment s). Qed.

Lemma sm_step_token_not id token m o :
  ¬ opens id o → ¬ issues token o →
  all_state id (λ s, ss_resume_token s ≠ token) m → all_state id (λ s, ss_resume_token s ≠ token) (sm_step m o).
Proof.
  intros Ho Hi Hall. destruct o as [opened uuid tk now sender cap fp|uuid now id' md|now id'|uuid now next id' md tk
    |now id'|uuid id'|now id' ev]; cbn [sm_step opens issues] in *.
  - unfold open_session. destruct opened as [[]|]; [|done]. intros e. simpl. by rewrite lookup_insert_ne by done; apply Hall.
  - apply with_session_state_all; [|done]. intros s. unfold lift_state. simpl. by rewrite try_attach_token.
  - apply with_session_state_all; [|done]. intros s. unfold lift_state, try_detach. by destruct (ss_attachment s).
  - apply with_session_state_all; [|done]. intros s Hs. destruct (negb _); [done|].
    unfold lift_state. pose proof (try_attach_token uuid now (am_client_fingerprint md) s) as Ht.
    destruct (try_attach _ _ _ _) as [s1 [a|e]]; simpl in *; [done|congruence].
  - apply with_session_state_all; [|done]. intros s. unfold lift_state, SessionState.touch_heartbeat.
    by destruct (ss_attachment s).
  - apply with_session_state_all; [|done]. by intros s _.
  - unfold run_session_event_loop. destruct (sm_loops m !! id') as [[|e f|b| |]|]; try done.
    + unfold loop_recv. destruct ev as [ev|]; [|done]. unfold record_server_event.
      match goal with |- context [with_session_state id' ?op m] =>
        assert (all_state id (λ s, ss_resume_token s ≠ token) (with_session_state id' op m).1) as Ha end.
      { apply with_session_state_all; [|done]. by intros s Hs; destruct ev. }
      by destruct (with_session_state id' _ m) as [m' r].
    + intros e. simpl. intros [_ He]%lookup_delete_Some. by apply Hall.
Qed.

Lemma sm_run_token_not id token os m :
  Forall (λ o, ¬ opens id o ∧ ¬ issues token o) os →
  all_state id (λ s, ss_resume_token s ≠ token) m → all_state id (λ s, ss_resume_token s ≠ token) (sm_run os m).
Proof.
  revert m. induction os as [|o os IH]; intros m Hos Hm; [done|].
  apply Forall_cons in Hos as [[Ho Hi] Hos]. apply IH; [done|]. by apply sm_step_token_not.
Qed.

Lemma attach_with_token_ok_iff uuid now next id md token m :
  is_ok (attach_with_token uuid now next id md token m).2 = true ↔
  ∃ e, sm_sessions m !! id = Some e ∧ ss_resume_token (se_state e) = token ∧ ss_attachment (se_state e) = None.
Proof.
  unfold attach_with_token, with_session_state, get_entry.
  destruct (sm_sessions m !! id) as [e|]; simpl; [|naive_solver].
  unfold validate_resume_token, lift_state, try_attach.
  destruct (bool_decide_reflect (ss_resume_token (se_state e) = token)) as [Ht|Ht]; simpl.
  - destruct (ss_attachment (se_state e)) as [a|] eqn:Ea; simpl; [|naive_solver].
    split; [done|]. intros (e' & [= <-] & _ & ?). congruence.
  - split; [done|]. intros (e' & [= <-] & ? & _). congruence.
Qed.

Lemma attach_with_token_rotates uuid now next id md token m m' r :
  attach_with_token uuid now next id md token m = (m', Ok r) →
  r.2 = next ∧ all_state id (λ s, ss_resume_token s = next) m'.
Proof.
  unfold attach_with_token, with_session_state, get_entry, lift_state, try_attach.
  destruct (sm_sessions m !! id) as [e|]; simpl; [|done].
  destruct (validate_resume_token token (se_state e)); simpl; [|done].
  destruct (ss_attachment (se_state e)); simpl; [done|]. intros [= <- <-]. split; [done|].
  intros e'. simpl. rewrite lookup_insert_eq. by intros [= <-].
Qed.

(** Resuming is gated by the current resume token and by nothing else: it
    succeeds exactly when the session exists, is not attached, and the presented
    token is its current one.  The fingerprint of the client plays no part. *)
Lemma resume_needs_current_token uuid now next id md token m :
  is_ok (attach_with_token uuid now next id md token m).2 = true ↔
  ∃ e, sm_sessions m !! id = Some e ∧ ss_resume_token (se_state e) = token ∧ ss_attachment (se_state e) = None.
Proof. apply attach_with_token_ok_iff. Qed.

(** A resume token works once: after a successful resumption, no sequence of
    operations that does not issue the same token again makes it valid. *)
Lemma resume_token_single_use uuid now next id md token m m' r os uuid2 now2 next2 md2 :
  attach_with_token uuid now next id md token m = (m', Ok r) → next ≠ token →
  Forall (λ o, ¬ opens id o ∧ ¬ issues token o) os →
  is_ok (attach_with_token uuid2 now2 next2 id md2 token (sm_run os m')).2 = false.
Proof.
  intros [_ Hm']%attach_with_token_rotates Hne Hos. apply not_true_is_false.
  intros (e & He & Ht & _)%attach_with_token_ok_iff.
  refine (sm_run_token_not id token os m' Hos _ e He Ht). intros e' He'. rewrite (Hm' e' He'). done.
Qed.

(** ** Concrete runs *)
Definition demo_cap : Capability :=
  make_capability (mkCapabilityConfig "sh" "Shell" None [] false false [] CapabilityAclConfig_default
    (DefShellScript (mkShellScriptDefinition "ls" 3 ∅ true CmOneShot))).
Definition demo_out (b : byte) : sm_op := SmLoop 1 7 (Some (SOutput [b] false false None)).
Definition demo_tick : sm_op := SmLoop 1 7 None.
(** One output of the event loop: receive, token, broadcast. *)
Definition demo_output (b : byte) : list sm_op := [demo_out b; demo_tick; demo_tick].
Definition demo_open : SessionManager := (open_session (Ok tt) 7 "t0" 0 1 demo_cap None SessionManager_new).1.
Definition demo_frame (n : Z) (b : byte) : BufferedOutput := mkBufferedOutput Stdout n [b] false None.

Lemma resume_token_single_use_witness :
  ∃ m' r, attach_with_token 1 5 "t1" 7 (mkAttachmentMetadata None) "t0" demo_open = (m', Ok r) ∧
    is_ok (attach_with_token 2 9 "t2" 7 (mkAttachmentMetadata None) "t0" (sm_run [SmDetach 8 7] m')).2 = false.
Proof.
  eexists _, _. split; [reflexivity|].
  eapply (resume_token_single_use 1 5 "t1" 7 (mkAttachmentMetadata None) "t0" demo_open); [reflexivity|done|].
  repeat constructor; simpl; tauto.
Defined.
