(* ===== verification/Verification.v ===== *)
(** * Verification codes (server/src/security/verification.rs and
    client-lib/src/enrollment.rs)

    Server and client compute the six digits the user compares, each from its own
    side of the pairing. *)

From S2P Require Import Prelude RustStd ThirdParty SessionState.

Local Open Scope string_scope.
Open Scope Z_scope.

Definition byte_val (b : byte) : Z := Z.of_N (Byte.to_N b).

(** [Uuid::as_bytes]: 16 bytes, the most significant first. *)
Fixpoint be_bytes (k : nat) (n : N) : bytes :=
  match k with
  | O => []
  | S k' => be_bytes k' (n / 256) ++ [default x00 (Byte.of_N (n mod 256))]%list
  end.
Definition uuid_as_bytes (id : Uuid) : bytes := be_bytes 16 id.

Definition from_be_bytes (a b c d : byte) : Z :=
  byte_val a * 2 ^ 24 + byte_val b * 2 ^ 16 + byte_val c * 2 ^ 8 + byte_val d.

(** The digits of a digest; indexing past its end is a panic. *)
Definition code_of_hash (hash : bytes) : option string :=
  match hash with
  | a :: b :: c :: d :: _ =>
      let value := from_be_bytes a b c d mod 1000000 in
      Some (String.append (pad3 (value / 1000)) (String.append "-" (pad3 (value mod 1000))))
  | _ => None
  end.

Section codes.
Context `{Sha256}.

Definition generate_verification_code (client_cert_der server_cert_der : bytes) (server_id : Uuid) (nonce : bytes)
    : option string :=
  let client_fingerprint := sha256 client_cert_der in
  let server_fingerprint := sha256 server_cert_der in
  code_of_hash (sha256 (client_fingerprint ++ server_fingerprint ++ uuid_as_bytes server_id ++ nonce)%list).

Definition compute_verification_code (client_cert_der server_cert_fingerprint : bytes) (server_id : Uuid)
    (verification_nonce : bytes) : option (result string string) :=
  if bool_decide (verification_nonce = []) then
    Some (Err "Verification nonce missing for verification code computation")
  else if negb (bool_decide (length server_cert_fingerprint = 32%nat)) then
    Some (Err "Server fingerprint must be 32 bytes for verification code computation")
  else
    let client_hash := sha256 client_cert_der in
    code ← code_of_hash (sha256 (client_hash ++ server_cert_fingerprint ++ uuid_as_bytes server_id ++ verification_nonce)%list);
    Some (Ok code).

Context `{!Sha256Laws}.

Lemma code_of_hash_digest b : is_Some (code_of_hash (sha256 b)).
Proof.
  pose proof (sha256_length b) as Hl. destruct (sha256 b) as [|x0 [|x1 [|x2 [|x3 l]]]]; [discriminate Hl..|].
  eexists. cbn [code_of_hash]. reflexivity.
Qed.

(** Three decimal digits. *)
Definition three_digits (s : string) : bool :=
  bool_decide (String.length s = 3%nat) && string_forall is_ascii_digit s.

Lemma pad3_digits n : 0 <= n < 1000 → three_digits (pad3 n) = true.
Proof.
  intros Hn. assert (forallb (λ k, three_digits (pad3 (Z.of_nat k))) (seq 0 1000) = true) as Hall
    by (vm_compute; reflexivity).
  rewrite forallb_forall in Hall. specialize (Hall (Z.to_nat n)). rewrite Z2Nat.id in Hall by lia.
  apply Hall, in_seq. lia.
Qed.

Lemma code_of_hash_format h code :
  code_of_hash h = Some code →
  ∃ a b, code = String.append a (String.append "-" b) ∧ three_digits a = true ∧ three_digits b = true.
Proof.
  destruct h as [|b0 [|b1 [|b2 [|b3 h]]]]; cbn [code_of_hash]; try discriminate.
  intros Heq. apply (inj Some) in Heq as <-.
  pose proof (Z.mod_pos_bound (from_be_bytes b0 b1 b2 b3) 1000000 ltac:(lia)) as Hv.
  set (v := from_be_bytes b0 b1 b2 b3 mod 1000000) in *.
  eexists _, _. split; [reflexivity|]. split; apply pad3_digits; [|apply Z.mod_pos_bound; lia].
  split; [apply Z.div_pos; lia|]. apply Z.div_lt_upper_bound; lia.
Qed.

(** Both ends show the same code: when the fingerprint the client received
    is the digest of the server's certificate and the nonce is not empty, the
    client computes exactly the code the server generated, three digits, a dash
    and three digits. *)
Lemma verification_codes_agree client_der server_der id nonce :
  nonce ≠ [] →
  ∃ a b, let code := String.append a (String.append "-" b) in
    generate_verification_code client_der server_der id nonce = Some code ∧
    compute_verification_code client_der (sha256 server_der) id nonce = Some (Ok code) ∧
    three_digits a = true ∧ three_digits b = true.
Proof.
  intros Hn. unfold generate_verification_code, compute_verification_code.
  rewrite bool_decide_false by done. rewrite (bool_decide_true (_ = 32%nat)) by apply sha256_length. cbn [negb].
  edestruct code_of_hash_digest as [code Hcode]. rewrite Hcode.
  destruct (code_of_hash_format _ _ Hcode) as (a & b & -> & ? & ?).
  exists a, b. split_and!; [reflexivity|reflexivity|assumption..].
Qed.
End codes.

#[local] Existing Instance demo_sha256.
#[local] Existing Instance demo_sha256_laws.

Example verification_code_demo : generate_verification_code [x01; x02; x03; x04] [x05] 7 [x06] = Some "909-060".
Proof. vm_compute. reflexivity. Qed.
