(* ===== verification/RelayTokens.v ===== *)
(** * Relay tokens and messages of the server (server/src/relay/tokens.rs,
    relay/mod.rs)

    Ed25519 keys, PEM and JWT are crates: the class [TokenCrates].  A signing key
    is its 32 secret bytes. *)

From S2P Require Import Prelude RustStd ThirdParty Fs Config SessionState.

Local Open Scope string_scope.
Open Scope Z_scope.

(** [Uuid]: text in canonical form, and parsing. *)
Class UuidText := {
  uuid_to_string : Uuid → string;
  uuid_parse : string → option Uuid;
}.
Class UuidTextLaws `{UuidText} := uuid_parse_to_string : ∀ u, uuid_parse (uuid_to_string u) = Some u.

(** The claims the server signs. *)
Record ServerClaims := mkServerClaims {
  cl_iss : string;
  cl_sub : string;
  cl_aud : string;
  cl_exp : Z;
  cl_iat : Z;
  cl_server_id : string;
  cl_server_audience : string;
  cl_binding_type : string;
  cl_binding_value : string;
  cl_permissions : list string;
}.

Class TokenCrates := {
  key_to_pem : bytes → option string;
  key_from_pem : string → option bytes;
  verifying_key : bytes → bytes;
  public_pem : bytes → option string;
  (** [EncodingKey::from_ed_pem] accepts the text. *)
  pem_is_encoding_key : string → bool;
  (** [encode] with the algorithm EdDSA: key PEM and claims. *)
  jwt_encode : string → ServerClaims → option string;
  base64_encode : bytes → string;
}.

Record TokenIssuer := mkTokenIssuer {
  ti_signing_key : bytes;
  ti_verifying_key : bytes;
  ti_server_id : Uuid;
}.

Definition BINDING_TYPE_ENROLLMENT_TOKEN : string := "enrollment_token".
Definition BINDING_TYPE_CLIENT_ID : string := "client_id".

(** [std::time::Duration] in nanoseconds. *)
Definition dur_as_secs (d : Z) : Z := d / NANOS.
Definition dur_subsec_nanos (d : Z) : Z := d mod NANOS.
Definition dur_is_zero (d : Z) : bool := d =? 0.

(** [Path::parent] of an absolute or relative file path: the text before the
    last slash, [Some ""] for a bare name. *)
Fixpoint last_slash (s : string) (i : nat) : option nat :=
  match s with
  | EmptyString => None
  | String c s' =>
      match last_slash s' (S i) with
      | Some j => Some j
      | None => if decide (c = "/"%char) then Some i else None
      end
  end.
Definition path_parent (p : string) : option string :=
  if bool_decide (p = "") || bool_decide (p = "/") then None
  else Some match last_slash p 0 with
            | Some 0%nat => "/"
            | Some j => String.substring 0 j p
            | None => ""
            end.

Section tokens.
Context `{TokenCrates, UuidText}.

Definition load_key (ans : bool) (path : string) (fs : FileSystem) : result string bytes :=
  pem_content ← ok_or (fs_read_to_string ans path fs) (String.append "Failed to read key file: " path);
  ok_or (key_from_pem pem_content) "Failed to parse Ed25519 private key from PEM".

(** [generate_key]: [secret] are the bytes the random generator fills. *)
Definition generate_key (secret : bytes) : bytes := secret.

(** [save_key]: answers of creating the directory, writing and setting the mode. *)
Definition save_key (mk : bool) (a : write_answer) (chmod : bool) (key : bytes) (path : string) (fs : FileSystem)
    : FileSystem * result string unit :=
  let '(fs1, ok) := match path_parent path with
                    | Some parent => fs_create_dir_all mk parent fs
                    | None => (fs, true)
                    end in
  if ok then
    match key_to_pem key with
    | None => (fs1, Err "Failed to encode key as PEM")
    | Some pem =>
        let '(fs2, w) := fs_write a path (to_bytes pem) fs1 in
        if w then
          if chmod then (fs2, Ok tt)
          else (fs2, Err (String.append "Failed to set permissions on key file: " path))
        else (fs2, Err (String.append "Failed to write key file: " path))
    end
  else (fs1, Err (String.append "Failed to create key directory: " (default "" (path_parent path)))).

Definition load_or_generate_key (rd mk : bool) (a : write_answer) (chmod : bool) (secret : bytes)
    (key_path : string) (fs : FileSystem) : FileSystem * result string bytes :=
  if fs_exists key_path fs then (fs, load_key rd key_path fs)
  else
    let key := generate_key secret in
    let '(fs', r) := save_key mk a chmod key key_path fs in
    (fs', r ≫= λ _, Ok key).

Definition TokenIssuer_new (rd mk : bool) (a : write_answer) (chmod : bool) (secret : bytes)
    (server_id : Uuid) (key_path : string) (fs : FileSystem) : FileSystem * result string TokenIssuer :=
  let '(fs', r) := load_or_generate_key rd mk a chmod secret key_path fs in
  (fs', signing_key ← r; Ok (mkTokenIssuer signing_key (verifying_key signing_key) server_id)).

(** The claims of a token: [now] is the clock reading, [ttl] a [Duration]. *)
Definition relay_claims (now : Z) (subject relay_url : string) (ttl : Z) (binding_type binding_value : string)
    (i : TokenIssuer) : result string ServerClaims :=
  bail! "Relay token TTL must be greater than zero" when dur_is_zero ttl;
  bail! "System time is before UNIX_EPOCH" when now <? 0;
  let now := dur_as_secs now in
  let ttl_secs := dur_as_secs ttl in
  let ttl_total := if 0 <? dur_subsec_nanos ttl then saturating_add_u64 ttl_secs 1 else ttl_secs in
  bail! "Relay token TTL resolved to zero seconds" when ttl_total =? 0;
  exp ← ok_or (checked_add_u64 now ttl_total) "Token expiry overflow";
  Ok (mkServerClaims "handcontrol-server" subject relay_url exp now (uuid_to_string (ti_server_id i))
        (uuid_to_string (ti_server_id i)) binding_type binding_value ["connect"]).

Definition generate_relay_token (now : Z) (subject relay_url : string) (ttl : Z) (binding_type binding_value : string)
    (i : TokenIssuer) : result string string :=
  claims ← relay_claims now subject relay_url ttl binding_type binding_value i;
  pem ← ok_or (key_to_pem (ti_signing_key i)) "Failed to encode signing key as PEM";
  bail! "Failed to create encoding key from PEM" when negb (pem_is_encoding_key pem);
  ok_or (jwt_encode pem claims) "Failed to encode JWT token".

Definition public_key_pem (i : TokenIssuer) : result string string :=
  ok_or (public_pem (ti_verifying_key i)) "Failed to encode public key as PEM".

Definition public_key_base64 (i : TokenIssuer) : string := base64_encode (ti_verifying_key i).

(** ** Messages ([relay/mod.rs]) *)
Record RegisterMessage := mkRegisterMessage {
  rm_type : string;
  rm_server_id : string;
  rm_relay_secret : string;
  rm_server_version : string;
  rm_capabilities : list string;
  rm_public_key : string;
  rm_max_tunnels : option Z;
}.

Record ConnectMessage := mkConnectMessage {
  cm_type : string;
  cm_server_id : string;
  cm_relay_token : string;
  cm_client_id : string;
  cm_client_version : string;
}.

Definition build_register_payload (config : RelayConfig) (server_id : Uuid) (relay_secret public_key : string)
    (capabilities : list string) (server_version : string) : RegisterMessage :=
  mkRegisterMessage "register" (uuid_to_string server_id) relay_secret server_version capabilities public_key
    (rel_max_relay_tunnels config).

Definition build_connect_payload (server_id : Uuid) (relay_token : string) (client_id : Uuid) (client_version : string)
    : ConnectMessage :=
  mkConnectMessage "connect" (uuid_to_string server_id) relay_token (uuid_to_string client_id) client_version.

(** The life time of a token covers the requested duration, rounded up to whole
    seconds, and never wraps: the expiry is a [u64] or the call fails. *)
Lemma relay_claims_expiry now subject url ttl bt bv i c :
  0 <= ttl → relay_claims now subject url ttl bt bv i = Ok c →
  cl_iat c = dur_as_secs now ∧ cl_exp c <= U64_MAX ∧ cl_iat c < cl_exp c ∧
  (ttl <= U64_MAX * NANOS → ttl <= (cl_exp c - cl_iat c) * NANOS < ttl + NANOS).
Proof.
  intros Httl. unfold relay_claims. cbv zeta. rewrite !bail_then.
  intros (Hz%Z.eqb_neq & Hn%Z.ltb_ge & Ht%Z.eqb_neq & Hc).
  apply result_bind_ok in Hc as (exp & He & Hc). apply ok_or_ok in He.
  set (total := if 0 <? dur_subsec_nanos ttl then _ else _) in *. unfold checked_add_u64 in He.
  destruct (Z.leb_spec (dur_as_secs now + total) U64_MAX); simplify_eq. simpl.
  unfold dur_subsec_nanos, dur_as_secs, saturating_add_u64, U64_MAX in *. change NANOS with 1000000000 in *.
  pose proof (Z.div_mod ttl 1000000000 ltac:(lia)) as Hdm.
  pose proof (Z.mod_pos_bound ttl 1000000000 ltac:(lia)) as Hmod.
  pose proof (Z.div_pos ttl 1000000000 ltac:(lia) ltac:(lia)) as Hd.
  subst total. destruct (Z.ltb_spec 0 (ttl mod 1000000000)); split_and!; lia.
Qed.
End tokens.

(** ** Concrete instances *)
Definition demo_uuid : UuidText := {|
  uuid_to_string u := bits_of_pos (N.succ_pos u);
  uuid_parse s := Some (Pos.pred_N (pos_of_bits s));
|}.
Lemma demo_uuid_laws : @UuidTextLaws demo_uuid.
Proof. intros u. cbn. by rewrite pos_of_bits_of_pos, N.pos_pred_succ. Qed.

Definition enc_claims (c : ServerClaims) : string :=
  enc_fields [cl_iss c; cl_sub c; cl_aud c; enc_Z (cl_exp c); enc_Z (cl_iat c); cl_server_id c; cl_server_audience c;
    cl_binding_type c; cl_binding_value c; enc_fields (cl_permissions c)].
Definition dec_claims (s : string) : option ServerClaims :=
  l ← dec_fields s;
  match l with
  | [iss; sub; aud; exp; iat; sid; saud; bt; bv; perms] =>
      exp ← dec_Z exp; iat ← dec_Z iat; perms ← dec_fields perms;
      Some (mkServerClaims iss sub aud exp iat sid saud bt bv perms)
  | _ => None
  end.
Lemma dec_enc_claims c : dec_claims (enc_claims c) = Some c.
Proof.
  unfold dec_claims, enc_claims. rewrite dec_enc_fields. cbn. rewrite !dec_enc_Z. cbn. rewrite dec_enc_fields.
  by destruct c.
Qed.

(** Keys are padded to 32 bytes; tokens are unsigned. *)
Definition demo_tokens : TokenCrates := {|
  key_to_pem k := Some (String.string_of_list_byte k);
  key_from_pem s := Some (String.list_byte_of_string s);
  verifying_key k := take 32 (k ++ replicate 32 x00)%list;
  public_pem k := Some (String.string_of_list_byte k);
  pem_is_encoding_key _ := true;
  jwt_encode _ c := Some (enc_claims c);
  base64_encode := String.string_of_list_byte;
|}.
