(* ===== verification/Tunnel.v ===== *)
(** * A relay tunnel (relay/src/tunnel/state.rs, and the tunnel part of
    relay/src/main.rs)

    [TunnelState] is the readiness handshake.  A tunnel handle is shared by the
    two tasks that serve the client's and the server's WebSocket; each lock is
    held for one step only, so the handshake is a step machine in which the two
    tasks interleave between any two lock operations.  [Notify::notify_waiters]
    wakes the tasks that wait at that moment and leaves no trace for others. *)

From S2P Require Import Prelude RustStd ThirdParty.

Local Open Scope Z_scope.

Record TunnelState := mkTunnelState {
  tn_created_at : Z;
  tn_client_ready_at : option Z;
  tn_server_ready_at : option Z;
}.

Definition TunnelState_new (now : Z) : TunnelState := mkTunnelState now None None.

Definition is_fully_ready (t : TunnelState) : bool :=
  bool_decide (is_Some (tn_client_ready_at t)) && bool_decide (is_Some (tn_server_ready_at t)).

Definition mark_client_ready (now : Z) (t : TunnelState) : TunnelState * bool :=
  let t' := mkTunnelState (tn_created_at t) (Some now) (tn_server_ready_at t) in (t', is_fully_ready t').

Definition mark_server_ready (now : Z) (t : TunnelState) : TunnelState * bool :=
  let t' := mkTunnelState (tn_created_at t) (tn_client_ready_at t) (Some now) in (t', is_fully_ready t').

(** [Instant::duration_since] saturates at zero. *)
Definition tunnel_is_expired (now timeout : Z) (t : TunnelState) : bool :=
  (timeout <? Z.max 0 (now - tn_created_at t)) && negb (is_fully_ready t).

(** A WebSocket is a name. *)
Abbreviation WebSocket := N.

Record TunnelHandle := mkTunnelHandle {
  th_state : TunnelState;
  th_client_ws : option WebSocket;
  th_server_ws : option WebSocket;
  th_server_secret : option string;
}.

Definition TunnelHandle_new (now : Z) (server_secret : string) : TunnelHandle :=
  mkTunnelHandle (TunnelState_new now) None None (Some server_secret).

Definition set_client_ws (w : option WebSocket) (h : TunnelHandle) : TunnelHandle :=
  mkTunnelHandle (th_state h) w (th_server_ws h) (th_server_secret h).
Definition set_server_ws (w : option WebSocket) (h : TunnelHandle) : TunnelHandle :=
  mkTunnelHandle (th_state h) (th_client_ws h) w (th_server_secret h).
Definition set_tstate (t : TunnelState) (h : TunnelHandle) : TunnelHandle :=
  mkTunnelHandle t (th_client_ws h) (th_server_ws h) (th_server_secret h).

Definition take_client_socket (h : TunnelHandle) : TunnelHandle * option WebSocket :=
  (set_client_ws None h, th_client_ws h).
Definition take_server_socket (h : TunnelHandle) : TunnelHandle * option WebSocket :=
  (set_server_ws None h, th_server_ws h).

(** [subtle]'s comparison is the parameter [ct_eq]. *)
Definition verify_server_secret (ct_eq : string → string → bool) (provided : string) (h : TunnelHandle)
    : TunnelHandle * bool :=
  match th_server_secret h with
  | Some expected =>
      if ct_eq expected provided then
        (mkTunnelHandle (th_state h) (th_client_ws h) (th_server_ws h) None, true)
      else (h, false)
  | None => (h, false)
  end.

(** ** The two tasks *)
Inductive role := Client | Server.
#[export] Instance role_eq_dec : EqDecision role.
Proof. solve_decision. Defined.
Definition other (r : role) : role := match r with Client => Server | Server => Client end.

(** Whether [take_pair_if_ready] runs right after attaching or after a wake-up. *)
Inductive phase := First | Woken.

(** Where a task is, one constructor per lock operation, notification or
    decision. *)
Inductive tunnel_pc :=
  | PMark                             (* mark_{client,server}_ready *)
  | PNotifyReady                      (* notify_waiters *)
  | PAttach                           (* attach_{client,server}: store the socket *)
  | PNotifyAttached                   (* attach_{client,server}: notify_waiters *)
  | PTakeClient (p : phase)           (* take_pair_if_ready: take the client *)
  | PTakeServer (p : phase) (c : WebSocket) (* ... holding [c], take the server *)
  | PPutBack (p : phase) (c : WebSocket)    (* ... put [c] back *)
  | PUnpaired (p : phase)             (* no pair: wait, or look at the state *)
  | PWaiting                          (* notified().await *)
  | PTimedOut                         (* the wait timed out: look at the state *)
  | PCleanup                          (* take and close the own socket *)
  | PRemove                           (* remove_tunnel *)
  | PFinish                           (* client: disarm the guard or let it fire *)
  | PDone.

Record Handshake := mkHandshake {
  hs_handle : TunnelHandle;
  hs_in_map : bool;                   (* the relay still lists the tunnel *)
  hs_spawned : list (WebSocket * WebSocket);
  hs_closed : list (role * WebSocket);
  hs_client : tunnel_pc;
  hs_server : tunnel_pc;
}.

Definition pc_of (r : role) (s : Handshake) : tunnel_pc := match r with Client => hs_client s | Server => hs_server s end.
Definition set_pc (r : role) (p : tunnel_pc) (s : Handshake) : Handshake :=
  match r with
  | Client => mkHandshake (hs_handle s) (hs_in_map s) (hs_spawned s) (hs_closed s) p (hs_server s)
  | Server => mkHandshake (hs_handle s) (hs_in_map s) (hs_spawned s) (hs_closed s) (hs_client s) p
  end.
Definition set_handle (h : TunnelHandle) (s : Handshake) : Handshake :=
  mkHandshake h (hs_in_map s) (hs_spawned s) (hs_closed s) (hs_client s) (hs_server s).
Definition set_in_map (b : bool) (s : Handshake) : Handshake :=
  mkHandshake (hs_handle s) b (hs_spawned s) (hs_closed s) (hs_client s) (hs_server s).
Definition spawn_forwarders (c w : WebSocket) (s : Handshake) : Handshake :=
  mkHandshake (hs_handle s) (hs_in_map s) ((c, w) :: hs_spawned s) (hs_closed s) (hs_client s) (hs_server s).
Definition close_socket (r : role) (w : option WebSocket) (s : Handshake) : Handshake :=
  match w with
  | Some w => mkHandshake (hs_handle s) (hs_in_map s) (hs_spawned s) ((r, w) :: hs_closed s) (hs_client s) (hs_server s)
  | None => s
  end.

(** Only the other task can be waiting when a task notifies. *)
Definition notify_waiters (r : role) (s : Handshake) : Handshake :=
  match pc_of (other r) s with PWaiting => set_pc (other r) (PTakeClient Woken) s | _ => s end.

Definition mark_ready (r : role) (now : Z) (t : TunnelState) : TunnelState :=
  match r with Client => (mark_client_ready now t).1 | Server => (mark_server_ready now t).1 end.

(** After a wake-up that found the pair or found the tunnel active: the client's
    task still decides about its clean-up guard, the server's returns. *)
Definition leave (r : role) : tunnel_pc := match r with Client => PFinish | Server => PDone end.

(** One step of the task of role [r] whose socket is [ws]. *)
Definition tunnel_step (r : role) (now : Z) (ws : WebSocket) (s : Handshake) : Handshake :=
  let h := hs_handle s in
  match pc_of r s with
  | PMark => set_pc r PNotifyReady (set_handle (set_tstate (mark_ready r now (th_state h)) h) s)
  | PNotifyReady => set_pc r PAttach (notify_waiters r s)
  | PAttach =>
      set_pc r PNotifyAttached
        (set_handle (match r with Client => set_client_ws (Some ws) h | Server => set_server_ws (Some ws) h end) s)
  | PNotifyAttached => set_pc r (PTakeClient First) (notify_waiters r s)
  | PTakeClient p =>
      let '(h', c) := take_client_socket h in
      match c with
      | Some c => set_pc r (PTakeServer p c) (set_handle h' s)
      | None => set_pc r (PUnpaired p) s
      end
  | PTakeServer p c =>
      let '(h', w) := take_server_socket h in
      match w with
      | Some w => set_pc r (match p with First => PDone | Woken => leave r end) (spawn_forwarders c w (set_handle h' s))
      | None => set_pc r (PPutBack p c) s
      end
  | PPutBack p c => set_pc r (PUnpaired p) (set_handle (set_client_ws (Some c) h) s)
  | PUnpaired First => set_pc r PWaiting s
  | PUnpaired Woken => set_pc r (if is_fully_ready (th_state h) then leave r else PUnpaired First) s
  | PWaiting => s
  | PTimedOut => set_pc r (if is_fully_ready (th_state h) then leave r else PCleanup) s
  | PCleanup =>
      let '(h', w) := match r with Client => take_client_socket h | Server => take_server_socket h end in
      set_pc r PRemove (close_socket r w (set_handle h' s))
  | PRemove => set_pc r PDone (set_in_map false s)
  | PFinish => set_pc r PDone (if is_fully_ready (th_state h) then s else set_in_map false s)
  | PDone => s
  end.

(** The client's task is the second half of [handle_connect_socket], the server's
    that of [handle_tunnel_socket]. *)
Definition client_task_step (now : Z) (ws : WebSocket) (s : Handshake) : Handshake := tunnel_step Client now ws s.
Definition server_task_step (now : Z) (ws : WebSocket) (s : Handshake) : Handshake := tunnel_step Server now ws s.

(** The labels of a run: a step of a task, the time-out of a task, the end of the
    forwarding.  The time-out cancels the task where it awaits: the notification or, since
    it was woken, one of the locks that another task holds just then.  A client's
    socket that the task had in hand is dropped, and so closed. *)
Inductive tunnel_label :=
  | Step (r : role) (now : Z)
  | Expire (r : role)
  | ForwardingEnds.

Section run.
Context (client_ws server_ws : WebSocket).

Definition ws_of (r : role) : WebSocket := match r with Client => client_ws | Server => server_ws end.

Definition hs_step (s : Handshake) (l : tunnel_label) : Handshake :=
  match l with
  | Step Client now => client_task_step now client_ws s
  | Step Server now => server_task_step now server_ws s
  | Expire r =>
      match pc_of r s with
      | PWaiting | PTakeClient Woken | PUnpaired Woken => set_pc r PTimedOut s
      | PTakeServer Woken c | PPutBack Woken c => set_pc r PTimedOut (close_socket Client (Some c) s)
      | _ => s
      end
  | ForwardingEnds => match hs_spawned s with [] => s | _ => set_in_map false s end
  end.

Definition hs_run (ls : list tunnel_label) (s : Handshake) : Handshake := foldl hs_step s ls.

Definition hs_init (now : Z) (secret : string) : Handshake :=
  mkHandshake (TunnelHandle_new now secret) true [] [] PMark PMark.
End run.

(** ** Forwarding

    A WebSocket message of [axum]; a close frame is a code and a reason. *)
Inductive Message :=
  | Text (s : string)
  | Binary (b : bytes)
  | Ping (b : bytes)
  | Pong (b : bytes)
  | Close (frame : option (Z * string)).

(** One direction of a tunnel, on what the inbound stream yields until it ends;
    each item comes with the answer to the send that it may cause.  The result is
    what was handed to the outbound sink. *)
Fixpoint forward_stream (inbound : list (result string Message * bool)) : list Message * result string unit :=
  match inbound with
  | [] => ([Close None], Ok tt)
  | (Ok (Text _), _) :: rest => forward_stream rest
  | (Ok (Close frame), _) :: _ => ([Close frame; Close None], Ok tt)
  | (Ok m, true) :: rest => let '(out, r) := forward_stream rest in (m :: out, r)
  | (Ok _, false) :: _ => ([], Err "send failed"%string)
  | (Err e, _) :: _ => ([], Err e)
  end.

(** Both directions; the first error wins, the client's direction first.  In every
    case the tunnel is removed afterwards. *)
Definition forward_bidirectional (from_client from_server : list (result string Message * bool))
    : (list Message * list Message) * result string unit :=
  let '(to_server, c_res) := forward_stream from_client in
  let '(to_client, s_res) := forward_stream from_server in
  ((to_client, to_server), c_res ≫= λ _, s_res).

(** ** Where a socket is

    Each list below has one element per place that holds the socket of the role:
    the task that has not attached it yet, the slot of the handle, the local
    variable of a task inside [take_pair_if_ready], a running forwarder, or the
    sockets closed or dropped by a time-out. *)
Definition unattached (p : tunnel_pc) (w : WebSocket) : list WebSocket :=
  match p with PMark | PNotifyReady | PAttach => [w] | _ => [] end.
Definition held (p : tunnel_pc) : list WebSocket :=
  match p with PTakeServer _ c | PPutBack _ c => [c] | _ => [] end.
Definition closed_of (r : role) (s : Handshake) : list WebSocket :=
  snd <$> filter (λ x, x.1 = r) (hs_closed s).

Definition client_places (c : WebSocket) (s : Handshake) : list WebSocket :=
  unattached (hs_client s) c ++ option_list (th_client_ws (hs_handle s)) ++
  held (hs_client s) ++ held (hs_server s) ++ (hs_spawned s).*1 ++ closed_of Client s.
Definition server_places (w : WebSocket) (s : Handshake) : list WebSocket :=
  unattached (hs_server s) w ++ option_list (th_server_ws (hs_handle s)) ++
  (hs_spawned s).*2 ++ closed_of Server s.

Definition placed (c w : WebSocket) (s : Handshake) : Prop :=
  client_places c s = [c] ∧ server_places w s = [w].

(** Splits a list with one element into its parts. *)
Ltac split_places :=
  repeat match goal with
  | H : _ ++ _ = [_] |- _ => apply app_eq_unit in H as [[? ?]|[? ?]]
  | H : _ ++ _ = [] |- _ => apply app_eq_nil in H as [? ?]
  | H : _ :: _ = [_] |- _ => injection H as ?
  | H : option_list ?o = _ |- _ => destruct o; cbn in H; simplify_eq
  end.

(** Solves a step that moves one socket. *)
Ltac solve_move Hs Hp :=
  destruct Hs as [HC HS]; unfold placed, client_places, server_places, closed_of in *;
  match goal with s : Handshake |- _ => destruct s as [[ts [] [] sec] im sp cl pC pS] end;
  match goal with r : role |- _ => destruct r end; cbn in *; subst; cbn in *;
  split; cbn; repeat (case_decide; cbn; try done); split_places; simplify_eq;
  repeat match goal with
  | H : ?x = [] |- context [?x] => rewrite H
  | H : ?x = [_] |- context [?x] => rewrite H
  end; cbn; try done; f_equal; assumption.

Lemma pc_of_notify r s : pc_of r (notify_waiters r s) = pc_of r s.
Proof. destruct s, r; unfold notify_waiters; cbn; by case_match. Qed.

Lemma placed_notify c w r s : placed c w s → placed c w (notify_waiters r s).
Proof.
  destruct s as [h im sp cl pC pS], r; unfold notify_waiters; cbn; [destruct pS|destruct pC]; done.
Qed.

(** Moving a task between two points that hold no socket moves no socket. *)
Definition neutral (p p' : tunnel_pc) : Prop :=
  (∀ w, unattached p w = unattached p' w) ∧ held p = held p'.

Lemma placed_set_pc c w r p s : neutral (pc_of r s) p → placed c w s → placed c w (set_pc r p s).
Proof.
  intros [Hu Hh] [HC HS]. unfold placed, client_places, server_places, closed_of in *.
  destruct s as [h im sp cl pC pS], r; cbn in *; by rewrite <- ?Hu, <- ?Hh.
Qed.

Lemma placed_step c w s l : placed c w s → placed c w (hs_step c w s l).
Proof.
  intros Hs; destruct l as [r now|r|].
  - assert (hs_step c w s (Step r now) = tunnel_step r now (ws_of c w r) s) as -> by (by destruct r).
    unfold tunnel_step. destruct (pc_of r s) as [| | | |p|p x|p x|[]| | | | | |] eqn:Hp.
    + apply placed_set_pc; [by destruct s, r; cbn in *; subst|done].
    + apply placed_set_pc; [by rewrite pc_of_notify, Hp|by apply placed_notify].
    + solve_move Hs Hp.
    + apply placed_set_pc; [by rewrite pc_of_notify, Hp|by apply placed_notify].
    + solve_move Hs Hp.
    + destruct p; solve_move Hs Hp.
    + solve_move Hs Hp.
    + apply placed_set_pc; [by rewrite Hp|done].
    + apply placed_set_pc; [rewrite Hp; by destruct (is_fully_ready _), r|done].
    + done.
    + apply placed_set_pc; [rewrite Hp; by destruct (is_fully_ready _), r|done].
    + solve_move Hs Hp.
    + apply placed_set_pc; [by destruct s, r; cbn in *; subst|done].
    + apply placed_set_pc; [|by destruct (is_fully_ready _)].
      destruct (is_fully_ready _); [by rewrite Hp|by destruct s, r; cbn in *; subst].
    + done.
  - cbn. destruct (pc_of r s) as [| | | |[]|[] x|[] x|[]| | | | | |] eqn:Hp; try done; try (by apply placed_set_pc; [rewrite Hp|]);
      solve_move Hs Hp.
  - cbn. by destruct (hs_spawned s).
Qed.

Lemma placed_run c w ls s : placed c w s → placed c w (hs_run c w ls s).
Proof. revert s. induction ls as [|l ls IH]; intros s Hs; [done|]. by apply IH, placed_step. Qed.

Lemma placed_init c w now secret : placed c w (hs_init now secret).
Proof. done. Qed.

(** A pair that is being forwarded is the pair of this tunnel, and its sockets
    are nowhere else. *)
Lemma placed_spawned c w s : placed c w s →
  hs_spawned s = [] ∨
  hs_spawned s = [(c, w)] ∧ th_client_ws (hs_handle s) = None ∧ th_server_ws (hs_handle s) = None ∧
  hs_closed s = [].
Proof.
  destruct s as [[ts cw sw sec] im sp cl pC pS]; intros [HC HS].
  unfold client_places, server_places, closed_of in *; cbn in *.
  destruct sp as [|[c' w'] sp]; [by left|right]; cbn in *.
  split_places; simplify_eq; try (exfalso; by destruct sp).
  destruct sp; [|done]. split_and!; try done.
  destruct cl as [|[[] x] cl]; done.
Qed.

(** C16: Whatever the interleaving of the two handlers, their time-outs and the
    end of the forwarding, a tunnel starts forwarding at most once, between its
    own client and its own server; from then on neither socket is left in the
    handle or was closed, so nothing else can read from or write to them. *)
Theorem tunnel_pairs_once c w now secret ls :
  let s := hs_run c w ls (hs_init now secret) in
  hs_spawned s = [] ∨
  hs_spawned s = [(c, w)] ∧ th_client_ws (hs_handle s) = None ∧ th_server_ws (hs_handle s) = None ∧
  hs_closed s = [].
Proof. apply placed_spawned, placed_run, placed_init. Qed.

(** The four steps of attaching a socket and looking for the pair. *)
Definition attach_steps (r : role) (now : Z) : list tunnel_label := replicate 4 (Step r now).

(** The handler that attaches second activates the tunnel: if the other
    side's socket is in the handle when a handler reaches its attach operation
    and the operation is not interleaved with the other handler, the two sockets
    are forwarded to each other. *)
Lemma second_attach_activates c w now secret ls r now' :
  let s := hs_run c w ls (hs_init now secret) in
  pc_of r s = PAttach →
  (match r with Client => th_server_ws (hs_handle s) | Server => th_client_ws (hs_handle s) end) = Some (ws_of c w (other r)) →
  hs_spawned (hs_run c w (attach_steps r now') s) = [(c, w)].
Proof.
  intros s Hp Hslot.
  assert (Hpl : placed c w s) by apply placed_run, placed_init.
  destruct (placed_spawned c w s Hpl) as [Hsp|(_ & H1 & H2 & _)]; [|by destruct r; cbn in *; congruence].
  clearbody s. destruct s as [[ts cw sw sec] im sp cl pC pS], r; cbn in *; subst.
  - by destruct pS.
  - by destruct pC.
Qed.

(** The usual schedule: the client waits, the server arrives. *)
Definition server_arrives : list tunnel_label :=
  replicate 8 (Step Client 1) ++ replicate 2 (Step Server 2).

Lemma second_attach_activates_witness :
  hs_spawned (hs_run 7%N 8%N (attach_steps Server 3) (hs_run 7%N 8%N server_arrives (hs_init 0 "s"%string))) = [(7%N, 8%N)].
Proof. apply (second_attach_activates 7%N 8%N 0 "s"%string server_arrives Server 3); vm_compute; reflexivity. Defined.

(** When both handlers have returned and nothing is forwarded, nothing happens
    any more. *)
Lemma quiescent_run c w ls s :
  hs_client s = PDone → hs_server s = PDone → hs_spawned s = [] → hs_run c w ls s = s.
Proof.
  intros HC HS Hsp. induction ls as [|l ls IH]; [done|]. unfold hs_run in *; cbn [foldl].
  replace (hs_step c w s l) with s; [done|].
  destruct s, l as [[] ?|[]|]; cbn in *; by subst.
Qed.

(** C39: Attaching is not atomic: a wake-up can be lost.  The woken client's
    handler holds its own socket while it looks for the server's; if the server's
    handler attaches in that window it finds no client, the client's handler then
    sees both sides ready and leaves, and nothing wakes the server's handler
    again.  Both handlers return, both sockets stay in the handle, no forwarder
    runs and the relay keeps the tunnel for good. *)
Theorem tunnel_wakeup_lost c w now secret : ∃ ls,
  let s := hs_run c w ls (hs_init now secret) in
  hs_client s = PDone ∧ hs_server s = PDone ∧ hs_spawned s = [] ∧ hs_closed s = [] ∧
  th_client_ws (hs_handle s) = Some c ∧ th_server_ws (hs_handle s) = Some w ∧
  ∀ ls', hs_run c w ls' s = s.
Proof.
  exists (replicate 8 (Step Client 1) ++ replicate 2 (Step Server 2) ++ [Step Client 2; Step Client 2] ++
     replicate 4 (Step Server 3) ++ replicate 3 (Step Client 3) ++ [Expire Server; Step Server 4]).
  intros s. split_and!; try (vm_compute; reflexivity). intros ls'. by apply quiescent_run.
Qed.

Definition binary_payload (m : Message) : option bytes := match m with Binary b => Some b | _ => None end.
Definition inbound_message {B} (x : result string Message * B) : option Message :=
  match x.1 with Ok m => Some m | Err _ => None end.
Definition is_text (m : Message) : bool := match m with Text _ => true | _ => false end.
Definition is_close (m : Message) : bool := match m with Close _ => true | _ => false end.

Lemma forward_stream_prefix inb :
  omap binary_payload (forward_stream inb).1 `prefix_of` omap binary_payload (omap inbound_message inb).
Proof.
  induction inb as [|[[[s|b|b|b|f]|e] []] inb IH]; cbn; try done; try apply prefix_nil;
    destruct (forward_stream inb); cbn in *; try done. by apply prefix_cons.
Qed.

(** A tunnel relays faithfully.  Whatever fails, the binary frames handed to
    the other side are a prefix of those received, in order and unchanged; and as
    long as nothing fails and nobody closes, every frame but the text frames
    arrives, followed by a close. *)
Lemma forward_stream_faithful inb :
  omap binary_payload (forward_stream inb).1 `prefix_of` omap binary_payload (omap inbound_message inb) ∧
  ∀ ms, Forall (λ m, is_close m = false) ms →
    forward_stream ((λ m, (Ok m, true)) <$> ms) = (filter (λ m, is_text m = false) ms ++ [Close None], Ok tt).
Proof.
  split; [apply forward_stream_prefix|].
  induction 1 as [|m ms Hm _ IH]; [done|].
  cbn [fmap list_fmap]. rewrite filter_cons. destruct m; cbn in *; rewrite ?IH; done.
Qed.
