(* ===== verification/RelayState.v ===== *)
(** * The relay service (relay/src/config.rs, relay/src/main.rs)

    Configuration, the shared [AppState], and the three socket handlers up to the
    point where a tunnel's two handlers meet (that part is [Tunnel]).  JSON, JWT,
    base64, URLs and the constant-time comparison are crates: the class
    [RelayCrates].  A handler is split where it awaits while other handlers run:
    each piece is one atomic change of the shared state. *)

From S2P Require Import Prelude RustStd ThirdParty Fs Net SessionState RelayTokens Tunnel.

Local Open Scope string_scope.
Local Open Scope Z_scope.

(** ** Configuration *)
Record RelayConfig := mkRelayConfig {
  rc_bind_address : string;
  rc_port : Z;
  rc_handshake_timeout_seconds : Z;
  rc_public_hostname : option string;
  rc_registration_secrets : gmap Uuid string;
  rc_tls_cert_path : option string;
  rc_tls_key_path : option string;
}.

Definition default_bind_address : string := "0.0.0.0".
Definition default_port : Z := 443.
Definition default_handshake_timeout_seconds : Z := 5.

(** The table of a configuration file, each key absent or decoded. *)
Record RawRelayConfig := mkRawRelayConfig {
  rrc_bind_address : option string;
  rrc_port : option Z;
  rrc_handshake_timeout_seconds : option Z;
  rrc_public_hostname : option string;
  rrc_registration_secrets : option (gmap Uuid string);
  rrc_tls_cert_path : option string;
  rrc_tls_key_path : option string;
}.

Definition de_relay_config (r : RawRelayConfig) : RelayConfig :=
  mkRelayConfig (default default_bind_address (rrc_bind_address r)) (default default_port (rrc_port r))
    (default default_handshake_timeout_seconds (rrc_handshake_timeout_seconds r)) (rrc_public_hostname r)
    (default ∅ (rrc_registration_secrets r)) (rrc_tls_cert_path r) (rrc_tls_key_path r).

(** [toml::from_str] up to the table is the parameter [parse]. *)
Definition load_config (parse : string → option RawRelayConfig) (ans : bool) (path : string) (fs : FileSystem)
    : result string RelayConfig :=
  contents ← ok_or (fs_read_to_string ans path fs) (String.append "Failed to read " path);
  raw ← ok_or (parse contents) (String.append "Failed to parse relay config " path);
  Ok (de_relay_config raw).

Definition RELAY_CONFIG_DIR_ENV : string := "HANDCONTROL_RELAY_CONFIG_DIR".
Definition SHARED_CONFIG_DIR_ENV : string := "HANDCONTROL_CONFIG_DIR".
Definition RELAY_CONFIG_FILE : string := "relay.toml".

(** [env_config_dir]: panics ([None]) on an empty value or when the directory
    cannot be created. *)
Definition env_config_dir (env : string → option string) (mk : bool) (var : string) (fs : FileSystem)
    : option (FileSystem * option string) :=
  match env var with
  | None => Some (fs, None)
  | Some dir =>
      if str_is_empty dir then None
      else let '(fs', ok) := fs_create_dir_all mk dir fs in if ok then Some (fs', Some dir) else None
  end.

Definition default_config_path (env : string → option string) (mk1 mk2 : bool) (fs : FileSystem)
    : option (FileSystem * string) :=
  '(fs1, d1) ← env_config_dir env mk1 RELAY_CONFIG_DIR_ENV fs;
  match d1 with
  | Some dir => Some (fs1, path_join dir RELAY_CONFIG_FILE)
  | None =>
      '(fs2, d2) ← env_config_dir env mk2 SHARED_CONFIG_DIR_ENV fs1;
      match d2 with
      | Some dir => Some (fs2, path_join dir RELAY_CONFIG_FILE)
      | None => Some (fs2, RELAY_CONFIG_FILE)
      end
  end.

(** ** Messages *)
Record RegisterPayload := mkRegisterPayload {
  rp_type : string;
  rp_server_id : string;
  rp_relay_secret : string;
  rp_server_version : string;
  rp_capabilities : list string;
  rp_public_key : string;
  rp_max_tunnels : option Z;
  rp_tls_authority : option string;
}.

Record ConnectPayload := mkConnectPayload {
  cp_type : string;
  cp_server_id : string;
  cp_relay_token : string;
  cp_client_id : string;
  cp_client_version : string;
}.

Record ConnectAck := mkConnectAck {
  ca_tunnel_id : string;
  ca_relay_host : string;
  ca_expires_at : Z;
  ca_server_authority : option string;
}.

Record TunnelReadyPayload := mkTunnelReadyPayload {
  tr_type : string;
  tr_tunnel_id : string;
  tr_role : string;
}.

Record TunnelQuery := mkTunnelQuery { tq_role : option string; tq_token : option string }.

Record RelayClaims := mkRelayClaims {
  rcl_iss : string;
  rcl_sub : string;
  rcl_aud : string;
  rcl_exp : Z;
  rcl_iat : Z;
  rcl_server_id : string;
  rcl_server_audience : option string;
  rcl_binding_type : option string;
  rcl_binding_value : option string;
  rcl_permissions : list string;
}.

(** What a handler sends on its socket; the JSON objects are their fields. *)
Inductive Reply :=
  | RegisterAckOk (retry_after_seconds : Z)
  | RegisterAckError (error : string)
  | ConnectAckOk (a : ConnectAck)
  | ConnectAckError (error : string)
  | CloseFrame (code : Z) (reason : string)
  | CloseSocket
  | OpenTunnelCommand (tunnel_id client_id : string) (preferred_protocol : string) (expires_at : Z) (server_secret : string)
  | PongReply (b : bytes).

Class RelayCrates := {
  parse_register : string → option RegisterPayload;
  parse_connect : string → option ConnectPayload;
  parse_ready : string → option TunnelReadyPayload;
  ct_eq : string → string → bool;
  base64_decode : string → option bytes;
  base64url_encode : bytes → string;
  from_ed_components : string → option bytes;
  (** [decode] for EdDSA without audience validation, at a clock reading. *)
  jwt_decode : Z → string → bytes → option RelayClaims;
  (** [Url::parse]: host and explicit port. *)
  url_parse : string → option (option string * option Z);
}.

(** ** State *)
Record RegisteredServer := mkRegisteredServer {
  rs_registration_id : Uuid;
  rs_control_tx : N;                    (* name of the control channel *)
  rs_decoding_key : bytes;
  rs_tls_authority : option string;
}.

Record AppState := mkAppState {
  as_listen_addr : string;
  as_listen_port : Z;
  as_relay_host : string;
  as_secrets : gmap Uuid string;
  as_registered_servers : gmap Uuid RegisteredServer;
  as_tunnels : gmap Uuid TunnelHandle;
  as_handshake_timeout : Z;             (* seconds *)
}.

Definition set_servers (m : gmap Uuid RegisteredServer) (st : AppState) : AppState :=
  mkAppState (as_listen_addr st) (as_listen_port st) (as_relay_host st) (as_secrets st) m (as_tunnels st)
    (as_handshake_timeout st).
Definition set_tunnels (m : gmap Uuid TunnelHandle) (st : AppState) : AppState :=
  mkAppState (as_listen_addr st) (as_listen_port st) (as_relay_host st) (as_secrets st) (as_registered_servers st) m
    (as_handshake_timeout st).

(** The local address the kernel chose for the route, if any. *)
Definition detect_default_route_ip_v4 (local_addr : option IpAddr) : option string :=
  ip ← local_addr; if ip_is_unspecified ip then None else Some (ip_to_string ip).
Definition detect_default_route_ip_v6 (local_addr : option IpAddr) : option string :=
  ip ← local_addr; if ip_is_unspecified ip then None else Some (ip_to_string ip).
Definition detect_default_route_ip (v6 v4 : option IpAddr) : option string :=
  match detect_default_route_ip_v6 v6 with
  | Some s => Some s
  | None => detect_default_route_ip_v4 v4
  end.

Definition fallback_public_host (bind_address : string) : string :=
  match parse_ip bind_address with
  | Some ip =>
      if ip_is_unspecified ip then match ip with V4 _ => "127.0.0.1" | V6 _ => "::1" end
      else ip_to_string ip
  | None => bind_address
  end.

Definition listen_addr_of (bind_address : string) (port : Z) : string :=
  let plain := String.append bind_address (String.append ":" (pretty port)) in
  let bracketed := String.append "[" (String.append bind_address (String.append "]:" (pretty port))) in
  match parse_ip bind_address with
  | Some (V6 _) => bracketed
  | Some (V4 _) => plain
  | None =>
      if str_contains_char ":"%char bind_address && negb (str_contains_char "["%char bind_address)
      then bracketed else plain
  end.

Definition AppState_new (v6 v4 : option IpAddr) (config : RelayConfig) : AppState :=
  let bind_address := rc_bind_address config in
  let named := host ← rc_public_hostname config; let trimmed := trim host in
               if str_is_empty trimmed then None else Some trimmed in
  let relay_host :=
    match named with
    | Some h => h
    | None => default (fallback_public_host bind_address) (detect_default_route_ip v6 v4)
    end in
  mkAppState (listen_addr_of bind_address (rc_port config)) (rc_port config) relay_host
    (rc_registration_secrets config) ∅ ∅ (Z.max (rc_handshake_timeout_seconds config) 1).

(** The part of [main] that decides how to serve. *)
Definition tls_mode (config : RelayConfig) : result string (option (string * string)) :=
  match rc_tls_cert_path config, rc_tls_key_path config with
  | Some c, Some k => Ok (Some (c, k))
  | None, None => Ok None
  | _, _ => Err "Both tls_cert_path and tls_key_path must be specified for TLS, or neither for plain HTTP"
  end.

Definition upsert_server (server_id : Uuid) (server : RegisteredServer) (st : AppState) : AppState :=
  set_servers (<[server_id := server]> (as_registered_servers st)) st.

Definition remove_server_if_current (server_id registration_id : Uuid) (st : AppState) : AppState :=
  let should_remove :=
    match as_registered_servers st !! server_id with
    | Some entry => bool_decide (rs_registration_id entry = registration_id)
    | None => false
    end in
  if should_remove then set_servers (delete server_id (as_registered_servers st)) st else st.

Definition server_entry (server_id : Uuid) (st : AppState) : option RegisteredServer :=
  as_registered_servers st !! server_id.

Definition get_tunnel (tunnel_id : Uuid) (st : AppState) : option TunnelHandle := as_tunnels st !! tunnel_id.
Definition remove_tunnel (tunnel_id : Uuid) (st : AppState) : AppState :=
  set_tunnels (delete tunnel_id (as_tunnels st)) st.

(** [SystemTime::now() + timeout] as Unix seconds; 0 out of range. *)
Definition tunnel_expires_at (now timeout : Z) : Z :=
  let deadline := now + timeout * NANOS in
  if (deadline / NANOS <=? I64_MAX) && (0 <=? deadline) then dur_as_secs deadline else 0.

Section relay.
Context `{RelayCrates, TokenCrates, UuidText}.

Definition validate_secret (server_id : Uuid) (provided : string) (st : AppState) : bool :=
  match as_secrets st !! server_id with Some expected => ct_eq expected provided | None => false end.

(** [secret_bytes] are the bytes the random generator fills. *)
Definition create_tunnel (tunnel_id : Uuid) (now : Z) (secret_bytes : bytes) (st : AppState) : AppState * string :=
  let server_secret := base64_encode secret_bytes in
  (set_tunnels (<[tunnel_id := TunnelHandle_new now server_secret]> (as_tunnels st)) st, server_secret).

Definition is_allowed_audience (audience : string) (st : AppState) : bool :=
  let aud := trim audience in
  let host_with_port := String.append (as_relay_host st) (String.append ":" (pretty (as_listen_port st))) in
  eq_ignore_ascii_case aud (as_relay_host st) || eq_ignore_ascii_case aud host_with_port ||
  match url_parse aud with
  | Some (Some host, port) =>
      eq_ignore_ascii_case host (as_relay_host st) &&
      match port with Some port => port =? as_listen_port st | None => true end
  | _ => false
  end.

(** How a handler stops early: with an error of its own, or after telling the
    peer the reason and closing the socket. *)
Inductive refusal := Bail (e : string) | Refuse (error : string).

(** [let Some(Ok(Message::Text(payload))) = socket.recv().await else ...] *)
Definition recv_text (recv : option (result string Message)) : option string :=
  match recv with Some (Ok (Text p)) => Some p | _ => None end.

(** ** [handle_register_socket] *)
Record registration := mkRegistration {
  reg_server_id : Uuid;
  reg_decoding_key : bytes;
  reg_tls_authority : option string;
}.

Definition register_check (recv : option (result string Message)) (st : AppState) : result refusal registration :=
  payload ← ok_or (recv_text recv) (Bail "register socket closed before payload");
  msg ← ok_or (parse_register payload) (Bail "Failed to parse register payload");
  bail! Bail (String.append "unexpected message type " (rp_type msg)) when bool_decide (rp_type msg ≠ "register");
  server_id ← ok_or (uuid_parse (rp_server_id msg)) (Bail "invalid server_id");
  bail! Refuse "unauthorized" when negb (validate_secret server_id (rp_relay_secret msg) st);
  raw_key ← ok_or (base64_decode (rp_public_key msg)) (Bail "public_key is not valid base64");
  bail! Bail "public_key must be 32 bytes (Ed25519)" when bool_decide (length raw_key ≠ 32%nat);
  decoding_key ← ok_or (from_ed_components (base64url_encode raw_key)) (Bail "failed to create decoding key from public key");
  let tls_authority := v ← rp_tls_authority msg; if str_is_empty (trim v) then None else Some (trim v) in
  Ok (mkRegistration server_id decoding_key tls_authority).

(** Up to the registration: [ack_ok] answers sending the acknowledgement,
    [registration_id] and [control_tx] are fresh.  [Ok (Some id)] enters the
    control loop. *)
Definition register_begin (recv : option (result string Message)) (ack_ok : bool) (registration_id : Uuid) (control_tx : N)
    (st : AppState) : AppState * list Reply * result string (option Uuid) :=
  match register_check recv st with
  | Err (Bail e) => (st, [], Err e)
  | Err (Refuse error) => (st, [RegisterAckError error; CloseSocket], Ok None)
  | Ok r =>
      if ack_ok then
        (upsert_server (reg_server_id r)
           (mkRegisteredServer registration_id control_tx (reg_decoding_key r) (reg_tls_authority r)) st,
         [RegisterAckOk 0], Ok (Some (reg_server_id r)))
      else (st, [], Err "send failed")
  end.

(** A command for the server, as [ServerCommand::into_message] writes it. *)
Record OpenTunnel := mkOpenTunnel {
  ot_tunnel_id : Uuid;
  ot_client_id : Uuid;
  ot_preferred_protocol : string;
  ot_expires_at : Z;
  ot_server_secret : string;
}.
Definition into_message (c : OpenTunnel) : Reply :=
  OpenTunnelCommand (uuid_to_string (ot_tunnel_id c)) (uuid_to_string (ot_client_id c)) (ot_preferred_protocol c)
    (ot_expires_at c) (ot_server_secret c).

(** What the [select!] of the control loop sees. *)
Inductive control_event :=
  | ControlCommand (cmd : option OpenTunnel) (send_ok : bool)
  | ControlFrame (m : option (result string Message)).

Fixpoint control_loop (evs : list control_event) : list Reply :=
  match evs with
  | [] => []
  | ControlCommand (Some cmd) ok :: evs' => if ok then into_message cmd :: control_loop evs' else []
  | ControlCommand None _ :: _ => []
  | ControlFrame (Some (Ok (Ping ping))) :: evs' => PongReply ping :: control_loop evs'
  | ControlFrame (Some (Ok (Close _))) :: _ => []
  | ControlFrame None :: _ => []
  | ControlFrame (Some (Ok _)) :: evs' => control_loop evs'
  | ControlFrame (Some (Err _)) :: _ => []
  end.

(** The whole handler; [during] is what the other handlers do to the shared
    state while the control loop runs. *)
Definition handle_register_socket (recv : option (result string Message)) (ack_ok : bool) (registration_id : Uuid)
    (control_tx : N) (evs : list control_event) (during : AppState → AppState) (st : AppState)
    : AppState * list Reply * result string unit :=
  let '(st1, out, r) := register_begin recv ack_ok registration_id control_tx st in
  match r with
  | Ok (Some server_id) =>
      (remove_server_if_current server_id registration_id (during st1), (out ++ control_loop evs)%list, Ok tt)
  | Ok None => (st1, out, Ok tt)
  | Err e => (st1, out, Err e)
  end.

(** ** [handle_connect_socket] *)
Record connection := mkConnection {
  cn_server_id : Uuid;
  cn_client_id : Uuid;
  cn_entry : RegisteredServer;
}.

(** The parsed request: the message, the server and the client. *)
Definition connect_request (recv : option (result string Message)) : result refusal (ConnectPayload * Uuid * Uuid) :=
  payload ← ok_or (recv_text recv) (Bail "connect socket closed before payload");
  msg ← ok_or (parse_connect payload) (Bail "Failed to parse connect payload");
  bail! Bail (String.append "unexpected message type " (cp_type msg)) when bool_decide (cp_type msg ≠ "connect");
  server_id ← ok_or (uuid_parse (cp_server_id msg)) (Bail "invalid server_id");
  client_id ← ok_or (uuid_parse (cp_client_id msg)) (Bail "invalid client_id");
  Ok (msg, server_id, client_id).

Definition check_binding (claims : RelayClaims) (client_id_str : string) : result refusal unit :=
  let binding_type := default "client_id" (rcl_binding_type claims) in
  let binding_value := default (rcl_sub claims) (rcl_binding_value claims) in
  bail! Refuse "binding_mismatch" when bool_decide (rcl_sub claims ≠ binding_value);
  bail! Refuse "client_mismatch" when bool_decide (rcl_sub claims ≠ client_id_str);
  if bool_decide (binding_type = "client_id") then
    bail_if (bool_decide (binding_value ≠ client_id_str)) (Refuse "binding_mismatch")
  else if bool_decide (binding_type = "enrollment_token") then
    bail_if (bool_decide (binding_value ≠ client_id_str)) (Refuse "binding_mismatch")
  else Err (Refuse "invalid_token").

Definition check_server_claims (claims : RelayClaims) (server_id : Uuid) : result refusal unit :=
  claims_server ← ok_or (uuid_parse (rcl_server_id claims)) (Refuse "invalid_token");
  bail! Refuse "server_mismatch" when bool_decide (claims_server ≠ server_id);
  let server_audience := default (rcl_server_id claims) (rcl_server_audience claims) in
  audience_uuid ← ok_or (uuid_parse server_audience) (Refuse "invalid_token");
  bail_if (bool_decide (audience_uuid ≠ server_id)) (Refuse "server_mismatch").

Definition connect_check (now : Z) (recv : option (result string Message)) (st : AppState) : result refusal connection :=
  '(msg, server_id, client_id) ← connect_request recv;
  entry ← ok_or (server_entry server_id st) (Refuse "server_not_registered");
  claims ← ok_or (jwt_decode now (cp_relay_token msg) (rs_decoding_key entry)) (Refuse "invalid_token");
  bail! Refuse "invalid_token" when negb (is_allowed_audience (rcl_aud claims) st);
  _ ← check_binding claims (uuid_to_string client_id);
  _ ← check_server_claims claims server_id;
  bail! Refuse "permission_denied" when negb (bool_decide ("connect" ∈ rcl_permissions claims));
  Ok (mkConnection server_id client_id entry).

(** The check of a [tunnel_ready] message. *)
Definition ready_check (role : string) (tunnel_id : Uuid) (recv : option (result string Message))
    (closed unparsable invalid : string) : result string unit :=
  payload ← ok_or (recv_text recv) closed;
  ready ← ok_or (parse_ready payload) unparsable;
  bail_if (bool_decide (tr_type ready ≠ "tunnel_ready") || bool_decide (tr_role ready ≠ role)
           || bool_decide (tr_tunnel_id ready ≠ uuid_to_string tunnel_id)) invalid.

(** What the network and the peer answer while a tunnel is being opened. *)
Record connect_answers := mkConnectAnswers {
  an_control_ok : bool;                 (* the control channel took the command *)
  an_ack_ok : bool;
  an_ready : option (result string Message);
}.

(** From the accepted request to the point where the client's task enters the
    handshake ([Ok (Some _)]): the tunnel is created and announced; every failure
    removes it, by hand or through the clean-up guard. *)
Definition connect_open (now : Z) (tunnel_id : Uuid) (secret_bytes : bytes) (an : connect_answers) (cn : connection)
    (st : AppState) : AppState * list Reply * list OpenTunnel * result string (option Uuid) :=
  let '(st1, server_secret) := create_tunnel tunnel_id now secret_bytes st in
  let expires_at := tunnel_expires_at now (as_handshake_timeout st) in
  let cmd := mkOpenTunnel tunnel_id (cn_client_id cn) "binary" expires_at server_secret in
  if an_control_ok an then
    let ack := mkConnectAck (uuid_to_string tunnel_id) (as_relay_host st) expires_at (rs_tls_authority (cn_entry cn)) in
    if an_ack_ok an then
      match ready_check "client" tunnel_id (an_ready an) "client closed before tunnel_ready"
              "Failed to parse tunnel_ready" "invalid tunnel_ready payload from client" with
      | Ok _ => (st1, [ConnectAckOk ack], [cmd], Ok (Some tunnel_id))
      | Err e => (remove_tunnel tunnel_id st1, [ConnectAckOk ack], [cmd], Err e)
      end
    else (remove_tunnel tunnel_id st1, [], [cmd], Err "send failed")
  else (remove_tunnel tunnel_id st1, [ConnectAckError "server_unreachable"; CloseSocket], [], Ok None).

Definition handle_connect_socket (now : Z) (recv : option (result string Message)) (tunnel_id : Uuid)
    (secret_bytes : bytes) (an : connect_answers) (st : AppState)
    : AppState * list Reply * list OpenTunnel * result string (option Uuid) :=
  match connect_check now recv st with
  | Err (Bail e) => (st, [], [], Err e)
  | Err (Refuse error) => (st, [ConnectAckError error; CloseSocket], [], Ok None)
  | Ok cn => connect_open now tunnel_id secret_bytes an cn st
  end.

(** ** [tunnel_handler] and [handle_tunnel_socket], up to the handshake *)
Definition CLOSE_NORMAL : Z := 1000.
Definition CLOSE_PROTOCOL : Z := 1002.
Definition CLOSE_POLICY : Z := 1008.

Definition tunnel_auth (tunnel_id : Uuid) (query : TunnelQuery) (st : AppState) : AppState * list Reply * bool :=
  match get_tunnel tunnel_id st with
  | None => (st, [CloseFrame CLOSE_PROTOCOL "unknown_tunnel"], false)
  | Some entry =>
      if bool_decide (tq_role query ≠ Some "server") then
        (remove_tunnel tunnel_id st, [CloseFrame CLOSE_POLICY "invalid_role"], false)
      else
        match tq_token query with
        | None => (remove_tunnel tunnel_id st, [CloseFrame CLOSE_POLICY "missing_token"], false)
        | Some token =>
            let '(entry', ok) := verify_server_secret ct_eq token entry in
            if ok then (set_tunnels (<[tunnel_id := entry']> (as_tunnels st)) st, [], true)
            else (remove_tunnel tunnel_id st, [CloseFrame CLOSE_POLICY "invalid_token"], false)
        end
  end.

(** [Ok true] enters the handshake; an error removes the tunnel. *)
Definition tunnel_handler (tunnel_id : string) (query : TunnelQuery) (ready : option (result string Message)) (st : AppState)
    : AppState * list Reply * result string bool :=
  match uuid_parse tunnel_id with
  | None => (st, [], Ok false)
  | Some tunnel_id =>
      let '(st1, out, ok) := tunnel_auth tunnel_id query st in
      if ok then
        match ready_check "server" tunnel_id ready "server tunnel closed before tunnel_ready"
                "Failed to parse tunnel_ready from server" "invalid tunnel_ready payload from server" with
        | Ok _ => (st1, out, Ok true)
        | Err e => (remove_tunnel tunnel_id st1, out, Err e)
        end
      else (st1, out, Ok false)
  end.
End relay.

(** What the theorems rely on in the crates. *)
Definition relay_view (c : ServerClaims) : RelayClaims :=
  mkRelayClaims (cl_iss c) (cl_sub c) (cl_aud c) (cl_exp c) (cl_iat c) (cl_server_id c) (Some (cl_server_audience c))
    (Some (cl_binding_type c)) (Some (cl_binding_value c)) (cl_permissions c).

Class RelayLaws `{RelayCrates, TokenCrates} := {
  ct_eq_spec a b : ct_eq a b = true ↔ a = b;
  base64_roundtrip b : base64_decode (base64_encode b) = Some b;
  ed_components_roundtrip k : length k = 32%nat → from_ed_components (base64url_encode k) = Some k;
  verifying_key_length sk : length (verifying_key sk) = 32%nat;
  (** A signed token verifies under the matching key until it expires, and the
      claims read back are those signed. *)
  jwt_roundtrip sk pem c tok now : key_to_pem sk = Some pem → jwt_encode pem c = Some tok →
    dur_as_secs now <= cl_exp c → jwt_decode now tok (verifying_key sk) = Some (relay_view c);
}.

(** Performs a check whose outcome has been rewritten. *)
Ltac pass := cbn [ok_or mbind result_bind bail_if negb].

Section relay_theorems.
Context `{RelayCrates, TokenCrates, UuidText}.

(** The request of a connection is authorised: its token is signed by the
    registered server, meant for this relay and this server, bound to the client
    that presents it, and grants connecting. *)
Definition connect_authorized (now : Z) (recv : option (result string Message)) (st : AppState) (cn : connection) : Prop :=
  ∃ payload msg claims,
    recv = Some (Ok (Text payload)) ∧ parse_connect payload = Some msg ∧ cp_type msg = "connect" ∧
    uuid_parse (cp_server_id msg) = Some (cn_server_id cn) ∧ uuid_parse (cp_client_id msg) = Some (cn_client_id cn) ∧
    server_entry (cn_server_id cn) st = Some (cn_entry cn) ∧
    jwt_decode now (cp_relay_token msg) (rs_decoding_key (cn_entry cn)) = Some claims ∧
    is_allowed_audience (rcl_aud claims) st = true ∧
    rcl_sub claims = uuid_to_string (cn_client_id cn) ∧
    (∀ v, rcl_binding_value claims = Some v → v = rcl_sub claims) ∧
    (∀ t, rcl_binding_type claims = Some t → t = "client_id" ∨ t = "enrollment_token") ∧
    uuid_parse (rcl_server_id claims) = Some (cn_server_id cn) ∧
    uuid_parse (default (rcl_server_id claims) (rcl_server_audience claims)) = Some (cn_server_id cn) ∧
    "connect" ∈ rcl_permissions claims.

Lemma connect_request_ok recv msg sid cid : connect_request recv = Ok (msg, sid, cid) ↔
  ∃ payload, recv = Some (Ok (Text payload)) ∧ parse_connect payload = Some msg ∧ cp_type msg = "connect" ∧
    uuid_parse (cp_server_id msg) = Some sid ∧ uuid_parse (cp_client_id msg) = Some cid.
Proof.
  split.
  - unfold connect_request. intros Hc. apply result_bind_ok in Hc as (payload & Hp%ok_or_ok & Hc).
    apply result_bind_ok in Hc as (msg' & Hm%ok_or_ok & Hc). apply bail_then in Hc as [Ht Hc].
    apply result_bind_ok in Hc as (sid' & Hsid%ok_or_ok & Hc).
    apply result_bind_ok in Hc as (cid' & Hcid%ok_or_ok & Hc). injection Hc as -> -> ->.
    rewrite bool_decide_ne_false in Ht. exists payload. split_and!; try done.
    by destruct recv as [[[]|]|]; simplify_eq/=.
  - intros (payload & -> & Hm & Ht & Hsid & Hcid). unfold connect_request. cbn [recv_text]; pass.
    rewrite Hm; pass. rewrite (bool_decide_ne_false_2 _ _ Ht); pass. rewrite Hsid; pass. by rewrite Hcid.
Qed.

Lemma check_binding_ok claims id : check_binding claims id = Ok tt ↔
  rcl_sub claims = id ∧ (∀ v, rcl_binding_value claims = Some v → v = rcl_sub claims) ∧
  (∀ t, rcl_binding_type claims = Some t → t = "client_id" ∨ t = "enrollment_token").
Proof.
  unfold check_binding. cbv zeta. rewrite !bail_then, !bool_decide_ne_false. split.
  - intros (Hbv & Hsub & Hbt). split_and!; [done| |].
    + intros v Hv. by rewrite Hv in Hbv.
    + intros t Ht. rewrite Ht in Hbt. cbn in Hbt. repeat case_bool_decide; auto; done.
  - intros (Hsub & Hbv & Hbt).
    assert (default (rcl_sub claims) (rcl_binding_value claims) = rcl_sub claims) as ->
      by (destruct (rcl_binding_value claims); cbn; auto).
    split_and!; try done. rewrite (bool_decide_ne_false_2 _ _ Hsub). destruct (rcl_binding_type claims) as [t|]; [|done].
    by destruct (Hbt t eq_refl) as [-> | ->].
Qed.

Lemma check_server_claims_ok claims sid : check_server_claims claims sid = Ok tt ↔
  uuid_parse (rcl_server_id claims) = Some sid ∧
  uuid_parse (default (rcl_server_id claims) (rcl_server_audience claims)) = Some sid.
Proof.
  unfold check_server_claims. cbv zeta. split.
  - intros Hc. apply result_bind_ok in Hc as (csid & Hcs%ok_or_ok & Hc). apply bail_then in Hc as [Heq Hc].
    apply result_bind_ok in Hc as (aid & Has%ok_or_ok & Hc). apply bail_if_ok in Hc.
    rewrite bool_decide_ne_false in Heq, Hc. by subst.
  - intros [-> ->]; pass. by rewrite !(bool_decide_ne_false_2 _ _ eq_refl).
Qed.

Lemma connect_check_ok now recv st cn : connect_check now recv st = Ok cn ↔ connect_authorized now recv st cn.
Proof.
  unfold connect_check, connect_authorized. split.
  - intros Hc. apply result_bind_ok in Hc as ([[msg sid] cid] & Hr & Hc).
    apply connect_request_ok in Hr as (payload & -> & Hm & Ht & Hsid & Hcid).
    apply result_bind_ok in Hc as (entry & He%ok_or_ok & Hc).
    apply result_bind_ok in Hc as (claims & Hcl%ok_or_ok & Hc).
    rewrite !unit_then, check_binding_ok, check_server_claims_ok, !bail_if_ok, !negb_false_iff, bool_decide_eq_true in Hc.
    destruct Hc as (Haud & (Hsub & Hbv & Hbt) & (Hcs & Has) & Hperm & [= <-]). by exists payload, msg, claims.
  - intros (payload & msg & claims & -> & Hm & Ht & Hsid & Hcid & He & Hcl & Haud & Hsub & Hbv & Hbt & Hcs & Has & Hperm).
    rewrite (proj2 (connect_request_ok _ msg (cn_server_id cn) (cn_client_id cn))) by (by exists payload); pass.
    rewrite He; pass. rewrite Hcl; pass. rewrite Haud; pass.
    rewrite (proj2 (check_binding_ok _ _)) by done; pass. rewrite (proj2 (check_server_claims_ok _ _)) by done; pass.
    rewrite bool_decide_eq_true_2 by done. by destruct cn.
Qed.

(** A valid [tunnel_ready] message of the client. *)
Definition client_ready (tunnel_id : Uuid) (recv : option (result string Message)) : Prop :=
  ∃ payload ready, recv = Some (Ok (Text payload)) ∧ parse_ready payload = Some ready ∧
    ready = mkTunnelReadyPayload "tunnel_ready" (uuid_to_string tunnel_id) "client".

Lemma ready_check_ok tid recv e1 e2 e3 : ready_check "client" tid recv e1 e2 e3 = Ok tt ↔ client_ready tid recv.
Proof.
  unfold ready_check, client_ready. split.
  - intros Hr. apply result_bind_ok in Hr as (p & Hp%ok_or_ok & Hr).
    apply result_bind_ok in Hr as ([ty id ro] & Hrd%ok_or_ok & Hr). apply bail_if_ok in Hr. cbn in Hr.
    rewrite !orb_false_iff, !bool_decide_ne_false in Hr. destruct Hr as [[-> ->] ->].
    exists p. eexists. split_and!; [|done|done]. by destruct recv as [[[]|]|]; simplify_eq/=.
  - intros (p & r & -> & Hrd & ->). cbn [recv_text]; pass. rewrite Hrd; pass. cbn [tr_type tr_role tr_tunnel_id].
    by rewrite !(bool_decide_ne_false_2 _ _ eq_refl).
Qed.

(** The tunnel exists after [connect_open] exactly when every answer was good. *)
Lemma connect_open_tunnel now tid secret an cn st st' out cmds r :
  connect_open now tid secret an cn st = (st', out, cmds, r) →
  as_registered_servers st' = as_registered_servers st ∧
  (∀ cmd, cmd ∈ cmds → ot_client_id cmd = cn_client_id cn) ∧
  (∀ tid', tid' ≠ tid → get_tunnel tid' st' = get_tunnel tid' st) ∧
  (is_Some (get_tunnel tid st') ↔
     an_control_ok an = true ∧ an_ack_ok an = true ∧ client_ready tid (an_ready an)).
Proof.
  rewrite <- (ready_check_ok tid (an_ready an) "client closed before tunnel_ready"
    "Failed to parse tunnel_ready" "invalid tunnel_ready payload from client").
  unfold connect_open, create_tunnel, remove_tunnel, get_tunnel. cbv zeta beta iota.
  destruct (an_control_ok an), (an_ack_ok an); [destruct (ready_check _ _ _ _ _ _) as [[]|]|..];
    intros ?; simplify_eq; cbn; split_and!; try done.
  all: try (intros cmd [= ->]%list_elem_of_singleton; done).
  all: try (intros cmd []%not_elem_of_nil).
  all: try (intros tid' Hne; by rewrite ?lookup_delete_ne, lookup_insert_ne).
  all: rewrite ?lookup_delete_eq, ?lookup_insert_eq; naive_solver.
Qed.

(** C17: The relay opens a tunnel exactly for authorised requests whose server
    could be told and whose client confirmed; whoever is not authorised causes no
    command to any server; every failure removes the tunnel again, and no other
    tunnel and no registration is touched. *)
Theorem connect_opens_iff_authorized now recv tid secret an st st' out cmds r :
  get_tunnel tid st = None →
  handle_connect_socket now recv tid secret an st = (st', out, cmds, r) →
  (is_Some (get_tunnel tid st') ↔
     (∃ cn, connect_authorized now recv st cn) ∧ an_control_ok an = true ∧ an_ack_ok an = true ∧
     client_ready tid (an_ready an)) ∧
  (∀ cmd, cmd ∈ cmds → ∃ cn, connect_authorized now recv st cn ∧ ot_client_id cmd = cn_client_id cn) ∧
  (∀ tid', tid' ≠ tid → get_tunnel tid' st' = get_tunnel tid' st) ∧
  as_registered_servers st' = as_registered_servers st.
Proof.
  intros Hfresh. unfold handle_connect_socket. destruct (connect_check now recv st) as [cn|e] eqn:Hc.
  - apply connect_check_ok in Hc. intros (Hs & Hcmd & Hother & Hiff)%connect_open_tunnel.
    rewrite Hiff. split_and!; try done; [|by eauto]. split; [by eauto|by intros [_ ?]].
  - assert (∀ cn, ¬ connect_authorized now recv st cn) as Hno by (intros cn Ha%connect_check_ok; congruence).
    destruct e; intros ?; simplify_eq; rewrite Hfresh; split_and!; try done.
    all: try (intros cmd []%not_elem_of_nil).
    all: split; [by intros []|by intros [[cn []%Hno] _]].
Qed.

(** ** Registrations

    Handlers register ([RegBegin]) and clean up when their socket ends
    ([RegEnd]), in any order. *)
Inductive reg_op :=
  | RegBegin (server_id : Uuid) (server : RegisteredServer)
  | RegEnd (server_id registration_id : Uuid).

Definition reg_step (st : AppState) (o : reg_op) : AppState :=
  match o with
  | RegBegin sid srv => upsert_server sid srv st
  | RegEnd sid rid => remove_server_if_current sid rid st
  end.

(** [o] does not displace the registration [srv] of [sid]. *)
Definition keeps (sid : Uuid) (srv : RegisteredServer) (o : reg_op) : Prop :=
  match o with
  | RegBegin sid' _ => sid' ≠ sid
  | RegEnd sid' rid => ¬ (sid' = sid ∧ rid = rs_registration_id srv)
  end.

Lemma reg_step_lookup st o sid srv :
  server_entry sid (reg_step st o) = Some srv ↔
  o = RegBegin sid srv ∨ server_entry sid st = Some srv ∧ keeps sid srv o.
Proof.
  unfold server_entry. destruct o as [sid' srv'|sid' rid]; cbn.
  - destruct (decide (sid' = sid)) as [->|Hne].
    + rewrite lookup_insert_eq. naive_solver.
    + rewrite lookup_insert_ne by done. naive_solver.
  - unfold remove_server_if_current. destruct (decide (sid' = sid)) as [->|Hne].
    + destruct (as_registered_servers st !! sid) as [e|] eqn:He; [case_bool_decide as Hr|]; cbn;
        rewrite ?lookup_delete_eq, ?He; naive_solver.
    + assert ((as_registered_servers (if match as_registered_servers st !! sid' with
          | Some entry => bool_decide (rs_registration_id entry = rid) | None => false end
          then set_servers (delete sid' (as_registered_servers st)) st else st)) !! sid
          = as_registered_servers st !! sid) as ->.
      { case_match; cbn; [by rewrite lookup_delete_ne|done]. }
      naive_solver.
Qed.

(** A server is reachable through its latest registration, until the socket
    of that very registration ends: a clean-up that belongs to an earlier
    registration of the same server, however late it runs, does not remove it. *)
Lemma current_registration_survives st ops sid srv :
  server_entry sid st = None →
  server_entry sid (foldl reg_step st ops) = Some srv ↔
  ∃ pre post, ops = (pre ++ RegBegin sid srv :: post)%list ∧ Forall (keeps sid srv) post.
Proof.
  intros Hst. induction ops as [|o ops IH] using rev_ind.
  { cbn. rewrite Hst. split; [done|]. intros ([] & ? & ? & _); simplify_eq/=. }
  rewrite foldl_app. cbn. rewrite reg_step_lookup, IH. clear IH. split.
  - intros [->|[(pre & post & -> & Hpost) Ho]]; [by exists ops, []|].
    exists pre, (post ++ [o])%list. rewrite <- app_assoc. split; [done|]. by apply Forall_app_2; [|constructor].
  - intros (pre & post & Heq & Hpost). destruct post as [|o' post _] using rev_ind.
    + left. by apply app_inj_tail in Heq as [_ ->].
    + right. rewrite app_comm_cons, app_assoc in Heq. apply app_inj_tail in Heq as [-> ->].
      apply Forall_app in Hpost as [Hpost [Ho _]%Forall_cons]. by eauto.
Qed.

(** ** The server's secret *)
Definition auth_step (st : AppState) (a : Uuid * TunnelQuery) : AppState := (tunnel_auth a.1 a.2 st).1.1.

(** Nobody can be accepted as the server of the tunnel any more. *)
Definition secret_spent (tid : Uuid) (st : AppState) : Prop :=
  ∀ h, get_tunnel tid st = Some h → th_server_secret h = None.

Lemma tunnel_auth_spends tid q st : secret_spent tid (auth_step st (tid, q)).
Proof.
  unfold auth_step, tunnel_auth, secret_spent, verify_server_secret, get_tunnel; cbn.
  intros h. destruct (as_tunnels st !! tid) as [[ts c w [sec|]]|] eqn:Ht; cbn; repeat case_match; cbn;
    simplify_eq/=; rewrite ?lookup_delete_eq, ?lookup_insert_eq; naive_solver.
Qed.

Lemma tunnel_auth_other tid a st : a.1 ≠ tid → get_tunnel tid (auth_step st a) = get_tunnel tid st.
Proof.
  destruct a as [tid' q]; intros Hne. unfold auth_step, tunnel_auth, get_tunnel, remove_tunnel; cbn in *.
  repeat case_match; cbn; simplify_eq/=; rewrite ?lookup_delete_ne, ?lookup_insert_ne by done; done.
Qed.

Lemma secret_stays_spent tid a st : secret_spent tid st → secret_spent tid (auth_step st a).
Proof.
  intros Hs. destruct a as [tid' q], (decide (tid' = tid)) as [->|Hne]; [apply tunnel_auth_spends|].
  intros h. rewrite tunnel_auth_other by done. apply Hs.
Qed.

Lemma spent_run tid pre st : secret_spent tid st → secret_spent tid (foldl auth_step st pre).
Proof. revert st. induction pre as [|a pre IH]; intros st Hs; [done|]. by apply IH, secret_stays_spent. Qed.

(** Accepting needs the secret of the tunnel. *)
Lemma tunnel_auth_accepts `{!RelayLaws} tid q st : (tunnel_auth tid q st).2 = true →
  ∃ h secret, get_tunnel tid st = Some h ∧ th_server_secret h = Some secret ∧
    tq_token q = Some secret ∧ tq_role q = Some "server".
Proof.
  unfold tunnel_auth, verify_server_secret. destruct (get_tunnel tid st) as [h|] eqn:Ht; [|done].
  case_bool_decide as Hr; [done|]. destruct (tq_token q) as [tok|]; [|done].
  destruct (th_server_secret h) as [sec|] eqn:Hs; [|done].
  destruct (ct_eq sec tok) eqn:Hct; [|done]. apply ct_eq_spec in Hct as ->. by eauto 10.
Qed.

(** The secret of a tunnel can be tried once.  Whatever requests arrived
    before, for this tunnel and for others, a request is accepted as the tunnel's
    server only if it is the first one for this tunnel and presents exactly the
    secret the relay sent over the control channel. *)
Lemma server_secret_first_try `{!RelayLaws} st pre tid q :
  (tunnel_auth tid q (foldl auth_step st pre)).2 = true →
  (∀ q', (tid, q') ∉ pre) ∧
  ∃ h secret, get_tunnel tid st = Some h ∧ th_server_secret h = Some secret ∧
    tq_token q = Some secret ∧ tq_role q = Some "server".
Proof.
  intros (h & secret & Ht & Hs & Htok & Hrole)%tunnel_auth_accepts.
  assert (Hno : ∀ q', (tid, q') ∉ pre).
  { intros q' (pre1 & pre2 & ->)%list_elem_of_split. rewrite foldl_app in Ht. cbn in Ht.
    apply (spent_run tid pre2 _ (tunnel_auth_spends tid q' _)) in Ht. congruence. }
  split; [done|]. exists h, secret. split_and!; try done. rewrite <- Ht. clear -Hno. symmetry.
  revert st Hno. induction pre as [|[tid' q'] pre IH]; intros st Hno; [done|]. cbn. rewrite IH.
  - apply tunnel_auth_other. cbn. intros ->. apply (Hno q'). by left.
  - intros q'' Hin. apply (Hno q''). by right.
Qed.
End relay_theorems.

(** ** Concrete instances *)
Definition enc_register (p : RegisterPayload) : string :=
  enc_fields [rp_type p; rp_server_id p; rp_relay_secret p; rp_server_version p; enc_fields (rp_capabilities p);
    rp_public_key p; enc_opt (enc_Z <$> rp_max_tunnels p); enc_opt (rp_tls_authority p)].
Definition dec_register (s : string) : option RegisterPayload :=
  l ← dec_fields s;
  match l with
  | [ty; sid; sec; ver; caps; key; maxt; tls] =>
      caps ← dec_fields caps; maxt ← dec_opt maxt; tls ← dec_opt tls;
      Some (mkRegisterPayload ty sid sec ver caps key (z ← maxt; dec_Z z) tls)
  | _ => None
  end.
Lemma dec_enc_register p : dec_register (enc_register p) = Some p.
Proof.
  unfold dec_register, enc_register. rewrite dec_enc_fields. cbn. rewrite dec_enc_fields. cbn. rewrite dec_enc_opt. cbn.
  rewrite dec_enc_opt. destruct p as [? ? ? ? ? ? [z|] ?]; cbn; [by rewrite dec_enc_Z|done].
Qed.

Definition enc_connect (p : ConnectPayload) : string :=
  enc_fields [cp_type p; cp_server_id p; cp_relay_token p; cp_client_id p; cp_client_version p].
Definition dec_connect (s : string) : option ConnectPayload :=
  l ← dec_fields s; match l with [a; b; c; d; e] => Some (mkConnectPayload a b c d e) | _ => None end.
Lemma dec_enc_connect p : dec_connect (enc_connect p) = Some p.
Proof. unfold dec_connect, enc_connect. rewrite dec_enc_fields. by destruct p. Qed.

Definition enc_ready (p : TunnelReadyPayload) : string := enc_fields [tr_type p; tr_tunnel_id p; tr_role p].
Definition dec_ready (s : string) : option TunnelReadyPayload :=
  l ← dec_fields s; match l with [a; b; c] => Some (mkTunnelReadyPayload a b c) | _ => None end.
Lemma dec_enc_ready p : dec_ready (enc_ready p) = Some p.
Proof. unfold dec_ready, enc_ready. rewrite dec_enc_fields. by destruct p. Qed.

Definition demo_relay : RelayCrates := {|
  parse_register := dec_register;
  parse_connect := dec_connect;
  parse_ready := dec_ready;
  ct_eq a b := bool_decide (a = b);
  base64_decode s := Some (String.list_byte_of_string s);
  base64url_encode := String.string_of_list_byte;
  from_ed_components s := Some (String.list_byte_of_string s);
  jwt_decode now tok _ := c ← dec_claims tok; if decide (dur_as_secs now <= cl_exp c) then Some (relay_view c) else None;
  url_parse _ := None;
|}.

Lemma demo_relay_laws : @RelayLaws demo_relay demo_tokens.
Proof.
  split.
  - intros a b. cbn. by rewrite bool_decide_eq_true.
  - intros b. change (Some (String.list_byte_of_string (String.string_of_list_byte b)) = Some b).
    by rewrite String.list_byte_of_string_of_list_byte.
  - intros b _. change (Some (String.list_byte_of_string (String.string_of_list_byte b)) = Some b). by rewrite String.list_byte_of_string_of_list_byte.
  - intros k. cbn [verifying_key demo_tokens]. rewrite length_take, length_app, length_replicate. lia.
  - intros sk pem c tok now _ [= <-] Hexp. cbn [jwt_decode demo_relay]. rewrite dec_enc_claims. cbn. by rewrite decide_True.
Qed.

#[local] Existing Instance demo_relay.
#[local] Existing Instance demo_tokens.
#[local] Existing Instance demo_uuid.
#[local] Existing Instance demo_relay_laws.

Definition demo_server : RegisteredServer := mkRegisteredServer 1%N 0%N (verifying_key []) None.
Definition demo_state : AppState :=
  upsert_server 7%N demo_server (AppState_new None None (mkRelayConfig "0.0.0.0" 443 5 (Some "relay") {[7%N := "secret"]} None None)).
Definition demo_claims : ServerClaims :=
  mkServerClaims "handcontrol-server" (uuid_to_string 9%N) "relay:443" 100 0 (uuid_to_string 7%N) (uuid_to_string 7%N)
    "client_id" (uuid_to_string 9%N) ["connect"].
Definition demo_connect : option (result string Message) :=
  Some (Ok (Text (enc_connect (mkConnectPayload "connect" (uuid_to_string 7%N) (enc_claims demo_claims) (uuid_to_string 9%N) "1.0")))).
Definition demo_answers : connect_answers :=
  mkConnectAnswers true true (Some (Ok (Text (enc_ready
    (mkTunnelReadyPayload "tunnel_ready" (uuid_to_string 5%N) "client"))))).

Lemma quad_eta {A B C D} (x : A * B * C * D) : x = (x.1.1.1, x.1.1.2, x.1.2, x.2).
Proof. by destruct x as [[[? ?] ?] ?]. Qed.

Lemma connect_opens_iff_authorized_witness :
  let st' := (handle_connect_socket 0 demo_connect 5%N [] demo_answers demo_state).1.1.1 in
  is_Some (get_tunnel 5%N st') ∧ ∃ cn, connect_authorized 0 demo_connect demo_state cn.
Proof.
  intros st'.
  assert (Hs : is_Some (get_tunnel 5%N st')) by (apply (bool_decide_unpack _); vm_compute; exact I).
  split; [exact Hs|].
  exact (proj1 (proj1 (proj1 (connect_opens_iff_authorized 0 demo_connect 5%N [] demo_answers demo_state _ _ _ _
    eq_refl (quad_eta _))) Hs)).
Defined.

Lemma server_secret_first_try_witness :
  let st := (create_tunnel 5%N 0 (to_bytes "s3") demo_state).1 in
  let bad := mkTunnelQuery (Some "server") (Some "guess") in
  let good := mkTunnelQuery (Some "server") (Some "s3") in
  (tunnel_auth 5%N good (foldl auth_step st [(6%N, bad)])).2 = true ∧ (∀ q', (5%N, q') ∉ [(6%N, bad)]) ∧
  (tunnel_auth 5%N good (foldl auth_step st [(5%N, bad)])).2 = false.
Proof.
  cbv zeta. split_and!; [vm_compute; reflexivity| |vm_compute; reflexivity].
  refine (proj1 (server_secret_first_try (create_tunnel 5%N 0 (to_bytes "s3") demo_state).1
    [(6%N, mkTunnelQuery (Some "server") (Some "guess"))] 5%N (mkTunnelQuery (Some "server") (Some "s3")) _)).
  vm_compute; reflexivity.
Defined.
