(* ===== verification/RelayClient.v ===== *)
(** * The server's side of the relay (server/src/relay/client.rs)

    Registering with the relay, reconnecting with back-off, and bridging a tunnel
    to the local gRPC endpoint.  The network's answers are inputs; JSON, hexadecimal
    and URL encoding are the class [ClientCrates]. *)

From S2P Require Import Prelude RustStd ThirdParty Config Validation SessionState RelayTokens Tunnel.

Local Open Scope string_scope.
Local Open Scope Z_scope.

Record RelayTlsOptions := mkRelayTlsOptions {
  to_allow_self_signed : bool;
  to_pinned_cert_sha256 : option bytes;
}.

Inductive RelayClientState := Disconnected | Connecting | Connected | ClientError (e : string).

Inductive ControlMessage :=
  | RegisterAck (status : string) (retry_after_seconds : option Z)
  | OpenTunnelMsg (tunnel_id client_id preferred_protocol : string) (expires_at : Z) (server_secret : string)
  | PingMsg.

Record TunnelReadyMessage := mkTunnelReadyMessage {
  trm_type : string;
  trm_tunnel_id : string;
  trm_role : string;
}.

(** The object [connect_and_run] sends to register. *)
Record RegisterRequest := mkRegisterRequest {
  rq_type : string;
  rq_server_id : string;
  rq_relay_secret : string;
  rq_server_version : string;
  rq_capabilities : list string;
  rq_public_key : string;
  rq_max_tunnels : Z;
  rq_tls_authority : string;
}.

Record RelayClient := mkRelayClient {
  rcl_config : RelayConfig;
  rcl_client_server_id : Uuid;
  rcl_token_issuer : TokenIssuer;
  rcl_local_grpc_port : Z;
  rcl_tls_authority : string;
}.

Definition RelayClient_new (config : RelayConfig) (server_id : Uuid) (token_issuer : TokenIssuer) (port : Z) : RelayClient :=
  mkRelayClient config server_id token_issuer port (String.append "handcontrol.local:" (pretty port)).

Class ClientCrates := {
  hex_decode : string → option bytes;
  form_urlencode : string → string;
  parse_control : string → option ControlMessage;
  register_text : RegisterRequest → string;
  ready_text : TunnelReadyMessage → string;
  (** [into_client_request] and [HeaderValue::from_str] succeed. *)
  valid_url : string → bool;
  valid_header : string → bool;
}.

(** [hex::decode] accepts every text of hexadecimal digits of even length. *)
Class HexDecodeLaws `{ClientCrates} := hex_decode_digits : ∀ s n,
  string_forall is_ascii_hexdigit s = true → String.length s = (2 * n)%nat →
  ∃ b, hex_decode s = Some b ∧ length b = n.

Section client.
Context `{ClientCrates, TokenCrates, UuidText, Sha256}.

Definition parse_pinned_cert (value : option string) : result string (option bytes) :=
  match value with
  | Some fingerprint =>
      let normalized := normalize_fingerprint fingerprint in
      bail! "relay.pinned_cert_sha256 must not be empty" when str_is_empty normalized;
      bytes ← ok_or (hex_decode normalized) "relay.pinned_cert_sha256 must be valid hexadecimal";
      bail! "relay.pinned_cert_sha256 must decode to 32 bytes (SHA-256)" when bool_decide (length bytes ≠ 32%nat);
      Ok (Some bytes)
  | None => Ok None
  end.

Definition tls_options (c : RelayClient) : result string RelayTlsOptions :=
  pin ← parse_pinned_cert (rel_pinned_cert_sha256 (rcl_config c));
  Ok (mkRelayTlsOptions (rel_allow_self_signed_tls (rcl_config c)) pin).

Definition relay_subprotocol (c : RelayClient) : string :=
  if str_is_empty (trim (rel_websocket_subprotocol (rcl_config c))) then DEFAULT_RELAY_SUBPROTOCOL
  else rel_websocket_subprotocol (rcl_config c).

Definition build_relay_request (url subprotocol : string) : result string unit :=
  bail! "Failed to construct relay WebSocket request" when negb (valid_url url);
  bail_if (negb (valid_header subprotocol)) "relay.websocket_subprotocol must be a valid header value".

(** ** TLS: [AcceptSelfSignedVerifier] *)
Definition verify_server_cert (pin : option bytes) (end_entity : bytes) : bool :=
  match pin with Some expected => bool_decide (sha256 end_entity = expected) | None => true end.

(** Both signature checks of the verifier return success. *)
Definition verify_tls_signature (holds_key : bool) : bool := true.

(** [build_tls_connector]: [None] is the default connector. *)
Definition build_tls_connector (o : RelayTlsOptions) : option (option bytes) :=
  if to_allow_self_signed o then Some (to_pinned_cert_sha256 o) else None.

(** A peer that presents a certificate and does or does not hold its key;
    [webpki] is the default connector's verdict. *)
Record peer := mkPeer { peer_cert : bytes; peer_holds_key : bool; peer_webpki : bool }.
Definition tls_handshake (o : RelayTlsOptions) (p : peer) : bool :=
  match build_tls_connector o with
  | Some pin => verify_server_cert pin (peer_cert p) && verify_tls_signature (peer_holds_key p)
  | None => peer_webpki p && peer_holds_key p
  end.

(** ** Control messages *)
Definition register_request (version : string) (secret : string) (c : RelayClient) : RegisterRequest :=
  mkRegisterRequest "register" (uuid_to_string (rcl_client_server_id c)) secret version ["relay.v1"]
    (public_key_base64 (rcl_token_issuer c)) (default 10 (rel_max_relay_tunnels (rcl_config c))) (rcl_tls_authority c).

(** [spawn_tunnel_task]: the URL and the id given to [handle_tunnel]. *)
Definition tunnel_query_string (server_secret : string) : string :=
  String.append "role=server&token=" (form_urlencode server_secret).
Definition spawn_tunnel_task (tunnel_id server_secret : string) (c : RelayClient) : result string (string * string) :=
  relay_url ← ok_or (rel_relay_server_url (rcl_config c)) "relay_server_url not configured";
  let tunnel_url := String.append relay_url (String.append "/tunnel/" (String.append tunnel_id
                      (String.append "?" (tunnel_query_string server_secret)))) in
  _ ← tls_options c;
  Ok (tunnel_url, tunnel_id).

Definition handle_control_message (payload : string) (c : RelayClient) : result string (list (string * string)) :=
  msg ← ok_or (parse_control payload) "Failed to parse control message";
  match msg with
  | OpenTunnelMsg tunnel_id _ _ _ server_secret => t ← spawn_tunnel_task tunnel_id server_secret c; Ok [t]
  | PingMsg => Ok []
  | RegisterAck _ _ => Ok []
  end.

(** The tunnels started, and how the channel ended. *)
Fixpoint listen_control_channel (c : RelayClient) (frames : list (result string Message))
    : list (string * string) * result string unit :=
  match frames with
  | [] => ([], Ok tt)
  | Ok (Text payload) :: rest =>
      let '(ts, r) := listen_control_channel c rest in
      (match handle_control_message payload c with Ok ts' => (ts' ++ ts)%list | Err _ => ts end, r)
  | Ok (Close _) :: _ => ([], Ok tt)
  | Ok _ :: rest => listen_control_channel c rest
  | Err e :: _ => ([], Err (String.append "WebSocket error: " e))
  end.

(** What the network answers to one attempt. *)
Record attempt := mkAttempt {
  at_peer : peer;
  at_reachable : bool;                  (* the WebSocket handshake succeeds *)
  at_send_ok : bool;
  at_ack : option (result string Message);
  at_frames : list (result string Message);
}.

(** The debug form of an unexpected message is left out of its error text. *)
Definition check_ack (ack : option (result string Message)) : result string unit :=
  match ack with
  | Some (Ok (Text payload)) =>
      msg ← ok_or (parse_control payload) "Failed to parse register_ack";
      match msg with
      | RegisterAck status _ => bail_if (bool_decide (status ≠ "ok")) (String.append "Relay registration failed: " status)
      | _ => Err "Expected register_ack, got different message"
      end
  | Some (Ok _) => Err "Expected text message"
  | Some (Err e) => Err (String.append "WebSocket error: " e)
  | None => Err "Connection closed before register_ack"
  end.

(** Up to the acknowledgement: the registration that was sent. *)
Definition register_with_relay (version : string) (a : attempt) (c : RelayClient) : result string RegisterRequest :=
  relay_url ← ok_or (rel_relay_server_url (rcl_config c)) "relay_server_url not configured";
  let register_url := String.append relay_url "/register" in
  o ← tls_options c;
  _ ← build_relay_request register_url (relay_subprotocol c);
  bail! "Failed to connect to relay server"
    when starts_with "wss://" register_url && negb (tls_handshake o (at_peer a)) || negb (at_reachable a);
  secret ← ok_or (rel_relay_auth_secret (rcl_config c)) "relay_auth_secret not configured";
  bail! "Failed to send register message" when negb (at_send_ok a);
  _ ← check_ack (at_ack a);
  Ok (register_request version secret c).

(** [spawn_control_keepalive]: the pings sent, given how each send ends. *)
Fixpoint control_keepalive (sends : list bool) : list Message :=
  match sends with true :: rest => Ping [] :: control_keepalive rest | _ => [] end.

(** The tunnels started, whether the client was [Connected], and the result. *)
Definition connect_and_run (version : string) (a : attempt) (c : RelayClient)
    : list (string * string) * bool * result string unit :=
  match register_with_relay version a c with
  | Err e => ([], false, Err e)
  | Ok _ => let '(ts, r) := listen_control_channel c (at_frames a) in (ts, true, r)
  end.

(** ** [start]: one round of the loop *)
Record loop_state := mkLoop { lp_state : RelayClientState; lp_delay : Z }.

(** The seconds slept and the next state, [None] when the loop ends. *)
Definition start_round (version : string) (c : RelayClient) (a : attempt) (l : loop_state) : loop_state * option Z :=
  let '(_, connected, r) := connect_and_run version a c in
  let '(state', reset_backoff) :=
    match r with Ok _ => (Disconnected, true) | Err e => (ClientError e, connected) end in
  if negb (rel_auto_connect (rcl_config c)) then (mkLoop state' (lp_delay l), None)
  else
    let delay := if reset_backoff then 1 else lp_delay l in
    (mkLoop state' (if reset_backoff then 1 else Z.min (delay * 2) (rel_reconnect_delay_seconds (rcl_config c))), Some delay).

(** The sleeps of a run over a list of attempts. *)
Fixpoint start_loop (version : string) (c : RelayClient) (as_ : list attempt) (l : loop_state) : list Z :=
  match as_ with
  | [] => []
  | a :: as' =>
      match start_round version c a l with
      | (l', Some d) => d :: start_loop version c as' l'
      | (_, None) => []
      end
  end.
Definition start (version : string) (c : RelayClient) (as_ : list attempt) : list Z :=
  start_loop version c as_ (mkLoop Connecting 1).

(** ** [handle_tunnel] *)
Definition tunnel_ready_message (tunnel_id : string) : TunnelReadyMessage :=
  mkTunnelReadyMessage "tunnel_ready" tunnel_id "server".

(** WebSocket to local TCP: what is written, with the answer to each write. *)
Fixpoint ws_to_local (frames : list (result string Message * bool)) : list bytes * result string unit :=
  match frames with
  | [] => ([], Ok tt)
  | (Ok (Binary b), ok) :: rest =>
      if ok then let '(out, r) := ws_to_local rest in (b :: out, r) else ([], Err "Failed to write to local TCP")
  | (Ok (Close _), _) :: _ => ([], Ok tt)
  | (Ok _, _) :: rest => ws_to_local rest
  | (Err e, _) :: _ => ([], Err (String.append "WebSocket read error: " e))
  end.

(** Local TCP to WebSocket: what each read of the buffer returns. *)
Fixpoint local_to_ws (reads : list (result string bytes * bool)) : list Message * result string unit :=
  match reads with
  | [] => ([], Ok tt)
  | (Ok [], _) :: _ => ([], Ok tt)
  | (Ok b, ok) :: rest =>
      if ok then let '(out, r) := local_to_ws rest in (Binary b :: out, r) else ([], Err "Failed to send to WebSocket")
  | (Err e, _) :: _ => ([], Err (String.append "Local TCP read error: " e))
  end.

(** [tokio::select!] over both directions: one iteration of one of the two loops at a
    time, until one of them ends.  [FromRelay None] is the end of the WebSocket. *)
Inductive bridge_op :=
  | FromRelay (frame : option (result string Message)) (write_ok : bool)
  | FromLocal (read : result string bytes) (send_ok : bool).
Inductive bridge_out := ToLocal (b : bytes) | ToRelay (m : Message).

Definition bridge_step (op : bridge_op) : list bridge_out * option (result string unit) :=
  match op with
  | FromRelay None _ => ([], Some (Ok tt))
  | FromRelay (Some (Ok (Binary b))) ok => if ok then ([ToLocal b], None) else ([], Some (Err "Failed to write to local TCP"))
  | FromRelay (Some (Ok (Close _))) _ => ([], Some (Ok tt))
  | FromRelay (Some (Ok _)) _ => ([], None)
  | FromRelay (Some (Err e)) _ => ([], Some (Err (String.append "WebSocket read error: " e)))
  | FromLocal (Ok []) _ => ([], Some (Ok tt))
  | FromLocal (Ok b) ok => if ok then ([ToRelay (Binary b)], None) else ([], Some (Err "Failed to send to WebSocket"))
  | FromLocal (Err e) _ => ([], Some (Err (String.append "Local TCP read error: " e)))
  end.
(** [None]: the tunnel is still open. *)
Fixpoint bridge (ops : list bridge_op) : list bridge_out * option (result string unit) :=
  match ops with
  | [] => ([], None)
  | op :: rest =>
      match bridge_step op with
      | (out, Some r) => (out, Some r)
      | (out, None) => let '(out', r) := bridge rest in ((out ++ out')%list, r)
      end
  end.

(** What the network answers to a tunnel task. *)
Record tunnel_answers := mkTunnelAnswers {
  tn_peer : peer;
  tn_reachable : bool;
  tn_ready_ok : bool;
  tn_local_ok : bool;
  tn_ops : list bridge_op;
}.
Definition handle_tunnel (tunnel_url tunnel_id : string) (o : RelayTlsOptions) (subprotocol : string) (an : tunnel_answers)
    : list bridge_out * option (result string unit) :=
  let connected :=
    _ ← build_relay_request tunnel_url subprotocol;
    bail_if (starts_with "wss://" tunnel_url && negb (tls_handshake o (tn_peer an)) || negb (tn_reachable an))
      "Failed to connect to tunnel endpoint" in
  match connected with
  | Err e => ([], Some (Err e))
  | Ok _ =>
      if negb (tn_ready_ok an) then ([], Some (Err "Failed to send tunnel_ready"))
      else
        let ready := ToRelay (Text (ready_text (tunnel_ready_message tunnel_id))) in
        if negb (tn_local_ok an) then ([ready], Some (Err "Failed to connect to local gRPC server"))
        else let '(out, r) := bridge (tn_ops an) in (ready :: out, r)
  end.
End client.

(** ** The bridge *)
Definition to_local (x : bridge_out) : option bytes := match x with ToLocal b => Some b | ToRelay _ => None end.
Definition to_relay (x : bridge_out) : option Message := match x with ToRelay m => Some m | ToLocal _ => None end.
Definition relay_frame (op : bridge_op) : option (result string Message * bool) :=
  match op with FromRelay (Some f) ok => Some (f, ok) | _ => None end.
Definition local_read (op : bridge_op) : option (result string bytes * bool) :=
  match op with FromLocal r ok => Some (r, ok) | _ => None end.

(** However the two directions interleave, each does what its loop does alone, and
    both stop when one of them ends. *)
Lemma bridge_projects ops :
  omap to_local (bridge ops).1 `prefix_of` (ws_to_local (omap relay_frame ops)).1 ∧
  omap to_relay (bridge ops).1 `prefix_of` (local_to_ws (omap local_read ops)).1.
Proof.
  induction ops as [|[[[[s|b|b|b|f]|e]|] []|[[|x b]|e] []] ops IH]; cbn; try done; try (split; apply prefix_nil);
    destruct (bridge ops) as [out r], (ws_to_local _) as [o1 r1], (local_to_ws _) as [o2 r2]; cbn in *; try done;
    destruct IH; split; try done; by apply prefix_cons.
Qed.

Lemma tunnel_projects `{ClientCrates, Sha256} url id o sub an :
  let out := (handle_tunnel url id o sub an).1 in
  omap to_local out `prefix_of` (ws_to_local (omap relay_frame (tn_ops an))).1 ∧
  tail (omap to_relay out) `prefix_of` (local_to_ws (omap local_read (tn_ops an))).1.
Proof.
  unfold handle_tunnel. cbv zeta. destruct (build_relay_request url sub ≫= _) as [u|e]; [|split; apply prefix_nil].
  destruct (tn_ready_ok an); cbn [negb]; [|split; apply prefix_nil]. destruct (tn_local_ok an); cbn [negb]; [|split; apply prefix_nil].
  pose proof (bridge_projects (tn_ops an)) as Hb. by destruct (bridge (tn_ops an)).
Qed.

Section client_theorems.
Context `{ClientCrates, TokenCrates, UuidText, Sha256}.

(** ** Back-off *)
Lemma start_round_delay version c a l l' d :
  1 <= rel_reconnect_delay_seconds (rcl_config c) → 1 <= lp_delay l <= rel_reconnect_delay_seconds (rcl_config c) →
  start_round version c a l = (l', Some d) →
  1 <= d <= rel_reconnect_delay_seconds (rcl_config c) ∧ 1 <= lp_delay l' <= rel_reconnect_delay_seconds (rcl_config c).
Proof.
  intros Hm Hl. unfold start_round. destruct (connect_and_run version a c) as [[ts conn] [u|e]];
    [|destruct conn]; (destruct (negb _); [done|]); intros [= <- <-]; cbn; lia.
Qed.

Lemma start_loop_bounded version c as_ l :
  1 <= rel_reconnect_delay_seconds (rcl_config c) → 1 <= lp_delay l <= rel_reconnect_delay_seconds (rcl_config c) →
  Forall (λ d, 1 <= d <= rel_reconnect_delay_seconds (rcl_config c)) (start_loop version c as_ l).
Proof.
  intros Hm. revert l. induction as_ as [|a as_ IH]; intros l Hl; cbn; [done|].
  destruct (start_round version c a l) as [l' [d|]] eqn:Hr; [|done].
  apply start_round_delay in Hr as [Hd Hl']; [|done..]. by constructor; [|apply IH].
Qed.

(** The relay could not be reached or refused the registration. *)
Definition never_connected (version : string) (c : RelayClient) (a : attempt) : Prop :=
  is_ok (register_with_relay version a c) = false.

Lemma start_round_failed version c a l : rel_auto_connect (rcl_config c) = true → never_connected version c a →
  ∃ s, start_round version c a l =
    (mkLoop s (Z.min (lp_delay l * 2) (rel_reconnect_delay_seconds (rcl_config c))), Some (lp_delay l)).
Proof.
  intros Ha Hn. unfold start_round, connect_and_run, never_connected in *.
  destruct (register_with_relay version a c); [done|]. rewrite Ha. by eexists.
Qed.

Lemma start_loop_failed version c as_ l k j : rel_auto_connect (rcl_config c) = true →
  1 <= rel_reconnect_delay_seconds (rcl_config c) → Forall (never_connected version c) as_ →
  lp_delay l = Z.min (2 ^ Z.of_nat j) (rel_reconnect_delay_seconds (rcl_config c)) → (k < length as_)%nat →
  start_loop version c as_ l !! k = Some (Z.min (2 ^ Z.of_nat (j + k)) (rel_reconnect_delay_seconds (rcl_config c))).
Proof.
  intros Ha Hm Hf. revert l k j. induction Hf as [|a as_ Hn Hf IH]; intros l k j Hl Hk; [cbn in Hk; lia|].
  cbn. destruct (start_round_failed version c a l Ha Hn) as [s ->]. destruct k as [|k]; cbn.
  - rewrite Nat.add_0_r. by rewrite Hl.
  - cbn in Hk. rewrite (IH _ _ (S j)); [|cbn|lia].
    + by replace (S j + k)%nat with (j + S k)%nat by lia.
    + rewrite Hl, Nat2Z.inj_succ, Z.pow_succ_r by lia. lia.
Qed.

(** Reconnecting backs off exponentially.  While the relay cannot be reached
    or refuses, the k-th wait lasts 2^k seconds, capped by the configured delay;
    in every run, whatever succeeds or fails in between, each wait lies between
    one second and the configured delay. *)
Lemma reconnect_backoff version c as_ :
  rel_auto_connect (rcl_config c) = true → 1 <= rel_reconnect_delay_seconds (rcl_config c) →
  Forall (λ d, 1 <= d <= rel_reconnect_delay_seconds (rcl_config c)) (start version c as_) ∧
  (Forall (never_connected version c) as_ → ∀ k, (k < length as_)%nat →
     start version c as_ !! k = Some (Z.min (2 ^ Z.of_nat k) (rel_reconnect_delay_seconds (rcl_config c)))).
Proof.
  intros Ha Hm. split; [apply start_loop_bounded; cbn; lia|].
  intros Hf k Hk. apply (start_loop_failed version c as_ _ k 0); cbn; auto with lia.
Qed.

(** ** The pinned certificate *)

(** In a validated configuration the pinned fingerprint always decodes, and
    with a pin exactly the peers that present the pinned certificate pass the TLS
    handshake, whether or not they hold its private key: the verifier accepts
    every handshake signature. *)
Lemma pinned_relay_accepted `{!HexDecodeLaws} c fp : validate_pinned (rcl_config c) = Ok tt →
  rel_pinned_cert_sha256 (rcl_config c) = Some fp →
  ∃ o pin, tls_options c = Ok o ∧ to_pinned_cert_sha256 o = Some pin ∧ length pin = 32%nat ∧
    hex_decode (normalize_fingerprint fp) = Some pin ∧
    ∀ p, tls_handshake o p = true ↔ sha256 (peer_cert p) = pin.
Proof.
  intros Hok%validate_pinned_iff Hfp. destruct (Hok fp Hfp) as (Hself & Hlen & Hhex).
  destruct (hex_decode_digits (normalize_fingerprint fp) 32 Hhex Hlen) as (pin & Hpin & Hl).
  exists (mkRelayTlsOptions true (Some pin)), pin.
  assert (tls_options c = Ok (mkRelayTlsOptions true (Some pin))) as ->.
  { unfold tls_options. rewrite Hfp. cbn [parse_pinned_cert].
    assert (str_is_empty (normalize_fingerprint fp) = false) as -> by (by destruct (normalize_fingerprint fp)).
    cbn [bail_if mbind result_bind]. rewrite Hpin. cbn [ok_or mbind result_bind].
    by rewrite (bool_decide_ne_false_2 _ _ Hl), Hself. }
  split_and!; try done. intros p. unfold tls_handshake; cbn. rewrite andb_true_r. by rewrite bool_decide_eq_true.
Qed.
End client_theorems.

(** ** Concrete instances *)
Fixpoint demo_hex_decode (s : string) : bytes :=
  match s with String a (String _ s') => byte_of_ascii a :: demo_hex_decode s' | _ => [] end.

Definition demo_client_crates : ClientCrates := {|
  hex_decode s := Some (demo_hex_decode s);
  form_urlencode s := s;
  parse_control _ := None;
  register_text _ := "";
  ready_text _ := "";
  valid_url _ := true;
  valid_header _ := true;
|}.

Lemma demo_hex_decode_laws : @HexDecodeLaws demo_client_crates.
Proof.
  intros s n _. revert s. induction n as [|n IH]; intros s Hs.
  - destruct s; [by exists []|done].
  - destruct s as [|a [|b s]]; [done|cbn in Hs; lia|].
    destruct (IH s) as (x & [= <-] & Hx); [cbn in Hs; lia|]. eexists; split; [done|]. cbn. by f_equal.
Qed.

#[local] Existing Instance demo_client_crates.
#[local] Existing Instance demo_tokens.
#[local] Existing Instance demo_uuid.
#[local] Existing Instance demo_sha256.
#[local] Existing Instance demo_hex_decode_laws.

Definition demo_fingerprint : string := "abababababababababababababababababababababababababababababababab".
Definition demo_relay_config : RelayConfig :=
  mkRelayConfig true (Some "wss://relay") (Some "secret") None true true 60 24 true (Some demo_fingerprint) false
    "handcontrol-relay.v1".
Definition demo_client : RelayClient :=
  RelayClient_new demo_relay_config 7%N (mkTokenIssuer [] (verifying_key []) 7%N) 50051.
Definition unreachable : attempt := mkAttempt (mkPeer [] false false) false false None [].

Lemma reconnect_backoff_witness : start "1.0" demo_client (replicate 9 unreachable) !! 6%nat = Some 60.
Proof.
  refine (proj2 (reconnect_backoff "1.0" demo_client (replicate 9 unreachable) _ _) _ 6%nat _);
    [reflexivity|vm_compute; discriminate|repeat constructor|vm_compute; lia].
Defined.

Lemma pinned_relay_accepted_witness : ∃ o pin, tls_options demo_client = Ok o ∧ to_pinned_cert_sha256 o = Some pin ∧
  length pin = 32%nat ∧ hex_decode (normalize_fingerprint demo_fingerprint) = Some pin ∧
  ∀ p, tls_handshake o p = true ↔ sha256 (peer_cert p) = pin.
Proof.
  apply (pinned_relay_accepted demo_client demo_fingerprint); [vm_compute|]; reflexivity.
Defined.
