(* ===== verification/RelayFlow.v ===== *)
(** * A client reaches the server through the relay

    The server's relay client ([RelayClient]), its token issuer ([RelayTokens])
    and the relay service ([RelayState]) composed: registration, token, tunnel
    request, and the bytes of an open tunnel.  [FlowCrates] adds the texts that
    cross the network between them; its laws say that what one side serialises
    the other side reads back. *)

From S2P Require Import Prelude RustStd ThirdParty SessionState Config RelayTokens Tunnel RelayState RelayClient.

Local Open Scope string_scope.
Local Open Scope Z_scope.

Class FlowCrates := {
  (** The JSON text of a relay's message. *)
  reply_text : Reply → string;
  (** The query of the tunnel URL, as the relay extracts it. *)
  query_parse : string → TunnelQuery;
}.

(** The registration as the relay reads it. *)
Definition as_register_payload (r : RegisterRequest) : RegisterPayload :=
  mkRegisterPayload (rq_type r) (rq_server_id r) (rq_relay_secret r) (rq_server_version r) (rq_capabilities r)
    (rq_public_key r) (Some (rq_max_tunnels r)) (Some (rq_tls_authority r)).
Definition as_connect_payload (m : ConnectMessage) : ConnectPayload :=
  mkConnectPayload (cm_type m) (cm_server_id m) (cm_relay_token m) (cm_client_id m) (cm_client_version m).
Definition as_ready_payload (m : TunnelReadyMessage) : TunnelReadyPayload :=
  mkTunnelReadyPayload (trm_type m) (trm_tunnel_id m) (trm_role m).

Class FlowLaws `{RelayCrates, ClientCrates, FlowCrates} := {
  register_json r : parse_register (register_text r) = Some (as_register_payload r);
  ready_json m : parse_ready (ready_text m) = Some (as_ready_payload m);
  open_tunnel_json tid cid proto exp sec :
    parse_control (reply_text (OpenTunnelCommand tid cid proto exp sec)) = Some (OpenTunnelMsg tid cid proto exp sec);
  query_roundtrip sec : query_parse (tunnel_query_string sec) = mkTunnelQuery (Some "server") (Some sec);
}.

Section flow.
Context `{RelayCrates, TokenCrates, UuidText, Sha256, ClientCrates, FlowCrates}.
Context `{!RelayLaws, !UuidTextLaws, !FlowLaws}.

(** The token issuer that [TokenIssuer::new] builds. *)
Definition issuer_wf (i : TokenIssuer) : Prop := ti_verifying_key i = verifying_key (ti_signing_key i).

Definition text_frame (s : string) : option (result string Message) := Some (Ok (Text s)).

Lemma register_accepted c version secret rid ctl st :
  issuer_wf (rcl_token_issuer c) → as_secrets st !! rcl_client_server_id c = Some secret →
  ∃ tls, register_begin (text_frame (register_text (register_request version secret c))) true rid ctl st =
    (upsert_server (rcl_client_server_id c) (mkRegisteredServer rid ctl (ti_verifying_key (rcl_token_issuer c)) tls) st,
     [RegisterAckOk 0], Ok (Some (rcl_client_server_id c))).
Proof.
  intros Hk Hs. unfold register_begin, register_check, text_frame. cbn [recv_text]; pass. rewrite register_json; pass.
  cbn [rp_type rp_server_id rp_relay_secret rp_public_key rp_tls_authority as_register_payload
       rq_type rq_server_id rq_relay_secret rq_public_key rq_tls_authority register_request].
  rewrite (bool_decide_ne_false_2 _ _ eq_refl); pass. rewrite uuid_parse_to_string; pass.
  unfold validate_secret. rewrite Hs, (proj2 (ct_eq_spec _ _) eq_refl); pass.
  unfold public_key_base64. rewrite base64_roundtrip; pass. rewrite Hk, verifying_key_length.
  rewrite (bool_decide_ne_false_2 _ _ eq_refl); pass.
  rewrite ed_components_roundtrip by apply verifying_key_length; pass. by eexists.
Qed.

(** The claims of a token issued for a client. *)
Lemma relay_claims_fields now subject url ttl bt bv i c : relay_claims now subject url ttl bt bv i = Ok c →
  cl_sub c = subject ∧ cl_aud c = url ∧ cl_server_id c = uuid_to_string (ti_server_id i) ∧
  cl_server_audience c = uuid_to_string (ti_server_id i) ∧ cl_binding_type c = bt ∧ cl_binding_value c = bv ∧
  cl_permissions c = ["connect"].
Proof.
  unfold relay_claims. cbv zeta. rewrite !bail_then. intros (_ & _ & _ & Hc).
  apply result_bind_ok in Hc as (exp & _ & [= <-]). done.
Qed.

(** A token is valid for the whole duration it was issued for. *)
Lemma token_alive t0 now subject url ttl bt bv i c : relay_claims t0 subject url ttl bt bv i = Ok c →
  0 <= ttl <= U64_MAX * NANOS → now <= t0 + ttl → dur_as_secs now <= cl_exp c.
Proof.
  intros Hc Httl Hnow. destruct (relay_claims_expiry _ _ _ _ _ _ _ _ (proj1 Httl) Hc) as (Hiat & _ & _ & Hlife).
  specialize (Hlife (proj2 Httl)). unfold dur_as_secs in *. change NANOS with 1000000000 in *.
  pose proof (Z.div_mod t0 1000000000 ltac:(lia)). pose proof (Z.mod_pos_bound t0 1000000000 ltac:(lia)).
  apply Z.lt_succ_r, Z.div_lt_upper_bound; lia.
Qed.

Lemma issued_token_authorized t0 now url ttl bt i cid version tok entry st ctext :
  parse_connect ctext = Some (as_connect_payload (build_connect_payload (ti_server_id i) tok cid version)) →
  issuer_wf i → generate_relay_token t0 (uuid_to_string cid) url ttl bt (uuid_to_string cid) i = Ok tok →
  bt = BINDING_TYPE_CLIENT_ID ∨ bt = BINDING_TYPE_ENROLLMENT_TOKEN →
  0 <= ttl <= U64_MAX * NANOS → now <= t0 + ttl → is_allowed_audience url st = true →
  server_entry (ti_server_id i) st = Some entry → rs_decoding_key entry = ti_verifying_key i →
  connect_authorized now (text_frame ctext) st
    (mkConnection (ti_server_id i) cid entry).
Proof.
  intros Hjson Hk Htok Hbt Httl Hnow Haud He Hkey. unfold generate_relay_token in Htok.
  apply result_bind_ok in Htok as (c & Hc & Htok). apply result_bind_ok in Htok as (pem & Hpem%ok_or_ok & Htok).
  apply bail_then in Htok as [_ Htok%ok_or_ok].
  pose proof (token_alive _ _ _ _ _ _ _ _ _ Hc Httl Hnow) as Halive.
  destruct (relay_claims_fields _ _ _ _ _ _ _ _ Hc) as (Hsub & Hurl & Hsid & Hsaud & Hty & Hval & Hperm).
  eexists _, _, (relay_view c). cbn [relay_view rcl_sub rcl_aud rcl_server_id rcl_server_audience rcl_binding_type
    rcl_binding_value rcl_permissions cn_server_id cn_client_id cn_entry default].
  split; [done|]. split; [exact Hjson|]. cbn [as_connect_payload build_connect_payload cp_type cp_server_id
    cp_client_id cp_relay_token cm_type cm_server_id cm_relay_token cm_client_id].
  rewrite !uuid_parse_to_string, Hkey, Hk, Hurl, Hsub, Hsid, Hsaud, Hperm. cbn [default from_option].
  split_and!; try done; try apply uuid_parse_to_string.
  - by eapply jwt_roundtrip.
  - intros v [= <-]. by rewrite Hval.
  - intros t [= <-]. rewrite Hty. by destruct Hbt as [-> | ->]; [left|right].
  - by left.
Qed.
(** ** The whole path *)
Definition server_ready_frame (tid : Uuid) : option (result string Message) :=
  text_frame (ready_text (tunnel_ready_message (uuid_to_string tid))).

(** A [tunnel_ready] text as the relay expects it from one of the roles. *)
Definition ready_for (role : string) (tid : Uuid) (text : string) : Prop :=
  parse_ready text = Some (mkTunnelReadyPayload "tunnel_ready" (uuid_to_string tid) role).

Lemma ready_frame_check role tid text e1 e2 e3 :
  ready_for role tid text → ready_check role tid (text_frame text) e1 e2 e3 = Ok tt.
Proof.
  intros Hr. unfold ready_check, text_frame. cbn [recv_text]; pass. rewrite Hr; pass.
  cbn [tr_type tr_tunnel_id tr_role]. by rewrite !(bool_decide_ne_false_2 _ _ eq_refl).
Qed.

(** An authorised client that confirms gets its tunnel, and the server is told. *)
Lemma connect_flow now recv tid sbytes st cn rtext : connect_authorized now recv st cn → ready_for "client" tid rtext →
  let st2 := (create_tunnel tid now sbytes st).1 in
  ∃ ack, ca_tunnel_id ack = uuid_to_string tid ∧
   handle_connect_socket now recv tid sbytes (mkConnectAnswers true true (text_frame rtext)) st =
    (st2, [ConnectAckOk ack],
     [mkOpenTunnel tid (cn_client_id cn) "binary" (tunnel_expires_at now (as_handshake_timeout st)) (base64_encode sbytes)],
     Ok (Some tid)).
Proof.
  intros Ha%connect_check_ok Hready. unfold handle_connect_socket. rewrite Ha.
  unfold connect_open, create_tunnel; cbn [an_control_ok an_ack_ok an_ready]. rewrite ready_frame_check by done.
  eexists. split; [|reflexivity]. done.
Qed.

(** The server that presents the secret of the command is admitted. *)
Lemma tunnel_flow tid now sbytes st :
  let st2 := (create_tunnel tid now sbytes st).1 in
  ∃ st3, tunnel_handler (uuid_to_string tid) (query_parse (tunnel_query_string (base64_encode sbytes)))
    (server_ready_frame tid) st2 = (st3, [], Ok true) ∧ is_Some (get_tunnel tid st3).
Proof.
  cbv zeta. unfold tunnel_handler. rewrite uuid_parse_to_string, query_roundtrip. unfold tunnel_auth, get_tunnel, create_tunnel.
  cbn [fst as_tunnels set_tunnels tq_role tq_token]. rewrite lookup_insert_eq, (bool_decide_ne_false_2 _ _ eq_refl).
  unfold verify_server_secret; cbn [th_server_secret TunnelHandle_new]. rewrite (proj2 (ct_eq_spec _ _) eq_refl).
  unfold server_ready_frame. rewrite ready_frame_check by exact (ready_json _). eexists; split; [done|].
  cbn. rewrite lookup_insert_eq. by eexists.
Qed.

(** The server's and the relay's part of the path, for a client that sends the texts
    [ctext] and [rtext]: the server registers; the relay opens a tunnel for the
    client; the server's control handler turns the relay's command into a request for
    that tunnel, and the relay admits the server with the secret it sent. *)
Lemma relay_path c version secret rid ctl st t0 now url ttl bt cid cver tok tid sbytes relay_url o ctext rtext :
  let i := rcl_token_issuer c in
  parse_connect ctext = Some (as_connect_payload (build_connect_payload (ti_server_id i) tok cid cver)) →
  ready_for "client" tid rtext →
  issuer_wf i → rcl_client_server_id c = ti_server_id i → as_secrets st !! ti_server_id i = Some secret →
  rel_relay_server_url (rcl_config c) = Some relay_url → tls_options c = Ok o →
  generate_relay_token t0 (uuid_to_string cid) url ttl bt (uuid_to_string cid) i = Ok tok →
  bt = BINDING_TYPE_CLIENT_ID ∨ bt = BINDING_TYPE_ENROLLMENT_TOKEN →
  0 <= ttl <= U64_MAX * NANOS → now <= t0 + ttl → is_allowed_audience url st = true →
  ∃ st1 ack st2 cmd st3, ca_tunnel_id ack = uuid_to_string tid ∧
    register_begin (text_frame (register_text (register_request version secret c))) true rid ctl st =
      (st1, [RegisterAckOk 0], Ok (Some (ti_server_id i))) ∧
    handle_connect_socket now (text_frame ctext) tid sbytes (mkConnectAnswers true true (text_frame rtext)) st1 =
      (st2, [ConnectAckOk ack], [cmd], Ok (Some tid)) ∧
    handle_control_message (reply_text (into_message cmd)) c =
      Ok [(String.append relay_url (String.append "/tunnel/" (String.append (uuid_to_string tid)
             (String.append "?" (tunnel_query_string (ot_server_secret cmd))))), uuid_to_string tid)] ∧
    tunnel_handler (uuid_to_string tid) (query_parse (tunnel_query_string (ot_server_secret cmd)))
      (server_ready_frame tid) st2 = (st3, [], Ok true) ∧
    is_Some (get_tunnel tid st3).
Proof.
  intros i Hjson Hready Hk Hid Hsec Hurl Htls Htok Hbt Httl Hnow Haud.
  destruct (register_accepted c version secret rid ctl st Hk) as [tls Hreg]; [by rewrite Hid|]. rewrite Hid in Hreg.
  set (st1 := upsert_server _ _ st) in Hreg.
  destruct (connect_flow now (text_frame ctext) tid sbytes st1
    (mkConnection (ti_server_id i) cid (mkRegisteredServer rid ctl (ti_verifying_key i) tls)) rtext) as (ack & Hack & Hconn).
  { apply (issued_token_authorized t0 now url ttl bt i cid cver tok); try done. unfold server_entry, st1; cbn. by rewrite lookup_insert_eq. }
  { done. }
  destruct (tunnel_flow tid now sbytes st1) as (st3 & Htun & Hin).
  eexists st1, ack, _, _, st3. split_and!; [done|done|exact Hconn| |exact Htun|done].
  unfold handle_control_message, into_message. rewrite open_tunnel_json; pass. unfold spawn_tunnel_task.
  rewrite Hurl; pass. by rewrite Htls; pass.
Qed.
End flow.

(** ** The bytes of an open tunnel *)
Definition read_chunk (x : result string bytes * bool) : option bytes := match x.1 with Ok b => Some b | Err _ => None end.

Lemma omap_prefix {A B} (f : A → option B) l k : l `prefix_of` k → omap f l `prefix_of` omap f k.
Proof. intros [k' ->]. rewrite omap_app. by eexists. Qed.

Lemma ws_to_local_prefix frames :
  (ws_to_local frames).1 `prefix_of` omap binary_payload (omap inbound_message frames).
Proof.
  induction frames as [|[[[s|b|b|b|f]|e] []] frames IH]; cbn; try done; try apply prefix_nil;
    destruct (ws_to_local frames); cbn in *; try done. by apply prefix_cons.
Qed.

Lemma local_to_ws_prefix reads :
  omap binary_payload (local_to_ws reads).1 `prefix_of` omap read_chunk reads.
Proof.
  induction reads as [|[[[|x b]|e] []] reads IH]; cbn; try done; try apply prefix_nil.
  destruct (local_to_ws reads); cbn in *. by apply prefix_cons.
Qed.

(** An open tunnel neither reorders, alters nor invents bytes.  Whatever is
    lost on the way or fails at any hop, what the server's bridge writes to the
    local gRPC endpoint is a prefix of the client's binary frames, and what the
    relay hands to the client is a prefix of the chunks read from the endpoint. *)
Lemma tunnel_preserves_bytes from_client at_server reads at_relay :
  omap inbound_message at_server `prefix_of` (forward_stream from_client).1 →
  omap inbound_message at_relay `prefix_of` (local_to_ws reads).1 →
  (ws_to_local at_server).1 `prefix_of` omap binary_payload (omap inbound_message from_client) ∧
  omap binary_payload (forward_stream at_relay).1 `prefix_of` omap read_chunk reads.
Proof.
  intros Hs Hr. split.
  - etrans; [apply ws_to_local_prefix|]. etrans; [by apply omap_prefix|]. apply forward_stream_prefix.
  - etrans; [apply forward_stream_prefix|]. etrans; [by apply omap_prefix|]. apply local_to_ws_prefix.
Qed.

(** ** Concrete instances *)
Definition enc_open (r : Reply) : string :=
  match r with
  | OpenTunnelCommand tid cid proto exp sec => enc_fields [tid; cid; proto; enc_Z exp; sec]
  | ConnectAckOk a => enc_fields [ca_tunnel_id a; ca_relay_host a; enc_opt (ca_server_authority a)]
  | _ => ""
  end.
Definition dec_open (s : string) : option ControlMessage :=
  l ← dec_fields s;
  match l with [a; b; c; d; e] => z ← dec_Z d; Some (OpenTunnelMsg a b c z e) | _ => None end.

Definition flow_client_crates : ClientCrates := {|
  hex_decode s := Some (demo_hex_decode s);
  form_urlencode s := s;
  parse_control := dec_open;
  register_text r := enc_register (as_register_payload r);
  ready_text m := enc_ready (as_ready_payload m);
  valid_url _ := true;
  valid_header _ := true;
|}.
Definition demo_flow : FlowCrates := {|
  reply_text := enc_open;
  query_parse q :=
    match strip_prefix "role=server&token=" q with
    | Some tok => mkTunnelQuery (Some "server") (Some tok)
    | None => mkTunnelQuery None None
    end;
|}.
#[local] Existing Instance demo_relay.
#[local] Existing Instance demo_tokens.
#[local] Existing Instance demo_uuid.
#[local] Existing Instance demo_sha256.
#[local] Existing Instance flow_client_crates.
#[local] Existing Instance demo_flow.

Lemma demo_flow_laws : FlowLaws.
Proof.
  split.
  - intros r. apply dec_enc_register.
  - intros m. apply dec_enc_ready.
  - intros. cbn [parse_control reply_text flow_client_crates demo_flow]. unfold dec_open, enc_open.
    rewrite dec_enc_fields. cbn. by rewrite dec_enc_Z.
  - intros sec. done.
Qed.
#[local] Existing Instance demo_relay_laws.
#[local] Existing Instance demo_uuid_laws.
#[local] Existing Instance demo_flow_laws.

Definition demo_token : string :=
  match generate_relay_token 5 (uuid_to_string 9%N) "relay:443" NANOS "client_id" (uuid_to_string 9%N)
          (rcl_token_issuer demo_client) with Ok t => t | Err _ => "" end.
Definition empty_relay : AppState := set_servers ∅ demo_state.

