(* ===== verification/Proto.v ===== *)
(** * The wire messages and their conversions (proto/handcontrol.proto, the
    conversion functions of server/src/grpc/server.rs)

    A message is a record with proto3's field presence; an [i32] enumeration
    field is the number of its value. *)

From S2P Require Import Prelude RustStd ThirdParty Config Registry SessionState SessionManager RelayTokens.

Local Open Scope string_scope.
Local Open Scope Z_scope.

Module proto.
Record CapabilityParameter := mkCapabilityParameter {
  name : string;
  type : Z;
  description : string;
  min : option Z;
  max : option Z;
  default_value : option string;
  options : list string;
  validation : option string;
  label_on : option string;
  label_off : option string;
  default_value_command : option string;
  default_value_pattern : option string;
}.

Record Capability := mkCapability {
  cap_id : string;
  cap_name : string;
  cap_description : string;
  cap_tags : list string;
  cap_kind : Z;
  cap_session_mode : Z;
  cap_parameters : list CapabilityParameter;
  cap_requires_confirmation : option bool;
  cap_privileged : option bool;
  cap_version : option Z;
}.

Record SessionInfo := mkSessionInfo {
  session_id : string;
  capability_id : string;
  capability_name : string;
  session_mode : Z;
  owner_fingerprint : option string;
  created_at_ms : Z;
  last_activity_ms : Z;
  last_detached_ms : option Z;
  attached : bool;
  resume_token : string;
  stdout_next_sequence : Z;
  stderr_next_sequence : Z;
  buffer_len : Z;
}.

Inductive ClientPayload :=
  | Open (capability_id : string) (parameters : gmap string string) (request_id : option string)
  | Input (data : bytes) (binary : option bool)
  | Resize (cols rows : Z)
  | Heartbeat (timestamp_ms : Z)
  | Close (reason : option string)
  | Resume (resume_token : string) (last_output_sequence last_error_sequence : option Z).

Record SessionClientMessage := mkSessionClientMessage {
  cm_session_id : string;
  cm_payload : option ClientPayload;
}.

Inductive ServerPayload :=
  | Ready (capability_id : string) (session_mode : Z) (message : option string) (resume_token : string)
  | Output (data : bytes) (stderr binary : option bool) (timestamp_ms : option Z) (sequence : Z)
  | Exit (exit_code : Z) (timed_out : option bool) (message : option string)
  | Error (message : string) (code : option Z)
  | HeartbeatAck (timestamp_ms : Z) (latency_hint_ms : option Z)
  | Closed (reason : option string)
  | ResumeAck (resume_token : string) (replay_complete : option bool) (message : option string).

Record SessionServerMessage := mkSessionServerMessage {
  sm_session_id : string;
  sm_payload : option ServerPayload;
}.
End proto.

Definition kind_number (k : CapabilityKind) : Z :=
  match k with ShellScript => 1 | ShellInteractive => 2 | FileTransfer => 3 end.
Definition session_mode_number (m : SessionMode) : Z :=
  match m with OneShot => 1 | Realtime => 2 | Upload => 3 | Download => 4 end.
Definition param_type_number (t : string) : Z :=
  if bool_decide (t = "slider") then 1 else if bool_decide (t = "text") then 2
  else if bool_decide (t = "toggle") then 3 else if bool_decide (t = "dropdown") then 4 else 0.

Definition proto_from_parameter (p : CapabilityParameter) : proto.CapabilityParameter :=
  proto.mkCapabilityParameter (cp_name p) (param_type_number (cp_param_type p)) (default "" (cp_description p))
    (cp_min p) (cp_max p) (cp_default_value p) (cp_options p) (cp_validation p) (cp_label_on p) (cp_label_off p)
    (cp_default_value_command p) (cp_default_value_pattern p).

Definition proto_from_metadata (m : CapabilityMetadata) : proto.Capability :=
  proto.mkCapability (md_id m) (md_name m) (default "" (md_description m)) (md_tags m) (kind_number (md_kind m))
    (session_mode_number (md_session_mode m)) (proto_from_parameter <$> md_parameters m)
    (Some (md_requires_confirmation m)) (Some (md_privileged m)) None.

Definition client_message_to_event (message : proto.SessionClientMessage) : option SessionClientEvent :=
  match proto.cm_payload message with
  | Some (proto.Input data binary) => Some (CInput data (default false binary))
  | Some (proto.Resize cols rows) => Some (CResize cols rows)
  | Some (proto.Heartbeat timestamp_ms) => Some (CHeartbeat timestamp_ms)
  | Some (proto.Close reason) => Some (CClose reason)
  | Some (proto.Resume tok lo le) => Some (CResume tok lo le)
  | None => None
  | Some (proto.Open _ _ _) => None
  end.

Definition session_event_to_proto (session_id capability_id : string) (session_mode : SessionMode) (event : SessionServerEvent)
    (buffered_output : option BufferedOutput) (resume_token : option string) : proto.SessionServerMessage :=
  let payload :=
    match event with
    | SReady message => proto.Ready capability_id (session_mode_number session_mode) message (default "" resume_token)
    | SOutput data stderr binary timestamp_ms =>
        proto.Output data (Some stderr) (Some binary) timestamp_ms (default 0 (bo_sequence <$> buffered_output))
    | SExit exit_code timed_out message => proto.Exit exit_code (Some timed_out) message
    | SError message code => proto.Error message code
    | SHeartbeatAck timestamp_ms latency_hint_ms => proto.HeartbeatAck timestamp_ms latency_hint_ms
    | SClosed reason => proto.Closed reason
    end in
  proto.mkSessionServerMessage session_id (Some payload).

(** Nanoseconds since the Unix epoch, before it negative. *)
Definition system_time_to_millis (time : Z) : Z :=
  if 0 <=? time then Z.min (time / 10 ^ 6) I64_MAX else - Z.min (- time / 10 ^ 6) I64_MAX.

Section snapshot.
Context `{UuidText}.

Definition session_snapshot_to_proto (s : SessionSnapshot) : proto.SessionInfo :=
  proto.mkSessionInfo (uuid_to_string (sp_id s)) (sp_capability_id s) (md_name (sp_metadata s))
    (session_mode_number (sp_session_mode s)) (sp_owner_fingerprint s)
    (system_time_to_millis (sn_created_at (sp_state s))) (system_time_to_millis (sn_last_activity (sp_state s)))
    (system_time_to_millis <$> sn_last_detached_at (sp_state s))
    (bool_decide (is_Some (sn_attachment (sp_state s)))) (sn_resume_token (sp_state s))
    (sn_stdout_next_sequence (sp_state s)) (sn_stderr_next_sequence (sp_state s))
    (Z.min (Z.of_nat (sn_buffer_len (sp_state s))) U32_MAX).
End snapshot.

(** The numbers determine the values. *)
Lemma session_mode_number_inj m m' : session_mode_number m = session_mode_number m' → m = m'.
Proof. by destruct m, m'. Qed.
Lemma kind_number_inj k k' : kind_number k = kind_number k' → k = k'.
Proof. by destruct k, k'. Qed.

(** Times that an [i64] number of milliseconds can hold are rounded towards the
    epoch; the others saturate. *)
Lemma system_time_to_millis_bounds t : - I64_MAX <= system_time_to_millis t <= I64_MAX.
Proof.
  unfold system_time_to_millis, I64_MAX. change (10 ^ 6) with 1000000.
  destruct (Z.leb_spec 0 t).
  - pose proof (Z.div_pos t 1000000 ltac:(lia) ltac:(lia)). lia.
  - pose proof (Z.div_pos (- t) 1000000 ltac:(lia) ltac:(lia)). lia.
Qed.
