(* ===== verification/Delivery.v ===== *)
(** * Delivering a session's events (server/src/grpc/server.rs: [forward_session_events]
    and the response stream of [open_session] and [handle_resume_session])

    A session's events go over a broadcast channel to the task that forwards them, which
    puts them as messages into the response channel of the call; a resuming handler puts
    the replay into the same channel, and the client reads from it once the handler has
    returned.  Both channels are bounded: the broadcast channel keeps its last
    [DEFAULT_EVENT_CHANNEL_CAPACITY] events, and a receiver that has fallen behind goes
    on with the oldest of them; a send into a full response channel waits. *)

From S2P Require Import Prelude RustStd ThirdParty Config Registry SessionState SessionManager RelayTokens Proto.

Local Open Scope Z_scope.

Definition RESPONSE_CHANNEL_CAPACITY : nat := 128.

(** ** Merging two sequences *)
Inductive interleaves {A} : list A → list A → list A → Prop :=
  | interleaves_nil : interleaves [] [] []
  | interleaves_left l k m a : interleaves l k m → interleaves (l ++ [a]) k (m ++ [a])
  | interleaves_right l k m a : interleaves l k m → interleaves l (k ++ [a]) (m ++ [a]).
#[export] Hint Constructors interleaves : hc.

Lemma interleaves_length {A} (l k m : list A) : interleaves l k m → length m = (length l + length k)%nat.
Proof. induction 1; rewrite ?length_app; cbn; lia. Qed.
Lemma interleaves_permutation {A} (l k m : list A) : interleaves l k m → m ≡ₚ l ++ k.
Proof.
  induction 1 as [|l k m a _ IH|l k m a _ IH]; [done|rewrite IH; solve_Permutation|rewrite IH; by rewrite (assoc_L (++))].
Qed.
Lemma interleaves_sublist {A} (l k m : list A) : interleaves l k m → l `sublist_of` m ∧ k `sublist_of` m.
Proof.
  induction 1 as [|l k m a _ [IH1 IH2]|l k m a _ [IH1 IH2]]; [done|..].
  - split; [by apply sublist_app|by apply sublist_inserts_r].
  - split; [by apply sublist_inserts_r|by apply sublist_app].
Qed.
Lemma interleaves_only {A} (l k m : list A) : interleaves l k m → k = [] → m = l.
Proof.
  induction 1 as [|l k m a _ IH|l k m a _ IH]; intros Hk; [done|by rewrite IH|by apply app_nil in Hk as [_ ?]].
Qed.

(** ** The broadcast channel

    [channel] is everything that was sent; the ring holds its last events.  A receiver is
    the position of the next event it wants. *)
Inductive recv_result := Got (e : SessionBroadcastEvent) | Lagged (skipped : nat) | NothingYet.
Definition oldest_kept (sent : list SessionBroadcastEvent) : nat := length sent - DEFAULT_EVENT_CHANNEL_CAPACITY.
Definition broadcast_recv (sent : list SessionBroadcastEvent) (next : nat) : nat * recv_result :=
  if (next <? oldest_kept sent)%nat then (oldest_kept sent, Lagged (oldest_kept sent - next))
  else match sent !! next with
    | Some e => (S next, Got e)
    | None => (next, NothingYet)
    end.

Section delivery.
Context `{UuidText}.

(** ** The response of a call

    [rp_hand] is the message the forwarding task waits to send; [rp_unsent] what the
    handler has still to send, after which it returns.  [rp_passed] lists the events the
    task has come past, [true] if it received them and [false] if they were overwritten
    before. *)
Record session_response := mkResponse {
  rp_id : Uuid;
  rp_capability_id : string;
  rp_mode : SessionMode;
  rp_next : nat;
  rp_hand : option proto.SessionServerMessage;
  rp_forwarding : bool;
  rp_unsent : list proto.SessionServerMessage;
  rp_queue : list proto.SessionServerMessage;
  rp_read : list proto.SessionServerMessage;
  rp_open : bool;                       (* the client still listens *)
  rp_passed : list (bool * SessionBroadcastEvent);
}.
Definition response_start (id : Uuid) (capability_id : string) (mode : SessionMode) (subscribed : nat)
    (unsent : list proto.SessionServerMessage) : session_response :=
  mkResponse id capability_id mode subscribed None true unsent [] [] true [].

Definition event_message (session_id capability_id : string) (mode : SessionMode) (e : SessionBroadcastEvent) : proto.SessionServerMessage :=
  session_event_to_proto session_id capability_id mode (be_event e) (be_buffered_output e) (be_resume_token e).
Definition message_of (r : session_response) : SessionBroadcastEvent → proto.SessionServerMessage :=
  event_message (uuid_to_string (rp_id r)) (rp_capability_id r) (rp_mode r).

Definition has_room (r : session_response) : bool := (length (rp_queue r) <? RESPONSE_CHANNEL_CAPACITY)%nat.
Definition task_at (next : nat) (hand : option proto.SessionServerMessage) (passed : list (bool * SessionBroadcastEvent)) (r : session_response) : session_response :=
  mkResponse (rp_id r) (rp_capability_id r) (rp_mode r) next hand (rp_forwarding r) (rp_unsent r) (rp_queue r) (rp_read r) (rp_open r)
    (rp_passed r ++ passed)%list.
Definition task_done (r : session_response) : session_response :=
  mkResponse (rp_id r) (rp_capability_id r) (rp_mode r) (rp_next r) (rp_hand r) false (rp_unsent r) (rp_queue r) (rp_read r) (rp_open r) (rp_passed r).

(** One step of [forward_session_events]: receive the next event, or send the one in
    hand.  [sent] is what was broadcast, [closed]: every sender is gone. *)
Definition forward_session_events (sent : list SessionBroadcastEvent) (closed : bool) (r : session_response) : session_response :=
  if negb (rp_forwarding r) then r else
  match rp_hand r with
  | None =>
      match broadcast_recv sent (rp_next r) with
      | (next, Got e) => task_at next (Some (message_of r e)) [(true, e)] r
      | (next, Lagged skipped) => task_at next None (pair false <$> take skipped (drop (rp_next r) sent)) r
      | (_, NothingYet) => if closed then task_done r else r
      end
  | Some message =>
      if negb (rp_open r) then task_done r
      else if has_room r then
        mkResponse (rp_id r) (rp_capability_id r) (rp_mode r) (rp_next r) None true (rp_unsent r) (rp_queue r ++ [message])%list (rp_read r)
          (rp_open r) (rp_passed r)
      else r
  end.

(** The handler sends the next message of the replay; the client reads. *)
Definition handler_send (r : session_response) : session_response :=
  match rp_unsent r with
  | message :: rest =>
      if has_room r then
        mkResponse (rp_id r) (rp_capability_id r) (rp_mode r) (rp_next r) (rp_hand r) (rp_forwarding r) rest (rp_queue r ++ [message])%list
          (rp_read r) (rp_open r) (rp_passed r)
      else r
  | [] => r
  end.
Definition client_read (r : session_response) : session_response :=
  match rp_unsent r, rp_queue r with
  | [], message :: rest =>
      if rp_open r then
        mkResponse (rp_id r) (rp_capability_id r) (rp_mode r) (rp_next r) (rp_hand r) (rp_forwarding r) [] rest (rp_read r ++ [message])%list
          true (rp_passed r)
      else r
  | _, _ => r
  end.
Definition hang_up (r : session_response) : session_response :=
  match rp_unsent r with
  | [] => mkResponse (rp_id r) (rp_capability_id r) (rp_mode r) (rp_next r) (rp_hand r) (rp_forwarding r) [] (rp_queue r) (rp_read r) false (rp_passed r)
  | _ => r
  end.

(** ** Runs: the session manager, the two tasks and the client in any order *)
Inductive delivery_op := DvManager (o : sm_op) | DvForward | DvHandler | DvRead | DvHangUp.

Definition loop_stopped (id : Uuid) (m : SessionManager) : bool := match sm_loops m !! id with Some Stopped => true | _ => false end.
Definition delivery_step (s : SessionManager * session_response) (o : delivery_op) : SessionManager * session_response :=
  let '(m, r) := s in
  match o with
  | DvManager o => (sm_step m o, r)
  | DvForward => (m, forward_session_events (channel (rp_id r) m) (loop_stopped (rp_id r) m) r)
  | DvHandler => (m, handler_send r)
  | DvRead => (m, client_read r)
  | DvHangUp => (m, hang_up r)
  end.
Definition delivery_run (ops : list delivery_op) (s : SessionManager * session_response) : SessionManager * session_response := foldl delivery_step s ops.

(** The task never has to skip. *)
Definition in_time (s : SessionManager * session_response) : bool := (oldest_kept (channel (rp_id s.2) s.1) <=? rp_next s.2)%nat.
Fixpoint keeps_up (ops : list delivery_op) (s : SessionManager * session_response) : bool :=
  in_time s && match ops with [] => true | o :: ops => keeps_up ops (delivery_step s o) end.

Definition manager_ops (ops : list delivery_op) : list sm_op := omap (λ o, match o with DvManager o => Some o | _ => None end) ops.
Definition is_handler (o : delivery_op) : bool := match o with DvHandler => true | _ => false end.
Definition handler_steps (ops : list delivery_op) : nat := length (filter (λ o, is_handler o = true) ops).

(** What the task has received, and put into the response. *)
Definition taken (r : session_response) : list SessionBroadcastEvent := omap (λ x : bool * _, if x.1 then Some x.2 else None) (rp_passed r).
Definition delivered (r : session_response) : list proto.SessionServerMessage := (rp_read r ++ rp_queue r)%list.

(** The replayed frames and the acknowledgement. *)
Definition replay_messages (session_id capability_id : string) (mode : SessionMode) (frames : list BufferedOutput)
    (next_token : string) : list proto.SessionServerMessage :=
  (((λ f, session_event_to_proto session_id capability_id mode
      (SOutput (bo_data f) (bool_decide (bo_stream f = Stderr)) (bo_binary f) (bo_timestamp_ms f)) (Some f) None) <$> frames)
   ++ [proto.mkSessionServerMessage session_id (Some (proto.ResumeAck next_token (Some true) None))])%list.
Lemma replay_messages_length sid cid mode fs next : length (replay_messages sid cid mode fs next) = S (length fs).
Proof. unfold replay_messages. rewrite length_app, length_fmap. cbn. lia. Qed.

(** ** The invariant of a response

    Everything between the subscription and the task's position has been received or
    skipped; what is in the response, read or not, is a merge of what the handler and the
    task have sent. *)
Record response_ok (k : nat) (msgs : list proto.SessionServerMessage) (m : SessionManager) (r : session_response) : Prop := {
  ro_next : (k ≤ rp_next r ≤ length (channel (rp_id r) m))%nat;
  ro_passed : (rp_passed r).*2 = take (rp_next r - k) (drop k (channel (rp_id r) m));
  ro_merge : ∃ sent forwarded, msgs = (sent ++ rp_unsent r)%list ∧
    message_of r <$> taken r = (forwarded ++ option_list (rp_hand r))%list ∧ interleaves sent forwarded (delivered r);
  ro_unread : rp_unsent r ≠ [] → rp_read r = [];
  ro_room : (length (rp_queue r) ≤ RESPONSE_CHANNEL_CAPACITY)%nat;
}.

Lemma response_start_ok id cid mode k msgs m : (k ≤ length (channel id m))%nat → response_ok k msgs m (response_start id cid mode k msgs).
Proof.
  intros Hk. split; cbn; [lia|by rewrite Nat.sub_diag| |done|lia]. exists [], []. by split_and!; [..|constructor].
Qed.

Lemma take_passed {A} (l : list A) k a b : (k ≤ a ≤ b)%nat → take (b - k) (drop k l) = (take (a - k) (drop k l) ++ take (b - a) (drop a l))%list.
Proof.
  intros Hab. replace (b - k)%nat with ((a - k) + (b - a))%nat by lia. rewrite <-take_take_drop, drop_drop. do 2 f_equal. f_equal. lia.
Qed.

Lemma broadcast_recv_next sent next : (next ≤ length sent)%nat →
  match broadcast_recv sent next with
  | (next', Got e) => next' = S next ∧ sent !! next = Some e
  | (next', Lagged n) => (next' = next + n ∧ 0 < n ∧ next' ≤ length sent)%nat
  | (next', NothingYet) => next' = next
  end.
Proof.
  intros Hn. unfold broadcast_recv, oldest_kept. destruct (Nat.ltb_spec next (length sent - DEFAULT_EVENT_CHANNEL_CAPACITY)); [lia|].
  by destruct (sent !! next) eqn:E.
Qed.

Lemma forward_ok k msgs m r : response_ok k msgs m r →
  response_ok k msgs m (forward_session_events (channel (rp_id r) m) (loop_stopped (rp_id r) m) r).
Proof.
  intros Hr. pose proof Hr as [Hn Hp (sent & fwd & Hm & Ht & Hi) Hu Hq]. unfold forward_session_events. destruct (rp_forwarding r); [|done]. cbn [negb].
  destruct (rp_hand r) as [message|] eqn:Eh.
  - assert (response_ok k msgs m (task_done r)) as Hd by (split; cbn; [done..| |done|done]; exists sent, fwd; by rewrite Eh).
    destruct (rp_open r); [|done]. cbn [negb]. unfold has_room. destruct (Nat.ltb_spec (length (rp_queue r)) RESPONSE_CHANNEL_CAPACITY); [|done].
    split; cbn; [done|done| |done|rewrite length_app; cbn; lia]. exists sent, (fwd ++ [message])%list. rewrite app_nil_r. split_and!; [done..|].
    unfold delivered. cbn. rewrite (assoc_L (++)). by constructor.
  - cbn in Ht. rewrite app_nil_r in Ht. pose proof (broadcast_recv_next (channel (rp_id r) m) (rp_next r) (proj2 Hn)) as Hb.
    destruct (broadcast_recv _ _) as [next [e|skipped|]].
    + destruct Hb as [-> He]. split; cbn; [apply lookup_lt_Some in He; lia| | |done|done].
      * rewrite fmap_app, Hp, (take_passed _ k (rp_next r) (S (rp_next r))) by lia. f_equal. replace (S (rp_next r) - rp_next r)%nat with 1%nat by lia.
        rewrite (drop_S _ _ _ He). done.
      * exists sent, fwd. unfold taken in *. cbn. rewrite omap_app, fmap_app. cbn. change (message_of (task_at _ _ _ r)) with (message_of r). by rewrite Ht.
    + destruct Hb as (-> & H0 & Hl). split; cbn; [lia| | |done|done].
      * rewrite fmap_app, Hp, (take_passed _ k (rp_next r) (rp_next r + skipped)) by lia. f_equal. rewrite <-list_fmap_compose. replace (rp_next r + skipped - rp_next r)%nat with skipped by lia.
        apply list_fmap_id.
      * exists sent, fwd. unfold taken in *. cbn. rewrite omap_app. assert (∀ l, omap (λ x : bool * SessionBroadcastEvent, if x.1 then Some x.2 else None) (pair false <$> l) = []) as ->
          by (intros l; induction l; done). rewrite !app_nil_r. by change (message_of (task_at _ _ _ r)) with (message_of r).
    + destruct (loop_stopped _ _); [|done]. split; cbn; [done..| |done|done]. exists sent, fwd. rewrite Eh. cbn. by rewrite app_nil_r.
Qed.

Lemma handler_ok k msgs m r : response_ok k msgs m r → response_ok k msgs m (handler_send r).
Proof.
  intros Hr. pose proof Hr as [Hn Hp (sent & fwd & Hm & Ht & Hi) Hu Hq]. unfold handler_send. destruct (rp_unsent r) as [|message rest]; [done|].
  unfold has_room. destruct (Nat.ltb_spec (length (rp_queue r)) RESPONSE_CHANNEL_CAPACITY); [|done].
  split; cbn; [done|done| |intros _; by apply Hu|rewrite length_app; cbn; lia]. exists (sent ++ [message])%list, fwd. split_and!; [by rewrite <-(assoc_L (++))|done|].
  unfold delivered. cbn. rewrite (assoc_L (++)). by constructor.
Qed.

Lemma client_ok k msgs m r : response_ok k msgs m r → response_ok k msgs m (client_read r) ∧ response_ok k msgs m (hang_up r).
Proof.
  intros Hr. pose proof Hr as [Hn Hp (sent & fwd & Hm & Ht & Hi) Hu Hq]. unfold client_read, hang_up. destruct (rp_unsent r) as [|u us] eqn:Eu; [|done]. split.
  - destruct (rp_queue r) as [|message rest] eqn:Eq; [done|]. destruct (rp_open r); [|done]. split; cbn; [done|done| |done|cbn in Hq; lia].
    exists sent, fwd. split_and!; [done..|]. unfold delivered in *. cbn. by rewrite <-(assoc_L (++)), Eq in *.
  - split; cbn; [done|done| |done|done]. by exists sent, fwd.
Qed.

Lemma manager_ok k msgs m r o : ¬ opens (rp_id r) o → response_ok k msgs m r → response_ok k msgs (sm_step m o) r.
Proof.
  intros Ho [Hn Hp Hm Hu Hq]. destruct (step_channel _ _ _ (sm_step_ok (rp_id r) m o Ho)) as [es Hes]. split; [|..|done|done].
  - rewrite Hes, length_app. lia.
  - rewrite Hp, Hes, drop_app_le, take_app_le; [done|rewrite length_drop; lia|lia].
  - done.
Qed.

Lemma delivery_step_same s o : rp_id (delivery_step s o).2 = rp_id s.2 ∧ message_of (delivery_step s o).2 = message_of s.2.
Proof.
  destruct s as [m r], o; cbn; [done|..].
  - unfold forward_session_events, task_done. by repeat case_match.
  - unfold handler_send. by repeat case_match.
  - unfold client_read. by repeat case_match.
  - unfold hang_up. by repeat case_match.
Qed.

Lemma delivery_step_ok k msgs s o : (∀ o', o = DvManager o' → ¬ opens (rp_id s.2) o') → response_ok k msgs s.1 s.2 →
  response_ok k msgs (delivery_step s o).1 (delivery_step s o).2.
Proof.
  destruct s as [m r], o; cbn; intros Ho Hr; [by apply manager_ok; auto|by apply forward_ok|by apply handler_ok|by apply client_ok..].
Qed.

Definition keeps_session (id : Uuid) (ops : list delivery_op) : Prop := Forall (λ o, ¬ opens id o) (manager_ops ops).
Lemma keeps_session_cons id o ops : keeps_session id (o :: ops) ↔ (∀ o', o = DvManager o' → ¬ opens id o') ∧ keeps_session id ops.
Proof. unfold keeps_session, manager_ops. destruct o; cbn; rewrite ?Forall_cons; naive_solver. Qed.

Lemma delivery_run_ok k msgs ops s : keeps_session (rp_id s.2) ops → response_ok k msgs s.1 s.2 →
  response_ok k msgs (delivery_run ops s).1 (delivery_run ops s).2 ∧ rp_id (delivery_run ops s).2 = rp_id s.2 ∧
  message_of (delivery_run ops s).2 = message_of s.2.
Proof.
  revert s. induction ops as [|o ops IH]; intros s Hk Hr; [done|]. apply keeps_session_cons in Hk as [Ho Hk]. cbn.
  destruct (delivery_step_same s o) as [E1 E2]. rewrite <-E1, <-E2. apply IH; [by rewrite E1|by apply delivery_step_ok].
Qed.

Lemma delivery_run_manager ops s : (delivery_run ops s).1 = sm_run (manager_ops ops) s.1.
Proof. revert s. induction ops as [|o ops IH]; intros [m r]; [done|]. change (delivery_run (o :: ops) (m, r)) with (delivery_run ops (delivery_step (m, r) o)). rewrite IH. by destruct o. Qed.

(** ** A task that keeps up skips nothing *)
Lemma broadcast_recv_in_time sent next next' n : (oldest_kept sent <=? next)%nat = true → broadcast_recv sent next ≠ (next', Lagged n).
Proof.
  unfold broadcast_recv. rewrite Nat.leb_le. intros Ht. destruct (Nat.ltb_spec next (oldest_kept sent)); [lia|]. by destruct (sent !! next).
Qed.
Lemma keeps_up_run ops s : keeps_up ops s = true → Forall (λ x, x.1 = true) (rp_passed s.2) → Forall (λ x, x.1 = true) (rp_passed (delivery_run ops s).2).
Proof.
  revert s. induction ops as [|o ops IH]; intros s Hk Hp; [done|]. cbn [keeps_up] in Hk. apply andb_true_iff in Hk as [Ht Hk]. apply IH; [done|].
  destruct s as [m r], o; cbn in *; try done.
  - unfold forward_session_events. repeat (case_match; try done); simplify_eq/=; try (apply Forall_app; split; [done|by repeat constructor]).
    exfalso. by eapply broadcast_recv_in_time.
  - unfold handler_send. by repeat case_match.
  - unfold client_read. by repeat case_match.
  - unfold hang_up. by repeat case_match.
Qed.

Lemma taken_all r : Forall (λ x, x.1 = true) (rp_passed r) → taken r = (rp_passed r).*2.
Proof. unfold taken. induction 1 as [|[b e] l Hb Hl IH]; [done|]. cbn in *. subst b. by rewrite <-IH. Qed.

(** ** The handler and the bound of the response *)
Lemma forward_unsent sent closed r : rp_unsent (forward_session_events sent closed r) = rp_unsent r.
Proof. unfold forward_session_events, task_done. by repeat case_match. Qed.
Lemma client_unsent r : rp_unsent (client_read r) = rp_unsent r ∧ rp_unsent (hang_up r) = rp_unsent r.
Proof. unfold client_read, hang_up. destruct (rp_unsent r) eqn:E; [|by rewrite E]. by repeat case_match. Qed.
Lemma never_returns k msgs ops s : keeps_session (rp_id s.2) ops → response_ok k msgs s.1 s.2 → (RESPONSE_CHANNEL_CAPACITY < length msgs)%nat →
  rp_unsent s.2 ≠ [] → rp_unsent (delivery_run ops s).2 ≠ [] ∧ rp_read (delivery_run ops s).2 = [].
Proof.
  intros Hk Hr Hm. revert s Hk Hr. induction ops as [|o ops IH]; intros s Hk Hr Hu; [split; [done|by apply (ro_unread _ _ _ _ Hr)]|].
  apply keeps_session_cons in Hk as [Ho Hk]. pose proof (delivery_step_ok k msgs s o Ho Hr) as Hr'. cbn [delivery_run foldl]. apply IH; [|done|].
  - by rewrite (proj1 (delivery_step_same s o)).
  - clear IH Hr'. destruct s as [m r], o; cbn in *; [done|..].
    + by rewrite forward_unsent.
    + unfold handler_send. destruct (rp_unsent r) as [|message [|u us]] eqn:Eu; [done| |case_match; [done|by rewrite Eu]]. unfold has_room.
      destruct (Nat.ltb_spec (length (rp_queue r)) RESPONSE_CHANNEL_CAPACITY) as [Hlt|]; [|by rewrite Eu]. exfalso.
      destruct Hr as [_ _ (sent & fwd & -> & _ & Hi) Hun _]. apply interleaves_length in Hi. unfold delivered in Hi. rewrite Eu in *. rewrite Hun in Hi by done.
      rewrite length_app in Hm. cbn in *. lia.
    + by rewrite (proj1 (client_unsent r)).
    + by rewrite (proj2 (client_unsent r)).
Qed.

Lemma taken_length r : (length (taken r) ≤ length (rp_passed r))%nat.
Proof. unfold taken. induction (rp_passed r) as [|[[] e] l IH]; cbn; lia. Qed.

Lemma delivered_bound k msgs m r : response_ok k msgs m r →
  (length (delivered r) + length (rp_unsent r) ≤ length msgs + (length (channel (rp_id r) m) - k))%nat.
Proof.
  intros [Hn Hp (sent & fwd & -> & Ht & Hi) _ _]. apply interleaves_length in Hi. rewrite Hi, length_app.
  apply (f_equal length) in Ht, Hp. rewrite length_fmap, length_app in Ht. rewrite length_fmap, length_take, length_drop in Hp. pose proof (taken_length r). lia.
Qed.

Lemma channel_grows id ops m : Forall (λ o, ¬ opens id o) ops → (length (channel id m) ≤ length (channel id (sm_run ops m)))%nat.
Proof. intros Ho. apply prefix_length, step_channel, sm_run_ok, Ho. Qed.

Lemma returns k msgs ops s : keeps_session (rp_id s.2) ops → response_ok k msgs s.1 s.2 →
  (length msgs + (length (channel (rp_id s.2) (delivery_run ops s).1) - k) ≤ RESPONSE_CHANNEL_CAPACITY)%nat →
  (length (rp_unsent (delivery_run ops s).2) ≤ length (rp_unsent s.2) - handler_steps ops)%nat.
Proof.
  revert s. induction ops as [|o ops IH]; intros s Hk Hr Hm; [cbn; lia|]. pose proof Hk as Hk0. apply keeps_session_cons in Hk as [Ho Hk].
  destruct (delivery_step_same s o) as [E1 _]. assert (length (rp_unsent (delivery_run ops (delivery_step s o)).2) ≤ length (rp_unsent (delivery_step s o).2) - handler_steps ops)%nat as IH'.
  { apply IH; rewrite ?E1; [done|by apply delivery_step_ok|done]. }
  cbn [delivery_run foldl] in *. etrans; [exact IH'|]. clear IH IH'.
  destruct s as [m r], o; cbn [delivery_step snd fst] in *; unfold handler_steps; rewrite filter_cons.
  - rewrite decide_False by done. lia.
  - rewrite decide_False, forward_unsent by done. lia.
  - rewrite decide_True by done. unfold handler_send. destruct (rp_unsent r) as [|message rest] eqn:Eu; [rewrite Eu; cbn; lia|]. unfold has_room.
    destruct (Nat.ltb_spec (length (rp_queue r)) RESPONSE_CHANNEL_CAPACITY) as [|Hfull]; [cbn; lia|]. exfalso.
    pose proof (delivered_bound _ _ _ _ Hr) as Hb. unfold delivered in Hb. rewrite length_app, Eu in Hb. cbn in Hb.
    change (foldl delivery_step ?x ops) with (delivery_run ops x) in Hm. rewrite delivery_run_manager in Hm. cbn in Hm.
    pose proof (channel_grows (rp_id r) (manager_ops ops) m Hk). lia.
  - rewrite decide_False, (proj1 (client_unsent r)) by done. lia.
  - rewrite decide_False, (proj2 (client_unsent r)) by done. lia.
Qed.

(** ** A client that reads everything *)
Definition all_read (m : SessionManager) (r : session_response) : Prop :=
  rp_queue r = [] ∧ rp_hand r = None ∧ rp_next r = length (channel (rp_id r) m).

(** Without a handler of its own and without lagging, a response is the session's events
    since the subscription. *)
Lemma delivered_all id cid mode m ops m' r : keeps_session id ops → channel id m = [] →
  let start := (m, response_start id cid mode 0 []) in
  keeps_up ops start = true → delivery_run ops start = (m', r) → all_read m' r →
  rp_read r = event_message (uuid_to_string id) cid mode <$> channel id m'.
Proof.
  intros Hops Hc start Hup Hrun (Hq & Hh & Hn). assert (response_ok 0 [] m start.2) as Hok by (apply response_start_ok; lia).
  destruct (delivery_run_ok 0 [] ops start Hops Hok) as (Hok' & Hid & Hmsg). pose proof (keeps_up_run ops start Hup (List.Forall_nil _)) as Hall.
  rewrite Hrun in *. cbn in Hok', Hid, Hmsg, Hall. destruct Hok' as [_ Hp (sent & fwd & Hm & Ht & Hi) _ _]. symmetry in Hm. apply app_nil in Hm as [-> _].
  rewrite Hh, app_nil_r in Ht. assert (delivered r = fwd) as Hd.
  { clear -Hi. remember [] as l eqn:E. induction Hi as [|l k m a _ IH|l k m a _ IH]; [done| |by rewrite IH].
    by apply app_nil in E as [_ ?]. }
  unfold delivered in Hd. rewrite Hq, app_nil_r in Hd. rewrite Hd, <-Ht, Hmsg, (taken_all _ Hall), Hp, Hn, Hid, Nat.sub_0_r, drop_0. by rewrite firstn_all.
Qed.

(** The messages [msgs] of a session's [events] reach the client that opened it: the event
    loop broadcasts them, and the client reads to the end of a response whose task keeps
    up. *)
Definition reaches_client (id : Uuid) (cid : string) (mode : SessionMode) (events : list SessionServerEvent)
    (msgs : list proto.SessionServerMessage) : Prop :=
  ∃ token t0 sender cap fp m0 ops m r,
    let start := ((open_session (Ok tt) id token t0 sender cap fp m0).1, response_start id cid mode 0 []) in
    keeps_session id ops ∧ keeps_up ops start = true ∧ delivery_run ops start = (m, r) ∧ all_read m r ∧
    be_event <$> channel id m = events ∧ rp_read r = msgs.
Lemma reaches_client_messages id cid mode events msgs : reaches_client id cid mode events msgs →
  ∃ bes, be_event <$> bes = events ∧ msgs = event_message (uuid_to_string id) cid mode <$> bes.
Proof.
  intros (token & t0 & sender & cap & fp & m0 & ops & m & r & Hk & Hup & Hrun & Hall & He & <-). exists (channel id m). split; [done|].
  eapply delivered_all; try done. unfold channel. cbn. by rewrite lookup_insert_eq.
Qed.

(** While nothing is broadcast, a response holds what the handler sent. *)
Lemma delivered_replay id cid mode m k msgs ops : manager_ops ops = [] → k = length (channel id m) → (length msgs ≤ RESPONSE_CHANNEL_CAPACITY)%nat →
  (length msgs ≤ handler_steps ops)%nat →
  ∃ r, delivery_run ops (m, response_start id cid mode k msgs) = (m, r) ∧ rp_unsent r = [] ∧ delivered r = msgs.
Proof.
  intros Hm Hk Hl Hs. set (start := (m, response_start id cid mode k msgs)).
  assert (keeps_session id ops) as Hops by (unfold keeps_session; rewrite Hm; constructor).
  assert (response_ok k msgs m start.2) as Hok by (apply response_start_ok; lia).
  destruct (delivery_run_ok k msgs ops start Hops Hok) as (Hok' & Hid & _). pose proof (delivery_run_manager ops start) as Hman. rewrite Hm in Hman.
  pose proof (returns k msgs ops start Hops Hok) as Hret. rewrite Hman in Hret. destruct (delivery_run ops start) as [m' r]. cbn in *. subst m'. exists r. split; [done|].
  assert (rp_unsent r = []) as Hu by (apply nil_length_inv; lia). split; [done|].
  destruct Hok' as [Hn Hp (sent & fwd & Hmerge & Ht & Hi) _ _]. rewrite Hu, app_nil_r in Hmerge. subst sent. apply (interleaves_only _ _ _ Hi).
  rewrite Hid in Hn. apply (f_equal length) in Hp, Ht. rewrite length_fmap, length_take in Hp. rewrite length_fmap, length_app in Ht. pose proof (taken_length r).
  apply nil_length_inv. lia.
Qed.

(** C8: Resuming a session loses nothing unless the server's forwarding task lags.  A client
    that has seen the output [p] of a session subscribes and then asks for the output it
    missed, at most [DEFAULT_OUTPUT_BUFFER_CAPACITY] frames.  Whatever the session, other
    clients, the forwarding task, the handler and the client's reading do, before and after
    and in whatever order: the replay is exactly the frames missed, [q]; what the session
    has printed since is among the events the forwarding task has come past, those it has
    still to receive and the one about to be broadcast; and what the response holds, read or
    waiting, is a merge of the first messages of the replay and, in order, of the messages of
    the events the task has received (one of them may still be in its hands).  The events it
    has come past are the ones it received, with none overwritten, as long as it never falls
    [DEFAULT_EVENT_CHANNEL_CAPACITY] events behind. *)
Theorem resume_loses_nothing token t0 sender cap fp m0 os1 os2 id k p q replay cid mode next ops :
  let m1 := sm_run os1 (open_session (Ok tt) id token t0 sender cap fp m0).1 in
  let m2 := sm_run os2 m1 in
  Forall (λ o, ¬ opens id o) (os1 ++ os2)%list → keeps_session id ops → subscribe_events id m1 = Ok k →
  session_log id m2 = (p ++ q)%list → (length q ≤ DEFAULT_OUTPUT_BUFFER_CAPACITY)%nat →
  Z.of_nat (length (session_log id m2)) + 1 < 2 ^ 64 →
  buffered_output_since id (last_seen Stdout p) (last_seen Stderr p) m2 = Ok replay →
  let msgs := replay_messages (uuid_to_string id) cid mode replay next in
  let start := (m2, response_start id cid mode k msgs) in
  let '(m3, r) := delivery_run ops start in
  replay = q ∧
  ∃ later sent forwarded, session_log id m3 = (p ++ q ++ later)%list ∧
    later `suffix_of` (frames ((rp_passed r).*2 ++ drop (rp_next r) (channel id m3)) ++ pending (sm_loops m3 !! id))%list ∧
    msgs = (sent ++ rp_unsent r)%list ∧
    event_message (uuid_to_string id) cid mode <$> taken r = (forwarded ++ option_list (rp_hand r))%list ∧
    interleaves sent forwarded (delivered r) ∧
    (keeps_up ops start = true → taken r = (rp_passed r).*2).
Proof.
  intros m1 m2 Hos Hops Hsub Hlog Hq Hlen Hrep msgs start. apply Forall_app in Hos as [Hos1 Hos2].
  destruct (replay_then_live token t0 sender cap fp m0 os1 os2 (manager_ops ops) id k p q replay) as (Hr & Hk & later & Hl & Hs); try done.
  { by repeat (apply Forall_app; split). }
  assert (response_ok k msgs m2 start.2) as Hok.
  { apply response_start_ok. rewrite Hk. by apply channel_grows. }
  destruct (delivery_run_ok k msgs ops start Hops Hok) as (Hok' & Hid & Hmsg). pose proof (delivery_run_manager ops start) as Hm.
  pose proof (keeps_up_run ops start) as Hup. destruct (delivery_run ops start) as [m3 r]. cbn in Hok', Hid, Hmsg, Hm, Hup. split; [done|].
  fold m1 m2 in Hl, Hs. rewrite <-Hm in Hl, Hs. destruct Hok' as [Hn Hp (sent & fwd & Hmerge & Ht & Hi) _ _]. rewrite Hid in Hn, Hp.
  exists later, sent, fwd. split_and!; [done| |done|by rewrite <-Ht, Hmsg|done|].
  - assert (((rp_passed r).*2 ++ drop (rp_next r) (channel id m3))%list = drop k (channel id m3)) as ->; [|done]. rewrite Hp.
    rewrite <-(take_drop (rp_next r - k) (drop k (channel id m3))) at 2. f_equal. rewrite drop_drop. f_equal. lia.
  - intros Hu. apply taken_all, Hup; [done|constructor].
Qed.

(** A task that has fallen behind loses what was overwritten: a client that reads slowly
    misses lines in the middle.  Here 300 lines were printed before the task ran. *)
Definition overrun (line : byte) : list sm_op := concat (replicate 300 [SmLoop 1 7 (Some (SOutput [line] false false None)); SmLoop 1 7 None; SmLoop 1 7 None]).
Lemma slow_task_loses_lines : let m := sm_run (overrun x61) demo_open in
  let r := (delivery_run [DvForward; DvForward] (m, response_start 7%N "sh" Realtime 0 [])).2 in
  keeps_up [DvForward; DvForward] (m, response_start 7%N "sh" Realtime 0 []) = false ∧
  length (rp_passed r) = 45%nat ∧ (bo_sequence <$> frames (taken r)) = [45].
Proof. vm_compute. by split_and!. Qed.
End delivery.

(** ** Witness *)
#[local] Existing Instance demo_uuid.

(** One line was seen, one missed, one comes while the replay is sent. *)
Definition demo_delivery : list delivery_op :=
  (DvManager <$> demo_output x03) ++ [DvForward; DvForward; DvHandler; DvForward; DvHandler; DvForward; DvRead; DvRead; DvRead].
Lemma resume_loses_nothing_witness : ∃ m3 r later,
  delivery_run demo_delivery (sm_run [demo_tick; demo_tick] (sm_run (demo_output x01 ++ [demo_out x02]) demo_open),
    response_start 7%N "sh" Realtime 1 (replay_messages (uuid_to_string 7%N) "sh" Realtime [demo_frame 2 x02] "t1")) = (m3, r) ∧
  session_log 7 m3 = [demo_frame 1 x01; demo_frame 2 x02] ++ later ∧ length later = 1%nat ∧ taken r = (rp_passed r).*2.
Proof.
  pose proof (resume_loses_nothing "t0" 0 1%N demo_cap None SessionManager_new (demo_output x01 ++ [demo_out x02]) [demo_tick; demo_tick] 7%N 1
    [demo_frame 1 x01] [demo_frame 2 x02] [demo_frame 2 x02] "sh" Realtime "t1" demo_delivery) as Hr.
  cbv zeta in Hr. destruct (delivery_run demo_delivery _) as [m3 r] eqn:E.
  destruct Hr as (_ & later & sent & fwd & Hlog & _ & _ & _ & _ & Hup); try (vm_compute; reflexivity).
  - repeat constructor; simpl; tauto.
  - repeat constructor; simpl; tauto.
  - vm_compute. lia.
  - exists m3, r, later. split; [reflexivity|]. split; [exact Hlog|]. split; [|apply Hup; vm_compute; reflexivity].
    vm_compute in E. injection E as <- <-. vm_compute in Hlog. by injection Hlog as <-.
Defined.
