(* ===== verification/Service.v ===== *)
(** * The gRPC service (server/src/grpc/server.rs, utils/qr.rs)

    [RemoteControlService] as a record of the components it shares; one function
    per RPC.  Clock readings, fresh identifiers and the answers of the disk are
    inputs of a call; [None] is a panic.  Serialising the QR payload and formatting
    a date are the class [QrCrates]. *)

From S2P Require Import Prelude RustStd ThirdParty Fs Net Network Config Registry Enrollment.
From S2P Require Import Pairing Certificates ClientStore Approve SessionState SessionManager Verification RelayTokens Proto Delivery.

Local Open Scope string_scope.
Local Open Scope Z_scope.

Inductive Code := InvalidArgument | Unauthenticated | PermissionDenied | StatusNotFound | ResourceExhausted
  | FailedPrecondition | Internal.
Record Status := mkStatus { st_code : Code; st_message : string }.

Record RemoteControlService := mkService {
  sv_config : Config;
  sv_server_cert : ServerCertificate;
  sv_server_id : Uuid;
  sv_fs : FileSystem;
  sv_client_store : ClientStore;
  sv_enrollment_manager : EnrollmentTokenManager;
  sv_pairing_manager : PairingRequestManager;
  sv_config_version : Z;
  sv_last_config_update : Z;
  sv_token_issuer : option TokenIssuer;
  sv_session_manager : SessionManager;
}.

Definition with_store (fs : FileSystem) (s : ClientStore) (sv : RemoteControlService) : RemoteControlService :=
  mkService (sv_config sv) (sv_server_cert sv) (sv_server_id sv) fs s (sv_enrollment_manager sv) (sv_pairing_manager sv)
    (sv_config_version sv) (sv_last_config_update sv) (sv_token_issuer sv) (sv_session_manager sv).
Definition with_tokens (t : EnrollmentTokenManager) (sv : RemoteControlService) : RemoteControlService :=
  mkService (sv_config sv) (sv_server_cert sv) (sv_server_id sv) (sv_fs sv) (sv_client_store sv) t (sv_pairing_manager sv)
    (sv_config_version sv) (sv_last_config_update sv) (sv_token_issuer sv) (sv_session_manager sv).
Definition with_pairing (p : PairingRequestManager) (sv : RemoteControlService) : RemoteControlService :=
  mkService (sv_config sv) (sv_server_cert sv) (sv_server_id sv) (sv_fs sv) (sv_client_store sv) (sv_enrollment_manager sv) p
    (sv_config_version sv) (sv_last_config_update sv) (sv_token_issuer sv) (sv_session_manager sv).
Definition with_sessions (m : SessionManager) (sv : RemoteControlService) : RemoteControlService :=
  mkService (sv_config sv) (sv_server_cert sv) (sv_server_id sv) (sv_fs sv) (sv_client_store sv) (sv_enrollment_manager sv)
    (sv_pairing_manager sv) (sv_config_version sv) (sv_last_config_update sv) (sv_token_issuer sv) m.

(** ** Messages *)
Record RelayInfo := mkRelayInfo { ri_relay_url : string; ri_relay_token : string; ri_relay_required : bool }.

Record EnrollRequest := mkEnrollRequest {
  er_enrollment_token : string;
  er_client_certificate : bytes;
  er_device_name : string;
}.
Record EnrollResponse := mkEnrollResponse {
  es_success : bool;
  es_client_id : string;
  es_error_message : string;
  es_relay_info : option RelayInfo;
}.

Record GenerateEnrollmentQrResponse := mkQrResponse {
  qr_success : bool;
  qr_payload : string;
  qr_server_ips : list string;
  qr_server_port : Z;
  qr_server_cert_fingerprint : string;
  qr_server_id : string;
  qr_enrollment_token : string;
  qr_ttl_seconds : Z;
  qr_error_message : string;
  qr_relay_info : option RelayInfo;
  qr_valid_until : string;
}.
Definition qr_refused (e : string) : GenerateEnrollmentQrResponse := mkQrResponse false "" [] 0 "" "" "" 0 e None "".

Record RequestPairingRequest := mkRequestPairingRequest {
  rpr_device_name : string;
  rpr_device_model : string;
  rpr_client_certificate : bytes;
  rpr_verification_code : string;
}.
Record RequestPairingResponse := mkRequestPairingResponse {
  rps_pending : bool;
  rps_pairing_request_id : string;
  rps_timeout_seconds : Z;
  rps_verification_code : string;
  rps_server_cert_fingerprint : bytes;
  rps_error_message : string;
  rps_verification_nonce : bytes;
}.
Definition pairing_refused (e : string) : RequestPairingResponse := mkRequestPairingResponse false "" 0 "" [] e [].

Record CheckPairingStatusResponse := mkCheckPairingStatusResponse {
  cps_status : Z;
  cps_client_id : string;
  cps_error_message : string;
  cps_relay_info : option RelayInfo;
}.
Record ApprovePairingResponse := mkApprovePairingResponse {
  aps_success : bool;
  aps_client_id : string;
  aps_error_message : string;
}.
Record PendingPairingInfo := mkPendingPairingInfo {
  ppi_request_id : string;
  ppi_device_name : string;
  ppi_device_model : string;
  ppi_verification_code : string;
  ppi_expires_at_unix : Z;
  ppi_seconds_remaining : Z;
  ppi_ip_address : string;
}.
Record ServerInfoResponse := mkServerInfoResponse {
  sir_server_id : string;
  sir_hostname : string;
  sir_version : string;
  sir_os : string;
}.

(** ** The QR payload ([utils/qr.rs]) *)
Record RelayQrInfo := mkRelayQrInfo {
  rq_relay_url : string;
  rq_relay_token : string;
  rq_relay_required : bool;
  rq_allow_self_signed_tls : bool;
  rq_pinned_cert_sha256 : option string;
}.
Record EnrollmentQrPayload := mkEnrollmentQrPayload {
  eq_ips : list string;
  eq_port : Z;
  eq_cert_fingerprint : string;
  eq_enrollment_token : string;
  eq_server_id : string;
  eq_valid_until : string;
  eq_relay : option RelayQrInfo;
}.

Class QrCrates := {
  format_rfc3339 : Z → option string;
  odt_to_string : Z → string;
  qr_json : EnrollmentQrPayload → option string;
}.

(** ** The state of a call: the peer's certificates, the request headers and the
    remote address. *)
Record caller := mkCaller {
  ca_peer_certs : option (list bytes);
  ca_headers : string → option (option string);
  ca_remote_addr : option IpAddr;
}.
Definition client_ip (c : caller) : option IpAddr := extract_client_ip_from_headers (ca_headers c) (ca_remote_addr c).

Section service.
Context `{Sha256, HexEncode, TomlCodec ClientRegistry, TokenCrates, UuidText, QrCrates}.

Definition EnrollmentQrPayload_new (ips : list string) (port : Z) (fp token : string) (server_id : Uuid) (valid_until : Z)
    (relay : option RelayQrInfo) : EnrollmentQrPayload :=
  mkEnrollmentQrPayload ips port fp token (uuid_to_string server_id)
    (default (odt_to_string valid_until) (format_rfc3339 valid_until)) relay.

Definition to_json (p : EnrollmentQrPayload) : result string string :=
  ok_or (qr_json p) "Failed to serialize QR payload to JSON".

(** Durations are nanoseconds. *)
Definition relay_token_ttl (r : RelayConfig) (ttl_override : option Z) : option Z :=
  let config_ttl := Z.max (saturating_mul_u64 (rel_relay_token_ttl_hours r) 3600) 1 * NANOS in
  match ttl_override with
  | Some t => if dur_is_zero t then None else Some (Z.min t config_ttl)
  | None => Some config_ttl
  end.

Definition generate_relay_info (now : Z) (subject binding_type binding_value : string) (ttl_override : option Z)
    (sv : RemoteControlService) : option RelayInfo :=
  let r := cfg_relay (sv_config sv) in
  if negb (rel_enabled r) || negb (rel_include_in_enrollment r) then None
  else
    issuer ← sv_token_issuer sv;
    relay_url ← rel_relay_server_url r;
    ttl ← relay_token_ttl r ttl_override;
    match generate_relay_token now subject relay_url ttl binding_type binding_value issuer with
    | Ok token => Some (mkRelayInfo relay_url token false)
    | Err _ => None
    end.

Definition ensure_enrolled_client (c : caller) (sv : RemoteControlService) : result Status (option string) :=
  let require_cert := sec_require_client_cert (cfg_security (sv_config sv)) in
  match ca_peer_certs c with
  | Some (certificate :: _) =>
      let fingerprint_hex := hex_encode (sha256 certificate) in
      if is_authorized fingerprint_hex (sv_client_store sv) then Ok (Some fingerprint_hex)
      else if require_cert then
        Err (mkStatus PermissionDenied "Client certificate is not enrolled on this server")
      else Ok None
  | _ =>
      if require_cert then Err (mkStatus Unauthenticated "Client TLS certificate required") else Ok None
  end.

Definition status_from_session_error (e : SessionManagerError) : Status :=
  match e with
  | NotFound => mkStatus StatusNotFound "session not found"
  | AlreadyAttached => mkStatus ResourceExhausted "session already has an active attachment"
  | NotAttached => mkStatus FailedPrecondition "session is not currently attached"
  | InvalidResumeToken => mkStatus PermissionDenied "invalid resume token"
  end.

(** ** [enroll] *)
Record enroll_input := mkEnrollInput {
  ei_now : Z;                           (* at the token check *)
  ei_client_id : string;                (* the new client's UUID *)
  ei_added_at : Z;
  ei_cert_write : write_answer;
  ei_meta_write : write_answer;
  ei_relay_now : Z;
}.

Definition enroll (i : enroll_input) (c : caller) (req : EnrollRequest) (sv : RemoteControlService)
    : RemoteControlService * result Status EnrollResponse :=
  if negb (enr_qr_code_enabled (sec_enrollment (cfg_security (sv_config sv)))) then
    (sv, Ok (mkEnrollResponse false "" "QR code enrollment is disabled on this server" None))
  else
    let '(tokens, checked) := validate_and_consume (ei_now i) (er_enrollment_token req) (sv_enrollment_manager sv) in
    let sv1 := with_tokens tokens sv in
    match checked with
    | Err e => (sv1, Ok (mkEnrollResponse false "" (String.append "Invalid enrollment token: " e) None))
    | Ok _ =>
        if bool_decide (er_client_certificate req = []) then
          (sv1, Err (mkStatus InvalidArgument "Client certificate is required"))
        else
          let cert := ClientCertificate_from_der (er_client_certificate req) in
          let '(fs, store, added) := add_client (ei_client_id i) (ei_added_at i) (ei_cert_write i) (ei_meta_write i)
                                       cert (er_device_name req) (client_ip c) (sv_fs sv1) (sv_client_store sv1) in
          let sv2 := with_store fs store sv1 in
          match added with
          | Err e => (sv2, Err (mkStatus Internal (String.append "Failed to store client certificate: " e)))
          | Ok client_id =>
              (sv2, Ok (mkEnrollResponse true client_id ""
                 (generate_relay_info (ei_relay_now i) client_id BINDING_TYPE_CLIENT_ID client_id None sv2)))
          end
    end.

(** ** [generate_enrollment_qr] *)
Record qr_input := mkQrInput {
  qi_now : Z;                           (* creating the token *)
  qi_cleanup_now : Z;
  qi_token : string;                    (* the token's UUID *)
  qi_interfaces : option (list (string * IpAddr));
  qi_payload_now : Z;
  qi_relay_now : Z;
}.

Definition advertised_ips (interfaces : option (list (string * IpAddr))) (cfg : Config) : list string :=
  let bind := srv_bind_address (cfg_server cfg) in
  if bool_decide (bind = "0.0.0.0") || bool_decide (bind = "::") then
    let n := cfg_network cfg in
    let ips := get_all_local_ips_with_options interfaces
                 (mkNetworkOptions (net_include_link_local n) (net_prefer_stable_addresses n)
                    (Some (net_max_advertised_addresses n))) in
    match ips with [] => ["127.0.0.1"] | _ => ips end
  else [bind].

Definition generate_enrollment_qr (i : qr_input) (sv : RemoteControlService)
    : option (RemoteControlService * GenerateEnrollmentQrResponse) :=
  let config := sv_config sv in
  if negb (enr_qr_code_enabled (sec_enrollment (cfg_security config))) then
    Some (sv, qr_refused "QR code enrollment is disabled on this server")
  else
    '(tokens, token) ← generate_token (qi_now i) (qi_cleanup_now i) (qi_token i) (sv_enrollment_manager sv);
    let sv1 := with_tokens tokens sv in
    let server_ips := advertised_ips (qi_interfaces i) config in
    let now := qi_payload_now i in
    let enrollment_ttl := if now <? et_expires_at token then Some (et_expires_at token - now) else None in
    let relay_info := generate_relay_info (qi_relay_now i) (et_token token) BINDING_TYPE_ENROLLMENT_TOKEN (et_token token)
                        enrollment_ttl sv1 in
    let relay_qr_info := (λ info, mkRelayQrInfo (ri_relay_url info) (ri_relay_token info) (ri_relay_required info)
                            (rel_allow_self_signed_tls (cfg_relay config)) (rel_pinned_cert_sha256 (cfg_relay config)))
                         <$> relay_info in
    let payload := EnrollmentQrPayload_new server_ips (srv_port (cfg_server config))
                     (fingerprint_display (sv_server_cert sv)) (et_token token) (sv_server_id sv) (et_expires_at token)
                     relay_qr_info in
    match to_json payload with
    | Err e => Some (sv1, qr_refused (String.append "Failed to serialize QR payload: " e))
    | Ok json =>
        Some (sv1, mkQrResponse true json server_ips (srv_port (cfg_server config))
          (fingerprint_display (sv_server_cert sv)) (uuid_to_string (sv_server_id sv)) (et_token token)
          (wrap_i 32 (sec_enrollment_token_ttl (cfg_security config))) "" relay_info (eq_valid_until payload))
    end.

(** ** [request_pairing] *)
Record pairing_input := mkPairingInput {
  pi_nonce : bytes;                     (* 32 random bytes *)
  pi_now : Z;
  pi_cleanup_now : Z;
  pi_request_id : string;
}.

(** The notification's outcome is only logged. *)
Definition request_pairing (i : pairing_input) (c : caller) (req : RequestPairingRequest) (sv : RemoteControlService)
    : option (RemoteControlService * result Status RequestPairingResponse) :=
  let enrollment := sec_enrollment (cfg_security (sv_config sv)) in
  if negb (enr_approval_enabled enrollment) then
    Some (sv, Ok (pairing_refused "Approval mode enrollment is disabled on this server"))
  else if bool_decide (rpr_client_certificate req = []) then
    Some (sv, Err (mkStatus InvalidArgument "Client certificate is required"))
  else
    code ← generate_verification_code (rpr_client_certificate req) (sc_cert_der (sv_server_cert sv)) (sv_server_id sv) (pi_nonce i);
    if negb (str_is_empty (rpr_verification_code req)) && bool_decide (rpr_verification_code req ≠ code) then
      Some (sv, Ok (pairing_refused "Verification failed - possible MITM attack"))
    else
      '(pairing, request) ← create_request (pi_now i) (pi_cleanup_now i) (pi_request_id i) (rpr_device_name req)
        (if str_is_empty (rpr_device_model req) then None else Some (rpr_device_model req)) (rpr_client_certificate req)
        code (client_ip c) (sv_pairing_manager sv);
      Some (with_pairing pairing sv,
        Ok (mkRequestPairingResponse true (pr_request_id request) (wrap_i 32 (enr_approval_timeout_seconds enrollment)) code
              (sc_fingerprint (sv_server_cert sv)) "" (pi_nonce i))).

(** ** [check_pairing_status]: clock readings of the look-up, of the expiry check
    and of the token. *)
Definition check_pairing_status (now1 now2 now3 : Z) (id : string) (sv : RemoteControlService)
    : RemoteControlService * CheckPairingStatusResponse :=
  let '(pairing, found) := get_request now1 id (sv_pairing_manager sv) in
  let sv1 := with_pairing pairing sv in
  match found with
  | None => (sv1, mkCheckPairingStatusResponse 0 "" "Pairing request not found" None)
  | Some r =>
      let '(status, client_id, error) :=
        match pr_status r with
        | Pending => if pairing_is_expired now2 r then (4, "", "Pairing request timed out") else (1, "", "")
        | Approved => (2, default "" (pr_client_id r), "")
        | Rejected => (3, "", "Pairing request rejected by user")
        | Timeout => (4, "", "Pairing request timed out")
        end in
      let relay_info := if (status =? 2) && negb (str_is_empty client_id)
                        then generate_relay_info now3 client_id BINDING_TYPE_CLIENT_ID client_id None sv1 else None in
      (sv1, mkCheckPairingStatusResponse status client_id error relay_info)
  end.

(** ** [approve_pairing] *)
Definition approve_pairing (i : approve_input) (c : caller) (id : string) (sv : RemoteControlService)
    : RemoteControlService * result Status ApprovePairingResponse :=
  match ensure_enrolled_client c sv with
  | Err e => (sv, Err e)
  | Ok _ =>
      let '(pairing, fs, store, r) := approve_pairing_request i id (sv_pairing_manager sv) (sv_fs sv) (sv_client_store sv) in
      (with_pairing pairing (with_store fs store sv),
       Ok match r with
          | Ok client_id => mkApprovePairingResponse true client_id ""
          | Err e => mkApprovePairingResponse false "" e
          end)
  end.

(** [Duration::whole_seconds] truncates towards zero. *)
Definition pending_info (now : Z) (r : PairingRequest) : PendingPairingInfo :=
  mkPendingPairingInfo (pr_request_id r) (pr_device_name r) (default "" (pr_device_model r)) (pr_verification_code r)
    (pr_expires_at r / NANOS) (wrap_i 32 (Z.max (Z.quot (pr_expires_at r - now) NANOS) 0))
    (default "" (ip_to_string <$> pr_ip_address r)).

(** ** [list_pending_pairings]: clock readings of the two filters and of the
    answer (one reading stands for those of the single entries). *)
Definition list_pending_pairings (now1 now2 now3 : Z) (c : caller) (sv : RemoteControlService)
    : RemoteControlService * result Status (list PendingPairingInfo) :=
  match ensure_enrolled_client c sv with
  | Err e => (sv, Err e)
  | Ok _ =>
      let '(pairing, l) := list_pending now1 now2 (sv_pairing_manager sv) in
      (with_pairing pairing sv, Ok (pending_info now3 <$> l))
  end.

Definition get_server_info (hostname : option string) (version os : string) (sv : RemoteControlService) : ServerInfoResponse :=
  mkServerInfoResponse (uuid_to_string (sv_server_id sv)) (default "unknown" hostname) version os.

Definition list_capabilities (c : caller) (sv : RemoteControlService) : result Status (list proto.Capability * Z) :=
  _ ← ensure_enrolled_client c sv;
  registry ← map_err (λ _, mkStatus Internal "Failed to load capabilities") (from_config (sv_config sv));
  Ok (proto_from_metadata <$> list_metadata registry, sv_config_version sv).

Definition rpc_list_sessions (c : caller) (sv : RemoteControlService) : result Status (list proto.SessionInfo) :=
  _ ← ensure_enrolled_client c sv;
  Ok (session_snapshot_to_proto <$> list_sessions (sv_session_manager sv)).

Definition get_config_version (c : caller) (sv : RemoteControlService) : result Status (Z * Z) :=
  _ ← ensure_enrolled_client c sv;
  Ok (sv_config_version sv, wrap_i 64 (sv_last_config_update sv)).

(** [watch_config_updates]: what the stream carries of the updates broadcast
    after the subscription. *)
Definition watch_config_updates (c : caller) (updates : list (Z * Z)) (sv : RemoteControlService) : result Status (list (Z * Z)) :=
  _ ← ensure_enrolled_client c sv; Ok updates.

(** ** Sessions *)
(** One message of the client's stream: whether and what is forwarded. *)
Definition client_event (session_id : string) (message : proto.SessionClientMessage) : option SessionClientEvent :=
  if negb (str_is_empty (proto.cm_session_id message)) && bool_decide (proto.cm_session_id message ≠ session_id) then None
  else client_message_to_event message.

(** [forward_client_events]: each item of the stream comes with a clock reading and
    the answer to the send; [None] is the end of the stream.  At the end the
    session is detached. *)
Fixpoint forward_client_events (id : Uuid) (stream : list (Z * result Status (option proto.SessionClientMessage) * bool))
    (end_now : Z) (m : SessionManager) : SessionManager * list SessionClientEvent :=
  match stream with
  | (now, Ok (Some message), sent) :: rest =>
      match client_event (uuid_to_string id) message with
      | Some (CResume _ _ _) | None => forward_client_events id rest end_now m
      | Some event =>
          let m1 := match event with CHeartbeat _ => (manager_touch_heartbeat now id m).1 | _ => m end in
          if sent then let '(m2, out) := forward_client_events id rest end_now m1 in (m2, event :: out)
          else ((detach end_now id m1).1, [])
      end
  | _ => ((detach end_now id m).1, [])
  end.

Record open_input := mkOpenInput {
  oi_initial : result Status (option proto.SessionClientMessage);
  oi_opened : Capability → gmap string string → result string unit;  (* the capability's own [open_session] *)
  oi_uuid : Uuid;
  oi_resume_token : string;
  oi_now : Z;
  oi_sender : N;
  oi_attachment : Uuid;
  oi_attach_now : Z;
  oi_next_token : string;
  oi_before_attach : list sm_op;        (* what else happens between subscribing and attaching, *)
  oi_before_replay : list sm_op;        (* between attaching and reading the buffer, *)
  oi_meanwhile : list delivery_op;      (* and while the handler sends *)
}.

(** The manager and the response when [oi_meanwhile] is over; [None]: the handler has not
    returned by then. *)
Definition handle_resume_session (i : open_input) (session_id_str resume_token : string) (lo le : option Z)
    (fingerprint : option string) (m : SessionManager)
    : SessionManager * option (result Status session_response) :=
  if str_is_empty session_id_str then
    (m, Some (Err (mkStatus InvalidArgument "Resume request missing session identifier")))
  else
    match uuid_parse session_id_str with
    | None => (m, Some (Err (mkStatus InvalidArgument "Resume request contained invalid session identifier")))
    | Some id =>
        match snapshot id m, subscribe_events id m, get_sender id m with
        | Err e, _, _ | _, Err e, _ => (m, Some (Err (status_from_session_error e)))
        | Ok _, Ok _, None => (m, Some (Err (mkStatus StatusNotFound "Session not found")))
        | Ok snap, Ok receiver, Some _ =>
            let '(m1, r) := attach_with_token (oi_attachment i) (oi_attach_now i) (oi_next_token i) id
                              (mkAttachmentMetadata fingerprint) resume_token (sm_run (oi_before_attach i) m) in
            match r with
            | Err e => (m1, Some (Err (status_from_session_error e)))
            | Ok (_, next_token) =>
                let m2 := sm_run (oi_before_replay i) m1 in
                match buffered_output_since id lo le m2 with
                | Err e => (m2, Some (Err (status_from_session_error e)))
                | Ok frames =>
                    let '(m3, resp) := delivery_run (oi_meanwhile i)
                      (m2, response_start id (sp_capability_id snap) (sp_session_mode snap) receiver
                             (replay_messages (uuid_to_string id) (sp_capability_id snap) (sp_session_mode snap) frames next_token)) in
                    (m3, match rp_unsent resp with [] => Some (Ok resp) | _ => None end)
                end
            end
        end
    end.

Definition rpc_open_session (i : open_input) (c : caller) (sv : RemoteControlService)
    : RemoteControlService * option (result Status session_response) :=
  match ensure_enrolled_client c sv with
  | Err e => (sv, Some (Err e))
  | Ok fingerprint =>
      match oi_initial i with
      | Err e => (sv, Some (Err e))
      | Ok None => (sv, Some (Err (mkStatus InvalidArgument "Missing initial session message")))
      | Ok (Some message) =>
          match proto.cm_payload message with
          | Some (proto.Open capability_id parameters _) =>
              match from_config (sv_config sv) with
              | Err _ => (sv, Some (Err (mkStatus Internal "Failed to load capabilities")))
              | Ok registry =>
                  match registry_get capability_id registry with
                  | None => (sv, Some (Err (mkStatus StatusNotFound
                      (String.append "Capability '" (String.append capability_id "' not found")))))
                  | Some capability =>
                      let '(m1, r) := open_session (oi_opened i capability parameters) (oi_uuid i) (oi_resume_token i)
                                        (oi_now i) (oi_sender i) capability fingerprint (sv_session_manager sv) in
                      match r with
                      | Err _ => (with_sessions m1 sv, Some (Err (mkStatus Internal "Failed to open capability session")))
                      | Ok h =>
                          let '(m2, a) := attach (oi_attachment i) (oi_attach_now i) (hd_id h) (mkAttachmentMetadata fingerprint)
                                            (sm_run (oi_before_attach i) m1) in
                          match a with
                          | Err e => (with_sessions m2 sv, Some (Err (status_from_session_error e)))
                          | Ok _ => (with_sessions m2 sv,
                              Some (Ok (response_start (hd_id h) (hd_capability_id h) (hd_session_mode h) (hd_event_receiver h) [])))
                          end
                      end
                  end
              end
          | Some (proto.Resume tok lo le) =>
              let '(m1, r) := handle_resume_session i (proto.cm_session_id message) tok lo le fingerprint
                                (sv_session_manager sv) in
              (with_sessions m1 sv, r)
          | _ => (sv, Some (Err (mkStatus InvalidArgument "First message must be SessionOpen or SessionResume")))
          end
      end
  end.
End service.

(** ** Resuming *)
Section resume.
Context `{UuidText, !UuidTextLaws}.

Lemma attach_with_token_entry uuid now next id md tok m m1 r : attach_with_token uuid now next id md tok m = (m1, Ok r) →
  ∃ e, sm_sessions m !! id = Some e ∧ r.2 = next.
Proof.
  unfold attach_with_token, with_session_state, get_entry. destruct (sm_sessions m !! id) as [e|]; [|done]. cbn.
  destruct (negb _); [done|]. unfold lift_state, try_attach. destruct (ss_attachment (se_state e)); [done|].
  cbn. intros ?; simplify_eq/=. by exists e.
Qed.

Lemma attach_log uuid now next id md tok m m1 r : attach_with_token uuid now next id md tok m = (m1, r) → session_log id m1 = session_log id m.
Proof. intros Ha. assert (m1 = (attach_with_token uuid now next id md tok m).1) as -> by (by rewrite Ha). apply with_session_state_log. Qed.

(** A resumption that is accepted. *)
Lemma handle_resume_answer i id tok lo le fp m m1 att frames :
  uuid_to_string id ≠ "" → is_Some (sm_sessions m !! id) →
  attach_with_token (oi_attachment i) (oi_attach_now i) (oi_next_token i) id (mkAttachmentMetadata fp) tok
    (sm_run (oi_before_attach i) m) = (m1, Ok att) →
  buffered_output_since id lo le (sm_run (oi_before_replay i) m1) = Ok frames →
  ∃ cid mode, handle_resume_session i (uuid_to_string id) tok lo le fp m =
    let '(m3, resp) := delivery_run (oi_meanwhile i) (sm_run (oi_before_replay i) m1,
      response_start id cid mode (length (channel id m)) (replay_messages (uuid_to_string id) cid mode frames (oi_next_token i))) in
    (m3, match rp_unsent resp with [] => Some (Ok resp) | _ => None end).
Proof.
  intros Hid [e He] Ha Hb. destruct (attach_with_token_entry _ _ _ _ _ _ _ _ _ Ha) as (_ & _ & Hnext).
  exists (se_capability_id e), (se_session_mode e). unfold handle_resume_session.
  assert (str_is_empty (uuid_to_string id) = false) as -> by (by destruct (uuid_to_string id)).
  rewrite uuid_parse_to_string. unfold snapshot, subscribe_events, get_entry, get_sender. rewrite He. cbn [ok_or mbind result_bind fmap option_fmap option_map].
  rewrite Ha. destruct att as [a next]; cbn in Hnext; subst next. by rewrite Hb.
Qed.

(** A call during which nothing else touches the session. *)
Definition quiet_call (i : open_input) : Prop :=
  oi_before_attach i = [] ∧ oi_before_replay i = [] ∧ manager_ops (oi_meanwhile i) = [].

Lemma quiet_resume i id tok lo le fp m m1 att frames :
  uuid_to_string id ≠ "" → quiet_call i → (length frames < 128)%nat → (length frames < handler_steps (oi_meanwhile i))%nat →
  attach_with_token (oi_attachment i) (oi_attach_now i) (oi_next_token i) id (mkAttachmentMetadata fp) tok m = (m1, Ok att) →
  buffered_output_since id lo le m1 = Ok frames →
  ∃ r cid mode, handle_resume_session i (uuid_to_string id) tok lo le fp m = (m1, Some (Ok r)) ∧
    delivered r = replay_messages (uuid_to_string id) cid mode frames (oi_next_token i).
Proof.
  intros Hid (Q1 & Q2 & Q3) Hl Hs Ha Hb. destruct (attach_with_token_entry _ _ _ _ _ _ _ _ _ Ha) as (e & He & _).
  destruct (handle_resume_answer i id tok lo le fp m m1 att frames) as (cid & mode & ->); rewrite ?Q1, ?Q2; [done|by eexists|done..|].
  assert (channel id m1 = channel id m) as Hc.
  { assert (m1 = (attach_with_token (oi_attachment i) (oi_attach_now i) (oi_next_token i) id (mkAttachmentMetadata fp) tok m).1) as -> by (by rewrite Ha).
    apply with_session_state_channel. }
  destruct (delivered_replay id cid mode m1 (length (channel id m)) (replay_messages (uuid_to_string id) cid mode frames (oi_next_token i)) (oi_meanwhile i))
    as (r & Hrun & Hu & Hd); rewrite ?replay_messages_length, ?Hc; [done..|unfold RESPONSE_CHANNEL_CAPACITY; lia|lia|].
  exists r, cid, mode. cbn [sm_run foldl]. rewrite Hrun, Hu. done.
Qed.

End resume.

#[local] Existing Instance demo_uuid.
#[local] Existing Instance demo_uuid_laws.

(** One frame was missed; the handler runs twice. *)
Definition resume_input : open_input :=
  mkOpenInput (Ok None) (λ _ _, Ok tt) 0%N "" 0 0%N 1%N 5 "t1" [] [] [DvHandler; DvForward; DvHandler].

