(* ===== verification/Access.v ===== *)
(** * Who gets in: the service as a whole

    One step function over all RPCs of [Service], and the theorems about
    enrolment and access that hold of every sequence of calls. *)

From S2P Require Import Prelude RustStd ThirdParty Fs Net Config Registry Enrollment Pairing.
From S2P Require Import Certificates ClientStore Approve SessionState SessionManager Verification RelayTokens Proto Delivery Service.

Local Open Scope string_scope.
Local Open Scope Z_scope.

Inductive rpc :=
  | Enroll (i : enroll_input) (req : EnrollRequest)
  | GenerateEnrollmentQr (i : qr_input)
  | RequestPairing (i : pairing_input) (req : RequestPairingRequest)
  | CheckPairingStatus (now1 now2 now3 : Z) (id : string)
  | ApprovePairing (i : approve_input) (id : string)
  | ListPendingPairings (now1 now2 now3 : Z)
  | GetServerInfo (hostname : option string) (version os : string)
  | ListCapabilities
  | ListSessions
  | OpenSession (i : open_input)
  | GetConfigVersion
  | WatchConfigUpdates (updates : list (Z * Z)).

Inductive response :=
  | REnroll (r : result Status EnrollResponse)
  | RQr (r : GenerateEnrollmentQrResponse)
  | RRequestPairing (r : result Status RequestPairingResponse)
  | RCheck (r : CheckPairingStatusResponse)
  | RApprove (r : result Status ApprovePairingResponse)
  | RPending (r : result Status (list PendingPairingInfo))
  | RInfo (r : ServerInfoResponse)
  | RCapabilities (r : result Status (list proto.Capability * Z))
  | RSessions (r : result Status (list proto.SessionInfo))
  | ROpen (r : result Status session_response)
  | RVersion (r : result Status (Z * Z))
  | RUpdates (r : result Status (list (Z * Z))).

Section serve.
Context `{Sha256, HexEncode, TomlCodec ClientRegistry, TokenCrates, UuidText, QrCrates}.

(** The state after a call and its answer; no answer is a panic or a handler that
    never returns. *)
Definition serve (c : caller) (r : rpc) (sv : RemoteControlService) : RemoteControlService * option response :=
  match r with
  | Enroll i req => let '(sv', a) := enroll i c req sv in (sv', Some (REnroll a))
  | GenerateEnrollmentQr i =>
      match generate_enrollment_qr i sv with Some (sv', a) => (sv', Some (RQr a)) | None => (sv, None) end
  | RequestPairing i req =>
      match request_pairing i c req sv with Some (sv', a) => (sv', Some (RRequestPairing a)) | None => (sv, None) end
  | CheckPairingStatus n1 n2 n3 id => let '(sv', a) := check_pairing_status n1 n2 n3 id sv in (sv', Some (RCheck a))
  | ApprovePairing i id => let '(sv', a) := approve_pairing i c id sv in (sv', Some (RApprove a))
  | ListPendingPairings n1 n2 n3 => let '(sv', a) := list_pending_pairings n1 n2 n3 c sv in (sv', Some (RPending a))
  | GetServerInfo h v os => (sv, Some (RInfo (get_server_info h v os sv)))
  | ListCapabilities => (sv, Some (RCapabilities (list_capabilities c sv)))
  | ListSessions => (sv, Some (RSessions (rpc_list_sessions c sv)))
  | OpenSession i => let '(sv', a) := rpc_open_session i c sv in (sv', ROpen <$> a)
  | GetConfigVersion => (sv, Some (RVersion (get_config_version c sv)))
  | WatchConfigUpdates u => (sv, Some (RUpdates (watch_config_updates c u sv)))
  end.

(** The calls that check the caller's certificate. *)
Definition protected (r : rpc) : bool :=
  match r with
  | ApprovePairing _ _ | ListPendingPairings _ _ _ | ListCapabilities | ListSessions | OpenSession _
  | GetConfigVersion | WatchConfigUpdates _ => true
  | _ => false
  end.

Definition enrolled (der : bytes) (sv : RemoteControlService) : Prop := is_authorized (fp_of der) (sv_client_store sv) = true.

(** The caller presents no certificate, or one that is not enrolled. *)
Definition stranger (c : caller) (sv : RemoteControlService) : Prop :=
  ∀ der rest, ca_peer_certs c = Some (der :: rest) → ¬ enrolled der sv.

Definition requires_cert (sv : RemoteControlService) : Prop := sec_require_client_cert (cfg_security (sv_config sv)) = true.

Definition denied (r : option response) : Prop := ∃ e,
  (st_code e = Unauthenticated ∨ st_code e = PermissionDenied) ∧
  (r = Some (RApprove (Err e)) ∨ r = Some (RPending (Err e)) ∨ r = Some (RCapabilities (Err e)) ∨
   r = Some (RSessions (Err e)) ∨ r = Some (ROpen (Err e)) ∨ r = Some (RVersion (Err e)) ∨ r = Some (RUpdates (Err e))).

Lemma ensure_enrolled_stranger c sv : requires_cert sv → stranger c sv →
  ∃ e, ensure_enrolled_client c sv = Err e ∧ (st_code e = Unauthenticated ∨ st_code e = PermissionDenied).
Proof.
  intros Hr Hs. unfold ensure_enrolled_client. rewrite Hr.
  destruct (ca_peer_certs c) as [[|der rest]|] eqn:Hc; [by eauto| |by eauto].
  assert (is_authorized (hex_encode (sha256 der)) (sv_client_store sv) = false) as ->; [|by eauto].
  apply not_true_is_false. exact (Hs der rest Hc).
Qed.

Lemma ensure_enrolled_known c sv der rest : ca_peer_certs c = Some (der :: rest) → enrolled der sv →
  ensure_enrolled_client c sv = Ok (Some (fp_of der)).
Proof. intros Hc He. unfold ensure_enrolled_client. rewrite Hc.
  change (is_authorized (hex_encode (sha256 der)) (sv_client_store sv) = true) in He. by rewrite He.
Qed.

(** Without the requirement, which is how the default configuration is generated,
    everybody passes. *)
Lemma legacy_mode_admits_everyone c sv : sec_require_client_cert (cfg_security (sv_config sv)) = false →
  is_ok (ensure_enrolled_client c sv) = true.
Proof. intros Hr. unfold ensure_enrolled_client. rewrite Hr. by repeat case_match. Qed.

(** C1: Strangers are kept out.  When the server requires client certificates, a
    caller without an enrolled certificate that calls any protected RPC, opening
    and resuming sessions, listing and approving included, is answered with an
    authentication error, and nothing changes. *)
Theorem strangers_are_denied c r sv : requires_cert sv → stranger c sv → protected r = true →
  ∃ a, serve c r sv = (sv, a) ∧ denied a.
Proof.
  intros Hr Hs Hp. destruct (ensure_enrolled_stranger c sv Hr Hs) as (e & He & Hcode).
  destruct r; try done; cbn;
    unfold approve_pairing, list_pending_pairings, list_capabilities, rpc_list_sessions, rpc_open_session,
      get_config_version, watch_config_updates; rewrite He; cbn; (eexists; split; [done|exists e; eauto 10]).
Qed.

(** ** How a certificate becomes enrolled *)

(** An enrolment token that is live at a time. *)
Definition live_token (now : Z) (tok : string) (sv : RemoteControlService) : Prop :=
  ∃ t, em_tokens (sv_enrollment_manager sv) !! tok = Some t ∧ token_is_valid now t = true.

Lemma add_client_enrols uuid now a1 a2 der name ip fs s fs' s' x fp :
  add_client uuid now a1 a2 (ClientCertificate_from_der der) name ip fs s = (fs', s', x) →
  is_authorized fp s' = true → is_authorized fp s = false → fp = fp_of der.
Proof.
  intros Ha Hin Hout. pose proof (add_client_store uuid now a1 a2 (ClientCertificate_from_der der) name ip fs s) as Hk.
  rewrite Ha in Hk. cbn in Hk. apply is_authorized_spec in Hin. apply not_true_iff_false in Hout.
  rewrite is_authorized_spec in Hout. rewrite Hk in Hin. destruct a1; [|done].
  rewrite fmap_app, elem_of_app in Hin. destruct Hin as [?|Hin]; [done|]. by apply list_elem_of_singleton in Hin.
Qed.

Lemma enroll_enrols i c req sv sv' a fp : enroll i c req sv = (sv', a) →
  is_authorized fp (sv_client_store sv') = true → is_authorized fp (sv_client_store sv) = false →
  fp = fp_of (er_client_certificate req) ∧ live_token (ei_now i) (er_enrollment_token req) sv ∧
  ¬ spendable (er_enrollment_token req) (sv_enrollment_manager sv').
Proof.
  unfold enroll. intros He Hin Hout. destruct (negb _); [simplify_eq; congruence|].
  destruct (validate_and_consume _ _ _) as [tokens checked] eqn:Hv.
  destruct checked as [[]|e]; [|simplify_eq; cbn in Hin; congruence].
  case_bool_decide; [simplify_eq; cbn in Hin; congruence|].
  destruct (add_client _ _ _ _ _ _ _ _ _) as [[fs store] added] eqn:Ha. cbn in Ha.
  assert (Hst : sv_client_store sv' = store ∧ sv_enrollment_manager sv' = tokens) by (by destruct added; simplify_eq).
  destruct Hst as [Hst Htok]. rewrite Hst in Hin. split_and!.
  - by eapply add_client_enrols.
  - apply validate_and_consume_ok_iff. by rewrite Hv.
  - rewrite Htok. change tokens with (tokens, Ok (E:=string) tt).1. rewrite <- Hv. apply consumed_not_spendable. by rewrite Hv.
Qed.

Lemma get_request_pending now id m pm r : get_request now id m = (pm, Some r) → pr_status r = Pending →
  pm_requests m !! id = Some r.
Proof.
  unfold get_request. intros [= _ Hl] Hs. destruct (pm_requests m !! id) as [r'|] eqn:Hm; [|by rewrite Hm in Hl].
  destruct (pairing_is_expired now r'); [|by rewrite Hm in Hl].
  rewrite lookup_alter_eq, Hm in Hl. cbn in Hl. by simplify_eq/=.
Qed.

Lemma approve_enrols i c id sv sv' a fp : approve_pairing i c id sv = (sv', a) →
  is_authorized fp (sv_client_store sv') = true → is_authorized fp (sv_client_store sv) = false →
  is_ok (ensure_enrolled_client c sv) = true ∧
  ∃ r, pm_requests (sv_pairing_manager sv) !! id = Some r ∧ pr_status r = Pending ∧ fp = fp_of (pr_client_certificate r).
Proof.
  unfold approve_pairing. intros He Hin Hout. destruct (ensure_enrolled_client c sv) as [f|e] eqn:Hen;
    [|simplify_eq; congruence]. split; [done|].
  unfold approve_pairing_request in He. destruct (get_request _ id _) as [pm1 found] eqn:Hg.
  destruct found as [r|]; [|simplify_eq; cbn in Hin; congruence].
  destruct (negb _) eqn:Hpend; [simplify_eq; cbn in Hin; congruence|].
  destruct (add_client _ _ _ _ _ _ _ _ _) as [[fs store] added] eqn:Ha.
  assert (Hst : sv_client_store sv' = store).
  { destruct added as [cid|e']; [destruct (approve_request _ _ _ _) as [pm3 r']|]; by simplify_eq. }
  rewrite Hst in Hin. exists r.
  assert (Hs : pr_status r = Pending).
  { apply negb_false_iff in Hpend. unfold pairing_is_pending in Hpend. apply andb_true_iff in Hpend as [Hpend _].
    by apply bool_decide_eq_true in Hpend. }
  split_and!; [by eapply get_request_pending|done|by eapply add_client_enrols].
Qed.

(** The calls that do not touch the client store. *)
Lemma serve_keeps_store c r sv : (∀ i req, r ≠ Enroll i req) → (∀ i id, r ≠ ApprovePairing i id) →
  sv_client_store (serve c r sv).1 = sv_client_store sv.
Proof.
  intros Hne Hna. destruct r; unfold serve; try done; try (exfalso; by eapply Hne); try (exfalso; by eapply Hna).
  - unfold generate_enrollment_qr. destruct (negb _); [done|]. destruct (generate_token _ _ _ _) as [[ts t]|]; [|done].
    cbn. by destruct (to_json _).
  - unfold request_pairing. destruct (negb _); [done|]. case_bool_decide; [done|].
    destruct (generate_verification_code _ _ _ _); [|done]. cbn. destruct (_ && _); [done|].
    by destruct (create_request _ _ _ _ _ _ _ _ _) as [[pm r]|].
  - unfold check_pairing_status. destruct (get_request _ _ _) as [pm [r|]]; [|done].
    by destruct (pr_status r); [destruct (pairing_is_expired now2 r)|..].
  - unfold list_pending_pairings. destruct (ensure_enrolled_client c sv); [|done]. by destruct (list_pending _ _ _).
  - unfold rpc_open_session. destruct (ensure_enrolled_client c sv); [|done]. repeat (case_match; try done); by simplify_eq.
Qed.

(** C2: A certificate becomes enrolled in exactly two ways.  If a call enrols a
    fingerprint that was not enrolled, then either it is an enrolment request with
    that certificate and a live enrolment token, which is spent by it, or an
    approval of a pending pairing request for that certificate by a caller that
    passed the certificate check. *)
Theorem enrolment_has_two_doors c r sv fp :
  is_authorized fp (sv_client_store (serve c r sv).1) = true → is_authorized fp (sv_client_store sv) = false →
  (∃ i req, r = Enroll i req ∧ fp = fp_of (er_client_certificate req) ∧
     live_token (ei_now i) (er_enrollment_token req) sv ∧
     ¬ spendable (er_enrollment_token req) (sv_enrollment_manager (serve c r sv).1)) ∨
  (∃ i id req, r = ApprovePairing i id ∧ is_ok (ensure_enrolled_client c sv) = true ∧
     pm_requests (sv_pairing_manager sv) !! id = Some req ∧ pr_status req = Pending ∧
     fp = fp_of (pr_client_certificate req)).
Proof.
  intros Hin Hout. destruct r; try (rewrite serve_keeps_store in Hin by done; congruence).
  - left. unfold serve in *. destruct (enroll i c req sv) as [sv' a] eqn:He. cbn [fst] in *.
    destruct (enroll_enrols _ _ _ _ _ _ _ He Hin Hout) as (-> & Hl & Hs). by eauto 10.
  - right. unfold serve in *. destruct (approve_pairing i c id sv) as [sv' a] eqn:He. cbn [fst] in *.
    destruct (approve_enrols _ _ _ _ _ _ _ He Hin Hout) as (Hok & r & Hr & Hp & ->). by eauto 10.
Qed.

(** ** Self-enrolment *)
Lemma qr_token_live qi sv sv1 resp now : generate_enrollment_qr qi sv = Some (sv1, resp) → qr_success resp = true →
  let deadline := qi_now qi + duration_seconds_u64 (em_ttl_seconds (sv_enrollment_manager sv)) in
  qi_cleanup_now qi <= deadline → now <= deadline → live_token now (qr_enrollment_token resp) sv1 ∧
  enr_qr_code_enabled (sec_enrollment (cfg_security (sv_config sv1))) = true.
Proof.
  intros Hq Hs deadline Hc Hn. unfold generate_enrollment_qr in Hq.
  destruct (negb _) eqn:Hen; [by simplify_eq|]. apply negb_false_iff in Hen.
  destruct (generate_token _ _ _ _) as [[ts t]|] eqn:Hg; [|done]. cbn in Hq.
  destruct (to_json _); [|by simplify_eq]. injection Hq as <- <-. split; [|done]. cbn.
  unfold generate_token in Hg. destruct (EnrollmentToken_new _ _ _) as [t'|] eqn:Hnew; [|done]. cbn in Hg. simplify_eq.
  apply EnrollmentToken_new_wf in Hnew as ((Htok & Hexp) & Hcr & Hu). exists t. cbn.
  assert (Hle : ∀ n, n <= deadline → token_is_expired n t = false).
  { intros n Hle. unfold token_is_expired. apply Z.ltb_ge. by rewrite Hexp, Hcr. }
  unfold token_is_valid. rewrite Hu, (Hle now Hn). split; [|done]. unfold cleanup_expired_tokens.
  apply map_lookup_filter_Some. rewrite Htok, lookup_insert_eq. split; [done|]. by apply Hle.
Qed.

(** Whoever reaches the port can enrol.  GenerateEnrollmentQR checks no
    certificate and returns the enrolment token, so any caller, with or without a
    certificate, can fetch a token, enrol a certificate of its own with it and then
    pass the certificate check of every protected RPC. *)
Lemma anyone_can_enrol c qi sv sv1 resp ei cert name :
  generate_enrollment_qr qi sv = Some (sv1, resp) → qr_success resp = true →
  let deadline := qi_now qi + duration_seconds_u64 (em_ttl_seconds (sv_enrollment_manager sv)) in
  qi_cleanup_now qi <= deadline → ei_now ei <= deadline → cert ≠ [] → ei_cert_write ei = WOk →
  let sv2 := (serve c (Enroll ei (mkEnrollRequest (qr_enrollment_token resp) cert name)) sv1).1 in
  enrolled cert sv2 ∧
  ∀ c', ca_peer_certs c' = Some [cert] → ensure_enrolled_client c' sv2 = Ok (Some (fp_of cert)).
Proof.
  intros Hq Hs deadline Hc Hn Hcert Hw.
  destruct (qr_token_live qi sv sv1 resp (ei_now ei) Hq Hs Hc Hn) as [Hlive Hen].
  cut (enrolled cert (serve c (Enroll ei (mkEnrollRequest (qr_enrollment_token resp) cert name)) sv1).1).
  { intros He. split; [done|]. intros c' Hc'. by eapply ensure_enrolled_known. }
  unfold serve, enroll. rewrite Hen. cbn [negb er_enrollment_token er_client_certificate er_device_name].
  apply validate_and_consume_ok_iff in Hlive.
  destruct (validate_and_consume _ _ _) as [tokens checked]. cbn in Hlive. subst checked.
  rewrite bool_decide_eq_false_2 by done. rewrite Hw.
  pose proof (add_client_authorizes (ei_client_id ei) (ei_added_at ei) (ei_meta_write ei) cert name (client_ip c)
    (sv_fs (with_tokens tokens sv1)) (sv_client_store (with_tokens tokens sv1))) as Hadd.
  destruct (add_client _ _ _ _ _ _ _ _ _) as [[fs store] [id|e]]; done.
Qed.
End serve.

(** ** Concrete instances *)
Definition demo_qr : QrCrates := {| format_rfc3339 _ := None; odt_to_string _ := ""; qr_json _ := Some "{}" |}.
#[local] Existing Instance demo_qr.
#[local] Existing Instance demo_sha256.
#[local] Existing Instance demo_hex.
#[local] Existing Instance demo_tokens.
#[local] Existing Instance demo_uuid.
#[local] Existing Instance demo_uuid_laws.
#[local] Instance demo_registry_toml : TomlCodec ClientRegistry :=
  {| toml_to_string_pretty _ := Ok ""; toml_from_str _ := Ok ClientRegistry_default |}.

Definition strict_config : Config :=
  mkConfig (mkServerConfig 50051 "10.0.0.1" "handcontrol" None)
    (mkSecurityConfig None None None 300 true (mkEnrollmentConfig true true 60 true)) NetworkConfig_default RelayConfig_default [].
Definition demo_service : RemoteControlService :=
  mkService strict_config (mkServerCertificate [] [] []) 7%N demo_fs demo_store (EnrollmentTokenManager_new 300)
    (PairingRequestManager_new 60) 1 0 None demo_open.
Definition anonymous : caller := mkCaller None (λ _, None) None.

Lemma strangers_are_denied_witness : ∃ a, serve anonymous ListSessions demo_service = (demo_service, a) ∧ denied a.
Proof. apply (strangers_are_denied anonymous ListSessions demo_service); [reflexivity|intros ? ? [=]|reflexivity]. Defined.

Definition demo_qr_input : qr_input := mkQrInput 0 0 "token" None 0 0.
Definition demo_enroll_input : enroll_input := mkEnrollInput 1 "client" 1 WOk WOk 1.
Definition after_qr : RemoteControlService :=
  match generate_enrollment_qr demo_qr_input demo_service with Some (sv, _) => sv | None => demo_service end.
Definition self_enrol : rpc := Enroll demo_enroll_input (mkEnrollRequest "token" [x01] "Mallory").

Lemma enrolment_has_two_doors_witness :
  is_authorized (fp_of [x01]) (sv_client_store (serve anonymous self_enrol after_qr).1) = true ∧
  ∃ req, fp_of [x01] = fp_of (er_client_certificate req) ∧ live_token 1 (er_enrollment_token req) after_qr.
Proof.
  assert (Hin : is_authorized (fp_of [x01]) (sv_client_store (serve anonymous self_enrol after_qr).1) = true)
    by (vm_compute; reflexivity).
  split; [exact Hin|].
  destruct (enrolment_has_two_doors anonymous self_enrol after_qr (fp_of [x01]) Hin ltac:(vm_compute; reflexivity))
    as [(i & req & Heq & Hfp & Hlive & _)|(i & id & req & Heq & _)]; [|discriminate Heq].
  exists req. injection Heq as <- <-. split; [exact Hfp|exact Hlive].
Defined.

Lemma anyone_can_enrol_witness : ∃ sv1 resp, generate_enrollment_qr demo_qr_input demo_service = Some (sv1, resp) ∧
  enrolled [x01] (serve anonymous (Enroll demo_enroll_input (mkEnrollRequest (qr_enrollment_token resp) [x01] "Mallory")) sv1).1.
Proof.
  destruct (generate_enrollment_qr demo_qr_input demo_service) as [[sv1 resp]|] eqn:Hq; [|vm_compute in Hq; discriminate Hq].
  exists sv1, resp. split; [reflexivity|].
  refine (proj1 (anyone_can_enrol anonymous demo_qr_input demo_service sv1 resp demo_enroll_input [x01] "Mallory" Hq _ _ _ _ _)).
  - vm_compute in Hq. injection Hq as _ <-. reflexivity.
  - vm_compute; discriminate.
  - vm_compute; discriminate.
  - discriminate.
  - reflexivity.
Defined.
