(* ===== verification/ShellScript.v ===== *)
(** * The shell-script capability (server/src/capabilities/shell_script.rs)

    Opening a session checks and substitutes the parameters and then starts two
    tasks: one that drops the client's events until it closes, and one that runs the
    command.  The second is a step machine: the process (and whatever it started)
    writes lines and exits at times of its own, and the [select!] loop takes any
    branch that is ready.  A line is what [next_line] returns, an error for a line
    that is not UTF-8.  The pipes are bounded: a process that writes into a full one
    waits.  Starting the process, waiting for it and the clock are inputs. *)

From S2P Require Import Prelude RustStd ThirdParty Fs Config Validation Registry Parameters SessionState.

Local Open Scope string_scope.
Local Open Scope Z_scope.

(** ** Opening a session *)
Section open.
Context `{RegexEngine, ShellEscape} (debug : CapabilityDefinition → string).

(** The command the spawned task runs. *)
Definition shell_script_open (config : CapabilityConfig) (metadata : CapabilityMetadata) (ctx : CapabilityOpenContext)
    : result string string :=
  bail! fmt ["Capability '"; md_id metadata; "' misconfigured: shell script must be one-shot session"]
    when bool_decide (md_session_mode metadata ≠ OneShot);
  validated ← validate_parameters config (oc_parameters ctx);
  substitute_parameters debug config validated.
End open.

(** The task that reads the client's events: what it leaves unread. *)
Fixpoint drop_until_close (inbound : list SessionClientEvent) : list SessionClientEvent :=
  match inbound with
  | [] => []
  | CClose _ :: rest => rest
  | _ :: rest => drop_until_close rest
  end.

(** ** Running the command *)
Record ExecutionResult := mkExecutionResult { ex_exit_code : Z; ex_timed_out : bool }.

Inductive script_phase :=
  | Selecting
  | SendingOutput (event : SessionServerEvent)
  | Finished (outcome : option (result string ExecutionResult)).  (* [None]: the time-out elapsed *)

Abbreviation line := (result string string).

(** [sc_exit] is the exit status once the process has ended; its code is [None]
    when a signal killed it. *)
Record Script := mkScript {
  sc_stdout : list line;
  sc_stderr : list line;
  sc_exit : option (option Z);
  sc_phase : script_phase;
  sc_sent : list SessionServerEvent;
}.

Definition script_init : Script := mkScript [] [] None Selecting [].

Definition pipe (stderr : bool) (s : Script) : list line := if stderr then sc_stderr s else sc_stdout s.
Definition set_pipe (stderr : bool) (l : list line) (s : Script) : Script :=
  if stderr then mkScript (sc_stdout s) l (sc_exit s) (sc_phase s) (sc_sent s)
  else mkScript l (sc_stderr s) (sc_exit s) (sc_phase s) (sc_sent s).
Definition set_phase (p : script_phase) (s : Script) : Script :=
  mkScript (sc_stdout s) (sc_stderr s) (sc_exit s) p (sc_sent s).

(** What a pipe of the operating system holds, and what a line takes of it with its
    newline; a line that is not UTF-8 has at least one byte. *)
Definition PIPE_CAPACITY : Z := 65536.
Definition line_size (l : line) : Z := match l with Ok text => Z.of_nat (String.length text) + 1 | Err _ => 2 end.
Definition size_of (ls : list line) : Z := foldr (λ l n, line_size l + n) 0 ls.
(** A line can be written to its end if it fits, or if nothing is before it: then the
    reader takes its beginning while the rest is written. *)
Definition can_write (l : line) (ls : list line) : bool :=
  match ls with [] => true | _ => size_of ls + line_size l <=? PIPE_CAPACITY end.

Inductive script_op :=
  | PWrite (stderr : bool) (l : line)             (* the process has written a line *)
  | PExit (status : option Z)                     (* the process ends *)
  | ReadLine (stderr : bool) (timestamp_ms : Z)  (* a [next_line] branch with a line *)
  | ReadEof (stderr : bool)                      (* a [next_line] branch at the end of the pipe *)
  | Sent                                         (* the pending send completes *)
  | Waited (ok : bool)                           (* the [child.wait()] branch *)
  | Elapsed (seconds : Z).                       (* the time-out fires *)

Definition output_event (stderr : bool) (text : string) (timestamp_ms : Z) : SessionServerEvent :=
  SOutput (to_bytes text) stderr false (Some timestamp_ms).

(** [tokio::time::timeout] drops the loop wherever it is, also inside a send. *)
Definition script_step (show_output : bool) (timeout_seconds : Z) (op : script_op) (s : Script) : option Script :=
  match op with
  | PWrite stderr l => if can_write l (pipe stderr s) then Some (set_pipe stderr (pipe stderr s ++ [l])%list s) else None
  | PExit status =>
      match sc_exit s with
      | None => Some (mkScript (sc_stdout s) (sc_stderr s) (Some status) (sc_phase s) (sc_sent s))
      | Some _ => None
      end
  | ReadLine stderr ts =>
      match sc_phase s, pipe stderr s with
      | Selecting, l :: rest =>
          let s' := set_pipe stderr rest s in
          Some (match l with
                | Ok text => if show_output then set_phase (SendingOutput (output_event stderr text ts)) s' else s'
                | Err _ => s'
                end)
      | _, _ => None
      end
  | ReadEof stderr =>
      match sc_phase s, pipe stderr s with Selecting, [] => Some s | _, _ => None end
  | Sent =>
      match sc_phase s with
      | SendingOutput ev =>
          Some (mkScript (sc_stdout s) (sc_stderr s) (sc_exit s) Selecting (sc_sent s ++ [ev])%list)
      | _ => None
      end
  | Waited ok =>
      match sc_phase s, sc_exit s with
      | Selecting, Some status =>
          Some (set_phase (Finished (Some (if ok then Ok (mkExecutionResult (default (-1) status) false)
                                           else Err "Failed to await process"))) s)
      | _, _ => None
      end
  | Elapsed seconds =>
      match sc_phase s with
      | Finished _ => None
      | _ => if Z.max timeout_seconds 1 <=? seconds then Some (set_phase (Finished None) s) else None
      end
  end.

Fixpoint script_run (show_output : bool) (timeout_seconds : Z) (ops : list script_op) (s : Script) : option Script :=
  match ops with
  | [] => Some s
  | op :: ops' => s' ← script_step show_output timeout_seconds op s; script_run show_output timeout_seconds ops' s'
  end.

Definition exit_event (exit_code : Z) (timed_out : bool) : SessionServerEvent := SExit exit_code timed_out None.

(** The event after the loop.  On a time-out the process is killed first. *)
Definition outcome_event (outcome : option (result string ExecutionResult)) : SessionServerEvent :=
  match outcome with
  | Some (Ok exec) => exit_event (ex_exit_code exec) (ex_timed_out exec)
  | Some (Err err) => SError (String.append "Command execution failed: " err) None
  | None => exit_event (-1) true
  end.

(** [run_shell_command]: the events sent so far and the answer, [None] while the
    loop runs.  [spawned] says whether the process started. *)
Definition run_shell_command (spawned : bool) (s : Script) : list SessionServerEvent * option (result string unit) :=
  let ready := SReady None in
  if spawned then
    match sc_phase s with
    | Finished outcome => ((ready :: sc_sent s ++ [outcome_event outcome])%list, Some (Ok tt))
    | _ => ((ready :: sc_sent s)%list, None)
    end
  else ([ready], Some (Err "Failed to spawn shell process")).

(** The spawned task: all events of the session. *)
Definition script_session (spawned : bool) (s : Script) : list SessionServerEvent :=
  match run_shell_command spawned s with
  | (events, None) => events
  | (events, Some (Ok _)) => (events ++ [SClosed None])%list
  | (events, Some (Err err)) =>
      (events ++ [SError (String.append "Command execution failed: " err) None; SClosed None])%list
  end.

(** ** What a client sees of the output *)
Definition ok_lines (ls : list line) : list bytes :=
  omap (λ l, match l with Ok text => Some (to_bytes text) | Err _ => None end) ls.
Definition written (stderr : bool) (ops : list script_op) : list line :=
  omap (λ op, match op with PWrite b l => if Bool.eqb b stderr then Some l else None | _ => None end) ops.
Definition shown (stderr : bool) (events : list SessionServerEvent) : list bytes :=
  omap (λ ev, match ev with SOutput data b _ _ => if Bool.eqb b stderr then Some data else None | _ => None end) events.

Definition is_output (ev : SessionServerEvent) : Prop :=
  match ev with SOutput _ _ binary ts => binary = false ∧ is_Some ts | _ => False end.

(** The lines written so far are those shown, those lost or on the way, and those
    still in the pipe. *)
Definition in_flight (stderr : bool) (p : script_phase) (mid : list bytes) : Prop :=
  match p with
  | Selecting | Finished (Some _) => mid = []
  | SendingOutput ev => is_output ev ∧ mid = shown stderr [ev]
  | Finished None => True
  end.

Record script_inv (ops : list script_op) (s : Script) : Prop := mkScriptInv {
  inv_outputs : Forall is_output (sc_sent s);
  inv_lines stderr : ∃ mid, in_flight stderr (sc_phase s) mid ∧
    ok_lines (written stderr ops) = (shown stderr (sc_sent s) ++ mid ++ ok_lines (pipe stderr s))%list;
}.

Lemma ok_lines_app a b : ok_lines (a ++ b)%list = (ok_lines a ++ ok_lines b)%list.
Proof. apply omap_app. Qed.
Lemma shown_app stderr a b : shown stderr (a ++ b)%list = (shown stderr a ++ shown stderr b)%list.
Proof. apply omap_app. Qed.
Lemma written_app stderr a b : written stderr (a ++ b)%list = (written stderr a ++ written stderr b)%list.
Proof. apply omap_app. Qed.

Lemma pipe_set_pipe stderr b l s : pipe stderr (set_pipe b l s) = if Bool.eqb b stderr then l else pipe stderr s.
Proof. by destruct stderr, b. Qed.
Lemma phase_set_pipe b l s : sc_phase (set_pipe b l s) = sc_phase s.
Proof. by destruct b. Qed.
Lemma sent_set_pipe b l s : sc_sent (set_pipe b l s) = sc_sent s.
Proof. by destruct b. Qed.

(** A step that writes nothing, leaves every pipe as it is and sends nothing keeps
    the balance of each stream, whatever phase it moves to. *)
Lemma script_inv_phase ops op s p :
  script_inv ops s → (∀ stderr, written stderr [op] = []) →
  (∀ stderr mid, in_flight stderr (sc_phase s) mid → in_flight stderr p mid) →
  script_inv (ops ++ [op])%list (set_phase p s).
Proof.
  intros [Hout Hl] Hw Hp. constructor; [done|]. intros b. destruct (Hl b) as (mid & Hmid & Heq).
  exists mid. split; [by apply Hp|]. rewrite written_app, ok_lines_app, Hw, Heq. by rewrite app_nil_r; destruct b.
Qed.

Lemma script_inv_exit ops status s x :
  script_inv ops s →
  script_inv (ops ++ [PExit status])%list (mkScript (sc_stdout s) (sc_stderr s) x (sc_phase s) (sc_sent s)).
Proof.
  intros [Hout Hl]. constructor; [done|]. intros b. destruct (Hl b) as (mid & Hmid & Heq).
  exists mid. split; [done|]. rewrite written_app, ok_lines_app, Heq, app_nil_r. by destruct b.
Qed.

Lemma script_inv_write ops b l s :
  script_inv ops s → script_inv (ops ++ [PWrite b l])%list (set_pipe b (pipe b s ++ [l])%list s).
Proof.
  intros [Hout Hl]. constructor; [by rewrite sent_set_pipe|]. intros stderr. destruct (Hl stderr) as (mid & Hmid & Heq).
  exists mid. rewrite phase_set_pipe, sent_set_pipe, pipe_set_pipe, written_app, ok_lines_app, Heq. split; [done|].
  unfold written; simpl. destruct (Bool.eqb b stderr) eqn:E; [|by rewrite app_nil_r].
  apply Bool.eqb_prop in E as ->. by rewrite ok_lines_app, !(assoc_L _).
Qed.

Lemma script_inv_sent ops s ev :
  script_inv ops s → sc_phase s = SendingOutput ev →
  script_inv (ops ++ [Sent])%list (mkScript (sc_stdout s) (sc_stderr s) (sc_exit s) Selecting (sc_sent s ++ [ev])%list).
Proof.
  intros [Hout Hl] Hp. constructor.
  - simpl. apply Forall_app. split; [done|]. destruct (Hl true) as (mid & Hmid & _). rewrite Hp in Hmid.
    apply Forall_singleton, Hmid.
  - intros b. destruct (Hl b) as (mid & Hmid & Heq). rewrite Hp in Hmid. destruct Hmid as [_ ->].
    exists []. split; [done|]. rewrite written_app, ok_lines_app, Heq, app_nil_r. simpl. rewrite shown_app, <-(assoc_L _).
    by destruct b.
Qed.

Lemma script_inv_read ops b ts s l rest :
  script_inv ops s → sc_phase s = Selecting → pipe b s = l :: rest →
  script_inv (ops ++ [ReadLine b ts])%list
    (match l with Ok text => set_phase (SendingOutput (output_event b text ts)) (set_pipe b rest s)
     | Err _ => set_pipe b rest s end).
Proof.
  intros [Hout Hl] Hp Hb. destruct l as [text|e]; constructor; simpl; rewrite ?sent_set_pipe; try done;
    intros stderr; destruct (Hl stderr) as (mid & Hmid & Heq); rewrite Hp in Hmid; simpl in Hmid; subst mid;
    rewrite written_app, ok_lines_app, Heq.
  - exists (shown stderr [output_event b text ts]). split; [done|].
    assert (pipe stderr (set_phase (SendingOutput (output_event b text ts)) (set_pipe b rest s))
            = pipe stderr (set_pipe b rest s)) as -> by by destruct stderr.
    rewrite pipe_set_pipe, app_nil_r. unfold shown; simpl. destruct (Bool.eqb b stderr) eqn:E; [|done].
    apply Bool.eqb_prop in E as ->. by rewrite Hb.
  - exists []. rewrite phase_set_pipe, Hp, pipe_set_pipe, app_nil_r. split; [done|].
    destruct (Bool.eqb b stderr) eqn:E; [|done]. apply Bool.eqb_prop in E as ->. by rewrite Hb.
Qed.

Lemma set_phase_self s : set_phase (sc_phase s) s = s.
Proof. by destruct s. Qed.

Lemma script_step_inv t ops op s s' :
  script_step true t op s = Some s' → script_inv ops s → script_inv (ops ++ [op])%list s'.
Proof.
  intros Hs Hi. destruct op; simpl in Hs.
  - destruct (can_write _ _); simplify_eq. by apply script_inv_write.
  - destruct (sc_exit s); simplify_eq. by apply script_inv_exit.
  - destruct (sc_phase s) eqn:Hp; try done. destruct (pipe stderr s) as [|l rest] eqn:Hb; simplify_eq.
    by apply (script_inv_read ops stderr timestamp_ms s l rest).
  - destruct (sc_phase s) eqn:Hp; try done. destruct (pipe stderr s) eqn:Hb; simplify_eq.
    rewrite <-(set_phase_self s'). by apply script_inv_phase.
  - destruct (sc_phase s) eqn:Hp; simplify_eq. by apply script_inv_sent.
  - destruct (sc_phase s) eqn:Hp; try done. destruct (sc_exit s) eqn:He; simplify_eq.
    apply script_inv_phase; [done..|]. by rewrite Hp.
  - assert ((Z.max t 1 <=? seconds) = true ∧ s' = set_phase (Finished None) s) as [_ ->].
    { destruct (sc_phase s); try done; destruct (_ <=? _); by simplify_eq. }
    by apply script_inv_phase.
Qed.

(** Without [show_output] nothing is ever sent. *)
Lemma script_step_quiet t op s s' :
  script_step false t op s = Some s' →
  sc_sent s = [] ∧ (∀ ev, sc_phase s ≠ SendingOutput ev) → sc_sent s' = [] ∧ (∀ ev, sc_phase s' ≠ SendingOutput ev).
Proof.
  intros Hs [Hq Hp]. destruct op; simpl in Hs; repeat case_match; simplify_eq; try naive_solver;
    rewrite ?sent_set_pipe, ?phase_set_pipe; split; congruence.
Qed.

(** Why the loop ended. *)
Definition outcome_from (t : Z) (ops : list script_op) (outcome : option (result string ExecutionResult)) : Prop :=
  match outcome with
  | Some (Ok r) => ∃ status, PExit status ∈ ops ∧ r = mkExecutionResult (default (-1) status) false
  | Some (Err e) => Waited false ∈ ops ∧ e = "Failed to await process"
  | None => ∃ seconds, Elapsed seconds ∈ ops ∧ Z.max t 1 <= seconds
  end.

Definition cause_inv (t : Z) (ops : list script_op) (s : Script) : Prop :=
  (∀ status, sc_exit s = Some status → PExit status ∈ ops) ∧
  (∀ outcome, sc_phase s = Finished outcome → outcome_from t ops outcome).

Lemma outcome_from_mono t ops ops' outcome : ops ⊆ ops' → outcome_from t ops outcome → outcome_from t ops' outcome.
Proof. destruct outcome as [[r|e]|]; simpl; set_solver. Qed.

Lemma script_step_cause show t ops op s s' :
  script_step show t op s = Some s' → cause_inv t ops s → cause_inv t (ops ++ [op])%list s'.
Proof.
  intros Hs [He Hf].
  assert (∀ status, sc_exit s = Some status → PExit status ∈ (ops ++ [op])%list) as He' by set_solver.
  assert (∀ outcome, sc_phase s = Finished outcome → outcome_from t (ops ++ [op])%list outcome) as Hf'.
  { intros o Ho. apply (outcome_from_mono t ops); [set_solver|auto]. }
  destruct op as [b l|st|b ts|b| |ok|sec]; simpl in Hs.
  - destruct (can_write _ _); simplify_eq. by destruct b.
  - destruct (sc_exit s); simplify_eq. split; simpl; [|done]. intros ? [= ->]. set_solver.
  - destruct (sc_phase s) eqn:Hp; try done. destruct (pipe b s) as [|[x|x] rest]; simplify_eq; destruct b, show; by split; simpl; rewrite ?Hp.
  - destruct (sc_phase s) eqn:Hp; try done. destruct (pipe b s); simplify_eq. split; [done|by rewrite Hp].
  - destruct (sc_phase s) eqn:Hp; simplify_eq. by split.
  - destruct (sc_phase s) eqn:Hp; try done. destruct (sc_exit s) as [st|] eqn:Hx; simplify_eq.
    split; simpl; [by rewrite Hx|]. intros o [= <-]. destruct ok; simpl; [naive_solver|set_solver].
  - assert (Z.max t 1 <= sec ∧ s' = set_phase (Finished None) s) as [Hsec ->].
    { destruct (sc_phase s); try done; destruct (Z.leb_spec (Z.max t 1) sec); by simplify_eq. }
    split; simpl; [done|]. intros o [= <-]. exists sec. set_solver.
Qed.

Lemma script_run_ind (P : list script_op → Script → Prop) show t :
  (∀ ops op s s', script_step show t op s = Some s' → P ops s → P (ops ++ [op])%list s') →
  ∀ ops s s' before, script_run show t ops s = Some s' → P before s → P (before ++ ops)%list s'.
Proof.
  intros Hstep. induction ops as [|op ops IH]; intros s s' before Hr HP; simpl in Hr.
  - simplify_eq. by rewrite app_nil_r.
  - apply bind_Some in Hr as (s1 & Hs & Hr). rewrite cons_middle, (assoc_L _). eapply IH; eauto.
Qed.

(** The life of a script session.  When the loop ends, the session's events are
    [Ready], outputs, one event for the outcome and [Closed].  The outputs of each
    stream are the first lines the process wrote to it, in order, and none when
    [show_output] is off; unless the time-out fired, the lines missing are those
    still in the pipe.  The outcome is the exit status of the process, a failed
    wait, or exit code -1 and the time-out flag, the last only once
    [timeout_seconds] (at least one) have passed. *)
Lemma script_session_protocol show t ops s outcome :
  script_run show t ops script_init = Some s → sc_phase s = Finished outcome →
  ∃ outs,
    script_session true s = (SReady None :: outs ++ [outcome_event outcome; SClosed None])%list ∧
    Forall is_output outs ∧ (show = false → outs = []) ∧
    (∀ stderr, shown stderr outs `prefix_of` ok_lines (written stderr ops)) ∧
    (show = true → is_Some outcome →
     ∀ stderr, ok_lines (written stderr ops) = (shown stderr outs ++ ok_lines (pipe stderr s))%list) ∧
    outcome_from t ops outcome.
Proof.
  intros Hr Hp. exists (sc_sent s).
  assert (script_session true s = (SReady None :: sc_sent s ++ [outcome_event outcome; SClosed None])%list) as ->.
  { unfold script_session, run_shell_command. rewrite Hp. simpl. by rewrite <-(assoc_L _). }
  assert (cause_inv t ops s) as [_ Hc].
  { by apply (script_run_ind (cause_inv t) show t (script_step_cause show t) ops script_init s []). }
  destruct show.
  - assert (script_inv ops s) as [Hout Hl].
    { apply (script_run_ind script_inv true t (script_step_inv t) ops script_init s []); [done|].
      constructor; [constructor|]. intros []; by exists []. }
    split_and!; [done..|intros b|intros _ Hsome b|auto]; destruct (Hl b) as (mid & Hmid & ->); [by eexists|].
    rewrite Hp in Hmid. destruct outcome; [by simpl in Hmid; subst mid|by destruct Hsome].
  - assert (sc_sent s = []) as ->; [|by split_and!; auto; intros; apply prefix_nil || done].
    apply (script_run_ind (λ _ s, sc_sent s = [] ∧ ∀ ev, sc_phase s ≠ SendingOutput ev) false t
             (λ _, script_step_quiet t) ops script_init s []); [done|done].
Qed.

(** ** Output is lost when the process ends *)
Definition writes (stderr : bool) (ls : list line) : list script_op := PWrite stderr <$> ls.

Lemma script_run_app show t a b s :
  script_run show t (a ++ b)%list s = (s' ← script_run show t a s; script_run show t b s').
Proof. revert s. induction a as [|op a IH]; intros s; [done|]. simpl. destruct (script_step show t op s); [apply IH|done]. Qed.

Lemma size_of_app a b : size_of (a ++ b)%list = size_of a + size_of b.
Proof. induction a as [|l a IH]; cbn; [done|]. unfold size_of in *. rewrite IH. lia. Qed.
Lemma line_size_pos l : 0 < line_size l.
Proof. destruct l; cbn; lia. Qed.
Lemma size_of_nonneg ls : 0 <= size_of ls.
Proof. induction ls as [|l ls IH]; cbn; [done|]. pose proof (line_size_pos l). unfold size_of in *. lia. Qed.

Lemma run_writes show t stderr ls s : size_of (pipe stderr s ++ ls)%list <= PIPE_CAPACITY →
  script_run show t (writes stderr ls) s = Some (set_pipe stderr (pipe stderr s ++ ls)%list s).
Proof.
  revert s. induction ls as [|l ls IH]; intros s Hf; cbn [writes fmap list_fmap script_run script_step].
  - rewrite app_nil_r. by destruct s, stderr.
  - assert (can_write l (pipe stderr s) = true) as ->.
    { unfold can_write. destruct (pipe stderr s) eqn:E; [done|]. rewrite <-E in *. apply Z.leb_le. rewrite size_of_app in Hf. cbn in Hf.
      pose proof (size_of_nonneg ls). unfold size_of in *. lia. }
    cbn [mbind option_bind]. fold (writes stderr ls). rewrite IH, pipe_set_pipe, Bool.eqb_reflx, <-(assoc_L _); [by destruct s, stderr|].
    by rewrite pipe_set_pipe, Bool.eqb_reflx, <-(assoc_L _).
Qed.

Lemma written_writes b stderr ls : written b (writes stderr ls) = if Bool.eqb stderr b then ls else [].
Proof.
  induction ls as [|l ls IH]; [by destruct (Bool.eqb stderr b)|].
  change (writes stderr (l :: ls)) with ([PWrite stderr l] ++ writes stderr ls)%list.
  rewrite written_app, IH. unfold written. simpl. by destruct (Bool.eqb stderr b).
Qed.

(** Lines that are read and sent as they are written. *)
Definition passes (stderr : bool) (ls : list line) : list script_op :=
  ls ≫= λ l, PWrite stderr l :: ReadLine stderr 0 :: match l with Ok _ => [Sent] | Err _ => [] end.
Definition passed (stderr : bool) (ls : list line) : list SessionServerEvent :=
  omap (λ l, match l with Ok text => Some (output_event stderr text 0) | Err _ => None end) ls.

Lemma run_passes t stderr ls sent : 
  script_run true t (passes stderr ls) (mkScript [] [] None Selecting sent) = Some (mkScript [] [] None Selecting (sent ++ passed stderr ls)%list).
Proof.
  revert sent. induction ls as [|l ls IH]; intros sent; [cbn; by rewrite app_nil_r|]. unfold passes in *. rewrite bind_cons, script_run_app.
  destruct l as [text|e], stderr; cbn -[output_event]; rewrite IH; cbn; by rewrite <-?(assoc_L (++)).
Qed.
Lemma written_passes b stderr ls : written b (passes stderr ls) = if Bool.eqb stderr b then ls else [].
Proof.
  unfold passes. induction ls as [|l ls IH]; [by destruct (Bool.eqb stderr b)|]. rewrite bind_cons, written_app, IH.
  destruct l, stderr, b; done.
Qed.
Lemma shown_passed b stderr ls : shown b (passed stderr ls) = if Bool.eqb stderr b then ok_lines ls else [].
Proof.
  induction ls as [|l ls IH]; [by destruct (Bool.eqb stderr b)|]. unfold passed, shown, ok_lines in *. destruct l as [text|e]; cbn in *; rewrite IH; by destruct stderr, b.
Qed.
Lemma passed_outputs stderr ls : Forall is_output (passed stderr ls).
Proof. unfold passed. induction ls as [|[] ls IH]; cbn; [constructor| |done]. constructor; [by split; [|eexists]|done]. Qed.

(** C40: The loop leaves as soon as [child.wait()] is ready and does not drain the pipes:
    the end of what a script prints can be lost.  However its output on each stream is
    divided into a beginning and an end that fits into the pipe, there is a run in which it
    prints all of it and exits with any status, and the client is shown just the beginnings
    and told the exit code, as if that were all. *)
Theorem script_output_can_be_lost t status out lost_out err lost_err :
  size_of lost_out <= PIPE_CAPACITY → size_of lost_err <= PIPE_CAPACITY →
  ∃ ops s outs, script_run true t ops script_init = Some s ∧
    written false ops = (out ++ lost_out)%list ∧ written true ops = (err ++ lost_err)%list ∧
    script_session true s = (SReady None :: outs ++ [SExit (default (-1) status) false None; SClosed None])%list ∧
    Forall is_output outs ∧ shown false outs = ok_lines out ∧ shown true outs = ok_lines err.
Proof.
  intros Ho He. exists (passes false out ++ passes true err ++ writes false lost_out ++ writes true lost_err ++ [PExit status; Waited true])%list.
  eexists _, (passed false out ++ passed true err)%list. unfold script_init. rewrite script_run_app, run_passes. cbn [mbind option_bind].
  rewrite script_run_app, run_passes. cbn [mbind option_bind app]. rewrite script_run_app, run_writes by done. cbn [mbind option_bind].
  rewrite script_run_app, run_writes by done. split; [reflexivity|]. rewrite !written_app, !written_passes, !written_writes, !shown_app, !shown_passed. cbn.
  rewrite !app_nil_r, <-(assoc_L (++)). split_and!; try done. apply Forall_app; split; apply passed_outputs.
Qed.

Lemma script_output_can_be_lost_witness : ∃ ops s,
  script_run true 10 ops script_init = Some s ∧ written false ops = [Ok "one"; Ok "two"] ∧
  shown false (script_session true s) = [to_bytes "one"].
Proof.
  destruct (script_output_can_be_lost 10 (Some 0) [Ok "one"] [Ok "two"] [] []) as (ops & s & outs & Hr & Hw & _ & Hs & _ & Hshown & _); [vm_compute; discriminate..|].
  exists ops, s. split; [exact Hr|]. split; [exact Hw|]. rewrite Hs. change (shown false (outs ++ [SExit 0 false None; SClosed None])%list = [to_bytes "one"]).
  rewrite shown_app, Hshown. reflexivity.
Defined.
