(* ===== verification/Reload.v ===== *)
(** * Configuration reload (server/src/config/watcher.rs, broadcaster.rs, and the
    reading side in grpc/server.rs)

    The watcher replaces the shared configuration, raises the version, stores the
    time and broadcasts, each under its own lock or atomic; [list_capabilities]
    reads the configuration and the version under one read guard.  The machine below
    interleaves the watcher with any number of such readers between those accesses.
    What [load_config] returns and the clock are inputs of the steps. *)

From S2P Require Import Prelude RustStd ThirdParty Config Validation Enrollment Pairing Certificates ClientStore SessionState SessionManager RelayTokens Service Access.

Local Open Scope Z_scope.

Record ConfigUpdateNotification := mkConfigUpdateNotification { cn_version : Z; cn_timestamp_ms : Z }.

(** [config_reload_allowed] *)
Definition server_changed (old new : ServerConfig) : bool :=
  bool_decide (srv_port old ≠ srv_port new) || bool_decide (srv_bind_address old ≠ srv_bind_address new)
  || bool_decide (srv_mdns_service_name old ≠ srv_mdns_service_name new)
  || bool_decide (srv_mdns_instance_name old ≠ srv_mdns_instance_name new).

Definition security_changed (old new : SecurityConfig) : bool :=
  bool_decide (sec_cert_path old ≠ sec_cert_path new) || bool_decide (sec_key_path old ≠ sec_key_path new)
  || bool_decide (sec_authorized_clients_dir old ≠ sec_authorized_clients_dir new)
  || bool_decide (sec_enrollment_token_ttl old ≠ sec_enrollment_token_ttl new)
  || bool_decide (enr_qr_code_enabled (sec_enrollment old) ≠ enr_qr_code_enabled (sec_enrollment new))
  || bool_decide (enr_approval_enabled (sec_enrollment old) ≠ enr_approval_enabled (sec_enrollment new))
  || bool_decide (enr_approval_timeout_seconds (sec_enrollment old) ≠ enr_approval_timeout_seconds (sec_enrollment new))
  || bool_decide (enr_approval_notification (sec_enrollment old) ≠ enr_approval_notification (sec_enrollment new)).

Definition config_reload_allowed (old new : Config) : bool :=
  negb (server_changed (cfg_server old) (cfg_server new)) && negb (security_changed (cfg_security old) (cfg_security new)).

(** Where [reload_config] is. *)
Inductive reload_pc :=
  | Watching
  | Parsed (new_config : Config)
  | Swapped
  | Bumped (new_version : Z)
  | Stamped (new_version timestamp_ms : Z).

(** [rl_history] (every configuration installed so far), [rl_answers] (what the
    readers returned) and [rl_warnings] only record; [rl_readers] are the read
    guards held, each with the configuration it sees. *)
Record Reloader := mkReloader {
  rl_config : Config;
  rl_version : Z;
  rl_last_update : Z;
  rl_broadcasts : list ConfigUpdateNotification;
  rl_pending_reload : bool;
  rl_pc : reload_pc;
  rl_readers : gmap N Config;
  rl_answers : list (Config * Z);
  rl_history : list Config;
  rl_warnings : nat;
}.

Definition reload_init (config : Config) (now : Z) : Reloader :=
  mkReloader config 1 (wrap_u 64 now) [] false Watching ∅ [] [config] 0.

Inductive reload_op :=
  | FileEvent (modify_or_create : bool)
  | Tick (loaded : result string Config)
  | Swap
  | Bump
  | Stamp (now_ms : Z)
  | Broadcast
  | ReadGuard (reader : N)
  | ReadVersion (reader : N).

Definition watch (pending : bool) (pc : reload_pc) (warned : nat) (s : Reloader) : Reloader :=
  mkReloader (rl_config s) (rl_version s) (rl_last_update s) (rl_broadcasts s) pending pc (rl_readers s)
    (rl_answers s) (rl_history s) (rl_warnings s + warned).

(** [None]: the step is not possible (another one must come first, or a lock is
    held), or the clock is before 1970 and the watcher panics. *)
Definition reload_step (op : reload_op) (s : Reloader) : option Reloader :=
  match op, rl_pc s with
  | FileEvent relevant, Watching => Some (watch (rl_pending_reload s || relevant) Watching 0 s)
  | Tick loaded, Watching =>
      if rl_pending_reload s then
        match loaded with
        | Ok new => Some (watch true (Parsed new) (if config_reload_allowed (rl_config s) new then 0 else 1) s)
        | Err _ => Some (watch false Watching 0 s)
        end
      else Some s
  | Swap, Parsed new =>
      if bool_decide (rl_readers s = ∅) then
        Some (mkReloader new (rl_version s) (rl_last_update s) (rl_broadcasts s) (rl_pending_reload s) Swapped
                (rl_readers s) (rl_answers s) (rl_history s ++ [new]) (rl_warnings s))
      else None
  | Bump, Swapped =>
      let v := wrap_u 64 (rl_version s + 1) in
      Some (mkReloader (rl_config s) v (rl_last_update s) (rl_broadcasts s) (rl_pending_reload s) (Bumped v)
              (rl_readers s) (rl_answers s) (rl_history s) (rl_warnings s))
  | Stamp now_ms, Bumped v =>
      if 0 <=? now_ms then
        let ts := wrap_i 64 now_ms in
        Some (mkReloader (rl_config s) (rl_version s) (wrap_u 64 ts) (rl_broadcasts s) (rl_pending_reload s)
                (Stamped v ts) (rl_readers s) (rl_answers s) (rl_history s) (rl_warnings s))
      else None
  | Broadcast, Stamped v ts =>
      Some (mkReloader (rl_config s) (rl_version s) (rl_last_update s)
              (rl_broadcasts s ++ [mkConfigUpdateNotification v ts]) false Watching
              (rl_readers s) (rl_answers s) (rl_history s) (rl_warnings s))
  | ReadGuard r, _ =>
      match rl_readers s !! r with
      | None => Some (mkReloader (rl_config s) (rl_version s) (rl_last_update s) (rl_broadcasts s)
                        (rl_pending_reload s) (rl_pc s) (<[r := rl_config s]> (rl_readers s))
                        (rl_answers s) (rl_history s) (rl_warnings s))
      | Some _ => None
      end
  | ReadVersion r, _ =>
      c ← rl_readers s !! r;
      Some (mkReloader (rl_config s) (rl_version s) (rl_last_update s) (rl_broadcasts s) (rl_pending_reload s)
              (rl_pc s) (delete r (rl_readers s)) (rl_answers s ++ [(c, rl_version s)]) (rl_history s) (rl_warnings s))
  | _, _ => None
  end.

Fixpoint reload_run (ops : list reload_op) (s : Reloader) : option Reloader :=
  match ops with
  | [] => Some s
  | op :: ops' => s' ← reload_step op s; reload_run ops' s'
  end.

(** ** Which changes are reported *)
Definition with_client_cert (b : bool) (s : SecurityConfig) : SecurityConfig :=
  mkSecurityConfig (sec_cert_path s) (sec_key_path s) (sec_authorized_clients_dir s) (sec_enrollment_token_ttl s)
    b (sec_enrollment s).

Lemma orb_ne_false {A} `{EqDecision A} (x y : A) b : b || bool_decide (x ≠ y) = false ↔ b = false ∧ x = y.
Proof. by rewrite orb_false_iff, bool_decide_ne_false. Qed.

(** A reload passes without a warning exactly when the server section is the
    same and the security section is the same up to [require_client_cert]: every
    other security setting is compared, that one is not, and neither are the
    network and relay sections. *)
Lemma config_reload_allowed_iff old new :
  config_reload_allowed old new = true ↔
    cfg_server new = cfg_server old ∧
    ∃ b, cfg_security new = with_client_cert b (cfg_security old).
Proof.
  unfold config_reload_allowed. rewrite andb_true_iff, !negb_true_iff.
  unfold server_changed, security_changed. rewrite !orb_ne_false, !bool_decide_ne_false.
  destruct (cfg_server old), (cfg_server new), (cfg_security old) as [????? []], (cfg_security new) as [????? []].
  unfold with_client_cert. cbn.
  split; [intros [(((-> & ->) & ->) & ->) (((((((-> & ->) & ->) & ->) & ->) & ->) & ->) & ->)]; eauto|].
  intros [[= -> -> -> ->] [b [= -> -> -> -> -> -> -> -> ->]]]. auto 20.
Qed.

(** ** What readers see *)
Definition behind (pc : reload_pc) : Z := match pc with Swapped => 1 | _ => 0 end.

Record reload_inv (s : Reloader) : Prop := mkReloadInv {
  ri_current : last (rl_history s) = Some (rl_config s);
  ri_guards r c : rl_readers s !! r = Some c → c = rl_config s;
  ri_version : rl_version s = wrap_u 64 (Z.of_nat (length (rl_history s)) - behind (rl_pc s));
  ri_bumped : match rl_pc s with Bumped v | Stamped v _ => v = rl_version s | _ => True end;
  ri_broadcasts n : n ∈ rl_broadcasts s →
    ∃ j, (j < length (rl_history s))%nat ∧ cn_version n = wrap_u 64 (Z.of_nat j + 1);
}.

(** The answer [(c, v)] is the [k]th configuration with its own version [k + 1] or
    the version before it. *)
Definition answer_ok (from : nat) (history : list Config) (a : Config * Z) : Prop :=
  ∃ k, (from <= S k)%nat ∧ history !! k = Some a.1 ∧
       (a.2 = wrap_u 64 (Z.of_nat k) ∨ a.2 = wrap_u 64 (Z.of_nat k + 1)).

Definition advance (s s' : Reloader) : Prop :=
  rl_history s `prefix_of` rl_history s' ∧
  ∃ new, rl_answers s' = (rl_answers s ++ new)%list ∧
    Forall (answer_ok (length (rl_history s)) (rl_history s')) new.

Lemma advance_refl s : advance s s.
Proof. split; [done|]. exists []. by rewrite app_nil_r. Qed.

Lemma answer_ok_mono n n' h h' a : (n' <= n)%nat → h `prefix_of` h' → answer_ok n h a → answer_ok n' h' a.
Proof. intros Hn Hh (k & Hk & Hc & Hv). exists k. split; [lia|]. split; [by eapply prefix_lookup_Some|done]. Qed.

Lemma advance_trans s1 s2 s3 : advance s1 s2 → advance s2 s3 → advance s1 s3.
Proof.
  intros [H12 (n1 & E1 & F1)] [H23 (n2 & E2 & F2)]. split; [by etrans|].
  exists (n1 ++ n2)%list. split; [by rewrite E2, E1, (assoc_L _)|]. apply Forall_app. split.
  - eapply Forall_impl; [exact F1|]. intros a. by apply answer_ok_mono.
  - eapply Forall_impl; [exact F2|]. intros a. apply answer_ok_mono; [by apply prefix_length|done].
Qed.

Lemma advance_same s s' : rl_history s' = rl_history s → rl_answers s' = rl_answers s → advance s s'.
Proof. intros Hh Ha. split; [by rewrite Hh|]. exists []. by rewrite Ha, app_nil_r. Qed.

(** What the reader of a guarded configuration answers. *)
Lemma guarded_answer_ok s r c :
  reload_inv s → rl_readers s !! r = Some c → answer_ok (length (rl_history s)) (rl_history s) (c, rl_version s).
Proof.
  intros Hi Hr. rewrite (ri_guards s Hi r c Hr). pose proof (ri_current s Hi) as Hl.
  rewrite last_lookup in Hl. exists (pred (length (rl_history s))). split; [lia|]. split; [done|].
  apply lookup_lt_Some in Hl. simpl. rewrite (ri_version s Hi).
  destruct (rl_pc s); simpl; [right|right|left|right|right]; f_equal; lia.
Qed.

Lemma reload_inv_watch p pc w s :
  reload_inv s → rl_pc s = Watching → behind pc = 0 →
  (match pc with Bumped _ | Stamped _ _ => False | _ => True end) → reload_inv (watch p pc w s).
Proof.
  intros [Hc Hg Hv Hb Hn] Hp Hz Hpc. constructor; simpl; try done; [by rewrite Hz, Hv, Hp|]. by destruct pc.
Qed.

Lemma reload_inv_swap s new :
  reload_inv s → rl_pc s = Parsed new → rl_readers s = ∅ →
  reload_inv (mkReloader new (rl_version s) (rl_last_update s) (rl_broadcasts s) (rl_pending_reload s) Swapped
                (rl_readers s) (rl_answers s) (rl_history s ++ [new]) (rl_warnings s)).
Proof.
  intros [Hc Hg Hv Hb Hn] Hp He. constructor; simpl; try done.
  - apply last_snoc.
  - intros r c. rewrite He. by rewrite lookup_empty.
  - rewrite Hv, Hp, length_app. f_equal. simpl. lia.
  - intros n Hin. destruct (Hn n Hin) as (j & Hj & Ev). exists j. rewrite length_app. split; [lia|done].
Qed.

Lemma reload_inv_bump s :
  reload_inv s → rl_pc s = Swapped →
  let v := wrap_u 64 (rl_version s + 1) in
  reload_inv (mkReloader (rl_config s) v (rl_last_update s) (rl_broadcasts s) (rl_pending_reload s) (Bumped v)
                (rl_readers s) (rl_answers s) (rl_history s) (rl_warnings s)).
Proof.
  intros [Hc Hg Hv Hb Hn] Hp v. constructor; simpl; try done.
  unfold v. rewrite Hv, Hp. unfold wrap_u. rewrite Z.add_mod_idemp_l by done. f_equal. simpl. lia.
Qed.

Lemma reload_inv_broadcast s v ts :
  reload_inv s → rl_pc s = Stamped v ts →
  reload_inv (mkReloader (rl_config s) (rl_version s) (rl_last_update s)
                (rl_broadcasts s ++ [mkConfigUpdateNotification v ts]) false Watching
                (rl_readers s) (rl_answers s) (rl_history s) (rl_warnings s)).
Proof.
  intros [Hc Hg Hv Hb Hn] Hp. rewrite Hp in Hv, Hb. simpl in Hv. constructor; simpl; try done.
  intros n. rewrite elem_of_app, list_elem_of_singleton. intros [Hin| ->]; [by apply Hn|].
  rewrite last_lookup in Hc. apply lookup_lt_Some in Hc.
  exists (pred (length (rl_history s))). split; [lia|]. simpl. rewrite Hb, Hv. f_equal. lia.
Qed.

Lemma reload_step_ok op s s' : reload_step op s = Some s' → reload_inv s → reload_inv s' ∧ advance s s'.
Proof.
  intros Hs Hi. destruct op; simpl in Hs.
  1-6: destruct (rl_pc s) eqn:Hp; try done.
  - simplify_eq. split; [by apply reload_inv_watch|by apply advance_same].
  - destruct (rl_pending_reload s); [|simplify_eq; split; [done|apply advance_refl]].
    destruct loaded; simplify_eq; (split; [by apply reload_inv_watch|by apply advance_same]).
  - destruct (bool_decide_reflect (rl_readers s = ∅)); simplify_eq. split; [by apply reload_inv_swap|].
    split; [by eexists|]. exists []. by rewrite app_nil_r.
  - simplify_eq. split; [by apply reload_inv_bump|by apply advance_same].
  - destruct (0 <=? now_ms); simplify_eq. split; [|by apply advance_same].
    destruct Hi as [Hc Hg Hv Hb Hn]. rewrite Hp in Hv, Hb. by constructor.
  - simplify_eq. split; [by apply reload_inv_broadcast|by apply advance_same].
  - destruct (rl_readers s !! reader) eqn:Hr; simplify_eq. split; [|by apply advance_same].
    destruct Hi as [Hc Hg Hv Hb Hn]. constructor; simpl; try done.
    intros r c. rewrite lookup_insert_Some. naive_solver.
  - apply bind_Some in Hs as (c & Hr & [= <-]). split.
    + destruct Hi as [Hc Hg Hv Hb Hn]. constructor; simpl; try done.
      intros r d [_ Hd]%lookup_delete_Some. by eapply Hg.
    + split; [done|]. eexists. split; [reflexivity|]. apply Forall_singleton. exact (guarded_answer_ok s reader c Hi Hr).
Qed.

Lemma reload_run_ok ops s s' : reload_run ops s = Some s' → reload_inv s → reload_inv s' ∧ advance s s'.
Proof.
  revert s. induction ops as [|op ops IH]; intros s Hr Hi; simpl in Hr; [simplify_eq; by eauto using advance_refl|].
  apply bind_Some in Hr as (s1 & Hs & Hr). destruct (reload_step_ok op s s1 Hs Hi) as [Hi1 Ha].
  destruct (IH s1 Hr Hi1). eauto using advance_trans.
Qed.

Lemma reload_init_inv c now : reload_inv (reload_init c now).
Proof. constructor; simpl; try done. intros n Hn. by apply not_elem_of_nil in Hn. Qed.

(** A listing is never older than its version says.  However the watcher and
    the readers interleave, an answer of [list_capabilities] carries a configuration
    that was installed, together with that configuration's own version or the one
    before it (versions count installed configurations, modulo 2^64); and an answer
    given after a notification was broadcast carries the configuration of that
    notification or a later one. *)
Lemma listing_never_older_than_version config now ops1 s1 ops2 s2 :
  reload_run ops1 (reload_init config now) = Some s1 → reload_run ops2 s1 = Some s2 →
  ∃ new, rl_answers s2 = (rl_answers s1 ++ new)%list ∧
    ∀ c v, (c, v) ∈ new → ∃ k,
      rl_history s2 !! k = Some c ∧ (v = wrap_u 64 (Z.of_nat k) ∨ v = wrap_u 64 (Z.of_nat k + 1)) ∧
      ∀ n, n ∈ rl_broadcasts s1 → ∃ j, (j <= k)%nat ∧ cn_version n = wrap_u 64 (Z.of_nat j + 1).
Proof.
  intros H1 H2. destruct (reload_run_ok _ _ _ H1 (reload_init_inv config now)) as [Hi1 _].
  destruct (reload_run_ok _ _ _ H2 Hi1) as [_ [_ (new & Ha & Hok)]]. exists new. split; [done|].
  intros c v Hin. rewrite Forall_forall in Hok. destruct (Hok _ Hin) as (k & Hk & Hc & Hv). simpl in *.
  exists k. split_and!; [done..|]. intros n Hn. destruct (ri_broadcasts s1 Hi1 n Hn) as (j & Hj & En).
  exists j. split; [lia|done].
Qed.


(** Versions 1 and 2 of a configuration, with one reader before the swap, one
    between the swap and the new version, and one after. *)
Definition other_config : Config :=
  mkConfig (cfg_server strict_config) (with_client_cert false (cfg_security strict_config)) NetworkConfig_default
    RelayConfig_default [].
Definition reload_ops (new : Config) (now_ms : Z) : list reload_op :=
  [FileEvent true; Tick (Ok new); Swap; Bump; Stamp now_ms; Broadcast].
Definition interleaved : list reload_op :=
  [ReadGuard 1; FileEvent true; Tick (Ok other_config); ReadVersion 1; Swap; ReadGuard 2; ReadVersion 2; Bump; Stamp 9; Broadcast].

Lemma listing_never_older_than_version_witness : ∃ s1 s2,
  reload_run interleaved (reload_init strict_config 0) = Some s1 ∧ reload_run [ReadGuard 3; ReadVersion 3] s1 = Some s2 ∧
  rl_answers s2 = [(strict_config, 1); (other_config, 1); (other_config, 2)] ∧
  ∃ new, rl_answers s2 = (rl_answers s1 ++ new)%list ∧
    ∀ c v, (c, v) ∈ new → ∃ k,
      rl_history s2 !! k = Some c ∧ (v = wrap_u 64 (Z.of_nat k) ∨ v = wrap_u 64 (Z.of_nat k + 1)) ∧
      ∀ n, n ∈ rl_broadcasts s1 → ∃ j, (j <= k)%nat ∧ cn_version n = wrap_u 64 (Z.of_nat j + 1).
Proof.
  eexists _, _. split; [vm_compute; reflexivity|]. split; [vm_compute; reflexivity|]. split; [reflexivity|].
  eapply (listing_never_older_than_version strict_config 0 interleaved _ [ReadGuard 3; ReadVersion 3]);
    vm_compute; reflexivity.
Defined.

(** ** A reload can switch authentication off *)
Lemma reload_ops_run config now new now_ms :
  0 <= now_ms → ∃ s, reload_run (reload_ops new now_ms) (reload_init config now) = Some s ∧ rl_config s = new ∧
    rl_warnings s = (if config_reload_allowed config new then 0 else 1)%nat.
Proof.
  intros Hn. unfold reload_ops, reload_init. cbn -[config_reload_allowed wrap_u wrap_i Z.leb].
  apply Z.leb_le in Hn. rewrite Hn. cbn -[config_reload_allowed wrap_u wrap_i]. eauto.
Qed.

Section downgrade.
Context `{Sha256, HexEncode}.

(** A reload can switch client authentication off unnoticed.  Whatever the
    server's configuration, a file that differs from it only in that
    [require_client_cert] is off (or left out, which means off) is installed by the
    running watcher without the warning that it prints for other security settings;
    and from then on every caller passes [ensure_enrolled_client], whether or not it
    has a certificate.  The new configuration is not validated either: this holds of
    any capabilities. *)
Lemma reload_can_drop_client_auth config capabilities now now_ms :
  0 <= now_ms →
  let new := mkConfig (cfg_server config) (with_client_cert false (cfg_security config)) (cfg_network config)
               (cfg_relay config) capabilities in
  ∃ s, reload_run (reload_ops new now_ms) (reload_init config now) = Some s ∧
    rl_config s = new ∧ rl_warnings s = 0%nat ∧
    ∀ c sv, sv_config sv = rl_config s → is_ok (ensure_enrolled_client c sv) = true.
Proof.
  intros Hn new. destruct (reload_ops_run config now new now_ms Hn) as (s & Hr & Hc & Hw). exists s.
  assert (config_reload_allowed config new = true) as Ha by (apply config_reload_allowed_iff; eauto).
  rewrite Ha in Hw. split_and!; [done..|]. intros c sv Hsv. apply legacy_mode_admits_everyone. by rewrite Hsv, Hc.
Qed.
End downgrade.

#[local] Existing Instance demo_sha256.
#[local] Existing Instance demo_hex.

Lemma reload_can_drop_client_auth_witness : ∃ s,
  reload_run (reload_ops other_config 9) (reload_init strict_config 0) = Some s ∧ rl_warnings s = 0%nat ∧
  sec_require_client_cert (cfg_security strict_config) = true ∧
  sec_require_client_cert (cfg_security (rl_config s)) = false.
Proof.
  destruct (reload_can_drop_client_auth strict_config [] 0 9) as (s & Hr & Hc & Hw & _); [lia|].
  exists s. split_and!; [exact Hr|exact Hw|reflexivity|by rewrite Hc].
Defined.
