(* ===== verification/Io.v ===== *)
(** * Fallible sequences of file operations

    The client library reads and writes several files in one function and stops at
    the first error.  [io A] is such a function: it takes the disk to a new disk and
    a [result].  The answer of the operating system to the [k]th call is the [k]th
    value of [w_os], so a world determines a run and every failure pattern is some
    world.  [WOk] lets the call succeed. *)

From S2P Require Import Prelude RustStd ThirdParty Fs.


(** [w_modes] are the permission bits of files and directories; [w_umask_mode] the
    mode a file has when [fs::write] creates it. *)
Record World := mkWorld {
  w_fs : FileSystem;
  w_modes : gmap string Z;
  w_umask_mode : Z;
  w_os : nat → write_answer;
  w_calls : nat;
}.

Definition with_fs (fs : FileSystem) (w : World) : World :=
  mkWorld fs (w_modes w) (w_umask_mode w) (w_os w) (S (w_calls w)).
Definition with_modes (m : gmap string Z) (w : World) : World :=
  mkWorld (w_fs w) m (w_umask_mode w) (w_os w) (S (w_calls w)).
Definition os_answer (w : World) : write_answer := w_os w (w_calls w).
Definition os_ok (w : World) : bool := match os_answer w with WOk => true | WErr _ => false end.

Definition io (A : Type) : Type := World → World * result string A.

#[export] Instance io_ret : MRet io := λ A a w, (w, Ok a).
#[export] Instance io_bind : MBind io := λ A B f m w,
  match m w with
  | (w', Ok a) => f a w'
  | (w', Err e) => (w', Err e)
  end.

(** [?] on a computed result, and [with_context] on an action. *)
Definition lift {A} (r : result string A) : io A := λ w, (w, r).
Definition with_context {A} (c : string) (m : io A) : io A := λ w,
  match m w with (w', Ok a) => (w', Ok a) | (w', Err _) => (w', Err c) end.

(** [unwrap_or_else] on an action. *)
Definition or_else {A} (m : io A) (d : A) : io A := λ w,
  match m w with (w', Ok a) => (w', Ok a) | (w', Err _) => (w', Ok d) end.

Definition io_exists (p : string) : io bool := λ w, (w, Ok (fs_exists p (w_fs w))).

(** [fs::write] gives a new file the creation mode and leaves the mode of an old one. *)
Definition created_mode (p : string) (fs' : FileSystem) (w : World) : gmap string Z :=
  match fs_files (w_fs w) !! p, fs_files fs' !! p with
  | None, Some _ => <[p := w_umask_mode w]> (w_modes w)
  | _, _ => w_modes w
  end.
Definition io_write (p : string) (b : bytes) (e : string) : io unit := λ w,
  let '(fs', ok) := fs_write (os_answer w) p b (w_fs w) in
  (mkWorld fs' (created_mode p fs' w) (w_umask_mode w) (w_os w) (S (w_calls w)), if ok then Ok tt else Err e).

Definition io_create_dir_all (p e : string) : io unit := λ w,
  let '(fs', ok) := fs_create_dir_all (os_ok w) p (w_fs w) in
  (with_fs fs' w, if ok then Ok tt else Err e).

Definition io_read (p e : string) : io bytes := λ w,
  (with_fs (w_fs w) w, ok_or (fs_read (os_ok w) p (w_fs w)) e).
Definition io_read_to_string (p e : string) : io string := λ w,
  (with_fs (w_fs w) w, ok_or (fs_read_to_string (os_ok w) p (w_fs w)) e).

(** [fs::set_permissions] fails on a path that does not exist. *)
Definition io_chmod (p : string) (mode : Z) (e : string) : io unit := λ w,
  if os_ok w && fs_exists p (w_fs w) then (with_modes (<[p := mode]> (w_modes w)) w, Ok tt)
  else (with_modes (w_modes w) w, Err e).

(** ** Reasoning *)
(** No call fails from here on. *)
Definition reliable (w : World) : Prop := ∀ k, (w_calls w ≤ k)%nat → w_os w k = WOk.

Lemma with_context_ok {A} c (m : io A) w w' a : with_context c m w = (w', Ok a) ↔ m w = (w', Ok a).
Proof. unfold with_context. destruct (m w) as [w1 []]; split; intros [=]; congruence. Qed.

Lemma io_bind_ok {A B} (m : io A) (f : A → io B) w w' b :
  (m ≫= f) w = (w', Ok b) ↔ ∃ w1 a, m w = (w1, Ok a) ∧ f a w1 = (w', Ok b).
Proof. unfold mbind, io_bind. destruct (m w) as [w1 [a|e]]; naive_solver. Qed.

(** Running the first action of a sequence. *)
Lemma io_run {A B} (m : io A) (f : A → io B) w w1 a : m w = (w1, Ok a) → (m ≫= f) w = f a w1.
Proof. intros E. unfold mbind, io_bind. by rewrite E. Qed.
Lemma io_run_err {A B} (m : io A) (f : A → io B) w w1 e : m w = (w1, Err e) → (m ≫= f) w = (w1, Err e).
Proof. intros E. unfold mbind, io_bind. by rewrite E. Qed.
Lemma io_run_lift {A B} (r : result string A) (f : A → io B) w a : r = Ok a → (lift r ≫= f) w = f a w.
Proof. by intros ->. Qed.
Lemma io_run_exists {B} p (f : bool → io B) w : (io_exists p ≫= f) w = f (fs_exists p (w_fs w)) w.
Proof. done. Qed.

Lemma reliable_os w : reliable w → os_answer w = WOk.
Proof. intros H. by apply H. Qed.
Lemma reliable_ok w : reliable w → os_ok w = true.
Proof. intros H. unfold os_ok. by rewrite reliable_os. Qed.

Lemma reliable_step w w' : reliable w → w_os w' = w_os w → (w_calls w ≤ w_calls w')%nat → reliable w'.
Proof. intros H Ho Hc k Hk. rewrite Ho. apply H. lia. Qed.

Lemma io_write_reliable p b e w : reliable w →
  ∃ w', io_write p b e w = (w', Ok tt) ∧ w_fs w' = set_file p b (w_fs w) ∧ reliable w' ∧
    w_modes w' = created_mode p (set_file p b (w_fs w)) w.
Proof.
  intros H. unfold io_write. rewrite reliable_os by done. eexists. split; [reflexivity|]. split_and!; [done| |done].
  eapply reliable_step; [done..|simpl; lia].
Qed.

Lemma io_create_dir_all_reliable p e w : reliable w →
  ∃ w', io_create_dir_all p e w = (w', Ok tt) ∧ w_fs w' = mkFs (fs_files (w_fs w)) ({[p]} ∪ fs_dirs (w_fs w)) ∧
    reliable w' ∧ w_modes w' = w_modes w.
Proof.
  intros H. unfold io_create_dir_all. rewrite reliable_ok by done. eexists. split; [reflexivity|]. split_and!; [done| |done].
  eapply reliable_step; [done..|simpl; lia].
Qed.

Lemma io_read_to_string_reliable p e w s : reliable w → fs_read_to_string true p (w_fs w) = Some s →
  ∃ w', io_read_to_string p e w = (w', Ok s) ∧ w_fs w' = w_fs w ∧ reliable w' ∧ w_modes w' = w_modes w.
Proof.
  intros H Hs. unfold io_read_to_string. rewrite reliable_ok, Hs by done. eexists. split; [reflexivity|].
  split_and!; [done| |done]. eapply reliable_step; [done..|simpl; lia].
Qed.

Lemma io_chmod_reliable p mode e w : reliable w → fs_exists p (w_fs w) = true →
  ∃ w', io_chmod p mode e w = (w', Ok tt) ∧ w_fs w' = w_fs w ∧ reliable w' ∧ w_modes w' = <[p := mode]> (w_modes w).
Proof.
  intros H Hp. unfold io_chmod. rewrite reliable_ok, Hp by done. eexists. split; [reflexivity|].
  split_and!; [done| |done]. eapply reliable_step; [done..|simpl; lia].
Qed.

(** A property of worlds that each action keeps, whatever the outcome. *)
Definition keeps {A} (P : World → Prop) (m : io A) : Prop := ∀ w, P w → P (m w).1.

Section keeps.
Context (P : World → Prop).

Lemma keeps_ret {A} (a : A) : keeps P (mret a).
Proof. intros w. done. Qed.
Lemma keeps_bind {A B} (m : io A) (f : A → io B) : keeps P m → (∀ a, keeps P (f a)) → keeps P (m ≫= f).
Proof.
  intros Hm Hf w Hw. specialize (Hm w Hw). unfold mbind, io_bind.
  destruct (m w) as [w' [a|e]]; [by apply Hf|done].
Qed.
Lemma keeps_bind_post {A B} (m : io A) (f : A → io B) :
  keeps P m → (∀ a w w', m w = (w', Ok a) → keeps P (f a)) → keeps P (m ≫= f).
Proof.
  intros Hm Hf w Hw. specialize (Hm w Hw). unfold mbind, io_bind.
  destruct (m w) as [w' [a|e]] eqn:E; [by eapply Hf|done].
Qed.
Lemma keeps_lift {A} (r : result string A) : keeps P (lift r).
Proof. intros w. done. Qed.
Lemma keeps_context {A} c (m : io A) : keeps P m → keeps P (with_context c m).
Proof. intros Hm w Hw. specialize (Hm w Hw). unfold with_context. by destruct (m w) as [w' []]. Qed.
Lemma keeps_or_else {A} (m : io A) d : keeps P m → keeps P (or_else m d).
Proof. intros Hm w Hw. specialize (Hm w Hw). unfold or_else. by destruct (m w) as [w' []]. Qed.
Lemma keeps_exists p : keeps P (io_exists p).
Proof. intros w. done. Qed.
End keeps.

Create HintDb io.
#[export] Hint Resolve keeps_ret keeps_bind keeps_lift keeps_context keeps_or_else keeps_exists : io.

#[global] Arguments io_write _ _ _ _ : simpl never.
#[global] Arguments io_create_dir_all _ _ _ : simpl never.
#[global] Arguments io_read _ _ _ : simpl never.
#[global] Arguments io_read_to_string _ _ _ : simpl never.
#[global] Arguments io_chmod _ _ _ _ : simpl never.

(** Actions on one path leave the mode of another alone. *)
Section frame.
Context (q : string) (v : option Z).
Definition mode_is (w : World) : Prop := w_modes w !! q = v.

Lemma keeps_mode_write p b e : p ≠ q → keeps mode_is (io_write p b e).
Proof.
  intros Hne w Hw. unfold io_write. destruct (fs_write _ p b _) as [fs' ok]. unfold mode_is, created_mode in *. cbn.
  by repeat case_match; simplify_map_eq.
Qed.
Lemma keeps_mode_chmod p m e : p ≠ q → keeps mode_is (io_chmod p m e).
Proof. intros Hne w Hw. unfold io_chmod, mode_is in *. case_match; cbn; by simplify_map_eq. Qed.
Lemma keeps_mode_create p e : keeps mode_is (io_create_dir_all p e).
Proof. intros w Hw. unfold io_create_dir_all. by destruct (fs_create_dir_all _ p _). Qed.
Lemma keeps_mode_read p e : keeps mode_is (io_read p e).
Proof. intros w Hw. done. Qed.
Lemma keeps_mode_read_to_string p e : keeps mode_is (io_read_to_string p e).
Proof. intros w Hw. done. Qed.
End frame.
#[export] Hint Resolve keeps_mode_write keeps_mode_chmod keeps_mode_create keeps_mode_read keeps_mode_read_to_string : io.

(** The same for the content of a file. *)
Section file_frame.
Context (q : string) (v : option bytes).
Definition file_is (w : World) : Prop := fs_files (w_fs w) !! q = v.

Lemma keeps_file_write p b e : p ≠ q → keeps file_is (io_write p b e).
Proof.
  intros Hne w Hw. unfold io_write, file_is in *. destruct (os_answer w) as [|[l|]]; cbn; by rewrite ?lookup_insert_ne by done.
Qed.
Lemma keeps_file_create p e : keeps file_is (io_create_dir_all p e).
Proof. intros w Hw. unfold io_create_dir_all, file_is in *. by destruct (os_ok w). Qed.
Lemma keeps_file_read_to_string p e : keeps file_is (io_read_to_string p e).
Proof. intros w Hw. done. Qed.
End file_frame.
#[export] Hint Resolve keeps_file_write keeps_file_create keeps_file_read_to_string : io.

Lemma fs_exists_spec q fs : fs_exists q fs = true ↔ is_Some (fs_files fs !! q) ∨ q ∈ fs_dirs fs.
Proof. unfold fs_exists. by rewrite orb_true_iff, !bool_decide_eq_true. Qed.
Lemma fs_absent_spec q fs : fs_exists q fs = false ↔ fs_files fs !! q = None ∧ (q ∉ fs_dirs fs).
Proof. unfold fs_exists. by rewrite orb_false_iff, !bool_decide_eq_false, eq_None_not_Some. Qed.

Lemma keeps_reliable_write p b e : keeps reliable (io_write p b e).
Proof. intros w Hw. unfold io_write. destruct (fs_write _ _ _ _). eapply reliable_step; [done..|simpl; lia]. Qed.
Lemma keeps_reliable_create p e : keeps reliable (io_create_dir_all p e).
Proof. intros w Hw. unfold io_create_dir_all. destruct (fs_create_dir_all _ _ _). eapply reliable_step; [done..|simpl; lia]. Qed.
Lemma keeps_reliable_read p e : keeps reliable (io_read_to_string p e).
Proof. intros w Hw. unfold io_read_to_string. eapply reliable_step; [done..|simpl; lia]. Qed.
#[export] Hint Resolve keeps_reliable_write keeps_reliable_create keeps_reliable_read : io.

(** ** Footprints
    A property of the file system that survives writing some files and making some
    directories survives every action that does no more than that. *)
Section footprint.
Context (F : FileSystem → Prop).
Definition allows_file (p : string) : Prop := ∀ b fs, F fs → F (set_file p b fs).
Definition allows_dir (p : string) : Prop := ∀ fs, F fs → F (mkFs (fs_files fs) ({[p]} ∪ fs_dirs fs)).
Definition on_fs (w : World) : Prop := F (w_fs w).

Lemma keeps_fs_write p b e : allows_file p → keeps on_fs (io_write p b e).
Proof. intros Ha w Hw. unfold on_fs, io_write in *. destruct (os_answer w) as [|[l|]]; cbn; [by apply Ha..|done]. Qed.
Lemma keeps_fs_create p e : allows_dir p → keeps on_fs (io_create_dir_all p e).
Proof. intros Ha w Hw. unfold on_fs, io_create_dir_all in *. destruct (os_ok w); cbn; [by apply Ha|done]. Qed.
Lemma keeps_fs_read p e : keeps on_fs (io_read_to_string p e).
Proof. by intros w Hw. Qed.
End footprint.
#[export] Hint Resolve keeps_fs_write keeps_fs_create keeps_fs_read : io.

(** The content of a file, that a path exists, that it does not. *)
Definition file_holds (q : string) (v : option bytes) (fs : FileSystem) : Prop := fs_files fs !! q = v.
Definition there (q : string) (fs : FileSystem) : Prop := fs_exists q fs = true.
Definition absent (q : string) (fs : FileSystem) : Prop := fs_exists q fs = false.

Lemma file_holds_file q v p : p ≠ q → allows_file (file_holds q v) p.
Proof. intros Hne b fs Hf. unfold file_holds in *. cbn. by rewrite lookup_insert_ne. Qed.
Lemma file_holds_dir q v p : allows_dir (file_holds q v) p.
Proof. by intros fs Hf. Qed.
Lemma there_file q p : allows_file (there q) p.
Proof.
  intros b fs. unfold there. rewrite !fs_exists_spec. intros [Hq|Hq]; [left|by right]. cbn. destruct (decide (p = q)); by simplify_map_eq.
Qed.
Lemma there_dir q p : allows_dir (there q) p.
Proof. intros fs. unfold there. rewrite !fs_exists_spec. intros [Hq|Hq]; [by left|right]. cbn. set_solver. Qed.
Lemma absent_file q p : p ≠ q → allows_file (absent q) p.
Proof. intros Hne b fs. unfold absent. rewrite !fs_absent_spec. intros [Hf Hd]. cbn. by rewrite lookup_insert_ne. Qed.
Lemma absent_dir q p : p ≠ q → allows_dir (absent q) p.
Proof. intros Hne fs. unfold absent. rewrite !fs_absent_spec. intros [Hf Hd]. split; [done|set_solver]. Qed.
#[export] Hint Resolve file_holds_file file_holds_dir there_file there_dir absent_file absent_dir : io.

Lemma io_chmod_ok p m e w w' u : io_chmod p m e w = (w', Ok u) → w_modes w' !! p = Some m ∧ w_fs w' = w_fs w.
Proof. unfold io_chmod. case_match; intros [= <-]; cbn. by rewrite lookup_insert_eq. Qed.
Lemma io_write_ok p b e w w' u : io_write p b e w = (w', Ok u) → w_fs w' = set_file p b (w_fs w).
Proof. unfold io_write. destruct (os_answer w) as [|[]]; cbn; by intros [= <-]. Qed.
