(* ===== verification/ClientConfig.v ===== *)
(** * The client's configuration (client-lib/src/config.rs)

    [client.toml] with serde's defaults.  The TOML crate yields a document whose
    absent keys are [None] ([RawClientConfig]); [de_client_config] applies the
    [#[serde(default)]] attributes. *)

From S2P Require Import Prelude RustStd ThirdParty Fs Io.

Local Open Scope string_scope.
Local Open Scope Z_scope.

Definition CONFIG_FILE_NAME : string := "client.toml".
Definition CONFIG_DIR_ENV_VAR : string := "HANDCONTROL_CONFIG_DIR".

Record RelayBehaviorConfig := mkRelayBehaviorConfig {
  rb_prefer_relay : bool;
  rb_relay_only_mode : bool;
  rb_max_direct_attempts : Z;
}.
Record DiscoveryConfig := mkDiscoveryConfig {
  dc_auto_discover : bool;
  dc_timeout_seconds : Z;
  dc_prefer_ipv6 : bool;
  dc_include_link_local : bool;
}.
Record ConnectionConfig := mkConnectionConfig {
  cx_timeout_seconds : Z;
  cx_command_timeout_seconds : Z;
  cx_retry_attempts : Z;
  cx_retry_delay_ms : Z;
}.
Record TuiConfig := mkTuiConfig {
  tc_show_timestamps : bool;
  tc_color_scheme : string;
  tc_auto_scroll : bool;
  tc_confirm_commands : bool;
}.
Record CliConfig := mkCliConfig {
  lc_output_format : string;
  lc_show_headers : bool;
  lc_color_output : string;
  lc_jiggle_resize_on_resume : bool;
}.
Record DeviceConfig := mkDeviceConfig { dv_name : option string; dv_model : option string }.

(** [network] has the single field [relay]. *)
Record ClientConfig := mkClientConfig {
  cc_discovery : DiscoveryConfig;
  cc_connection : ConnectionConfig;
  cc_network_relay : RelayBehaviorConfig;
  cc_tui : TuiConfig;
  cc_cli : CliConfig;
  cc_device : option DeviceConfig;
}.

(** ** The functions serde calls for absent keys *)
Definition default_discovery_timeout : Z := 5.
Definition default_timeout_seconds : Z := 5.
Definition default_command_timeout : Z := 300.
Definition default_max_direct_attempts : Z := 3.
Definition default_retry_attempts : Z := 3.
Definition default_retry_delay : Z := 1000.
Definition default_color_scheme : string := "default".
Definition default_output_format : string := "tsv".
Definition default_color_output : string := "auto".

(** ** The [Default] instances *)
Definition RelayBehaviorConfig_default : RelayBehaviorConfig :=
  mkRelayBehaviorConfig false false default_max_direct_attempts.
Definition DiscoveryConfig_default : DiscoveryConfig := mkDiscoveryConfig true 5 true false.
Definition ConnectionConfig_default : ConnectionConfig := mkConnectionConfig 5 300 3 1000.
Definition TuiConfig_default : TuiConfig := mkTuiConfig true "default" true false.
Definition CliConfig_default : CliConfig := mkCliConfig "tsv" true "auto" true.
Definition ClientConfig_default : ClientConfig :=
  mkClientConfig DiscoveryConfig_default ConnectionConfig_default RelayBehaviorConfig_default TuiConfig_default
    CliConfig_default None.

(** ** The document *)
Record RawRelayBehavior := mkRawRelayBehavior {
  rrb_prefer_relay : option bool; rrb_relay_only_mode : option bool; rrb_max_direct_attempts : option Z }.
Record RawDiscovery := mkRawDiscovery {
  rdc_auto_discover : option bool; rdc_timeout_seconds : option Z; rdc_prefer_ipv6 : option bool;
  rdc_include_link_local : option bool }.
Record RawConnection := mkRawConnection {
  rcx_timeout_seconds : option Z; rcx_command_timeout_seconds : option Z; rcx_retry_attempts : option Z;
  rcx_retry_delay_ms : option Z }.
Record RawTui := mkRawTui {
  rtc_show_timestamps : option bool; rtc_color_scheme : option string; rtc_auto_scroll : option bool;
  rtc_confirm_commands : option bool }.
Record RawCli := mkRawCli {
  rlc_output_format : option string; rlc_show_headers : option bool; rlc_color_output : option string;
  rlc_jiggle_resize_on_resume : option bool }.
Record RawClientConfig := mkRawClientConfig {
  rcc_discovery : option RawDiscovery;
  rcc_connection : option RawConnection;
  rcc_network : option (option RawRelayBehavior);
  rcc_tui : option RawTui;
  rcc_cli : option RawCli;
  rcc_device : option DeviceConfig;
}.

Definition de_relay_behavior (r : RawRelayBehavior) : RelayBehaviorConfig :=
  mkRelayBehaviorConfig (default false (rrb_prefer_relay r)) (default false (rrb_relay_only_mode r))
    (default default_max_direct_attempts (rrb_max_direct_attempts r)).
Definition de_discovery (r : RawDiscovery) : DiscoveryConfig :=
  mkDiscoveryConfig (default true (rdc_auto_discover r)) (default default_discovery_timeout (rdc_timeout_seconds r))
    (default true (rdc_prefer_ipv6 r)) (default false (rdc_include_link_local r)).
Definition de_connection (r : RawConnection) : ConnectionConfig :=
  mkConnectionConfig (default default_timeout_seconds (rcx_timeout_seconds r))
    (default default_command_timeout (rcx_command_timeout_seconds r))
    (default default_retry_attempts (rcx_retry_attempts r)) (default default_retry_delay (rcx_retry_delay_ms r)).
Definition de_tui (r : RawTui) : TuiConfig :=
  mkTuiConfig (default true (rtc_show_timestamps r)) (default default_color_scheme (rtc_color_scheme r))
    (default true (rtc_auto_scroll r)) (default false (rtc_confirm_commands r)).
Definition de_cli (r : RawCli) : CliConfig :=
  mkCliConfig (default default_output_format (rlc_output_format r)) (default true (rlc_show_headers r))
    (default default_color_output (rlc_color_output r)) (default true (rlc_jiggle_resize_on_resume r)).
Definition de_client_config (r : RawClientConfig) : ClientConfig :=
  mkClientConfig (default DiscoveryConfig_default (de_discovery <$> rcc_discovery r))
    (default ConnectionConfig_default (de_connection <$> rcc_connection r))
    (default RelayBehaviorConfig_default
       (n ← rcc_network r; Some (default RelayBehaviorConfig_default (de_relay_behavior <$> n))))
    (default TuiConfig_default (de_tui <$> rcc_tui r))
    (default CliConfig_default (de_cli <$> rcc_cli r))
    (rcc_device r).

(** What serialising a configuration writes: every key but a missing device. *)
Definition ser_client_config (c : ClientConfig) : RawClientConfig :=
  let d := cc_discovery c in let x := cc_connection c in let b := cc_network_relay c in
  let t := cc_tui c in let l := cc_cli c in
  mkRawClientConfig
    (Some (mkRawDiscovery (Some (dc_auto_discover d)) (Some (dc_timeout_seconds d)) (Some (dc_prefer_ipv6 d))
             (Some (dc_include_link_local d))))
    (Some (mkRawConnection (Some (cx_timeout_seconds x)) (Some (cx_command_timeout_seconds x))
             (Some (cx_retry_attempts x)) (Some (cx_retry_delay_ms x))))
    (Some (Some (mkRawRelayBehavior (Some (rb_prefer_relay b)) (Some (rb_relay_only_mode b))
             (Some (rb_max_direct_attempts b)))))
    (Some (mkRawTui (Some (tc_show_timestamps t)) (Some (tc_color_scheme t)) (Some (tc_auto_scroll t))
             (Some (tc_confirm_commands t))))
    (Some (mkRawCli (Some (lc_output_format l)) (Some (lc_show_headers l)) (Some (lc_color_output l))
             (Some (lc_jiggle_resize_on_resume l))))
    (cc_device c).

(** ** Files *)
(** The environment of the process: the variable, if set, and the directory the
    [directories] crate computes. *)
Record ClientEnv := mkClientEnv { ce_config_dir_var : option string; ce_project_config_dir : option string }.

Definition client_config_dir (env : ClientEnv) : io string :=
  match ce_config_dir_var env with
  | Some dir =>
      if str_is_empty dir then
        lift (Err (String.append CONFIG_DIR_ENV_VAR " is set but empty; provide a valid directory path"))
      else
        _ ← io_create_dir_all dir (String.append "Failed to create config directory "
              (String.append dir (String.append " from " CONFIG_DIR_ENV_VAR)));
        mret dir
  | None =>
      config_dir ← lift (ok_or (ce_project_config_dir env) "Unable to determine configuration directory");
      _ ← io_create_dir_all config_dir (String.append "Failed to create config directory " config_dir);
      mret config_dir
  end.

Definition client_config_path (env : ClientEnv) : io string :=
  dir ← client_config_dir env; mret (path_join dir CONFIG_FILE_NAME).

Section files.
Context `{TomlCodec RawClientConfig}.

Definition load_client_config (env : ClientEnv) : io ClientConfig :=
  path ← client_config_path env;
  there ← io_exists path;
  if negb there then mret ClientConfig_default
  else
    contents ← io_read_to_string path (String.append "Failed to read " path);
    if str_is_empty (trim contents) then mret ClientConfig_default
    else
      raw ← lift (map_err (λ _, String.append "Failed to parse client config at " path) (toml_from_str contents));
      mret (de_client_config raw).

Definition save_client_config (env : ClientEnv) (config : ClientConfig) : io unit :=
  path ← client_config_path env;
  contents ← lift (map_err (λ _, "Failed to serialize client config") (toml_to_string_pretty (ser_client_config config)));
  io_write path (to_bytes contents) (String.append "Failed to write " path).
End files.

(** ** Lemmas *)
(** The defaults of the keys are the defaults of the sections: an empty document, or
    one with empty sections, is the default configuration. *)
Lemma empty_document_is_default :
  de_client_config (mkRawClientConfig None None None None None None) = ClientConfig_default ∧
  de_client_config (mkRawClientConfig (Some (mkRawDiscovery None None None None)) (Some (mkRawConnection None None None None))
    (Some (Some (mkRawRelayBehavior None None None))) (Some (mkRawTui None None None None))
    (Some (mkRawCli None None None None)) None) = ClientConfig_default.
Proof. done. Qed.

Lemma de_ser_client_config c : de_client_config (ser_client_config c) = c.
Proof. by destruct c as [[] [] [] [] [] ?]. Qed.

(** A directory that both calls determine. *)
Definition env_dir (env : ClientEnv) : option string :=
  match ce_config_dir_var env with
  | Some dir => if str_is_empty dir then None else Some dir
  | None => ce_project_config_dir env
  end.

Lemma client_config_dir_reliable env dir w : env_dir env = Some dir → reliable w →
  ∃ w', client_config_dir env w = (w', Ok dir) ∧ fs_files (w_fs w') = fs_files (w_fs w) ∧ reliable w' ∧
    fs_dirs (w_fs w') = {[dir]} ∪ fs_dirs (w_fs w) ∧ w_modes w' = w_modes w.
Proof.
  unfold env_dir, client_config_dir. intros Hd Hw.
  assert (∀ e, ∃ w', (io_create_dir_all dir e ≫= λ _, mret dir) w = (w', Ok dir) ∧ fs_files (w_fs w') = fs_files (w_fs w) ∧
    reliable w' ∧ fs_dirs (w_fs w') = {[dir]} ∪ fs_dirs (w_fs w) ∧ w_modes w' = w_modes w) as Hc.
  { intros e. destruct (io_create_dir_all_reliable dir e w Hw) as (w' & E & Hfs & Hr & Hm).
    exists w'. unfold mbind, io_bind. rewrite E, Hfs. by split_and!. }
  destruct (ce_config_dir_var env) as [d|]; [destruct (str_is_empty d); [done|]; injection Hd as ->; apply Hc|].
  rewrite Hd. apply Hc.
Qed.

Section roundtrip.
Context `{TomlLaws RawClientConfig}.

Lemma client_config_path_reliable env dir w : env_dir env = Some dir → reliable w →
  ∃ w', client_config_path env w = (w', Ok (path_join dir CONFIG_FILE_NAME)) ∧ fs_files (w_fs w') = fs_files (w_fs w) ∧
    reliable w'.
Proof.
  intros Hd Hw. destruct (client_config_dir_reliable env dir w Hd Hw) as (w' & E & Hf & Hr & _).
  exists w'. unfold client_config_path. by rewrite (io_run _ _ _ _ _ E).
Qed.

(** What was saved is loaded again. *)
Lemma client_config_roundtrip env dir c w w1 :
  env_dir env = Some dir → reliable w → save_client_config env c w = (w1, Ok tt) →
  (∀ s, toml_to_string_pretty (ser_client_config c) = Ok s → str_is_empty (trim s) = false) →
  ∃ w2, load_client_config env w1 = (w2, Ok c).
Proof.
  intros Hd Hw Hs Hne. unfold save_client_config in Hs.
  destruct (client_config_path_reliable env dir w Hd Hw) as (w0 & Hdir & _ & Hr0).
  rewrite (io_run _ _ _ _ _ Hdir) in Hs.
  destruct (toml_to_string_pretty (ser_client_config c)) as [s|] eqn:Hp; [|done].
  rewrite (io_run_lift _ _ _ s) in Hs by done. set (path := path_join dir CONFIG_FILE_NAME) in *.
  destruct (io_write_reliable path (to_bytes s) (String.append "Failed to write " path) w0 Hr0) as (w1' & Hwr & Hfs & Hr1 & _).
  rewrite Hwr in Hs. injection Hs as <-.
  destruct (toml_roundtrip _ _ Hp) as [Hparse Hutf].
  destruct (client_config_path_reliable env dir w1' Hd Hr1) as (w2 & Hdir2 & Hfiles & Hr2).
  assert (fs_read_to_string true path (w_fs w2) = Some s) as Hread.
  { unfold fs_read_to_string, fs_read. rewrite Hfiles, Hfs. exact (fs_read_to_string_set_file path s (w_fs w0) Hutf). }
  assert (fs_exists path (w_fs w2) = true) as Hex.
  { unfold fs_exists. rewrite Hfiles, Hfs. cbn. by rewrite lookup_insert_eq. }
  destruct (io_read_to_string_reliable path (String.append "Failed to read " path) w2 s Hr2 Hread) as (w3 & Hrd & _).
  exists w3. unfold load_client_config. rewrite (io_run _ _ _ _ _ Hdir2), io_run_exists. fold path. rewrite Hex. cbn [negb].
  rewrite (io_run _ _ _ _ _ Hrd), (Hne s eq_refl), (io_run_lift _ _ _ (ser_client_config c)) by by rewrite Hparse.
  by rewrite de_ser_client_config.
Qed.
End roundtrip.
