(* ===== verification/ClientStorage.v ===== *)
(** * What the client stores (client-lib/src/storage.rs, certificates.rs)

    The registry of enrolled servers ([servers.toml]) and the certificate files of
    each server. *)

From S2P Require Import Prelude RustStd ThirdParty Fs Io SessionState RelayTokens ClientConfig.

Local Open Scope string_scope.
Local Open Scope Z_scope.

Definition REGISTRY_FILE_NAME : string := "servers.toml".

Record RegistryRelayInfo := mkRegistryRelayInfo {
  rr_relay_url : string;
  rr_relay_token : string;
  rr_relay_required : bool;
  rr_allow_self_signed_tls : bool;
  rr_pinned_cert_sha256 : option string;
}.

Record ServerRegistryEntry := mkServerRegistryEntry {
  sre_id : Uuid;
  sre_hostname : option string;
  sre_ip : option string;
  sre_port : option Z;
  sre_enrolled_at : option string;
  sre_last_seen : option string;
  sre_client_id : option Uuid;
  sre_cert_fingerprint : option string;
  sre_cert_path : option string;
  sre_addresses : list string;
  sre_relay : option RegistryRelayInfo;
}.

Record ServerRegistryFile := mkServerRegistryFile { srf_server : option (list ServerRegistryEntry) }.
Record ServerRegistry := mkServerRegistry { sr_entries : list ServerRegistryEntry }.

Definition set_addresses (l : list string) (e : ServerRegistryEntry) : ServerRegistryEntry :=
  mkServerRegistryEntry (sre_id e) (sre_hostname e) (sre_ip e) (sre_port e) (sre_enrolled_at e) (sre_last_seen e)
    (sre_client_id e) (sre_cert_fingerprint e) (sre_cert_path e) l (sre_relay e).
Definition set_ip (ip : option string) (e : ServerRegistryEntry) : ServerRegistryEntry :=
  mkServerRegistryEntry (sre_id e) (sre_hostname e) ip (sre_port e) (sre_enrolled_at e) (sre_last_seen e)
    (sre_client_id e) (sre_cert_fingerprint e) (sre_cert_path e) (sre_addresses e) (sre_relay e).

(** The loop of [save], and the two statements of the loop of [load]. *)
Definition fill_ip (e : ServerRegistryEntry) : ServerRegistryEntry :=
  match sre_ip e with None => set_ip (head (sre_addresses e)) e | Some _ => e end.
Definition fill_addresses (e : ServerRegistryEntry) : ServerRegistryEntry :=
  match sre_addresses e, sre_ip e with [], Some ip => set_addresses [ip] e | _, _ => e end.

Definition registry_path (env : ClientEnv) : io string :=
  dir ← client_config_dir env; mret (path_join dir REGISTRY_FILE_NAME).

Section registry.
Context `{TomlCodec ServerRegistryFile}.

Definition registry_load (env : ClientEnv) : io ServerRegistry :=
  path ← registry_path env;
  there ← io_exists path;
  if negb there then mret (mkServerRegistry [])
  else
    contents ← io_read_to_string path (String.append "Failed to read " path);
    if str_is_empty (trim contents) then mret (mkServerRegistry [])
    else
      file ← lift (map_err (λ _, String.append "Failed to parse " path) (toml_from_str contents));
      mret (mkServerRegistry ((λ e, fill_ip (fill_addresses e)) <$> default [] (srf_server file))).

Definition registry_save (env : ClientEnv) (r : ServerRegistry) : io unit :=
  path ← registry_path env;
  let entries := fill_ip <$> sr_entries r in
  let file := mkServerRegistryFile (match entries with [] => None | _ => Some entries end) in
  contents ← lift (map_err (λ _, "Failed to serialize server registry") (toml_to_string_pretty file));
  io_write path (to_bytes contents) (String.append "Failed to write " path).
End registry.

Definition find_by_id (id : Uuid) (r : ServerRegistry) : option ServerRegistryEntry :=
  snd <$> list_find (λ e, sre_id e = id) (sr_entries r).

Fixpoint upsert_entries (entry : ServerRegistryEntry) (l : list ServerRegistryEntry) : list ServerRegistryEntry :=
  match l with
  | [] => [entry]
  | e :: l' => if bool_decide (sre_id e = sre_id entry) then entry :: l' else e :: upsert_entries entry l'
  end.
Definition upsert (entry : ServerRegistryEntry) (r : ServerRegistry) : ServerRegistry :=
  mkServerRegistry (upsert_entries entry (sr_entries r)).

Definition registry_remove (id : Uuid) (r : ServerRegistry) : ServerRegistry :=
  mkServerRegistry (filter (λ e, sre_id e ≠ id) (sr_entries r)).

(** ** The registry is a finite map from server ids to entries *)
Definition registry_map (r : ServerRegistry) : gmap Uuid ServerRegistryEntry :=
  foldr (λ e m, <[sre_id e := e]> m) ∅ (sr_entries r).

Lemma find_by_id_map id r : find_by_id id r = registry_map r !! id.
Proof.
  destruct r as [l]. unfold find_by_id, registry_map. cbn. induction l as [|e l IH]; cbn; [done|].
  destruct (decide (sre_id e = id)) as [<-|Hne]; [by rewrite lookup_insert_eq|].
  rewrite lookup_insert_ne by done. rewrite <-IH. cbn. by destruct (list_find _ l) as [[]|].
Qed.

Lemma upsert_map entry r : registry_map (upsert entry r) = <[sre_id entry := entry]> (registry_map r).
Proof.
  destruct r as [l]. unfold registry_map, upsert. cbn. induction l as [|e l IH]; cbn; [done|].
  case_bool_decide as Heq; cbn; [by rewrite Heq, insert_insert_eq|]. rewrite IH. by rewrite insert_insert_ne.
Qed.

Lemma remove_map id r : registry_map (registry_remove id r) = delete id (registry_map r).
Proof.
  destruct r as [l]. unfold registry_map, registry_remove. cbn [sr_entries].
  induction l as [|e l IH]; cbn [foldr]; [by rewrite delete_empty|].
  rewrite filter_cons. case_decide as Hne; cbn [foldr].
  - rewrite IH. by rewrite delete_insert_ne by congruence.
  - subst id. by rewrite IH, delete_insert_eq.
Qed.

(** An entry in the form [load] leaves it in: an address is known in both fields or
    in none. *)
Definition entry_filled (e : ServerRegistryEntry) : Prop := sre_ip e = None ↔ sre_addresses e = [].
Definition loaded_entry (e : ServerRegistryEntry) : ServerRegistryEntry := fill_ip (fill_addresses e).

Lemma loaded_entry_filled e : entry_filled (loaded_entry e) ∧ sre_id (loaded_entry e) = sre_id e.
Proof.
  unfold loaded_entry, entry_filled, fill_addresses, fill_ip.
  destruct e as [? ? [ip|] ? ? ? ? ? ? [|a l] ?]; cbn; split; try done; naive_solver.
Qed.

(** Saving fills in [ip] only: loading undoes nothing and adds the address. *)
Lemma loaded_fill_ip e : loaded_entry (fill_ip e) = loaded_entry e.
Proof. by destruct e as [? ? [ip|] ? ? ? ? ? ? [|a l] ?]. Qed.
Lemma loaded_saved (l : list ServerRegistryEntry) : loaded_entry <$> (fill_ip <$> l) = loaded_entry <$> l.
Proof. rewrite <-list_fmap_compose. apply list_fmap_ext. intros ? e _. apply loaded_fill_ip. Qed.
Lemma loaded_entry_id e : entry_filled e → loaded_entry e = e.
Proof. destruct e as [? ? [ip|] ? ? ? ? ? ? [|a l] ?]; unfold entry_filled; cbn; naive_solver. Qed.

Definition loaded (r : ServerRegistry) : ServerRegistry := mkServerRegistry (loaded_entry <$> sr_entries r).

Lemma registry_map_loaded r : registry_map (loaded r) = loaded_entry <$> registry_map r.
Proof.
  destruct r as [l]. unfold registry_map, loaded. cbn. induction l as [|e l IH]; cbn; [by rewrite fmap_empty|].
  rewrite IH, fmap_insert. by rewrite (proj2 (loaded_entry_filled e)).
Qed.

Section persistence.
Context `{TomlLaws ServerRegistryFile}.

Lemma registry_path_reliable env dir w : env_dir env = Some dir → reliable w →
  ∃ w', registry_path env w = (w', Ok (path_join dir REGISTRY_FILE_NAME)) ∧ fs_files (w_fs w') = fs_files (w_fs w) ∧
    reliable w'.
Proof.
  intros Hd Hw. destruct (client_config_dir_reliable env dir w Hd Hw) as (w' & E & Hf & Hr & _).
  exists w'. unfold registry_path. by rewrite (io_run _ _ _ _ _ E).
Qed.

(** The file that [registry_save] writes for [r], when it is read back. *)
Lemma registry_load_reads env dir w text file :
  env_dir env = Some dir → reliable w →
  fs_files (w_fs w) !! path_join dir REGISTRY_FILE_NAME = Some (to_bytes text) → utf8_valid text = true →
  toml_from_str text = Ok file → (str_is_empty (trim text) = true → srf_server file = None) →
  ∃ w', registry_load env w = (w', Ok (mkServerRegistry (loaded_entry <$> default [] (srf_server file)))).
Proof.
  intros Hd Hw Hfile Hutf Hparse Hblank. unfold registry_load.
  destruct (registry_path_reliable env dir w Hd Hw) as (w1 & Hp & Hf & Hr).
  rewrite (io_run _ _ _ _ _ Hp), io_run_exists. set (path := path_join dir REGISTRY_FILE_NAME) in *.
  assert (fs_exists path (w_fs w1) = true) as -> by (unfold fs_exists; by rewrite Hf, Hfile). cbn [negb].
  assert (fs_read_to_string true path (w_fs w1) = Some text) as Hread.
  { unfold fs_read_to_string, fs_read, to_bytes in *. rewrite Hf, Hfile. cbn.
    by rewrite String.string_of_list_byte_of_string, Hutf. }
  destruct (io_read_to_string_reliable path (String.append "Failed to read " path) w1 text Hr Hread) as (w2 & Hrd & _).
  exists w2. rewrite (io_run _ _ _ _ _ Hrd). destruct (str_is_empty (trim text)).
  - by rewrite Hblank.
  - by rewrite (io_run_lift _ _ _ file) by by rewrite Hparse.
Qed.

(** A registry saved without a disk error is loaded again as the same map, with the
    address fields filled. *)
Lemma registry_roundtrip env dir r w w1 :
  env_dir env = Some dir → reliable w → registry_save env r w = (w1, Ok tt) →
  (∀ file s, toml_to_string_pretty file = Ok s → str_is_empty (trim s) = true → srf_server file = None) →
  ∃ w2, registry_load env w1 = (w2, Ok (loaded r)).
Proof.
  intros Hd Hw Hs Hblank. unfold registry_save in Hs.
  destruct (registry_path_reliable env dir w Hd Hw) as (w0 & Hp & _ & Hr0).
  rewrite (io_run _ _ _ _ _ Hp) in Hs. set (path := path_join dir REGISTRY_FILE_NAME) in *.
  set (file := mkServerRegistryFile (match fill_ip <$> sr_entries r with [] => None | _ => Some (fill_ip <$> sr_entries r) end)) in *.
  destruct (toml_to_string_pretty file) as [s|] eqn:Hpr; [|done]. rewrite (io_run_lift _ _ _ s) in Hs by done.
  destruct (io_write_reliable path (to_bytes s) (String.append "Failed to write " path) w0 Hr0) as (w1' & Hwr & Hfs & Hr1 & _).
  rewrite Hwr in Hs. injection Hs as <-. destruct (toml_roundtrip _ _ Hpr) as [Hparse Hutf].
  assert (loaded_entry <$> default [] (srf_server file) = loaded_entry <$> sr_entries r) as Hl.
  { rewrite <-(loaded_saved (sr_entries r)). subst file. cbn [srf_server]. by destruct (fill_ip <$> sr_entries r). }
  unfold loaded. rewrite <-Hl. apply (registry_load_reads env dir w1' s file); try done.
  - rewrite Hfs. apply lookup_insert_eq.
  - by apply Hblank.
Qed.
End persistence.

(** ** Certificate files *)
Definition CERT_ROOT_DIR : string := "client-certs".
Definition CLIENT_CERT_FILE : string := "client.crt".
Definition CLIENT_KEY_FILE : string := "client.key".
Definition SERVER_PIN_FILE : string := "server.crt.pinned".

Record CertificatePaths := mkCertificatePaths {
  ct_dir : string;
  ct_client_cert : string;
  ct_client_key : string;
  ct_server_fingerprint : string;
}.

(** 0o700, 0o600 and 0o644. *)
Definition MODE_DIR : Z := 448.
Definition MODE_KEY : Z := 384.
Definition MODE_CERT : Z := 420.

Definition fail_permissions (path : string) : string := String.append "Failed to set permissions on " path.
Definition apply_dir_permissions (path : string) : io unit := io_chmod path MODE_DIR (fail_permissions path).
Definition apply_file_permission (path : string) (mode : Z) : io unit := io_chmod path mode (fail_permissions path).

Definition chmod_existing (path : string) (mode : Z) : io unit :=
  there ← io_exists path; if there : bool then apply_file_permission path mode else mret tt.

Definition apply_file_permissions (p : CertificatePaths) : io unit :=
  _ ← chmod_existing (ct_client_key p) MODE_KEY;
  _ ← chmod_existing (ct_client_cert p) MODE_CERT;
  chmod_existing (ct_server_fingerprint p) MODE_CERT.

Definition cert_paths_in (server_dir : string) : CertificatePaths :=
  mkCertificatePaths server_dir (path_join server_dir CLIENT_CERT_FILE) (path_join server_dir CLIENT_KEY_FILE)
    (path_join server_dir SERVER_PIN_FILE).

Definition for_server `{UuidText} (env : ClientEnv) (id : Uuid) : io CertificatePaths :=
  config_dir ← client_config_dir env;
  let base_dir := path_join config_dir CERT_ROOT_DIR in
  _ ← io_create_dir_all base_dir (String.append "Failed to create certificate root directory " base_dir);
  _ ← apply_dir_permissions base_dir;
  let server_dir := path_join base_dir (uuid_to_string id) in
  _ ← io_create_dir_all server_dir
        (String.append "Failed to create certificate directory for server " (uuid_to_string id));
  _ ← apply_dir_permissions server_dir;
  let paths := cert_paths_in server_dir in
  _ ← apply_file_permissions paths;
  mret paths.

Definition credentials_exist (p : CertificatePaths) (w : World) : bool :=
  fs_exists (ct_client_cert p) (w_fs w) && fs_exists (ct_client_key p) (w_fs w).

Definition write_client_credentials (p : CertificatePaths) (cert_pem key_pem : string) : io unit :=
  _ ← io_write (ct_client_cert p) (to_bytes cert_pem) (String.append "Failed to write " (ct_client_cert p));
  _ ← apply_file_permission (ct_client_cert p) MODE_CERT;
  _ ← io_write (ct_client_key p) (to_bytes key_pem) (String.append "Failed to write " (ct_client_key p));
  apply_file_permission (ct_client_key p) MODE_KEY.

Definition load_client_credentials (p : CertificatePaths) : io (bytes * bytes) :=
  cert ← io_read (ct_client_cert p) (String.append "Failed to read " (ct_client_cert p));
  key ← io_read (ct_client_key p) (String.append "Failed to read " (ct_client_key p));
  mret (cert, key).

(** ** The private key is protected *)
Lemma cert_paths_ne d :
  let p := cert_paths_in d in
  ct_client_cert p ≠ d ∧ ct_client_key p ≠ d ∧ ct_server_fingerprint p ≠ d ∧ ct_client_cert p ≠ ct_client_key p.
Proof.
  cbn [cert_paths_in ct_client_cert ct_client_key ct_server_fingerprint].
  split_and!; [by apply path_join_ne..|]. intros E%path_join_inj; [discriminate E|done..].
Qed.

Lemma keeps_chmod_existing q v p m : p ≠ q → keeps (mode_is q v) (chmod_existing p m).
Proof. intros Hne. apply keeps_bind; [apply keeps_exists|]. intros []; [by apply keeps_mode_chmod|apply keeps_ret]. Qed.

Lemma for_server_ok `{UuidText} env id w w' p : for_server env id w = (w', Ok p) →
  ∃ d, p = cert_paths_in d ∧ w_modes w' !! d = Some MODE_DIR.
Proof.
  unfold for_server. rewrite io_bind_ok. intros (w1 & c & _ & E). rewrite !io_bind_ok in E.
  destruct E as (w2 & ? & _ & E). apply io_bind_ok in E as (w3 & ? & _ & E). apply io_bind_ok in E as (w4 & ? & _ & E).
  apply io_bind_ok in E as (w5 & ? & Hch & E). apply io_bind_ok in E as (w6 & ? & Hf & [= <- <-]).
  set (d := path_join _ _) in *. exists d. split; [done|]. apply io_chmod_ok in Hch as [Hm _].
  assert (keeps (mode_is d (Some MODE_DIR)) (apply_file_permissions (cert_paths_in d))) as Hk.
  { destruct (cert_paths_ne d) as (H1 & H2 & H3 & _).
    do 2 (apply keeps_bind; [by apply keeps_chmod_existing|intros _]). by apply keeps_chmod_existing. }
  specialize (Hk w5 Hm). by rewrite Hf in Hk.
Qed.

Lemma write_credentials_ok p cert key w w' :
  ct_client_cert p ≠ ct_client_key p → write_client_credentials p cert key w = (w', Ok tt) →
  w_modes w' !! ct_client_key p = Some MODE_KEY ∧
  fs_files (w_fs w') !! ct_client_key p = Some (to_bytes key) ∧ fs_files (w_fs w') !! ct_client_cert p = Some (to_bytes cert).
Proof.
  intros Hne. unfold write_client_credentials. rewrite io_bind_ok. intros (w1 & ? & Hw1%io_write_ok & E).
  apply io_bind_ok in E as (w2 & ? & [_ Hw2]%io_chmod_ok & E). apply io_bind_ok in E as (w3 & ? & Hw3%io_write_ok & E).
  apply io_chmod_ok in E as [Hm Hw4]. rewrite Hw4, Hw3, Hw2, Hw1. cbn. split; [done|]. by simplify_map_eq.
Qed.

(** ** Reading and writing without disk errors *)
(** UUIDs are written with hexadecimal digits and dashes. *)
Class UuidShape `{UuidText} := uuid_no_slash : ∀ u, starts_with "/" (uuid_to_string u) = false.

Definition server_dir `{UuidText} (dir : string) (id : Uuid) : string :=
  path_join (path_join dir CERT_ROOT_DIR) (uuid_to_string id).

Lemma below_registry dir : below dir "s" (path_join dir REGISTRY_FILE_NAME).
Proof. eexists. by apply path_join_base. Qed.
Lemma below_cert_root dir : below dir "c" (path_join dir CERT_ROOT_DIR).
Proof. eexists. by apply path_join_base. Qed.
(** Serializing the registry cannot fail, and only an empty one can print as blanks. *)
Class RegistryText `{TomlCodec ServerRegistryFile} := registry_text : ∀ file : ServerRegistryFile,
  ∃ s, toml_to_string_pretty file = Ok s ∧ (str_is_empty (trim s) = true → srf_server file = None).

Section disk.
Context `{UuidShape, !TomlCodec ServerRegistryFile, !TomlLaws ServerRegistryFile, !RegistryText}.

Lemma below_server_dir dir id : below dir "c" (server_dir dir id).
Proof. apply below_join; [apply below_cert_root|apply uuid_no_slash]. Qed.
Lemma below_cert_paths dir id : let p := cert_paths_in (server_dir dir id) in
  below dir "c" (ct_client_cert p) ∧ below dir "c" (ct_client_key p) ∧ below dir "c" (ct_server_fingerprint p).
Proof. split_and!; (apply below_join; [apply below_server_dir|done]). Qed.

Lemma chmod_existing_reliable p m w : reliable w →
  ∃ w', chmod_existing p m w = (w', Ok tt) ∧ w_fs w' = w_fs w ∧ reliable w'.
Proof.
  intros Hw. unfold chmod_existing. rewrite io_run_exists. destruct (fs_exists p (w_fs w)) eqn:E; [|by exists w].
  destruct (io_chmod_reliable p m (fail_permissions p) w Hw E) as (w' & ? & ? & ? & _). by exists w'.
Qed.

Lemma create_private_dir p e w : reliable w →
  ∃ w1 w2, io_create_dir_all p e w = (w1, Ok tt) ∧ apply_dir_permissions p w1 = (w2, Ok tt) ∧
    fs_files (w_fs w2) = fs_files (w_fs w) ∧ fs_dirs (w_fs w2) = {[p]} ∪ fs_dirs (w_fs w) ∧ reliable w2.
Proof.
  intros Hw. destruct (io_create_dir_all_reliable p e w Hw) as (w1 & E & Hfs & Hr & _).
  assert (fs_exists p (w_fs w1) = true) as Hp.
  { rewrite Hfs. unfold fs_exists. cbn. rewrite (bool_decide_eq_true_2 (p ∈ _)) by set_solver. apply orb_true_r. }
  destruct (io_chmod_reliable p MODE_DIR (fail_permissions p) w1 Hr Hp) as (w2 & ? & Hf2 & ? & _).
  exists w1, w2. by rewrite Hf2, Hfs.
Qed.

(** The registry a disk holds, as [load] reads it; [None] when it cannot be read. *)
Definition registry_on_disk (dir : string) (fs : FileSystem) : option ServerRegistry :=
  let path := path_join dir REGISTRY_FILE_NAME in
  if negb (fs_exists path fs) then Some (mkServerRegistry [])
  else
    text ← fs_read_to_string true path fs;
    if str_is_empty (trim text) then Some (mkServerRegistry [])
    else match toml_from_str text with
         | Ok file => Some (mkServerRegistry (loaded_entry <$> default [] (srf_server file)))
         | Err _ => None
         end.

Lemma registry_on_disk_frame dir fs fs' :
  let path := path_join dir REGISTRY_FILE_NAME in
  fs_files fs' !! path = fs_files fs !! path → (path ∈ fs_dirs fs' ↔ path ∈ fs_dirs fs) →
  registry_on_disk dir fs' = registry_on_disk dir fs.
Proof.
  intros path Hf Hd. unfold registry_on_disk. fold path.
  assert (fs_exists path fs' = fs_exists path fs) as ->.
  { unfold fs_exists. rewrite Hf. f_equal. by apply bool_decide_ext. }
  unfold fs_read_to_string, fs_read. by rewrite Hf.
Qed.

Lemma registry_load_on_disk env dir w r : env_dir env = Some dir → reliable w → registry_on_disk dir (w_fs w) = Some r →
  ∃ w', registry_load env w = (w', Ok r) ∧ fs_files (w_fs w') = fs_files (w_fs w) ∧ reliable w'.
Proof.
  intros Hd Hw Hr. destruct (client_config_dir_reliable env dir w Hd Hw) as (w1 & E & Hf & Hr1 & Hds & _).
  assert (registry_path env w = (w1, Ok (path_join dir REGISTRY_FILE_NAME))) as Hp
    by (unfold registry_path; by rewrite (io_run _ _ _ _ _ E)).
  rewrite <-(registry_on_disk_frame dir (w_fs w) (w_fs w1)) in Hr; [|by rewrite Hf|].
  2:{ rewrite Hds. pose proof (below_dir _ _ _ (below_registry dir)). set_solver. }
  unfold registry_load, registry_on_disk in *. rewrite (io_run _ _ _ _ _ Hp), io_run_exists.
  destruct (negb _); [injection Hr as <-; by exists w1|]. apply bind_Some in Hr as (text & Ht & Hr).
  destruct (io_read_to_string_reliable _ (String.append "Failed to read " (path_join dir REGISTRY_FILE_NAME)) w1 text Hr1 Ht)
    as (w2 & E2 & Hf2 & Hr2 & _).
  rewrite (io_run _ _ _ _ _ E2). exists w2. rewrite Hf2. destruct (str_is_empty (trim text)); [by injection Hr as <-|].
  destruct (toml_from_str text) as [file|] eqn:Hparse; [injection Hr as <-|done].
  by rewrite (io_run_lift _ _ _ file).
Qed.

Lemma for_server_reliable env dir id w : env_dir env = Some dir → reliable w →
  ∃ w', for_server env id w = (w', Ok (cert_paths_in (server_dir dir id))) ∧ fs_files (w_fs w') = fs_files (w_fs w) ∧
    reliable w' ∧ registry_on_disk dir (w_fs w') = registry_on_disk dir (w_fs w).
Proof.
  intros Hd Hw. unfold for_server.
  destruct (client_config_dir_reliable env dir w Hd Hw) as (w1 & E1 & Hf1 & Hr1 & Hd1 & _). rewrite (io_run _ _ _ _ _ E1).
  cbv zeta. edestruct (create_private_dir (path_join dir CERT_ROOT_DIR)) as (w2 & w3 & E2 & E3 & Hf3 & Hd3 & Hr3); [exact Hr1|].
  rewrite (io_run _ _ _ _ _ E2), (io_run _ _ _ _ _ E3). fold (server_dir dir id).
  edestruct (create_private_dir (server_dir dir id)) as (w4 & w5 & E4 & E5 & Hf5 & Hd5 & Hr5); [exact Hr3|].
  rewrite (io_run _ _ _ _ _ E4), (io_run _ _ _ _ _ E5). set (p := cert_paths_in (server_dir dir id)).
  destruct (chmod_existing_reliable (ct_client_key p) MODE_KEY w5 Hr5) as (w6 & E6 & Hf6 & Hr6).
  destruct (chmod_existing_reliable (ct_client_cert p) MODE_CERT w6 Hr6) as (w7 & E7 & Hf7 & Hr7).
  destruct (chmod_existing_reliable (ct_server_fingerprint p) MODE_CERT w7 Hr7) as (w8 & E8 & Hf8 & Hr8).
  exists w8. assert (apply_file_permissions p w5 = (w8, Ok tt)) as E9.
  { unfold apply_file_permissions. by rewrite (io_run _ _ _ _ _ E6), (io_run _ _ _ _ _ E7). }
  rewrite (io_run _ _ _ _ _ E9). rewrite Hf8, Hf7, Hf6, Hf5, Hf3, Hf1. split_and!; [done..|].
  apply registry_on_disk_frame; [by rewrite Hf5, Hf3, Hf1|]. rewrite Hd5, Hd3, Hd1.
  pose proof (below_registry dir) as Hb. pose proof (below_dir _ _ _ Hb).
  pose proof (below_ne _ _ _ _ _ Hb (below_cert_root dir)). pose proof (below_ne _ _ _ _ _ Hb (below_server_dir dir id)).
  set_solver.
Qed.
Lemma registry_save_reliable env dir w r : env_dir env = Some dir → reliable w →
  ∃ w', registry_save env r w = (w', Ok tt) ∧ reliable w' ∧ registry_on_disk dir (w_fs w') = Some (loaded r) ∧
    ∀ q, q ≠ path_join dir REGISTRY_FILE_NAME → fs_files (w_fs w') !! q = fs_files (w_fs w) !! q.
Proof.
  intros Hd Hw. destruct (registry_path_reliable env dir w Hd Hw) as (w1 & E1 & Hf1 & Hr1).
  unfold registry_save. rewrite (io_run _ _ _ _ _ E1). cbv zeta. set (path := path_join dir REGISTRY_FILE_NAME).
  set (file := mkServerRegistryFile _). destruct (registry_text file) as (s & Hs & Hblank).
  rewrite (io_run_lift _ _ _ s) by by rewrite Hs. destruct (toml_roundtrip _ _ Hs) as [Hparse Hutf].
  destruct (io_write_reliable path (to_bytes s) (String.append "Failed to write " path) w1 Hr1) as (w2 & E2 & Hf2 & Hr2 & _).
  exists w2. split; [done|]. split; [done|]. split.
  - unfold registry_on_disk. fold path. rewrite Hf2, fs_exists_set_file, fs_read_to_string_set_file by done. cbn [negb mbind option_bind].
    rewrite Hparse. unfold loaded. rewrite <-(loaded_saved (sr_entries r)). subst file. cbn [srf_server] in *.
    destruct (fill_ip <$> sr_entries r); [by destruct (str_is_empty _)|]. by destruct (str_is_empty _); [specialize (Hblank eq_refl)|].
  - intros q Hq. rewrite Hf2. cbn. rewrite lookup_insert_ne by done. by rewrite Hf1.
Qed.

Lemma write_credentials_reliable p cert key w : reliable w →
  ∃ w', write_client_credentials p cert key w = (w', Ok tt) ∧ reliable w' ∧
    w_fs w' = set_file (ct_client_key p) (to_bytes key) (set_file (ct_client_cert p) (to_bytes cert) (w_fs w)).
Proof.
  intros Hw. unfold write_client_credentials.
  edestruct (io_write_reliable (ct_client_cert p) (to_bytes cert)) as (w1 & E1 & Hf1 & Hr1 & _); [exact Hw|].
  rewrite (io_run _ _ _ _ _ E1). edestruct (io_chmod_reliable (ct_client_cert p) MODE_CERT) as (w2 & E2 & Hf2 & Hr2 & _);
    [exact Hr1|rewrite Hf1; apply fs_exists_set_file|].
  unfold apply_file_permission. rewrite (io_run _ _ _ _ _ E2).
  edestruct (io_write_reliable (ct_client_key p) (to_bytes key)) as (w3 & E3 & Hf3 & Hr3 & _); [exact Hr2|].
  rewrite (io_run _ _ _ _ _ E3). edestruct (io_chmod_reliable (ct_client_key p) MODE_KEY) as (w4 & E4 & Hf4 & Hr4 & _);
    [exact Hr3|rewrite Hf3; apply fs_exists_set_file|].
  exists w4. rewrite E4. by rewrite Hf4, Hf3, Hf2, Hf1.
Qed.

(** *** With disk errors *)
Lemma client_config_dir_ok env w w' d : client_config_dir env w = (w', Ok d) → env_dir env = Some d.
Proof.
  unfold client_config_dir, env_dir. destruct (ce_config_dir_var env) as [e|]; [destruct (str_is_empty e); [done|]|].
  - intros E. apply io_bind_ok in E as (? & ? & _ & [= _ <-]). done.
  - intros E. apply io_bind_ok in E as (w1 & d' & [= _ E1] & E). apply io_bind_ok in E as (? & ? & _ & [= _ <-]).
    by apply ok_or_ok in E1.
Qed.

Lemma for_server_dir env id w w' p : for_server env id w = (w', Ok p) →
  ∃ dir, env_dir env = Some dir ∧ p = cert_paths_in (server_dir dir id).
Proof.
  intros E. unfold for_server in E. apply io_bind_ok in E as (w1 & dir & Hd%client_config_dir_ok & E). cbv zeta in E.
  do 5 apply io_bind_ok in E as (? & ? & _ & E). injection E as _ <-. by exists dir.
Qed.

(** Reading and writing the registry leaves the certificate files alone. *)
Lemma registry_io_keeps_file env dir q v : env_dir env = Some dir → below dir "c" q →
  keeps (file_is q v) (registry_load env) ∧ ∀ r, keeps (file_is q v) (registry_save env r).
Proof.
  intros Hd Hq. assert (keeps (file_is q v) (client_config_dir env)) as Hc.
  { unfold client_config_dir. destruct (ce_config_dir_var env) as [e|]; [destruct (str_is_empty e)|]; eauto 6 with io. }
  assert (∀ w w' p, registry_path env w = (w', Ok p) → p ≠ q) as Hne.
  { intros w w' p E. unfold registry_path in E. apply io_bind_ok in E as (? & d & Hd'%client_config_dir_ok & [= _ <-]).
    rewrite Hd in Hd'. injection Hd' as <-. by eapply below_ne; [apply below_registry|exact Hq|]. }
  assert (keeps (file_is q v) (registry_path env)) as Hp by (apply keeps_bind; eauto with io).
  split; [|intros r].
  - apply keeps_bind; [done|]. intros p. apply keeps_bind; [eauto with io|]. intros []; cbn [negb]; [|eauto with io].
    apply keeps_bind; [eauto with io|]. intros s. destruct (str_is_empty (trim s)); eauto with io.
  - intros w Hw. specialize (Hp w Hw). unfold registry_save, mbind, io_bind. destruct (registry_path env w) as [w1 [p|e]] eqn:E; [|done].
    unfold lift. destruct (map_err _ _) as [text|]; [|done]. eapply keeps_file_write; [by eapply Hne|done].
Qed.
End disk.

(** The client's private key is never readable by others.  After [for_server]
    the server's directory is closed to other users, and it stays so while the
    credentials are written, whichever step fails; when all steps succeed the key
    file holds the key and is closed as well, and the certificate file holds the
    certificate. *)
Lemma client_key_is_private `{UuidText} env id w w1 p cert key :
  for_server env id w = (w1, Ok p) →
  let '(w2, r) := write_client_credentials p cert key w1 in
  w_modes w2 !! ct_dir p = Some MODE_DIR ∧
  (r = Ok tt → w_modes w2 !! ct_client_key p = Some MODE_KEY ∧
     fs_files (w_fs w2) !! ct_client_key p = Some (to_bytes key) ∧
     fs_files (w_fs w2) !! ct_client_cert p = Some (to_bytes cert)).
Proof.
  intros (d & -> & Hd)%for_server_ok. destruct (cert_paths_ne d) as (H1 & H2 & _ & H4).
  assert (keeps (mode_is d (Some MODE_DIR)) (write_client_credentials (cert_paths_in d) cert key)) as Hk.
  { do 3 (apply keeps_bind; [by first [apply keeps_mode_write|apply keeps_mode_chmod]|intros _]). by apply keeps_mode_chmod. }
  specialize (Hk w1 Hd). destruct (write_client_credentials _ cert key w1) as [w2 r] eqn:E. split; [done|].
  intros ->. by apply write_credentials_ok in E.
Qed.

(** ** Concrete instances *)
Definition demo_world : World := mkWorld (mkFs ∅ ∅) ∅ MODE_CERT (λ _, WOk) 0.
Definition demo_env : ClientEnv := mkClientEnv (Some "/cfg") None.
Lemma demo_world_reliable : reliable demo_world.
Proof. done. Qed.
Lemma demo_uuid_shape : @UuidShape demo_uuid.
Proof. intros u. cbn. by destruct (N.succ_pos u). Qed.
#[local] Existing Instance demo_uuid.

Lemma client_key_is_private_witness : ∃ w1 p, for_server demo_env 7%N demo_world = (w1, Ok p) ∧
  let w2 := (write_client_credentials p "cert" "key" w1).1 in
  w_modes w2 !! ct_dir p = Some MODE_DIR ∧ w_modes w2 !! ct_client_key p = Some MODE_KEY.
Proof.
  destruct (for_server demo_env 7%N demo_world) as [w1 r] eqn:E. destruct r as [p|e]; [|vm_compute in E; discriminate E].
  exists w1, p. split; [reflexivity|]. pose proof (client_key_is_private demo_env 7%N demo_world w1 p "cert" "key" E) as Hk.
  vm_compute in E. injection E as <- <-. destruct (write_client_credentials _ _ _ _) as [w2 r] eqn:E2.
  destruct Hk as [Hd Hr]. vm_compute in E2. injection E2 as <- <-. split; [exact Hd|]. destruct (Hr eq_refl) as [Hm _]. exact Hm.
Defined.

(** The registry file as text. *)
#[global] Instance RegistryRelayInfo_eq_dec : EqDecision RegistryRelayInfo.
Proof. solve_decision. Defined.
#[global] Instance ServerRegistryEntry_eq_dec : EqDecision ServerRegistryEntry.
Proof. solve_decision. Defined.
#[global] Instance ServerRegistryFile_eq_dec : EqDecision ServerRegistryFile.
Proof. solve_decision. Defined.
#[global] Program Instance RegistryRelayInfo_countable : Countable RegistryRelayInfo := inj_countable'
  (λ r, (rr_relay_url r, rr_relay_token r, rr_relay_required r, rr_allow_self_signed_tls r, rr_pinned_cert_sha256 r))
  (λ '(a, b, c, d, e), mkRegistryRelayInfo a b c d e) _.
Next Obligation. by intros []. Qed.
#[global] Program Instance ServerRegistryEntry_countable : Countable ServerRegistryEntry := inj_countable'
  (λ e, (sre_id e, sre_hostname e, sre_ip e, sre_port e, sre_enrolled_at e, sre_last_seen e, sre_client_id e,
         sre_cert_fingerprint e, sre_cert_path e, sre_addresses e, sre_relay e))
  (λ '(a, b, c, d, e, f, g, h, i, j, k), mkServerRegistryEntry a b c d e f g h i j k) _.
Next Obligation. by intros []. Qed.
#[global] Program Instance ServerRegistryFile_countable : Countable ServerRegistryFile :=
  inj_countable' srf_server mkServerRegistryFile _.
Next Obligation. by intros []. Qed.

Definition demo_registry_codec : TomlCodec ServerRegistryFile := countable_toml ServerRegistryFile.
Lemma demo_registry_laws : @TomlLaws ServerRegistryFile demo_registry_codec.
Proof. apply countable_toml_laws. Qed.
