(* ===== verification/Discovery.v ===== *)
(** * Finding servers on the local network (client-lib/src/discovery.rs)

    The mDNS daemon is the [mdns-sd] crate: its events and the clock are inputs, and
    a resolved service is the record of what its accessors return. *)

From Stdlib Require Import Sorting.Sorted.
From S2P Require Import Prelude RustStd ThirdParty Net Network SessionState RelayTokens ClientConfig.

Local Open Scope string_scope.
Local Open Scope Z_scope.

Definition SERVICE_TYPE : string := "_handcontrol._tcp.local.".

Record DiscoveredServer := mkDiscoveredServer {
  ds_instance_name : string;
  ds_fullname : string;
  ds_hostname : string;
  ds_addresses : list string;
  ds_port : Z;
  ds_server_id : option Uuid;
  ds_cert_fingerprint : option string;
  ds_txt_properties : gmap string string;
}.

Record ResolvedService := mkResolvedService {
  rv_is_valid : bool;
  rv_fullname : string;
  rv_hostname : string;
  rv_addresses : list IpAddr;
  rv_port : Z;
  rv_properties : gmap string string;
}.

Inductive ServiceEvent :=
  | ServiceFound
  | ServiceResolved (resolved : ResolvedService)
  | ServiceRemoved (fullname : string)
  | OtherEvent.

Definition is_dot (c : ascii) : bool := bool_decide (c = "."%char).

Definition extract_instance_name (fullname : string) : string :=
  trim_end_matches is_dot (default fullname (strip_suffix SERVICE_TYPE fullname)).

Definition is_link_local (addr : IpAddr) : bool :=
  match addr with
  | V4 a => (v4_a a =? 169) && (v4_b a =? 254)
  | V6 a => Z.land (v6_0 a) 0xffc0 =? 0xfe80
  end.
Definition ip_is_loopback (ip : IpAddr) : bool :=
  match ip with V4 a => v4_is_loopback a | V6 a => v6_is_loopback a end.

Definition keep_address (config : DiscoveryConfig) (ip : IpAddr) : bool :=
  if negb (dc_include_link_local config) && is_link_local ip then false else negb (ip_is_loopback ip).

Definition preference (config : DiscoveryConfig) (ip : IpAddr) : Z :=
  match dc_prefer_ipv6 config, ip with
  | true, V6 _ => 0
  | true, V4 _ => 1
  | false, V4 _ => 0
  | false, V6 _ => 1
  end.
Definition preference_cmp (config : DiscoveryConfig) (a b : IpAddr) : comparison :=
  then_with (preference config a ?= preference config b) (str_cmp (ip_to_string a) (ip_to_string b)).

Definition discovered_addresses (config : DiscoveryConfig) (resolved : ResolvedService) : list string :=
  ip_to_string <$> sort_by (preference_cmp config) (filter (λ ip, keep_address config ip = true) (rv_addresses resolved)).

Section discovery.
Context `{UuidText}.

Definition build_discovered_server (config : DiscoveryConfig) (resolved : ResolvedService) : option DiscoveredServer :=
  let fullname := rv_fullname resolved in
  let addresses := discovered_addresses config resolved in
  match addresses with
  | [] => None
  | _ =>
      let txt := rv_properties resolved in
      Some (mkDiscoveredServer (extract_instance_name fullname) fullname (trim_end_matches is_dot (rv_hostname resolved))
              addresses (rv_port resolved) (txt !! "server_id" ≫= uuid_parse) (txt !! "cert_fingerprint") txt)
  end.

Definition discovery_key (server : DiscoveredServer) : string :=
  default (ds_fullname server) (uuid_to_string <$> ds_server_id server).

Definition handle_event (config : DiscoveryConfig) (event : ServiceEvent) (discovered : gmap string DiscoveredServer)
    : gmap string DiscoveredServer :=
  match event with
  | ServiceResolved resolved =>
      if negb (rv_is_valid resolved) then discovered
      else match build_discovered_server config resolved with
           | Some server => <[discovery_key server := server]> discovered
           | None => discovered
           end
  | ServiceRemoved fullname => filter (λ kv, ds_fullname kv.2 ≠ fullname) discovered
  | ServiceFound | OtherEvent => discovered
  end.

(** The loop: each round reads the clock, and if the deadline has not passed waits
    for an event; [None] is the end of the wait. *)
Fixpoint discovery_loop (config : DiscoveryConfig) (deadline : Z) (rounds : list (Z * option ServiceEvent))
    (discovered : gmap string DiscoveredServer) : gmap string DiscoveredServer :=
  match rounds with
  | (now, answer) :: rest =>
      if now <? deadline then
        match answer with
        | Some event => discovery_loop config deadline rest (handle_event config event discovered)
        | None => discovered
        end
      else discovered
  | [] => discovered
  end.

(** The list [into_values] yields comes in an unspecified order; sorting by name
    makes it deterministic up to equal names. *)
Definition discover_servers (config : DiscoveryConfig) (start : Z) (started browsing : bool)
    (rounds : list (Z * option ServiceEvent)) : result string (list DiscoveredServer) :=
  let deadline := start + Z.max (dc_timeout_seconds config) 1 * NANOS in
  bail! "Failed to initialize mDNS daemon" when negb started;
  bail! "Failed to start mDNS browse for HandControl service" when negb browsing;
  let discovered := discovery_loop config deadline rounds ∅ in
  Ok (sort_by (λ a b, str_cmp (ds_instance_name a) (ds_instance_name b)) (map_to_list discovered).*2).
End discovery.

(** ** Sorting by a key *)
Section by_key.
Context {A : Type} (key : A → list Z).
Definition key_le (a b : A) : Prop := list_cmp (key a) (key b) ≠ Gt.

Lemma insert_by_key_sorted x l :
  StronglySorted key_le l → StronglySorted key_le (insert_by (λ a b, list_cmp (key a) (key b)) x l).
Proof.
  induction 1 as [|y l Hl IH Hy]; [by repeat constructor|]. simpl. destruct (list_cmp (key x) (key y)) eqn:E.
  1,2: constructor; [by constructor|]; constructor; [unfold key_le; congruence|];
       (eapply Forall_impl; [exact Hy|]); intros z Hz; unfold key_le in *; (eapply list_cmp_trans; [|exact Hz]); congruence.
  constructor; [done|]. rewrite insert_by_perm. constructor; [|done].
  unfold key_le. rewrite list_cmp_opp, E. done.
Qed.

Lemma sort_by_key_sorted l : StronglySorted key_le (sort_by (λ a b, list_cmp (key a) (key b)) l).
Proof. induction l; [constructor|]. by apply insert_by_key_sorted. Qed.
End by_key.

Lemma sort_by_ext {A} (c d : A → A → comparison) l : (∀ a b, c a b = d a b) → sort_by c l = sort_by d l.
Proof.
  intros Hext. assert (∀ x k, insert_by c x k = insert_by d x k) as Hi.
  { intros x k. induction k as [|y k IH]; [done|]. simpl. rewrite Hext, IH. done. }
  induction l as [|x l IH]; [done|]. simpl. by rewrite IH, Hi.
Qed.

Lemma StronglySorted_mono {A} (R S : A → A → Prop) l : (∀ a b, R a b → S a b) → StronglySorted R l → StronglySorted S l.
Proof. intros Hrs. induction 1; constructor; [done|]. eapply Forall_impl; eauto. Qed.

(** ** What is listed *)
Lemma preference_key config a b :
  preference_cmp config a b = list_cmp (preference config a :: codes (ip_to_string a)) (preference config b :: codes (ip_to_string b)).
Proof. unfold preference_cmp. cbn [list_cmp]. rewrite str_cmp_codes. by destruct (_ ?= _). Qed.

Lemma keep_address_true config ip :
  keep_address config ip = true ↔ ip_is_loopback ip = false ∧ (is_link_local ip = true → dc_include_link_local config = true).
Proof. unfold keep_address. destruct (dc_include_link_local config), (is_link_local ip), (ip_is_loopback ip); naive_solver. Qed.

(** The addresses of a server are those of the service that may be used, the
    preferred family first. *)
Lemma discovered_addresses_spec config resolved :
  ∃ ips, discovered_addresses config resolved = ip_to_string <$> ips ∧
    ips ≡ₚ filter (λ ip, keep_address config ip = true) (rv_addresses resolved) ∧
    StronglySorted (λ a b, preference config a <= preference config b) ips.
Proof.
  eexists. split; [reflexivity|]. split; [apply sort_by_perm|].
  erewrite sort_by_ext; [|intros; apply preference_key].
  apply (StronglySorted_mono (key_le (λ ip, preference config ip :: codes (ip_to_string ip)))); [|apply sort_by_key_sorted].
  intros a b. unfold key_le. cbn [list_cmp]. destruct (Z.compare_spec (preference config a) (preference config b)); [lia..|done].
Qed.

Section listed.
Context `{UuidText} (config : DiscoveryConfig).

(** The events the loop takes in. *)
Fixpoint heard (deadline : Z) (rounds : list (Z * option ServiceEvent)) : list ServiceEvent :=
  match rounds with
  | (now, Some event) :: rest => if now <? deadline then event :: heard deadline rest else []
  | _ => []
  end.

Lemma discovery_loop_heard deadline rounds m :
  discovery_loop config deadline rounds m = foldl (λ m e, handle_event config e m) m (heard deadline rounds).
Proof.
  revert m. induction rounds as [|[now [event|]] rest IH]; intros m; cbn; [done| |by destruct (now <? deadline)].
  destruct (now <? deadline); [apply IH|done].
Qed.

(** The announcement behind an entry, with no later farewell. *)
Definition announced (events : list ServiceEvent) (k : string) (s : DiscoveredServer) : Prop :=
  ∃ pre resolved post, events = (pre ++ [ServiceResolved resolved] ++ post)%list ∧ rv_is_valid resolved = true ∧
    build_discovered_server config resolved = Some s ∧ k = discovery_key s ∧ ServiceRemoved (ds_fullname s) ∉ post.

Lemma announced_snoc events e k s : announced events k s → e ≠ ServiceRemoved (ds_fullname s) → announced (events ++ [e])%list k s.
Proof.
  intros (pre & r & post & -> & Hv & Hb & Hk & Hn) He. exists pre, r, (post ++ [e])%list.
  split; [by rewrite <-(assoc_L _)|]. split_and!; try done. set_solver.
Qed.

Lemma handle_event_announced events e m :
  (∀ k s, m !! k = Some s → announced events k s) →
  ∀ k s, handle_event config e m !! k = Some s → announced (events ++ [e])%list k s.
Proof.
  intros IH k s. destruct e as [|r|fn|]; cbn [handle_event].
  - intros Hs. by apply announced_snoc; [apply IH|].
  - destruct (rv_is_valid r) eqn:Hv; cbn [negb]; [|intros Hs; by apply announced_snoc; [apply IH|]].
    destruct (build_discovered_server config r) as [s'|] eqn:Hb; [|intros Hs; by apply announced_snoc; [apply IH|]].
    rewrite lookup_insert_Some. intros [[<- <-]|[_ Hs]]; [|by apply announced_snoc; [apply IH|]].
    exists events, r, []. split_and!; try done. apply not_elem_of_nil.
  - rewrite map_lookup_filter_Some. cbn. intros [Hs Hne]. apply announced_snoc; [by apply IH|congruence].
  - intros Hs. by apply announced_snoc; [apply IH|].
Qed.

Lemma discovery_announced events k s :
  foldl (λ m e, handle_event config e m) ∅ events !! k = Some s → announced events k s.
Proof.
  revert k s. induction events as [|e events IH] using rev_ind; intros k s; [done|].
  rewrite foldl_app. cbn [foldl]. by apply handle_event_announced.
Qed.

(** Discovery lists what the network announces.  Every server in the result of
    [discover_servers] comes from a valid announcement that was heard before the
    deadline and was not withdrawn afterwards; it has at least one address, and its
    addresses are those of the announcement without loopback and (unless the
    configuration includes them) link-local ones, the preferred family first; no
    two entries share an id. *)
Lemma discovered_servers_are_announced start rounds l :
  discover_servers config start true true rounds = Ok l →
  let events := heard (start + Z.max (dc_timeout_seconds config) 1 * NANOS) rounds in
  NoDup (discovery_key <$> l) ∧
  ∀ s, s ∈ l → ∃ pre resolved post, events = (pre ++ [ServiceResolved resolved] ++ post)%list ∧
    rv_is_valid resolved = true ∧ (ServiceRemoved (rv_fullname resolved) ∉ post) ∧ ds_fullname s = rv_fullname resolved ∧
    ∃ ips, ips ≠ [] ∧ ds_addresses s = ip_to_string <$> ips ∧
      StronglySorted (λ a b, preference config a <= preference config b) ips ∧
      ∀ ip, ip ∈ ips ↔ ip ∈ rv_addresses resolved ∧ ip_is_loopback ip = false ∧
                       (is_link_local ip = true → dc_include_link_local config = true).
Proof.
  unfold discover_servers. cbn [negb]. cbv zeta. cbn [bail_if mbind result_bind]. intros [= <-].
  rewrite discovery_loop_heard. set (events := heard _ rounds). set (m := foldl _ ∅ events).
  assert (∀ k s, m !! k = Some s → announced events k s) as Hann by apply discovery_announced.
  split.
  - rewrite sort_by_perm. assert (discovery_key <$> (map_to_list m).*2 = (map_to_list m).*1) as ->; [|apply NoDup_fst_map_to_list].
    rewrite <-list_fmap_compose. apply list_fmap_ext. intros i [k s] Hi. cbn.
    apply list_elem_of_lookup_2, elem_of_map_to_list, Hann in Hi as (? & ? & ? & _ & _ & _ & -> & _). done.
  - intros s. rewrite sort_by_perm, list_elem_of_fmap. intros ([k s'] & -> & Hs%elem_of_map_to_list). cbn.
    apply Hann in Hs as (pre & r & post & -> & Hv & Hb & _ & Hn). exists pre, r, post.
    unfold build_discovered_server in Hb. destruct (discovered_addresses_spec config r) as (ips & Ea & Hp & Hso).
    destruct (discovered_addresses config r) as [|a as_] eqn:Hda; [done|]. injection Hb as <-. cbn in *.
    split_and!; try done. exists ips. split_and!; try done; [by intros ->|].
    intros ip. rewrite Hp, list_elem_of_filter, keep_address_true. naive_solver.
Qed.
End listed.

#[local] Existing Instance demo_uuid.

Definition demo_service_announced : ResolvedService :=
  mkResolvedService true "den._handcontrol._tcp.local." "den.local." [V4 (mkIpv4 127 0 0 1); V4 (mkIpv4 10 0 0 7); V6 (mkIpv6 0x2001 0 0 0 0 0 0 5)]
    50051 ∅.

Lemma discovered_servers_are_announced_witness :
  discover_servers DiscoveryConfig_default 0 true true
    [(1, Some ServiceFound); (2, Some (ServiceResolved demo_service_announced)); (3, None)] =
    Ok [mkDiscoveredServer "den" "den._handcontrol._tcp.local." "den.local" ["2001::5"; "10.0.0.7"] 50051 None None ∅] ∧
  NoDup (discovery_key <$> [mkDiscoveredServer "den" "den._handcontrol._tcp.local." "den.local" ["2001::5"; "10.0.0.7"]
                              50051 None None ∅]).
Proof.
  split; [vm_compute; reflexivity|].
  apply (discovered_servers_are_announced DiscoveryConfig_default 0
    [(1, Some ServiceFound); (2, Some (ServiceResolved demo_service_announced)); (3, None)]). vm_compute; reflexivity.
Defined.
