(* ===== verification/ClientRelay.v ===== *)
(** * The client's side of the relay (client-lib/src/relay.rs)

    Opening a tunnel through the relay and the two tasks that carry its bytes.  The
    answers of the network are inputs; JSON, hexadecimal and URLs are the class
    [ClientRelayCrates].  A WebSocket message is [Tunnel.Message]; tungstenite's raw
    [Frame] is never read from a connection. *)

From S2P Require Import Prelude RustStd ThirdParty Fs SessionState RelayTokens Tunnel RelayClient ClientStorage.

Local Open Scope string_scope.
Local Open Scope Z_scope.

Definition RELAY_PROTOCOL : string := "handcontrol-relay.v1".
Definition DUPLEX_BUFFER_SIZE : Z := 64 * 1024.
Definition UPLINK_BUFFER_SIZE : Z := 16 * 1024.

(** The relay's acknowledgement as the client reads it. *)
Record ClientConnectAck := mkClientConnectAck {
  ka_type : string;
  ka_status : string;
  ka_tunnel_id : option string;
  ka_relay_host : option string;
  ka_server_authority : option string;
  ka_error : option string;
}.

(** A parsed URL: [u_segments] is [None] for a URL that has no path segments
    ([mailto:...]); [u_rest] is everything that is not changed. *)
Record Url := mkUrl {
  u_scheme : string;
  u_rest : string;
  u_segments : option (list string);
  u_query : option string;
}.

Class ClientRelayCrates := {
  crate_url_parse : string → option Url;
  (** [Url::set_scheme], which may refuse. *)
  crate_set_scheme : string → Url → option Url;
  crate_hex_decode : string → option bytes;
  crate_connect_text : ConnectMessage → string;
  crate_ready_text : TunnelReadyMessage → string;
  crate_parse_ack : string → option ClientConnectAck;
  (** The text is a JSON object with a string field [type] and, if present, a string
      [reason]. *)
  crate_is_failure : string → bool;
}.

(** Setting a scheme changes nothing else. *)
Class UrlLaws `{ClientRelayCrates} := set_scheme_only : ∀ s u u',
  crate_set_scheme s u = Some u' → u' = mkUrl s (u_rest u) (u_segments u) (u_query u).

Section relay.
Context `{ClientRelayCrates, UuidText, Sha256}.

Definition relay_scheme (current : string) : result string string :=
  if bool_decide (current = "https") then Ok "wss"
  else if bool_decide (current = "http") then Ok "ws"
  else if bool_decide (current = "wss") || bool_decide (current = "ws") then Ok current
  else Err (String.append "Unsupported relay URL scheme: " current).

(** [path_segments_mut]: [pop_if_empty] and [push]. *)
Definition pop_if_empty (l : list string) : list string :=
  match last l with Some s => if str_is_empty s then take (length l - 1) l else l | None => l end.

Definition build_connect_url (base_url : string) : result string Url :=
  url ← ok_or (crate_url_parse base_url) (String.append "Invalid relay URL: " base_url);
  let current_scheme := u_scheme url in
  scheme ← relay_scheme current_scheme;
  url ← (if bool_decide (current_scheme ≠ scheme)
         then ok_or (crate_set_scheme scheme url) "Failed to set relay URL scheme" else Ok url);
  segments ← ok_or (u_segments url) "Relay URL must be absolute";
  Ok (mkUrl (u_scheme url) (u_rest url) (Some (pop_if_empty segments ++ ["connect"])%list) None).

Definition pin_char (c : ascii) : bool := negb (is_ascii_whitespace c) && bool_decide (c ≠ ":"%char).

Definition parse_pinned_cert_sha256 (value : option string) : result string (option bytes) :=
  match value with
  | Some raw =>
      let normalized := string_filter pin_char raw in
      bail! "Pinned certificate fingerprint must not be empty" when str_is_empty normalized;
      bytes ← ok_or (crate_hex_decode normalized) "Pinned certificate fingerprint must be valid hex";
      bail! "Pinned certificate fingerprint must decode to 32 bytes (SHA-256)" when bool_decide (length bytes ≠ 32%nat);
      Ok (Some bytes)
  | None => Ok None
  end.

(** [AcceptSelfSignedVerifier] and the connector; [None] is the default connector,
    which checks the chain of certificates. *)
Definition accept_self_signed (pinned : option bytes) (p : peer) : bool :=
  match pinned with Some expected => bool_decide (sha256 (peer_cert p) = expected) | None => true end.
Definition client_tls_connector (allow_self_signed : bool) (pinned : option bytes) : option (option bytes) :=
  if negb allow_self_signed then None else Some pinned.
Definition relay_handshake (connector : option (option bytes)) (p : peer) : bool :=
  match connector with
  | Some pinned => accept_self_signed pinned p
  | None => peer_webpki p && peer_holds_key p
  end.

(** What the network answers: the peer and the outcome of the WebSocket handshake
    with and without the subprotocol header, the sends, and the first frame. *)
Inductive ws_outcome := WsOk | WsSubprotocolError | WsError (e : string).
Record relay_answers := mkRelayAnswers {
  ra_peer : peer;
  ra_connect : bool → ws_outcome;
  ra_connect_sent : bool;
  ra_ack : option (result string Message);
  ra_ready_sent : bool;
}.

(** [connect_websocket]: TLS only for [wss]. *)
Definition connect_websocket (url : Url) (connector : option (option bytes)) (include_protocol : bool) (an : relay_answers)
    : ws_outcome :=
  if bool_decide (u_scheme url = "wss") && negb (relay_handshake connector (ra_peer an)) then WsError "TLS error"
  else ra_connect an include_protocol.

Definition open_websocket (url : Url) (connector : option (option bytes)) (an : relay_answers) : result string unit :=
  match connect_websocket url connector true an with
  | WsOk => Ok tt
  | WsSubprotocolError =>
      match connect_websocket url connector false an with
      | WsOk => Ok tt
      | _ => Err "Relay rejected connection without subprotocol"
      end
  | WsError _ => Err "Failed to establish WebSocket to relay"
  end.

(** Reading the acknowledgement; the debug form of an unexpected frame is left out
    of the error text. *)
Definition check_connect_ack (ack : option (result string Message)) : result string (string * option string) :=
  ack ← match ack with
        | None => Err "Relay closed connection before connect_ack"
        | Some (Ok (Text text)) => ok_or (crate_parse_ack text) "Failed to parse connect_ack from relay"
        | Some (Ok _) => Err "Relay returned unexpected frame before connect_ack"
        | Some (Err _) => Err "Relay connect_ack frame failed"
        end;
  bail! String.append "Relay response missing connect_ack (got " (String.append (ka_type ack) ")")
    when bool_decide (ka_type ack ≠ "connect_ack");
  bail! String.append "Relay rejected connection: " (default "relay rejected connection" (ka_error ack))
    when bool_decide (ka_status ack ≠ "ok");
  tunnel_id ← ok_or (ka_tunnel_id ack) "Relay connect_ack missing tunnel_id";
  Ok (tunnel_id, ka_server_authority ack).

Record RelayTunnel := mkRelayTunnel { rt_tunnel_id : string; rt_server_authority : option string }.

(** The messages sent and the tunnel. *)
Definition establish_relay_tunnel (version : string) (relay : RegistryRelayInfo) (server_id client_id : Uuid) (an : relay_answers)
    : list string * result string RelayTunnel :=
  match
    (url ← build_connect_url (rr_relay_url relay);
     pinned ← parse_pinned_cert_sha256 (rr_pinned_cert_sha256 relay);
     open_websocket url (client_tls_connector (rr_allow_self_signed_tls relay) pinned) an)
  with
  | Err e => ([], Err e)
  | Ok _ =>
      let connect_json := crate_connect_text (build_connect_payload server_id (rr_relay_token relay) client_id version) in
      if negb (ra_connect_sent an) then ([], Err "Failed to send relay connect message")
      else
        match check_connect_ack (ra_ack an) with
        | Err e => ([connect_json], Err e)
        | Ok (tunnel_id, authority) =>
            let ready_json := crate_ready_text (mkTunnelReadyMessage "tunnel_ready" tunnel_id "client") in
            if negb (ra_ready_sent an) then ([connect_json], Err "Failed to send tunnel_ready to relay")
            else ([connect_json; ready_json], Ok (mkRelayTunnel tunnel_id authority))
        end
  end.

(** ** The tasks of an open tunnel *)
(** [spawn_uplink]: what each read of the virtual stream returns, with the answer to
    the send it causes, and the messages sent. *)
Fixpoint uplink (reads : list (result string bytes * bool)) : list Message :=
  match reads with
  | [] => []
  | (Ok [], _) :: _ => [Close None]
  | (Ok data, true) :: rest => Binary data :: uplink rest
  | (Ok _, false) :: _ => []
  | (Err _, _) :: _ => [Close None]
  end.

(** [spawn_downlink]: the chunks written to the virtual stream and the pongs sent;
    each frame comes with the answer to the write it causes.  [write_all] that fails may have
    written some bytes.  The stream is shut down at the end. *)
Inductive write_answer := Written | WriteFails (written : nat).
Fixpoint downlink (frames : list (result string Message * write_answer)) : list bytes * list Message :=
  match frames with
  | [] => ([], [])
  | (Ok (Binary payload), Written) :: rest => let '(out, pongs) := downlink rest in (payload :: out, pongs)
  | (Ok (Binary payload), WriteFails n) :: _ => ([take n payload], [])
  | (Ok (Close _), _) :: _ => ([], [])
  | (Ok (Ping payload), _) :: rest => let '(out, pongs) := downlink rest in (out, Pong payload :: pongs)
  | (Ok (Pong _), _) :: rest => downlink rest
  | (Ok (Text text), _) :: rest => if crate_is_failure text then ([], []) else downlink rest
  | (Err _, _) :: _ => ([], [])
  end.
End relay.

(** ** The URL *)
Section url.
Context `{ClientRelayCrates, !UrlLaws}.

Lemma build_connect_url_ok base url : build_connect_url base = Ok url →
  ∃ parsed, crate_url_parse base = Some parsed ∧ u_rest url = u_rest parsed ∧ u_query url = None ∧
    (∃ l, u_segments parsed = Some l ∧ u_segments url = Some (pop_if_empty l ++ ["connect"])%list) ∧
    ((u_scheme url = "wss" ∧ (u_scheme parsed = "https" ∨ u_scheme parsed = "wss")) ∨
     (u_scheme url = "ws" ∧ (u_scheme parsed = "http" ∨ u_scheme parsed = "ws"))).
Proof.
  unfold build_connect_url. intros E. apply result_bind_ok in E as (p & Hp%ok_or_ok & E).
  apply result_bind_ok in E as (sch & Hs & E). apply result_bind_ok in E as (u & Hu & E).
  apply result_bind_ok in E as (l & Hl%ok_or_ok & [= <-]). exists p.
  assert (u = mkUrl sch (u_rest p) (u_segments p) (u_query p)) as ->.
  { case_bool_decide as Hne; [apply ok_or_ok in Hu; by apply set_scheme_only|].
    injection Hu as <-. rewrite <-Hne. by destruct p. }
  cbn in *. split_and!; try done; [by eauto|]. unfold relay_scheme in Hs.
  repeat case_bool_decide; cbn in Hs; simplify_eq; naive_solver.
Qed.
End url.
