(* ===== verification/RelayEnds.v ===== *)
(** * A client tunnel from end to end

    The client library's side of the relay ([ClientRelay]) composed with the relay
    ([RelayState], [Tunnel]) and the server's bridge ([RelayClient]). *)

From S2P Require Import Prelude RustStd ThirdParty Fs SessionState Config RelayTokens Tunnel RelayState RelayClient RelayFlow ClientStorage ClientRelay.

Local Open Scope string_scope.
Local Open Scope Z_scope.

(** What the relay writes and the client reads, and the other way round. *)
Class ClientFlowLaws `{RelayCrates, FlowCrates, ClientRelayCrates} := {
  client_connect_json m : parse_connect (crate_connect_text m) = Some (as_connect_payload m);
  client_ready_json m : parse_ready (crate_ready_text m) = Some (as_ready_payload m);
  client_ack_json a : crate_parse_ack (reply_text (ConnectAckOk a)) =
    Some (mkClientConnectAck "connect_ack" "ok" (Some (ca_tunnel_id a)) (Some (ca_relay_host a)) (ca_server_authority a) None);
}.

Section ends.
Context `{RelayCrates, TokenCrates, UuidText, Sha256, ClientCrates, FlowCrates, ClientRelayCrates}.
Context `{!RelayLaws, !UuidTextLaws, !FlowLaws, !ClientFlowLaws}.

(** The network lets the client through to the relay. *)
Definition relay_reachable (relay : RegistryRelayInfo) (an : relay_answers) : Prop :=
  (∃ url pinned, build_connect_url (rr_relay_url relay) = Ok url ∧
     parse_pinned_cert_sha256 (rr_pinned_cert_sha256 relay) = Ok pinned ∧
     open_websocket url (client_tls_connector (rr_allow_self_signed_tls relay) pinned) an = Ok tt) ∧
  ra_connect_sent an = true ∧ ra_ready_sent an = true.

(** Given the acknowledgement, the client sends two texts and has its tunnel. *)
Lemma establish_with_ack version relay sid cid an ack :
  relay_reachable relay an → ra_ack an = text_frame (reply_text (ConnectAckOk ack)) →
  establish_relay_tunnel version relay sid cid an =
    ([crate_connect_text (build_connect_payload sid (rr_relay_token relay) cid version);
      crate_ready_text (mkTunnelReadyMessage "tunnel_ready" (ca_tunnel_id ack) "client")],
     Ok (mkRelayTunnel (ca_tunnel_id ack) (ca_server_authority ack))).
Proof.
  intros ((url & pinned & Hu & Hp & Ho) & Hs1 & Hs2) Hack. unfold establish_relay_tunnel.
  rewrite Hu; pass. rewrite Hp; pass. rewrite Ho, Hs1, Hs2; pass. unfold check_connect_ack. rewrite Hack.
  unfold text_frame. rewrite client_ack_json; pass. cbn [ka_type ka_status ka_tunnel_id ka_server_authority ka_error].
  rewrite !(bool_decide_ne_false_2 _ _ eq_refl); pass. done.
Qed.

(** C7: A client reaches its server through the relay.  A server whose secret the
    relay knows registers.  A client that stored a relay token issued by that server
    for it, not older than its life time and addressed to this relay, and that the
    network lets through, sends the relay two messages and is given a tunnel; the
    server's control handler turns the relay's command into a request for exactly
    that tunnel, and the relay admits the server with the secret it sent, so both
    ends reach the handshake of the same tunnel. *)
Theorem client_reaches_server_via_relay c version secret rid ctl st t0 now url ttl bt cid cver tok tid sbytes relay_url o relay an :
  let i := rcl_token_issuer c in
  issuer_wf i → rcl_client_server_id c = ti_server_id i → as_secrets st !! ti_server_id i = Some secret →
  rel_relay_server_url (rcl_config c) = Some relay_url → tls_options c = Ok o →
  generate_relay_token t0 (uuid_to_string cid) url ttl bt (uuid_to_string cid) i = Ok tok →
  bt = BINDING_TYPE_CLIENT_ID ∨ bt = BINDING_TYPE_ENROLLMENT_TOKEN →
  0 <= ttl <= U64_MAX * NANOS → now <= t0 + ttl → is_allowed_audience url st = true →
  rr_relay_token relay = tok → relay_reachable relay an →
  ∃ st1 ack st2 cmd st3 ctext rtext,
    register_begin (text_frame (register_text (register_request version secret c))) true rid ctl st =
      (st1, [RegisterAckOk 0], Ok (Some (ti_server_id i))) ∧
    (ra_ack an = text_frame (reply_text (ConnectAckOk ack)) →
     establish_relay_tunnel cver relay (ti_server_id i) cid an =
       ([ctext; rtext], Ok (mkRelayTunnel (uuid_to_string tid) (ca_server_authority ack)))) ∧
    handle_connect_socket now (text_frame ctext) tid sbytes (mkConnectAnswers true true (text_frame rtext)) st1 =
      (st2, [ConnectAckOk ack], [cmd], Ok (Some tid)) ∧
    handle_control_message (reply_text (into_message cmd)) c =
      Ok [(String.append relay_url (String.append "/tunnel/" (String.append (uuid_to_string tid)
             (String.append "?" (tunnel_query_string (ot_server_secret cmd))))), uuid_to_string tid)] ∧
    tunnel_handler (uuid_to_string tid) (query_parse (tunnel_query_string (ot_server_secret cmd)))
      (server_ready_frame tid) st2 = (st3, [], Ok true) ∧
    is_Some (get_tunnel tid st3).
Proof.
  intros i Hk Hid Hsec Hurl Htls Htok Hbt Httl Hnow Haud Hrt Hreach.
  set (ctext := crate_connect_text (build_connect_payload (ti_server_id i) tok cid cver)).
  set (rtext := crate_ready_text (mkTunnelReadyMessage "tunnel_ready" (uuid_to_string tid) "client")).
  destruct (relay_path c version secret rid ctl st t0 now url ttl bt cid cver tok tid sbytes relay_url o ctext rtext)
    as (st1 & ack & st2 & cmd & st3 & Hack & Hreg & Hconn & Hctl & Htun & Hin); try done;
    [apply client_connect_json|unfold ready_for, rtext; by rewrite client_ready_json|].
  exists st1, ack, st2, cmd, st3, ctext, rtext. split_and!; try done.
  intros Ha. rewrite (establish_with_ack _ _ _ _ _ ack) by done. by rewrite Hrt, Hack.
Qed.
End ends.

(** ** The bytes of a tunnel *)
Section bytes.
Context `{ClientRelayCrates, ClientCrates, Sha256}.

Lemma concat_prefix {A} (l k : list (list A)) : l `prefix_of` k → concat l `prefix_of` concat k.
Proof. intros [j ->]. rewrite concat_app. by eexists. Qed.

Lemma uplink_prefix reads : omap binary_payload (uplink reads) `prefix_of` omap read_chunk reads.
Proof.
  induction reads as [|[[[|x b]|e] []] reads IH]; cbn; try done; try apply prefix_nil. by apply prefix_cons.
Qed.

Lemma downlink_prefix frames : concat (downlink frames).1 `prefix_of` concat (omap binary_payload (omap inbound_message frames)).
Proof.
  induction frames as [|[[[s|b|b|b|f]|e] [|n]] frames IH]; cbn; try done; try apply prefix_nil;
    try (destruct (crate_is_failure s); [apply prefix_nil|done]); try (destruct (downlink frames); done).
  - destruct (downlink frames); cbn in *. by apply prefix_app.
  - rewrite app_nil_r. apply prefix_app_r. exists (drop n b). by rewrite take_drop.
Qed.

(** C35: A tunnel is a pair of byte pipes.  However the two directions of the server's
    tunnel task interleave and whatever fails or is lost at any hop (client library,
    relay, server), the bytes the task writes to the local gRPC endpoint are a prefix
    of the bytes read from the client's virtual stream, and the bytes written to that
    stream are a prefix of those read from the endpoint: nothing is reordered, altered
    or invented. *)
Theorem tunnel_end_to_end_bytes url id o sub an client_reads at_relay_c at_relay_s at_client :
  let out := (handle_tunnel url id o sub an).1 in
  omap inbound_message at_relay_c `prefix_of` uplink client_reads →
  omap inbound_message (omap relay_frame (tn_ops an)) `prefix_of` (forward_stream at_relay_c).1 →
  omap inbound_message at_relay_s `prefix_of` tail (omap to_relay out) →
  omap inbound_message at_client `prefix_of` (forward_stream at_relay_s).1 →
  concat (omap to_local out) `prefix_of` concat (omap read_chunk client_reads) ∧
  concat (downlink at_client).1 `prefix_of` concat (omap read_chunk (omap local_read (tn_ops an))).
Proof.
  intros out Hc Hs Hr Hd. destruct (tunnel_projects url id o sub an) as [Ho1 Ho2].
  destruct (tunnel_preserves_bytes at_relay_c (omap relay_frame (tn_ops an)) (omap local_read (tn_ops an)) at_relay_s Hs) as [Hup Hdown];
    [by etrans|]. split.
  - apply concat_prefix. etrans; [exact Ho1|]. etrans; [exact Hup|]. etrans; [by apply omap_prefix|apply uplink_prefix].
  - etrans; [apply downlink_prefix|]. apply concat_prefix. etrans; [by apply omap_prefix|exact Hdown].
Qed.
End bytes.

(** ** Witnesses *)
Definition dec_ack (s : string) : option ClientConnectAck :=
  l ← dec_fields s;
  match l with
  | [tid; host; auth] => a ← dec_opt auth; Some (mkClientConnectAck "connect_ack" "ok" (Some tid) (Some host) a None)
  | _ => None
  end.
Definition demo_client_relay : ClientRelayCrates := {|
  crate_url_parse s := Some (mkUrl "wss" s (Some [""]) None);
  crate_set_scheme s u := Some (mkUrl s (u_rest u) (u_segments u) (u_query u));
  crate_hex_decode s := Some (demo_hex_decode s);
  crate_connect_text m := enc_connect (as_connect_payload m);
  crate_ready_text m := enc_ready (as_ready_payload m);
  crate_parse_ack := dec_ack;
  crate_is_failure _ := false;
|}.
#[local] Existing Instance demo_relay.
#[local] Existing Instance demo_tokens.
#[local] Existing Instance demo_uuid.
#[local] Existing Instance demo_sha256.
#[local] Existing Instance flow_client_crates.
#[local] Existing Instance demo_flow.
#[local] Existing Instance demo_relay_laws.
#[local] Existing Instance demo_uuid_laws.
#[local] Existing Instance demo_flow_laws.
#[local] Existing Instance demo_client_relay.

Lemma demo_client_flow_laws : ClientFlowLaws.
Proof.
  split; [intros m; apply dec_enc_connect|intros m; apply dec_enc_ready|].
  intros a. cbn [crate_parse_ack reply_text demo_client_relay demo_flow]. unfold dec_ack, enc_open.
  rewrite dec_enc_fields. cbn. by rewrite dec_enc_opt.
Qed.
#[local] Existing Instance demo_client_flow_laws.

Definition demo_relay_info : RegistryRelayInfo := mkRegistryRelayInfo "wss://relay" demo_token false true None.
Definition demo_relay_answers : relay_answers :=
  mkRelayAnswers (mkPeer [] true false) (λ _, WsOk) true None true.

Lemma client_reaches_server_via_relay_witness : ∃ st1 ack st2 cmd ctext rtext,
  register_begin (text_frame (register_text (register_request "1.0" "secret" demo_client))) true 1%N 0%N empty_relay =
    (st1, [RegisterAckOk 0], Ok (Some 7%N)) ∧
  handle_connect_socket 6 (text_frame ctext) 5%N [x41] (mkConnectAnswers true true (text_frame rtext)) st1 =
    (st2, [ConnectAckOk ack], [cmd], Ok (Some 5%N)).
Proof.
  destruct (client_reaches_server_via_relay demo_client "1.0" "secret" 1%N 0%N empty_relay 5 6 "relay:443" NANOS "client_id" 9%N "1.0"
    demo_token 5%N [x41] "wss://relay" (mkRelayTlsOptions true (Some (demo_hex_decode demo_fingerprint)))
    demo_relay_info demo_relay_answers)
    as (st1 & ack & st2 & cmd & _ & ctext & rtext & Hreg & _ & Hconn & _);
    [reflexivity|reflexivity|vm_compute; reflexivity|reflexivity|vm_compute; reflexivity|vm_compute; reflexivity
    |by left|split; vm_compute; discriminate|vm_compute; discriminate|vm_compute; reflexivity|reflexivity| |].
  { split; [|by split]. by eexists _, None. }
  exists st1, ack, st2, cmd, ctext, rtext. split; [exact Hreg|exact Hconn].
Defined.

Definition demo_tunnel_task : tunnel_answers :=
  mkTunnelAnswers (mkPeer [] true true) true true true
    [FromRelay (Some (Ok (Binary [x01]))) true; FromLocal (Ok [x04]) true; FromRelay (Some (Ok (Binary [x02; x03]))) true; FromLocal (Ok [x05]) true].

Lemma tunnel_end_to_end_bytes_witness :
  concat (omap to_local (handle_tunnel "ws://relay/tunnel/t" "t" (mkRelayTlsOptions false None) "v1" demo_tunnel_task).1)
    `prefix_of` [x01; x02; x03] ∧
  concat (downlink [(Ok (Binary [x04]), Written)]).1 `prefix_of` [x04; x05].
Proof.
  apply (tunnel_end_to_end_bytes "ws://relay/tunnel/t" "t" (mkRelayTlsOptions false None) "v1" demo_tunnel_task
    [(Ok [x01], true); (Ok [x02; x03], true)] [(Ok (Binary [x01]), true); (Ok (Binary [x02; x03]), true)]
    [(Ok (Binary [x04]), true)] [(Ok (Binary [x04]), Written)]).
  - done.
  - by exists [Close None].
  - by exists [Binary [x05]].
  - by exists [Close None].
Defined.
