(* ===== verification/ClientConnect.v ===== *)
(** * Connecting to a server (client-lib/src/grpc_client.rs)

    TLS with a pinned fingerprint, direct connections, connections through the relay,
    and the order in which they are tried.  The network's answers are inputs; PEM,
    URI and DNS syntax are the class [GrpcCrates].  A peer is what it presents in the
    TLS handshake. *)

From S2P Require Import Prelude RustStd ThirdParty Fs Io Net SessionState RelayTokens RelayClient ClientConfig ClientStorage ClientRelay RelayEnds.

Local Open Scope string_scope.
Local Open Scope Z_scope.

Class GrpcCrates := {
  (** [rustls_pemfile::certs]: [None] when an item is malformed. *)
  pem_certs : bytes → option (list bytes);
  (** [rustls_pemfile::private_key]: [None] is an error. *)
  pem_private_key : bytes → option (option bytes);
  (** [with_client_auth_cert] accepts the chain and the key. *)
  client_auth_ok : list bytes → bytes → bool;
  endpoint_uri_ok : string → bool;
  (** [ServerName::try_from] on a name. *)
  dns_name_ok : string → bool;
  (** [http::uri::Authority]: host and port. *)
  authority_parse : string → option (string * option Z);
  fingerprint_hex_decode : string → option bytes;
}.

Section grpc.
Context `{GrpcCrates, ClientRelayCrates, UuidText, Sha256, HexEncode}.

(** ** Fingerprints *)
Definition parse_fingerprint (fingerprint : string) : result string bytes :=
  let value := trim fingerprint in
  hex_part ← ok_or (strip_prefix "SHA256:" value) "Fingerprint must start with SHA256:";
  let sanitized := string_filter is_ascii_hexdigit hex_part in
  ok_or (fingerprint_hex_decode sanitized) (String.append "Invalid fingerprint hex: " sanitized).

Definition persist_fingerprint (p : CertificatePaths) (fingerprint : string) : io unit :=
  io_write (ct_server_fingerprint p) (to_bytes fingerprint)
    (String.append "Failed to write fingerprint file " (ct_server_fingerprint p)).
Definition load_pinned_fingerprint (p : CertificatePaths) : io string :=
  contents ← io_read_to_string (ct_server_fingerprint p)
               (String.append "Failed to read fingerprint file " (ct_server_fingerprint p));
  mret (trim contents).

(** ** The certificate verifiers *)
Inductive ServerCertRecorder :=
  | PinnedServerCertVerifier (expected_fingerprint : bytes)
  | RecordingServerCertVerifier.

Definition PinnedServerCertVerifier_new (fingerprint : string) : result string ServerCertRecorder :=
  expected ← parse_fingerprint fingerprint;
  bail! "Pinned fingerprint is empty" when bool_decide (expected = []);
  Ok (PinnedServerCertVerifier expected).

(** [verify_server_cert]: the fingerprint it captures, [None] when it refuses. *)
Definition recorder_verify (r : ServerCertRecorder) (end_entity : bytes) : option bytes :=
  let actual := sha256 end_entity in
  match r with
  | PinnedServerCertVerifier expected => if bool_decide (actual ≠ expected) then None else Some actual
  | RecordingServerCertVerifier => Some actual
  end.
(** Both signature checks return success, whether or not the peer holds the key. *)
Definition recorder_signature (holds_key : bool) : bool := true.

Abbreviation client_auth := (option (list bytes * bytes)).

Definition build_tls_config (expected_fingerprint : option string) (auth : client_auth) : result string ServerCertRecorder :=
  recorder ← match expected_fingerprint with
             | Some value => PinnedServerCertVerifier_new value
             | None => Ok RecordingServerCertVerifier
             end;
  match auth with
  | Some (chain, key) => bail! "client certificate" when negb (client_auth_ok chain key); Ok recorder
  | None => Ok recorder
  end.

Definition load_certs (pem : bytes) : result string (list bytes) :=
  certs ← ok_or (pem_certs pem) "invalid PEM";
  bail! "No certificates found in PEM" when bool_decide (certs = []);
  Ok certs.
Definition load_private_key (pem : bytes) : result string bytes :=
  key ← ok_or (pem_private_key pem) "invalid PEM";
  ok_or key "No supported private key found in PEM".

(** ** Endpoints *)
Inductive ServerName := SnIpAddress (ip : IpAddr) | SnDnsName (s : string).

Definition is_bracket (c : ascii) : bool := bool_decide (c = "["%char) || bool_decide (c = "]"%char).
Definition normalize_domain (address : string) : string := trim_matches is_bracket address.

Definition build_uri_and_server_name (host : string) (port : Z) : result string (string * ServerName) :=
  let domain := normalize_domain host in
  let uri := if str_contains_char ":" domain
             then String.append "http://[" (String.append domain (String.append "]:" (pretty port)))
             else String.append "http://" (String.append domain (String.append ":" (pretty port))) in
  server_name ← match parse_ip domain with
                | Some ip => Ok (SnIpAddress ip)
                | None => if dns_name_ok domain then Ok (SnDnsName domain) else Err "invalid dns name"
                end;
  Ok (uri, server_name).

Definition socket_literal (address : string) (port : Z) : string :=
  if str_contains_char ":" address && negb (starts_with "[" address)
  then String.append "[" (String.append address (String.append "]:" (pretty port)))
  else String.append address (String.append ":" (pretty port)).

Definition build_endpoints (address : string) (port : Z) : result string (string * SocketAddr * ServerName) :=
  let domain := normalize_domain address in
  let uri := if str_contains_char ":" domain
             then String.append "http://[" (String.append domain (String.append "]:" (pretty port)))
             else String.append "http://" (String.append domain (String.append ":" (pretty port))) in
  let literal := socket_literal address port in
  socket_addr ← ok_or (parse_socket_addr literal) (String.append "Invalid socket address: " literal);
  server_name ← match parse_ip domain with
                | Some ip => Ok (SnIpAddress ip)
                | None => if dns_name_ok domain then Ok (SnDnsName domain) else Err "invalid dns name"
                end;
  Ok (uri, socket_addr, server_name).

(** ** One connection *)
(** What the network answers to one attempt: whether TCP connects, who answers the
    TLS handshake ([None]: nobody in time), whether HTTP/2 comes up. *)
Record net_answers := mkNetAnswers { na_tcp : bool; na_peer : option peer; na_http2 : bool }.

(** The channel: the peer it leads to and the certificates presented on it. *)
Record ConnectResult := mkConnectResult { cr_peer : peer; cr_client : client_auth; cr_fingerprint : bytes }.

(** The TLS connector; every failure inside it surfaces as the same error. *)
Definition tls_connect (recorder : ServerCertRecorder) (an : net_answers) : option (peer * bytes) :=
  p ← na_peer an;
  fingerprint ← recorder_verify recorder (peer_cert p);
  if recorder_signature (peer_holds_key p) && na_http2 an then Some (p, fingerprint) else None.

Definition channel_error : string := "Failed to establish gRPC channel".

Definition connect_channel (address : string) (port : Z) (expected_fingerprint : option string) (auth : client_auth)
    (an : net_answers) : result string ConnectResult :=
  recorder ← build_tls_config expected_fingerprint auth;
  '(uri, _, _) ← build_endpoints address port;
  bail! String.append "Invalid endpoint URI: " uri when negb (endpoint_uri_ok uri);
  bail! channel_error when negb (na_tcp an);
  '(p, fingerprint) ← ok_or (tls_connect recorder an) channel_error;
  Ok (mkConnectResult p auth fingerprint).

(** Over the stream of a relay tunnel; no TCP connection is made. *)
Definition connect_channel_with_stream (uri : string) (expected_fingerprint : option string) (auth : client_auth)
    (an : net_answers) : result string ConnectResult :=
  recorder ← build_tls_config expected_fingerprint auth;
  bail! String.append "Invalid endpoint URI: " uri when negb (endpoint_uri_ok uri);
  '(p, fingerprint) ← ok_or (tls_connect recorder an) channel_error;
  Ok (mkConnectResult p auth fingerprint).

Definition connect_unauthenticated (address : string) (port : Z) (server_fingerprint : string) (an : net_answers)
    : result string ConnectResult := connect_channel address port (Some server_fingerprint) None an.
Definition connect_unverified (address : string) (port : Z) (an : net_answers) : result string ConnectResult :=
  connect_channel address port None None an.

(** [HandControlClient::connect]. *)
Definition client_connect (address : string) (port : Z) (p : CertificatePaths) (server_fingerprint : string) (an : net_answers)
    : io ConnectResult :=
  '(cert_pem, key_pem) ← with_context "Failed to load stored client credentials" (load_client_credentials p);
  chain ← lift (load_certs cert_pem);
  key ← lift (load_private_key key_pem);
  lift (connect_channel address port (Some server_fingerprint) (Some (chain, key)) an).

(** ** Addresses *)
Definition push_unique (target : list string) (candidate : string) : list string :=
  if str_is_empty (trim candidate) then target
  else if existsb (λ existing, eq_ignore_ascii_case existing candidate) target then target
  else (target ++ [candidate])%list.

Definition collect_direct_addresses (entry : ServerRegistryEntry) : list string :=
  let addresses := foldl push_unique [] (sre_addresses entry) in
  let addresses := match sre_ip entry with Some ip => push_unique addresses ip | None => addresses end in
  match sre_hostname entry with Some host => push_unique addresses host | None => addresses end.

Definition tunnel_authority_parts (tunnel_authority : option string) : option (string * option Z) :=
  authority ← tunnel_authority; authority_parse authority.

Definition derive_relay_authority (entry : ServerRegistryEntry) (tunnel_authority : option string) : string * option Z :=
  match tunnel_authority_parts tunnel_authority with
  | Some parts => parts
  | None =>
      match sre_hostname entry, sre_addresses entry, sre_ip entry with
      | Some host, _, _ => (host, None)
      | None, addr :: _, _ => (addr, None)
      | None, [], Some ip => (ip, None)
      | None, [], None => (uuid_to_string (sre_id entry), None)
      end
  end.

Definition derive_enrollment_relay_authority (tunnel_authority : option string) (hostname : option string)
    (addresses : list string) (fallback_id : Uuid) : string * option Z :=
  let by_address :=
    match addresses with
    | addr :: _ => if negb (str_is_empty (trim addr)) then (trim addr, None) else (uuid_to_string fallback_id, None)
    | [] => (uuid_to_string fallback_id, None)
    end in
  match tunnel_authority_parts tunnel_authority with
  | Some parts => parts
  | None =>
      match hostname with
      | Some host => if negb (str_is_empty (trim host)) then (host, None) else by_address
      | None => by_address
      end
  end.

(** ** Attempts *)
Inductive Attempt := Direct (address : string) | Relay.
#[global] Instance Attempt_eq_dec : EqDecision Attempt.
Proof. solve_decision. Defined.

Definition connect_via_direct (address : string) (port : Z) (fingerprint : string) (chain : list bytes) (key_pem : bytes)
    (an : net_answers) : result string ConnectResult :=
  key ← load_private_key key_pem;
  connect_channel address port (Some fingerprint) (Some (chain, key)) an.

Definition connect_via_relay (version : string) (entry : ServerRegistryEntry) (relay_info : RegistryRelayInfo) (client_id : Uuid)
    (default_port : Z) (fingerprint : string) (chain : list bytes) (key_pem : bytes) (ran : relay_answers) (an : net_answers)
    : result string ConnectResult :=
  tunnel ← map_err (λ _, "Failed to establish relay tunnel")
             (establish_relay_tunnel version relay_info (sre_id entry) client_id ran).2;
  let '(authority_host, override_port) := derive_relay_authority entry (rt_server_authority tunnel) in
  let port := default default_port override_port in
  '(uri, _) ← map_err (λ _, "Invalid relay authority") (build_uri_and_server_name authority_host port);
  key ← load_private_key key_pem;
  connect_channel_with_stream uri (Some fingerprint) (Some (chain, key)) an.

Definition connect_unauthenticated_via_relay (version : string) (relay_info : RegistryRelayInfo) (server_id client_uuid : Uuid)
    (hostname : option string) (addresses : list string) (default_port : Z) (expected_fingerprint : string)
    (ran : relay_answers) (an : net_answers) : result string ConnectResult :=
  tunnel ← map_err (λ _, "Failed to establish relay tunnel")
             (establish_relay_tunnel version relay_info server_id client_uuid ran).2;
  let '(authority_host, port_override) :=
    derive_enrollment_relay_authority (rt_server_authority tunnel) hostname addresses server_id in
  let port := default default_port port_override in
  '(uri, _) ← map_err (λ _, "Invalid relay authority") (build_uri_and_server_name authority_host port);
  connect_channel_with_stream uri (Some expected_fingerprint) None an.

Definition direct_limit (max_direct : Z) (addresses : list string) : list string :=
  take (if max_direct =? 0 then length addresses else Nat.min (Z.to_nat max_direct) (length addresses)) addresses.

Definition connection_attempts (prefs : RelayBehaviorConfig) (entry : ServerRegistryEntry) : result string (list Attempt) :=
  let direct_addresses := collect_direct_addresses entry in
  let has_relay := bool_decide (is_Some (sre_relay entry)) in
  let relay_required := match sre_relay entry with Some info => rr_relay_required info | None => false end in
  let relay_only_mode := relay_required || rb_relay_only_mode prefs in
  attempts ←
    (if relay_only_mode then
       (if has_relay then Ok [Relay]
        else Err (String.append "Relay connection required for server "
                    (String.append (uuid_to_string (sre_id entry)) " but no relay credentials stored")))
     else
       Ok ((if rb_prefer_relay prefs && has_relay then [Relay] else []) ++
           (Direct <$> direct_limit (rb_max_direct_attempts prefs) direct_addresses) ++
           (if negb (rb_prefer_relay prefs) && has_relay then [Relay] else []))%list);
  bail! String.append "No connection targets available for server "
          (String.append (uuid_to_string (sre_id entry)) ". Add addresses or relay credentials")
    when bool_decide (attempts = []);
  Ok attempts.

(** What the network answers, per address and for the relay. *)
Record registered_answers := mkRegisteredAnswers {
  rg_direct : string → net_answers;
  rg_relay : relay_answers;
  rg_via_relay : net_answers;
}.

(** The error of a failed attempt is kept with its outermost text. *)
Definition try_attempt (version : string) (entry : ServerRegistryEntry) (port : Z) (fingerprint : string) (chain : list bytes)
    (key_pem : bytes) (an : registered_answers) (a : Attempt) : result string ConnectResult :=
  match a with
  | Direct address =>
      map_err (λ e, String.append "direct " (String.append address (String.append ": " e)))
        (connect_via_direct address port fingerprint chain key_pem (rg_direct an address))
  | Relay =>
      relay_info ← ok_or (sre_relay entry) "relay: credentials unavailable";
      client_id ← ok_or (sre_client_id entry) "relay: client_id missing from enrollment";
      map_err (String.append "relay: ")
        (connect_via_relay version entry relay_info client_id port fingerprint chain key_pem (rg_relay an) (rg_via_relay an))
  end.

Fixpoint try_attempts (try : Attempt → result string ConnectResult) (errors : list string) (attempts : list Attempt)
    : (Attempt * ConnectResult) + list string :=
  match attempts with
  | [] => inr errors
  | a :: rest =>
      match try a with
      | Ok client => inl (a, client)
      | Err e => try_attempts try (errors ++ [e])%list rest
      end
  end.

Definition newline : string := String "010" EmptyString.
Definition all_failed (id : Uuid) (errors : list string) : string :=
  let head := String.append "All connection attempts failed for server " (uuid_to_string id) in
  match errors with
  | [] => head
  | _ => String.append head (String.append ":" (String.append newline (join newline errors)))
  end.

Context `{TomlCodec RawClientConfig}.

(** The attempt that succeeded is recorded with the connection. *)
Definition connect_registered (version : string) (env : ClientEnv) (entry : ServerRegistryEntry) (p : CertificatePaths)
    (an : registered_answers) : io (Attempt * ConnectResult) :=
  '(cert_pem, key_pem) ← with_context "Failed to load stored client credentials" (load_client_credentials p);
  chain ← lift (load_certs cert_pem);
  fingerprint ← with_context "Failed to load pinned server fingerprint" (load_pinned_fingerprint p);
  cfg ← or_else (load_client_config env) ClientConfig_default;
  let port := default 50051 (sre_port entry) in
  attempts ← lift (connection_attempts (cc_network_relay cfg) entry);
  match try_attempts (try_attempt version entry port fingerprint chain key_pem an) [] attempts with
  | inl found => mret found
  | inr errors => lift (Err (all_failed (sre_id entry) errors))
  end.

(** ** [fetch_server_info] *)
Record ServerInfoData := mkServerInfoData {
  si_address : string;
  si_port_ : Z;
  si_server_id : Uuid;
  si_hostname : string;
  si_version : string;
  si_os : string;
  si_fingerprint : string;
}.

(** What the server answers to [GetServerInfo]: its id, host name, version and
    system, as text. *)
Record info_response := mkInfoResponse { in_server_id : string; in_hostname : string; in_version : string; in_os : string }.

(** The id the caller expects, if any. *)
Definition check_server_id (hint : option Uuid) (server_id : Uuid) : result string unit :=
  match hint with
  | Some expected =>
      bail_if (bool_decide (expected ≠ server_id))
        (String.append "Server ID mismatch (expected " (String.append (uuid_to_string expected)
           (String.append ", got " (String.append (uuid_to_string server_id) ")"))))
  | None => Ok tt
  end.

Definition check_server_info (address : string) (port : Z) (hint : option Uuid) (fingerprint : bytes) (rpc : option info_response)
    : result string ServerInfoData :=
  response ← ok_or rpc "GetServerInfo RPC failed";
  server_id ← ok_or (uuid_parse (in_server_id response)) "Server returned invalid server_id";
  _ ← check_server_id hint server_id;
  Ok (mkServerInfoData address port server_id (in_hostname response) (in_version response) (in_os response)
        (String.append "SHA256:" (hex_encode fingerprint))).

(** The first address that connects decides; its RPC error ends the search. *)
Fixpoint fetch_from (addresses : list string) (port : Z) (hint : option Uuid) (net : string → net_answers)
    (rpc : string → option info_response) (last_err : option string) : result string ServerInfoData :=
  match addresses with
  | [] => Err (default "Failed to connect to any provided address" last_err)
  | address :: rest =>
      match connect_unverified address port (net address) with
      | Ok c => check_server_info address port hint (cr_fingerprint c) (rpc address)
      | Err e => fetch_from rest port hint net rpc (Some e)
      end
  end.
Definition fetch_server_info (addresses : list string) (port : Z) (hint : option Uuid) (net : string → net_answers)
    (rpc : string → option info_response) : result string ServerInfoData :=
  bail! "No addresses provided to fetch server info" when bool_decide (addresses = []);
  fetch_from addresses port hint net rpc None.
End grpc.

(** ** Direct addresses *)
Lemma push_unique_nodup l a : NoDup l → NoDup (push_unique l a).
Proof.
  intros Hl. unfold push_unique. destruct (str_is_empty (trim a)); [done|]. destruct (existsb _ l) eqn:E; [done|].
  apply NoDup_app. split_and!; [done| |apply NoDup_singleton]. intros x Hx ->%list_elem_of_singleton.
  apply not_true_iff_false in E. apply E, existsb_exists. exists a. split; [by apply list_elem_of_In|].
  unfold eq_ignore_ascii_case. by apply bool_decide_eq_true.
Qed.

Lemma collect_direct_addresses_nodup entry : NoDup (collect_direct_addresses entry).
Proof.
  assert (∀ as_ l, NoDup l → NoDup (foldl push_unique l as_)) as Hf.
  { induction as_ as [|a as_ IH]; intros l Hl; [done|]. by apply IH, push_unique_nodup. }
  unfold collect_direct_addresses. destruct (sre_hostname entry), (sre_ip entry); auto using push_unique_nodup, NoDup_nil_2.
Qed.

Section attempts.
Context `{GrpcCrates, ClientRelayCrates, UuidText, Sha256, HexEncode}.

(** What may be tried, in which order. *)
Definition relay_if (b : bool) : list Attempt := if b then [Relay] else [].
Definition relay_forced (prefs : RelayBehaviorConfig) (entry : ServerRegistryEntry) : bool :=
  match sre_relay entry with Some info => rr_relay_required info | None => false end || rb_relay_only_mode prefs.

Lemma relay_if_relay b a : a ∈ relay_if b → a = Relay.
Proof. destruct b; cbn; [apply list_elem_of_singleton|by intros ?%not_elem_of_nil]. Qed.

Lemma connection_attempts_ok prefs entry l :
  connection_attempts prefs entry = Ok l ↔ l ≠ [] ∧
    let has_relay := bool_decide (is_Some (sre_relay entry)) in
    if relay_forced prefs entry then has_relay = true ∧ l = [Relay]
    else l = (relay_if (rb_prefer_relay prefs && has_relay) ++
              (Direct <$> direct_limit (rb_max_direct_attempts prefs) (collect_direct_addresses entry)) ++
              relay_if (negb (rb_prefer_relay prefs) && has_relay))%list.
Proof.
  unfold connection_attempts, relay_forced, relay_if. cbv zeta.
  destruct (_ || rb_relay_only_mode prefs); [destruct (bool_decide (is_Some (sre_relay entry))) eqn:Er|]; cbn [mbind result_bind].
  - split; [intros [Hne [= <-]]%bail_then|intros (Hne & _ & ->)]; [by rewrite bool_decide_eq_false in Hne|].
    by rewrite bail_then, bool_decide_eq_false.
  - split; [done|naive_solver].
  - rewrite bail_then, bool_decide_eq_false. split; [intros [Hne [= <-]]|intros [Hne ->]]; done.
Qed.

Lemma direct_limit_prefix max l : direct_limit max l `prefix_of` l ∧ (max ≠ 0 → (length (direct_limit max l) <= Z.to_nat max)%nat).
Proof.
  unfold direct_limit. split; [eexists; symmetry; apply take_drop|]. intros Hm.
  apply Z.eqb_neq in Hm as ->. rewrite length_take. lia.
Qed.

(** The first attempt that succeeds ends the search. *)
Lemma try_attempts_inl try errs l a c : try_attempts try errs l = inl (a, c) ↔
  ∃ pre post, l = (pre ++ a :: post)%list ∧ try a = Ok c ∧ Forall (λ b, is_ok (try b) = false) pre.
Proof.
  revert errs. induction l as [|b l IH]; intros errs; cbn.
  { split; [done|]. intros (pre & post & Hl & _). by destruct pre. }
  destruct (try b) as [d|e] eqn:Hb.
  - split; [intros [= -> ->]; exists [], l; by repeat constructor|].
    intros ([|b' pre] & post & [= -> Hl] & Ha & Hf); [congruence|]. inversion Hf; subst. by rewrite Hb in *.
  - rewrite IH. split.
    + intros (pre & post & -> & Ha & Hf). exists (b :: pre), post. split_and!; try done. constructor; [by rewrite Hb|done].
    + intros ([|b' pre] & post & [= -> Hl] & Ha & Hf); [congruence|]. inversion Hf; subst. by exists pre, post.
Qed.

Lemma try_attempts_inr try errs l es : try_attempts try errs l = inr es → Forall (λ b, is_ok (try b) = false) l.
Proof.
  revert errs. induction l as [|b l IH]; intros errs; cbn; [by constructor|].
  destruct (try b) eqn:Hb; [done|]. intros E%IH. constructor; [by rewrite Hb|done].
Qed.

(** ** Who is at the other end *)
(** A pinned connection leads to a peer that presented the pinned certificate. *)
Lemma tls_connect_pinned fp expected an p f :
  PinnedServerCertVerifier_new fp = Ok expected → tls_connect expected an = Some (p, f) →
  na_peer an = Some p ∧ parse_fingerprint fp = Ok (sha256 (peer_cert p)) ∧ f = sha256 (peer_cert p).
Proof.
  unfold PinnedServerCertVerifier_new. intros Hn. apply result_bind_ok in Hn as (e & He & Hn).
  apply bail_then in Hn as [_ [= <-]]. unfold tls_connect. intros Ht. apply bind_Some in Ht as (p' & Hp & Ht).
  apply bind_Some in Ht as (f' & Hf & Ht). cbn in Hf. case_bool_decide as Heq; [done|].
  injection Hf as <-. destruct (_ && _); [|done]. injection Ht as <- <-. by subst e.
Qed.

Lemma build_tls_config_pinned fp auth r : build_tls_config (Some fp) auth = Ok r → PinnedServerCertVerifier_new fp = Ok r.
Proof.
  unfold build_tls_config. intros E. apply result_bind_ok in E as (r' & Hr & E). destruct auth as [[chain key]|].
  - by apply bail_then in E as [_ [= <-]].
  - by injection E as <-.
Qed.

Lemma connect_channel_pinned address port fp auth an c : connect_channel address port (Some fp) auth an = Ok c →
  na_peer an = Some (cr_peer c) ∧ parse_fingerprint fp = Ok (sha256 (peer_cert (cr_peer c))) ∧ cr_client c = auth.
Proof.
  unfold connect_channel. intros E. apply result_bind_ok in E as (r & Hr%build_tls_config_pinned & E).
  apply result_bind_ok in E as ([[uri sa] sn] & _ & E). rewrite !bail_then in E. destruct E as (_ & _ & E).
  apply result_bind_ok in E as ([p f] & Ht%ok_or_ok & [= <-]). cbn. by destruct (tls_connect_pinned _ _ _ _ _ Hr Ht) as (-> & -> & _).
Qed.

Lemma connect_stream_pinned uri fp auth an c : connect_channel_with_stream uri (Some fp) auth an = Ok c →
  na_peer an = Some (cr_peer c) ∧ parse_fingerprint fp = Ok (sha256 (peer_cert (cr_peer c))) ∧ cr_client c = auth.
Proof.
  unfold connect_channel_with_stream. intros E. apply result_bind_ok in E as (r & Hr%build_tls_config_pinned & E).
  apply bail_then in E as [_ E]. apply result_bind_ok in E as ([p f] & Ht%ok_or_ok & [= <-]). cbn.
  by destruct (tls_connect_pinned _ _ _ _ _ Hr Ht) as (-> & -> & _).
Qed.

Lemma map_err_ok {E F A} (f : E → F) (r : result E A) a : map_err f r = Ok a ↔ r = Ok a.
Proof. destruct r; naive_solver. Qed.

Lemma try_attempt_pinned version entry port fp chain key_pem an a c :
  try_attempt version entry port fp chain key_pem an a = Ok c →
  parse_fingerprint fp = Ok (sha256 (peer_cert (cr_peer c))) ∧ ∃ key, cr_client c = Some (chain, key) ∧ load_private_key key_pem = Ok key.
Proof.
  destruct a as [address|]; cbn [try_attempt].
  - rewrite map_err_ok. unfold connect_via_direct. intros E. apply result_bind_ok in E as (key & Hk & E).
    apply connect_channel_pinned in E as (_ & Hf & Hc). eauto.
  - intros E. apply result_bind_ok in E as (info & _ & E). apply result_bind_ok in E as (cid & _ & E%map_err_ok).
    unfold connect_via_relay in E. apply result_bind_ok in E as (t & _ & E).
    destruct (derive_relay_authority entry _) as [host port']. apply result_bind_ok in E as ([uri sn] & _ & E).
    apply result_bind_ok in E as (key & Hk & E). apply connect_stream_pinned in E as (_ & Hf & Hc). eauto.
Qed.

(** ** Connecting to a registered server *)
Context `{TomlCodec RawClientConfig}.

Lemma credentials_keep_fs p w w' r : load_client_credentials p w = (w', r) → w_fs w' = w_fs w.
Proof.
  unfold load_client_credentials, mbind, io_bind, io_read, mret, io_ret. destruct (ok_or (fs_read _ _ (w_fs w)) _); [|by intros [= <-]].
  destruct (ok_or _ _); by intros [= <-].
Qed.


Lemma connect_registered_ok version env entry p an w w' found :
  connect_registered version env entry p an w = (w', Ok found) →
  ∃ text chain key_pem prefs attempts,
    fs_read_to_string true (ct_server_fingerprint p) (w_fs w) = Some text ∧
    connection_attempts prefs entry = Ok attempts ∧
    try_attempts (try_attempt version entry (default 50051 (sre_port entry)) (trim text) chain key_pem an) [] attempts = inl found.
Proof.
  unfold connect_registered. rewrite io_bind_ok. intros (w1 & [cert_pem key_pem] & Hc%with_context_ok & E).
  apply credentials_keep_fs in Hc. apply io_bind_ok in E as (w2 & chain & [= <- Hch] & E).
  apply io_bind_ok in E as (w3 & fp & Hfp%with_context_ok & E).
  unfold load_pinned_fingerprint in Hfp. apply io_bind_ok in Hfp as (w4 & text & Ht & [= <- <-]).
  unfold io_read_to_string in Ht. injection Ht as <- Ht. apply ok_or_ok in Ht. rewrite Hc in Ht.
  apply io_bind_ok in E as (w5 & cfg & _ & E). apply io_bind_ok in E as (w6 & attempts & [= <- Hat] & E).
  exists text, chain, key_pem, (cc_network_relay cfg), attempts. split_and!; [|done|].
  - unfold fs_read_to_string, fs_read in *. by destruct (os_ok w1).
  - destruct (try_attempts _ _ attempts); [by injection E as _ ->|done].
Qed.

(** C4: A registered connection leads to the enrolled server.  If
    [connect_registered] succeeds, the peer presented a certificate whose SHA-256 is
    the fingerprint pinned on disk; the connection was made directly only to an
    address stored for that server, and only through the relay when the server
    requires it. *)
Theorem registered_connection_is_pinned version env entry p an w w' a c :
  connect_registered version env entry p an w = (w', Ok (a, c)) →
  (∃ text, fs_read_to_string true (ct_server_fingerprint p) (w_fs w) = Some text ∧
     parse_fingerprint (trim text) = Ok (sha256 (peer_cert (cr_peer c)))) ∧
  (∀ address, a = Direct address → address ∈ collect_direct_addresses entry) ∧
  (∀ info, sre_relay entry = Some info → rr_relay_required info = true → a = Relay).
Proof.
  intros (text & chain & key_pem & prefs & attempts & Ht & Hat & Htry)%connect_registered_ok.
  apply try_attempts_inl in Htry as (pre & post & Hl & Ha & _). split; [|split].
  - exists text. split; [done|]. by apply try_attempt_pinned in Ha as [? _].
  - intros address ->. apply connection_attempts_ok in Hat as [_ Hat]. cbv zeta in Hat. destruct (relay_forced prefs entry).
    { destruct Hat as [_ ->]. destruct pre as [|? [|??]]; discriminate Hl. }
    assert (Direct address ∈ attempts) as Hin by (rewrite Hl; set_solver). rewrite Hat in Hin.
    rewrite !elem_of_app, list_elem_of_fmap in Hin.
    destruct Hin as [Hin%relay_if_relay|[(x & [= <-] & Hx)|Hin%relay_if_relay]]; [done| |done].
    destruct (direct_limit_prefix (rb_max_direct_attempts prefs) (collect_direct_addresses entry)) as [[k Hk] _].
    rewrite Hk. set_solver.
  - intros info Hinfo Hreq. apply connection_attempts_ok in Hat as [_ Hat]. cbv zeta in Hat. unfold relay_forced in Hat.
    rewrite Hinfo, Hreq in Hat. cbn in Hat. destruct Hat as [_ ->]. destruct pre as [|? [|??]]; by simplify_eq/=.
Qed.

(** ** The handshake signature is not checked *)
Definition nokey (p : peer) : peer := mkPeer (peer_cert p) false (peer_webpki p).
Definition impostor (c : ConnectResult) : ConnectResult := mkConnectResult (nokey (cr_peer c)) (cr_client c) (cr_fingerprint c).
Definition keyless (an : net_answers) : net_answers := mkNetAnswers (na_tcp an) (nokey <$> na_peer an) (na_http2 an).
Definition keyless_answers (an : registered_answers) : registered_answers :=
  mkRegisteredAnswers (λ a, keyless (rg_direct an a)) (rg_relay an) (keyless (rg_via_relay an)).

Lemma tls_connect_keyless r an : tls_connect r (keyless an) = (λ pf, (nokey pf.1, pf.2)) <$> tls_connect r an.
Proof.
  unfold tls_connect, keyless. cbn. destruct (na_peer an) as [p|]; [|done]. cbn.
  destruct (recorder_verify r (peer_cert p)); [|done]. cbn. by destruct (na_http2 an).
Qed.

Lemma connect_channel_keyless address port fp auth an :
  connect_channel address port fp auth (keyless an) = impostor <$> connect_channel address port fp auth an.
Proof.
  unfold connect_channel. destruct (build_tls_config fp auth); [|done]. cbn [mbind result_bind].
  destruct (build_endpoints address port) as [[[uri ?] ?]|]; [|done]. cbn [mbind result_bind].
  rewrite tls_connect_keyless. cbn [keyless na_tcp].
  destruct (endpoint_uri_ok uri), (na_tcp an); [|done..]. cbn. by destruct (tls_connect _ an) as [[p f]|].
Qed.

Lemma connect_stream_keyless uri fp auth an :
  connect_channel_with_stream uri fp auth (keyless an) = impostor <$> connect_channel_with_stream uri fp auth an.
Proof.
  unfold connect_channel_with_stream. destruct (build_tls_config fp auth); [|done]. cbn [mbind result_bind].
  destruct (endpoint_uri_ok uri); [|done]. cbn [negb bail_if mbind result_bind]. rewrite tls_connect_keyless.
  by destruct (tls_connect _ an) as [[p f]|].
Qed.

Lemma try_attempt_keyless version entry port fp chain key_pem an a :
  try_attempt version entry port fp chain key_pem (keyless_answers an) a =
  impostor <$> try_attempt version entry port fp chain key_pem an a.
Proof.
  destruct a as [address|]; cbn [try_attempt keyless_answers rg_direct rg_relay rg_via_relay].
  - unfold connect_via_direct. destruct (load_private_key key_pem); [|done]. cbn [mbind result_bind].
    rewrite connect_channel_keyless. by destruct (connect_channel _ _ _ _ _).
  - destruct (sre_relay entry) as [info|]; [|done]. destruct (sre_client_id entry) as [cid|]; [|done]. cbn [ok_or mbind result_bind].
    unfold connect_via_relay.
    destruct (establish_relay_tunnel _ _ _ _ _).2 as [t|]; [|done]. cbn [map_err mbind result_bind].
    destruct (derive_relay_authority entry _) as [host port'].
    destruct (build_uri_and_server_name _ _) as [[uri sn]|]; [|done]. cbn [map_err mbind result_bind].
    destruct (load_private_key key_pem); [|done]. cbn [mbind result_bind]. rewrite connect_stream_keyless.
    by destruct (connect_channel_with_stream _ _ _ _).
Qed.

Lemma try_attempts_keyless try errs l :
  try_attempts (λ a, impostor <$> try a) errs l =
  match try_attempts try errs l with inl (a, c) => inl (a, impostor c) | inr e => inr e end.
Proof. revert errs. induction l as [|a l IH]; intros errs; [done|]. cbn. destruct (try a); [done|apply IH]. Qed.

Lemma try_attempts_ext try try' errs l : (∀ a, try a = try' a) → try_attempts try errs l = try_attempts try' errs l.
Proof. intros Hext. revert errs. induction l as [|a l IH]; intros errs; [done|]. cbn. rewrite Hext. by destruct (try' a). Qed.

(** The pin alone does not authenticate the server.  Because both signature
    checks of the verifier return success, whoever presents the server's certificate
    (which every TLS server hands out) is accepted without holding its private key:
    a run of [connect_registered] goes the same way when every peer loses its key. *)
Lemma impostor_with_certificate_is_accepted version env entry p an w w' a c :
  connect_registered version env entry p an w = (w', Ok (a, c)) →
  connect_registered version env entry p (keyless_answers an) w = (w', Ok (a, impostor c)) ∧
  peer_holds_key (cr_peer (impostor c)) = false ∧ peer_cert (cr_peer (impostor c)) = peer_cert (cr_peer c).
Proof.
  intros E. split; [|done]. unfold connect_registered in *.
  apply io_bind_ok in E as (w1 & [cert_pem key_pem] & Hc & E). rewrite (io_run _ _ _ _ _ Hc).
  apply io_bind_ok in E as (w2 & chain & Hch & E). rewrite (io_run _ _ _ _ _ Hch).
  apply io_bind_ok in E as (w3 & fp & Hfp & E). rewrite (io_run _ _ _ _ _ Hfp).
  apply io_bind_ok in E as (w4 & cfg & Hcfg & E). rewrite (io_run _ _ _ _ _ Hcfg).
  apply io_bind_ok in E as (w5 & attempts & Hat & E). rewrite (io_run _ _ _ _ _ Hat).
  rewrite (try_attempts_ext _ _ _ _ (try_attempt_keyless _ _ _ _ _ _ an)), try_attempts_keyless.
  destruct (try_attempts _ _ attempts) as [[a' c']|]; [|done]. by injection E as <- -> ->.
Qed.
End attempts.

(** ** Host names *)
(** A host name is stored and tried like an address, but only an IP literal parses as
    a socket address: such an attempt always fails. *)
Lemma parse_socket_addr_name c name : is_ascii_alpha c = true → parse_socket_addr (String c name) = None.
Proof.
  intros Hc. assert (char_digit 10 c = None ∧ c ≠ "["%char) as [Hd Hb] by (by destruct c as [[] [] [] [] [] [] [] []]).
  unfold parse_socket_addr, read_socket_addr_v4, read_ipv4_addr, read_separator, read_number. cbn [read_digits]. rewrite Hd. cbn.
  unfold read_socket_addr_v6. cbn. by rewrite decide_False by done.
Qed.

Lemma hostname_never_connects `{GrpcCrates, Sha256} c name port fp auth an :
  is_ascii_alpha c = true → str_contains_char ":" (String c name) = false →
  is_ok (connect_channel (String c name) port fp auth an) = false.
Proof.
  intros Hc Hcolon. unfold connect_channel. destruct (build_tls_config fp auth); [|done]. cbn [mbind result_bind].
  unfold build_endpoints, socket_literal. rewrite Hcolon. cbn [andb].
  assert (∀ t, parse_socket_addr (String.append (String c name) t) = None) as -> by (intros t; rewrite append_cons; by apply parse_socket_addr_name).
  done.
Qed.

(** ** Witnesses *)
Definition demo_nibble (c : ascii) : Z := if is_ascii_digit c then ascii_code c - 48 else ascii_code c - 87.
Fixpoint demo_unhex (s : string) : option bytes :=
  match s with
  | EmptyString => Some []
  | String a (String b r) => x ← Byte.of_N (Z.to_N (16 * demo_nibble a + demo_nibble b)); l ← demo_unhex r; Some (x :: l)
  | String _ EmptyString => None
  end.
Definition demo_grpc : GrpcCrates := {|
  pem_certs b := Some [b]; pem_private_key b := Some (Some b); client_auth_ok _ _ := true; endpoint_uri_ok _ := true;
  dns_name_ok _ := true; authority_parse _ := None; fingerprint_hex_decode := demo_unhex;
|}.
#[local] Existing Instance demo_grpc.
#[local] Existing Instance demo_client_relay.
#[local] Existing Instance demo_uuid.
#[local] Existing Instance demo_sha256.
#[local] Existing Instance demo_hex.
#[local] Instance demo_client_config : TomlCodec RawClientConfig :=
  {| toml_to_string_pretty _ := Err "unsupported"; toml_from_str _ := Err "unsupported" |}.

(** A disk after an enrolment with a server whose certificate is [x2a]. *)
Definition demo_paths : CertificatePaths := cert_paths_in "/cfg/client-certs/7".
Definition demo_pin : string :=
  "SHA256:2a00000000000000000000000000000000000000000000000000000000000000".
Definition enrolled_world : World :=
  mkWorld (mkFs {[ct_client_cert demo_paths := [x01]; ct_client_key demo_paths := [x02];
                  ct_server_fingerprint demo_paths := to_bytes demo_pin]} ∅) ∅ MODE_CERT (λ _, WOk) 0.
Definition enrolled_server : ServerRegistryEntry :=
  mkServerRegistryEntry 7%N None (Some "10.0.0.1") None None None (Some 9%N) None None ["10.0.0.1"] None.
Definition demo_answers : registered_answers :=
  mkRegisteredAnswers (λ _, mkNetAnswers true (Some (mkPeer [x2a] true false)) true) demo_relay_answers (mkNetAnswers false None false).
Definition demo_connection : ConnectResult := mkConnectResult (mkPeer [x2a] true false) (Some ([[x01]], [x02])) (sha256 [x2a]).

Definition demo_connect (an : registered_answers) : World * result string (Attempt * ConnectResult) :=
  connect_registered "1.0" demo_env enrolled_server demo_paths an enrolled_world.

Lemma registered_connection_is_pinned_witness :
  ∃ text, fs_read_to_string true (ct_server_fingerprint demo_paths) (w_fs enrolled_world) = Some text ∧
    parse_fingerprint (trim text) = Ok (sha256 [x2a]).
Proof.
  assert (demo_connect demo_answers = ((demo_connect demo_answers).1, Ok (Direct "10.0.0.1", demo_connection))) as E
    by (vm_compute; reflexivity).
  exact (proj1 (registered_connection_is_pinned "1.0" demo_env enrolled_server demo_paths demo_answers enrolled_world _ _ _ E)).
Defined.
