(* ===== verification/ClientEnroll.v ===== *)
(** * Enrolling with a server (client-lib/src/enrollment.rs)

    Enrolment with the payload of a QR code and by approval.  Network connections and
    the answers of the server's RPCs are inputs (an RPC is a function of its
    request); the messages are those of [Service].  Parsing the payload and dates and
    generating a certificate are the class [EnrollCrates]. *)

From S2P Require Import Prelude RustStd ThirdParty Fs Io Net SessionState RelayTokens RelayClient Verification Service.
From S2P Require Import ClientConfig ClientStorage ClientRelay ClientConnect.

Local Open Scope string_scope.
Local Open Scope Z_scope.

(** ** Data *)
Record QrEnrollmentInput := mkQrEnrollmentInput {
  qn_payload : string;
  qn_override_server_id : option Uuid;
  qn_device_name : option string;
  qn_device_model : option string;
}.
Record QrEnrollmentOutcome := mkQrEnrollmentOutcome {
  qo_server_id : Uuid;
  qo_client_id : option Uuid;
  qo_addresses : list string;
  qo_port : Z;
  qo_relay : option RegistryRelayInfo;
  qo_cert_directory : string;
  qo_token_expiry : option Z;
}.
Record ApprovalEnrollmentInput := mkApprovalEnrollmentInput {
  an_addresses : list string;
  an_port : option Z;
  an_server_id_hint : option Uuid;
  an_device_name : option string;
  an_device_model : option string;
  an_timeout : Z;
  an_poll_interval : Z;
}.
Record ApprovalEnrollmentOutcome := mkApprovalEnrollmentOutcome {
  ao_server_id : Uuid;
  ao_client_id : option Uuid;
  ao_addresses : list string;
  ao_port : Z;
  ao_relay : option RegistryRelayInfo;
  ao_cert_directory : string;
  ao_verification_code : string;
}.

Record RawQrRelayInfo := mkRawQrRelayInfo {
  wr_relay_url : string;
  wr_relay_token : string;
  wr_relay_required : bool;
  wr_allow_self_signed_tls : bool;
  wr_pinned_cert_sha256 : option string;
}.
Record RawQrPayload := mkRawQrPayload {
  wq_server_ip : option string;
  wq_server_ips : option (list string);
  wq_server_port : option Z;
  wq_server_cert_fingerprint : string;
  wq_server_id : string;
  wq_enrollment_token : string;
  wq_hostname : option string;
  wq_relay : option RawQrRelayInfo;
  wq_valid_until : option string;
}.

Definition payload_addresses (raw : RawQrPayload) : list string :=
  match wq_server_ips raw with
  | Some (ip :: ips) => ip :: ips
  | _ => (option_list (wq_server_ip raw) ++ option_list (wq_hostname raw))%list
  end.
Definition payload_port (raw : RawQrPayload) : Z := default 50051 (wq_server_port raw).

Definition relay_from_qr (info : RawQrRelayInfo) : RegistryRelayInfo :=
  mkRegistryRelayInfo (wr_relay_url info) (wr_relay_token info) (wr_relay_required info) (wr_allow_self_signed_tls info)
    (wr_pinned_cert_sha256 info).
Definition relay_from_proto (info : RelayInfo) : RegistryRelayInfo :=
  mkRegistryRelayInfo (ri_relay_url info) (ri_relay_token info) (ri_relay_required info) false None.

(** A freshly generated certificate: DER, PEM and the key's PEM. *)
Record generated := mkGenerated { ge_der : bytes; ge_cert_pem : string; ge_key_pem : string }.

Class EnrollCrates := {
  parse_qr_payload : string → option RawQrPayload;
  rfc3339_parse : string → option Z;
  rfc3339_format : Z → option string;
  (** [rcgen]: common name and organisational unit; the key comes from outside. *)
  rcgen_certificate : string → option string → bytes → option generated;
}.

(** Keeping the first of equal elements. *)
Definition dedup (l : list string) : list string :=
  foldl (λ acc x, if bool_decide (x ∈ acc) then acc else (acc ++ [x])%list) [] l.

(** [{:02x}] of every byte. *)
Definition hex_byte (b : byte) : string :=
  let n := byte_val b in String (hex_digit (n / 16)) (String (hex_digit (n mod 16)) EmptyString).
Definition format_fingerprint_bytes (b : bytes) : string :=
  String.append "SHA256:" (foldr (λ x s, String.append (hex_byte x) s) "" b).

(** ** The device name: the environment variables and the host name are inputs. *)
Definition nonblank (s : option string) : option string :=
  v ← s; let t := trim v in if str_is_empty t then None else Some t.
Definition resolve_device_name (explicit : option string) (env : string → option string) (hostname : option string) : string :=
  match nonblank explicit, nonblank (env "HANDCONTROL_DEVICE_NAME"), nonblank (env "USER"), nonblank (env "USERNAME"),
        nonblank hostname with
  | Some name, _, _, _, _ => name
  | None, Some v, _, _, _ => v
  | None, None, Some v, _, _ => v
  | None, None, None, Some v, _ => v
  | None, None, None, None, Some h => h
  | None, None, None, None, None => "HandControl CLI"
  end.

Section enroll.
Context `{EnrollCrates, GrpcCrates, ClientRelayCrates, UuidText, Sha256, HexEncode, TomlCodec ServerRegistryFile}.

Definition generate_client_certificate (device_name device_model : option string) (key : bytes) : result string generated :=
  ok_or (rcgen_certificate (default "HandControl CLI" device_name) device_model key) "certificate generation failed".

(** An id in a server's answer: empty text is no id. *)
Definition parse_client_id (text error : string) : result string (option Uuid) :=
  if str_is_empty text then Ok None else id ← ok_or (uuid_parse text) error; Ok (Some id).

Definition complete_enrollment_request (rpc : EnrollRequest → option EnrollResponse) (client_cert_der : bytes)
    (device_name enrollment_token : string) : result string (option Uuid * option RegistryRelayInfo) :=
  response ← ok_or (rpc (mkEnrollRequest enrollment_token client_cert_der device_name)) "Enroll RPC failed";
  bail! (if negb (str_is_empty (es_error_message response)) then String.append "Enrollment failed: " (es_error_message response)
         else "Enrollment failed (unspecified error)")
    when negb (es_success response);
  client_id ← parse_client_id (es_client_id response) "Invalid client_id returned by server";
  Ok (client_id, relay_from_proto <$> es_relay_info response).

(** What the network answers to one attempt to enrol. *)
Record enroll_answers := mkEnrollAnswers {
  ea_net : net_answers;
  ea_relay : relay_answers;             (* only for the attempt through the relay *)
  ea_rpc : EnrollRequest → option EnrollResponse;
}.

Definition attempt_qr_enrollment (address : string) (port : Z) (server_fingerprint : string) (client_cert_der : bytes)
    (device_name enrollment_token : string) (an : enroll_answers) : result string (option Uuid * option RegistryRelayInfo) :=
  _ ← connect_unauthenticated address port server_fingerprint (ea_net an);
  complete_enrollment_request (ea_rpc an) client_cert_der device_name enrollment_token.

Definition attempt_qr_enrollment_via_relay (version : string) (relay_info : RegistryRelayInfo) (server_id : Uuid)
    (hostname : option string) (addresses : list string) (port : Z) (server_fingerprint : string) (client_cert_der : bytes)
    (device_name enrollment_token : string) (an : enroll_answers) : result string (option Uuid * option RegistryRelayInfo) :=
  client_uuid ← ok_or (uuid_parse enrollment_token) "Enrollment token must be a UUID when using relay enrollment";
  _ ← connect_unauthenticated_via_relay version relay_info server_id client_uuid hostname addresses port server_fingerprint
        (ea_relay an) (ea_net an);
  complete_enrollment_request (ea_rpc an) client_cert_der device_name enrollment_token.

(** ** Storing the result *)
Definition enrolled_entry (server_id : Uuid) (hostname ip : option string) (port : Z) (now : Z) (client_id : option Uuid)
    (fingerprint cert_dir : string) (addresses : list string) (relay : option RegistryRelayInfo) : ServerRegistryEntry :=
  mkServerRegistryEntry server_id hostname ip (Some port) (rfc3339_format now) (rfc3339_format now) client_id
    (Some fingerprint) (Some cert_dir) addresses relay.

Definition store_enrollment (env : ClientEnv) (paths : CertificatePaths) (cert_pem key_pem fingerprint : string)
    (entry : ServerRegistryEntry) : io unit :=
  _ ← write_client_credentials paths cert_pem key_pem;
  _ ← persist_fingerprint paths fingerprint;
  registry ← registry_load env;
  registry_save env (upsert entry registry).

Definition finalize_qr_enrollment (env : ClientEnv) (relay_info : option RegistryRelayInfo) (paths : CertificatePaths)
    (cert : generated) (server_id : Uuid) (hostname : option string) (addresses : list string) (port : Z)
    (server_fingerprint : string) (client_id : option Uuid) (new_relay : option RegistryRelayInfo)
    (connected_address : option string) (token_expiry : option Z) (now : Z) : io QrEnrollmentOutcome :=
  let relay_info := match new_relay with Some info => Some info | None => relay_info end in
  let entry := enrolled_entry server_id hostname (nonblank connected_address) port now client_id server_fingerprint
                 (ct_dir paths) addresses relay_info in
  _ ← store_enrollment env paths (ge_cert_pem cert) (ge_key_pem cert) server_fingerprint entry;
  mret (mkQrEnrollmentOutcome server_id client_id addresses port relay_info (ct_dir paths) token_expiry).

(** ** [enroll_via_qr] *)
Record qr_world := mkQrWorld {
  qw_direct : string → enroll_answers;
  qw_via_relay : enroll_answers;
  qw_env : string → option string;
  qw_hostname : option string;
  qw_key : bytes;
  qw_now : Z;
}.

(** The first address at which enrolment succeeds, or the errors. *)
Fixpoint try_addresses (try : string → result string (option Uuid * option RegistryRelayInfo)) (errors : list string)
    (addresses : list string) : (string * (option Uuid * option RegistryRelayInfo)) + list string :=
  match addresses with
  | [] => inr errors
  | address :: rest =>
      match try address with
      | Ok r => inl (address, r)
      | Err e => try_addresses try (errors ++ [String.append "direct " (String.append address (String.append ": " e))])%list rest
      end
  end.

Definition all_enrollments_failed (server_id : Uuid) (errors : list string) : string :=
  String.append "All enrollment attempts failed for server " (String.append (uuid_to_string server_id)
    (String.append ":" (String.append newline (join newline errors)))).

Definition parse_expiry (raw : RawQrPayload) : result string (option Z) :=
  match wq_valid_until raw with
  | Some text => t ← ok_or (rfc3339_parse text) "Invalid valid_until timestamp in QR payload"; Ok (Some t)
  | None => Ok None
  end.

Definition enroll_via_qr (version : string) (env : ClientEnv) (input : QrEnrollmentInput) (an : qr_world) : io QrEnrollmentOutcome :=
  raw ← lift (ok_or (parse_qr_payload (qn_payload input)) "Failed to parse QR enrollment payload JSON");
  token_expiry ← lift (parse_expiry raw);
  server_id ← lift (match qn_override_server_id input with
                    | Some id => Ok id
                    | None => ok_or (uuid_parse (wq_server_id raw)) "Invalid server_id in payload"
                    end);
  let addresses := dedup (payload_addresses raw) in
  _ ← lift (bail_if (bool_decide (addresses = [])) "Enrollment payload did not include any server addresses");
  let device_name := resolve_device_name (qn_device_name input) (qw_env an) (qw_hostname an) in
  paths ← for_server env server_id;
  cert ← lift (generate_client_certificate (Some device_name) (qn_device_model input) (qw_key an));
  let port := payload_port raw in
  let relay_info := relay_from_qr <$> wq_relay raw in
  let fp := wq_server_cert_fingerprint raw in
  let finish relay client_id new_relay connected :=
    finalize_qr_enrollment env relay paths cert server_id (wq_hostname raw) addresses port fp client_id new_relay connected
      token_expiry (qw_now an) in
  let try address := attempt_qr_enrollment address port fp (ge_der cert) device_name (wq_enrollment_token raw) (qw_direct an address) in
  match try_addresses try [] addresses with
  | inl (address, (client_id, response_relay)) => finish relay_info client_id response_relay (Some address)
  | inr errors =>
      match relay_info with
      | None => lift (Err (all_enrollments_failed server_id errors))
      | Some details =>
          match attempt_qr_enrollment_via_relay version details server_id (wq_hostname raw) addresses port fp (ge_der cert)
                  device_name (wq_enrollment_token raw) (qw_via_relay an) with
          | Ok (client_id, response_relay) =>
              finish relay_info client_id (Some (default details response_relay)) (head addresses)
          | Err e => lift (Err (all_enrollments_failed server_id (errors ++ [String.append "relay: " e])%list))
          end
      end
  end.

(** ** [enroll_via_approval] *)
(** What the server and the clock answer to one attempt; each poll comes with the
    clock reading after it. *)
Record approval_answers := mkApprovalAnswers {
  aa_net : net_answers;
  aa_info : option info_response;
  aa_pairing : RequestPairingRequest → option RequestPairingResponse;
  aa_start : Z;
  aa_polls : list (option CheckPairingStatusResponse * Z);
  aa_now : Z;
}.

(** What is known when polling starts. *)
Record pairing_offer := mkPairingOffer {
  po_server_id : Uuid;
  po_hostname : option string;
  po_request_id : string;
  po_fingerprint : bytes;
  po_nonce : bytes;
  po_code : string;
  po_deadline : Z;
}.

(** Durations are nanoseconds. *)
Definition effective_deadline (start timeout server_timeout_seconds : Z) : Z :=
  let server_timeout := if 0 <? server_timeout_seconds then server_timeout_seconds * NANOS else timeout in
  start + Z.min timeout server_timeout.
Definition effective_interval (poll_interval : Z) : Z := if poll_interval =? 0 then NANOS else poll_interval.

(** Up to showing the code; the outer [None] is a panic. *)
Definition negotiate (address : string) (port : Z) (hint : option Uuid) (client_cert_der : bytes) (device_name : string)
    (device_model : option string) (timeout : Z) (an : approval_answers) : option (result string pairing_offer) :=
  match
    (conn ← connect_unverified address port (aa_net an);
     info ← ok_or (aa_info an) "GetServerInfo RPC failed";
     server_id ← ok_or (uuid_parse (in_server_id info)) "Server returned invalid server_id";
     _ ← check_server_id hint server_id;
     response ← ok_or (aa_pairing an (mkRequestPairingRequest device_name (default "" device_model) client_cert_der ""))
                  "RequestPairing RPC failed";
     bail! "Server returned empty pairing_request_id" when str_is_empty (rps_pairing_request_id response);
     bail! "Server did not provide certificate fingerprint" when bool_decide (rps_server_cert_fingerprint response = []);
     bail! "Server did not provide verification nonce" when bool_decide (rps_verification_nonce response = []);
     bail! "Server fingerprint mismatch between TLS handshake and RPC response"
       when bool_decide (cr_fingerprint conn ≠ rps_server_cert_fingerprint response);
     Ok (info, server_id, response))
  with
  | Err e => Some (Err e)
  | Ok (info, server_id, response) =>
      let fp := rps_server_cert_fingerprint response in
      code ← compute_verification_code client_cert_der fp server_id (rps_verification_nonce response);
      Some (local_code ← code;
            bail! "Verification code mismatch between client and server"
              when negb (str_is_empty (rps_verification_code response)) && bool_decide (rps_verification_code response ≠ local_code);
            Ok (mkPairingOffer server_id (if str_is_empty (in_hostname info) then None else Some (in_hostname info))
                  (rps_pairing_request_id response) fp (rps_verification_nonce response) local_code
                  (effective_deadline (aa_start an) timeout (rps_timeout_seconds response))))
  end.

Inductive poll_end := Approved_ (status : CheckPairingStatusResponse) | PollFailed (e : string) | StillPolling.

Fixpoint poll_approval (deadline : Z) (polls : list (option CheckPairingStatusResponse * Z)) : poll_end :=
  match polls with
  | [] => StillPolling
  | (None, _) :: _ => PollFailed "CheckPairingStatus RPC failed"
  | (Some status, now) :: rest =>
      if cps_status status =? 2 then Approved_ status
      else if cps_status status =? 3 then PollFailed "Pairing request was rejected by the server"
      else if cps_status status =? 4 then PollFailed "Pairing request timed out on the server"
      else if deadline <=? now then PollFailed "Timed out waiting for approval"
      else poll_approval deadline rest
  end.

(** [None]: the attempt has not ended (or panicked).  The codes shown to the user are
    returned as well. *)
Definition attempt_approval_enrollment (env : ClientEnv) (address : string) (port : Z) (hint : option Uuid)
    (all_addresses : list string) (cert : generated) (device_name : string) (device_model : option string) (timeout : Z)
    (an : approval_answers) (w : World) : list string * option (World * result string ApprovalEnrollmentOutcome) :=
  match negotiate address port hint (ge_der cert) device_name device_model timeout an with
  | None => ([], None)
  | Some (Err e) => ([], Some (w, Err e))
  | Some (Ok offer) =>
      ([po_code offer],
       match poll_approval (po_deadline offer) (aa_polls an) with
       | StillPolling => None
       | PollFailed e => Some (w, Err e)
       | Approved_ status =>
           let act : io ApprovalEnrollmentOutcome :=
             (client_id ← lift (parse_client_id (cps_client_id status) "Server returned invalid client_id in approval");
              paths ← for_server env (po_server_id offer);
              let fingerprint_str := format_fingerprint_bytes (po_fingerprint offer) in
              let relay_info := relay_from_proto <$> cps_relay_info status in
              let entry := enrolled_entry (po_server_id offer) (po_hostname offer) (Some address) port (aa_now an) client_id
                             fingerprint_str (ct_dir paths) all_addresses relay_info in
              _ ← store_enrollment env paths (ge_cert_pem cert) (ge_key_pem cert) fingerprint_str entry;
              mret (mkApprovalEnrollmentOutcome (po_server_id offer) client_id all_addresses port relay_info (ct_dir paths)
                      (po_code offer))) in
           Some (act w)
       end)
  end.

Fixpoint try_approvals (try : string → World → list string * option (World * result string ApprovalEnrollmentOutcome))
    (addresses : list string) (last_err : option string) (w : World)
    : list string * option (World * result string ApprovalEnrollmentOutcome) :=
  match addresses with
  | [] => ([], Some (w, Err (default "All approval enrollment attempts failed" last_err)))
  | address :: rest =>
      let '(codes, r) := try address w in
      match r with
      | None => (codes, None)
      | Some (w', Ok outcome) => (codes, Some (w', Ok outcome))
      | Some (w', Err e) => let '(codes', r') := try_approvals try rest (Some e) w' in ((codes ++ codes')%list, r')
      end
  end.

Record approval_world := mkApprovalWorld {
  aw_answers : string → approval_answers;
  aw_env : string → option string;
  aw_hostname : option string;
  aw_key : bytes;
}.

Definition enroll_via_approval (env : ClientEnv) (input : ApprovalEnrollmentInput) (an : approval_world) (w : World)
    : list string * option (World * result string ApprovalEnrollmentOutcome) :=
  if bool_decide (an_addresses input = []) then
    ([], Some (w, Err "No server addresses provided for approval enrollment"))
  else
    let device_name := resolve_device_name (an_device_name input) (aw_env an) (aw_hostname an) in
    match generate_client_certificate (Some device_name) (an_device_model input) (aw_key an) with
    | Err e => ([], Some (w, Err e))
    | Ok cert =>
        let port := default 50051 (an_port input) in
        try_approvals
          (λ address, attempt_approval_enrollment env address port (an_server_id_hint input) (an_addresses input) cert device_name
             (an_device_model input) (an_timeout input) (aw_answers an address))
          (an_addresses input) None w
    end.
End enroll.
