(* ===== verification/EnrollFlow.v ===== *)
(** * Enrolment from the QR code to the first connection

    The client's enrolment ([ClientEnroll]) run against the server's handlers
    ([Service]): what both sides hold afterwards, and what the verification code of
    the approval flow vouches for. *)

From S2P Require Import Prelude RustStd ThirdParty Fs Io Net SessionState RelayTokens RelayClient Verification Config ClientStore.
From S2P Require Import Certificates Enrollment Pairing SessionManager Service Access ClientConfig ClientStorage ClientRelay RelayEnds ClientConnect ClientEnroll.

Local Open Scope string_scope.
Local Open Scope Z_scope.

(** ** Texts *)
(** Bytes in lower-case hexadecimal. *)
Definition hex_string (b : bytes) : string := foldr (λ x s, String.append (hex_byte x) s) "" b.

Lemma hex_string_digits b : string_forall is_ascii_hexdigit (hex_string b) = true.
Proof.
  induction b as [|x b IH]; [done|]. cbn [hex_string foldr]. rewrite string_forall_append. fold (hex_string b).
  rewrite IH, andb_true_r. by destruct x.
Qed.
Lemma hexdigit_visible c : is_ascii_hexdigit c = true → visible c = true.
Proof. by destruct c as [[] [] [] [] [] [] [] []]. Qed.
Lemma fingerprint_text_visible b : string_forall visible (String.append "SHA256:" (hex_string b)) = true.
Proof.
  rewrite string_forall_append. apply andb_true_intro. split; [done|].
  eapply string_forall_impl, hex_string_digits. apply hexdigit_visible.
Qed.

(** [hex::encode] prints lower-case digits and [hex::decode] reads them. *)
Class HexLaws `{HexEncode, GrpcCrates} := {
  hex_encode_lower : ∀ b, hex_encode b = hex_string b;
  hex_decode_lower : ∀ b, fingerprint_hex_decode (hex_string b) = Some b;
}.

Section fingerprints.
Context `{HexLaws}.

Lemma parse_fingerprint_text b : parse_fingerprint (String.append "SHA256:" (hex_string b)) = Ok b.
Proof.
  unfold parse_fingerprint. rewrite trim_visible by apply fingerprint_text_visible.
  rewrite (proj2 (strip_prefix_Some "SHA256:" _ (hex_string b))) by done. cbn [ok_or mbind result_bind].
  rewrite string_filter_all by apply hex_string_digits. by rewrite hex_decode_lower.
Qed.

(** The text the server displays and the text the client pins name the same bytes. *)
Lemma fingerprint_roundtrip c : parse_fingerprint (fingerprint_display c) = Ok (sc_fingerprint c).
Proof. unfold fingerprint_display. rewrite hex_encode_lower. apply parse_fingerprint_text. Qed.
Lemma fingerprint_display_trim c : trim (fingerprint_display c) = fingerprint_display c.
Proof. unfold fingerprint_display. rewrite hex_encode_lower. apply trim_visible, fingerprint_text_visible. Qed.
End fingerprints.

(** ** What is stored *)
Section stored.
Context `{UuidShape, !TomlCodec ServerRegistryFile, !TomlLaws ServerRegistryFile, !RegistryText}.

Lemma cert_paths_distinct d : let p := cert_paths_in d in
  ct_client_cert p ≠ ct_client_key p ∧ ct_server_fingerprint p ≠ ct_client_cert p ∧ ct_server_fingerprint p ≠ ct_client_key p.
Proof. split_and!; intros E%path_join_inj; by try discriminate E. Qed.

(** The three files of a server's directory hold the enrolment. *)
Definition credentials_on_disk (p : CertificatePaths) (cert key fingerprint : string) (fs : FileSystem) : Prop :=
  fs_files fs !! ct_client_cert p = Some (to_bytes cert) ∧ fs_files fs !! ct_client_key p = Some (to_bytes key) ∧
  fs_files fs !! ct_server_fingerprint p = Some (to_bytes fingerprint).

Lemma store_enrollment_reliable env dir id cert key fp entry w r0 :
  let p := cert_paths_in (server_dir dir id) in
  env_dir env = Some dir → reliable w → registry_on_disk dir (w_fs w) = Some r0 →
  ∃ w', store_enrollment env p cert key fp entry w = (w', Ok tt) ∧ credentials_on_disk p cert key fp (w_fs w') ∧
    registry_on_disk dir (w_fs w') = Some (loaded (upsert entry r0)).
Proof.
  intros p Hd Hw Hr. unfold store_enrollment. destruct (below_cert_paths dir id) as (B1 & B2 & B3). fold p in B1, B2, B3.
  destruct (cert_paths_distinct (server_dir dir id)) as (D1 & D2 & D3). fold p in D1, D2, D3.
  pose proof (below_registry dir) as B. set (path := path_join dir REGISTRY_FILE_NAME) in *.
  assert (∀ q, below dir "c" q → q ≠ path) as Hne by (intros q Hq; by eapply below_ne).
  destruct (write_credentials_reliable p cert key w Hw) as (w1 & E1 & R1 & F1). rewrite (io_run _ _ _ _ _ E1).
  edestruct (io_write_reliable (ct_server_fingerprint p) (to_bytes fp)) as (w2 & E2 & F2 & R2 & _); [exact R1|].
  unfold persist_fingerprint. rewrite (io_run _ _ _ _ _ E2).
  assert (registry_on_disk dir (w_fs w2) = Some r0) as Hr2.
  { rewrite <-Hr. apply registry_on_disk_frame; rewrite F2, F1; [|done]. fold path. cbn.
    by rewrite !lookup_insert_ne by auto. }
  destruct (registry_load_on_disk env dir w2 r0 Hd R2 Hr2) as (w3 & E3 & F3 & R3). rewrite (io_run _ _ _ _ _ E3).
  destruct (registry_save_reliable env dir w3 (upsert entry r0) Hd R3) as (w4 & E4 & R4 & D4 & F4).
  exists w4. split_and!; [done| |done]. unfold credentials_on_disk. rewrite !F4, F3, F2, F1 by auto. cbn.
  by rewrite ?lookup_insert_eq, ?(lookup_insert_ne _ (ct_server_fingerprint p)), ?lookup_insert_eq,
    ?(lookup_insert_ne _ (ct_client_key p)), ?lookup_insert_eq by auto.
Qed.
End stored.

(** ** Enrolment with a QR code *)
(** The serialized payload of the server, read with the client's field aliases. *)
Definition read_relay (r : RelayQrInfo) : RawQrRelayInfo :=
  mkRawQrRelayInfo (rq_relay_url r) (rq_relay_token r) (rq_relay_required r) (rq_allow_self_signed_tls r) (rq_pinned_cert_sha256 r).
Definition read_payload (p : EnrollmentQrPayload) : RawQrPayload :=
  mkRawQrPayload None (Some (eq_ips p)) (Some (eq_port p)) (eq_cert_fingerprint p) (eq_server_id p) (eq_enrollment_token p) None
    (read_relay <$> eq_relay p) (Some (eq_valid_until p)).

(** [serde_json] reads what it printed; so does the date format. *)
Class QrJsonLaws `{QrCrates, EnrollCrates} := {
  qr_json_read : ∀ p s, qr_json p = Some s → parse_qr_payload s = Some (read_payload p);
  rfc3339_read : ∀ t s, format_rfc3339 t = Some s → rfc3339_parse s = Some t;
}.
(** The clients file can always be serialized. *)
Class ClientsText `{TomlCodec ClientRegistry} := clients_text : ∀ r : ClientRegistry, is_ok (toml_to_string_pretty r) = true.

Lemma elem_of_dedup x l : x ∈ dedup l ↔ x ∈ l.
Proof.
  unfold dedup. assert (∀ acc, x ∈ foldl (λ acc x, if bool_decide (x ∈ acc) then acc else (acc ++ [x])%list) acc l ↔ x ∈ acc ∨ x ∈ l) as ->.
  { induction l as [|y l IH]; intros acc; cbn; [set_solver|]. rewrite IH. case_bool_decide; set_solver. }
  set_solver.
Qed.

Lemma try_addresses_first try errs l r :
  (∀ a, a ∈ l → is_ok (try a) = true → try a = Ok r) → (∃ a, a ∈ l ∧ is_ok (try a) = true) →
  ∃ a, a ∈ l ∧ try_addresses try errs l = inl (a, r).
Proof.
  revert errs. induction l as [|b l IH]; intros errs Hall (a & Ha & Hok); [by apply not_elem_of_nil in Ha|]. cbn.
  destruct (try b) as [x|e] eqn:Hb.
  - exists b. split; [set_solver|]. specialize (Hall b). rewrite Hb in Hall.
    by injection (Hall ltac:(set_solver) eq_refl) as ->.
  - destruct (IH (errs ++ [String.append "direct " (String.append b (String.append ": " e))])%list) as (a' & Ha' & E).
    + set_solver.
    + exists a. split; [|done]. apply elem_of_cons in Ha as [->|?]; [by rewrite Hb in Hok|done].
    + exists a'. split; [set_solver|done].
Qed.

Section qr.
Context `{QrJsonLaws, HexLaws, ClientRelayCrates, UuidTextLaws, !UuidShape, Sha256, TokenCrates}.
Context `{!TomlCodec ServerRegistryFile, !TomlLaws ServerRegistryFile, !RegistryText, !TomlCodec ClientRegistry, !ClientsText}.

(** A client whose RPC is handled by the server in state [sv]. *)
Definition server_rpc (ei : enroll_input) (c : caller) (sv : RemoteControlService) : EnrollRequest → option EnrollResponse :=
  λ req, match (enroll ei c req sv).2 with Ok r => Some r | Err _ => None end.

Lemma enroll_succeeds ei c sv tok cert name :
  live_token (ei_now ei) tok sv → enr_qr_code_enabled (sec_enrollment (cfg_security (sv_config sv))) = true →
  cert ≠ [] → ei_cert_write ei = WOk → ei_meta_write ei = WOk →
  ∃ sv2 info, enroll ei c (mkEnrollRequest tok cert name) sv = (sv2, Ok (mkEnrollResponse true (ei_client_id ei) "" info)) ∧
    enrolled cert sv2.
Proof.
  intros Hlive Hen Hcert Hw Hm. unfold enroll. rewrite Hen. cbn [negb er_enrollment_token er_client_certificate er_device_name].
  apply validate_and_consume_ok_iff in Hlive.
  destruct (validate_and_consume _ _ _) as [tokens checked]. cbn in Hlive. subst checked.
  rewrite bool_decide_eq_false_2 by done. rewrite Hw, Hm.
  pose proof (add_client_authorizes (ei_client_id ei) (ei_added_at ei) WOk cert name (client_ip c)
    (sv_fs (with_tokens tokens sv)) (sv_client_store (with_tokens tokens sv))) as Hadd.
  unfold add_client, save_registry in *. cbn [fs_write] in *.
  match goal with |- context [toml_to_string_pretty ?r] => pose proof (clients_text r) as Ht; destruct (toml_to_string_pretty r); [|done] end.
  cbn in *. by do 2 eexists.
Qed.

(** What the client reads in the code the server shows. *)
Lemma qr_payload_read qi sv sv1 resp : generate_enrollment_qr qi sv = Some (sv1, resp) → qr_success resp = true →
  let deadline := qi_now qi + duration_seconds_u64 (em_ttl_seconds (sv_enrollment_manager sv)) in
  is_Some (format_rfc3339 deadline) →
  ∃ raw, parse_qr_payload (qr_payload resp) = Some raw ∧ parse_expiry raw = Ok (Some deadline) ∧
    uuid_parse (wq_server_id raw) = Some (sv_server_id sv) ∧ wq_server_cert_fingerprint raw = fingerprint_display (sv_server_cert sv) ∧
    wq_enrollment_token raw = qr_enrollment_token resp ∧ wq_server_ips raw = Some (qr_server_ips resp) ∧
    wq_server_port raw = Some (qr_server_port resp) ∧ wq_hostname raw = None ∧ wq_server_ip raw = None.
Proof.
  intros Hq Hs deadline [text Hfmt]. unfold generate_enrollment_qr in Hq.
  destruct (negb _); [by simplify_eq|]. destruct (generate_token _ _ _ _) as [[ts t]|] eqn:Hg; [|done]. cbn in Hq.
  assert (et_expires_at t = deadline) as Hexp.
  { unfold generate_token in Hg. destruct (EnrollmentToken_new _ _ _) as [t'|] eqn:Hnew; [|done]. cbn in Hg. simplify_eq.
    apply EnrollmentToken_new_wf in Hnew as ((_ & Hexp) & Hcr & _). by rewrite Hexp, Hcr. }
  set (payload := EnrollmentQrPayload_new _ _ _ _ _ _ _) in Hq. unfold to_json in Hq.
  destruct (qr_json payload) as [json|] eqn:Hj; cbn [ok_or] in Hq; [|by simplify_eq]. injection Hq as <- <-.
  apply qr_json_read in Hj. exists (read_payload payload). split; [exact Hj|]. split_and!; try done.
  - unfold parse_expiry, read_payload. cbn. rewrite Hexp, Hfmt. cbn. by rewrite (rfc3339_read _ _ Hfmt).
  - apply uuid_parse_to_string.
Qed.

Lemma enrolled_fields id ip port now cid fp dir ips relay : ips ≠ [] →
  let e := loaded_entry (enrolled_entry id None ip port now cid fp dir ips relay) in
  sre_id e = id ∧ sre_client_id e = cid ∧ sre_port e = Some port ∧ sre_cert_fingerprint e = Some fp ∧ sre_addresses e = ips ∧
  sre_relay e = relay.
Proof. intros Hips. destruct ips as [|i ips]; [done|]. by destruct ip. Qed.

(** Finishing an enrolment at an address. *)
Lemma finalize_reliable env dir id relay cert addresses port fp cid new_relay connected expiry now w r0 :
  let p := cert_paths_in (server_dir dir id) in
  env_dir env = Some dir → reliable w → registry_on_disk dir (w_fs w) = Some r0 → addresses ≠ [] →
  ∃ w' out e r', finalize_qr_enrollment env relay p cert id None addresses port fp cid new_relay connected expiry now w = (w', Ok out) ∧
    qo_server_id out = id ∧ qo_client_id out = cid ∧
    credentials_on_disk p (ge_cert_pem cert) (ge_key_pem cert) fp (w_fs w') ∧
    registry_on_disk dir (w_fs w') = Some r' ∧ find_by_id id r' = Some e ∧ sre_client_id e = cid ∧ sre_port e = Some port ∧
    sre_cert_fingerprint e = Some fp ∧ sre_addresses e = addresses ∧
    sre_relay e = match new_relay with Some info => Some info | None => relay end.
Proof.
  intros p Hd Hw Hr Hne. unfold finalize_qr_enrollment. cbv zeta. set (entry := enrolled_entry _ _ _ _ _ _ _ _ _ _).
  destruct (store_enrollment_reliable env dir id (ge_cert_pem cert) (ge_key_pem cert) fp entry w r0 Hd Hw Hr) as (w' & E & Hc & Hr').
  fold p in E, Hc. rewrite (io_run _ _ _ _ _ E).
  destruct (enrolled_fields id (nonblank connected) port now cid fp (ct_dir p) addresses
    (match new_relay with Some info => Some info | None => relay end) Hne) as (_ & L1 & L2 & L3 & L4 & L5). fold entry in L1, L2, L3, L4, L5.
  do 2 eexists. exists (loaded_entry entry), (loaded (upsert entry r0)). split; [reflexivity|].
  assert (find_by_id id (loaded (upsert entry r0)) = Some (loaded_entry entry)) as Hfind.
  { rewrite find_by_id_map, registry_map_loaded, upsert_map, lookup_fmap. change (sre_id entry) with id.
    by rewrite lookup_insert_eq. }
  by split_and!.
Qed.

(** C3: Enrolment with a QR code works end to end.  The server shows a code; a
    client that scans it before the token's deadline, on a disk without errors,
    and that reaches the server at one of the advertised addresses while the others
    do not answer with the server's certificate, is enrolled: the server then
    accepts its certificate, the client's disk holds its key, its certificate and the
    server's fingerprint (which parses back to the server's own), and the registry
    on disk names the server with its id, the client id the server gave and the
    advertised addresses. *)
Theorem qr_enrolment_end_to_end version env dir input an w r0 qi sv sv1 resp ei c cid cert :
  generate_enrollment_qr qi sv = Some (sv1, resp) → qr_success resp = true →
  let deadline := qi_now qi + duration_seconds_u64 (em_ttl_seconds (sv_enrollment_manager sv)) in
  qi_cleanup_now qi <= deadline → ei_now ei <= deadline → is_Some (format_rfc3339 deadline) →
  ei_cert_write ei = WOk → ei_meta_write ei = WOk → ei_client_id ei = uuid_to_string cid → str_is_empty (uuid_to_string cid) = false →
  qn_payload input = qr_payload resp → qn_override_server_id input = None →
  let name := resolve_device_name (qn_device_name input) (qw_env an) (qw_hostname an) in
  rcgen_certificate name (qn_device_model input) (qw_key an) = Some cert → ge_der cert ≠ [] →
  env_dir env = Some dir → reliable w → registry_on_disk dir (w_fs w) = Some r0 →
  let fp := fingerprint_display (sv_server_cert sv) in
  let connects a := is_ok (connect_unauthenticated a (qr_server_port resp) fp (ea_net (qw_direct an a))) in
  (∀ a, a ∈ qr_server_ips resp → connects a = true → ea_rpc (qw_direct an a) = server_rpc ei c sv1) →
  (∃ a, a ∈ qr_server_ips resp ∧ connects a = true) →
  let sv2 := (enroll ei c (mkEnrollRequest (qr_enrollment_token resp) (ge_der cert) name) sv1).1 in
  let p := cert_paths_in (server_dir dir (sv_server_id sv)) in
  ∃ w' out e r', enroll_via_qr version env input an w = (w', Ok out) ∧
    qo_server_id out = sv_server_id sv ∧ qo_client_id out = Some cid ∧ enrolled (ge_der cert) sv2 ∧
    credentials_on_disk p (ge_cert_pem cert) (ge_key_pem cert) fp (w_fs w') ∧
    parse_fingerprint (trim fp) = Ok (sc_fingerprint (sv_server_cert sv)) ∧
    registry_on_disk dir (w_fs w') = Some r' ∧ find_by_id (sv_server_id sv) r' = Some e ∧ sre_client_id e = Some cid ∧
    sre_port e = Some (qr_server_port resp) ∧ sre_cert_fingerprint e = Some fp ∧ sre_addresses e = dedup (qr_server_ips resp).
Proof.
  intros Hq Hs deadline Hcl Hn Hfmt Hw1 Hw2 Hcid Hcne Hpl Hov name Hgen Hder Hd Hw Hr fp connects Hrpc Hex sv2 p.
  destruct (qr_token_live qi sv sv1 resp (ei_now ei) Hq Hs Hcl Hn) as [Hlive Hen].
  destruct (enroll_succeeds ei c sv1 _ (ge_der cert) name Hlive Hen Hder Hw1 Hw2) as (sv2' & info & He & Henr).
  destruct (qr_payload_read qi sv sv1 resp Hq Hs Hfmt) as (raw & Hraw & Hexp & Hid & Hfp & Htok & Hips & Hport & Hhost & Hip).
  set (ips := qr_server_ips resp) in *.
  assert (ips ≠ []) as Hne by (destruct Hex as (a & Ha & _); intros Heq; rewrite Heq in Ha; by apply not_elem_of_nil in Ha).
  assert (dedup (payload_addresses raw) = dedup ips) as Hpa
    by (unfold payload_addresses; rewrite Hips, Hhost, Hip; by destruct ips).
  assert (dedup ips ≠ []) as Hdn.
  { destruct Hex as (a & Ha & _). intros Heq. apply elem_of_dedup in Ha. rewrite Heq in Ha. by apply not_elem_of_nil in Ha. }
  unfold enroll_via_qr. rewrite Hpl, (io_run_lift _ _ _ raw), (io_run_lift _ _ _ _ Hexp) by by rewrite Hraw.
  rewrite Hov, (io_run_lift _ _ _ (sv_server_id sv)) by by rewrite Hid.
  cbv zeta. rewrite Hpa, (io_run_lift _ _ _ tt) by by rewrite bool_decide_eq_false_2.
  destruct (for_server_reliable env dir (sv_server_id sv) w Hd Hw) as (w1 & E1 & F1 & R1 & D1). rewrite (io_run _ _ _ _ _ E1).
  fold p. fold name. rewrite (io_run_lift _ _ _ cert) by (unfold generate_client_certificate; cbn; by rewrite Hgen).
  rewrite Hfp, Htok. fold fp. assert (payload_port raw = qr_server_port resp) as -> by (unfold payload_port; by rewrite Hport).
  set (try := λ address, attempt_qr_enrollment _ _ _ _ _ _ _).
  assert (∀ a, a ∈ ips → connects a = true → try a = Ok (Some cid, relay_from_proto <$> info)) as Htry.
  { intros a Ha Hc. unfold try, attempt_qr_enrollment. specialize (Hrpc a Ha Hc). unfold connects in Hc.
    destruct (connect_unauthenticated _ _ _ _); [|done]. cbn [mbind result_bind]. unfold complete_enrollment_request. rewrite Hrpc.
    unfold server_rpc. rewrite He. cbn [snd ok_or mbind result_bind es_success negb bail_if es_client_id es_relay_info].
    unfold parse_client_id. rewrite Hcid, Hcne, uuid_parse_to_string. done. }
  destruct (try_addresses_first try [] (dedup ips) (Some cid, relay_from_proto <$> info)) as (a & Ha & Et).
  { intros a Ha Hok. apply Htry; [by apply elem_of_dedup|]. unfold try, attempt_qr_enrollment in Hok. unfold connects.
    by destruct (connect_unauthenticated _ _ _ _). }
  { destruct Hex as (a & Ha & Hc). exists a. rewrite elem_of_dedup. split; [done|]. by rewrite Htry. }
  rewrite Et, Hhost.
  edestruct (finalize_reliable env dir (sv_server_id sv)) as (w' & out & e & r' & Ef & L1 & L2 & L3 & L4 & L5 & L6 & L7 & L8 & L9 & _);
    [exact Hd|exact R1|by rewrite D1|exact Hdn|].
  exists w', out, e, r'. split; [exact Ef|]. subst sv2. rewrite He. split_and!; try done.
  subst fp. rewrite fingerprint_display_trim. apply fingerprint_roundtrip.
Qed.
End qr.

(** ** The relay after enrolment *)
(** The relay information of the server's answer replaces that of the QR code and has
    neither the permission for a self-signed certificate nor the pin: a relay with a
    self-signed certificate, which the QR code's settings accept, is refused. *)
Section relay_trust.
Context `{ClientRelayCrates, UuidText, Sha256, HexEncode}.

Lemma enrolment_forgets_relay_trust rpc der name tok cid new version sid id url an :
  complete_enrollment_request rpc der name tok = Ok (cid, Some new) →
  build_connect_url (rr_relay_url new) = Ok url → u_scheme url = "wss" → peer_webpki (ra_peer an) = false →
  (establish_relay_tunnel version new sid id an).2 = Err "Failed to establish WebSocket to relay" ∧
  ∀ details, rr_allow_self_signed_tls details = true → ra_connect an true = WsOk →
    open_websocket url (client_tls_connector (rr_allow_self_signed_tls details) None) an = Ok tt.
Proof.
  intros E Hurl Hs Hp. unfold complete_enrollment_request in E. apply result_bind_ok in E as (resp & _ & E).
  apply bail_then in E as [_ E]. apply result_bind_ok in E as (c & _ & [= _ E]).
  destruct (es_relay_info resp) as [info|]; [|done]. injection E as <-. unfold establish_relay_tunnel.
  cbn [relay_from_proto rr_relay_url] in *. split.
  - rewrite Hurl. cbn [mbind result_bind parse_pinned_cert_sha256 rr_pinned_cert_sha256 relay_from_proto rr_allow_self_signed_tls].
    unfold open_websocket, connect_websocket. rewrite bool_decide_eq_true_2 by done. cbn. by rewrite Hp.
  - intros details Ha Hok. rewrite Ha. unfold open_websocket, connect_websocket. rewrite bool_decide_eq_true_2 by done. cbn. by rewrite Hok.
Qed.
End relay_trust.

(** ** Enrolment by approval *)
Section approval.
Context `{EnrollCrates, HexLaws, ClientRelayCrates, UuidTextLaws, !UuidShape, Sha256Laws}.
Context `{!TomlCodec ServerRegistryFile}.

Lemma connect_unverified_peer address port an conn : connect_unverified address port an = Ok conn →
  na_peer an = Some (cr_peer conn) ∧ cr_fingerprint conn = sha256 (peer_cert (cr_peer conn)).
Proof.
  unfold connect_unverified, connect_channel. cbn [build_tls_config mbind result_bind]. intros E.
  apply result_bind_ok in E as ([[uri sa] sn] & _ & E). rewrite !bail_then in E. destruct E as (_ & _ & E).
  apply result_bind_ok in E as ([p f] & Ht%ok_or_ok & [= <-]). unfold tls_connect in Ht.
  apply bind_Some in Ht as (p' & Hp & Ht). apply bind_Some in Ht as (f' & [= <-] & Ht). destruct (_ && _); [|done].
  by injection Ht as <- <-.
Qed.

(** What the client checked before it shows a code. *)
Lemma negotiate_ok address port hint der name model timeout an offer :
  negotiate address port hint der name model timeout an = Some (Ok offer) →
  ∃ p, na_peer (aa_net an) = Some p ∧ po_fingerprint offer = sha256 (peer_cert p) ∧
    compute_verification_code der (po_fingerprint offer) (po_server_id offer) (po_nonce offer) = Some (Ok (po_code offer)) ∧
    ∃ server_timeout, po_deadline offer = effective_deadline (aa_start an) timeout server_timeout.
Proof.
  unfold negotiate. intros E. match type of E with match ?m with _ => _ end = _ => destruct m as [[[info sid] resp]|] eqn:Hm; [|done] end.
  apply result_bind_ok in Hm as (conn & [Hp Hf]%connect_unverified_peer & Hm). apply result_bind_ok in Hm as (info' & _ & Hm).
  apply result_bind_ok in Hm as (sid' & _ & Hm). apply result_bind_ok in Hm as (u & _ & Hm).
  apply result_bind_ok in Hm as (resp' & _ & Hm). rewrite !bail_then in Hm. destruct Hm as (_ & _ & _ & Hfp & [= -> -> ->]).
  rewrite bool_decide_ne_false in Hfp. apply bind_Some in E as (code & Hcode & E).
  injection E as E. apply result_bind_ok in E as (local & -> & E). apply bail_then in E as [_ [= <-]].
  cbn. exists (cr_peer conn). rewrite <-Hfp, <-Hf. rewrite <-Hfp in Hcode. split_and!; try done. by eexists.
Qed.

Lemma poll_approved deadline polls st : poll_approval deadline polls = Approved_ st →
  ∃ now, (Some st, now) ∈ polls ∧ cps_status st = 2.
Proof.
  induction polls as [|[[s|] now] polls IH]; cbn; [done| |done].
  destruct (cps_status s =? 2) eqn:E2; [intros [= ->]; exists now; split; [set_solver|by apply Z.eqb_eq]|].
  destruct (_ =? 3); [done|]. destruct (_ =? 4); [done|]. destruct (deadline <=? now); [done|].
  intros (n & ? & ?)%IH. exists n. split; [set_solver|done].
Qed.

Lemma store_enrollment_pins env dir id cert key fp entry w w' : env_dir env = Some dir →
  let p := cert_paths_in (server_dir dir id) in
  store_enrollment env p cert key fp entry w = (w', Ok tt) → fs_files (w_fs w') !! ct_server_fingerprint p = Some (to_bytes fp).
Proof.
  intros Hd p E. unfold store_enrollment in E. apply io_bind_ok in E as (w1 & ? & _ & E).
  apply io_bind_ok in E as (w2 & ? & E2%io_write_ok & E). destruct (below_cert_paths dir id) as (_ & _ & B). fold p in B.
  destruct (registry_io_keeps_file env dir _ (Some (to_bytes fp)) Hd B) as [Hl Hs].
  assert (file_is (ct_server_fingerprint p) (Some (to_bytes fp)) w2) as Hf by (unfold file_is; rewrite E2; apply lookup_insert_eq).
  apply io_bind_ok in E as (w3 & r & E3 & E). specialize (Hl w2 Hf). rewrite E3 in Hl. specialize (Hs (upsert entry r) w3 Hl).
  by rewrite E in Hs.
Qed.

(** C23: The verification code vouches for the pin.  If an attempt to enrol by
    approval succeeds, in any network and with any disk, then one code was shown,
    it is the code of the client's certificate, the server id and the fingerprint of
    the certificate the TLS peer presented, the server answered that the request was
    approved, and the fingerprint pinned on disk for all later connections is that
    of the same certificate. *)
Theorem approval_pins_what_the_code_covers env address port hint all cert name model timeout an w codes w' out :
  attempt_approval_enrollment env address port hint all cert name model timeout an w = (codes, Some (w', Ok out)) →
  codes = [ao_verification_code out] ∧
  ∃ p nonce, na_peer (aa_net an) = Some p ∧
    let fp := sha256 (peer_cert p) in
    compute_verification_code (ge_der cert) fp (ao_server_id out) nonce = Some (Ok (ao_verification_code out)) ∧
    (∃ st now, (Some st, now) ∈ aa_polls an ∧ cps_status st = 2) ∧
    ∃ text, fs_files (w_fs w') !! ct_server_fingerprint (cert_paths_in (ao_cert_directory out)) = Some (to_bytes text) ∧
      parse_fingerprint (trim text) = Ok fp.
Proof.
  unfold attempt_approval_enrollment. destruct (negotiate _ _ _ _ _ _ _ _) as [[offer|e]|] eqn:Hn; [|done..].
  apply negotiate_ok in Hn as (p & Hp & Hfp & Hcode & _). destruct (poll_approval _ _) as [st|e|] eqn:Hpoll; [|done..].
  cbv zeta. intros [= <- E]. apply io_bind_ok in E as (w1 & cid & _ & E).
  apply io_bind_ok in E as (w2 & paths & (dir & Hd & ->)%for_server_dir & E).
  apply io_bind_ok in E as (w3 & [] & Hs%(store_enrollment_pins env dir _ _ _ _ _ _ _ Hd) & [= <- <-]).
  split; [done|]. exists p, (po_nonce offer). cbn [ao_verification_code ao_server_id ao_cert_directory ct_dir cert_paths_in].
  split_and!; [done|by rewrite <-Hfp| |].
  - apply poll_approved in Hpoll as (now & ? & ?). eauto.
  - eexists. split; [exact Hs|]. change (format_fingerprint_bytes ?b) with (String.append "SHA256:" (hex_string b)).
    rewrite trim_visible by apply fingerprint_text_visible. rewrite <-Hfp. apply parse_fingerprint_text.
Qed.

(** *** Polling ends *)
(** Clock readings of successive polls: the loop sleeps in between. *)
Fixpoint paced {A} (interval t : Z) (polls : list (A * Z)) : Prop :=
  match polls with
  | [] => True
  | (_, now) :: rest => t <= now ∧ paced interval (now + interval) rest
  end.

Lemma poll_approval_ends deadline interval t polls : 0 < interval → paced interval t polls →
  deadline <= t + (Z.of_nat (length polls) - 1) * interval → polls ≠ [] → poll_approval deadline polls ≠ StillPolling.
Proof.
  intros Hi. revert t. induction polls as [|[[st|] now] polls IH]; intros t Hp Hd Hne; [done| |done]. cbn [poll_approval].
  destruct (_ =? 2); [done|]. destruct (_ =? 3); [done|]. destruct (_ =? 4); [done|].
  destruct (deadline <=? now) eqn:E; [done|]. apply Z.leb_gt in E. destruct Hp as [Ht Hp]. cbn [length] in Hd.
  destruct polls as [|x polls]; [cbn in Hd; lia|]. apply (IH (now + interval)); [done| |done]. cbn [length] in *. nia.
Qed.

Lemma effective_interval_pos i : 0 <= i → 0 < effective_interval i.
Proof. unfold effective_interval, NANOS. destruct (i =? 0) eqn:E; lia. Qed.
Lemma effective_deadline_bound start timeout st : effective_deadline start timeout st <= start + timeout.
Proof. unfold effective_deadline. cbv zeta. destruct (0 <? st); lia. Qed.

Lemma attempt_ends env address port hint all cert name model timeout interval an w :
  0 <= interval → 0 <= timeout → paced (effective_interval interval) (aa_start an) (aa_polls an) →
  timeout / effective_interval interval + 1 < Z.of_nat (length (aa_polls an)) →
  (attempt_approval_enrollment env address port hint all cert name model timeout an w).2 ≠ None.
Proof.
  intros Hi Ht Hp Hl. unfold attempt_approval_enrollment.
  destruct (negotiate _ _ _ _ _ _ _ _) as [[offer|e]|] eqn:Hn; cbn [snd]; [|done|].
  - apply negotiate_ok in Hn as (_ & _ & _ & _ & st & Hd). pose proof (effective_interval_pos interval Hi) as Hpos.
    pose proof (effective_deadline_bound (aa_start an) timeout st) as Hb.
    assert (poll_approval (po_deadline offer) (aa_polls an) ≠ StillPolling) as Hne.
    { apply (poll_approval_ends _ (effective_interval interval) (aa_start an)); [done..| |].
      - rewrite Hd. pose proof (Z.mul_succ_div_gt timeout _ Hpos). nia.
      - intros Heq. rewrite Heq in Hl. cbn [length] in Hl. pose proof (Z.div_pos timeout _ Ht Hpos). lia. }
    by destruct (poll_approval _ _).
  - exfalso. unfold negotiate in Hn. destruct (connect_unverified _ _ _ ≫= _) as [[[info sid] resp]|]; [|done].
    apply bind_None in Hn as [Hn|(? & _ & Hn)]; [|done]. unfold compute_verification_code in Hn.
    destruct (bool_decide _); [done|]. destruct (negb _); [done|]. apply bind_None in Hn as [Hn|(? & _ & Hn)]; [|done].
    match type of Hn with code_of_hash (sha256 ?b) = _ => destruct (code_of_hash_digest b) as [? Hc] end. by rewrite Hc in Hn.
Qed.

Lemma try_approvals_ends try l err w : (∀ a w, a ∈ l → (try a w).2 ≠ None) → (try_approvals try l err w).2 ≠ None.
Proof.
  revert err w. induction l as [|a l IH]; intros err w Hall; [done|]. cbn [try_approvals].
  pose proof (Hall a w ltac:(set_solver)) as Ha. destruct (try a w) as [codes [[w1 [out|e]]|]]; [done| |done].
  specialize (IH (Some e) w1 ltac:(set_solver)). by destruct (try_approvals try l (Some e) w1).
Qed.

(** Waiting for approval is bounded.  However the servers answer, if each
    attempt gets more than timeout / interval + 1 polls, spaced by at least the
    poll interval (one second when it is given as zero), enrolment by approval has
    ended with a result: it never waits beyond the requested time-out, whatever
    time-out a server announces. *)
Lemma approval_polling_is_bounded env input an w :
  0 <= an_poll_interval input → 0 <= an_timeout input →
  let interval := effective_interval (an_poll_interval input) in
  (∀ a, a ∈ an_addresses input → paced interval (aa_start (aw_answers an a)) (aa_polls (aw_answers an a)) ∧
     an_timeout input / interval + 1 < Z.of_nat (length (aa_polls (aw_answers an a)))) →
  is_Some (enroll_via_approval env input an w).2.
Proof.
  intros Hi Ht interval Hpolls. apply not_eq_None_Some. unfold enroll_via_approval. case_bool_decide; [done|].
  destruct (generate_client_certificate _ _ _) as [cert|]; [|done]. cbv zeta. apply try_approvals_ends. intros a w' Ha.
  destruct (Hpolls a Ha) as [Hp Hl]. by apply (attempt_ends _ _ _ _ _ _ _ _ _ (an_poll_interval input)).
Qed.

(** *** With the server's handler *)
Definition pairing_rpc (pi : pairing_input) (c : caller) (sv : RemoteControlService) : RequestPairingRequest → option RequestPairingResponse :=
  λ req, match request_pairing pi c req sv with Some (_, Ok r) => Some r | _ => None end.

Lemma request_pairing_ok pi c name model der sv sv1 resp :
  cert_wf (sv_server_cert sv) → pi_nonce pi ≠ [] →
  request_pairing pi c (mkRequestPairingRequest name model der "") sv = Some (sv1, Ok resp) → rps_pending resp = true →
  ∃ r code, pm_requests (sv_pairing_manager sv1) !! pi_request_id pi = Some r ∧ pr_client_certificate r = der ∧
    pr_verification_code r = code ∧ pr_status r = Pending ∧
    resp = mkRequestPairingResponse true (pi_request_id pi)
             (wrap_i 32 (enr_approval_timeout_seconds (sec_enrollment (cfg_security (sv_config sv))))) code
             (sc_fingerprint (sv_server_cert sv)) "" (pi_nonce pi) ∧
    compute_verification_code der (sc_fingerprint (sv_server_cert sv)) (sv_server_id sv) (pi_nonce pi) = Some (Ok code).
Proof.
  intros Hwf Hn E Hpend. unfold request_pairing in E. destruct (negb _); [by simplify_eq|]. case_bool_decide; [done|].
  cbn [rpr_client_certificate rpr_verification_code] in *.
  destruct (verification_codes_agree der (sc_cert_der (sv_server_cert sv)) (sv_server_id sv) (pi_nonce pi) Hn)
    as (a & b & Hg & Hc & _).
  rewrite Hg in E. cbn [mbind option_bind str_is_empty negb andb] in E. unfold create_request in E.
  destruct (PairingRequest_new _ _ _ _ _ _ _ _) as [r|] eqn:Hr; [|done]. cbn [mbind option_bind] in E. injection E as <- <-.
  unfold PairingRequest_new in Hr. destruct (odt_add _ _); [|done]. cbn in Hr. injection Hr as <-. do 2 eexists. cbn.
  rewrite lookup_insert_eq. rewrite Hwf. by split_and!.
Qed.

(** The device and the server show the same code.  When a client reaches the
    server itself (the TLS peer presents the server's certificate) and the server
    takes its pairing request, every check of the client passes; the code it shows is
    the one the server stored with the pending request for the client's certificate,
    and it goes on to poll that request and will pin the server's fingerprint. *)
Lemma approval_code_matches_server address port hint der name model timeout an pi c sv sv1 resp conn info :
  cert_wf (sv_server_cert sv) → pi_nonce pi ≠ [] → str_is_empty (pi_request_id pi) = false →
  connect_unverified address port (aa_net an) = Ok conn → peer_cert (cr_peer conn) = sc_cert_der (sv_server_cert sv) →
  aa_info an = Some info → in_server_id info = uuid_to_string (sv_server_id sv) →
  (hint = None ∨ hint = Some (sv_server_id sv)) →
  aa_pairing an = pairing_rpc pi c sv →
  request_pairing pi c (mkRequestPairingRequest name (default "" model) der "") sv = Some (sv1, Ok resp) → rps_pending resp = true →
  ∃ offer r, negotiate address port hint der name model timeout an = Some (Ok offer) ∧
    po_request_id offer = pi_request_id pi ∧ pm_requests (sv_pairing_manager sv1) !! po_request_id offer = Some r ∧
    pr_client_certificate r = der ∧ pr_status r = Pending ∧ po_code offer = pr_verification_code r ∧
    po_fingerprint offer = sc_fingerprint (sv_server_cert sv) ∧ po_server_id offer = sv_server_id sv.
Proof.
  intros Hwf Hnn Hid Hconn Hpeer Hinfo Hsid Hhint Hrpc Hreq Hpend.
  destruct (request_pairing_ok _ _ _ _ _ _ _ _ Hwf Hnn Hreq Hpend) as (r & code & Hr & Hder & Hcode & Hst & -> & Hcomp).
  assert (cr_fingerprint conn = sc_fingerprint (sv_server_cert sv)) as Hfp.
  { apply connect_unverified_peer in Hconn as [_ ->]. rewrite Hpeer. by rewrite Hwf. }
  assert (sc_fingerprint (sv_server_cert sv) ≠ []) as Hne.
  { rewrite Hwf. unfold compute_fingerprint. intros E%(f_equal length). by rewrite sha256_length in E. }
  unfold negotiate. rewrite Hconn, Hinfo, Hrpc. cbn [mbind result_bind ok_or]. rewrite Hsid, uuid_parse_to_string.
  cbn [mbind result_bind ok_or]. assert (check_server_id hint (sv_server_id sv) = Ok tt) as ->.
  { destruct Hhint as [->| ->]; [done|]. cbn. by rewrite bool_decide_ne_false_2. }
  unfold pairing_rpc. rewrite Hreq.
  cbn [mbind result_bind ok_or rps_pairing_request_id rps_server_cert_fingerprint rps_verification_nonce rps_verification_code].
  rewrite Hid, Hfp, bool_decide_ne_false_2, !bool_decide_eq_false_2 by done.
  cbn [bail_if mbind result_bind rps_server_cert_fingerprint rps_verification_nonce rps_verification_code].
  rewrite Hcomp. cbn [mbind option_bind result_bind]. rewrite bool_decide_ne_false_2, andb_false_r by done.
  eexists _, r. cbn. by split_and!.
Qed.
End approval.

(** ** Witnesses *)
Lemma bits_visible p : string_forall visible (bits_of_pos p) = true.
Proof. induction p as [p IH|p IH|]; cbn; [by rewrite IH..|done]. Qed.
Lemma demo_unhex_string b : demo_unhex (hex_string b) = Some b.
Proof.
  induction b as [|x b IH]; [done|]. cbn [hex_string foldr]. fold (hex_string b).
  assert (demo_unhex (String.append (hex_byte x) (hex_string b)) = l ← demo_unhex (hex_string b); Some (x :: l)) as ->
    by (by destruct x).
  by rewrite IH.
Qed.

#[local] Instance lower_hex : HexEncode := hex_string.
#[local] Existing Instance demo_grpc.
Lemma demo_hex_laws : HexLaws.
Proof. split; [done|apply demo_unhex_string]. Qed.
#[local] Existing Instance demo_registry_codec.
Lemma demo_registry_text : RegistryText.
Proof.
  intros file. eexists. split; [reflexivity|]. rewrite trim_visible by apply bits_visible. destruct file as [[l|]]; [|done].
  change (str_is_empty (bits_of_pos (Pos.succ (encode l))) = true → Some l = None).
  by destruct (Pos.succ (encode l)) eqn:E; [..|apply Pos.succ_not_1 in E].
Qed.
Definition enc_bool (b : bool) : string := if b then "1" else "0".
Definition dec_bool (s : string) : bool := bool_decide (s = "1").
Definition enc_relay (r : RelayQrInfo) : string :=
  enc_fields [rq_relay_url r; rq_relay_token r; enc_bool (rq_relay_required r); enc_bool (rq_allow_self_signed_tls r);
              enc_opt (rq_pinned_cert_sha256 r)].
Definition dec_relay (s : string) : option RelayQrInfo :=
  l ← dec_fields s;
  match l with
  | [url; token; required; self_signed; pin] =>
      pin ← dec_opt pin; Some (mkRelayQrInfo url token (dec_bool required) (dec_bool self_signed) pin)
  | _ => None
  end.
Definition enc_payload (p : EnrollmentQrPayload) : string :=
  enc_fields [enc_fields (eq_ips p); enc_Z (eq_port p); eq_cert_fingerprint p; eq_enrollment_token p; eq_server_id p;
              eq_valid_until p; enc_opt (enc_relay <$> eq_relay p)].
Definition dec_payload (s : string) : option EnrollmentQrPayload :=
  l ← dec_fields s;
  match l with
  | [ips; port; fp; token; id; valid; relay] =>
      ips ← dec_fields ips; port ← dec_Z port; relay ← dec_opt relay;
      relay ← match relay with Some r => Some <$> dec_relay r | None => Some None end;
      Some (mkEnrollmentQrPayload ips port fp token id valid relay)
  | _ => None
  end.
Lemma dec_enc_payload p : dec_payload (enc_payload p) = Some p.
Proof.
  unfold dec_payload, enc_payload. rewrite dec_enc_fields. cbn [mbind option_bind]. rewrite dec_enc_fields, dec_enc_Z, dec_enc_opt.
  cbn [mbind option_bind]. destruct p as [ips port fp token id valid [[url tok [] [] pin]|]]; cbn [eq_relay fmap option_fmap option_map];
    [..|done]; unfold dec_relay, enc_relay; rewrite dec_enc_fields; cbn [mbind option_bind rq_pinned_cert_sha256];
    by rewrite dec_enc_opt.
Qed.
#[local] Instance qr_crates : QrCrates :=
  {| format_rfc3339 t := Some (enc_Z t); odt_to_string := enc_Z; qr_json p := Some (enc_payload p) |}.
#[local] Instance enroll_crates : EnrollCrates := {|
  parse_qr_payload s := read_payload <$> dec_payload s;
  rfc3339_parse := dec_Z;
  rfc3339_format t := Some (enc_Z t);
  rcgen_certificate _ _ key := Some (mkGenerated (x07 :: key) "certificate" "key");
|}.
Lemma demo_qr_json_laws : QrJsonLaws.
Proof. split; [intros p s [= <-]; cbn [parse_qr_payload enroll_crates]; by rewrite dec_enc_payload|intros t s [= <-]; apply dec_enc_Z]. Qed.
#[local] Existing Instance demo_client_relay.
#[local] Existing Instance demo_uuid.
#[local] Existing Instance demo_uuid_laws.
#[local] Existing Instance demo_uuid_shape.
#[local] Existing Instance demo_sha256.
#[local] Existing Instance demo_sha256_laws.
#[local] Existing Instance demo_tokens.
#[local] Existing Instance demo_hex_laws.
#[local] Existing Instance demo_registry_text.
#[local] Existing Instance demo_registry_laws.
#[local] Existing Instance demo_qr_json_laws.
#[local] Instance clients_codec : TomlCodec ClientRegistry :=
  {| toml_to_string_pretty _ := Ok ""; toml_from_str _ := Ok ClientRegistry_default |}.
#[local] Instance demo_clients_text : ClientsText.
Proof. done. Qed.

Definition flow_service : RemoteControlService :=
  mkService strict_config (mkServerCertificate [x2a] [] (sha256 [x2a])) 7%N demo_fs demo_store (EnrollmentTokenManager_new 300)
    (PairingRequestManager_new 60) 1 0 None demo_open.
Definition flow_qr : qr_input := mkQrInput 0 0 "token" None 0 0.
Definition flow_enroll : enroll_input := mkEnrollInput 1 (uuid_to_string 9%N) 1 WOk WOk 1.
Definition flow_net : net_answers := mkNetAnswers true (Some (mkPeer [x2a] true false)) true.
Definition flow_answers (sv : RemoteControlService) : qr_world :=
  mkQrWorld (λ _, mkEnrollAnswers flow_net demo_relay_answers (server_rpc flow_enroll anonymous sv))
    (mkEnrollAnswers flow_net demo_relay_answers (λ _, None)) (λ _, None) None [] 5.

Definition flow_after_qr : RemoteControlService * GenerateEnrollmentQrResponse :=
  default (flow_service, qr_refused "") (generate_enrollment_qr flow_qr flow_service).
Definition flow_input : QrEnrollmentInput := mkQrEnrollmentInput (qr_payload flow_after_qr.2) None None None.

Lemma qr_enrolment_end_to_end_witness : ∃ w' out,
  enroll_via_qr "1.0" demo_env flow_input (flow_answers flow_after_qr.1) demo_world = (w', Ok out) ∧ qo_client_id out = Some 9%N.
Proof.
  edestruct (qr_enrolment_end_to_end "1.0" demo_env "/cfg" flow_input (flow_answers flow_after_qr.1)
    demo_world (mkServerRegistry []) flow_qr flow_service flow_after_qr.1 flow_after_qr.2 flow_enroll anonymous 9%N
    (mkGenerated [x07] "certificate" "key")) as (w' & out & e & r' & E & _ & Hc & _).
  1, 2, 6-9: (vm_compute; reflexivity).
  1, 2: (vm_compute; discriminate).
  - eexists. reflexivity.
  - reflexivity.
  - reflexivity.
  - reflexivity.
  - discriminate.
  - reflexivity.
  - exact demo_world_reliable.
  - vm_compute. reflexivity.
  - intros a _ _. reflexivity.
  - exists "10.0.0.1". split; [apply list_elem_of_singleton; vm_compute; reflexivity|vm_compute; reflexivity].
  - exists w', out. split; [exact E|exact Hc].
Defined.

#[local] Instance blank_codec : TomlCodec ServerRegistryFile :=
  {| toml_to_string_pretty _ := Ok ""; toml_from_str _ := Err "unsupported" |}.
Definition flow_pairing : pairing_input := mkPairingInput [x06] 0 0 "request".
Definition pending_poll : option CheckPairingStatusResponse := Some (mkCheckPairingStatusResponse 1 "" "" None).
Definition approved_poll : option CheckPairingStatusResponse := Some (mkCheckPairingStatusResponse 2 (uuid_to_string 9%N) "" None).
Definition approval_of (polls : list (option CheckPairingStatusResponse * Z)) : approval_answers :=
  mkApprovalAnswers flow_net (Some (mkInfoResponse (uuid_to_string 7%N) "" "" "")) (pairing_rpc flow_pairing anonymous flow_service) 0 polls 5.

Lemma approval_code_matches_server_witness : ∃ offer,
  negotiate "10.0.0.1" 50051 None [x07] "phone" None NANOS (approval_of []) = Some (Ok offer) ∧ po_request_id offer = "request".
Proof.
  edestruct (approval_code_matches_server "10.0.0.1" 50051 None [x07] "phone" None NANOS (approval_of []) flow_pairing anonymous
    flow_service) as (offer & r & Hn & Hid & _).
  - reflexivity.
  - discriminate.
  - reflexivity.
  - vm_compute. reflexivity.
  - reflexivity.
  - reflexivity.
  - reflexivity.
  - left. reflexivity.
  - reflexivity.
  - vm_compute. reflexivity.
  - reflexivity.
  - exists offer. split; [exact Hn|exact Hid].
Defined.

Definition demo_cert : generated := mkGenerated [x07] "certificate" "key".
Definition demo_attempt : list string * option (World * result string ApprovalEnrollmentOutcome) :=
  attempt_approval_enrollment demo_env "10.0.0.1" 50051 None ["10.0.0.1"] demo_cert "phone" None NANOS
    (approval_of [(pending_poll, 0); (approved_poll, 1)]) demo_world.

Lemma approval_pins_what_the_code_covers_witness : ∃ codes w' out,
  demo_attempt = (codes, Some (w', Ok out)) ∧ codes = [ao_verification_code out].
Proof.
  destruct demo_attempt as [codes [[w' [out|e]]|]] eqn:E; [|vm_compute in E; discriminate E..].
  exists codes, w', out. split; [reflexivity|].
  exact (proj1 (approval_pins_what_the_code_covers demo_env "10.0.0.1" 50051 None ["10.0.0.1"] demo_cert "phone" None NANOS _ demo_world
    codes w' out E)).
Defined.

Definition demo_wait : ApprovalEnrollmentInput := mkApprovalEnrollmentInput ["10.0.0.1"] None None None None (2 * NANOS) 0.
Definition demo_waiting : approval_world :=
  mkApprovalWorld (λ _, approval_of [(pending_poll, 0); (pending_poll, NANOS); (pending_poll, 2 * NANOS); (pending_poll, 3 * NANOS)])
    (λ _, None) None [].
Lemma approval_polling_is_bounded_witness : is_Some (enroll_via_approval demo_env demo_wait demo_waiting demo_world).2.
Proof.
  apply (approval_polling_is_bounded demo_env demo_wait demo_waiting demo_world).
  - vm_compute. discriminate.
  - vm_compute. discriminate.
  - intros a _. split; [|vm_compute; reflexivity]. repeat split; vm_compute; discriminate.
Defined.
