(* ===== verification/ClientCommands.v ===== *)
(** * Commands and sessions of the client library (client-lib/src/commands.rs)

    Reading the server's capabilities, checking parameters, and the client's end of
    a session.  A response stream is the list of what [message()] returns, an error
    or a message; its end is the end of the list.  Connecting is [ClientConnect]; the
    server's answer to the first message of a session is an input. *)

From S2P Require Import Prelude RustStd ThirdParty Fs Io Config Validation SessionState RelayTokens ClientConfig ClientStorage ClientRelay ClientConnect Proto.

Local Open Scope string_scope.
Local Open Scope Z_scope.

(** ** Data *)
Inductive CommandParameterType := CptSlider | CptText | CptToggle | CptDropdown.
Inductive CommandKind := CkShellScript | CkShellInteractive | CkFileTransfer | CkUnknown.
Inductive CommandSessionMode := CsOneShot | CsRealtime | CsUpload | CsDownload | CsUnknown.
#[export] Instance CommandSessionMode_eq_dec : EqDecision CommandSessionMode.
Proof. solve_decision. Defined.
#[export] Instance CommandKind_eq_dec : EqDecision CommandKind.
Proof. solve_decision. Defined.

Record CommandParameter := mkCommandParameter {
  ca_name : string;
  ca_description : option string;
  ca_param_type : CommandParameterType;
  ca_min : option Z;
  ca_max : option Z;
  ca_default_value : option string;
  ca_validation : option string;
  ca_options : list string;
  ca_label_on : option string;
  ca_label_off : option string;
  ca_default_value_command : option string;
  ca_default_value_pattern : option string;
}.
Record CommandSummary := mkCommandSummary {
  cu_id : string;
  cu_name : string;
  cu_description : option string;
  cu_icon : option string;
  cu_tags : list string;
  cu_parameters : list CommandParameter;
  cu_requires_confirmation : bool;
  cu_show_output : bool;
  cu_privileged : bool;
  cu_kind : CommandKind;
  cu_session_mode : CommandSessionMode;
}.
Record CommandList := mkCommandList { cl_config_version : Z; cl_commands : list CommandSummary }.
Inductive CommandStreamEvent := EvStdout (text : string) | EvStderr (text : string).

Record ServerSessionInfo := mkServerSessionInfo {
  sv_session_id : string;
  sv_capability_id : string;
  sv_capability_name : string;
  sv_session_mode : CommandSessionMode;
  sv_owner_fingerprint : option string;
  sv_created_at_ms : Z;
  sv_last_activity_ms : Z;
  sv_last_detached_ms : option Z;
  sv_attached : bool;
  sv_resume_token : string;
  sv_stdout_next_sequence : Z;
  sv_stderr_next_sequence : Z;
  sv_buffer_len : Z;
}.

(** ** From the wire *)
Definition CommandKind_from_proto (value : Z) : CommandKind :=
  if value =? 1 then CkShellScript else if value =? 2 then CkShellInteractive else if value =? 3 then CkFileTransfer else CkUnknown.
Definition CommandSessionMode_from_proto (value : Z) : CommandSessionMode :=
  if value =? 1 then CsOneShot else if value =? 2 then CsRealtime else if value =? 3 then CsUpload
  else if value =? 4 then CsDownload else CsUnknown.
Definition CommandParameterType_from_proto (value : Z) : result string CommandParameterType :=
  if value =? 1 then Ok CptSlider else if value =? 2 then Ok CptText else if value =? 3 then Ok CptToggle
  else if value =? 4 then Ok CptDropdown else Err "Encountered parameter with unspecified type".

(** [filter(|v| !v.is_empty())]. *)
Definition nonempty (v : option string) : option string := s ← v; if str_is_empty s then None else Some s.
Definition some_text (s : string) : option string := if str_is_empty s then None else Some s.

Definition CommandParameter_from_proto (p : proto.CapabilityParameter) : result string CommandParameter :=
  param_type ← CommandParameterType_from_proto (proto.type p);
  Ok (mkCommandParameter (proto.name p) (some_text (proto.description p)) param_type (proto.min p) (proto.max p)
        (nonempty (proto.default_value p)) (nonempty (proto.validation p)) (proto.options p) (nonempty (proto.label_on p))
        (nonempty (proto.label_off p)) (nonempty (proto.default_value_command p)) (nonempty (proto.default_value_pattern p))).

(** [collect::<Result<Vec<_>>>()]. *)
Fixpoint collect {A B} (f : A → result string B) (l : list A) : result string (list B) :=
  match l with
  | [] => Ok []
  | a :: l' => b ← f a; bs ← collect f l'; Ok (b :: bs)
  end.

Definition CommandSummary_from_proto (c : proto.Capability) : result string CommandSummary :=
  parameters ← collect CommandParameter_from_proto (proto.cap_parameters c);
  Ok (mkCommandSummary (proto.cap_id c) (proto.cap_name c) (some_text (proto.cap_description c)) None (proto.cap_tags c) parameters
        (default false (proto.cap_requires_confirmation c)) true (default false (proto.cap_privileged c))
        (CommandKind_from_proto (proto.cap_kind c)) (CommandSessionMode_from_proto (proto.cap_session_mode c))).
Definition is_shell_script_oneshot (c : CommandSummary) : bool :=
  bool_decide (cu_kind c = CkShellScript) && bool_decide (cu_session_mode c = CsOneShot).

Definition session_info_from_proto (info : proto.SessionInfo) : result string ServerSessionInfo :=
  let session_mode := CommandSessionMode_from_proto (proto.session_mode info) in
  bail! fmt ["Session '"; proto.session_id info; "' reported unknown mode"] when bool_decide (session_mode = CsUnknown);
  Ok (mkServerSessionInfo (proto.session_id info) (proto.capability_id info) (proto.capability_name info) session_mode
        (proto.owner_fingerprint info) (proto.created_at_ms info) (proto.last_activity_ms info) (proto.last_detached_ms info)
        (proto.attached info) (proto.resume_token info) (proto.stdout_next_sequence info) (proto.stderr_next_sequence info)
        (proto.buffer_len info)).

(** ** Parameters *)
Definition parse_bool (value : string) : option bool :=
  let v := to_ascii_lowercase value in
  if bool_decide (v ∈ ["true"; "1"; "yes"; "on"]) then Some true
  else if bool_decide (v ∈ ["false"; "0"; "no"; "off"]) then Some false else None.

Section validate.
Context `{RegexEngine}.

(** One provided value: trimmed, checked and normalized. *)
Definition normalize_value (param : CommandParameter) (raw : string) : result string string :=
  let value := trim raw in
  let name := ca_name param in
  match ca_param_type param with
  | CptSlider =>
      parsed ← ok_or (parse_i32 value) (fmt ["Parameter '"; name; "' must be an integer"]);
      bail! fmt ["Parameter '"; name; "' must be >= "; pretty (default 0 (ca_min param)); " (got "; pretty parsed; ")"]
        when match ca_min param with Some min => parsed <? min | None => false end;
      bail! fmt ["Parameter '"; name; "' must be <= "; pretty (default 0 (ca_max param)); " (got "; pretty parsed; ")"]
        when match ca_max param with Some max => max <? parsed | None => false end;
      Ok (pretty parsed)
  | CptToggle =>
      match parse_bool value with
      | Some true => Ok "true"
      | Some false => Ok "false"
      | None => Err (fmt ["Parameter '"; name; "' must be true/false, yes/no, on/off, or 1/0 (got '"; value; "')"])
      end
  | CptDropdown =>
      bail! fmt ["Dropdown parameter '"; name; "' has no configured options"] when bool_decide (ca_options param = []);
      ok_or (snd <$> list_find (λ opt, eq_ignore_ascii_case opt value = true) (ca_options param))
        (fmt ["Parameter '"; name; "' must be one of: "; join ", " (ca_options param)])
  | CptText =>
      match ca_validation param with
      | Some pattern =>
          match regex_error pattern with
          | Some _ => Err (fmt ["Invalid regex for parameter '"; name; "': "; pattern])
          | None =>
              bail! fmt ["Parameter '"; name; "' does not match required pattern '"; pattern; "'"]
                when negb (regex_is_match pattern value);
              Ok value
          end
      | None => Ok value
      end
  end.

Fixpoint sanitize (provided : gmap string string) (params : list CommandParameter) (sanitized : gmap string string)
    : result string (gmap string string) :=
  match params with
  | [] => Ok sanitized
  | param :: params' =>
      match provided !! ca_name param with
      | Some raw =>
          normalized ← normalize_value param raw;
          sanitize provided params' (<[ca_name param := normalized]> sanitized)
      | None =>
          bail! fmt ["Missing required parameter '"; ca_name param; "'"] when bool_decide (ca_default_value param = None);
          sanitize provided params' sanitized
      end
  end.

(** The unknown keys; the source stops at the first one the hash map yields. *)
Definition unknown_provided (command : CommandSummary) (provided : gmap string string) : list string :=
  filter (λ k, k ∉ ca_name <$> cu_parameters command) (map_to_list provided).*1.

Definition validate_client_parameters (command : CommandSummary) (provided : gmap string string)
    : result string (gmap string string) :=
  match unknown_provided command provided with
  | key :: _ => Err (fmt ["Unknown parameter '"; key; "'"])
  | [] => sanitize provided (cu_parameters command) ∅
  end.
End validate.

(** ** The client's end of a session *)
Inductive CapabilitySessionEvent :=
  | EvOutput (data : bytes) (stderr binary : bool) (timestamp_ms : option Z) (sequence : Z)
  | EvExit (exit_code : Z) (timed_out : bool) (message : option string)
  | EvError (message : string) (code : option Z)
  | EvHeartbeatAck (timestamp_ms : Z) (latency_hint_ms : option Z)
  | EvClosed (reason : option string).

Abbreviation response_stream := (list (result unit proto.SessionServerMessage)).

Record CapabilitySession := mkCapabilitySession {
  cse_session_id : string;
  cse_capability_id : string;
  cse_session_mode : CommandSessionMode;
  cse_ready_message : option string;
  cse_stream : response_stream;
  cse_resume_token : string;
  cse_last_stdout_sequence : Z;
  cse_last_stderr_sequence : Z;
  cse_pending_events : list CapabilitySessionEvent;
}.

Record CapabilitySessionResumeState := mkCapabilitySessionResumeState {
  rst_session_id : string;
  rst_capability_id : string;
  rst_resume_token : string;
  rst_last_stdout_sequence : Z;
  rst_last_stderr_sequence : Z;
  rst_session_mode : CommandSessionMode;
}.
Definition resume_state (s : CapabilitySession) : CapabilitySessionResumeState :=
  mkCapabilitySessionResumeState (cse_session_id s) (cse_capability_id s) (cse_resume_token s) (cse_last_stdout_sequence s)
    (cse_last_stderr_sequence s) (cse_session_mode s).

Definition with_stream (l : response_stream) (s : CapabilitySession) : CapabilitySession :=
  mkCapabilitySession (cse_session_id s) (cse_capability_id s) (cse_session_mode s) (cse_ready_message s) l (cse_resume_token s)
    (cse_last_stdout_sequence s) (cse_last_stderr_sequence s) (cse_pending_events s).
Definition with_pending (l : list CapabilitySessionEvent) (s : CapabilitySession) : CapabilitySession :=
  mkCapabilitySession (cse_session_id s) (cse_capability_id s) (cse_session_mode s) (cse_ready_message s) (cse_stream s)
    (cse_resume_token s) (cse_last_stdout_sequence s) (cse_last_stderr_sequence s) l.
Definition with_token (t : string) (s : CapabilitySession) : CapabilitySession :=
  mkCapabilitySession (cse_session_id s) (cse_capability_id s) (cse_session_mode s) (cse_ready_message s) (cse_stream s) t
    (cse_last_stdout_sequence s) (cse_last_stderr_sequence s) (cse_pending_events s).
(** Keeping the sequence number of an output. *)
Definition note_sequence (stderr : bool) (sequence : Z) (s : CapabilitySession) : CapabilitySession :=
  if sequence =? 0 then s
  else mkCapabilitySession (cse_session_id s) (cse_capability_id s) (cse_session_mode s) (cse_ready_message s) (cse_stream s)
         (cse_resume_token s) (if stderr then cse_last_stdout_sequence s else sequence)
         (if stderr then sequence else cse_last_stderr_sequence s) (cse_pending_events s).
Definition keep_token (t : string) (s : CapabilitySession) : CapabilitySession := if str_is_empty t then s else with_token t s.

(** The loop of [recv]. *)
Fixpoint recv_loop (stream : response_stream) (s : CapabilitySession)
    : CapabilitySession * result string (option CapabilitySessionEvent) :=
  match stream with
  | [] => (with_stream [] s, Ok None)
  | Err _ :: rest => (with_stream rest s, Err "Capability stream closed unexpectedly")
  | Ok message :: rest =>
      match proto.sm_payload message with
      | Some (proto.Output data stderr binary timestamp_ms sequence) =>
          let stderr := default false stderr in
          (with_stream rest (note_sequence stderr sequence s),
           Ok (Some (EvOutput data stderr (default false binary) timestamp_ms sequence)))
      | Some (proto.Exit code timed_out message) =>
          (with_stream rest s, Ok (Some (EvExit code (default false timed_out) message)))
      | Some (proto.Error message code) => (with_stream rest s, Ok (Some (EvError message code)))
      | Some (proto.HeartbeatAck ts hint) => (with_stream rest s, Ok (Some (EvHeartbeatAck ts hint)))
      | Some (proto.Closed reason) => (with_stream rest s, Ok (Some (EvClosed reason)))
      | Some (proto.ResumeAck token _ _) => recv_loop rest (keep_token token s)
      | Some (proto.Ready _ _ _ _) => recv_loop rest s
      | None => recv_loop rest s
      end
  end.
Definition recv (s : CapabilitySession) : CapabilitySession * result string (option CapabilitySessionEvent) :=
  match cse_pending_events s with
  | event :: rest => (with_pending rest s, Ok (Some event))
  | [] => recv_loop (cse_stream s) s
  end.

(** [CapabilitySessionSender]: the message put into the channel; [open] says whether
    the channel still has a receiver. *)
Definition send_message (session_id : string) (payload : proto.ClientPayload) (open : bool)
    : result string proto.SessionClientMessage :=
  if open then Ok (proto.mkSessionClientMessage session_id (Some payload)) else Err "Failed to send capability session message".
Definition send_input (id : string) (data : bytes) (binary : bool) := send_message id (proto.Input data (Some binary)).
Definition send_resize (id : string) (cols rows : Z) := send_message id (proto.Resize cols rows).
Definition send_heartbeat (id : string) (timestamp_ms : Z) := send_message id (proto.Heartbeat timestamp_ms).
Definition send_close (id : string) (reason : option string) := send_message id (proto.Close reason).

Section sessions.
Context `{GrpcCrates, ClientRelayCrates, UuidText, Sha256, HexEncode, TomlCodec RawClientConfig}.
Context (debug : proto.ServerPayload → string).

(** Connecting with the stored credentials of an entry. *)
Definition connect_entry (version : string) (env : ClientEnv) (entry : ServerRegistryEntry) (an : registered_answers)
    : io (Attempt * ConnectResult) :=
  paths ← for_server env (sre_id entry); connect_registered version env entry paths an.

(** An RPC takes the request to an answer or an error. *)
Definition list_commands (version : string) (env : ClientEnv) (entry : ServerRegistryEntry) (an : registered_answers)
    (rpc : option (list proto.Capability * Z)) : io CommandList :=
  _ ← connect_entry version env entry an;
  '(capabilities, config_version) ← lift (ok_or rpc "ListCapabilities RPC failed");
  commands ← lift (collect CommandSummary_from_proto capabilities);
  mret (mkCommandList config_version commands).

Definition list_sessions (version : string) (env : ClientEnv) (entry : ServerRegistryEntry) (an : registered_answers)
    (rpc : option (list proto.SessionInfo)) : io (list ServerSessionInfo) :=
  _ ← connect_entry version env entry an;
  sessions ← lift (ok_or rpc "ListSessions RPC failed");
  lift (collect session_info_from_proto sessions).

(** *** Opening *)
Fixpoint await_ready (stream : response_stream)
    : result string (string * (string * Z * option string * string) * response_stream) :=
  match stream with
  | [] => Err "Capability stream ended before ready message"
  | Err _ :: _ => Err "Capability stream closed unexpectedly"
  | Ok message :: rest =>
      match proto.sm_payload message with
      | Some (proto.Ready capability_id mode text token) =>
          bail! "Session ready message missing session id" when str_is_empty (proto.sm_session_id message);
          Ok (proto.sm_session_id message, (capability_id, mode, text, token), rest)
      | Some (proto.Error text _) => Err (fmt ["Server reported capability error: "; text])
      | Some (proto.Closed reason) => Err (default "session closed before ready" reason)
      | Some (proto.HeartbeatAck _ _) => await_ready rest
      | Some other => Err (fmt ["Received unexpected session payload before ready: "; debug other])
      | None => await_ready rest
      end
  end.

Definition open_request (capability_id : string) (parameters : gmap string string) : proto.SessionClientMessage :=
  proto.mkSessionClientMessage "" (Some (proto.Open capability_id parameters None)).

Definition opened_session (capability_id : string) (stream : response_stream) : result string CapabilitySession :=
  '(session_id, (ready_id, mode, text, token), rest) ← await_ready stream;
  let session_mode := CommandSessionMode_from_proto mode in
  bail! fmt ["Capability '"; capability_id; "' reported unknown session mode"] when bool_decide (session_mode = CsUnknown);
  Ok (mkCapabilitySession session_id (if str_is_empty ready_id then capability_id else ready_id) session_mode (nonempty text)
        rest token 0 0 []).

(** [rpc] answers the first message with the response stream. *)
Definition open_capability_session (version : string) (env : ClientEnv) (entry : ServerRegistryEntry) (capability_id : string)
    (parameters : gmap string string) (an : registered_answers) (rpc : proto.SessionClientMessage → option response_stream)
    : io CapabilitySession :=
  _ ← connect_entry version env entry an;
  stream ← lift (ok_or (rpc (open_request capability_id parameters)) "OpenSession RPC failed");
  lift (opened_session capability_id stream).

(** *** Resuming *)
Definition resume_request (state : CapabilitySessionResumeState) : proto.SessionClientMessage :=
  let since n := if 0 <? n then Some n else None in
  proto.mkSessionClientMessage (rst_session_id state)
    (Some (proto.Resume (rst_resume_token state) (since (rst_last_stdout_sequence state)) (since (rst_last_stderr_sequence state)))).

(** The loop up to the acknowledgement; [s] collects the replayed outputs. *)
Fixpoint await_resume_ack (stream : response_stream) (s : CapabilitySession) : result string CapabilitySession :=
  match stream with
  | [] => Err "Capability stream ended before resume acknowledgement"
  | Err _ :: _ => Err "Capability stream closed unexpectedly during resume"
  | Ok message :: rest =>
      bail! fmt ["Received session message for mismatched session_id="; proto.sm_session_id message; " (expected ";
                 cse_session_id s; ")"]
        when negb (str_is_empty (proto.sm_session_id message)) && bool_decide (proto.sm_session_id message ≠ cse_session_id s);
      match proto.sm_payload message with
      | Some (proto.ResumeAck token _ _) => Ok (with_stream rest (keep_token token s))
      | Some (proto.Output data stderr binary timestamp_ms sequence) =>
          let stderr := default false stderr in
          await_resume_ack rest
            (with_pending (cse_pending_events s ++ [EvOutput data stderr (default false binary) timestamp_ms sequence])%list
               (note_sequence stderr sequence s))
      | Some (proto.Error text _) => Err (fmt ["Server reported capability error while resuming session: "; text])
      | Some (proto.Closed reason) => Err (default "session closed while resuming" reason)
      | Some (proto.Exit code _ text) =>
          Err (fmt ["Capability session exited (code "; pretty code; "): "; default "session exited while resuming" text])
      | Some (proto.HeartbeatAck _ _) | Some (proto.Ready _ _ _ _) | None => await_resume_ack rest s
      end
  end.

Definition resumed_session (state : CapabilitySessionResumeState) (stream : response_stream) : result string CapabilitySession :=
  await_resume_ack stream
    (mkCapabilitySession (rst_session_id state) (rst_capability_id state) (rst_session_mode state) None stream
       (rst_resume_token state) (rst_last_stdout_sequence state) (rst_last_stderr_sequence state) []).

Definition resume_capability_session (version : string) (env : ClientEnv) (entry : ServerRegistryEntry)
    (state : CapabilitySessionResumeState) (an : registered_answers) (rpc : proto.SessionClientMessage → option response_stream)
    : io CapabilitySession :=
  _ ← connect_entry version env entry an;
  stream ← lift (ok_or (rpc (resume_request state)) "OpenSession RPC failed");
  lift (resumed_session state stream).

(** *** Executing a one-shot capability *)
Definition text_of (data : bytes) : string := from_utf8_lossy (String.string_of_list_byte data).
Definition newline_after (s : string) : string := String.append s newline.

(** One event: what the callback is given, and the exit code or how the loop ends. *)
Inductive exec_step := ExecGo (exit_code : option Z) | ExecBreak | ExecFail (e : string).
Definition exec_event (event : CapabilitySessionEvent) (exit_code : option Z) : list CommandStreamEvent * exec_step :=
  match event with
  | EvOutput data stderr _ _ _ => ([if stderr then EvStderr (text_of data) else EvStdout (text_of data)], ExecGo exit_code)
  | EvExit code timed_out message =>
      (((if timed_out then [EvStderr (newline_after "Session timed out")] else []) ++
        match nonempty message with Some m => [EvStderr (newline_after m)] | None => [] end)%list, ExecGo (Some code))
  | EvError message _ => ([], ExecFail (fmt ["Server reported capability error: "; message]))
  | EvHeartbeatAck _ _ => ([], ExecGo exit_code)
  | EvClosed reason =>
      ([], match exit_code with
           | Some _ => ExecBreak
           | None => ExecFail (match reason with
                               | Some r => fmt ["Capability session closed early: "; r]
                               | None => "Capability session closed unexpectedly"
                               end)
           end)
  end.

(** The loop; each round takes at least one message of the stream or pending event,
    so their number plus one is enough fuel. *)
Fixpoint exec_loop (fuel : nat) (s : CapabilitySession) (exit_code : option Z) : option (list CommandStreamEvent * result string Z) :=
  match fuel with
  | O => None
  | S fuel' =>
      match recv s with
      | (_, Err e) => Some ([], Err e)
      | (_, Ok None) => Some ([], ok_or exit_code "Capability stream ended without exit code")
      | (s', Ok (Some event)) =>
          match exec_event event exit_code with
          | (out, ExecGo code) => '(out', r) ← exec_loop fuel' s' code; Some ((out ++ out')%list, r)
          | (out, ExecBreak) => Some (out, ok_or exit_code "Capability stream ended without exit code")
          | (out, ExecFail e) => Some (out, Err e)
          end
      end
  end.
Definition exec_fuel (s : CapabilitySession) : nat := S (length (cse_stream s) + length (cse_pending_events s)).

Definition run_command (debug_mode : CommandSessionMode → string) (command_id : string) (s : CapabilitySession)
    : option (list CommandStreamEvent * result string Z) :=
  if bool_decide (cse_session_mode s ≠ CsOneShot) then
    Some ([], Err (fmt ["Capability '"; command_id; "' requires '"; debug_mode (cse_session_mode s);
                        "' sessions which are not supported by this client"]))
  else exec_loop (exec_fuel s) s None.

(** The events given to the callback and the exit code. *)
Definition execute_command (debug_mode : CommandSessionMode → string) (version : string) (env : ClientEnv) (entry : ServerRegistryEntry)
    (command_id : string) (parameters : gmap string string) (an : registered_answers)
    (rpc : proto.SessionClientMessage → option response_stream) (w : World)
    : World * option (list CommandStreamEvent * result string Z) :=
  match open_capability_session version env entry command_id parameters an rpc w with
  | (w', Err e) => (w', Some ([], Err e))
  | (w', Ok session) => (w', run_command debug_mode command_id session)
  end.
End sessions.
