(* ===== verification/SessionEnds.v ===== *)
(** * Both ends of a session

    The client's checks, sessions and commands ([ClientCommands]) against the server's
    ([Parameters], [SessionManager], [Delivery], [Service], [ShellScript]). *)

From S2P Require Import Prelude RustStd ThirdParty Fs Io Config Placeholders Validation Registry Parameters SessionState SessionManager.
From S2P Require Import RelayTokens Proto Delivery Service ShellScript ClientConfig ClientStorage ClientRelay ClientConnect ClientCommands.

Local Open Scope string_scope.
Local Open Scope Z_scope.

(** ** Numbers as text *)
Lemma pretty_N_char_digit n : (n < 10)%N → digit_val (pretty_N_char n) = Some (Z.of_N n).
Proof.
  intros Hn. assert (n = 0 ∨ n = 1 ∨ n = 2 ∨ n = 3 ∨ n = 4 ∨ n = 5 ∨ n = 6 ∨ n = 7 ∨ n = 8 ∨ n = 9)%N as Hc by lia.
  by destruct_or! Hc; subst n.
Qed.

Lemma digits_val_pretty_go n s : digits_val 0 (pretty_N_go n s) = digits_val (Z.of_N n) s.
Proof.
  revert s. induction (N.lt_wf_0 n) as [n _ IH]; intros s. destruct (decide (n = 0)%N) as [->|Hn]; [done|].
  rewrite pretty_N_go_step by lia. rewrite IH by (apply N.div_lt; lia). cbn [digits_val].
  rewrite pretty_N_char_digit by (apply N.mod_lt; lia). cbn [mbind option_bind]. f_equal.
  rewrite N2Z.inj_div, N2Z.inj_mod. change (Z.of_N 10) with 10. symmetry. apply Z.div_mod. lia.
Qed.

Lemma pretty_N_digits n : digits_val 0 (pretty n) = Some (Z.of_N n).
Proof.
  unfold pretty, pretty_N. case_decide as E; [by subst|]. by rewrite digits_val_pretty_go.
Qed.

(** A decimal number starts with a digit. *)
Lemma digits_val_first s z : digits_val 0 s = Some z → s ≠ "" → parse_digits s = Some z ∧ ∀ c s', s = String c s' → c ≠ "+"%char ∧ c ≠ "-"%char.
Proof.
  intros Hd Hne. split; [by destruct s|]. intros c s' ->. cbn in Hd. destruct (digit_val c) eqn:E; [|done].
  split; intros ->; discriminate E.
Qed.

Lemma pretty_N_nonempty (n : N) : pretty n ≠ "".
Proof.
  intros E. unfold pretty, pretty_N in E. case_decide as Hn; [done|]. revert E. generalize "" at 1.
  assert (∀ m s, s ≠ "" → pretty_N_go m s ≠ "") as Hgo.
  { intros m. induction (N.lt_wf_0 m) as [m _ IH]. intros s Hs. destruct (decide (m = 0)%N) as [->|]; [done|].
    rewrite pretty_N_go_step by lia. apply IH; [apply N.div_lt; lia|done]. }
  intros s E. rewrite pretty_N_go_step in E by lia. by apply Hgo in E.
Qed.

Lemma parse_i32_pretty z : I32_MIN <= z <= I32_MAX → parse_i32 (pretty z) = Some z.
Proof.
  intros Hz. unfold parse_i32. assert ((I32_MIN <=? z) && (z <=? I32_MAX) = true) as Hr.
  { apply andb_true_intro. rewrite !Z.leb_le. lia. }
  assert (∀ n : N, ∃ c s, pretty n = String c s ∧ parse_digits (pretty n) = Some (Z.of_N n) ∧ c ≠ "+"%char ∧ c ≠ "-"%char) as Hp.
  { intros n. destruct (digits_val_first _ _ (pretty_N_digits n) (pretty_N_nonempty n)) as [Hd Hc].
    destruct (pretty n) as [|c s] eqn:E; [by destruct (pretty_N_nonempty n)|]. exists c, s. split_and!; try done; by apply (Hc c s). }
  destruct z as [|p|p].
  - done.
  - change (pretty (Z.pos p)) with (pretty (N.pos p)). destruct (Hp (N.pos p)) as (c & s & E & Hd & H1 & H2). rewrite E in *.
    rewrite !decide_False by done. rewrite Hd.
    cbn [mbind option_bind]. change (Z.of_N (N.pos p)) with (Z.pos p). by rewrite Hr.
  - change (pretty (Z.neg p)) with (String "-" (pretty (N.pos p))). destruct (decide ("-"%char = "+"%char)) as [E0|_]; [discriminate E0|].
    destruct (decide ("-"%char = "-"%char)) as [_|E0]; [|done].
    destruct (Hp (N.pos p)) as (c & s & E & Hd & _). rewrite Hd.
    transitivity (if (I32_MIN <=? Z.neg p) && (Z.neg p <=? I32_MAX) then Some (Z.neg p) else None); [done|]. by rewrite Hr.
Qed.
Lemma parse_i32_range s z : parse_i32 s = Some z → I32_MIN <= z <= I32_MAX.
Proof.
  unfold parse_i32. intros E. apply bind_Some in E as (z' & _ & E). destruct (_ && _) eqn:Hr; [|done]. injection E as ->.
  apply andb_prop in Hr. rewrite !Z.leb_le in Hr. lia.
Qed.

(** ** Parameters *)
(** The empty pattern matches everything. *)
Class RegexEmpty `{RegexEngine} := regex_empty : regex_error "" = None ∧ ∀ v, regex_is_match "" v = true.

Section parameters.
Context `{RegexEngine, !RegexEmpty, ShellEscape}.

(** The client's view of a parameter the server accepted at start-up. *)
Definition seen_parameter (p : CapabilityParameterConfig) : result string CommandParameter :=
  CommandParameter_from_proto (proto_from_parameter (CapabilityParameter_from p)).

(** How the client's type stands for the configured one. *)
Definition type_matches (p : CapabilityParameterConfig) (t : CommandParameterType) : Prop :=
  match t with
  | CptSlider => pc_param_type p = "slider"
  | CptText => pc_param_type p = "text" ∧ ∀ re, pc_validation p = Some re → regex_error re = None
  | CptToggle => pc_param_type p = "toggle"
  | CptDropdown => pc_param_type p = "dropdown"
  end.

Lemma seen_parameter_ok p : param_ok p → ∃ q, seen_parameter p = Ok q ∧ ca_name q = pc_name p ∧ type_matches p (ca_param_type q) ∧
  ca_min q = pc_min p ∧ ca_max q = pc_max p ∧ ca_options q = pc_options p ∧ ca_validation q = nonempty (pc_validation p) ∧
  ca_default_value q = nonempty (pc_default p).
Proof.
  intros [_ Ht]. unfold seen_parameter, CommandParameter_from_proto, proto_from_parameter. cbn [proto.type cp_param_type CapabilityParameter_from].
  destruct Ht as [min max E _ _ _|E Hre|E|E _]; rewrite E; cbn [param_type_number mbind result_bind]; eexists; (split; [reflexivity|]);
    by split_and!.
Qed.

Lemma normalize_value_ok p q raw v : type_matches p (ca_param_type q) → ca_min q = pc_min p → ca_max q = pc_max p →
  ca_options q = pc_options p → ca_validation q = nonempty (pc_validation p) →
  normalize_value q raw = Ok v → value_ok p v.
Proof.
  intros Ht Hmin Hmax Hopt Hval E. unfold normalize_value in E. cbv zeta in E. destruct (ca_param_type q); cbn in Ht.
  - apply result_bind_ok in E as (n & Hn%ok_or_ok & E). rewrite !bail_then in E. destruct E as (L1 & L2 & [= <-]).
    apply (val_slider _ _ n); [done|apply parse_i32_pretty; by eapply parse_i32_range| |].
    + intros min Em. rewrite Hmin, Em in L1. lia.
    + intros max Em. rewrite Hmax, Em in L2. lia.
  - destruct Ht as [Ht Hre]. apply val_text; [done|]. intros re Epat. specialize (Hre re Epat). split; [done|].
    rewrite Hval, Epat in E. cbn in E. destruct (str_is_empty re) eqn:Hemp.
    + destruct re; [|done]. apply regex_empty.
    + rewrite Hre in E. apply bail_then in E as [Hm [= <-]]. by apply negb_false_iff in Hm.
  - apply val_toggle; [done|]. destruct (parse_bool _) as [[]|]; [injection E as <-..|done]; set_solver.
  - apply val_dropdown; [done|]. apply bail_then in E as [_ E]. apply ok_or_ok in E.
    destruct (list_find _ _) as [[i o]|] eqn:Hf; [|done]. injection E as <-. apply list_find_Some in Hf as (Hi & _ & _).
    rewrite <-Hopt. by eapply list_elem_of_lookup_2.
Qed.

(** What [sanitize] returns. *)
Lemma sanitize_ok provided params acc m : sanitize provided params acc = Ok m → NoDup (ca_name <$> params) →
  (∀ k, k ∉ ca_name <$> params → m !! k = acc !! k) ∧
  Forall (λ q, match provided !! ca_name q with
               | Some raw => ∃ v, normalize_value q raw = Ok v ∧ m !! ca_name q = Some v
               | None => m !! ca_name q = acc !! ca_name q ∧ is_Some (ca_default_value q)
               end) params.
Proof.
  revert acc. induction params as [|q params IH]; intros acc E Hnd; cbn [sanitize] in E; [injection E as <-; by split|].
  rewrite fmap_cons in Hnd. apply list.NoDup_cons in Hnd as [Hq Hnd].
  destruct (provided !! ca_name q) as [raw|] eqn:Hp.
  - apply result_bind_ok in E as (v & Hv & E). destruct (IH _ E Hnd) as [Hout Hall]. split.
    + intros k Hk. rewrite fmap_cons, not_elem_of_cons in Hk. destruct Hk. by rewrite Hout, lookup_insert_ne by done.
    + constructor; [rewrite Hp; exists v; split; [done|]; by rewrite Hout, lookup_insert_eq|].
      apply Forall_forall. intros x Hx. rewrite Forall_forall in Hall. specialize (Hall x Hx).
      destruct (provided !! ca_name x); [done|]. rewrite lookup_insert_ne in Hall; [done|]. intros Heq. apply Hq. rewrite Heq. by apply list_elem_of_fmap_2.
  - apply bail_then in E as [Hd E]. destruct (IH _ E Hnd) as [Hout Hall]. split.
    + intros k Hk. rewrite fmap_cons, not_elem_of_cons in Hk. destruct Hk. by rewrite Hout.
    + constructor; [|done]. rewrite Hp. split; [by apply Hout|]. apply bool_decide_eq_false in Hd. by apply not_eq_None_Some.
Qed.

Lemma collect_ok {A B} (f : A → result string B) l bs : collect f l = Ok bs ↔ Forall2 (λ a b, f a = Ok b) l bs.
Proof.
  revert bs. induction l as [|a l IH]; intros bs; cbn.
  - split; [intros [= <-]; constructor|by inversion 1].
  - rewrite result_bind_ok. split.
    + intros (b & Hb & (bs' & Hbs%IH & [= <-])%result_bind_ok). by constructor.
    + inversion 1 as [|? b ? bs' Hb Hbs]; subst. exists b. split; [done|]. apply IH in Hbs. by rewrite Hbs.
Qed.

(** The parameters of the listing, one for each configured one. *)
Lemma seen_parameters ps : Forall param_ok ps →
  ∃ qs, collect CommandParameter_from_proto (proto_from_parameter <$> (CapabilityParameter_from <$> ps)) = Ok qs ∧
    Forall2 (λ p q, seen_parameter p = Ok q) ps qs ∧ ca_name <$> qs = pc_name <$> ps.
Proof.
  induction 1 as [|p ps Hp _ (qs & E & Hf & Hn)]; [by exists []|]. destruct (seen_parameter_ok p Hp) as (q & Hq & Hname & _).
  exists (q :: qs). split_and!; [|by constructor|by rewrite !fmap_cons, Hn, Hname].
  rewrite !fmap_cons. cbn [collect]. unfold seen_parameter in Hq. rewrite Hq. cbn [mbind result_bind]. by rewrite E.
Qed.

(** The value the server will choose for one parameter. *)
Lemma chosen_is_valid p q (provided m : gmap string string) : param_ok p → seen_parameter p = Ok q →
  (provided !! pc_name p = None → ∀ d, pc_default p = Some d → value_ok p d) →
  match provided !! ca_name q with
  | Some raw => ∃ v, normalize_value q raw = Ok v ∧ m !! ca_name q = Some v
  | None => m !! ca_name q = None ∧ is_Some (ca_default_value q)
  end → ∃ v, chosen_value m p = Some v ∧ value_ok p v.
Proof.
  intros Hp Hq Hdef Hm. destruct (seen_parameter_ok p Hp) as (q' & Hq' & Hname & Ht & Hmin & Hmax & Hopt & Hval & Hd).
  assert (q' = q) as -> by congruence. rewrite Hname in Hm. unfold chosen_value. destruct (provided !! pc_name p) as [raw|].
  - destruct Hm as (v & Hv & ->). exists v. split; [done|]. by eapply normalize_value_ok.
  - destruct Hm as (-> & d & Hd'). rewrite Hd in Hd'. destruct (pc_default p) as [d'|]; [|done]. exists d'. split; [done|]. by apply Hdef.
Qed.

(** The client is stricter in one case: a parameter whose default is the empty string is
    required by the client, while the server takes the default. *)
Lemma empty_default_refused p q acc : param_ok p → seen_parameter p = Ok q → pc_default p = Some "" →
  sanitize ∅ [q] acc = Err (fmt ["Missing required parameter '"; pc_name p; "'"]) ∧ chosen_value ∅ p = Some "".
Proof.
  intros Hp Hq Hd. destruct (seen_parameter_ok p Hp) as (q' & Hq' & Hname & _ & _ & _ & _ & _ & Hdv).
  assert (q' = q) as -> by congruence. rewrite Hd in Hdv. split.
  - cbn [sanitize]. by rewrite lookup_empty, Hdv, Hname.
  - unfold chosen_value. by rewrite lookup_empty.
Qed.

(** Values that are valid, for known parameters only, are accepted as they are. *)
Lemma chosen_values_accepted c (m : gmap string string) :
  NoDup (pc_name <$> cap_parameters c) → Forall (λ p, ∃ v, chosen_value m p = Some v ∧ value_ok p v) (cap_parameters c) →
  (∀ k, is_Some (m !! k) → k ∈ pc_name <$> cap_parameters c) →
  ∃ m', Parameters.validate_parameters c m = Ok m' ∧ ∀ k v, m !! k = Some v → m' !! k = Some v.
Proof.
  intros Hnd Hvals Hknown. destruct (validate_parameters_loop_succeeds c m (cap_parameters c) ∅ Hvals) as [m' Hm'].
  exists m'. unfold Parameters.validate_parameters. rewrite Hm'. cbn [mbind result_bind].
  rewrite (proj2 (unknown_keys_nil c m) Hknown). split; [done|]. intros k v Hk.
  destruct (validate_parameters_loop_ok _ _ _ _ _ Hnd Hm') as [Hm _].
  destruct (proj1 (list_elem_of_fmap _ _ _) (Hknown k (mk_is_Some _ _ Hk))) as (p & -> & Hp). rewrite Forall_forall in Hm.
  destruct (Hm p Hp) as (v' & Hv' & _ & ->). unfold chosen_value in Hv'. by rewrite Hk in Hv'.
Qed.

Lemma checked_parameters_accepted c provided m :
  capability_ok c →
  ∃ cmd, CommandSummary_from_proto (proto_from_metadata (build_metadata c)) = Ok cmd ∧
  (validate_client_parameters cmd provided = Ok m →
   (∀ p d, p ∈ cap_parameters c → provided !! pc_name p = None → pc_default p = Some d → value_ok p d) →
   ∃ m', Parameters.validate_parameters c m = Ok m' ∧ ∀ k v, m !! k = Some v → m' !! k = Some v).
Proof.
  intros (_ & _ & Hnd & Hparams & _). destruct (seen_parameters _ Hparams) as (qs & Hqs & Hseen & Hnames).
  eexists. split; [unfold CommandSummary_from_proto; cbn [proto.cap_parameters proto_from_metadata md_parameters build_metadata]; by rewrite Hqs|].
  unfold validate_client_parameters. destruct (unknown_provided _ _) as [|key l]; [|done]. cbn [cu_parameters]. intros Hs Hdef.
  pose proof Hnd as Hnd'. rewrite <-Hnames in Hnd'. destruct (sanitize_ok _ _ _ _ Hs Hnd') as [Hout Hall]. rewrite Hnames in Hout.
  assert (Forall (λ p, ∃ v, chosen_value m p = Some v ∧ value_ok p v) (cap_parameters c)) as Hvals.
  { apply Forall_forall. intros p Hp. pose proof Hp as [i Hi]%list_elem_of_lookup.
    destruct (Forall2_lookup_l _ _ _ _ _ Hseen Hi) as (q & Hqi & Hq). eapply chosen_is_valid; [by apply (proj1 (Forall_forall _ _) Hparams)|exact Hq|by eauto|].
    exact (proj1 (Forall_forall _ _) Hall q (list_elem_of_lookup_2 _ _ _ Hqi)). }
  apply chosen_values_accepted; [done..|]. intros k [v Hk]. apply dec_stable. intros Hn. by rewrite Hout in Hk.
Qed.

(** C29: What the client's check lets through, the server accepts.  For a capability
    that passed the server's validation, the client reads it from the listing; if the
    client's own check accepts the user's values, then the server's check accepts the
    request it sends and runs the command with exactly these normalized values,
    provided the defaults of the parameters left out are themselves valid. *)
Theorem client_checked_parameters_are_accepted c provided m :
  capability_ok c →
  ∃ cmd, CommandSummary_from_proto (proto_from_metadata (build_metadata c)) = Ok cmd ∧
  (validate_client_parameters cmd provided = Ok m →
   (∀ p d, p ∈ cap_parameters c → provided !! pc_name p = None → pc_default p = Some d → value_ok p d) →
   ∃ m', Parameters.validate_parameters c m = Ok m' ∧ ∀ k v, m !! k = Some v → m' !! k = Some v).
Proof. apply checked_parameters_accepted. Qed.
End parameters.

(** ** Resuming, end to end *)
(** A frame on the wire, and as the event the client's caller gets. *)
Definition frame_message (sid cid : string) (mode : SessionMode) (f : BufferedOutput) : proto.SessionServerMessage :=
  session_event_to_proto sid cid mode (SOutput (bo_data f) (bool_decide (bo_stream f = Stderr)) (bo_binary f) (bo_timestamp_ms f))
    (Some f) None.
Definition frame_event (f : BufferedOutput) : CapabilitySessionEvent :=
  EvOutput (bo_data f) (bool_decide (bo_stream f = Stderr)) (bo_binary f) (bo_timestamp_ms f) (bo_sequence f).

(** [recv] called [n] times. *)
Fixpoint receive (n : nat) (s : CapabilitySession) : list CapabilitySessionEvent * CapabilitySession :=
  match n with
  | O => ([], s)
  | S n' =>
      match recv s with
      | (s', Ok (Some e)) => let '(es, s'') := receive n' s' in (e :: es, s'')
      | (s', _) => ([], s')
      end
  end.

(** What a client knows about the output it has seen. *)
Definition knows (log : list BufferedOutput) (s : CapabilitySession) : Prop :=
  cse_last_stdout_sequence s = default 0 (last_seen Stdout log) ∧ cse_last_stderr_sequence s = default 0 (last_seen Stderr log).

Lemma last_seen_snoc st log f : last_seen st (log ++ [f])%list = if bool_decide (bo_stream f = st) then Some (bo_sequence f) else last_seen st log.
Proof.
  unfold last_seen. rewrite filter_app, filter_cons. case_bool_decide as Hf.
  - rewrite decide_True, filter_nil by done. by rewrite last_snoc.
  - rewrite decide_False, filter_nil by done. by rewrite app_nil_r.
Qed.

Lemma knows_note log f s : knows log s → bo_sequence f ≠ 0 →
  knows (log ++ [f])%list (note_sequence (bool_decide (bo_stream f = Stderr)) (bo_sequence f) s).
Proof.
  intros [H1 H2] Hz. unfold knows, note_sequence. apply Z.eqb_neq in Hz as ->. rewrite !last_seen_snoc.
  by destruct f as [[] ? ? ? ?].
Qed.

Lemma numbered_positive log f : numbered log → f ∈ log → 0 < bo_sequence f.
Proof.
  induction 1 as [|log g Hn IH Hg]; [by intros ?%not_elem_of_nil|]. intros [?| ->%list_elem_of_singleton]%elem_of_app; [by apply IH|].
  rewrite Hg. lia.
Qed.

Lemma note_sequence_frame stderr n s :
  cse_session_id (note_sequence stderr n s) = cse_session_id s ∧ cse_resume_token (note_sequence stderr n s) = cse_resume_token s ∧
  cse_pending_events (note_sequence stderr n s) = cse_pending_events s ∧ cse_stream (note_sequence stderr n s) = cse_stream s.
Proof. unfold note_sequence. by destruct (n =? 0). Qed.

Lemma receive_frames sid cid mode seen fs rest s :
  cse_pending_events s = [] → cse_stream s = ((Ok <$> (frame_message sid cid mode <$> fs)) ++ rest)%list →
  knows seen s → Forall (λ f, bo_sequence f ≠ 0) fs →
  ∃ s', receive (length fs) s = (frame_event <$> fs, s') ∧ knows (seen ++ fs)%list s' ∧ cse_pending_events s' = [] ∧
    cse_stream s' = rest ∧ cse_session_id s' = cse_session_id s ∧ cse_resume_token s' = cse_resume_token s.
Proof.
  revert seen s. induction fs as [|f fs IH]; intros seen s Hp Hst Hk Hz.
  { exists s. rewrite app_nil_r. by split_and!. }
  apply Forall_cons in Hz as [Hf Hz]. cbn [length receive]. unfold recv. rewrite Hp, Hst. cbn [fmap list_fmap app recv_loop].
  cbn [proto.sm_payload frame_message session_event_to_proto]. set (s1 := with_stream _ _).
  destruct (note_sequence_frame (bool_decide (bo_stream f = Stderr)) (bo_sequence f) s) as (N1 & N2 & N3 & _).
  destruct (IH (seen ++ [f])%list s1) as (s' & E & Hk' & Hp' & Hs' & Hid & Htok).
  - cbn. by rewrite N3.
  - done.
  - exact (knows_note _ _ _ Hk Hf).
  - done.
  - exists s'. rewrite E. rewrite <-(assoc_L (++)) in Hk'. split_and!; try done; [by rewrite Hid|by rewrite Htok].
Qed.

(** The replay, read by the client up to the acknowledgement. *)
Lemma await_replay cid mode next seen fs rest s :
  str_is_empty next = false → knows seen s → Forall (λ f, bo_sequence f ≠ 0) fs →
  ∃ s', await_resume_ack ((Ok <$> replay_messages (cse_session_id s) cid mode fs next) ++ rest)%list s = Ok s' ∧
    cse_pending_events s' = (cse_pending_events s ++ (frame_event <$> fs))%list ∧ knows (seen ++ fs)%list s' ∧
    cse_resume_token s' = next ∧ cse_stream s' = rest ∧ cse_session_id s' = cse_session_id s.
Proof.
  intros Hnext. assert (∀ t : string, negb (str_is_empty t) && bool_decide (t ≠ t) = false) as Hsame.
  { intros t. by rewrite bool_decide_ne_false_2, andb_false_r. }
  unfold replay_messages. revert seen s. induction fs as [|f fs IH]; intros seen s Hk Hz; cbn [fmap list_fmap app await_resume_ack].
  - cbn [proto.sm_session_id proto.sm_payload]. rewrite Hsame. cbn [bail_if mbind result_bind]. eexists. split; [reflexivity|].
    unfold keep_token. rewrite Hnext, !app_nil_r. by split_and!.
  - apply Forall_cons in Hz as [Hf Hz]. cbn [proto.sm_session_id proto.sm_payload session_event_to_proto]. rewrite Hsame.
    cbn [bail_if mbind result_bind default fmap option_fmap option_map].
    destruct (note_sequence_frame (bool_decide (bo_stream f = Stderr)) (bo_sequence f) s) as (N1 & N2 & N3 & _).
    set (s1 := with_pending _ _). assert (cse_session_id s1 = cse_session_id s) as Hid by exact N1.
    destruct (IH (seen ++ [f])%list s1) as (s' & E & Hp' & Hk' & Htok & Hst & Hid'); [exact (knows_note _ _ _ Hk Hf)|done|].
    rewrite Hid in E. exists s'. split; [exact E|]. rewrite <-(assoc_L (++)) in Hk'. cbn in Hp'. rewrite <-(assoc_L (++)) in Hp'.
    split_and!; try done. by rewrite Hid'.
Qed.

Lemma since_last_seen st log : numbered log →
  (if 0 <? default 0 (last_seen st log) then Some (default 0 (last_seen st log)) else None) = last_seen st log.
Proof.
  intros Hn. unfold last_seen. destruct (last (filter (λ f, bo_stream f = st) log)) as [f|] eqn:E; [|done]. cbn.
  apply last_Some_elem_of, list_elem_of_filter in E as [_ Hf]. apply (numbered_positive log) in Hf; [|done].
  by apply Z.ltb_lt in Hf as ->.
Qed.

Section resume.
Context `{UuidText, !UuidTextLaws}.

Lemma attach_keeps_log uuid now next id md tok m m1 att :
  attach_with_token uuid now next id md tok m = (m1, Ok att) → log_inv id m →
  session_log id m1 = session_log id m ∧ log_inv id m1 ∧ ∀ a b, ∃ fs, buffered_output_since id a b m1 = Ok fs.
Proof.
  intros Ha Hi. assert (m1 = (attach_with_token uuid now next id md tok m).1) as Hm1 by (by rewrite Ha).
  split; [rewrite Hm1; apply with_session_state_log|]. split.
  { rewrite Hm1. apply with_session_state_inv; [|done]. intros s. apply same_output_attach_token. }
  assert (∃ e, sm_sessions m1 !! id = Some e) as [e He].
  { destruct (attach_with_token_entry _ _ _ _ _ _ _ _ _ Ha) as (e & He & _). rewrite Hm1.
    unfold attach_with_token, with_session_state, get_entry. rewrite He. cbn [ok_or]. destruct (if negb _ then _ else _) as [s' r].
    eexists. cbn. apply lookup_insert_eq. }
  intros a b. unfold buffered_output_since, with_session_state, get_entry. rewrite He. by eexists.
Qed.

(** C6: A dropped client misses nothing and sees nothing twice, if the session is quiet while
    the server answers.  A client has read the output [p] of a session and loses its
    connection while the session goes on to produce [q], fewer than 128 frames (the capacity
    of the response channel); it then resumes with the state it kept, and the server accepts
    the token.  If nothing else touches the session until the handler has sent its messages
    ([quiet_call]; the tasks of the call itself run in any order), the client's events
    before the break and those waiting in the resumed session are exactly the session's
    output, in order; and the resumed session holds the new token and is ready to do the
    same again. *)
Theorem client_resumes_exactly_once i id token t0 sender cap ofp m0 os p q cs sid_cap mode fp m1 att :
  let m := sm_run os (open_session (Ok tt) id token t0 sender cap ofp m0).1 in
  let log := session_log id m in
  Forall (λ o, ¬ opens id o) os → log = (p ++ q)%list → (length q < 128)%nat → Z.of_nat (length log) + 1 < 2 ^ 64 →
  str_is_empty (uuid_to_string id) = false → str_is_empty (oi_next_token i) = false →
  quiet_call i → (length q < handler_steps (oi_meanwhile i))%nat →
  cse_session_id cs = uuid_to_string id → cse_pending_events cs = [] → knows [] cs →
  cse_stream cs = (Ok <$> (frame_message (uuid_to_string id) sid_cap mode <$> p))%list →
  let '(seen, cs1) := receive (length p) cs in
  attach_with_token (oi_attachment i) (oi_attach_now i) (oi_next_token i) id (mkAttachmentMetadata fp) (cse_resume_token cs1) m = (m1, Ok att) →
  ∃ tok lo le r cs2,
    resume_request (resume_state cs1) = proto.mkSessionClientMessage (uuid_to_string id) (Some (proto.Resume tok lo le)) ∧
    handle_resume_session i (uuid_to_string id) tok lo le fp m = (m1, Some (Ok r)) ∧
    resumed_session (resume_state cs1) (Ok <$> delivered r) = Ok cs2 ∧
    (seen ++ cse_pending_events cs2)%list = frame_event <$> log ∧ cse_resume_token cs2 = oi_next_token i ∧ knows log cs2.
Proof.
  intros m log Hos Hlog Hq Hlen Hid Hnext Hquiet Hsteps Hsid Hpend Hk Hst.
  assert (log_inv id m) as Hinv.
  { apply (step_inv _ _ _ (sm_run_ok id os (open_session (Ok tt) id token t0 sender cap ofp m0).1 Hos)); [apply open_session_inv|done]. }
  assert (∀ f, f ∈ log → bo_sequence f ≠ 0) as Hz by (intros f Hf; pose proof (numbered_positive _ _ (proj1 Hinv) Hf); lia).
  destruct (receive_frames (uuid_to_string id) sid_cap mode [] p [] cs) as (cs1 & -> & Hk1 & Hp1 & _ & Hid1 & Htok1);
    [done|by rewrite app_nil_r|done|apply Forall_forall; intros f Hf; apply Hz; rewrite Hlog; set_solver|].
  rewrite app_nil_l in Hk1. intros Ha. destruct (attach_keeps_log _ _ _ _ _ _ _ _ _ Ha Hinv) as (Hl1 & Hi1 & Hex).
  assert (numbered p) as Hnp by (eapply numbered_app_inv; rewrite <-Hlog; apply Hinv).
  destruct Hk1 as [Ho He]. destruct (Hex (last_seen Stdout p) (last_seen Stderr p)) as [fs Hfs].
  assert (fs = q) as ->.
  { apply (replay_is_missed id m1 p q); [done|by rewrite Hl1|unfold DEFAULT_OUTPUT_BUFFER_CAPACITY; lia|done]. }
  destruct (quiet_resume i id (cse_resume_token cs1) (last_seen Stdout p) (last_seen Stderr p) fp m m1 att q) as (r & rcid & rmode & Hh & Hd);
    [intros E; by rewrite E in Hid|done..|].
  set (st := resume_state cs1). set (s0 := mkCapabilitySession (rst_session_id st) (rst_capability_id st) (rst_session_mode st) None
    (Ok <$> replay_messages (uuid_to_string id) rcid rmode q (oi_next_token i))
    (rst_resume_token st) (rst_last_stdout_sequence st) (rst_last_stderr_sequence st) []).
  destruct (await_replay rcid rmode (oi_next_token i) p q [] s0) as (cs2 & E & Hpe & Hk2 & Htok2 & _);
    [done|by split|apply Forall_forall; intros f Hf; apply Hz; rewrite Hlog; set_solver|].
  rewrite app_nil_r in E. assert (cse_session_id s0 = uuid_to_string id) as Hs0 by (cbn; by rewrite Hid1).
  rewrite Hs0 in E. exists (cse_resume_token cs1), (last_seen Stdout p), (last_seen Stderr p), r, cs2. split_and!.
  - unfold resume_request. cbn. rewrite Hid1, Hsid, Ho, He. by rewrite !since_last_seen.
  - exact Hh.
  - rewrite Hd. exact E.
  - rewrite Hpe, Hlog, fmap_app. done.
  - done.
  - by rewrite Hlog.
Qed.
End resume.

(** ** Executing a command, end to end *)
Section execute.
Context (debug : proto.ServerPayload → string) (debug_mode : CommandSessionMode → string).

(** Receiving takes something from the session. *)
Definition left_over (s : CapabilitySession) : nat := length (cse_stream s) + length (cse_pending_events s).

Lemma recv_loop_shrinks stream s s' e : recv_loop stream s = (s', Ok (Some e)) →
  (length (cse_stream s') < length stream)%nat ∧ cse_pending_events s' = cse_pending_events s.
Proof.
  revert s. induction stream as [|[message|x] stream IH]; intros s; cbn; [done| |done].
  destruct (proto.sm_payload message) as [[]|]; try (intros [= <- _]; split; [cbn; lia|done]).
  - intros [? ?]%IH. split; [lia|done].
  - intros [= <- _]. split; [cbn; lia|]. apply note_sequence_frame.
  - intros [? Hp]%IH. split; [lia|]. rewrite Hp. unfold keep_token. by destruct (str_is_empty _).
  - intros [? ?]%IH. split; [lia|done].
Qed.

Lemma recv_shrinks s s' e : recv s = (s', Ok (Some e)) → (left_over s' < left_over s)%nat.
Proof.
  unfold recv, left_over. destruct (cse_pending_events s) eqn:Hp; [|intros [= <- _]; cbn; lia].
  intros [? Hp']%recv_loop_shrinks. rewrite Hp', Hp. cbn. lia.
Qed.

(** The loop of [execute_command] ends. *)
Lemma exec_loop_ends fuel s code : (left_over s < fuel)%nat → is_Some (exec_loop fuel s code).
Proof.
  revert s code. induction fuel as [|fuel IH]; intros s code Hf; [lia|]. cbn [exec_loop].
  destruct (recv s) as [s' [[e|]|err]] eqn:E; [|by eexists..]. apply recv_shrinks in E.
  destruct (exec_event e code) as [out [code'| |err]]; [|by eexists..].
  destruct (IH s' code' ltac:(lia)) as [[out' r] ->]. by eexists.
Qed.
Lemma run_command_ends command_id s : is_Some (run_command debug_mode command_id s).
Proof.
  unfold run_command. case_bool_decide; [by eexists|]. apply exec_loop_ends. unfold left_over, exec_fuel. lia.
Qed.

(** What the callback is told about an event of the server. *)
Definition told (e : SessionServerEvent) : list CommandStreamEvent :=
  match e with SOutput data stderr _ _ => [if stderr then EvStderr (text_of data) else EvStdout (text_of data)] | _ => [] end.
Definition told_on (stderr : bool) (out : list CommandStreamEvent) : list string :=
  omap (λ e, match e with EvStdout t => if stderr then None else Some t | EvStderr t => if stderr then Some t else None end) out.

Lemma told_outputs stderr outs : told_on stderr (outs ≫= told) = text_of <$> shown stderr outs.
Proof.
  induction outs as [|e outs IH]; [done|]. rewrite bind_cons. unfold told_on in *. rewrite omap_app, IH.
  destruct e as [|data [] ? ?| | | |]; try done; by destruct stderr.
Qed.

Lemma exec_outputs sid cid mode bes rest fuel s code :
  Forall is_output (be_event <$> bes) → cse_pending_events s = [] →
  cse_stream s = ((Ok <$> (event_message sid cid mode <$> bes)) ++ rest)%list →
  ∃ s', cse_pending_events s' = [] ∧ cse_stream s' = rest ∧
    exec_loop (length bes + fuel) s code =
      ('(out, r) ← exec_loop fuel s' code; Some (((be_event <$> bes) ≫= told) ++ out, r)%list).
Proof.
  revert s. induction bes as [|be bes IH]; intros s Ho Hp Hst.
  { exists s. split_and!; [done..|]. cbn. by destruct (exec_loop fuel s code) as [[]|]. }
  rewrite fmap_cons in Ho. apply Forall_cons in Ho as [Hbe Ho]. cbn [length Nat.add exec_loop]. unfold recv. rewrite Hp, Hst.
  cbn [fmap list_fmap app recv_loop]. unfold event_message at 1. destruct (be_event be) as [|data stderr binary ts| | | |] eqn:Ebe; try done.
  cbn [session_event_to_proto proto.sm_payload default exec_event]. set (n := default 0 _). set (s1 := with_stream _ _).
  destruct (IH s1) as (s' & Hp' & Hs' & E); [done| |done|].
  { cbn. rewrite (proj1 (proj2 (proj2 (note_sequence_frame stderr n s)))). done. }
  exists s'. split_and!; [done..|]. rewrite E. destruct (exec_loop fuel s' code) as [[out r]|]; [|done].
  cbn [mbind option_bind]. by rewrite bind_cons.
Qed.

Lemma fmap_prefix {A B} (f : A → B) l k : l `prefix_of` k → f <$> l `prefix_of` f <$> k.
Proof. intros [j ->]. rewrite fmap_app. by eexists. Qed.

(** What [execute_command] returns for the outcome of a script. *)
Definition command_result (outcome : option (result string ExecutionResult)) : result string Z :=
  match outcome with
  | Some (Ok r) => Ok (ex_exit_code r)
  | Some (Err e) => Err (fmt ["Server reported capability error: "; String.append "Command execution failed: " e])
  | None => Ok (-1)
  end.

(** Running a command gives its exit code.  A script runs on the server until its
    loop ends; the events of its session are broadcast and forwarded as messages, and
    a client that opened the session runs [execute_command] on them.  The call
    returns the exit code of the process (-1 after a time-out, an error when waiting
    failed), and its callback got, for each stream, the text of the first lines the
    process wrote to it, in order, followed on stderr by the time-out notice if there
    was one. *)
Lemma executed_script_reports_exit_code show t ops s outcome bes sid cid :
  script_run show t ops script_init = Some s → sc_phase s = Finished outcome → str_is_empty sid = false →
  be_event <$> bes = script_session true s →
  ∃ session out, opened_session debug cid (Ok <$> (event_message sid cid OneShot <$> bes)) = Ok session ∧
    run_command debug_mode cid session = Some (out, command_result outcome) ∧
    told_on false out `prefix_of` (text_of <$> ok_lines (written false ops)) ∧
    ∃ lines, lines `prefix_of` (text_of <$> ok_lines (written true ops)) ∧
      told_on true out = (lines ++ if bool_decide (outcome = None) then [newline_after "Session timed out"] else [])%list.
Proof.
  intros Hr Hp Hsid Hbes. destruct (script_session_protocol show t ops s outcome Hr Hp) as (outs & Hs & Hout & _ & Hpre & _ & Hfrom).
  rewrite Hs in Hbes. destruct bes as [|b0 bes]; [done|]. rewrite fmap_cons in Hbes. injection Hbes as Hb0 Hbes.
  apply fmap_app_inv in Hbes as (bo & be & Ho & He & ->). destruct be as [|b1 [|b2 [|? ?]]]; try done. injection He as H1 H2.
  assert (∃ ses, opened_session debug cid (Ok <$> (event_message sid cid OneShot <$> (b0 :: bo ++ [b1; b2])%list)) = Ok ses ∧
    cse_session_mode ses = CsOneShot ∧ cse_pending_events ses = [] ∧
    cse_stream ses = Ok <$> (event_message sid cid OneShot <$> (bo ++ [b1; b2])%list)) as (ses & Hop & Hmode & Hpe & Hstr).
  { unfold opened_session. cbn [fmap list_fmap await_ready]. assert (event_message sid cid OneShot b0 = session_event_to_proto sid cid OneShot (SReady None) (be_buffered_output b0) (be_resume_token b0))
      as -> by (unfold event_message; by rewrite Hb0). cbn [session_event_to_proto proto.sm_payload proto.sm_session_id].
    rewrite Hsid. cbn. by eexists. }
  exists ses.
  destruct (exec_outputs sid cid OneShot bo (Ok <$> (event_message sid cid OneShot <$> [b1; b2])) 3 ses None) as (s' & Hp' & Hst' & E).
  { by rewrite <-Ho. } { done. } { rewrite Hstr. by rewrite !fmap_app. }
  assert (run_command debug_mode cid ses = exec_loop (length bo + 3) ses None) as Hrun.
  { unfold run_command, exec_fuel. rewrite bool_decide_ne_false_2 by done.
    f_equal. rewrite Hpe, Hstr. rewrite !length_fmap, length_app. cbn. lia. }
  assert (exec_loop 3 s' None = Some (if bool_decide (outcome = None) then [EvStderr (newline_after "Session timed out")] else [],
    command_result outcome)) as Hend.
  { cbn [exec_loop]. unfold recv. rewrite Hp', Hst'. cbn [fmap list_fmap recv_loop]. unfold event_message. rewrite <-H1, <-H2.
    destruct outcome as [[r|e]|]; [destruct Hfrom as (status & _ & ->)|..]; cbn; by rewrite ?Hp'. }
  rewrite Hend in E. cbn in E. eexists. split; [exact Hop|]. split; [rewrite Hrun; exact E|].
  rewrite <-Ho. split; [|exists (text_of <$> shown true outs)].
  - unfold told_on. rewrite omap_app. fold (told_on false (outs ≫= told)). rewrite told_outputs.
    case_bool_decide; cbn; rewrite app_nil_r; by apply fmap_prefix.
  - split; [by apply fmap_prefix|]. unfold told_on. rewrite omap_app. fold (told_on true (outs ≫= told)). rewrite told_outputs.
    by case_bool_decide.
Qed.
End execute.

(** ** Witnesses *)
#[local] Existing Instance demo_regex.
Lemma demo_regex_empty : RegexEmpty.
Proof. split; [done|]. intros []; done. Qed.
#[local] Existing Instance demo_regex_empty.
#[local] Existing Instance demo_uuid.
#[local] Existing Instance demo_uuid_laws.

Definition volume : CapabilityConfig :=
  mkCapabilityConfig "vol" "Volume" None [] false false
    [mkCapabilityParameterConfig "level" "slider" None (Some 0) (Some 100) None [] None None None None None None]
    CapabilityAclConfig_default (DefShellScript (mkShellScriptDefinition "amixer set Master {level}" 3 ∅ true CmOneShot)).

Lemma client_checked_parameters_are_accepted_witness : ∃ m',
  Parameters.validate_parameters volume {["level" := "42"]} = Ok m' ∧ m' !! "level" = Some "42".
Proof.
  destruct (client_checked_parameters_are_accepted volume {["level" := " +42 "]} {["level" := "42"]}) as (cmd & Hcmd & Hok).
  { apply validate_capability_iff. vm_compute. reflexivity. }
  vm_compute in Hcmd. injection Hcmd as <-. destruct Hok as (m' & Hm' & Hk).
  - vm_compute. reflexivity.
  - intros p d Hp Hnone. apply list_elem_of_singleton in Hp as ->. vm_compute in Hnone. discriminate Hnone.
  - exists m'. split; [exact Hm'|]. apply Hk. reflexivity.
Defined.

Definition half_read : CapabilitySession :=
  mkCapabilitySession (uuid_to_string 7%N) "sh" CsRealtime None
    (Ok <$> (frame_message (uuid_to_string 7%N) "sh" Realtime <$> [demo_frame 1 x01])) "t0" 0 0 [].
Definition resume_now : open_input := mkOpenInput (Ok None) (λ _ _, Ok tt) 0%N "" 0 0%N 1%N 5 "t1" [] [] [DvHandler; DvForward; DvHandler].
Definition went_on : SessionManager := sm_run (demo_output x01 ++ demo_output x02) demo_open.

Lemma client_resumes_exactly_once_witness : ∃ r cs2,
  resumed_session (resume_state (receive 1 half_read).2) (Ok <$> delivered r) = Ok cs2 ∧
  ((receive 1 half_read).1 ++ cse_pending_events cs2)%list = [frame_event (demo_frame 1 x01); frame_event (demo_frame 2 x02)].
Proof.
  pose proof (client_resumes_exactly_once resume_now 7%N "t0" 0 1%N demo_cap None SessionManager_new
    (demo_output x01 ++ demo_output x02) [demo_frame 1 x01] [demo_frame 2 x02] half_read "sh" Realtime None) as Hr.
  destruct (attach_with_token 1%N 5 "t1" 7%N (mkAttachmentMetadata None) "t0" went_on) as [m1 [att|e]] eqn:Ha;
    [|vm_compute in Ha; discriminate Ha].
  destruct (Hr m1 att) as (tok & lo & le & r & cs2 & _ & _ & E & Hall & _); clear Hr; try reflexivity.
  - repeat constructor; simpl; tauto.
  - vm_compute. lia.
  - repeat split; reflexivity.
  - vm_compute. lia.
  - split; reflexivity.
  - exact Ha.
  - exists r, cs2. split; [exact E|]. vm_compute in Hall. exact Hall.
Defined.

Definition demo_script_ops : list script_op :=
  [PWrite false (Ok "one"); ReadLine false 5; PWrite true (Ok "oops"); Sent; PExit (Some 3); ReadLine true 6; Sent;
   ReadEof false; Waited true].


(** The event loop broadcasts the events one by one, and the task and the client follow. *)
Definition follow_event (e : SessionServerEvent) : list delivery_op :=
  [DvManager (SmLoop 1 7 (Some e)); DvManager (SmLoop 1 7 None); DvManager (SmLoop 1 7 None); DvForward; DvForward; DvRead].
Definition demo_script_end : option Script := script_run true 10 demo_script_ops script_init.
Definition demo_script_messages : list proto.SessionServerMessage :=
  match demo_script_end with
  | Some s => rp_read (delivery_run (script_session true s ≫= follow_event) (demo_open, response_start 7%N "sh" OneShot 0 [])).2
  | None => []
  end.

Lemma demo_script_reaches_client s : demo_script_end = Some s →
  reaches_client 7%N "sh" OneShot (script_session true s) demo_script_messages.
Proof.
  intros E. exists "t0", 0, 1%N, demo_cap, None, SessionManager_new, (script_session true s ≫= follow_event). fold demo_open.
  unfold demo_script_messages. rewrite E. vm_compute in E. injection E as <-. eexists _, _. split; [repeat constructor; vm_compute; tauto|]. split; [vm_compute; reflexivity|].
  split; [vm_compute; reflexivity|]. split; [by vm_compute|]. split; vm_compute; reflexivity.
Qed.
