(* ===== verification/Interactive.v ===== *)
(** * The interactive shell capability (server/src/capabilities/shell_interactive.rs, Unix)

    A shell runs on a pseudo-terminal.  One task forwards what it prints, one waits
    for it, and a [select!] loop serves the client and watches the two time limits.
    The three are a step machine: the process, the reader and the loop move in any
    order.  System calls, the clock and the process's behaviour are inputs. *)

From S2P Require Import Prelude RustStd ThirdParty Fs Config Validation Registry SessionState SessionManager.

Local Open Scope string_scope.
Local Open Scope Z_scope.

(** ** Opening a session *)
Definition shell_interactive_open (metadata : CapabilityMetadata) : result string unit :=
  bail! fmt ["Capability '"; md_id metadata; "' misconfigured: interactive shell must be realtime session"]
    when bool_decide (md_session_mode metadata ≠ Realtime);
  Ok tt.

(** [CString::new] refuses a zero byte. *)
Definition cstring (s : string) : result string string :=
  bail! "nul byte found in provided data" when str_contains_char "000" s; Ok s.
Fixpoint cstrings (l : list string) : result string (list string) :=
  match l with [] => Ok [] | s :: l' => c ← cstring s; cs ← cstrings l'; Ok (c :: cs) end.
Fixpoint cpairs (l : list (string * string)) : result string (list (string * string)) :=
  match l with
  | [] => Ok []
  | (k, v) :: l' => k ← cstring k; v ← cstring v; rest ← cpairs l'; Ok ((k, v) :: rest)
  end.

(** What the process is started with; the environment comes in the order the hash
    map yields it. *)
Record ShellCommand := mkShellCommand { sc_argv : list string; sc_dir : option string; sc_env : list (string * string) }.
Definition prepare_shell (shell_path : string) (shell_args : list string) (working_dir : option string) (env : list (string * string))
    : result string ShellCommand :=
  env_pairs ← cpairs env;
  let env_pairs := if existsb (λ kv, bool_decide (kv.1 = "TERM")) env_pairs then env_pairs
                   else (env_pairs ++ [("TERM", "xterm-256color")])%list in
  dir ← match working_dir with Some d => d ← cstring d; Ok (Some d) | None => Ok None end;
  path ← cstring shell_path;
  args ← cstrings shell_args;
  Ok (mkShellCommand (path :: args) dir env_pairs).

(** [spawn_shell_with_pty] in the parent: the answer of [forkpty], and whether the
    descriptor can be registered. *)
Definition spawn_shell_with_pty (forkpty : result string Z) (registered : result string unit) : result string Z :=
  pid ← map_err (λ e, fmt ["forkpty failed: "; e]) forkpty;
  _ ← map_err (λ e, fmt ["Failed to wrap PTY descriptor: "; e]) registered;
  Ok pid.

(** ** The end of the process *)
Record ExitMetadata := mkExitMetadata { xm_timed_out : bool; xm_message : option string }.
Record ChildExit := mkChildExit { ch_code : Z; ch_message : option string }.
Definition ChildExit_default : ChildExit := mkChildExit (-1) (Some "Process exited unexpectedly").

(** What [waitpid] reports, calls interrupted by a signal left out. *)
Inductive wait_status := WaitFailed (err : string) | WExited (status : Z) | WSignaled (signal : Z) | WOther | WaitCancelled.
Definition wait_for_child (w : wait_status) : ChildExit :=
  match w with
  | WaitFailed err => mkChildExit (-1) (Some (fmt ["waitpid failed: "; err]))
  | WExited status => mkChildExit status None
  | WSignaled signal => mkChildExit (- signal) (Some (fmt ["Process terminated by signal "; pretty signal]))
  | WOther => ChildExit_default
  | WaitCancelled => mkChildExit (-1) (Some "waitpid task cancelled")
  end.

(** ** Writing to the terminal *)
(** One attempt of the loop of [pty_write]: how many bytes the call took, an error, or
    that it would block. *)
Inductive write_try := Wrote (n : nat) | WriteFailed | WouldBlock.
(** The bytes written, and the result; [None]: still waiting. *)
Fixpoint pty_write (tries : list write_try) (data : bytes) : bytes * option bool :=
  match data, tries with
  | [], _ => ([], Some true)
  | _, [] => ([], None)
  | _, WouldBlock :: tries' => pty_write tries' data
  | _, WriteFailed :: _ => ([], Some false)
  | _, Wrote n :: tries' =>
      let '(w, r) := pty_write tries' (drop n data) in ((take n data ++ w)%list, r)
  end.

(** [resize_pty]: the columns and rows given to the terminal, each cut to 16 bits. *)
Definition resize_pty (cols rows : Z) : Z * Z := (wrap_u 16 cols, wrap_u 16 rows).

(** ** The session *)
(** Times are nanoseconds.  [sh_sent] is what was put into the outbound channel;
    [sh_sigterms] counts the signals sent to the process. *)
Record Shell := mkShell {
  sh_start : Z;
  sh_last_activity : Z;
  sh_idle : option Z;
  sh_max : option Z;
  sh_meta : option ExitMetadata;
  sh_exit : option ChildExit;      (* the process has ended *)
  sh_reader : bool;                (* the reader task runs *)
  sh_done : bool;                  (* the loop has ended *)
  sh_panicked : bool;
  sh_sigterms : nat;
  sh_tty : bytes;                  (* written to the terminal *)
  sh_winsize : Z * Z;
  sh_sent : list SessionServerEvent;
  sh_closed : bool;                (* [Closed] has been sent *)
  sh_listening : bool;             (* the session's event loop still receives *)
}.

Definition shell_init (shell_path : string) (idle max : option Z) (now : Z) : Shell :=
  mkShell now now idle max None None true false false 0 [] (80, 24) [SReady (Some (fmt ["Shell started: "; shell_path]))] false true.

Definition send_event (e : SessionServerEvent) (s : Shell) : Shell :=
  mkShell (sh_start s) (sh_last_activity s) (sh_idle s) (sh_max s) (sh_meta s) (sh_exit s) (sh_reader s) (sh_done s) (sh_panicked s)
    (sh_sigterms s) (sh_tty s) (sh_winsize s) (sh_sent s ++ [e])%list (sh_closed s) (sh_listening s).
(** [terminate_child] with the reason kept for the exit event. *)
Definition terminate (pid : Z) (meta : ExitMetadata) (s : Shell) : Shell :=
  mkShell (sh_start s) (sh_last_activity s) (sh_idle s) (sh_max s) (Some meta) (sh_exit s) (sh_reader s) (sh_done s) (sh_panicked s)
    (if 0 <? pid then S (sh_sigterms s) else sh_sigterms s) (sh_tty s) (sh_winsize s) (sh_sent s) (sh_closed s) (sh_listening s).
Definition clear_idle (s : Shell) : Shell :=
  mkShell (sh_start s) (sh_last_activity s) None (sh_max s) (sh_meta s) (sh_exit s) (sh_reader s) (sh_done s) (sh_panicked s)
    (sh_sigterms s) (sh_tty s) (sh_winsize s) (sh_sent s) (sh_closed s) (sh_listening s).
Definition clear_max (s : Shell) : Shell :=
  mkShell (sh_start s) (sh_last_activity s) (sh_idle s) None (sh_meta s) (sh_exit s) (sh_reader s) (sh_done s) (sh_panicked s)
    (sh_sigterms s) (sh_tty s) (sh_winsize s) (sh_sent s) (sh_closed s) (sh_listening s).
Definition type_bytes (b : bytes) (activity : option Z) (s : Shell) : Shell :=
  mkShell (sh_start s) (default (sh_last_activity s) activity) (sh_idle s) (sh_max s) (sh_meta s) (sh_exit s) (sh_reader s) (sh_done s)
    (sh_panicked s) (sh_sigterms s) (sh_tty s ++ b)%list (sh_winsize s) (sh_sent s) (sh_closed s) (sh_listening s).
Definition set_winsize (w : Z * Z) (s : Shell) : Shell :=
  mkShell (sh_start s) (sh_last_activity s) (sh_idle s) (sh_max s) (sh_meta s) (sh_exit s) (sh_reader s) (sh_done s) (sh_panicked s)
    (sh_sigterms s) (sh_tty s) w (sh_sent s) (sh_closed s) (sh_listening s).
Definition child_ended (e : ChildExit) (s : Shell) : Shell :=
  mkShell (sh_start s) (sh_last_activity s) (sh_idle s) (sh_max s) (sh_meta s) (Some e) (sh_reader s) (sh_done s) (sh_panicked s)
    (sh_sigterms s) (sh_tty s) (sh_winsize s) (sh_sent s) (sh_closed s) (sh_listening s).
Definition reader_ended (s : Shell) : Shell :=
  mkShell (sh_start s) (sh_last_activity s) (sh_idle s) (sh_max s) (sh_meta s) (sh_exit s) false (sh_done s) (sh_panicked s)
    (sh_sigterms s) (sh_tty s) (sh_winsize s) (sh_sent s) (sh_closed s) (sh_listening s).
Definition loop_ended (done panicked : bool) (s : Shell) : Shell :=
  mkShell (sh_start s) (sh_last_activity s) (sh_idle s) (sh_max s) (sh_meta s) (sh_exit s) (sh_reader s) done panicked
    (sh_sigterms s) (sh_tty s) (sh_winsize s) (sh_sent s) (sh_closed s) (sh_listening s).

Definition said_closed (s : Shell) : Shell :=
  mkShell (sh_start s) (sh_last_activity s) (sh_idle s) (sh_max s) (sh_meta s) (sh_exit s) (sh_reader s) (sh_done s) (sh_panicked s)
    (sh_sigterms s) (sh_tty s) (sh_winsize s) (sh_sent s) true (sh_listening s).
Definition not_listening (s : Shell) : Shell :=
  mkShell (sh_start s) (sh_last_activity s) (sh_idle s) (sh_max s) (sh_meta s) (sh_exit s) (sh_reader s) (sh_done s) (sh_panicked s)
    (sh_sigterms s) (sh_tty s) (sh_winsize s) (sh_sent s) (sh_closed s) false.

(** [Instant + Duration] panics past the range of the seconds. *)
Definition instant_add (t secs : Z) : option Z := if t / NANOS + secs <=? I64_MAX then Some (t + secs * NANOS) else None.
(** The deadlines computed at the start of a round; [None]: a panic. *)
Definition deadline_of (t : Z) (secs : option Z) : option (option Z) :=
  match secs with Some n => Some <$> instant_add t n | None => Some None end.
Definition deadlines (s : Shell) : option (option Z * option Z) :=
  idle ← deadline_of (sh_last_activity s) (sh_idle s); max ← deadline_of (sh_start s) (sh_max s); Some (idle, max).

Inductive shell_op :=
  | ShPrint (data : bytes) (timestamp_ms : Z)        (* the reader got output *)
  | ShReadEnd                                        (* the reader met the end or an error *)
  | ShChild (w : option wait_status)                 (* the process ended; [None]: the waiting task was dropped *)
  | ShExit                                           (* the loop takes the exit branch *)
  | ShClosed                                         (* and sends [Closed] *)
  | ShHangUp                                         (* the session's event loop has met [Closed] and stops receiving *)
  | ShClient (event : SessionClientEvent) (tries : list write_try) (ioctl_ok : bool) (now : Z)
  | ShDisconnected                                   (* [recv] returned [None] *)
  | ShTick
  | ShIdle (now : Z)
  | ShMax (now : Z).

Definition due (deadline : option Z) (now : Z) : bool := match deadline with Some d => d <=? now | None => false end.

(** A branch of the loop; [None]: the branch is not ready. *)
Definition loop_branch (pid : Z) (op : shell_op) (idle max : option Z) (s : Shell) : option Shell :=
  match op with
  | ShExit =>
      exit ← sh_exit s;
      let metadata := default (mkExitMetadata false (ch_message exit)) (sh_meta s) in
      Some (loop_ended true false (send_event (SExit (ch_code exit) (xm_timed_out metadata) (xm_message metadata)) s))
  | ShClient (CInput data _) tries _ now =>
      match pty_write tries data with
      | (_, None) => None
      | (written, Some ok) => Some (type_bytes written (if ok : bool then Some now else None) s)
      end
  | ShClient (CResize cols rows) _ ioctl_ok _ => Some (if ioctl_ok : bool then set_winsize (resize_pty cols rows) s else s)
  | ShClient (CHeartbeat timestamp_ms) _ _ _ => Some (send_event (SHeartbeatAck timestamp_ms (Some 0)) s)
  | ShClient (CClose reason) _ _ _ => Some (terminate pid (mkExitMetadata false reason) s)
  | ShClient (CResume _ _ _) _ _ _ => Some s
  | ShDisconnected => Some (terminate pid (mkExitMetadata false (Some "Client disconnected")) s)
  | ShTick => Some s
  | ShIdle now => if due idle now then Some (terminate pid (mkExitMetadata true (Some "Idle timeout reached")) (clear_idle s)) else None
  | ShMax now =>
      if due max now then Some (terminate pid (mkExitMetadata true (Some "Session duration limit exceeded")) (clear_max s)) else None
  | _ => None
  end.

Definition shell_step (pid : Z) (op : shell_op) (s : Shell) : option Shell :=
  match op with
  | ShPrint data ts =>
      if sh_reader s then Some (if sh_listening s then send_event (SOutput data false true (Some ts)) s else reader_ended s) else None
  | ShReadEnd => if sh_reader s then Some (reader_ended s) else None
  | ShChild w =>
      match sh_exit s with
      | None => Some (child_ended (match w with Some w => wait_for_child w | None => ChildExit_default end) s)
      | Some _ => None
      end
  | ShClosed => if sh_done s && negb (sh_closed s) then Some (said_closed (send_event (SClosed (Some "Session terminated")) s)) else None
  | ShHangUp => if sh_closed s then Some (not_listening s) else None
  | _ =>
      if sh_done s || sh_panicked s then None
      else match deadlines s with
           | None => Some (loop_ended false true s)
           | Some (idle, max) => loop_branch pid op idle max s
           end
  end.

Fixpoint shell_run (pid : Z) (ops : list shell_op) (s : Shell) : option Shell :=
  match ops with [] => Some s | op :: ops' => s' ← shell_step pid op s; shell_run pid ops' s' end.

(** ** Writing *)
Lemma pty_write_prefix tries data : (pty_write tries data).1 `prefix_of` data ∧ ((pty_write tries data).2 = Some true → (pty_write tries data).1 = data).
Proof.
  revert data. induction tries as [|[n| |] tries IH]; intros [|x data]; cbn [pty_write]; try (split; [apply prefix_nil|done]).
  - destruct (IH (drop n (x :: data))) as [Hp Hok]. destruct (pty_write tries (drop n (x :: data))) as [w r]. cbn [fst snd] in *. split.
    + rewrite <-(take_drop n (x :: data)) at 2. by apply prefix_app.
    + intros Hr. rewrite Hok by done. apply take_drop.
  - apply IH.
Qed.

(** ** The life of a session *)
(** Why an operation of the loop asks the process to end. *)
Definition reason_of (op : shell_op) : option ExitMetadata :=
  match op with
  | ShClient (CClose reason) _ _ _ => Some (mkExitMetadata false reason)
  | ShDisconnected => Some (mkExitMetadata false (Some "Client disconnected"))
  | ShIdle _ => Some (mkExitMetadata true (Some "Idle timeout reached"))
  | ShMax _ => Some (mkExitMetadata true (Some "Session duration limit exceeded"))
  | _ => None
  end.
Definition reasons (ops : list shell_op) : list ExitMetadata := omap reason_of ops.

Definition is_output_event (e : SessionServerEvent) : bool := match e with SOutput _ _ _ _ => true | _ => false end.
(** The events other than output. *)
Definition controls (s : Shell) : list SessionServerEvent := filter (λ e, is_output_event e = false) (sh_sent s).
Definition outputs_of (l : list SessionServerEvent) : list bytes := omap (λ e, match e with SOutput data _ _ _ => Some data | _ => None end) l.
Definition read_of (ops : list shell_op) : list bytes := omap (λ op, match op with ShPrint data _ => Some data | _ => None end) ops.
Definition heartbeats (ops : list shell_op) : list SessionServerEvent :=
  omap (λ op, match op with ShClient (CHeartbeat ts) _ _ _ => Some (SHeartbeatAck ts (Some 0)) | _ => None end) ops.

(** The last two events. *)
Definition farewell (exit : ChildExit) (ops : list shell_op) : list SessionServerEvent :=
  let metadata := default (mkExitMetadata false (ch_message exit)) (last (reasons ops)) in
  [SExit (ch_code exit) (xm_timed_out metadata) (xm_message metadata); SClosed (Some "Session terminated")].
(** Those that have been sent. *)
Definition farewell_said (s : Shell) (ops : list shell_op) : list SessionServerEvent :=
  match sh_exit s with
  | Some e => if sh_done s then take (if sh_closed s then 2 else 1) (farewell e ops) else []
  | None => []
  end.

(** The session's event loop receives up to [Closed]. *)
Fixpoint until_closed (l : list SessionServerEvent) : list SessionServerEvent :=
  match l with [] => [] | e :: l => e :: if is_closed e then [] else until_closed l end.
Definition closes (op : shell_op) : bool := match op with ShClosed => true | _ => false end.
Fixpoint before_closed (ops : list shell_op) : list shell_op :=
  match ops with [] => [] | op :: ops => if closes op then [] else op :: before_closed ops end.

Lemma until_closed_app l k : until_closed (l ++ k)%list = if existsb is_closed l then until_closed l else (l ++ until_closed k)%list.
Proof. induction l as [|e l IH]; cbn; [done|]. destruct (is_closed e); [done|]. cbn. rewrite IH. by destruct (existsb is_closed l). Qed.
Lemma until_closed_open l : existsb is_closed l = false → until_closed l = l.
Proof. intros Hl. rewrite <-(app_nil_r l) at 1. rewrite until_closed_app, Hl. by rewrite app_nil_r. Qed.
Lemma before_closed_app l k : before_closed (l ++ k)%list = if existsb closes l then before_closed l else (l ++ before_closed k)%list.
Proof. induction l as [|e l IH]; cbn; [done|]. destruct (closes e); [done|]. cbn. rewrite IH. by destruct (existsb closes l). Qed.
Lemma before_closed_open l : existsb closes l = false → before_closed l = l.
Proof. intros Hl. rewrite <-(app_nil_r l) at 1. rewrite before_closed_app, Hl. by rewrite app_nil_r. Qed.

(** *** What the session hears of the output *)
Record heard_inv (ops : list shell_op) (s : Shell) : Prop := {
  hv_ops : sh_closed s = existsb closes ops;
  hv_sent : sh_closed s = existsb is_closed (sh_sent s);
  hv_listening : sh_closed s = false → sh_listening s = true;
  hv_heard : outputs_of (until_closed (sh_sent s)) = read_of (before_closed ops);
}.

(** A step that adds [evs], no [Closed] among them. *)
Lemma heard_step ops op s s' evs : heard_inv ops s → sh_sent s' = (sh_sent s ++ evs)%list → sh_closed s' = sh_closed s → closes op = false →
  existsb is_closed evs = false → (sh_closed s = false → sh_listening s' = true ∧ outputs_of evs = read_of [op]) →
  heard_inv (ops ++ [op])%list s'.
Proof.
  intros [H1 H2 H3 H4] Hs Hc Hop He Ho. split; rewrite ?Hs, ?Hc, ?existsb_app, ?until_closed_app, ?before_closed_app; cbn [existsb].
  - rewrite Hop. cbn. by rewrite orb_false_r.
  - by rewrite He, orb_false_r.
  - intros Hf. by apply Ho.
  - rewrite <-H1, <-H2. destruct (sh_closed s) eqn:Ec; [done|]. rewrite until_closed_open in * by done. rewrite before_closed_open in H4 by done.
    cbn [before_closed]. rewrite Hop. unfold outputs_of, read_of in *. rewrite !omap_app, H4. f_equal. by apply Ho.
Qed.

Lemma heard_same ops op s s' : heard_inv ops s → sh_sent s' = sh_sent s → sh_closed s' = sh_closed s → sh_listening s' = sh_listening s →
  closes op = false → read_of [op] = [] → heard_inv (ops ++ [op])%list s'.
Proof.
  intros Hi Hs Hc Hl Hop Hr. apply (heard_step ops op s s' []); try done; [by rewrite app_nil_r|]. rewrite Hl, Hr. intros Hf. split; [by apply Hi|done].
Qed.

Lemma shell_step_heard pid ops op s s' : shell_step pid op s = Some s' → heard_inv ops s → heard_inv (ops ++ [op])%list s'.
Proof.
  intros Hs Hi. pose proof (hv_listening _ _ Hi) as Hl. destruct op as [data ts| |w| | | |ev tries ok now| | |now|now]; cbn in Hs.
  - destruct (sh_reader s); [|done]. injection Hs as <-. destruct (sh_listening s) eqn:El.
    + by apply (heard_step ops _ s _ [SOutput data false true (Some ts)]).
    + apply (heard_step ops _ s _ []); try done; [cbn; by rewrite app_nil_r|]. intros Hc. by specialize (Hl Hc).
  - destruct (sh_reader s); [|done]. injection Hs as <-. by apply (heard_same ops _ s).
  - destruct (sh_exit s); [done|]. injection Hs as <-. by apply (heard_same ops _ s).
  - destruct (sh_done s || sh_panicked s); [done|]. destruct (deadlines s) as [[i x]|]; [apply bind_Some in Hs as (e & He & [= <-])|injection Hs as <-].
    + eapply heard_step; [exact Hi|reflexivity|done..|cbn; auto].
    + by apply (heard_same ops _ s).
  - destruct (sh_done s); [|done]. destruct (sh_closed s) eqn:Ec; [done|]. injection Hs as <-. destruct Hi as [H1 H2 H3 H4]. rewrite Ec in *.
    split; cbn; rewrite ?existsb_app, <-?H1, <-?H2; try done. rewrite until_closed_app, before_closed_app, <-H1, <-H2. cbn.
    rewrite until_closed_open in H4 by done. rewrite before_closed_open in H4 by done. unfold outputs_of, read_of in *. by rewrite !omap_app, H4.
  - destruct (sh_closed s) eqn:Ec; [|done]. injection Hs as <-. apply (heard_step ops _ s _ []); try done; cbn; [by rewrite app_nil_r|congruence].
  - repeat (case_match; try done); simplify_eq/=;
      (eapply heard_same; [exact Hi|done..]) || (eapply heard_step; [exact Hi|reflexivity|done..|cbn; auto]).
  - repeat (case_match; try done); simplify_eq/=; (eapply heard_same; [exact Hi|done..]).
  - repeat (case_match; try done); simplify_eq/=; (eapply heard_same; [exact Hi|done..]).
  - repeat (case_match; try done); simplify_eq/=; (eapply heard_same; [exact Hi|done..]).
  - repeat (case_match; try done); simplify_eq/=; (eapply heard_same; [exact Hi|done..]).
Qed.

(** *** The other events *)
Record shell_inv (pid : Z) (ready : SessionServerEvent) (ops : list shell_op) (s : Shell) : Prop := {
  iv_exit : ∀ e, sh_exit s = Some e → ∃ w, ShChild w ∈ ops ∧ e = match w with Some w => wait_for_child w | None => ChildExit_default end;
  iv_done : sh_done s = true → is_Some (sh_exit s) ∧ sh_panicked s = false;
  iv_closed : sh_closed s = true → sh_done s = true;
  iv_meta : sh_panicked s = false → sh_meta s = last (reasons ops);
  iv_signals : sh_panicked s = false → 0 < pid → sh_sigterms s = length (reasons ops);
  iv_controls : sh_panicked s = false → controls s = (ready :: heartbeats ops ++ farewell_said s ops)%list;
}.

Lemma controls_send e s : controls (send_event e s) = (controls s ++ if is_output_event e then [] else [e])%list.
Proof. unfold controls. cbn. rewrite filter_app, filter_cons. destruct (is_output_event e); by rewrite filter_nil. Qed.
Lemma reasons_snoc ops op : reasons (ops ++ [op])%list = (reasons ops ++ option_list (reason_of op))%list.
Proof. unfold reasons. rewrite omap_app. cbn. by destruct (reason_of op). Qed.
Lemma heartbeats_snoc ops op : heartbeats (ops ++ [op])%list = (heartbeats ops ++ heartbeats [op])%list.
Proof. unfold heartbeats. apply omap_app. Qed.
Lemma farewell_snoc e ops op : reason_of op = None → farewell e (ops ++ [op])%list = farewell e ops.
Proof. intros Hn. unfold farewell. by rewrite reasons_snoc, Hn, app_nil_r. Qed.

(** What the invariant reads of a state. *)
Record same_view (s s' : Shell) : Prop := {
  sv_controls : controls s' = controls s;
  sv_exit : sh_exit s' = sh_exit s;
  sv_done : sh_done s' = sh_done s;
  sv_closed : sh_closed s' = sh_closed s;
  sv_panicked : sh_panicked s' = sh_panicked s;
}.

Lemma inv_exit_mono pid ready ops op s : shell_inv pid ready ops s → ∀ e, sh_exit s = Some e →
  ∃ w, ShChild w ∈ (ops ++ [op])%list ∧ e = match w with Some w => wait_for_child w | None => ChildExit_default end.
Proof. intros Hi e He. destruct (iv_exit _ _ _ _ Hi e He) as (w & Hw & ->). exists w. set_solver. Qed.

(** A step that says nothing but output and gives no reason to end the process. *)
Lemma shell_inv_quiet pid ready ops op s s' : same_view s s' → heartbeats [op] = [] → reason_of op = None →
  sh_meta s' = sh_meta s → sh_sigterms s' = sh_sigterms s →
  shell_inv pid ready ops s → shell_inv pid ready (ops ++ [op])%list s'.
Proof.
  intros [Hs He Hd Hc Hp] Hb Hn Hm Hsig Hi. split.
  - rewrite He. by eapply inv_exit_mono.
  - rewrite Hd, He, Hp. apply Hi.
  - rewrite Hc, Hd. apply Hi.
  - rewrite Hp, Hm, reasons_snoc, Hn, app_nil_r. apply Hi.
  - rewrite Hp, Hsig, reasons_snoc, Hn, app_nil_r. apply Hi.
  - rewrite Hp. intros Hpf. rewrite Hs, (iv_controls _ _ _ _ Hi Hpf), heartbeats_snoc, Hb, app_nil_r. unfold farewell_said.
    rewrite He, Hd, Hc. by destruct (sh_exit s); rewrite ?farewell_snoc.
Qed.

Lemma terminate_step pid ready ops op r s s0 :
  same_view s s0 → sh_sigterms s0 = sh_sigterms s → sh_done s = false → heartbeats [op] = [] → reason_of op = Some r →
  shell_inv pid ready ops s → shell_inv pid ready (ops ++ [op])%list (terminate pid r s0).
Proof.
  intros [Hs He Hdn Hcl Hp] Hsig Hd Hb Hn Hi. split.
  - cbn. rewrite He. by eapply inv_exit_mono.
  - cbn. rewrite Hdn. congruence.
  - cbn. rewrite Hcl, Hdn. apply Hi.
  - intros _. rewrite reasons_snoc, Hn. cbn. by rewrite last_snoc.
  - cbn. rewrite Hp. intros Hpf Hpid. rewrite reasons_snoc, Hn, length_app, (proj2 (Z.ltb_lt 0 pid) Hpid), Hsig. cbn.
    rewrite (iv_signals _ _ _ _ Hi) by done. lia.
  - intros Hpf. cbn in Hpf. rewrite Hp in Hpf. change (controls (terminate pid r s0)) with (controls s0). rewrite Hs, (iv_controls _ _ _ _ Hi Hpf), heartbeats_snoc, Hb, app_nil_r.
    unfold farewell_said. cbn. rewrite He, Hdn, Hd. by destruct (sh_exit s).
Qed.

Lemma child_step pid ready ops w s : sh_exit s = None → shell_inv pid ready ops s →
  shell_inv pid ready (ops ++ [ShChild w])%list (child_ended (match w with Some w => wait_for_child w | None => ChildExit_default end) s).
Proof.
  intros He Hi. assert (sh_done s = false) as Hd.
  { destruct (sh_done s) eqn:Hd; [|done]. destruct (iv_done _ _ _ _ Hi Hd) as [[e He'] _]. congruence. }
  split.
  - cbn. intros e [= <-]. exists w. set_solver.
  - cbn. congruence.
  - cbn. apply Hi.
  - cbn. rewrite reasons_snoc, app_nil_r. apply Hi.
  - cbn. rewrite reasons_snoc, app_nil_r. apply Hi.
  - intros Hp. change (controls (child_ended ?e s)) with (controls s). rewrite (iv_controls _ _ _ _ Hi Hp), heartbeats_snoc. unfold farewell_said. cbn.
    by rewrite He, Hd, !app_nil_r.
Qed.

Lemma exit_step pid ready ops s e : sh_exit s = Some e → sh_done s = false → sh_panicked s = false → shell_inv pid ready ops s →
  let metadata := default (mkExitMetadata false (ch_message e)) (sh_meta s) in
  shell_inv pid ready (ops ++ [ShExit])%list
    (loop_ended true false (send_event (SExit (ch_code e) (xm_timed_out metadata) (xm_message metadata)) s)).
Proof.
  intros He Hd Hp Hi metadata. assert (sh_closed s = false) as Hc.
  { destruct (sh_closed s) eqn:Hc; [|done]. apply (iv_closed _ _ _ _ Hi) in Hc. congruence. }
  split.
  - cbn. by eapply inv_exit_mono.
  - cbn. by rewrite He.
  - done.
  - cbn. rewrite reasons_snoc, app_nil_r. intros _. by apply Hi.
  - cbn. rewrite reasons_snoc, app_nil_r. intros _. by apply Hi.
  - intros _. change (controls (loop_ended true false ?x)) with (controls x). rewrite controls_send. cbn [is_output_event].
    rewrite (iv_controls _ _ _ _ Hi Hp), heartbeats_snoc. unfold farewell_said. cbn [loop_ended send_event sh_exit sh_done sh_closed].
    rewrite He, Hd, Hc, farewell_snoc by done. unfold farewell. subst metadata. rewrite (iv_meta _ _ _ _ Hi Hp). cbn. by rewrite !app_nil_r.
Qed.

Lemma closed_step pid ready ops s : sh_done s = true → sh_closed s = false → shell_inv pid ready ops s →
  shell_inv pid ready (ops ++ [ShClosed])%list (said_closed (send_event (SClosed (Some "Session terminated")) s)).
Proof.
  intros Hd Hc Hi. destruct (iv_done _ _ _ _ Hi Hd) as [[e He] Hp].
  split; try (intros; cbn; rewrite reasons_snoc, app_nil_r; by apply Hi); try done.
  - cbn. by eapply inv_exit_mono.
  - intros _. change (controls (said_closed ?x)) with (controls x). rewrite controls_send. cbn [is_output_event].
    rewrite (iv_controls _ _ _ _ Hi Hp), heartbeats_snoc. unfold farewell_said. cbn [said_closed send_event sh_exit sh_done sh_closed].
    rewrite He, Hd, Hc, farewell_snoc by done. cbn. by rewrite app_nil_r, <-(assoc_L (++)).
Qed.

Lemma beat_step pid ready ops ts tries ok now s : sh_done s = false → shell_inv pid ready ops s →
  shell_inv pid ready (ops ++ [ShClient (CHeartbeat ts) tries ok now])%list (send_event (SHeartbeatAck ts (Some 0)) s).
Proof.
  intros Hd Hi. split; try (intros; cbn; rewrite reasons_snoc, app_nil_r; by apply Hi).
  - cbn. by eapply inv_exit_mono.
  - cbn. apply Hi.
  - cbn. apply Hi.
  - intros Hp. rewrite controls_send. cbn [is_output_event]. rewrite (iv_controls _ _ _ _ Hi Hp), heartbeats_snoc. unfold farewell_said. cbn. rewrite Hd.
    by destruct (sh_exit s); rewrite !app_nil_r.
Qed.

Lemma panic_step pid ready ops op s : sh_done s = false → shell_inv pid ready ops s → shell_inv pid ready (ops ++ [op])%list (loop_ended false true s).
Proof.
  intros Hd Hi. split; try done.
  - cbn. by eapply inv_exit_mono.
  - cbn. intros Hc. apply (iv_closed _ _ _ _ Hi) in Hc. congruence.
Qed.

Lemma loop_branch_inv pid ready ops op idle max s s' : sh_done s = false → sh_panicked s = false →
  loop_branch pid op idle max s = Some s' → shell_inv pid ready ops s → shell_inv pid ready (ops ++ [op])%list s'.
Proof.
  intros Hd Hp Hs Hi. destruct op as [| | | | | |[data ?|cols rows|ts|reason|? ? ?] tries ok now| | |now|now]; cbn in Hs; try done.
  - apply bind_Some in Hs as (e & He & [= <-]). by apply exit_step.
  - destruct (pty_write tries data) as [w [ok'|]]; [|done]. injection Hs as <-. by apply (shell_inv_quiet _ _ _ _ s).
  - injection Hs as <-. apply (shell_inv_quiet _ _ _ _ s); try done; by destruct ok.
  - injection Hs as <-. by apply beat_step.
  - injection Hs as <-. by apply (terminate_step _ _ _ _ _ s).
  - injection Hs as <-. by apply (shell_inv_quiet _ _ _ _ s).
  - injection Hs as <-. by apply (terminate_step _ _ _ _ _ s).
  - injection Hs as <-. by apply (shell_inv_quiet _ _ _ _ s).
  - destruct (due idle now); [|done]. injection Hs as <-. by apply (terminate_step _ _ _ _ _ s).
  - destruct (due max now); [|done]. injection Hs as <-. by apply (terminate_step _ _ _ _ _ s).
Qed.

Lemma shell_step_inv pid ready ops op s s' : shell_step pid op s = Some s' →
  shell_inv pid ready ops s → shell_inv pid ready (ops ++ [op])%list s'.
Proof.
  intros Hs Hi. assert (∀ o, (if sh_done s || sh_panicked s then None else
    match deadlines s with None => Some (loop_ended false true s) | Some (idle, max) => loop_branch pid o idle max s end) = Some s' →
    shell_inv pid ready (ops ++ [o])%list s') as Hloop.
  { intros o Ho. destruct (sh_done s) eqn:Hd; [done|]. destruct (sh_panicked s) eqn:Hp; [done|]. cbn in Ho.
    destruct (deadlines s) as [[idle max]|]; [by eapply loop_branch_inv|]. injection Ho as <-. by apply panic_step. }
  destruct op as [data ts| |w| | | |ev tries ok now| | |now|now]; cbn in Hs; try (by apply Hloop).
  - destruct (sh_reader s); [|done]. injection Hs as <-. apply (shell_inv_quiet _ _ _ _ s); try done; destruct (sh_listening s); try done.
    split; try done. by rewrite controls_send, app_nil_r.
  - destruct (sh_reader s); [|done]. injection Hs as <-. by apply (shell_inv_quiet _ _ _ _ s).
  - destruct (sh_exit s) eqn:He; [done|]. injection Hs as <-. by apply child_step.
  - destruct (sh_done s) eqn:Hd; [|done]. destruct (sh_closed s) eqn:Hc; [done|]. injection Hs as <-. by apply closed_step.
  - destruct (sh_closed s) eqn:Hc; [|done]. injection Hs as <-. by apply (shell_inv_quiet _ _ _ _ s).
Qed.

Lemma shell_run_ind (P : list shell_op → Shell → Prop) pid : (∀ ops op s s', shell_step pid op s = Some s' → P ops s → P (ops ++ [op])%list s') →
  ∀ ops s s' before, shell_run pid ops s = Some s' → P before s → P (before ++ ops)%list s'.
Proof.
  intros Hstep. induction ops as [|op ops IH]; intros s s' before Hr Hi; cbn in Hr; [injection Hr as <-; by rewrite app_nil_r|].
  apply bind_Some in Hr as (s1 & Hs & Hr). rewrite cons_middle, (assoc_L _). eapply IH; [done|]. by eapply Hstep.
Qed.


(** Output that the reader gets after the process has ended is lost: [Closed] is sent as
    soon as the loop learns of the end, without waiting for the reader. *)
Lemma last_shell_output_can_be_lost path now data ts : ∃ s,
  shell_run 42 [ShChild (Some (WExited 0)); ShExit; ShClosed; ShPrint data ts] (shell_init path None None now) = Some s ∧
  outputs_of (until_closed (sh_sent s)) = [].
Proof. eexists. split; reflexivity. Qed.

(** ** The limits *)
(** Both limits have fired, and the process is still there. *)
Record outlived (n : nat) (s : Shell) : Prop := {
  ol_idle : sh_idle s = None;
  ol_max : sh_max s = None;
  ol_exit : sh_exit s = None;
  ol_done : sh_done s = false;
  ol_panicked : sh_panicked s = false;
  ol_sigterms : sh_sigterms s = n;
}.

(** The client neither closes nor leaves, and the process does not end. *)
Definition carries_on (op : shell_op) : Prop :=
  match op with ShClient (CClose _) _ _ _ | ShDisconnected | ShChild _ => False | _ => True end.

Lemma outlived_step pid n op s s' : shell_step pid op s = Some s' → carries_on op → outlived n s → outlived n s'.
Proof.
  intros Hs Hc [Hi Hm He Hd Hp Hn]. destruct op as [| | | | | |[data ?|cols rows|ts|reason|? ? ?] tries ok now| | |now|now]; cbn in Hs, Hc; try done.
  - destruct (sh_reader s); [|done]. injection Hs as <-. by destruct (sh_listening s).
  - destruct (sh_reader s); [|done]. by injection Hs as <-.
  - rewrite Hd, Hp in Hs. cbn in Hs. unfold deadlines in Hs. rewrite Hi, Hm, He in Hs. done.
  - by rewrite Hd in Hs.
  - destruct (sh_closed s); [|done]. by injection Hs as <-.
  - rewrite Hd, Hp in Hs. cbn in Hs. unfold deadlines in Hs. rewrite Hi, Hm in Hs. cbn in Hs.
    destruct (pty_write tries data) as [w [ok'|]]; [|done]. by injection Hs as <-.
  - rewrite Hd, Hp in Hs. cbn in Hs. unfold deadlines in Hs. rewrite Hi, Hm in Hs. cbn in Hs. injection Hs as <-. by destruct ok.
  - rewrite Hd, Hp in Hs. cbn in Hs. unfold deadlines in Hs. rewrite Hi, Hm in Hs. cbn in Hs. by injection Hs as <-.
  - rewrite Hd, Hp in Hs. cbn in Hs. unfold deadlines in Hs. rewrite Hi, Hm in Hs. cbn in Hs. by injection Hs as <-.
  - rewrite Hd, Hp in Hs. cbn in Hs. unfold deadlines in Hs. rewrite Hi, Hm in Hs. cbn in Hs. by injection Hs as <-.
  - rewrite Hd, Hp in Hs. cbn in Hs. unfold deadlines in Hs. by rewrite Hi, Hm in Hs.
  - rewrite Hd, Hp in Hs. cbn in Hs. unfold deadlines in Hs. by rewrite Hi, Hm in Hs.
Qed.

Lemma outlived_run pid n ops s s' : shell_run pid ops s = Some s' → Forall carries_on ops → outlived n s → outlived n s'.
Proof.
  revert s. induction ops as [|op ops IH]; intros s Hr Hc Ho; cbn in Hr; [by injection Hr as <-|].
  apply bind_Some in Hr as (s1 & Hs & Hr). apply Forall_cons in Hc as [Hop Hc]. eapply IH; [done..|]. by eapply outlived_step.
Qed.

(** The limits only ask once.  For any idle limit and maximum duration there is a
    run in which both have passed and the process, which ignores SIGTERM as
    interactive shells do, has been sent exactly two signals; from then on, however
    much time passes and whatever the process prints and the client types, no further
    signal is sent and the session does not end. *)
Lemma limits_can_be_outlived pid path idle max now :
  0 < pid → now / NANOS + idle <= I64_MAX → now / NANOS + max <= I64_MAX →
  ∃ ops s, shell_run pid ops (shell_init path (Some idle) (Some max) now) = Some s ∧ length (reasons ops) = 2%nat ∧
    ∀ ops' s', shell_run pid ops' s = Some s' → Forall carries_on ops' →
      sh_sigterms s' = 2%nat ∧ sh_done s' = false ∧ is_Some (shell_step pid ShTick s').
Proof.
  intros Hpid Hi Hm. exists [ShIdle (now + idle * NANOS); ShMax (now + max * NANOS)].
  assert (∀ n, now / NANOS + n <= I64_MAX → instant_add now n = Some (now + n * NANOS)) as Hadd.
  { intros n Hn. unfold instant_add. by apply Z.leb_le in Hn as ->. }
  eexists. split; [|split; [done|]].
  - cbn [shell_run]. unfold shell_step. cbn [sh_done sh_panicked shell_init orb]. unfold deadlines, deadline_of.
    cbn [sh_last_activity sh_idle sh_start sh_max shell_init]. rewrite !Hadd by done.
    cbn -[Z.leb Z.mul Z.add terminate]. rewrite Z.leb_refl. cbn -[Z.leb Z.mul Z.add instant_add]. rewrite !Hadd by done.
    cbn -[Z.leb Z.mul Z.add]. rewrite Z.leb_refl. reflexivity.
  - intros ops' s' Hr Hc. apply (outlived_run pid 2) in Hr as [Ri Rm Re Rd Rp Rn]; [|done|].
    + split_and!; [done..|]. cbn. rewrite Rd, Rp. cbn. unfold deadlines. rewrite Ri, Rm. by eexists.
    + split; try done. cbn. by apply Z.ltb_lt in Hpid as ->.
Qed.

(** After the inbound channel has closed, [recv] returns at once in every round: the
    loop spins and signals the process each time. *)
Lemma disconnected_spins pid path now n : 0 < pid →
  ∃ s, shell_run pid (replicate n ShDisconnected) (shell_init path None None now) = Some s ∧ sh_sigterms s = n ∧ sh_done s = false.
Proof.
  intros Hpid. assert (∀ s k, outlived k s → ∃ s', shell_run pid (replicate n ShDisconnected) s = Some s' ∧ outlived (n + k)%nat s') as Hrun.
  { induction n as [|n IH]; intros s k Ho; [by exists s|]. cbn [replicate shell_run shell_step]. destruct Ho as [Hi Hm He Hd Hp Hn].
    rewrite Hd, Hp. cbn [orb]. unfold deadlines. rewrite Hi, Hm. cbn [deadline_of mbind option_bind loop_branch].
    destruct (IH (terminate pid (mkExitMetadata false (Some "Client disconnected")) s) (S k)) as (s' & E & Ho').
    - split; try done. cbn. apply Z.ltb_lt in Hpid as ->. by rewrite Hn.
    - exists s'. split; [exact E|]. by rewrite <-plus_n_Sm in Ho'. }
  destruct (Hrun (shell_init path None None now) 0%nat) as (s & E & Ho); [done|].
  exists s. split_and!; [done| |apply Ho]. rewrite (ol_sigterms _ _ Ho). lia.
Qed.

(** A resize keeps only 16 bits of each dimension. *)
Lemma resize_wraps : resize_pty 65536 65616 = (0, 80).
Proof. done. Qed.

(** ** Witnesses *)
Definition demo_shell_ops : list shell_op :=
  [ShPrint [x24] 1; ShClient (CHeartbeat 5) [] true 2; ShClient (CInput [x6c; x73] false) [WouldBlock; Wrote 1; Wrote 1] true 3;
   ShClient (CClose (Some "bye")) [] true 4; ShChild (Some (WSignaled 15)); ShExit; ShPrint [x25] 9; ShClosed; ShHangUp; ShPrint [x26] 10].


Lemma limits_can_be_outlived_witness : ∃ ops s,
  shell_run 42 ops (shell_init "/bin/bash" (Some 60) (Some 600) 0) = Some s ∧ length (reasons ops) = 2%nat.
Proof.
  destruct (limits_can_be_outlived 42 "/bin/bash" 60 600 0) as (ops & s & Hr & Hl & _); [lia|vm_compute; discriminate..|].
  exists ops, s. split; [exact Hr|exact Hl].
Defined.
