(* ===== verification/ServerStart.v ===== *)
(** * Starting the server (server/src/storage/paths.rs, server_identity.rs, main.rs)

    The directories and files of the server, its persistent identity, and
    [start_handcontrol_server] up to the service it hands to the listener.  The
    whole start is one sequence of file operations ([Io]); [None] is a panic.  The
    key generator, fresh identifiers, the clock and the host name are inputs. *)

From S2P Require Import Prelude RustStd ThirdParty Fs Net Config Defaults Validation Certificates ClientStore RelayTokens RelayClient.
From S2P Require Import Enrollment Pairing SessionState SessionManager Service Io.

Local Open Scope string_scope.
Local Open Scope Z_scope.

(** ** Directories ([paths.rs]) *)
(** [HANDCONTROL_CONFIG_DIR], and what the crate [directories] reports. *)
Record ServerEnv := mkServerEnv {
  sn_config_dir_var : option string;
  sn_project_config_dir : option string;
  sn_project_data_dir : option string;
  sn_home : option string;
}.

(** [if !dir.exists() { create_dir_all(dir) }] *)
Definition make_dir (dir error : string) : io string :=
  e ← io_exists dir;
  if e : bool then mret dir else _ ← io_create_dir_all dir error; mret dir.

Definition config_dir (env : ServerEnv) : io string :=
  match sn_config_dir_var env with
  | Some custom =>
      if str_is_empty custom
      then lift (Err "HANDCONTROL_CONFIG_DIR is set but empty; provide a valid directory path")
      else make_dir custom (fmt ["Failed to create config directory "; custom; " from HANDCONTROL_CONFIG_DIR"])
  | None =>
      dir ← lift (ok_or (sn_project_config_dir env) "Failed to determine project directories");
      make_dir dir (fmt ["Failed to create config directory: "; dir])
  end.

Definition data_dir (env : ServerEnv) : io string :=
  dir ← lift (ok_or (sn_project_data_dir env) "Failed to determine project directories");
  make_dir dir (fmt ["Failed to create data directory: "; dir]).

(** A file of the configuration directory. *)
Definition config_file (env : ServerEnv) (name : string) : io string := dir ← config_dir env; mret (path_join dir name).
Definition server_cert_path (env : ServerEnv) : io string := config_file env "server.crt".
Definition server_key_path (env : ServerEnv) : io string := config_file env "server.key".
Definition server_id_path (env : ServerEnv) : io string := config_file env "server_id.txt".
Definition authorized_clients_dir (env : ServerEnv) : io string :=
  dir ← config_file env "authorized_clients";
  make_dir dir (fmt ["Failed to create authorized_clients directory: "; dir]).
Definition authorized_clients_metadata_path (env : ServerEnv) : io string :=
  dir ← authorized_clients_dir env; mret (path_join dir "metadata.toml").

(** ** The server's identifier ([server_identity.rs]) *)
(** [match m { Ok(..) => .., Err(..) => .. }]: the outcome as a value. *)
Definition attempt {A} (m : io A) : io (result string A) := λ w, let '(w', r) := m w in (w', Ok r).

Section start.
Context `{UuidText}.

Definition load_server_id (path : string) : io Uuid :=
  content ← io_read_to_string path (fmt ["Failed to read server ID from "; path]);
  let id_str := trim content in
  lift (ok_or (uuid_parse id_str) (fmt ["Invalid server ID format in "; path; ": "; id_str])).

Definition save_server_id (path : string) (server_id : Uuid) : io unit :=
  _ ← match path_parent path with
      | Some parent => io_create_dir_all parent (fmt ["Failed to create directory for server ID: "; parent])
      | None => mret tt
      end;
  io_write path (to_bytes (uuid_to_string server_id)) (fmt ["Failed to write server ID to "; path]).

(** [fresh] is the identifier [Uuid::new_v4] would give. *)
Definition load_or_create_server_id (env : ServerEnv) (fresh : Uuid) : io Uuid :=
  path ← server_id_path env;
  e ← io_exists path;
  loaded ← (if e : bool then attempt (load_server_id path) else mret (Err "absent"));
  match loaded with
  | Ok id => mret id
  | Err _ => _ ← attempt (save_server_id path fresh); mret fresh
  end.

(** ** Actions that may panic *)
Definition pio (A : Type) : Type := World → option (World * result string A).
#[export] Instance pio_ret : MRet pio := λ A a w, Some (w, Ok a).
#[export] Instance pio_bind : MBind pio := λ A B f m w,
  match m w with
  | Some (w', Ok a) => f a w'
  | Some (w', Err e) => Some (w', Err e)
  | None => None
  end.
Definition run {A} (m : io A) : pio A := λ w, Some (m w).
Definition unwrap {A} (m : io A) : pio A := λ w,
  match m w with (w', Ok a) => Some (w', Ok a) | (_, Err _) => None end.

Lemma pio_bind_ok {A B} (m : pio A) (f : A → pio B) w w' b :
  (m ≫= f) w = Some (w', Ok b) ↔ ∃ w1 a, m w = Some (w1, Ok a) ∧ f a w1 = Some (w', Ok b).
Proof. unfold mbind, pio_bind. destruct (m w) as [[w1 [a|e]]|]; naive_solver. Qed.
Lemma pio_run {A B} (m : pio A) (f : A → pio B) w w1 a : m w = Some (w1, Ok a) → (m ≫= f) w = f a w1.
Proof. intros E. unfold mbind, pio_bind. by rewrite E. Qed.
Lemma run_ok {A} (m : io A) w w' a : run m w = Some (w', Ok a) ↔ m w = (w', Ok a).
Proof. unfold run. split; [by intros [= ->]|by intros ->]. Qed.
Lemma unwrap_ok {A} (m : io A) w w' a : unwrap m w = Some (w', Ok a) ↔ m w = (w', Ok a).
Proof. unfold unwrap. destruct (m w) as [w1 []]; split; intros [=]; congruence. Qed.

(** Functions of other files take the answers of the disk one by one; [n] calls are
    used up.  Permission bits of the server's files are not followed here. *)
Definition after (n : nat) (fs : FileSystem) (w : World) : World :=
  mkWorld fs (w_modes w) (w_umask_mode w) (w_os w) (w_calls w + n).
Definition nth_answer (k : nat) (w : World) : write_answer := w_os w (w_calls w + k).
Definition nth_ok (k : nat) (w : World) : bool := match nth_answer k w with WOk => true | WErr _ => false end.

Context `{Sha256, HexEncode, CertCrates, TokenCrates, RegexEngine, !TomlCodec ClientRegistry, !TomlCodec Config}.
Context (toml_config : string → option RawConfig).

Definition io_load_config (home : option string) (path : string) : io Config := λ w,
  (after 1 (w_fs w) w, load_config toml_config home (nth_ok 0 w) path (w_fs w)).
Definition io_client_store (dir : string) : io ClientStore := λ w,
  let '(fs, r) := ClientStore_new (nth_ok 0 w) (nth_ok 1 w) dir (w_fs w) in (after 2 fs w, r).
Definition io_token_issuer (secret : bytes) (server_id : Uuid) (path : string) : io TokenIssuer := λ w,
  let '(fs, r) := TokenIssuer_new (nth_ok 0 w) (nth_ok 1 w) (nth_answer 2 w) (nth_ok 3 w) secret server_id path (w_fs w) in
  (after 4 fs w, r).
Definition io_server_certificate (now : Z) (key : option bytes) (cert_path key_path : string) : pio ServerCertificate := λ w,
  match ensure_server_certificate
          (mkEnsureInput (nth_ok 0 w) (nth_ok 1 w) now key (nth_answer 2 w) (nth_answer 3 w)) cert_path key_path (w_fs w) with
  | Some (fs, r) => Some (after 4 fs w, map_err (λ _, "Failed to initialize server certificate") r)
  | None => None
  end.

(** ** [start_handcontrol_server] *)
Record start_input := mkStartInput {
  sa_os : TargetOs;
  sa_cert_now : Z;                      (* when a certificate is generated *)
  sa_cert_key : option bytes;           (* the key generator *)
  sa_fresh_id : Uuid;
  sa_relay_secret : bytes;              (* the random bytes of the relay key *)
  sa_now : Z;                           (* the system time *)
  sa_hostname : option string;
}.

(** What the start hands to the listener, to mDNS and to the relay client. *)
Record Started := mkStarted {
  sd_service : RemoteControlService;
  sd_addr : IpAddr * Z;
  sd_instance_name : string;
  sd_fingerprint : string;
  sd_relay_client : option RelayClient;
}.

(** The configuration file, written with the defaults when there is none. *)
Definition start_config (env : ServerEnv) (os : TargetOs) : io Config :=
  path ← with_context "Failed to determine config path" (config_file env "config.toml");
  e ← io_exists path;
  _ ← (if e : bool then mret tt
       else text ← lift (map_err (λ _, "Failed to generate default config") (generate_default_config_toml os));
            io_write path (to_bytes text) (fmt ["Failed to write default config to "; path]));
  config ← with_context "Failed to load configuration" (io_load_config (sn_home env) path);
  _ ← lift (map_err (λ _, "Configuration validation failed") (validate_config config));
  mret config.

(** [unwrap_or_else(|| paths::server_cert_path().unwrap())] *)
Definition configured_or (configured : option string) (path : io string) : pio string :=
  match configured with Some p => mret p | None => unwrap path end.

Definition start_issuer (env : ServerEnv) (config : Config) (secret : bytes) (server_id : Uuid) : io (option TokenIssuer) :=
  if rel_enabled (cfg_relay config) then
    dir ← with_context "Failed to determine config directory" (config_dir env);
    issuer ← with_context "Failed to initialize relay token issuer" (io_token_issuer secret server_id (path_join dir "relay-key.pem"));
    mret (Some issuer)
  else mret None.

(** [SystemTime::now().duration_since(UNIX_EPOCH).unwrap()] *)
Definition since_epoch (now : Z) : pio Z := λ w, if now <? 0 then None else Some (w, Ok (as_millis now)).

Definition start_handcontrol_server (env : ServerEnv) (i : start_input) : pio Started :=
  config ← run (start_config env (sa_os i));
  let security := cfg_security config in
  cert_path ← configured_or (sec_cert_path security) (server_cert_path env);
  key_path ← configured_or (sec_key_path security) (server_key_path env);
  server_cert ← io_server_certificate (sa_cert_now i) (sa_cert_key i) cert_path key_path;
  clients_dir ← run (with_context "Failed to determine authorized clients directory" (authorized_clients_dir env));
  client_store ← run (with_context "Failed to initialize client store" (io_client_store clients_dir));
  server_id ← run (with_context "Failed to initialize server ID" (load_or_create_server_id env (sa_fresh_id i)));
  issuer ← run (start_issuer env config (sa_relay_secret i) server_id);
  now ← since_epoch (sa_now i);
  fs ← (λ w, Some (w, Ok (w_fs w)));
  let bind := srv_bind_address (cfg_server config) in
  let port := srv_port (cfg_server config) in
  let service := mkService config server_cert server_id fs client_store
                   (EnrollmentTokenManager_new (sec_enrollment_token_ttl security))
                   (PairingRequestManager_new (enr_approval_timeout_seconds (sec_enrollment security)))
                   1 now issuer SessionManager_new in
  ip ← run (lift (ok_or (parse_ip bind) (fmt ["Failed to parse bind address '"; bind; "'"])));
  mret (mkStarted service (ip, port)
          (default (default "HandControl" (sa_hostname i)) (srv_mdns_instance_name (cfg_server config)))
          (fingerprint_display server_cert)
          ((λ issuer, RelayClient_new (cfg_relay config) server_id issuer port) <$> issuer)).

(** ** A restart keeps the server's identity *)
(** A UUID is written without blanks, in ASCII; a key is read back from its PEM text. *)
Class UuidWord := { uuid_trim u : trim (uuid_to_string u) = uuid_to_string u; uuid_utf8 u : utf8_valid (uuid_to_string u) = true }.
Class KeyPem := key_pem : ∀ k pem, key_to_pem k = Some pem → key_from_pem pem = Some k ∧ utf8_valid pem = true.

(** The configuration directory. *)
Definition server_home (env : ServerEnv) : option string :=
  match sn_config_dir_var env with
  | Some custom => if str_is_empty custom then None else Some custom
  | None => sn_project_config_dir env
  end.

Lemma make_dir_ok d e w w' d' : make_dir d e w = (w', Ok d') → d' = d ∧ fs_exists d (w_fs w') = true.
Proof.
  unfold make_dir. rewrite io_run_exists. destruct (fs_exists d (w_fs w)) eqn:He; [by intros [= <- <-]|].
  rewrite io_bind_ok. intros (w1 & [] & E & [= <- <-]). unfold io_create_dir_all in E. destruct (os_ok w); cbn in E; [|done].
  injection E as <-. split; [done|]. apply fs_exists_spec. right. cbn. set_solver.
Qed.
Lemma make_dir_there d e w : fs_exists d (w_fs w) = true → make_dir d e w = (w, Ok d).
Proof. unfold make_dir. rewrite io_run_exists. by intros ->. Qed.

Lemma config_dir_ok env w w' d : config_dir env w = (w', Ok d) → server_home env = Some d ∧ fs_exists d (w_fs w') = true.
Proof.
  unfold config_dir, server_home. destruct (sn_config_dir_var env) as [c|].
  - destruct (str_is_empty c); [done|]. by intros [-> ?]%make_dir_ok.
  - rewrite io_bind_ok. intros (w1 & d1 & [= <- E%ok_or_ok] & [-> ?]%make_dir_ok). done.
Qed.
Lemma config_dir_there env w d : server_home env = Some d → fs_exists d (w_fs w) = true → config_dir env w = (w, Ok d).
Proof.
  unfold config_dir, server_home. destruct (sn_config_dir_var env) as [c|].
  - destruct (str_is_empty c); [done|]. intros [= ->]. by apply make_dir_there.
  - intros ->. cbn. by apply make_dir_there.
Qed.
Lemma config_file_there env w d name : server_home env = Some d → fs_exists d (w_fs w) = true →
  config_file env name w = (w, Ok (path_join d name)).
Proof. intros Hd He. unfold config_file. by rewrite (io_run _ _ _ _ _ (config_dir_there _ _ _ Hd He)). Qed.

Lemma config_file_ok env name w w' p : config_file env name w = (w', Ok p) →
  ∃ d, server_home env = Some d ∧ p = path_join d name ∧ fs_exists d (w_fs w') = true.
Proof. unfold config_file. rewrite io_bind_ok. intros (w0 & d & [? ?]%config_dir_ok & [= <- <-]). eauto. Qed.

Section footprints.
Context (F : FileSystem → Prop) (env : ServerEnv) (d : string) (Hd : server_home env = Some d) (Hdir : allows_dir F d).
Implicit Type (w : World).

Lemma keeps_make_dir p e : allows_dir F p → keeps (on_fs F) (make_dir p e).
Proof. intros Ha. apply keeps_bind; [eauto with io|]. intros []; eauto with io. Qed.
Lemma keeps_config_dir : keeps (on_fs F) (config_dir env).
Proof.
  unfold config_dir. unfold server_home in Hd. destruct (sn_config_dir_var env) as [c|].
  - destruct (str_is_empty c); [done|]. injection Hd as ->. by apply keeps_make_dir.
  - rewrite Hd. intros w Hw. by apply (keeps_make_dir d).
Qed.
Lemma keeps_config_file name : keeps (on_fs F) (config_file env name).
Proof. apply keeps_bind; [apply keeps_config_dir|eauto with io]. Qed.

Lemma keeps_attempt {A} (m : io A) : keeps (on_fs F) m → keeps (on_fs F) (attempt m).
Proof. intros Hm w Hw. specialize (Hm w Hw). unfold attempt. by destruct (m w). Qed.

Lemma keeps_load_config home p : keeps (on_fs F) (io_load_config home p).
Proof. by intros w Hw. Qed.
Lemma keeps_start_config os : allows_file F (path_join d "config.toml") → keeps (on_fs F) (start_config env os).
Proof.
  intros Ha. apply keeps_bind_post; [apply keeps_context, keeps_config_file|]. intros p w w' E%with_context_ok.
  apply config_file_ok in E as (d' & Hd' & -> & _). assert (d' = d) as -> by congruence.
  apply keeps_bind; [eauto with io|]. intros e. apply keeps_bind; [destruct e; eauto 6 with io|]. intros _.
  apply keeps_bind; [apply keeps_context, keeps_load_config|eauto with io].
Qed.

Lemma keeps_clients_dir : allows_dir F (path_join d "authorized_clients") → keeps (on_fs F) (authorized_clients_dir env).
Proof.
  intros Ha. apply keeps_bind_post; [apply keeps_config_file|]. intros p w w' E.
  apply config_file_ok in E as (d' & Hd' & -> & _). assert (d' = d) as -> by congruence. by apply keeps_make_dir.
Qed.
Lemma keeps_client_store p : allows_dir F p → keeps (on_fs F) (io_client_store p).
Proof.
  intros Ha w Hw. unfold io_client_store, ClientStore_new, on_fs in *. destruct (fs_exists p (w_fs w)); [done|].
  unfold fs_create_dir_all. destruct (nth_ok 0 w); cbn; [by apply Ha|done].
Qed.
Lemma keeps_server_id fresh : allows_file F (path_join d "server_id.txt") →
  (∀ q, path_parent (path_join d "server_id.txt") = Some q → allows_dir F q) → keeps (on_fs F) (load_or_create_server_id env fresh).
Proof.
  intros Ha Hq. apply keeps_bind_post; [apply keeps_config_file|]. intros p w w' E.
  apply config_file_ok in E as (d' & Hd' & -> & _). assert (d' = d) as -> by congruence.
  apply keeps_bind; [eauto with io|]. intros e. apply keeps_bind.
  - destruct e; [|eauto with io]. apply keeps_attempt, keeps_bind; eauto with io.
  - intros [id|?]; [eauto with io|]. apply keeps_bind; [|eauto with io]. apply keeps_attempt, keeps_bind; [|eauto with io].
    destruct (path_parent _) as [q|]; eauto with io.
Qed.
Lemma keeps_issuer config secret id : allows_file F (path_join d "relay-key.pem") →
  (∀ q, path_parent (path_join d "relay-key.pem") = Some q → allows_dir F q) → keeps (on_fs F) (start_issuer env config secret id).
Proof.
  intros Ha Hq. unfold start_issuer. destruct (rel_enabled _); [|eauto with io].
  apply keeps_bind_post; [apply keeps_context, keeps_config_dir|]. intros d' w w' [Hd' _]%with_context_ok%config_dir_ok.
  assert (d' = d) as -> by congruence. apply keeps_bind; [|eauto with io]. apply keeps_context. clear w w'. intros w Hw.
  unfold io_token_issuer, TokenIssuer_new, load_or_generate_key, save_key, on_fs in *. destruct (fs_exists _ _); [done|].
  assert (∀ mk, F (match path_parent (path_join d "relay-key.pem") with
                   | Some parent => fs_create_dir_all mk parent (w_fs w) | None => (w_fs w, true) end).1) as Hf.
  { intros mk. destruct (path_parent _) as [q|]; [|done]. unfold fs_create_dir_all. destruct mk; cbn; [by apply Hq|done]. }
  specialize (Hf (nth_ok 1 w)). destruct (match path_parent _ with Some _ => _ | None => _ end) as [fs1 []]; [|done].
  destruct (key_to_pem _) as [pem|]; [|done]. destruct (nth_answer 2 w) as [|[l|]]; cbn; [destruct (nth_ok 3 w); cbn; by apply Ha|by apply Ha|done].
Qed.
Lemma keeps_certificate now key p q w w' r : allows_file F p → allows_file F q → on_fs F w →
  io_server_certificate now key p q w = Some (w', r) → on_fs F w'.
Proof.
  intros Hp Hq Hw. unfold io_server_certificate, ensure_server_certificate, on_fs in *. destruct (if fs_exists p _ && _ then _ else _) as [c|e].
  - by intros [= <- <-].
  - destruct (generate _ _) as [[c|e']|]; [|by intros [= <- <-]|done]. cbn. unfold save_to_files.
    destruct (nth_answer 2 w) as [|[l|]]; cbn; [|intros [= <- <-]; by apply Hp|by intros [= <- <-]].
    destruct (nth_answer 3 w) as [|[l|]]; cbn; intros [= <- <-]; cbn; [apply Hq; by apply Hp..|by apply Hp].
Qed.
End footprints.

(** *** A disk without errors *)
Lemma reliable_after n fs w : reliable w → reliable (after n fs w).
Proof. intros Hw. eapply reliable_step; [done..|simpl; lia]. Qed.
Lemma reliable_nth k w : reliable w → nth_answer k w = WOk.
Proof. intros Hw. apply Hw. lia. Qed.
Lemma reliable_nth_ok k w : reliable w → nth_ok k w = true.
Proof. intros Hw. unfold nth_ok. by rewrite reliable_nth. Qed.
Lemma reliable_make_dir p e : keeps reliable (make_dir p e).
Proof. apply keeps_bind; [eauto with io|]. intros []; eauto with io. Qed.
Lemma reliable_config_dir env : keeps reliable (config_dir env).
Proof.
  unfold config_dir. destruct (sn_config_dir_var env) as [c|]; [destruct (str_is_empty c)|apply keeps_bind]; eauto using reliable_make_dir with io.
Qed.
Lemma reliable_config_file env name : keeps reliable (config_file env name).
Proof. apply keeps_bind; [apply reliable_config_dir|eauto with io]. Qed.
Lemma reliable_start_config env os : keeps reliable (start_config env os).
Proof.
  apply keeps_bind; [apply keeps_context, reliable_config_file|]. intros p. apply keeps_bind; [eauto with io|]. intros e.
  apply keeps_bind; [destruct e; eauto 6 with io|]. intros _. apply keeps_bind; [|eauto with io]. apply keeps_context.
  intros w Hw. by apply reliable_after.
Qed.
Lemma reliable_clients_dir env : keeps reliable (authorized_clients_dir env).
Proof. apply keeps_bind; [apply reliable_config_file|]. eauto using reliable_make_dir. Qed.
Lemma reliable_client_store p : keeps reliable (io_client_store p).
Proof. intros w Hw. unfold io_client_store. destruct (ClientStore_new _ _ _ _). by apply reliable_after. Qed.
Lemma reliable_attempt {A} (m : io A) : keeps reliable m → keeps reliable (attempt m).
Proof. intros Hm w Hw. specialize (Hm w Hw). unfold attempt. by destruct (m w). Qed.
Lemma reliable_server_id env fresh : keeps reliable (load_or_create_server_id env fresh).
Proof.
  apply keeps_bind; [apply reliable_config_file|]. intros p. apply keeps_bind; [eauto with io|]. intros e. apply keeps_bind.
  - destruct e; [|eauto with io]. apply reliable_attempt, keeps_bind; eauto with io.
  - intros [id|?]; [eauto with io|]. apply keeps_bind; [|eauto with io]. apply reliable_attempt, keeps_bind; [|eauto with io].
    destruct (path_parent _) as [q|]; eauto with io.
Qed.
Lemma reliable_issuer env config secret id : keeps reliable (start_issuer env config secret id).
Proof.
  unfold start_issuer. destruct (rel_enabled _); [|eauto with io]. apply keeps_bind; [apply keeps_context, reliable_config_dir|].
  intros d. apply keeps_bind; [|eauto with io]. apply keeps_context. intros w Hw. unfold io_token_issuer.
  destruct (TokenIssuer_new _ _ _ _ _ _ _ _). by apply reliable_after.
Qed.
Lemma reliable_certificate now key p q w w' r : reliable w → io_server_certificate now key p q w = Some (w', r) → reliable w'.
Proof.
  intros Hw. unfold io_server_certificate. destruct (ensure_server_certificate _ _ _ _) as [[fs r0]|]; [|done]. intros [= <- <-].
  by apply reliable_after.
Qed.

(** *** What each step leaves on the disk *)
Lemma start_config_ok env os w w' config : reliable w → start_config env os w = (w', Ok config) →
  ∃ d b, server_home env = Some d ∧ there d (w_fs w') ∧ file_holds (path_join d "config.toml") (Some b) (w_fs w') ∧
    load_config toml_config (sn_home env) true (path_join d "config.toml") (w_fs w') = Ok config ∧ validate_config config = Ok tt.
Proof.
  intros Hr E. unfold start_config in E. apply io_bind_ok in E as (w1 & p & E1 & E).
  pose proof (keeps_context _ "Failed to determine config path" _ (reliable_config_file env "config.toml") w Hr) as Hr1. rewrite E1 in Hr1.
  apply with_context_ok, config_file_ok in E1 as (d & Hd & -> & Hex). rewrite io_run_exists in E.
  apply io_bind_ok in E as (w2 & [] & E2 & E). apply io_bind_ok in E as (w3 & c & E3%with_context_ok & E).
  apply io_bind_ok in E as (w4 & [] & [= <- Hv] & [= <- <-]).
  set (m := if fs_exists _ (w_fs w1) then _ else _) in E2.
  assert (keeps reliable m) as Hm by (unfold m; case_match; eauto 6 with io).
  assert (keeps (on_fs (there d)) m) as Hm' by (unfold m; case_match; eauto 6 with io).
  specialize (Hm w1 Hr1). specialize (Hm' w1 Hex). rewrite E2 in Hm, Hm'. cbn [fst] in *.
  injection E3 as <- E3. rewrite reliable_nth_ok in E3 by done. cbn. pose proof E3 as E3'. unfold load_config in E3'.
  apply result_bind_ok in E3' as (content & Hc%ok_or_ok & _). unfold fs_read_to_string, fs_read in Hc.
  destruct (fs_files (w_fs w2) !! _) as [b|] eqn:Hb; [|done]. exists d, b. split_and!; try done.
  by destruct (validate_config c) as [[]|].
Qed.

Lemma save_server_id_ok `{!UuidWord} path id w : reliable w →
  ∃ w', save_server_id path id w = (w', Ok tt) ∧ fs_read_to_string true path (w_fs w') = Some (uuid_to_string id).
Proof.
  intros Hr. unfold save_server_id.
  assert (∃ w1, match path_parent path with
                | Some parent => io_create_dir_all parent (fmt ["Failed to create directory for server ID: "; parent])
                | None => mret tt end w = (w1, Ok tt) ∧ reliable w1) as (w1 & E1 & Hr1).
  { destruct (path_parent path) as [q|]; [|by exists w]. destruct (io_create_dir_all_reliable q
      (fmt ["Failed to create directory for server ID: "; q]) w Hr) as (w1 & E & _ & Hr1 & _). eauto. }
  rewrite (io_run _ _ _ _ _ E1). destruct (io_write_reliable path (to_bytes (uuid_to_string id))
    (fmt ["Failed to write server ID to "; path]) w1 Hr1) as (w2 & E2 & Hf & _). exists w2. split; [done|].
  rewrite Hf. apply fs_read_to_string_set_file, uuid_utf8.
Qed.

Lemma server_id_ok `{!UuidTextLaws, !UuidWord} env fresh d w w' id : reliable w → server_home env = Some d →
  load_or_create_server_id env fresh w = (w', Ok id) →
  ∃ content, fs_read_to_string true (path_join d "server_id.txt") (w_fs w') = Some content ∧ uuid_parse (trim content) = Some id.
Proof.
  intros Hr Hd E. unfold load_or_create_server_id in E. apply io_bind_ok in E as (w1 & p & E1 & E).
  pose proof (reliable_config_file env "server_id.txt" w Hr) as Hr1. unfold server_id_path in E1. rewrite E1 in Hr1. cbn [fst] in Hr1.
  apply config_file_ok in E1 as (d' & Hd' & -> & _). assert (d' = d) as -> by congruence.
  rewrite io_run_exists in E. apply io_bind_ok in E as (w2 & loaded & E2 & E). destruct loaded as [id'|e].
  - injection E as <- ->. destruct (fs_exists _ _); [|done]. unfold attempt, load_server_id in E2.
    destruct ((io_read_to_string _ _ ≫= _) w1) as [w3 r] eqn:E3. injection E2 as <- ->.
    apply io_bind_ok in E3 as (w4 & content & E4 & [= <- E5%ok_or_ok]). unfold io_read_to_string in E4. injection E4 as <- E4%ok_or_ok.
    rewrite reliable_ok in E4 by done. by exists content.
  - assert (reliable w2) as Hr2.
    { assert (keeps reliable (if fs_exists (path_join d "server_id.txt") (w_fs w1)
          then attempt (load_server_id (path_join d "server_id.txt")) else mret (Err "absent"))) as Hk; [|specialize (Hk w1 Hr1); by rewrite E2 in Hk].
      case_match; [|eauto with io]. apply reliable_attempt, keeps_bind; eauto with io. }
    apply io_bind_ok in E as (w3 & r & E3 & [= <- <-]). destruct (save_server_id_ok (path_join d "server_id.txt") fresh w2 Hr2) as (w4 & E4 & Hf).
    unfold attempt in E3. rewrite E4 in E3. injection E3 as <- <-. exists (uuid_to_string fresh). split; [done|].
    by rewrite uuid_trim, uuid_parse_to_string.
Qed.

Lemma issuer_ok `{!KeyPem} env config secret id d w w' issuer : reliable w → server_home env = Some d →
  start_issuer env config secret id w = (w', Ok issuer) →
  match issuer with
  | None => rel_enabled (cfg_relay config) = false
  | Some i => rel_enabled (cfg_relay config) = true ∧ there (path_join d "relay-key.pem") (w_fs w') ∧
      ∃ key, load_key true (path_join d "relay-key.pem") (w_fs w') = Ok key ∧ i = mkTokenIssuer key (verifying_key key) id
  end.
Proof.
  intros Hr Hd E. unfold start_issuer in E. destruct (rel_enabled _); [|by injection E as <- <-].
  apply io_bind_ok in E as (w1 & d' & E1 & E). pose proof (keeps_context _ "Failed to determine config directory" _ (reliable_config_dir env) w Hr) as Hr1.
  rewrite E1 in Hr1. cbn [fst] in Hr1. apply with_context_ok, config_dir_ok in E1 as [Hd' _]. assert (d' = d) as -> by congruence.
  apply io_bind_ok in E as (w2 & i & E2%with_context_ok & [= <- <-]). split; [done|].
  unfold io_token_issuer, TokenIssuer_new, load_or_generate_key in E2. destruct (fs_exists _ (w_fs w1)) eqn:He.
  - injection E2 as <- E2. apply result_bind_ok in E2 as (key & Hk & [= <-]). rewrite reliable_nth_ok in Hk by done. eauto.
  - unfold save_key, generate_key in E2. rewrite !reliable_nth_ok, reliable_nth in E2 by done.
    destruct (match path_parent _ with Some _ => _ | None => _ end) as [fs1 []]; [|done].
    destruct (key_to_pem secret) as [pem|] eqn:Hp; [|done]. cbn in E2. injection E2 as <- <-. destruct (key_pem _ _ Hp) as [Hk Hu].
    split; [apply fs_exists_set_file|]. exists secret. split; [|done]. unfold load_key. cbn [w_fs after].
    rewrite fs_read_to_string_set_file by done. cbn. by rewrite Hk.
Qed.

(** *** The files of a server that has started *)
(** Properties that depend only on some files, and on directories being there. *)
Definition monotone_at (qs : list string) (F : FileSystem → Prop) : Prop := ∀ fs fs',
  (∀ q, q ∈ qs → fs_files fs' !! q = fs_files fs !! q) → fs_dirs fs ⊆ fs_dirs fs' → F fs → F fs'.
Lemma monotone_file qs F p : monotone_at qs F → p ∉ qs → allows_file F p.
Proof. intros Hm Hp b fs Hf. eapply Hm; [|..|exact Hf]; [|done]. intros q Hq. cbn. rewrite lookup_insert_ne; [done|]. by intros ->. Qed.
Lemma monotone_dir qs F p : monotone_at qs F → allows_dir F p.
Proof. intros Hm fs Hf. eapply Hm; [|..|exact Hf]; [done|]. cbn. set_solver. Qed.

Lemma monotone_there q : monotone_at [q] (there q).
Proof. intros fs fs' Hq Hd. unfold there. rewrite !fs_exists_spec. rewrite Hq by set_solver. set_solver. Qed.
Lemma monotone_read a q o : monotone_at [q] (λ fs, fs_read_to_string a q fs = o).
Proof. intros fs fs' Hq _. unfold fs_read_to_string, fs_read. by rewrite Hq by set_solver. Qed.

Definition has_config (env : ServerEnv) (d : string) (config : Config) (fs : FileSystem) : Prop :=
  there d fs ∧ there (path_join d "config.toml") fs ∧
  load_config toml_config (sn_home env) true (path_join d "config.toml") fs = Ok config.
Definition has_cert (d : string) (cert : ServerCertificate) (fs : FileSystem) : Prop :=
  there (path_join d "server.crt") fs ∧ there (path_join d "server.key") fs ∧
  load_from_files true true (path_join d "server.crt") (path_join d "server.key") fs = Ok cert.
Definition has_id (d : string) (id : Uuid) (fs : FileSystem) : Prop :=
  there (path_join d "server_id.txt") fs ∧
  ∃ content, fs_read_to_string true (path_join d "server_id.txt") fs = Some content ∧ uuid_parse (trim content) = Some id.
Definition has_issuer (d : string) (config : Config) (id : Uuid) (issuer : option TokenIssuer) (fs : FileSystem) : Prop :=
  match issuer with
  | None => rel_enabled (cfg_relay config) = false
  | Some i => rel_enabled (cfg_relay config) = true ∧ there (path_join d "relay-key.pem") fs ∧
      ∃ key, load_key true (path_join d "relay-key.pem") fs = Ok key ∧ i = mkTokenIssuer key (verifying_key key) id
  end.
Definition has_store (d : string) (store : ClientStore) (fs : FileSystem) : Prop :=
  let dir := path_join d "authorized_clients" in
  there dir fs ∧ ∀ mk, ClientStore_new mk true dir fs = (fs, Ok store).

Lemma monotone_config env d config : monotone_at [d; path_join d "config.toml"] (has_config env d config).
Proof.
  intros fs fs' Hq Hd (T1 & T2 & L). split_and!; [by apply (monotone_there d fs); [set_solver|..]|by apply (monotone_there _ fs); [set_solver|..]|].
  unfold load_config, fs_read_to_string, fs_read in *. by rewrite Hq by set_solver.
Qed.
Lemma monotone_cert d cert : monotone_at [path_join d "server.crt"; path_join d "server.key"] (has_cert d cert).
Proof.
  intros fs fs' Hq Hd (T1 & T2 & L). split_and!; [by apply (monotone_there _ fs); [set_solver|..]..|].
  unfold load_from_files, fs_read in *. by rewrite !Hq by set_solver.
Qed.
Lemma monotone_id d id : monotone_at [path_join d "server_id.txt"] (has_id d id).
Proof.
  intros fs fs' Hq Hd (T & c & Hc & Hp). split; [by apply (monotone_there _ fs)|]. exists c. split; [|done].
  by apply (monotone_read true _ _ fs).
Qed.
Lemma monotone_issuer d config id issuer : monotone_at [path_join d "relay-key.pem"] (has_issuer d config id issuer).
Proof.
  intros fs fs' Hq Hd. destruct issuer as [i|]; [|done]. intros (? & T & key & Hk & ->). split_and!; [done|by apply (monotone_there _ fs)|].
  exists key. split; [|done]. unfold load_key, fs_read_to_string, fs_read in *. by rewrite Hq by set_solver.
Qed.

Definition metadata_path (d : string) : string := path_join (path_join d "authorized_clients") "metadata.toml".
(** The store is read from the metadata file alone. *)
Lemma store_frame d store fs fs' : has_store d store fs → there (path_join d "authorized_clients") fs' →
  fs_files fs' !! metadata_path d = fs_files fs !! metadata_path d →
  fs_exists (metadata_path d) fs' = fs_exists (metadata_path d) fs → has_store d store fs'.
Proof.
  intros [T L] T' Hf He. split; [done|]. intros mk. specialize (L mk). unfold there in T, T'. unfold ClientStore_new in *. rewrite T in L. rewrite T'.
  unfold metadata_path in *. rewrite He. injection L as L. unfold load_registry, fs_read_to_string, fs_read in *. by rewrite Hf, L.
Qed.
Lemma store_file d store p : p ≠ metadata_path d → allows_file (has_store d store) p.
Proof.
  intros Hne b fs Hs. eapply store_frame; [done| | |].
  - apply there_file, Hs.
  - cbn. by rewrite lookup_insert_ne.
  - unfold fs_exists. cbn. by rewrite lookup_insert_ne.
Qed.
Lemma store_dir d store p : p ≠ metadata_path d → allows_dir (has_store d store) p.
Proof.
  intros Hne fs Hs. eapply store_frame; [done| |done|].
  - apply there_dir, Hs.
  - unfold fs_exists. cbn. f_equal. apply bool_decide_ext. set_solver.
Qed.

Lemma join_ne d f g : starts_with "/" f = false → starts_with "/" g = false → f ≠ g → path_join d f ≠ path_join d g.
Proof. intros Hf Hg Hne E. apply Hne. by eapply path_join_inj. Qed.

Lemma last_slash_none f i : str_contains_char "/" f = false → last_slash f i = None.
Proof.
  revert i. induction f as [|c f IH]; intros i; [done|]. unfold str_contains_char in *. cbn. rewrite orb_false_iff. intros [Hc Hf].
  rewrite IH by done. apply bool_decide_eq_false in Hc. by rewrite decide_False.
Qed.
Lemma last_slash_app s f i : str_contains_char "/" f = false → last_slash (String.append s f) i = last_slash s i.
Proof.
  intros Hf. revert i. induction s as [|c s IH]; intros i; [by apply last_slash_none|]. rewrite append_cons. cbn. by rewrite IH.
Qed.
Lemma last_slash_lt s i j : last_slash s i = Some j → (j < i + String.length s)%nat.
Proof.
  revert i. induction s as [|c s IH]; intros i; [done|]. cbn. destruct (last_slash s (S i)) as [k|] eqn:E; [intros [= <-]; apply IH in E; lia|].
  case_decide; [|done]. intros [= <-]. lia.
Qed.
Lemma substring_length n s : (String.length (String.substring 0 n s) ≤ n)%nat.
Proof. revert n. induction s as [|c s IH]; intros [|n]; cbn; [lia..|]. specialize (IH n). lia. Qed.
Lemma path_join_length d f : starts_with "/" f = false → (String.length d + String.length f ≤ String.length (path_join d f))%nat.
Proof. intros Hf. rewrite path_join_base by done. unfold path_base. destruct (_ || _); rewrite ?length_append; cbn; lia. Qed.

Lemma parent_short d f q : starts_with "/" f = false → str_contains_char "/" f = false →
  path_parent (path_join d f) = Some q → (String.length q ≤ S (String.length d))%nat.
Proof.
  intros Hs Hf. unfold path_parent. destruct (_ || _); [done|]. intros [= <-]. rewrite path_join_base, last_slash_app by done.
  destruct (last_slash (path_base d) 0) as [[|j]|] eqn:E; cbn [String.length]; [lia| |lia].
  apply last_slash_lt in E. pose proof (substring_length (S j) (String.append (path_base d) f)) as Hl.
  assert (String.length (path_base d) ≤ S (String.length d))%nat; [|lia].
  unfold path_base. destruct (_ || _); rewrite ?length_append; cbn; lia.
Qed.
Lemma parent_not_metadata d f q : starts_with "/" f = false → str_contains_char "/" f = false →
  path_parent (path_join d f) = Some q → q ≠ metadata_path d.
Proof.
  intros Hs Hf Hq ->. apply parent_short in Hq; [|done..]. unfold metadata_path in Hq.
  pose proof (path_join_length (path_join d "authorized_clients") "metadata.toml" eq_refl) as L1.
  pose proof (path_join_length d "authorized_clients" eq_refl) as L2. cbn [String.length] in L1, L2. lia.
Qed.

Lemma below_clients d : below d "a" (path_join d "authorized_clients").
Proof. eexists. by apply path_join_base. Qed.
Lemma below_metadata d : below d "a" (metadata_path d).
Proof. apply below_join; [apply below_clients|done]. Qed.
Lemma below_name d c f : starts_with "/" (String c f) = false → below d c (path_join d (String c f)).
Proof. intros Hc. exists f. by apply path_join_base. Qed.
Lemma not_metadata d c f : starts_with "/" (String c f) = false → c ≠ "a"%char → path_join d (String c f) ≠ metadata_path d.
Proof. intros Hs Hne. eapply below_ne; [by apply below_name|apply below_metadata|done]. Qed.

Lemma keeps_step {A} (P : World → Prop) (m : io A) w w' r : keeps P m → m w = (w', r) → P w → P w'.
Proof. intros Hk E Hw. specialize (Hk w Hw). by rewrite E in Hk. Qed.

Record prepared (env : ServerEnv) (d : string) (config : Config) (cert : ServerCertificate) (store : ClientStore) (id : Uuid)
    (issuer : option TokenIssuer) (fs : FileSystem) : Prop := {
  pd_config : has_config env d config fs;
  pd_valid : validate_config config = Ok tt;
  pd_cert : has_cert d cert fs;
  pd_store : has_store d store fs;
  pd_id : has_id d id fs;
  pd_issuer : has_issuer d config id issuer fs;
}.

Lemma dir_not_metadata d : d ≠ metadata_path d.
Proof. intros E. eapply (below_dir d); [apply below_metadata|done]. Qed.
Lemma clients_not_metadata d : path_join d "authorized_clients" ≠ metadata_path d.
Proof. intros E. symmetry in E. unfold metadata_path in E. by apply path_join_ne in E. Qed.

(** The later steps of a start leave alone what the earlier ones read. *)
Section later.
Context (env : ServerEnv) (d : string) (Hd : server_home env = Some d) (i : start_input) (config : Config).
Context (w1 w2 w3 w4 w5 w6 w7 w8 : World) (r : result string ServerCertificate) (dir p q : string) (store : ClientStore) (id : Uuid) (issuer : option TokenIssuer).
Context (E2 : server_cert_path env w1 = (w2, Ok p)) (E3 : server_key_path env w2 = (w3, Ok q))
        (E4 : io_server_certificate (sa_cert_now i) (sa_cert_key i) p q w3 = Some (w4, r))
        (E5 : authorized_clients_dir env w4 = (w5, Ok dir)) (E6 : io_client_store dir w5 = (w6, Ok store))
        (E7 : load_or_create_server_id env (sa_fresh_id i) w6 = (w7, Ok id))
        (E8 : start_issuer env config (sa_relay_secret i) id w7 = (w8, Ok issuer)).

Lemma later_paths : p = path_join d "server.crt" ∧ q = path_join d "server.key" ∧ dir = path_join d "authorized_clients".
Proof.
  apply config_file_ok in E2 as (d2 & H2' & -> & _). apply config_file_ok in E3 as (d3 & H3' & -> & _).
  unfold authorized_clients_dir in E5. apply io_bind_ok in E5 as (w & x & E & [-> _]%make_dir_ok).
  apply config_file_ok in E as (d4 & H4' & -> & _). by simplify_eq.
Qed.

Context (F : FileSystem → Prop) (Hdirs : ∀ x, x ≠ metadata_path d → allows_dir F x).
Context (Fid : allows_file F (path_join d "server_id.txt")) (Frelay : allows_file F (path_join d "relay-key.pem")).

Lemma later_issuer : on_fs F w7 → on_fs F w8.
Proof.
  apply (keeps_step _ _ _ _ _ (keeps_issuer F env d Hd (Hdirs d (dir_not_metadata d)) config (sa_relay_secret i) id Frelay
    (λ x Hx, Hdirs x (parent_not_metadata d "relay-key.pem" x eq_refl eq_refl Hx))) E8).
Qed.
Lemma later_id : on_fs F w6 → on_fs F w8.
Proof.
  intros Hw. apply later_issuer. revert Hw.
  apply (keeps_step _ _ _ _ _ (keeps_server_id F env d Hd (Hdirs d (dir_not_metadata d)) (sa_fresh_id i) Fid
    (λ x Hx, Hdirs x (parent_not_metadata d "server_id.txt" x eq_refl eq_refl Hx))) E7).
Qed.
Lemma later_clients : on_fs F w4 → on_fs F w8.
Proof.
  intros Hw. apply later_id. destruct later_paths as (_ & _ & Hdir). rewrite Hdir in E6.
  apply (keeps_step _ _ _ _ _ (keeps_client_store F _ (Hdirs _ (clients_not_metadata d))) E6). revert Hw.
  apply (keeps_step _ _ _ _ _ (keeps_clients_dir F env d Hd (Hdirs d (dir_not_metadata d)) (Hdirs _ (clients_not_metadata d))) E5).
Qed.
Lemma later_certificate : allows_file F (path_join d "server.crt") → allows_file F (path_join d "server.key") → on_fs F w1 → on_fs F w8.
Proof.
  intros Fc Fk Hw. apply later_clients. destruct later_paths as (Hp & Hq & _). rewrite Hp, Hq in E4.
  eapply (keeps_certificate F _ _ _ _ _ _ _ Fc Fk); [|exact E4].
  pose proof (Hdirs d (dir_not_metadata d)) as Hdd.
  apply (keeps_step _ _ _ _ _ (keeps_config_file F env d Hd Hdd "server.key") E3). revert Hw.
  apply (keeps_step _ _ _ _ _ (keeps_config_file F env d Hd Hdd "server.crt") E2).
Qed.
End later.

Lemma client_store_ok env d w w1 w2 store : reliable w → authorized_clients_dir env w = (w1, Ok (path_join d "authorized_clients")) →
  io_client_store (path_join d "authorized_clients") w1 = (w2, Ok store) → has_store d store (w_fs w2).
Proof.
  intros Hr E1 E2. pose proof (keeps_step _ _ _ _ _ (reliable_clients_dir env) E1 Hr) as Hr1.
  unfold authorized_clients_dir in E1. apply io_bind_ok in E1 as (w0 & x & _ & [<- T]%make_dir_ok).
  unfold io_client_store in E2. rewrite !reliable_nth_ok in E2 by done. unfold has_store, there, ClientStore_new in *.
  rewrite T in E2. injection E2 as <- E2. cbn [w_fs after]. split; [done|]. intros mk. by rewrite T, E2.
Qed.
Lemma server_id_there `{!UuidTextLaws, !UuidWord} env fresh d w w' id : reliable w → server_home env = Some d →
  load_or_create_server_id env fresh w = (w', Ok id) → has_id d id (w_fs w').
Proof.
  intros Hr Hd E. destruct (server_id_ok _ _ _ _ _ _ Hr Hd E) as (c & Hc & Hp). split; [|by exists c].
  apply fs_exists_spec. left. unfold fs_read_to_string, fs_read in Hc. by destruct (fs_files _ !! _).
Qed.

(** The steps of a successful start with the default certificate files. *)
Record start_steps (env : ServerEnv) (i : start_input) (w w' : World) (config : Config) (cert : ServerCertificate) (store : ClientStore)
    (id : Uuid) (issuer : option TokenIssuer) : Prop := {
  ss_steps : ∃ w1 w2 w3 w4 w5 w6 w7 p q dir,
    start_config env (sa_os i) w = (w1, Ok config) ∧ server_cert_path env w1 = (w2, Ok p) ∧ server_key_path env w2 = (w3, Ok q) ∧
    io_server_certificate (sa_cert_now i) (sa_cert_key i) p q w3 = Some (w4, Ok cert) ∧
    authorized_clients_dir env w4 = (w5, Ok dir) ∧ io_client_store dir w5 = (w6, Ok store) ∧
    load_or_create_server_id env (sa_fresh_id i) w6 = (w7, Ok id) ∧ start_issuer env config (sa_relay_secret i) id w7 = (w', Ok issuer);
}.

Lemma start_ok env i w w' s : start_handcontrol_server env i w = Some (w', Ok s) →
  let sv := sd_service s in
  sec_cert_path (cfg_security (sv_config sv)) = None → sec_key_path (cfg_security (sv_config sv)) = None →
  start_steps env i w w' (sv_config sv) (sv_server_cert sv) (sv_client_store sv) (sv_server_id sv) (sv_token_issuer sv) ∧
  sv_fs sv = w_fs w' ∧ sd_fingerprint s = fingerprint_display (sv_server_cert sv) ∧
  ∃ ip, parse_ip (srv_bind_address (cfg_server (sv_config sv))) = Some ip ∧ sd_addr s = (ip, srv_port (cfg_server (sv_config sv))).
Proof.
  intros E sv Hcp Hkp. unfold start_handcontrol_server in E. apply pio_bind_ok in E as (w1 & config & E1%run_ok & E).
  apply pio_bind_ok in E as (w2 & p & E2 & E). apply pio_bind_ok in E as (w3 & q & E3 & E).
  apply pio_bind_ok in E as (w4 & cert & E4 & E). apply pio_bind_ok in E as (w5 & dir & E5%run_ok%with_context_ok & E).
  apply pio_bind_ok in E as (w6 & store & E6%run_ok%with_context_ok & E). apply pio_bind_ok in E as (w7 & id & E7%run_ok%with_context_ok & E).
  apply pio_bind_ok in E as (w8 & issuer & E8%run_ok & E). apply pio_bind_ok in E as (w9 & now & E9 & E).
  unfold since_epoch in E9. destruct (sa_now i <? 0); [done|]. injection E9 as <- <-.
  apply pio_bind_ok in E as (w10 & fs & [= <- <-] & E). cbv zeta in E. apply pio_bind_ok in E as (w11 & ip & E11%run_ok & E).
  injection E11 as <- E11%ok_or_ok. injection E as <- <-. subst sv. cbn in *.
  rewrite Hcp in E2. rewrite Hkp in E3. apply unwrap_ok in E2, E3.
  split_and!; [|done..|by exists ip]. split. by repeat eexists.
Qed.

Lemma start_prepares `{!UuidTextLaws, !UuidWord, !KeyPem, !CertCratesLaws} env i w w' config cert store id issuer :
  reliable w → start_steps env i w w' config cert store id issuer →
  ∃ d, server_home env = Some d ∧ prepared env d config cert store id issuer (w_fs w').
Proof.
  intros Hr [(w1 & w2 & w3 & w4 & w5 & w6 & w7 & p & q & dir & E1 & E2 & E3 & E4 & E5 & E6 & E7 & E8)].
  destruct (start_config_ok _ _ _ _ _ Hr E1) as (d & b & Hd & Td & Hb & Hl & Hv). exists d. split; [done|].
  pose proof (keeps_step _ _ _ _ _ (reliable_start_config env (sa_os i)) E1 Hr) as R1.
  pose proof (keeps_step _ _ _ _ _ (reliable_config_file env "server.crt") E2 R1) as R2.
  pose proof (keeps_step _ _ _ _ _ (reliable_config_file env "server.key") E3 R2) as R3.
  pose proof (reliable_certificate _ _ _ _ _ _ _ R3 E4) as R4.
  pose proof (keeps_step _ _ _ _ _ (reliable_clients_dir env) E5 R4) as R5.
  pose proof (keeps_step _ _ _ _ _ (reliable_client_store dir) E6 R5) as R6.
  pose proof (keeps_step _ _ _ _ _ (reliable_server_id env (sa_fresh_id i)) E7 R6) as R7.
  assert (p = path_join d "server.crt" ∧ q = path_join d "server.key" ∧ dir = path_join d "authorized_clients") as (-> & -> & ->)
    by (eapply later_paths; eassumption).
  split; [|done|..].
  - eapply later_certificate; try eassumption.
    all: try (apply (monotone_file _ _ _ (monotone_config env d config)); set_unfold; intros [E|[E|[]]]; revert E; first [by apply path_join_ne|by apply join_ne]).
    + intros x _. eapply monotone_dir, monotone_config.
    + split_and!; [done| |done]. apply fs_exists_spec. left. by rewrite Hb.
  - eapply later_clients; try eassumption.
    all: try (apply (monotone_file _ _ _ (monotone_cert d cert)); set_unfold; intros [E|[E|[]]]; revert E; by apply join_ne).
    + intros x _. eapply monotone_dir, monotone_cert.
    + unfold io_server_certificate in E4. destruct (ensure_server_certificate _ _ _ _) as [[fs [c|]]|] eqn:E; [|done..]. injection E4 as <- <-.
      eapply ensured_loads in E as (? & ? & ?); [by split_and!|by apply join_ne|by apply reliable_nth_ok..].
  - eapply later_id; try eassumption.
    + intros x. apply store_dir.
    + apply store_file. by apply not_metadata.
    + apply store_file. by apply not_metadata.
    + unfold on_fs. by eapply (client_store_ok _ _ w4).
  - eapply later_issuer; try eassumption.
    + intros x _. eapply monotone_dir, monotone_id.
    + apply (monotone_file _ _ _ (monotone_id d id)). set_unfold. intros [E|[]]; revert E; by apply join_ne.
    + by apply (server_id_there env (sa_fresh_id i) d w6).
  - by apply (issuer_ok env config (sa_relay_secret i) id d w7).
Qed.

(** *** Starting on such a disk *)
Section again.
Context (env : ServerEnv) (d : string) (config : Config) (cert : ServerCertificate) (store : ClientStore) (id : Uuid)
        (issuer : option TokenIssuer) (fs : FileSystem).
Context (Hd : server_home env = Some d) (Hp : prepared env d config cert store id issuer fs).
(** The disk is as before and works. *)
Definition fine (w : World) : Prop := w_fs w = fs ∧ reliable w.

Lemma fine_after n w : fine w → fine (after n fs w).
Proof. intros [Hf Hr]. split; [done|by apply reliable_after]. Qed.
Lemma config_file_again name w : fine w → config_file env name w = (w, Ok (path_join d name)).
Proof. intros [Hf _]. apply config_file_there; [done|]. rewrite Hf. apply (pd_config _ _ _ _ _ _ _ _ Hp). Qed.

Lemma start_config_again os w : fine w → ∃ w', start_config env os w = (w', Ok config) ∧ fine w'.
Proof.
  intros Hw. destruct (pd_config _ _ _ _ _ _ _ _ Hp) as (_ & T & L). pose proof Hw as [Hf Hr].
  unfold start_config. rewrite (io_run _ _ _ w (path_join d "config.toml")) by (apply with_context_ok; by apply config_file_again).
  rewrite io_run_exists, Hf. unfold there in T. rewrite T, (io_run (mret tt) _ w w tt) by done.
  exists (after 1 fs w). split; [|by apply fine_after]. erewrite io_run; [|apply with_context_ok; unfold io_load_config; by rewrite Hf, reliable_nth_ok, L].
  by rewrite (pd_valid _ _ _ _ _ _ _ _ Hp).
Qed.
Lemma certificate_again now key w : fine w → ∃ w',
  io_server_certificate now key (path_join d "server.crt") (path_join d "server.key") w = Some (w', Ok cert) ∧ fine w'.
Proof.
  intros Hw. pose proof Hw as [Hf Hr]. destruct (pd_cert _ _ _ _ _ _ _ _ Hp) as (T1 & T2 & L). exists (after 4 fs w). split; [|by apply fine_after].
  unfold io_server_certificate. rewrite Hf. by erewrite ensure_loaded by (try apply reliable_nth_ok; done).
Qed.
Lemma clients_dir_again w : fine w → authorized_clients_dir env w = (w, Ok (path_join d "authorized_clients")).
Proof.
  intros Hw. unfold authorized_clients_dir. rewrite (io_run _ _ _ _ _ (config_file_again _ _ Hw)). apply make_dir_there.
  destruct Hw as [-> _]. apply (pd_store _ _ _ _ _ _ _ _ Hp).
Qed.
Lemma client_store_again w : fine w → ∃ w', io_client_store (path_join d "authorized_clients") w = (w', Ok store) ∧ fine w'.
Proof.
  intros Hw. pose proof Hw as [Hf Hr]. exists (after 2 fs w). split; [|by apply fine_after]. unfold io_client_store.
  rewrite !reliable_nth_ok by done. destruct (pd_store _ _ _ _ _ _ _ _ Hp) as [_ L]. by rewrite Hf, L.
Qed.
Lemma server_id_again fresh w : fine w → ∃ w', load_or_create_server_id env fresh w = (w', Ok id) ∧ fine w'.
Proof.
  intros Hw. pose proof Hw as [Hf Hr]. destruct (pd_id _ _ _ _ _ _ _ _ Hp) as (T & c & Hc & Hid).
  unfold load_or_create_server_id, server_id_path. rewrite (io_run _ _ _ _ _ (config_file_again _ _ Hw)), io_run_exists, Hf, T.
  destruct (io_read_to_string_reliable (path_join d "server_id.txt") (fmt ["Failed to read server ID from "; path_join d "server_id.txt"]) w c Hr)
    as (w1 & E1 & Hf1 & Hr1 & _); [by rewrite Hf|]. exists w1. split; [|split; [congruence|done]].
  erewrite (io_run _ _ _ w1 (Ok id)); [done|]. unfold attempt, load_server_id. rewrite (io_run _ _ _ _ _ E1). cbv zeta. by rewrite Hid.
Qed.
Lemma issuer_again secret w : fine w → ∃ w', start_issuer env config secret id w = (w', Ok issuer) ∧ fine w'.
Proof.
  intros Hw. pose proof Hw as [Hf Hr]. pose proof (pd_issuer _ _ _ _ _ _ _ _ Hp) as Hi. unfold start_issuer, has_issuer in *.
  destruct issuer as [i|]; [|rewrite Hi; by exists w]. destruct Hi as (-> & T & key & Hk & ->). exists (after 4 fs w).
  split; [|by apply fine_after]. rewrite (io_run _ _ _ w d).
  2: { apply with_context_ok, config_dir_there; [done|]. rewrite Hf. apply (pd_config _ _ _ _ _ _ _ _ Hp). }
  erewrite io_run; [done|]. apply with_context_ok. unfold io_token_issuer, TokenIssuer_new, load_or_generate_key.
  unfold there in T. by rewrite Hf, T, reliable_nth_ok, Hk.
Qed.

Lemma start_again i w ip : fine w → 0 ≤ sa_now i →
  sec_cert_path (cfg_security config) = None → sec_key_path (cfg_security config) = None →
  parse_ip (srv_bind_address (cfg_server config)) = Some ip →
  ∃ w' s, start_handcontrol_server env i w = Some (w', Ok s) ∧ w_fs w' = fs ∧ sd_addr s = (ip, srv_port (cfg_server config)) ∧
    sd_fingerprint s = fingerprint_display cert ∧
    let sv := sd_service s in sv_config sv = config ∧ sv_server_cert sv = cert ∧ sv_server_id sv = id ∧ sv_client_store sv = store ∧
      sv_token_issuer sv = issuer ∧ sv_fs sv = fs.
Proof.
  intros Hw Hnow Hcp Hkp Hip. unfold start_handcontrol_server.
  destruct (start_config_again (sa_os i) w Hw) as (w1 & E1 & F1). rewrite (pio_run _ _ _ w1 config) by by apply run_ok.
  cbv zeta. rewrite Hcp, Hkp. unfold configured_or, server_cert_path, server_key_path.
  do 2 rewrite (pio_run _ _ _ w1 _) by (apply unwrap_ok; by apply config_file_again).
  destruct (certificate_again (sa_cert_now i) (sa_cert_key i) w1 F1) as (w2 & E2 & F2). rewrite (pio_run _ _ _ _ _ E2).
  rewrite (pio_run _ _ _ w2 (path_join d "authorized_clients")) by (apply run_ok, with_context_ok; by apply clients_dir_again).
  destruct (client_store_again w2 F2) as (w3 & E3 & F3). rewrite (pio_run _ _ _ w3 store) by by apply run_ok, with_context_ok.
  destruct (server_id_again (sa_fresh_id i) w3 F3) as (w4 & E4 & F4). rewrite (pio_run _ _ _ w4 id) by by apply run_ok, with_context_ok.
  destruct (issuer_again (sa_relay_secret i) w4 F4) as (w5 & E5 & F5). rewrite (pio_run _ _ _ w5 issuer) by by apply run_ok.
  erewrite (pio_run (since_epoch _)); [|unfold since_epoch; by rewrite (proj2 (Z.ltb_ge _ _) Hnow)].
  cbn -[parse_ip RelayClient_new]. rewrite Hip. destruct F5 as [Hf5 _]. do 2 eexists. split; [done|]. cbn. by split_and!.
Qed.
End again.

(** *** The life of a server between two starts *)
(** Operations of the client store; the flag says whether the last one succeeded. *)
Definition store_life (ops : list cs_op) (st : FileSystem * ClientStore) : FileSystem * ClientStore * bool :=
  foldl (λ st o, cs_step o st.1) (st, true) ops.
(** Client ids are not absolute paths. *)
Definition plain_op (o : cs_op) : Prop := ∀ id, op_id o = Some id → starts_with "/" (String.append id ".crt") = false.

Lemma store_life_frame d ops fs s fs' s' ok : Forall plain_op ops →
  cs_clients_dir s = path_join d "authorized_clients" → cs_metadata_path s = metadata_path d →
  store_life ops (fs, s) = (fs', s', ok) →
  cs_clients_dir s' = path_join d "authorized_clients" ∧ cs_metadata_path s' = metadata_path d ∧ fs_dirs fs' = fs_dirs fs ∧
  (∀ q, ¬ below d "a" q → fs_files fs' !! q = fs_files fs !! q) ∧
  fs_files fs' !! path_join d "authorized_clients" = fs_files fs !! path_join d "authorized_clients".
Proof.
  intros Hpl Hd Hm. revert fs' s' ok. induction ops as [|o ops IH] using rev_ind; intros fs' s' ok E; [by injection E as <- <- <-|].
  apply Forall_app in Hpl as [Hpl Ho]. rewrite Forall_singleton in Ho. unfold store_life in E. rewrite foldl_app in E. cbn [foldl] in E.
  destruct (foldl _ _ ops) as [[fs1 s1] ok1] eqn:E1. destruct (IH Hpl _ _ _ E1) as (D1 & M1 & DD & FF & FD). cbn [fst] in E.
  destruct (cs_step_paths _ _ _ _ _ _ E) as [D2 M2].
  assert (∀ q, q ≠ metadata_path d → (∀ id, op_id o = Some id → q ≠ cert_file s1 id) →
    fs_files fs' !! q = fs_files fs1 !! q ∧ fs_dirs fs' = fs_dirs fs1) as Hfr.
  { intros q Hq Hc. eapply cs_step_frame; [done|congruence|done]. }
  assert (∀ id, op_id o = Some id → below d "a" (cert_file s1 id)) as Hcert.
  { intros id Hid. unfold cert_file. rewrite D1. apply below_join; [apply below_clients|by apply Ho]. }
  split_and!; [congruence..| | |].
  - destruct (Hfr d) as [_ ->]; [apply dir_not_metadata| |done]. intros id Hid Heq. eapply (below_dir d); [by apply Hcert|done].
  - intros q Hq. destruct (Hfr q) as [-> _]; [intros ->; apply Hq, below_metadata|intros id Hid ->; by apply Hq, Hcert|by apply FF].
  - destruct (Hfr (path_join d "authorized_clients")) as [-> _]; [apply clients_not_metadata| |done].
    intros id Hid Heq. unfold cert_file in Heq. rewrite D1 in Heq. symmetry in Heq. apply path_join_ne in Heq; [done| |by apply Ho].
    by destruct id.
Qed.

Lemma has_store_paths d s fs : has_store d s fs →
  cs_clients_dir s = path_join d "authorized_clients" ∧ cs_metadata_path s = metadata_path d.
Proof.
  intros [T L]. specialize (L true). unfold ClientStore_new in L. unfold there in T. rewrite T in L. injection L as L.
  by apply result_bind_ok in L as (r & _ & [= <-]).
Qed.
Lemma store_life_stored `{!TomlLaws ClientRegistry} d ops fs s fs' s' : Forall plain_op ops →
  has_store d s fs → store_life ops (fs, s) = (fs', s', true) → has_store d s' fs'.
Proof.
  intros Hpl Hs E. destruct (has_store_paths _ _ _ Hs) as [D M].
  destruct (store_life_frame d ops fs s fs' s' true Hpl D M E) as (D' & M' & DD & _ & FD). destruct Hs as [T L].
  assert (there (path_join d "authorized_clients") fs') as T' by (unfold there in *; revert T; by rewrite !fs_exists_spec, DD, FD).
  split; [done|]. destruct ops as [|o ops _] using rev_ind; [by injection E as <- <-|]. unfold store_life in E.
  rewrite foldl_app in E. cbn [foldl] in E. destruct (foldl _ _ ops) as [[fs1 s1] ok1]. cbn [fst] in E.
  apply cs_step_saved in E as (_ & _ & a & fs0 & u & _ & Hsave). intros mk. rewrite <-D'.
  by eapply saved_loads; [rewrite M', D'|exact Hsave|rewrite D'].
Qed.

(** C24: A restart keeps the server what it is.  A server starts on a working disk
    with the default certificate files and then adds, removes and updates clients, with
    any of these operations failing except the last.  Whatever the clock, the key
    generator and the random numbers give, it can be started again: with the same
    configuration, certificate (so that the clients' pins stay valid), server id,
    relay key, address and authorized clients; and the second start writes nothing. *)
Theorem restart_keeps_identity `{!UuidTextLaws, !UuidWord, !KeyPem, !CertCratesLaws, !TomlLaws ClientRegistry}
    env i w w1 s ops fs' store' j w2 :
  reliable w → start_handcontrol_server env i w = Some (w1, Ok s) →
  let sv := sd_service s in
  sec_cert_path (cfg_security (sv_config sv)) = None → sec_key_path (cfg_security (sv_config sv)) = None →
  Forall plain_op ops → store_life ops (sv_fs sv, sv_client_store sv) = (fs', store', true) →
  reliable w2 → w_fs w2 = fs' → 0 ≤ sa_now j →
  ∃ w3 s', start_handcontrol_server env j w2 = Some (w3, Ok s') ∧ w_fs w3 = fs' ∧
    sd_addr s' = sd_addr s ∧ sd_fingerprint s' = sd_fingerprint s ∧
    let sv' := sd_service s' in
    sv_config sv' = sv_config sv ∧ sv_server_cert sv' = sv_server_cert sv ∧ sv_server_id sv' = sv_server_id sv ∧
    sv_token_issuer sv' = sv_token_issuer sv ∧ sv_client_store sv' = store'.
Proof.
  intros Hr E sv Hcp Hkp Hpl Hlife Hr2 Hf2 Hnow. destruct (start_ok _ _ _ _ _ E Hcp Hkp) as (Hsteps & Hfs & Hfp & ip & Hip & Haddr).
  destruct (start_prepares _ _ _ _ _ _ _ _ _ Hr Hsteps) as (d & Hd & [Pc Pv Pk Ps Pi Pr]). fold sv in Hfs, Hfp, Hip, Haddr, Pc, Pv, Pk, Ps, Pi, Pr.
  rewrite Hfs in Hlife. destruct (has_store_paths _ _ _ Ps) as [D M].
  destruct (store_life_frame _ _ _ _ _ _ _ Hpl D M Hlife) as (_ & _ & DD & FF & _).
  assert (∀ c f, starts_with "/" (String c f) = false → c ≠ "a"%char → fs_files fs' !! path_join d (String c f) = fs_files (w_fs w1) !! path_join d (String c f)) as Hfile.
  { intros c f Hc Hne. apply FF. intros Hb. eapply (below_ne d c "a"); [by apply below_name|exact Hb|done|done]. }
  assert (prepared env d (sv_config sv) (sv_server_cert sv) store' (sv_server_id sv) (sv_token_issuer sv) fs') as Hprep.
  { split; [|done|..].
    - apply (monotone_config _ _ _ (w_fs w1) fs'); [|by rewrite DD|exact Pc]. intros q Hq. set_unfold in Hq. destruct Hq as [->|[->|[]]]; [|by apply Hfile].
      apply FF. intros Hb. by eapply below_dir.
    - apply (monotone_cert _ _ (w_fs w1) fs'); [|by rewrite DD|exact Pk]. intros q Hq. set_unfold in Hq. destruct Hq as [->|[->|[]]]; by apply Hfile.
    - by eapply store_life_stored.
    - apply (monotone_id _ _ (w_fs w1) fs'); [|by rewrite DD|exact Pi]. intros q ->%list_elem_of_singleton. by apply Hfile.
    - apply (monotone_issuer _ _ _ _ (w_fs w1) fs'); [|by rewrite DD|exact Pr]. intros q ->%list_elem_of_singleton. by apply Hfile. }
  destruct (start_again env d _ _ _ _ _ fs' Hd Hprep j w2 ip) as (w3 & s' & E' & Hf' & Ha' & Hfp' & Hc' & Hk' & Hid' & Hst' & Hi' & _); try done.
  exists w3, s'. rewrite Ha', Hfp', Haddr, Hfp. by split_and!.
Qed.
End start.

(** ** A concrete server *)
#[local] Existing Instance demo_sha256.
#[local] Existing Instance demo_hex.
#[local] Existing Instance demo_regex.
#[local] Existing Instance demo_crates.
#[local] Existing Instance demo_crates_laws.
#[local] Existing Instance demo_uuid.
#[local] Existing Instance demo_uuid_laws.
#[local] Instance clients_toml : TomlCodec ClientRegistry := countable_toml ClientRegistry.
#[local] Instance clients_toml_laws : TomlLaws ClientRegistry := countable_toml_laws ClientRegistry.
#[local] Instance config_toml : TomlCodec Config := {| toml_to_string_pretty _ := Ok "config"; toml_from_str _ := Err "" |}.
#[local] Instance key_tokens : TokenCrates := {|
  key_to_pem k := Some (bits_of_pos (encode (map Byte.to_N k)));
  key_from_pem s := option_map (map (λ n, default x00 (Byte.of_N n))) (decode (A := list N) (pos_of_bits s));
  verifying_key k := k; public_pem _ := None; pem_is_encoding_key _ := true; jwt_encode _ _ := None; base64_encode _ := "";
|}.
#[local] Instance key_tokens_pem : KeyPem.
Proof.
  intros k pem [= <-]. split; [|apply bits_of_pos_utf8]. cbn. rewrite pos_of_bits_of_pos, decode_encode. cbn. f_equal.
  rewrite map_map. induction k as [|x k IH]; [done|]. cbn [map]. by rewrite Byte.of_to_N, IH.
Qed.
#[local] Instance demo_uuid_word : UuidWord.
Proof.
  split; intros u; cbn; [|apply bits_of_pos_utf8]. apply trim_visible.
  induction (N.succ_pos u) as [p IH|p IH|]; cbn; by rewrite ?IH.
Qed.

Definition relay_raw : RawRelay :=
  mkRawRelay (Some true) (Some "wss://relay") (Some "secret") None None None None None None None None None.
Definition raw_config : RawConfig :=
  mkRawConfig (mkRawServer None None None None) (mkRawSecurity None None None None None None) None (Some relay_raw) None.
Definition start_env : ServerEnv := mkServerEnv (Some "/etc/hc") None None (Some "/root").
Definition start_world (fs : FileSystem) : World := mkWorld fs ∅ 420 (λ _, WOk) 0.
Definition first_input : start_input := mkStartInput Linux 0 (Some [x01]) 7%N [x05] 0 None.
Definition second_input : start_input := mkStartInput Linux 9 None 8%N [x06] NANOS (Some "host").
Definition enrol_op : cs_op := OpAdd "a" 10 WOk WOk [x03] "Pixel" None.
Definition demo_start (i : start_input) (fs : FileSystem) : option (World * result string Started) :=
  start_handcontrol_server (λ _, Some raw_config) start_env i (start_world fs).

(** What is asked of the first start, evaluated. *)
Definition first_start {A} (f : Started → A) : option A :=
  match demo_start first_input (mkFs ∅ ∅) with Some (_, Ok s) => Some (f s) | _ => None end.
Definition enrolled_after (s : Started) : FileSystem * ClientStore * bool :=
  store_life [enrol_op] (sv_fs (sd_service s), sv_client_store (sd_service s)).

Lemma restart_keeps_identity_witness : ∃ w1 s fs' store' w3 s',
  demo_start first_input (mkFs ∅ ∅) = Some (w1, Ok s) ∧ enrolled_after s = (fs', store', true) ∧
  demo_start second_input fs' = Some (w3, Ok s') ∧ sv_server_id (sd_service s') = 7%N ∧
  sv_client_store (sd_service s') = store' ∧ is_authorized (fp_of [x03]) store' = true.
Proof.
  assert (first_start (λ s, (sec_cert_path (cfg_security (sv_config (sd_service s))), sec_key_path (cfg_security (sv_config (sd_service s))),
    sv_server_id (sd_service s), (enrolled_after s).2, is_authorized (fp_of [x03]) (enrolled_after s).1.2)) = Some (None, None, 7%N, true, true)) as Ef
    by (vm_compute; reflexivity).
  unfold first_start in Ef. destruct (demo_start first_input (mkFs ∅ ∅)) as [[w1 [s|]]|] eqn:E; [|discriminate Ef..].
  destruct (enrolled_after s) as [[fs' store'] ok] eqn:L. cbn [fst snd] in Ef. injection Ef as Ec Ek Ei -> Ea.
  destruct (restart_keeps_identity (λ _, Some raw_config) start_env first_input (start_world (mkFs ∅ ∅)) w1 s [enrol_op] fs' store' second_input (start_world fs'))
    as (w3 & s' & E' & _ & _ & _ & _ & _ & Hid & _ & Hst).
  - intros k _. reflexivity.
  - exact E.
  - exact Ec.
  - exact Ek.
  - constructor; [|constructor]. intros id [= <-]. reflexivity.
  - exact L.
  - intros k _. reflexivity.
  - reflexivity.
  - vm_compute. discriminate.
  - exists w1, s, fs', store', w3, s'. split; [reflexivity|]. split; [exact L|]. split; [exact E'|]. split; [congruence|]. split; [exact Hst|exact Ea].
Defined.
