(* ===== verification/Mdns.v ===== *)
(** * The mDNS announcement (server/src/mdns/service.rs)

    Starting, stopping and updating the announcement, the backends it runs on, and
    the names it uses.  What the operating system and the daemons answer is an input.
    The registrations in force are part of the state, so that a registration nobody
    holds any more is visible.  What the tools announce for their arguments is the
    relation [announces]; a client that resolves it is modelled in [Discovery]. *)

From S2P Require Import Prelude RustStd ThirdParty Net Config Validation RelayTokens SessionState Certificates.
From S2P Require Import Fs ClientStore Service Io ServerStart ClientConfig Discovery ClientConnect ClientEnroll EnrollFlow.

Local Open Scope string_scope.
Local Open Scope Z_scope.

Definition SERVICE_TYPE_NO_DOMAIN : string := "_handcontrol._tcp".
Definition TXT_RECORD_VERSION : string := "1.0".
Definition DEFAULT_HOST_LABEL : string := "handcontrol".

(** ** The host name *)
Definition is_ascii_alphanumeric (c : ascii) : bool := is_ascii_alpha c || is_ascii_digit c.
Definition is_dash (c : ascii) : bool := bool_decide (c = "-"%char).

(** The characters kept; [skip] counts the bytes of the current character still to
    pass over. *)
Fixpoint label_chars (skip : nat) (s : string) : string :=
  match s, skip with
  | EmptyString, _ => EmptyString
  | String _ s', S k => label_chars k s'
  | String c s', O =>
      if is_ascii_alphanumeric c then String (to_ascii_lower_char c) (label_chars 0 s')
      else if is_dash c || bool_decide (c = "_"%char) then String "-" (label_chars 0 s')
      else match ws_len s with
           | S n => String "-" (label_chars n s')
           | O => label_chars (pred (utf8_len s)) s'
           end
  end.

(** The two loops that remove dashes are [trim_matches]; [truncate] cuts bytes, which
    are whole characters here. *)
Fixpoint string_take (n : nat) (s : string) : string :=
  match n, s with S n', String c s' => String c (string_take n' s') | _, _ => EmptyString end.
Definition sanitize_host_label (input : string) : string := string_take 63 (trim_matches is_dash (label_chars 0 input)).

Definition derive_host_name (hostname : option string) : string :=
  let label := match sanitize_host_label <$> hostname with
               | Some label => if str_is_empty label then DEFAULT_HOST_LABEL else label
               | None => DEFAULT_HOST_LABEL
               end in
  String.append label ".local.".

(** ** Registrations *)
Inductive Registration :=
  | RegInternal (service_type instance host : string) (port : Z) (properties : gmap string string)
  | RegCommand (program : string) (args : list string).
Inductive Handle := Internal | Bonjour | Avahi.
Definition backend_name (h : Handle) : string :=
  match h with Internal => "embedded-mdns-sd" | Bonjour => "dns-sd" | Avahi => "avahi" end.

Definition txt_arg (kv : string * string) : string := String.append kv.1 (String.append "=" kv.2).
Definition avahi_args (instance : string) (port : Z) (txt : list (string * string)) : list string :=
  (instance :: SERVICE_TYPE_NO_DOMAIN :: pretty port :: (txt_arg <$> txt))%list.
Definition bonjour_args (instance : string) (port : Z) (txt : list (string * string)) : list string :=
  ("-R" :: instance :: SERVICE_TYPE_NO_DOMAIN :: "local" :: pretty port :: (txt_arg <$> txt))%list.
Definition internal_info (instance : string) (port : Z) (txt : list (string * string)) (hostname : option string) : Registration :=
  RegInternal SERVICE_TYPE instance (derive_host_name hostname) port (foldl (λ m kv, <[kv.1 := kv.2]> m) ∅ txt).

Record MdnsService := mkMdnsService {
  ms_handle : option (nat * Handle);       (* the registration the service holds *)
  ms_instance_name : string;
  ms_port : Z;
  ms_server_id : Uuid;
  ms_cert_fingerprint : string;
  ms_live : gmap nat Registration;         (* the registrations in force *)
  ms_next : nat;
}.
Definition set_handle (h : option (nat * Handle)) (s : MdnsService) : MdnsService :=
  mkMdnsService h (ms_instance_name s) (ms_port s) (ms_server_id s) (ms_cert_fingerprint s) (ms_live s) (ms_next s).
Definition add_registration (r : Registration) (s : MdnsService) : MdnsService :=
  mkMdnsService (ms_handle s) (ms_instance_name s) (ms_port s) (ms_server_id s) (ms_cert_fingerprint s)
    (<[ms_next s := r]> (ms_live s)) (S (ms_next s)).
Definition unregister (k : nat) (s : MdnsService) : MdnsService :=
  mkMdnsService (ms_handle s) (ms_instance_name s) (ms_port s) (ms_server_id s) (ms_cert_fingerprint s)
    (delete k (ms_live s)) (ms_next s).
Definition set_parameters (name : string) (port : Z) (id : Uuid) (fp : string) (s : MdnsService) : MdnsService :=
  mkMdnsService (ms_handle s) name port id fp (ms_live s) (ms_next s).

Definition MdnsService_new (name : string) (port : Z) (id : Uuid) (fp : string) : MdnsService :=
  mkMdnsService None name port id fp ∅ 0.
Definition is_running (s : MdnsService) : bool := bool_decide (is_Some (ms_handle s)).

(** ** Starting *)
(** What [try_wait] reports 200 ms after a helper process was started. *)
Inductive child_status := Running | Exited (status stderr : string) | StatusUnknown.
Record start_answers := mkStartAnswers {
  an_spawned : bool;
  an_status : child_status;
  an_daemon : bool; an_info : bool; an_register : bool;
  an_hostname : option string;
}.

Definition wait_for_child_ready (name : string) (st : child_status) : result string unit :=
  match st with
  | Running => Ok tt
  | Exited status stderr =>
      Err (fmt [name; " exited early with status "; status;
                if str_is_empty (trim stderr) then "" else String.append ": " (trim stderr)])
  | StatusUnknown => Err (fmt ["Failed to check "; name; " process status"])
  end.

(** A helper process: it announces from the moment it runs, also when its status
    could not be read. *)
Definition start_child (program failure : string) (args : list string) (h : Handle) (an : start_answers) (s : MdnsService)
    : MdnsService * result string (nat * Handle) :=
  if negb (an_spawned an) then (s, Err failure)
  else match wait_for_child_ready program (an_status an), an_status an with
       | Ok _, _ => (add_registration (RegCommand program args) s, Ok (ms_next s, h))
       | Err e, StatusUnknown => (add_registration (RegCommand program args) s, Err e)
       | Err e, _ => (s, Err e)
       end.
Definition start_macos (an : start_answers) (txt : list (string * string)) (s : MdnsService) :=
  start_child "dns-sd" "Failed to spawn dns-sd registration command" (bonjour_args (ms_instance_name s) (ms_port s) txt) Bonjour an s.
Definition start_avahi (an : start_answers) (txt : list (string * string)) (s : MdnsService) :=
  start_child "avahi-publish-service" "Failed to spawn avahi-publish-service command"
    (avahi_args (ms_instance_name s) (ms_port s) txt) Avahi an s.
Definition start_internal (an : start_answers) (txt : list (string * string)) (s : MdnsService)
    : MdnsService * result string (nat * Handle) :=
  if negb (an_daemon an) then (s, Err "Failed to create mDNS service daemon")
  else if negb (an_info an) then (s, Err "Failed to create mDNS service info")
  else if negb (an_register an) then (s, Err "Failed to register mDNS service")
  else (add_registration (internal_info (ms_instance_name s) (ms_port s) txt (an_hostname an)) s, Ok (ms_next s, Internal)).

Definition platform_start (os : TargetOs) (an : start_answers) (txt : list (string * string)) (s : MdnsService)
    : MdnsService * result string (nat * Handle) :=
  match os with
  | MacOs => start_macos an txt s
  | Linux =>
      match start_avahi an txt s with
      | (s1, Ok h) => (s1, Ok h)
      | (s1, Err _) => start_internal an txt s1
      end
  | _ => start_internal an txt s
  end.

(** ** Stopping *)
Inductive kill_answer := Killed | AlreadyGone | KillFailed.
Record stop_answers := mkStopAnswers { an_shutdown : bool; an_kill : kill_answer; an_wait : bool }.

Definition stop_child (name : string) (an : stop_answers) (k : nat) (s : MdnsService) : MdnsService * result string unit :=
  match an_kill an with
  | KillFailed => (s, Err (fmt ["Failed to terminate "; name; " process"]))
  | Killed | AlreadyGone =>
      (unregister k s, if an_wait an then Ok tt else Err (fmt ["Failed to wait for "; name; " process shutdown"]))
  end.
Definition handle_stop (an : stop_answers) (kh : nat * Handle) (s : MdnsService) : MdnsService * result string unit :=
  let '(k, h) := kh in
  match h with
  | Internal => if an_shutdown an then (unregister k s, Ok tt) else (s, Err "Failed to shutdown mDNS daemon")
  | Bonjour => stop_child "dns-sd" an k s
  | Avahi => stop_child "avahi-publish-service" an k s
  end.
(** [stop]: the handle is taken out before it is stopped. *)
Definition mdns_stop (an : stop_answers) (s : MdnsService) : MdnsService * result string unit :=
  match ms_handle s with
  | Some kh => handle_stop an kh (set_handle None s)
  | None => (s, Ok tt)
  end.

Section service.
Context `{UuidText}.

Definition build_txt_records (s : MdnsService) : list (string * string) :=
  [("version", TXT_RECORD_VERSION); ("server_id", uuid_to_string (ms_server_id s)); ("cert_fingerprint", ms_cert_fingerprint s)].

Definition mdns_start (os : TargetOs) (sa : stop_answers) (an : start_answers) (s : MdnsService) : MdnsService * result string unit :=
  let '(s1, stopped) := if is_running s then mdns_stop sa s else (s, Ok tt) in
  match stopped with
  | Err _ => (s1, Err "Failed to stop existing mDNS service before restart")
  | Ok _ =>
      match platform_start os an (build_txt_records s1) s1 with
      | (s2, Ok kh) => (set_handle (Some kh) s2, Ok tt)
      | (s2, Err _) => (s2, Err "Failed to activate mDNS backend")
      end
  end.

Definition mdns_update (os : TargetOs) (name : string) (port : Z) (id : Uuid) (fp : string) (sa sa' : stop_answers) (an : start_answers)
    (s : MdnsService) : MdnsService * result string unit :=
  match mdns_stop sa s with
  | (s1, Err _) => (s1, Err "Failed to stop existing mDNS service")
  | (s1, Ok _) =>
      match mdns_start os sa' an (set_parameters name port id fp s1) with
      | (s2, Ok _) => (s2, Ok tt)
      | (s2, Err _) => (s2, Err "Failed to restart mDNS service with new parameters")
      end
  end.
Definition mdns_drop (an : stop_answers) (s : MdnsService) : MdnsService := if is_running s then (mdns_stop an s).1 else s.

Inductive mdns_op :=
  | MStart (sa : stop_answers) (an : start_answers)
  | MStop (sa : stop_answers)
  | MUpdate (name : string) (port : Z) (id : Uuid) (fp : string) (sa sa' : stop_answers) (an : start_answers)
  | MHelperExits (k : nat).   (* a helper process ends by itself; the service does not notice *)
Definition mdns_step (os : TargetOs) (o : mdns_op) (s : MdnsService) : MdnsService :=
  match o with
  | MStart sa an => (mdns_start os sa an s).1
  | MStop sa => (mdns_stop sa s).1
  | MUpdate name port id fp sa sa' an => (mdns_update os name port id fp sa sa' an s).1
  | MHelperExits k => unregister k s
  end.
Definition mdns_run (os : TargetOs) (ops : list mdns_op) (s : MdnsService) : MdnsService := foldl (λ s o, mdns_step os o s) s ops.
End service.

(** ** What a registration tells the network *)
(** [key=value] arguments, cut at the first equals sign. *)
Fixpoint txt_entry (s : string) : option (string * string) :=
  match s with
  | EmptyString => None
  | String c s' => if bool_decide (c = "="%char) then Some ("", s') else prod_map (String c) id <$> txt_entry s'
  end.
Definition txt_map (args : list string) : gmap string string :=
  foldl (λ m a, match txt_entry a with Some (k, v) => <[k := v]> m | None => m end) ∅ args.

(** The port and the TXT records announced: mdns-sd those of the [ServiceInfo], the two
    tools those of their command lines (avahi-publish-service(1), dns-sd(1)). *)
Inductive announces : Registration → Z → gmap string string → Prop :=
  | announces_internal ty name host port m : announces (RegInternal ty name host port m) port m
  | announces_avahi name ty port txt :
      announces (RegCommand "avahi-publish-service" (name :: ty :: pretty port :: txt)) port (txt_map txt)
  | announces_bonjour name ty dom port txt :
      announces (RegCommand "dns-sd" ("-R" :: name :: ty :: dom :: pretty port :: txt)) port (txt_map txt).

(** ** The host label *)
(** Only letters in lower case, digits and dashes; at most 63 bytes, as a DNS label needs. *)
Definition label_char (c : ascii) : bool := is_dash c || is_ascii_digit c || (is_ascii_alpha c && bool_decide (to_ascii_lower_char c = c)).

Lemma label_char_lower c : is_ascii_alphanumeric c = true → label_char (to_ascii_lower_char c) = true.
Proof. destruct c as [[] [] [] [] [] [] [] []]; vm_compute; done. Qed.

Lemma label_chars_shape s : ∀ skip, string_forall label_char (label_chars skip s) = true.
Proof.
  induction s as [|c s IH]; intros [|k]; cbn -[ws_len utf8_len]; try done.
  destruct (is_ascii_alphanumeric c) eqn:E; [cbn; by rewrite label_char_lower, IH|].
  destruct (is_dash c || _); [cbn; by rewrite IH|]. destruct (ws_len _); [apply IH|cbn; by rewrite IH].
Qed.

Lemma trim_start_matches_forall f g s : string_forall g s = true → string_forall g (trim_start_matches f s) = true.
Proof. induction s as [|c s IH]; cbn; [done|]. intros [Hc Hs]%andb_prop. destruct (f c); [by apply IH|]. cbn. by rewrite Hc, Hs. Qed.
Lemma trim_end_matches_forall f g s : string_forall g s = true → string_forall g (trim_end_matches f s) = true.
Proof.
  induction s as [|c s IH]; cbn; [done|]. intros [Hc Hs]%andb_prop. destruct (_ && _); [done|]. cbn. by rewrite Hc, IH.
Qed.
Lemma string_take_forall g n : ∀ s, string_forall g s = true → string_forall g (string_take n s) = true.
Proof. induction n as [|n IH]; intros [|c s]; cbn; try done. intros [Hc Hs]%andb_prop. by rewrite Hc, IH. Qed.
Lemma string_take_length n : ∀ s, (String.length (string_take n s) ≤ n)%nat.
Proof. induction n as [|n IH]; intros [|c s]; cbn; try lia. specialize (IH s). lia. Qed.

(** The host name announced by the embedded backend is a legal DNS label in [.local]. *)
Lemma derive_host_name_label hostname : ∃ label, derive_host_name hostname = String.append label ".local." ∧
  label ≠ "" ∧ (String.length label ≤ 63)%nat ∧ string_forall label_char label = true.
Proof.
  unfold derive_host_name. destruct hostname as [h|]; cbn [fmap option_fmap option_map];
    [|exists DEFAULT_HOST_LABEL; split; [done|]; split; [done|]; split; [cbn; lia|done]].
  destruct (str_is_empty (sanitize_host_label h)) eqn:E;
    [exists DEFAULT_HOST_LABEL; split; [done|]; split; [done|]; split; [cbn; lia|done]|].
  exists (sanitize_host_label h). split; [done|]. split; [by intros X; rewrite X in E|].
  split; [apply string_take_length|]. unfold sanitize_host_label, trim_matches.
  by apply string_take_forall, trim_end_matches_forall, trim_start_matches_forall, label_chars_shape.
Qed.
(** The dashes are removed before the cut: the label may end in one. *)
Lemma sanitize_host_label_trailing_dash : ∃ s, String.get 62 (sanitize_host_label s) = Some "-"%char.
Proof.
  exists "aaaaaaaaaaaaaaaaaaaaaaaaaaaaaaaaaaaaaaaaaaaaaaaaaaaaaaaaaaaaaa-a". vm_compute. done.
Qed.

(** ** The registrations in force *)
Lemma txt_entry_arg k v : string_forall (λ c, negb (bool_decide (c = "="%char))) k = true → txt_entry (txt_arg (k, v)) = Some (k, v).
Proof.
  unfold txt_arg. cbn [fst snd]. induction k as [|c k IH]; intros Hk; [done|]. cbn [string_forall] in Hk.
  apply andb_prop in Hk as [Hc Hk]. rewrite append_cons. cbn [txt_entry]. apply negb_true_iff in Hc. rewrite Hc.
  by rewrite IH.
Qed.

Section registrations.
Context `{UuidText}.

(** What the backend [h] registers for the parameters in [s]. *)
Definition describes (s : MdnsService) (h : Handle) (r : Registration) : Prop :=
  match h with
  | Internal => ∃ hostname, r = internal_info (ms_instance_name s) (ms_port s) (build_txt_records s) hostname
  | Avahi => r = RegCommand "avahi-publish-service" (avahi_args (ms_instance_name s) (ms_port s) (build_txt_records s))
  | Bonjour => r = RegCommand "dns-sd" (bonjour_args (ms_instance_name s) (ms_port s) (build_txt_records s))
  end.
(** Nothing is in force but the registration held, and it is that of the parameters. *)
Definition registered (s : MdnsService) : Prop :=
  map_Forall (λ k r, ∃ h, ms_handle s = Some (k, h) ∧ describes s h r) (ms_live s).

Definition clean_stop (sa : stop_answers) : Prop := an_shutdown sa = true ∧ an_kill sa ≠ KillFailed.
Definition clean_start (an : start_answers) : Prop := an_status an ≠ StatusUnknown.
Definition clean (o : mdns_op) : Prop :=
  match o with
  | MStart sa an => clean_stop sa ∧ clean_start an
  | MStop sa => clean_stop sa
  | MUpdate _ _ _ _ sa sa' an => clean_stop sa ∧ clean_stop sa' ∧ clean_start an
  | MHelperExits _ => True
  end.

(** After a stop nothing is in force and the parameters are those before. *)
Definition same_parameters (s s' : MdnsService) : Prop :=
  ms_instance_name s' = ms_instance_name s ∧ ms_port s' = ms_port s ∧ ms_server_id s' = ms_server_id s ∧
  ms_cert_fingerprint s' = ms_cert_fingerprint s.

Lemma mdns_stop_clean sa s : clean_stop sa → registered s →
  ms_handle (mdns_stop sa s).1 = None ∧ ms_live (mdns_stop sa s).1 = ∅ ∧ same_parameters s (mdns_stop sa s).1.
Proof.
  intros [Hs Hk] Hr. unfold mdns_stop.
  assert (∀ k h, ms_handle s = Some (k, h) → delete k (ms_live s) = ∅) as Hd.
  { intros k h E. apply map_empty. intros j. destruct (decide (j = k)) as [->|Hj]; [apply lookup_delete_eq|].
    rewrite lookup_delete_ne by done. destruct (ms_live s !! j) as [r|] eqn:Ej; [|done].
    destruct (Hr _ _ Ej) as (h' & Eh & _). congruence. }
  destruct (ms_handle s) as [[k h]|] eqn:E.
  - specialize (Hd k h eq_refl). destruct h; cbn [handle_stop]; rewrite ?Hs; [done|..];
      unfold stop_child; destruct (an_kill sa); done.
  - cbn. split_and!; [done| |repeat split]. apply map_empty. intros j.
    destruct (ms_live s !! j) as [r|] eqn:Ej; [|done]. destruct (Hr _ _ Ej) as (h' & Eh & _). congruence.
Qed.

(** Started from a state in which nothing is in force, a backend registers once or not at all. *)
Lemma platform_start_clean os an s s' r : clean_start an → ms_handle s = None → ms_live s = ∅ →
  platform_start os an (build_txt_records s) s = (s', r) →
  ms_handle s' = None ∧ same_parameters s s' ∧
  match r with
  | Ok (k, h) => ∃ reg, ms_live s' = {[k := reg]} ∧ describes s h reg
  | Err _ => ms_live s' = ∅
  end.
Proof.
  intros Hc Hh Hl. unfold clean_start in Hc.
  assert (∀ s1 r1, start_internal an (build_txt_records s) s = (s1, r1) →
    ms_handle s1 = None ∧ same_parameters s s1 ∧
    match r1 with Ok (k, h) => ∃ reg, ms_live s1 = {[k := reg]} ∧ describes s h reg | Err _ => ms_live s1 = ∅ end) as Hi.
  { intros s1 r1. unfold start_internal.
    destruct (an_daemon an), (an_info an), (an_register an); intros [= <- <-]; split_and!; try done.
    eexists. cbn. rewrite Hl. split; [reflexivity|]. by exists (an_hostname an). }
  destruct os; cbn [platform_start]; [|apply Hi| |apply Hi];
    unfold start_avahi, start_macos, start_child;
    (destruct (an_spawned an); cbn [negb]; [|first [exact (Hi s' r) | by intros [= <- <-]]]);
    destruct (an_status an); cbn [wait_for_child_ready]; try done; first [exact (Hi s' r) | intros [= <- <-]];
    split_and!; try done; eexists; cbn; rewrite Hl; by split.
Qed.

Lemma mdns_start_clean os sa an s : clean_stop sa → clean_start an → registered s →
  registered (mdns_start os sa an s).1 ∧ same_parameters s (mdns_start os sa an s).1 ∧
  ((mdns_start os sa an s).2 = Ok tt →
    ∃ k h reg, ms_handle (mdns_start os sa an s).1 = Some (k, h) ∧ ms_live (mdns_start os sa an s).1 = {[k := reg]}).
Proof.
  intros Hs Ha Hr. destruct (mdns_stop_clean sa s Hs Hr) as (S1 & S2 & S3). unfold mdns_start.
  destruct (if is_running s then mdns_stop sa s else (s, Ok tt)) as [s1 st] eqn:E1.
  assert (ms_handle s1 = None ∧ ms_live s1 = ∅ ∧ same_parameters s s1) as (H1 & H2 & H3).
  { unfold is_running in E1. case_bool_decide as Hn; [by rewrite E1 in S1, S2, S3|]. injection E1 as <- <-.
    apply eq_None_not_Some in Hn. unfold mdns_stop in S2. rewrite Hn in S2. by repeat split. }
  destruct st as [u|e]; cbn [fst snd]; [|split_and!; try done; intros ? ?; by rewrite H2, lookup_empty].
  destruct (platform_start os an (build_txt_records s1) s1) as [s2 r] eqn:E2.
  destruct (platform_start_clean os an s1 s2 r Ha H1 H2 E2) as (P1 & P2 & P3).
  destruct H3 as (A1 & A2 & A3 & A4). destruct P2 as (B1 & B2 & B3 & B4).
  destruct r as [[k h]|e]; cbn [fst snd]; [|split_and!; try done; [|by repeat split; etrans]];
    [|intros ? ?; by rewrite P3, lookup_empty].
  destruct P3 as (reg & L1 & L2). split_and!; [|by repeat split; etrans|by eexists _, _, _].
  intros j r'. cbn. rewrite L1, lookup_singleton_Some. intros [<- <-]. exists h. split; [done|].
  unfold describes, build_txt_records in *. cbn. by rewrite B1, B2, B3, B4.
Qed.

Lemma mdns_step_registered os o s : clean o → registered s → registered (mdns_step os o s).
Proof.
  intros Hc Hr. destruct o as [sa an|sa|name port id fp sa sa' an|k]; cbn [mdns_step clean] in *.
  - destruct Hc as [C1 C2]. by apply (mdns_start_clean os sa an s C1 C2 Hr).
  - destruct (mdns_stop_clean sa s Hc Hr) as (_ & L & _). intros ? ?. by rewrite L, lookup_empty.
  - destruct Hc as (C1 & C2 & C3). destruct (mdns_stop_clean sa s C1 Hr) as (_ & L & _). unfold mdns_update.
    destruct (mdns_stop sa s) as [s1 [u|e]]; cbn [fst] in *; [|intros ? ?; by rewrite L, lookup_empty].
    assert (registered (set_parameters name port id fp s1)) as R1 by (intros ? ?; cbn; by rewrite L, lookup_empty).
    destruct (mdns_start_clean os sa' an _ C2 C3 R1) as [R2 _].
    by destruct (mdns_start _ _ _ _) as [s2 [u'|e]].
  - intros j r. cbn. intros [_ Hj]%lookup_delete_Some. exact (Hr j r Hj).
Qed.

Lemma mdns_run_registered os ops : ∀ s, Forall clean ops → registered s → registered (mdns_run os ops s).
Proof.
  induction ops as [|o ops IH]; intros s Hf Hr; [done|]. apply Forall_cons in Hf as [Ho Hf]. cbn.
  apply IH; [done|]. by apply mdns_step_registered.
Qed.

Lemma described_announces s h r port props : describes s h r → announces r port props →
  port = ms_port s ∧ props = <["cert_fingerprint" := ms_cert_fingerprint s]>
    (<["server_id" := uuid_to_string (ms_server_id s)]> {["version" := TXT_RECORD_VERSION]}).
Proof.
  intros Hd Ha. destruct h; cbn [describes] in Hd; [destruct Hd as [hn ->]|subst r..]; inversion Ha; subst; split; try done;
    try by apply (inj pretty).
  all: unfold txt_map; cbn [fmap list_fmap build_txt_records foldl]; rewrite !txt_entry_arg; done.
Qed.
End registrations.

(** ** From the start of the server to what a client discovers *)
(** The announcement that [start_handcontrol_server] creates. *)
Definition start_mdns (st : Started) : MdnsService :=
  MdnsService_new (sd_instance_name st) (sd_addr st).2 (sv_server_id (sd_service st)) (sd_fingerprint st).

(** An event on the client's side that stems from the registration [r]. *)
Definition resolves (r : Registration) (resolved : ResolvedService) : Prop := announces r (rv_port resolved) (rv_properties resolved).
(** Operations other than a change of the parameters. *)
Definition keeps_parameters (o : mdns_op) : Prop := match o with MUpdate _ _ _ _ _ _ _ => False | _ => True end.

Section discovered.
Context `{UuidTextLaws, Sha256, HexLaws, CertCrates, TokenCrates, RegexEngine, !TomlCodec ClientRegistry, !TomlCodec Config}.
Context (toml_config : string → option RawConfig).

Lemma start_fingerprint env i w w' s : start_handcontrol_server toml_config env i w = Some (w', Ok s) →
  sd_fingerprint s = fingerprint_display (sv_server_cert (sd_service s)).
Proof.
  unfold start_handcontrol_server. intros E. do 10 (apply pio_bind_ok in E as (? & ? & _ & E)).
  cbv zeta in E. apply pio_bind_ok in E as (? & ? & _ & E). by injection E as _ <-.
Qed.

Lemma mdns_step_parameters os o s : keeps_parameters o → clean o → registered s → same_parameters s (mdns_step os o s).
Proof.
  intros Hk Hc Hr. destruct o as [sa an|sa| |k]; cbn [mdns_step clean] in *; [|by apply mdns_stop_clean|done|by repeat split].
  destruct Hc as [C1 C2]. by apply (mdns_start_clean os sa an s C1 C2 Hr).
Qed.
Lemma mdns_run_parameters os ops : ∀ s, Forall keeps_parameters ops → Forall clean ops → registered s →
  registered (mdns_run os ops s) ∧ same_parameters s (mdns_run os ops s).
Proof.
  induction ops as [|o ops IH]; intros s Hk Hc Hr; [by repeat split|]. apply Forall_cons in Hk as [Hk Hks], Hc as [Hc Hcs].
  destruct (mdns_step_parameters os o s Hk Hc Hr) as (A1 & A2 & A3 & A4).
  destruct (IH (mdns_step os o s)) as (R & B1 & B2 & B3 & B4); [done..|by apply mdns_step_registered|].
  split; [done|]. repeat split; by etrans.
Qed.

(** C25: Discovery finds the server that was started.  After a start of the server and
    any starts and stops of the announcement, with helper processes ending by themselves,
    provided that no stop of an announcement fails and that the state of a helper just
    started can be read (otherwise it is left running, see [unreadable_status_leaks]),
    there is at most one registration in force, and a start that succeeds leaves exactly
    one, on whatever backend.  A client that resolves a registration in force lists the
    started server's id and port, and the fingerprint it lists is read back as that of
    the certificate the server presents, the one the client will pin. *)
Theorem advertised_server_is_discovered env i w w' st os ops :
  start_handcontrol_server toml_config env i w = Some (w', Ok st) → Forall clean ops → Forall keeps_parameters ops →
  let m := mdns_run os ops (start_mdns st) in
  (∀ j k r r', ms_live m !! j = Some r → ms_live m !! k = Some r' → j = k) ∧
  (∀ sa an, clean_stop sa → clean_start an → (mdns_start os sa an m).2 = Ok tt → size (ms_live (mdns_start os sa an m).1) = 1%nat) ∧
  (∀ k r resolved config d, ms_live m !! k = Some r → resolves r resolved → build_discovered_server config resolved = Some d →
    ds_server_id d = Some (sv_server_id (sd_service st)) ∧ ds_port d = (sd_addr st).2 ∧
    (parse_fingerprint <$> ds_cert_fingerprint d) = Some (Ok (sc_fingerprint (sv_server_cert (sd_service st))))).
Proof.
  intros E Hc Hk m. assert (registered (start_mdns st)) as R0 by (intros ? ?; cbn; by rewrite lookup_empty).
  destruct (mdns_run_parameters os ops _ Hk Hc R0) as (R & _ & P2 & P3 & P4). fold m in R, P2, P3, P4. split_and!.
  - intros j k r r' Hj Hk'. destruct (R _ _ Hj) as (? & E1 & _), (R _ _ Hk') as (? & E2 & _). congruence.
  - intros sa an C1 C2 Hok. destruct (mdns_start_clean os sa an m C1 C2 R) as (_ & _ & L). destruct (L Hok) as (k & h & reg & _ & ->).
    apply map_size_singleton.
  - intros k r resolved config d Hl Hres Hb. destruct (R _ _ Hl) as (h & _ & Hd).
    destruct (described_announces m h r _ _ Hd Hres) as [Hp Hprops]. unfold build_discovered_server in Hb.
    destruct (discovered_addresses config resolved); [done|]. injection Hb as <-. cbn [ds_server_id ds_port ds_cert_fingerprint].
    rewrite Hprops, Hp, P2, P3, P4, lookup_insert_ne, !lookup_insert_eq by done. split; [apply uuid_parse_to_string|].
    split; [done|]. cbn [start_mdns MdnsService_new ms_cert_fingerprint fmap option_fmap option_map].
    rewrite (start_fingerprint _ _ _ _ _ E). by rewrite fingerprint_roundtrip.
Qed.
End discovered.

(** A status that cannot be read leaves the Avahi helper running beside the fallback:
    two registrations, one of which nothing will ever stop. *)
Lemma unreadable_status_leaks `{UuidText} name port id fp an sa sa' :
  an_spawned an = true → an_status an = StatusUnknown → an_daemon an = true → an_info an = true → an_register an = true →
  let m := MdnsService_new name port id fp in
  size (ms_live (mdns_start Linux sa an m).1) = 2%nat ∧ ms_live (mdns_stop sa' (mdns_start Linux sa an m).1).1 ≠ ∅.
Proof.
  intros H1 H2 H3 H4 H5 m. subst m. unfold mdns_start, MdnsService_new, is_running. cbn -[build_txt_records avahi_args internal_info].
  unfold start_avahi, start_child, start_internal. rewrite H1, H2, H3, H4, H5. cbn -[build_txt_records avahi_args internal_info].
  split; [done|]. unfold mdns_stop. cbn -[build_txt_records avahi_args internal_info].
  destruct (an_shutdown sa'); cbn -[build_txt_records avahi_args internal_info]; intros X; by apply (f_equal (lookup 0%nat)) in X.
Qed.

(** ** A concrete announcement *)
#[local] Existing Instance demo_sha256.
#[local] Existing Instance lower_hex.
#[local] Existing Instance demo_grpc.
#[local] Existing Instance demo_hex_laws.
#[local] Existing Instance demo_regex.
#[local] Existing Instance demo_crates.
#[local] Existing Instance demo_uuid.
#[local] Existing Instance demo_uuid_laws.
#[local] Existing Instance clients_toml.
#[local] Existing Instance config_toml.
#[local] Existing Instance key_tokens.

Definition good_stop : stop_answers := mkStopAnswers true Killed true.
Definition good_start : start_answers := mkStartAnswers true Running true true true (Some "Host One").
Definition no_avahi : start_answers := mkStartAnswers false Running true true true (Some "Host One").
Definition mdns_ops : list mdns_op := [MStart good_stop good_start; MHelperExits 0; MStart good_stop no_avahi; MStop good_stop; MStart good_stop good_start].
Definition announced_server : option (World * result string Started) :=
  start_handcontrol_server (λ _, Some raw_config) start_env first_input (start_world (mkFs ∅ ∅)).
Definition resolved_of (st : Started) : ResolvedService :=
  mkResolvedService true "HandControl._handcontrol._tcp.local." "host-one.local." [V4 (mkIpv4 10 0 0 1)] (sd_addr st).2
    (txt_map (txt_arg <$> build_txt_records (start_mdns st))).

Lemma advertised_server_is_discovered_witness : ∃ w st r d,
  announced_server = Some (w, Ok st) ∧ ms_live (mdns_run Linux mdns_ops (start_mdns st)) !! 2%nat = Some r ∧
  build_discovered_server (mkDiscoveryConfig true 0 false false) (resolved_of st) = Some d ∧ ds_server_id d = Some 7%N.
Proof.
  assert (match announced_server with Some (_, Ok st) => Some (sv_server_id (sd_service st)) | _ => None end = Some 7%N) as Ef
    by (vm_compute; reflexivity).
  destruct announced_server as [[w1 [st|]]|] eqn:E; [|discriminate Ef..]. injection Ef as Hid.
  edestruct (advertised_server_is_discovered (λ _, Some raw_config) start_env first_input (start_world (mkFs ∅ ∅)) w1 st Linux mdns_ops)
    as (_ & _ & D).
  - exact E.
  - repeat constructor; discriminate.
  - repeat constructor.
  - eexists w1, st, _, _. split; [reflexivity|]. split; [reflexivity|]. split; [reflexivity|]. rewrite <-Hid.
    refine (proj1 (D 2%nat _ (resolved_of st) (mkDiscoveryConfig true 0 false false) _ _ _ _)); [reflexivity| |reflexivity].
    apply announces_avahi.
Defined.
