(* ===== verification/Tls.v ===== *)
(** * TLS on the server's port (server/src/security/tls.rs, server/src/grpc/server.rs)

    The two client certificate verifiers, the three TLS configurations, the listening
    socket and the stream of accepted connections of [start_server].  The handshake of
    rustls is a parameter that calls the verifier; [TlsServerLaws] is its documented use
    of the verifier's methods.  What a verifier decides is modelled from the source. *)

From S2P Require Import Prelude RustStd ThirdParty Fs Net Config Certificates ClientStore RelayTokens SessionState SessionManager Enrollment Pairing.
From S2P Require Import Validation Service Access Io ClientConfig ClientStorage RelayClient ClientRelay RelayEnds ClientConnect.

Local Open Scope string_scope.
Local Open Scope Z_scope.

Inductive SignatureScheme :=
  | ECDSA_NISTP256_SHA256 | ECDSA_NISTP384_SHA384 | ED25519
  | RSA_PSS_SHA256 | RSA_PSS_SHA384 | RSA_PSS_SHA512 | RSA_PKCS1_SHA256 | RSA_PKCS1_SHA384 | RSA_PKCS1_SHA512.
#[global] Instance SignatureScheme_eq_dec : EqDecision SignatureScheme.
Proof. solve_decision. Defined.
Record DigitallySignedStruct := mkDss { dss_scheme : SignatureScheme; dss_signature : bytes }.

(** The trait [ClientCertVerifier]; the subjects hinted at are empty in both implementations. *)
Record ClientCertVerifier := mkClientCertVerifier {
  offer_client_auth : bool;
  client_auth_mandatory : bool;
  verify_client_cert : bytes → list bytes → result string unit;
  verify_tls12_signature : bytes → bytes → DigitallySignedStruct → result string unit;
  verify_tls13_signature : bytes → bytes → DigitallySignedStruct → result string unit;
  supported_verify_schemes : list SignatureScheme;
}.

Definition PermissiveClientVerifier : ClientCertVerifier := {|
  offer_client_auth := true;
  client_auth_mandatory := false;
  verify_client_cert _ _ := Ok tt;
  verify_tls12_signature _ _ _ := Ok tt;
  verify_tls13_signature _ _ _ := Ok tt;
  supported_verify_schemes :=
    [ECDSA_NISTP256_SHA256; ECDSA_NISTP384_SHA384; ED25519; RSA_PSS_SHA256; RSA_PSS_SHA384; RSA_PSS_SHA512;
     RSA_PKCS1_SHA256; RSA_PKCS1_SHA384; RSA_PKCS1_SHA512];
|}.

Section verifiers.
Context `{Sha256, HexEncode}.

(** The loop over the registered clients. *)
Fixpoint find_fingerprint (fingerprint_hex : string) (clients : list ClientMetadata) : result string unit :=
  match clients with
  | [] => Err "Client certificate not authorized"
  | client :: rest =>
      if bool_decide (cm_cert_fingerprint client = fingerprint_hex) then Ok tt else find_fingerprint fingerprint_hex rest
  end.
Definition authorized_verify (store : ClientStore) (cert_der : bytes) : result string unit :=
  find_fingerprint (hex_encode (sha256 cert_der)) (list_clients store).

(** The store is read at each handshake. *)
Definition AuthorizedClientVerifier (store : ClientStore) : ClientCertVerifier := {|
  offer_client_auth := true;
  client_auth_mandatory := true;
  verify_client_cert end_entity _ :=
    map_err (λ e, String.append "Client certificate not authorized: " e) (authorized_verify store end_entity);
  verify_tls12_signature _ _ _ := Ok tt;
  verify_tls13_signature _ _ _ := Ok tt;
  supported_verify_schemes := [ECDSA_NISTP256_SHA256; ECDSA_NISTP384_SHA384; ED25519];
|}.
End verifiers.

(** ** Configurations *)
Record TlsServerConfig := mkTlsServerConfig {
  tc_verifier : option ClientCertVerifier;
  tc_cert_chain : list bytes;
  tc_private_key : bytes;
  tc_alpn : list string;
}.

(** The client's side of a handshake: its certificates, the signature over the
    transcript, the protocol version. *)
Record client_flight := mkClientFlight {
  cf_tls13 : bool;
  cf_chain : list bytes;
  cf_transcript : bytes;
  cf_dss : DigitallySignedStruct;
}.

Class TlsServer := {
  (** [PrivateKeyDer::try_from] and [with_single_cert] accept their arguments. *)
  private_key_ok : bytes → bool;
  single_cert_ok : list bytes → bytes → bool;
  (** Protocol version, cipher suite, key exchange and ALPN can be agreed on. *)
  agreeable : TlsServerConfig → client_flight → bool;
  (** The handshake: [None] is a failure, else the certificates of the peer. *)
  tls_accept : TlsServerConfig → client_flight → option (option (list bytes));
}.

Definition flight_verified (v : ClientCertVerifier) (f : client_flight) (end_entity : bytes) (intermediates : list bytes) : bool :=
  is_ok (verify_client_cert v end_entity intermediates) &&
  is_ok ((if cf_tls13 f then verify_tls13_signature v else verify_tls12_signature v) (cf_transcript f) end_entity (cf_dss f)).

(** A handshake succeeds exactly when the parameters agree and the verifier, if there
    is one and it asks for a certificate, accepts the certificate and the signature, or
    their absence. *)
Class TlsServerLaws `{TlsServer} := tls_accept_spec : ∀ c f, tls_accept c f =
  if negb (agreeable c f) then None else
  match tc_verifier c with
  | None => Some None
  | Some v =>
      if negb (offer_client_auth v) then Some None else
      match cf_chain f with
      | [] => if client_auth_mandatory v then None else Some None
      | end_entity :: intermediates =>
          if flight_verified v f end_entity intermediates then Some (Some (cf_chain f)) else None
      end
  end.

Section configs.
Context `{TlsServer, Sha256, HexEncode}.

Definition with_single_cert (verifier : option ClientCertVerifier) (alpn : list string) (server_cert : ServerCertificate)
    : result string TlsServerConfig :=
  bail! "Failed to parse private key" when negb (private_key_ok (sc_key_der server_cert));
  bail! "Failed to build server config with certificate" when negb (single_cert_ok [sc_cert_der server_cert] (sc_key_der server_cert));
  Ok (mkTlsServerConfig verifier [sc_cert_der server_cert] (sc_key_der server_cert) alpn).
Definition build_server_config (server_cert : ServerCertificate) (store : ClientStore) : result string TlsServerConfig :=
  with_single_cert (Some (AuthorizedClientVerifier store)) [] server_cert.
Definition build_server_config_no_client_auth (server_cert : ServerCertificate) : result string TlsServerConfig :=
  with_single_cert None ["h2"] server_cert.
Definition build_permissive_server_config (server_cert : ServerCertificate) : result string TlsServerConfig :=
  with_single_cert (Some PermissiveClientVerifier) ["h2"] server_cert.
End configs.

(** ** The listening socket *)
(** The answers of the socket calls, in the order they are made. *)
Record socket_answers := mkSocketAnswers {
  so_new : bool; so_reuse : bool; so_only_v6 : bool; so_bind : bool; so_listen : bool; so_nonblocking : bool;
}.
Record TcpListener := mkTcpListener { tl_addr : IpAddr * Z; tl_backlog : Z; tl_dual_stack : bool }.
Definition is_v6 (ip : IpAddr) : bool := match ip with V6 _ => true | V4 _ => false end.

Definition bind_tcp_listener (addr : IpAddr * Z) (an : socket_answers) : result string TcpListener :=
  bail! "Failed to create TCP socket" when negb (so_new an);
  bail! "Failed to enable SO_REUSEADDR" when negb (so_reuse an);
  bail! "Failed to configure dual-stack IPv6 listener" when is_v6 addr.1 && negb (so_only_v6 an);
  bail! "Failed to bind TCP socket to address" when negb (so_bind an);
  bail! "Failed to listen on TCP socket" when negb (so_listen an);
  bail! "Failed to set TCP socket to non-blocking mode" when negb (so_nonblocking an);
  Ok (mkTcpListener addr 1024 (is_v6 addr.1)).

(** ** The connections *)
(** What happens at the port, in order: [accept] fails; a connection completes its
    handshake; or a connection stays open and never completes it. *)
Inductive arrival := AcceptError (e : string) | Connects (f : client_flight) | Stalls.
(** How the stream of connections goes on after the arrivals so far. *)
Inductive stream_state := Accepting | InHandshake | Ended (e : string).

Section incoming.
Context `{TlsServer}.

(** The stream [incoming]: the connections handed to the gRPC server, each with the
    certificates of its peer.  The next [accept] comes after the handshake before it. *)
Fixpoint incoming (tls : TlsServerConfig) (arrivals : list arrival) : list (option (list bytes)) * stream_state :=
  match arrivals with
  | [] => ([], Accepting)
  | AcceptError e :: _ => ([], Ended e)
  | Stalls :: _ => ([], InHandshake)
  | Connects f :: rest =>
      let '(streams, st) := incoming tls rest in
      match tls_accept tls f with
      | Some peer_certs => (peer_certs :: streams, st)
      | None => (streams, st)
      end
  end.

(** [start_server] up to the connections it hands to the gRPC service. *)
Definition start_server (addr : IpAddr * Z) (server_cert : ServerCertificate) (an : socket_answers) (from_std : bool) (arrivals : list arrival)
    : result string (list (option (list bytes)) * stream_state) :=
  tls ← map_err (λ _, "Failed to build TLS server configuration") (build_permissive_server_config server_cert);
  _ ← map_err (λ _, "Failed to bind TCP listener for gRPC server") (bind_tcp_listener addr an);
  bail! "Failed to create async TCP listener" when negb from_std;
  Ok (incoming tls arrivals).
End incoming.

(** ** Lemmas *)
Section verifier_lemmas.
Context `{Sha256, HexEncode}.

(** The strict verifier, which [start_server] does not use, accepts the certificates
    that the gRPC layer lets pass. *)
Lemma authorized_verify_spec store der : is_ok (authorized_verify store der) = is_authorized (fp_of der) store.
Proof.
  apply eq_bool_prop_intro. rewrite !Is_true_true, is_authorized_spec. unfold authorized_verify, list_clients, ckeys.
  change (hex_encode (sha256 der)) with (fp_of der). induction (ClientStore.cr_client (cs_registry store)) as [|m l IH]; cbn [find_fingerprint fmap list_fmap];
    [by rewrite elem_of_nil|]. rewrite elem_of_cons. cbn [ckey snd]. case_bool_decide as Hm; [naive_solver|]. naive_solver.
Qed.
End verifier_lemmas.

Section incoming_lemmas.
Context `{TlsServer}.

(** Connections that finish their handshake are served in order; failed handshakes are skipped. *)
Lemma incoming_connects tls flights : incoming tls (Connects <$> flights) = (omap (tls_accept tls) flights, Accepting).
Proof. induction flights as [|f l IH]; [done|]. cbn. rewrite IH. by destruct (tls_accept tls f). Qed.
(** There is no time limit: after a connection that stalls, no connection is served. *)
Lemma stalled_connection_blocks tls pre post : incoming tls (pre ++ Stalls :: post) = incoming tls (pre ++ [Stalls]).
Proof. induction pre as [|[e|f|] pre IH]; cbn; [done..| |done]. by rewrite IH. Qed.

(** The permissive verifier accepts any certificate with any signature. *)
Lemma permissive_accepts `{!TlsServerLaws} tls cert f :
  build_permissive_server_config cert = Ok tls → agreeable tls f = true →
  tls_accept tls f = Some (match cf_chain f with [] => None | chain => Some chain end).
Proof.
  intros Hb Ha. unfold build_permissive_server_config, with_single_cert in Hb.
  apply bail_then in Hb as [_ Hb]. apply bail_then in Hb as [_ Hb]. injection Hb as <-.
  rewrite tls_accept_spec, Ha. cbn. destruct (cf_chain f); [done|]. unfold flight_verified. by destruct (cf_tls13 f).
Qed.
End incoming_lemmas.

(** ** The man in the middle *)
Section middle.
Context `{GrpcCrates, ClientRelayCrates, UuidText, Sha256, HexEncode, !TomlCodec RawClientConfig, TlsServerLaws}.

(** Neither side authenticates the other's key.  Take a client that connects to a
    server on which it is enrolled.  An attacker who has only the server's certificate is
    accepted by the client in the server's place, without the server's key; and a
    connection that presents the client's certificate chain, which the client has just
    shown, with whatever signature over the handshake, is handed by [start_server] to the
    gRPC service, which takes its calls for the enrolled client's. *)
Lemma man_in_the_middle_is_accepted version env entry p an w w' a c der rest key sv addr sockets f out :
  connect_registered version env entry p an w = (w', Ok (a, c)) → cr_client c = Some (der :: rest, key) →
  enrolled der sv → cf_chain f = der :: rest →
  (∀ tls, build_permissive_server_config (sv_server_cert sv) = Ok tls → agreeable tls f = true) →
  start_server addr (sv_server_cert sv) sockets true [Connects f] = Ok out →
  connect_registered version env entry p (keyless_answers an) w = (w', Ok (a, impostor c)) ∧
  peer_holds_key (cr_peer (impostor c)) = false ∧ cr_client (impostor c) = Some (der :: rest, key) ∧
  out = ([Some (der :: rest)], Accepting) ∧
  ∀ c', ca_peer_certs c' ∈ out.1 → ensure_enrolled_client c' sv = Ok (Some (fp_of der)).
Proof.
  intros E Hcl He Hf Hag Hs. destruct (impostor_with_certificate_is_accepted _ _ _ _ _ _ _ _ _ E) as (Hi & Hk & _).
  unfold start_server in Hs. apply result_bind_ok in Hs as (tls & Ht & Hs). apply map_err_ok in Ht.
  apply result_bind_ok in Hs as (l & _ & Hs). injection Hs as <-. cbn.
  rewrite (permissive_accepts _ _ _ Ht) by by apply Hag. rewrite Hf. split_and!; try done.
  intros c' Hc'%list_elem_of_singleton. by eapply ensure_enrolled_known.
Qed.
End middle.

(** ** A concrete attack *)
#[local] Existing Instance demo_grpc.
#[local] Existing Instance demo_client_relay.
#[local] Existing Instance demo_uuid.
#[local] Existing Instance demo_sha256.
#[local] Existing Instance demo_hex.
#[local] Existing Instance demo_client_config.
#[local] Existing Instance demo_registry_toml.
#[local] Existing Instance demo_tokens.
#[local] Existing Instance demo_qr.

#[local] Instance demo_tls : TlsServer := {|
  private_key_ok _ := true; single_cert_ok _ _ := true; agreeable _ _ := true;
  tls_accept c f :=
    match tc_verifier c with
    | None => Some None
    | Some v =>
        if negb (offer_client_auth v) then Some None else
        match cf_chain f with
        | [] => if client_auth_mandatory v then None else Some None
        | e :: l => if flight_verified v f e l then Some (Some (cf_chain f)) else None
        end
    end;
|}.
#[local] Instance demo_tls_laws : TlsServerLaws.
Proof. intros c f. reflexivity. Qed.

(** The client of [ClientConnect], whose certificate is [x01], is enrolled. *)
Definition victim : RemoteControlService := (serve anonymous self_enrol after_qr).1.
Definition stolen : client_flight := mkClientFlight true [[x01]] [] (mkDss ED25519 [x00]).
Definition open_port : socket_answers := mkSocketAnswers true true true true true true.

Lemma man_in_the_middle_is_accepted_witness :
  (demo_connect (keyless_answers demo_answers)).2 = Ok (Direct "10.0.0.1", impostor demo_connection) ∧
  start_server (V4 (mkIpv4 10 0 0 1), 50051) (sv_server_cert victim) open_port true [Connects stolen] = Ok ([Some [[x01]]], Accepting) ∧
  ensure_enrolled_client (mkCaller (Some [[x01]]) (λ _, None) None) victim = Ok (Some (fp_of [x01])).
Proof.
  assert (demo_connect demo_answers = ((demo_connect demo_answers).1, Ok (Direct "10.0.0.1", demo_connection))) as E
    by (vm_compute; reflexivity).
  edestruct (man_in_the_middle_is_accepted "1.0" demo_env enrolled_server demo_paths demo_answers enrolled_world _ _ _ [x01] [] [x02]
    victim (V4 (mkIpv4 10 0 0 1), 50051) open_port stolen ([Some [[x01]]], Accepting) E) as (Hi & _ & _ & Ho & Hc).
  - reflexivity.
  - vm_compute. reflexivity.
  - reflexivity.
  - intros tls _. reflexivity.
  - reflexivity.
  - split; [exact (f_equal snd Hi)|]. split; [reflexivity|]. apply Hc. cbn. constructor.
Defined.
