(* ===== verification/ServerCli.v ===== *)
(** * The server's command line (server/src/main.rs, cli/enroll.rs, utils/qr.rs, notifications/)

    The subcommands that talk to the running server over its own port, what they print,
    and the desktop notifications of pairing requests.  The answer of the server to a
    command's call is an argument of the command; the theorems put the handlers of
    [Service] there, called by a peer without a certificate, as the commands call them. *)

From S2P Require Import Prelude RustStd ThirdParty Fs Net Network Config Validation Certificates ClientStore Enrollment Pairing Approve.
From S2P Require Import SessionState SessionManager RelayTokens Proto Service Access Io ClientConfig ClientConnect ClientEnroll EnrollFlow ServerStart.

Local Open Scope string_scope.
Local Open Scope Z_scope.

(** ** Notifications *)
Inductive NotificationProvider := LinuxProvider | WindowsProvider | MacosProvider | FallbackProvider.

(** [dbus]: the test notification could be shown. *)
Definition provider_available (p : NotificationProvider) (dbus : bool) : bool :=
  match p with LinuxProvider => dbus | WindowsProvider | MacosProvider => false | FallbackProvider => true end.
Definition create_provider (os : TargetOs) (dbus : bool) : NotificationProvider :=
  match os with
  | Linux => if provider_available LinuxProvider dbus then LinuxProvider else FallbackProvider
  | Windows => if provider_available WindowsProvider dbus then WindowsProvider else FallbackProvider
  | MacOs => if provider_available MacosProvider dbus then MacosProvider else FallbackProvider
  | OtherOs => FallbackProvider
  end.

(** What the user gets to see: lines of the log, or a desktop notification with buttons. *)
Inductive shown := LogLine (s : string) | Desktop (summary body : string) (actions : list string).
Definition quote : string := String "034" EmptyString.

Definition show_pairing_notification (p : NotificationProvider) (device_name verification_code request_id : string) (dbus : bool)
    : list shown * result string bool :=
  let bar := "=================================================================" in
  match p with
  | LinuxProvider =>
      if dbus then
        ([Desktop "HandControl Pairing Request"
            (fmt ["Device "; quote; device_name; quote; " wants to pair"; newline; "Verification Code: "; verification_code; newline; newline;
                  "Please verify this code matches on your device."])
            ["accept"; "reject"]], Ok true)
      else ([], Err "Failed to show Linux notification")
  | WindowsProvider | MacosProvider => ([], Ok false)
  | FallbackProvider =>
      (LogLine <$>
         [bar; fmt ["PAIRING REQUEST from device: "; device_name]; fmt ["Verification Code: "; verification_code];
          fmt ["Request ID: "; request_id]; bar; "To approve or reject this request, use:";
          fmt ["  handcontrol approve "; request_id; "  # Accept the pairing"];
          fmt ["  handcontrol reject "; request_id; "   # Reject the pairing"]; bar], Ok true)
  end.

(** ** Showing the QR code ([utils/qr.rs]) *)
Class CliCrates := {
  (** [serde_json::from_str] on the server's payload *)
  payload_from_json : string → option EnrollmentQrPayload;
  (** [qr2term::print_qr] *)
  print_qr : string → option (list string);
}.

Definition minutes_of (d : Z) : Z := Z.quot d (60 * NANOS).
Definition span_text (d : Z) : string :=
  let minutes := minutes_of d in
  let seconds := Z.quot (d - minutes * 60 * NANOS) NANOS in
  if 0 <? minutes then fmt [pretty minutes; "m "; pretty seconds; "s"] else fmt [pretty seconds; "s"].
Definition bool_text (b : bool) : string := if b then "true" else "false".

Section qr.
Context `{CliCrates, QrCrates, EnrollCrates}.

Definition expiry_summary (now : Z) (valid_until : string) : string :=
  match rfc3339_parse valid_until with
  | Some expiry => if now <? expiry then fmt ["in "; span_text (expiry - now)] else fmt ["expired "; span_text (now - expiry); " ago"]
  | None => fmt ["at "; valid_until]
  end.

(** The lines printed, also before an error. *)
Definition display_qr (now : Z) (p : EnrollmentQrPayload) : list string * result string unit :=
  match to_json p with
  | Err e => ([], Err e)
  | Ok json =>
      let title := [String.append newline (String.append "=== HandControl Enrollment QR Code ===" newline);
                    String.append "Scan this QR code with your Android device to enroll:" newline] in
      match print_qr json with
      | None => (title, Err "Failed to generate QR code")
      | Some code =>
          (title ++ code ++
           match eq_ips p with primary :: _ => [fmt [newline; "Primary Server: "; primary]] | [] => [] end ++
           match eq_ips p with
           | _ :: _ :: _ => "Alternative IPs:" :: ((λ ip, fmt ["  - "; ip]) <$> tail (eq_ips p))
           | _ => []
           end ++
           [fmt [newline; "Port: "; pretty (eq_port p)]; fmt ["Server ID: "; eq_server_id p];
            fmt ["Token expires "; expiry_summary now (eq_valid_until p)]] ++
           match eq_relay p with
           | Some relay =>
               [fmt [newline; "Relay URL: "; rq_relay_url relay]; fmt ["Relay Required: "; bool_text (rq_relay_required relay)];
                fmt ["Relay Token: "; rq_relay_token relay];
                fmt ["Relay Allow Self-Signed TLS: "; bool_text (rq_allow_self_signed_tls relay)]] ++
               match rq_pinned_cert_sha256 relay with Some fp => [fmt ["Relay Pinned Cert SHA256: "; fp]] | None => [] end
           | None => []
           end ++
           [fmt ["Valid Until: "; eq_valid_until p]; fmt [newline; "======================================"; newline]], Ok tt)%list
      end
  end.

(** [cli/enroll.rs]: the lines printed and the wait that follows, in nanoseconds; [None]
    is a panic.  [now], [now1]: generating the token; [now2]: displaying; [now3]: waiting. *)
Definition handle_qr_enrollment `{HexEncode, UuidText} (now now1 now2 now3 : Z) (uuid : string) (interfaces : option (list (string * IpAddr)))
    (server_cert : ServerCertificate) (server_id : Uuid) (bind_addr : IpAddr * Z) (m : EnrollmentTokenManager)
    : option (EnrollmentTokenManager * list string * result string Z) :=
  '(m', token) ← generate_token now now1 uuid m;
  let own := [ip_to_string bind_addr.1] in
  let ips := if ip_is_unspecified bind_addr.1
             then match get_all_local_ips interfaces with [] => own | local_ips => local_ips end
             else own in
  let payload := EnrollmentQrPayload_new ips bind_addr.2 (fingerprint_display server_cert) (et_token token) server_id (et_expires_at token) None in
  let '(lines, r) := display_qr now2 payload in
  Some (m', lines, r ≫= λ _, Ok (Z.max 0 (et_expires_at token - now3))).
End qr.

(** ** The commands *)
Inductive Commands := CmdEnroll (qr json : bool) | CmdServe | CmdApprove (request_id : string) | CmdReject (request_id : string) | CmdListPending.

(** What [main] does with the command line. *)
Inductive action := RunEnroll (json : bool) | RunApprove (request_id : string) | RunReject (request_id : string) | RunListPending | RunServer
  | Fails (message : string) (exit_code : Z).
Definition main (command : option Commands) : action :=
  match command with
  | Some (CmdEnroll qr json) => if qr then RunEnroll json else Fails "Please specify --qr for QR code enrollment" 1
  | Some (CmdApprove request_id) => RunApprove request_id
  | Some (CmdReject request_id) => RunReject request_id
  | Some CmdListPending => RunListPending
  | Some CmdServe | None => RunServer
  end.

Record cli_answers := mkCliAnswers {
  cl_interfaces : option (list (string * IpAddr));   (* the network interfaces *)
  cl_tls : bytes → string → bool;                    (* [tls_config] with this CA file and domain *)
  cl_connects : string → bytes → string → bool;      (* [connect]: URL, CA file, domain *)
}.

Definition unspecified_bind (bind : string) : bool := bool_decide (bind = "0.0.0.0") || bool_decide (bind = "::").
Definition enroll_host (config : Config) : string :=
  let bind := srv_bind_address (cfg_server config) in if unspecified_bind bind then "127.0.0.1" else bind.
Definition local_host (an : cli_answers) (config : Config) : string :=
  let bind := srv_bind_address (cfg_server config) in
  if unspecified_bind bind then default "127.0.0.1" (head (get_all_local_ips (cl_interfaces an))) else bind.
Definition uri_host (host : string) : string :=
  match parse_ip host with Some (V6 _) => fmt ["["; host; "]"] | _ => host end.
Definition domain_name (host : string) : string := match parse_ip host with Some _ => "localhost" | None => host end.

Section commands.
Context `{CliCrates, QrCrates, EnrollCrates, GrpcCrates, RegexEngine}.
Context (toml_config : string → option RawConfig).

Definition command_config (env : ServerEnv) : io Config :=
  path ← with_context "Failed to determine config path" (config_file env "config.toml");
  with_context "Failed to load configuration" (io_load_config toml_config (sn_home env) path).

(** From the configuration to a channel without a client certificate. *)
Definition local_channel (env : ServerEnv) (config : Config) (host connect_error : string) (an : cli_answers) : io unit :=
  cert_path ← match sec_cert_path (cfg_security config) with
              | Some path => mret path
              | None => with_context "Failed to determine server certificate path" (server_cert_path env)
              end;
  server_cert ← io_read cert_path (fmt ["Failed to read server certificate from "; cert_path]);
  let target := fmt ["https://"; uri_host host; ":"; pretty (srv_port (cfg_server config))] in
  _ ← lift (bail_if (negb (endpoint_uri_ok target)) (fmt ["Invalid server endpoint URL: "; target]));
  _ ← lift (bail_if (negb (cl_tls an server_cert (domain_name host))) "Failed to configure TLS for CLI client");
  lift (bail_if (negb (cl_connects an target server_cert (domain_name host))) connect_error).

(** What [handle_enroll_command] prints, and how long it then waits, in seconds. *)
Definition handle_enroll_command (env : ServerEnv) (output_json : bool) (an : cli_answers) (now : Z)
    (rpc : option GenerateEnrollmentQrResponse) : io (list string * result string Z) :=
  path ← with_context "Failed to determine config path" (config_file env "config.toml");
  e ← io_exists path;
  _ ← lift (bail_if (negb e) (fmt ["Configuration file not found at "; path; ". Please run the server first to generate default config."]));
  config ← with_context "Failed to load configuration" (io_load_config toml_config (sn_home env) path);
  _ ← lift (bail_if (negb (enr_qr_code_enabled (sec_enrollment (cfg_security config)))) "QR code enrollment is disabled in configuration");
  _ ← local_channel env config (enroll_host config) "Failed to connect to HandControl server. Is the server running?" an;
  response ← lift (ok_or rpc "GenerateEnrollmentQR RPC failed");
  _ ← lift (bail_if (negb (qr_success response)) (fmt ["Server failed to generate enrollment QR: "; qr_error_message response]));
  payload ← lift (ok_or (payload_from_json (qr_payload response)) "Failed to parse QR payload from server");
  if output_json then json ← lift (to_json payload); mret ([json], Ok 0)
  else let '(lines, r) := display_qr now payload in
       mret (lines, r ≫= λ _, Ok (wrap_u 64 (qr_ttl_seconds response))).

Definition handle_approve_command (env : ServerEnv) (an : cli_answers) (rpc : result Status ApprovePairingResponse) : io (list string) :=
  config ← command_config env;
  _ ← local_channel env config (local_host an config) "Failed to connect to HandControl server" an;
  response ← lift (map_err (λ _, "ApprovePairing RPC failed") rpc);
  if aps_success response then mret [String.append "Pairing request approved. client_id=" (aps_client_id response)]
  else lift (Err (String.append "Server rejected pairing approval: " (aps_error_message response))).

Definition handle_reject_command : list string * result string unit :=
  (["Error: Cannot reject pairing request from CLI.";
    "The pairing manager state is only available while the server is running.";
    "Please use OS notifications to reject pairing requests."], Err "Pairing rejection requires server to be running").

Definition tab : string := String "009" EmptyString.
Definition pending_line (req : PendingPairingInfo) : string :=
  let model := if str_is_empty (ppi_device_model req) then "Unknown" else ppi_device_model req in
  let ip := if str_is_empty (ppi_ip_address req) then "unknown" else ppi_ip_address req in
  fmt [ppi_request_id req; tab; ppi_device_name req; tab; model; tab; ppi_verification_code req; tab;
       pretty (ppi_seconds_remaining req); "s"; tab; ip].
Definition handle_list_pending_command (env : ServerEnv) (an : cli_answers) (rpc : result Status (list PendingPairingInfo)) : io (list string) :=
  config ← command_config env;
  _ ← local_channel env config (local_host an config) "Failed to connect to HandControl server" an;
  requests ← lift (map_err (λ _, "ListPendingPairings RPC failed") rpc);
  match requests with
  | [] => mret ["No pending pairing requests."]
  | _ => mret (pending_line <$> requests)
  end.
End commands.

(** ** Local approval *)
Section approval.
Context `{CliCrates, QrCrates, EnrollCrates, GrpcCrates, RegexEngine, Sha256, HexEncode, !TomlCodec ClientRegistry}.
Context (toml_config : string → option RawConfig).

Definition reaches_server (env : ServerEnv) (an : cli_answers) (w w' : World) : Prop :=
  ∃ w1 config, command_config toml_config env w = (w1, Ok config) ∧
    local_channel env config (local_host an config) "Failed to connect to HandControl server" an w1 = (w', Ok tt).

(** Approving a pairing from the server's own command line.  The command presents
    no certificate.  If it reaches the server, it succeeds exactly when the server does not
    require client certificates and the approval itself succeeds, and then it prints the id
    under which the requested certificate has been enrolled; on a server that requires
    certificates it always fails and the server stays as it was, so that the first device
    cannot be paired by approval. *)
Lemma local_approval_needs_no_certificates env an w w1 i id c sv :
  reaches_server env an w w1 → ca_peer_certs c = None →
  let '(sv', answer) := approve_pairing i c id sv in
  let '(w', r) := handle_approve_command toml_config env an answer w in
  (is_ok r = true ↔ ¬ requires_cert sv ∧ is_ok (approve_pairing_request i id (sv_pairing_manager sv) (sv_fs sv) (sv_client_store sv)).2 = true) ∧
  (requires_cert sv → sv' = sv ∧ r = Err "ApprovePairing RPC failed") ∧
  (∀ out, r = Ok out → ∃ req req' client,
    pm_requests (sv_pairing_manager sv) !! id = Some req ∧ pairing_is_pending (ai_now_pending i) req = true ∧
    pm_requests (sv_pairing_manager sv') !! id = Some req' ∧ pr_status req' = Approved ∧
    client ∈ list_clients (sv_client_store sv') ∧ cm_cert_fingerprint client = fp_of (pr_client_certificate req) ∧
    enrolled (pr_client_certificate req) sv' ∧ out = [String.append "Pairing request approved. client_id=" (cm_id client)]).
Proof.
  intros (w0 & config & E1 & E2) Hc. destruct (approve_pairing i c id sv) as [sv' answer] eqn:Ha.
  unfold handle_approve_command. rewrite (io_run _ _ _ _ _ E1), (io_run _ _ _ _ _ E2).
  unfold approve_pairing, ensure_enrolled_client, requires_cert in *. rewrite Hc in Ha.
  destruct (sec_require_client_cert (cfg_security (sv_config sv))).
  { injection Ha as <- <-. cbn. split_and!; [|done|done]. split; [done|]. by intros [[] _]. }
  destruct (approve_pairing_request _ _ _ _ _) as [[[pairing fs] store] r] eqn:Hr. injection Ha as <- <-. cbn.
  destruct r as [cid|e]; cbn; [|split_and!; naive_solver]. split_and!; [naive_solver|done|]. intros out [= <-].
  destruct (approve_pairing_request_ok _ _ _ _ _ _ _ _ _ Hr) as (req & req' & R1 & R2 & R3 & (client & L1 & <- & _ & L4) & R4 & R5 & _).
  by exists req, req', client.
Qed.
End approval.

(** ** Printing an enrolment code *)
Section printing.
Context `{CliCrates, QrJsonLaws, HexLaws, GrpcCrates, RegexEngine, UuidTextLaws, Sha256, TokenCrates}.
Context `{!TomlCodec ClientRegistry}.
Context (toml_config : string → option RawConfig).

(** [serde_json] reads the server's payload back as it was. *)
Definition payload_read_back : Prop := ∀ p s, qr_json p = Some s → payload_from_json s = Some p.

(** What [enroll --qr --json] prints is the code of the server's answer. *)
Lemma enroll_json_prints_the_code env an now qi sv sv1 resp w w' out : payload_read_back →
  generate_enrollment_qr qi sv = Some (sv1, resp) →
  handle_enroll_command toml_config env true an now (Some resp) w = (w', Ok out) →
  qr_success resp = true ∧ out = ([qr_payload resp], Ok 0).
Proof.
  intros Hrt Hq E. unfold handle_enroll_command in E. do 6 (apply io_bind_ok in E as (? & ? & _ & E)).
  apply io_bind_ok in E as (? & r & [= <- <-] & E). apply io_bind_ok in E as (? & ? & Es & E).
  destruct (qr_success resp) eqn:Hs; [|done]. split; [done|]. injection Es as <- <-.
  apply io_bind_ok in E as (? & payload & Ep & E). injection Ep as <- Ep%ok_or_ok.
  apply io_bind_ok in E as (? & json & Ej & E). injection Ej as <- Ej. injection E as <- <-.
  unfold generate_enrollment_qr in Hq. destruct (negb _); [by simplify_eq|]. destruct (generate_token _ _ _ _) as [[ts t]|]; [|done].
  cbn in Hq. unfold to_json in *. destruct (qr_json _) as [j|] eqn:Hj; cbn [ok_or] in Hq; [|by simplify_eq].
  injection Hq as <- <-. cbn in *. rewrite (Hrt _ _ Hj) in Ep. injection Ep as <-. rewrite Hj in Ej. by injection Ej as <-.
Qed.
End printing.

(** ** A concrete command *)
#[local] Existing Instance demo_grpc.
#[local] Existing Instance demo_regex.
#[local] Existing Instance demo_sha256.
#[local] Existing Instance demo_hex.
#[local] Existing Instance demo_registry_toml.

Definition cli_world : World :=
  mkWorld (mkFs {["/etc/hc/config.toml" := to_bytes "config"; "/etc/hc/server.crt" := [x2a]]} {["/etc/hc"]}) ∅ 420 (λ _, WOk) 0.
Definition cli_open : cli_answers := mkCliAnswers None (λ _ _, true) (λ _ _ _, true).

Lemma local_approval_needs_no_certificates_witness :
  (handle_approve_command (λ _, Some raw_config) start_env cli_open (approve_pairing (demo_approve []) anonymous "r1" demo_service).2 cli_world).2
    = Err "ApprovePairing RPC failed" ∧
  (approve_pairing (demo_approve []) anonymous "r1" demo_service).1 = demo_service.
Proof.
  assert (reaches_server (λ _, Some raw_config) start_env cli_open cli_world
    (handle_approve_command (λ _, Some raw_config) start_env cli_open (Err (mkStatus Unauthenticated "")) cli_world).1) as Hr.
  { unfold reaches_server. destruct (command_config (λ _, Some raw_config) start_env cli_world) as [w1 [config|]] eqn:E;
      [|vm_compute in E; discriminate E]. exists w1, config. split; [reflexivity|]. vm_compute in E. injection E as <- <-. vm_compute. reflexivity. }
  pose proof (local_approval_needs_no_certificates (λ _, Some raw_config) start_env cli_open cli_world _ (demo_approve []) "r1" anonymous
    demo_service Hr eq_refl) as H.
  destruct (approve_pairing (demo_approve []) anonymous "r1" demo_service) as [sv' answer]. cbn [fst snd].
  destruct (handle_approve_command _ _ _ answer cli_world) as [w' r]. destruct H as (_ & H & _). destruct (H eq_refl) as [-> ->].
  split; reflexivity.
Defined.
