(* ===== verification/CliArgs.v ===== *)
(** * What the arguments of the command line mean (cli/src/main.rs)

    Finding the server and the session an argument designates, shell completions,
    parameters, and [config set].  mDNS discovery is [Discovery.discover_servers];
    the functions here take its result. *)

From S2P Require Import Prelude RustStd ThirdParty Net Network Config Validation SessionState RelayTokens ClientConfig ClientStorage Discovery ClientConnect ClientCommands.

Local Open Scope string_scope.
Local Open Scope Z_scope.

(** [Uuid::simple]: the text without dashes. *)
Class UuidSimple := uuid_simple : Uuid → string.

(** ** Strings of the standard library *)
Definition not_dash (c : ascii) : bool := bool_decide (c ≠ "-"%char).
(** [chars().filter(|c| c != '-').collect()]: a dash is one byte, and no byte of
    another character is a dash. *)
Definition compact (s : string) : string := string_filter not_dash s.

(** [str::split_once]. *)
Fixpoint split_once (c : ascii) (s : string) : option (string * string) :=
  match s with
  | EmptyString => None
  | String a s' =>
      if bool_decide (a = c) then Some (EmptyString, s')
      else '(x, y) ← split_once c s'; Some (String a x, y)
  end.

(** [rfind], then [split_at] with the separator dropped. *)
Fixpoint rsplit_once (c : ascii) (s : string) : option (string * string) :=
  match s with
  | EmptyString => None
  | String a s' =>
      match rsplit_once c s' with
      | Some (x, y) => Some (String a x, y)
      | None => if bool_decide (a = c) then Some (EmptyString, s') else None
      end
  end.

(** [str::split(c)]: at least one part. *)
Fixpoint split (c : ascii) (s : string) : list string :=
  match s with
  | EmptyString => [EmptyString]
  | String a s' =>
      if bool_decide (a = c) then EmptyString :: split c s'
      else match split c s' with x :: l => String a x :: l | [] => [String a EmptyString] end
  end.

(** [parse::<u16>()], [u32] and [u64]: a [+] is allowed, a [-] is not. *)
Definition parse_unsigned (max : Z) (s : string) : option Z :=
  z ← parse_digits (default s (strip_prefix "+" s)); if z <=? max then Some z else None.
Definition U16_MAX : Z := 2 ^ 16 - 1.

(** [Vec::dedup] drops elements equal to their predecessor. *)
Fixpoint dedup_adjacent (l : list string) : list string :=
  match l with
  | x :: ((y :: _) as rest) => if bool_decide (x = y) then dedup_adjacent rest else x :: dedup_adjacent rest
  | _ => l
  end.
Definition sort_strings : list string → list string := sort_by str_cmp.

(** ** Parameters of [exec] *)
Definition parse_parameter_pair (map : gmap string string) (arg : string) : result string (gmap string string) :=
  '(key, value) ← ok_or (split_once "=" arg) (fmt ["Parameter '"; arg; "' must be in key=value format"]);
  let key := trim key in
  bail! fmt ["Parameter key cannot be empty in '"; arg; "'"] when str_is_empty key;
  bail! fmt ["Duplicate parameter '"; key; "' provided"] when bool_decide (is_Some (map !! key));
  Ok (<[key := value]> map).
Fixpoint parse_parameter_pairs_from (map : gmap string string) (values : list string) : result string (gmap string string) :=
  match values with
  | [] => Ok map
  | arg :: rest => map' ← parse_parameter_pair map arg; parse_parameter_pairs_from map' rest
  end.
Definition parse_parameter_pairs (values : list string) : result string (gmap string string) :=
  parse_parameter_pairs_from ∅ values.

(** ** [--address] *)
Definition parse_host_port (value : string) : option (string * Z) :=
  match parse_socket_addr value with
  | Some addr => Some (ip_to_string (sa_ip addr), sa_port addr)
  | None =>
      '(host, port_str) ← rsplit_once ":" value;
      port ← parse_unsigned U16_MAX port_str;
      Some (host, port)
  end.

Section servers.
Context `{UuidText, UuidSimple}.

(** ** The enrolled server an argument means *)
Definition named (identifier : string) (entry : ServerRegistryEntry) : bool :=
  match sre_hostname entry with Some h => eq_ignore_ascii_case h identifier | None => false end ||
  match sre_ip entry with Some ip => eq_ignore_ascii_case ip identifier | None => false end ||
  existsb (λ addr, eq_ignore_ascii_case addr identifier) (sre_addresses entry).

(** The text, in lower case, begins the id with or without its dashes. *)
Definition id_begins (normalized : string) (id : Uuid) : bool :=
  starts_with normalized (to_ascii_lowercase (uuid_to_string id)) ||
  (negb (str_is_empty (compact normalized)) && starts_with (compact normalized) (to_ascii_lowercase (uuid_simple id))).

Definition not_enrolled (identifier : string) : string :=
  fmt ["Server '"; identifier; "' is not enrolled. Run 'handcontrol-cli enroll' to register it first."].

Definition find_enrolled_server (identifier : string) (registry : ServerRegistry) : result string ServerRegistryEntry :=
  match uuid_parse identifier ≫= λ id, find_by_id id registry with
  | Some entry => Ok entry
  | None =>
      match list_find (λ entry, named identifier entry = true) (sr_entries registry) with
      | Some (_, entry) => Ok entry
      | None =>
          let normalized := to_ascii_lowercase identifier in
          if str_is_empty normalized then Err (not_enrolled identifier)
          else match filter (λ entry, id_begins normalized (sre_id entry) = true) (sr_entries registry) with
               | [] => Err (not_enrolled identifier)
               | [entry] => Ok entry
               | matches =>
                   Err (fmt ["Server identifier '"; identifier; "' is ambiguous. Matching IDs: ";
                             join ", " (uuid_to_string ∘ sre_id <$> matches)])
               end
      end
  end.

(** ** Completions *)
Definition entry_candidates (normalized : string) (entry : ServerRegistryEntry) : list string :=
  let matches text := str_is_empty normalized || starts_with normalized (to_ascii_lowercase text) in
  ((if str_is_empty normalized || id_begins normalized (sre_id entry) then [uuid_to_string (sre_id entry)] else []) ++
   filter (λ text, matches text = true)
     (option_list (sre_hostname entry) ++ option_list (sre_ip entry) ++ sre_addresses entry))%list.

(** The [HashSet] is emptied in some order, which the sort removes. *)
Definition collect_server_candidates (prefix : string) (registry : ServerRegistry) : list string :=
  let normalized := to_ascii_lowercase prefix in
  let candidates : gset string := list_to_set (sr_entries registry ≫= entry_candidates normalized) in
  sort_strings (elements candidates).

Definition collect_session_candidates (sessions : list ServerSessionInfo) (prefix : string) : list string :=
  let normalized := to_ascii_lowercase prefix in
  let matches session :=
    let id_lower := to_ascii_lowercase (sv_session_id session) in
    str_is_empty normalized || starts_with normalized id_lower ||
    (negb (str_is_empty (compact normalized)) && starts_with (compact normalized) (compact id_lower)) in
  dedup_adjacent (sort_strings (sv_session_id <$> filter (λ session, matches session = true) sessions)).

(** ** The session [resume] means *)
(** The loop of [run_resume]: an exact match replaces everything and ends it. *)
Fixpoint matching_sessions (session_id : string) (sessions info_matches : list ServerSessionInfo) : list ServerSessionInfo :=
  match sessions with
  | [] => info_matches
  | session :: rest =>
      if eq_ignore_ascii_case (sv_session_id session) session_id then [session]
      else
        let normalized := to_ascii_lowercase session_id in
        if str_is_empty normalized then matching_sessions session_id rest info_matches
        else
          let canonical := to_ascii_lowercase (sv_session_id session) in
          if starts_with normalized canonical ||
             (negb (str_is_empty (compact normalized)) && starts_with (compact normalized) (compact canonical))
          then matching_sessions session_id rest (info_matches ++ [session])%list
          else matching_sessions session_id rest info_matches
  end.

Definition choose_session (server_id : Uuid) (session_id : string) (sessions : list ServerSessionInfo)
    : result string ServerSessionInfo :=
  match matching_sessions session_id sessions [] with
  | [] => Err (fmt ["Session '"; session_id; "' not found on server "; uuid_to_string server_id])
  | [info] => Ok info
  | matches =>
      Err (fmt ["Session identifier '"; session_id; "' is ambiguous on server "; uuid_to_string server_id; "; matches: ";
                join ", " (sv_session_id <$> matches)])
  end.

(** ** The address of a server that need not be enrolled *)
Record ResolvedServer := mkResolvedServer {
  rs_addresses : list string;
  rs_port : option Z;
  rs_server_id_hint : option Uuid;
}.

Definition or_hint (hint other : option Uuid) : option Uuid := match hint with Some id => Some id | None => other end.

(** One announced server: the hint, the matches by name and those by id. *)
Definition resolve_step (server : string) (acc : option Uuid * list DiscoveredServer * list DiscoveredServer)
    (entry : DiscoveredServer) : option Uuid * list DiscoveredServer * list DiscoveredServer :=
  let '(hint, host_matches, id_matches) := acc in
  if eq_ignore_ascii_case (ds_instance_name entry) server || eq_ignore_ascii_case (ds_hostname entry) server then
    (or_hint hint (ds_server_id entry), (host_matches ++ [entry])%list, id_matches)
  else match ds_server_id entry with
       | Some id =>
           let query := to_ascii_lowercase server in
           if bool_decide (to_ascii_lowercase (uuid_to_string id) = query) || id_begins query id then
             (or_hint hint (Some id), host_matches, (id_matches ++ [entry])%list)
           else acc
       | None => acc
       end.

Definition describe_match (entry : DiscoveredServer) : string :=
  match ds_server_id entry with
  | Some id => uuid_to_string id
  | None =>
      if negb (str_is_empty (ds_instance_name entry)) then ds_instance_name entry
      else if negb (str_is_empty (ds_hostname entry)) then ds_hostname entry
      else "<unknown>"
  end.

Definition unable_to_resolve (server : string) : string :=
  fmt ["Unable to resolve server '"; server; "'. Run 'handcontrol-cli discover' or supply --address"].

Definition resolve_discovered (server : string) (port : option Z) (discovered : list DiscoveredServer) : result string ResolvedServer :=
  let '(hint, host_matches, id_matches) := foldl (resolve_step server) (uuid_parse server, [], []) discovered in
  match (match host_matches with [] => id_matches | _ => host_matches end) with
  | [] => Err (unable_to_resolve server)
  | [entry] =>
      Ok (mkResolvedServer (ds_addresses entry) (Some (default (ds_port entry) port)) (or_hint hint (ds_server_id entry)))
  | matches =>
      Err (fmt ["Server identifier '"; server; "' is ambiguous; matches: "; join ", " (describe_match <$> matches)])
  end.

Definition resolve_address (server addr : string) (port : option Z) : ResolvedServer :=
  match parse_host_port addr with
  | Some (host, parsed_port) => mkResolvedServer [host] (Some (default parsed_port port)) (uuid_parse server)
  | None => mkResolvedServer [addr] port (uuid_parse server)
  end.

Definition resolve_server_targets (server : string) (address : option string) (port : option Z) (cfg : ClientConfig)
    (discover : DiscoveryConfig → result string (list DiscoveredServer)) : result string ResolvedServer :=
  resolved ← match address with
             | Some addr => Ok (resolve_address server addr port)
             | None => discovered ← discover (cc_discovery cfg); resolve_discovered server port discovered
             end;
  let addresses := dedup_adjacent (sort_strings (rs_addresses resolved)) in
  bail! unable_to_resolve server when bool_decide (addresses = []);
  Ok (mkResolvedServer addresses (rs_port resolved) (rs_server_id_hint resolved)).
End servers.

(** ** [config set] *)
Definition parse_bool_arg (value : string) : result string bool :=
  let v := to_ascii_lowercase (trim value) in
  if bool_decide (v ∈ ["true"; "1"; "yes"; "on"]) then Ok true
  else if bool_decide (v ∈ ["false"; "0"; "no"; "off"]) then Ok false
  else Err (fmt ["Invalid boolean value '"; value; "'. Use true/false, yes/no, on/off"]).
Definition parse_u64_arg (key value : string) : result string Z :=
  ok_or (parse_unsigned U64_MAX (trim value)) (fmt [key; " must be a positive integer"]).
Definition parse_u32_arg (key value : string) : result string Z :=
  ok_or (parse_unsigned U32_MAX (trim value)) (fmt [key; " must be a non-negative integer"]).

Definition set_device_string (device : option DeviceConfig) (is_name : bool) (value : string) : option DeviceConfig :=
  let trimmed := trim value in
  let put v (d : DeviceConfig) := if is_name then mkDeviceConfig v (dv_model d) else mkDeviceConfig (dv_name d) v in
  let device := if str_is_empty trimmed then put None <$> device
                else Some (put (Some trimmed) (default (mkDeviceConfig None None) device)) in
  match device with
  | Some (mkDeviceConfig None None) => None
  | d => d
  end.

(** Assignments to one field. *)
Definition set_discovery (d : DiscoveryConfig) (c : ClientConfig) : ClientConfig :=
  mkClientConfig d (cc_connection c) (cc_network_relay c) (cc_tui c) (cc_cli c) (cc_device c).
Definition set_connection (x : ConnectionConfig) (c : ClientConfig) : ClientConfig :=
  mkClientConfig (cc_discovery c) x (cc_network_relay c) (cc_tui c) (cc_cli c) (cc_device c).
Definition set_relay (r : RelayBehaviorConfig) (c : ClientConfig) : ClientConfig :=
  mkClientConfig (cc_discovery c) (cc_connection c) r (cc_tui c) (cc_cli c) (cc_device c).
Definition set_tui (t : TuiConfig) (c : ClientConfig) : ClientConfig :=
  mkClientConfig (cc_discovery c) (cc_connection c) (cc_network_relay c) t (cc_cli c) (cc_device c).
Definition set_cli (l : CliConfig) (c : ClientConfig) : ClientConfig :=
  mkClientConfig (cc_discovery c) (cc_connection c) (cc_network_relay c) (cc_tui c) l (cc_device c).
Definition set_device (d : option DeviceConfig) (c : ClientConfig) : ClientConfig :=
  mkClientConfig (cc_discovery c) (cc_connection c) (cc_network_relay c) (cc_tui c) (cc_cli c) d.

(** One of a list of words, in lower case. *)
Definition parse_word_arg (words : list string) (error value : string) : result string string :=
  let normalized := to_ascii_lowercase (trim value) in
  if bool_decide (normalized ∈ words) then Ok normalized else Err error.

(** The arms of the [match] on the parts of the key. *)
Definition config_setter (key : list string) (full value : string) (c : ClientConfig) : option (result string ClientConfig) :=
  let d := cc_discovery c in let x := cc_connection c in let r := cc_network_relay c in
  let t := cc_tui c in let l := cc_cli c in
  let b := parse_bool_arg value in
  let u64 := parse_u64_arg full value in
  let u32 := parse_u32_arg full value in
  let arm p := bool_decide (key = p) in
  if arm ["discovery"; "auto_discover"] then
    Some (v ← b; Ok (set_discovery (mkDiscoveryConfig v (dc_timeout_seconds d) (dc_prefer_ipv6 d) (dc_include_link_local d)) c))
  else if arm ["discovery"; "timeout_seconds"] then
    Some (v ← u64; Ok (set_discovery (mkDiscoveryConfig (dc_auto_discover d) v (dc_prefer_ipv6 d) (dc_include_link_local d)) c))
  else if arm ["discovery"; "prefer_ipv6"] then
    Some (v ← b; Ok (set_discovery (mkDiscoveryConfig (dc_auto_discover d) (dc_timeout_seconds d) v (dc_include_link_local d)) c))
  else if arm ["discovery"; "include_link_local"] then
    Some (v ← b; Ok (set_discovery (mkDiscoveryConfig (dc_auto_discover d) (dc_timeout_seconds d) (dc_prefer_ipv6 d) v) c))
  else if arm ["connection"; "timeout_seconds"] then
    Some (v ← u64; Ok (set_connection (mkConnectionConfig v (cx_command_timeout_seconds x) (cx_retry_attempts x) (cx_retry_delay_ms x)) c))
  else if arm ["connection"; "command_timeout_seconds"] then
    Some (v ← u64; Ok (set_connection (mkConnectionConfig (cx_timeout_seconds x) v (cx_retry_attempts x) (cx_retry_delay_ms x)) c))
  else if arm ["connection"; "retry_attempts"] then
    Some (v ← u32; Ok (set_connection (mkConnectionConfig (cx_timeout_seconds x) (cx_command_timeout_seconds x) v (cx_retry_delay_ms x)) c))
  else if arm ["connection"; "retry_delay_ms"] then
    Some (v ← u64; Ok (set_connection (mkConnectionConfig (cx_timeout_seconds x) (cx_command_timeout_seconds x) (cx_retry_attempts x) v) c))
  else if arm ["network"; "relay"; "prefer_relay"] then
    Some (v ← b; Ok (set_relay (mkRelayBehaviorConfig v (rb_relay_only_mode r) (rb_max_direct_attempts r)) c))
  else if arm ["network"; "relay"; "relay_only_mode"] then
    Some (v ← b; Ok (set_relay (mkRelayBehaviorConfig (rb_prefer_relay r) v (rb_max_direct_attempts r)) c))
  else if arm ["network"; "relay"; "max_direct_attempts"] then
    Some (v ← u32; Ok (set_relay (mkRelayBehaviorConfig (rb_prefer_relay r) (rb_relay_only_mode r) v) c))
  else if arm ["tui"; "show_timestamps"] then
    Some (v ← b; Ok (set_tui (mkTuiConfig v (tc_color_scheme t) (tc_auto_scroll t) (tc_confirm_commands t)) c))
  else if arm ["tui"; "color_scheme"] then
    Some (Ok (set_tui (mkTuiConfig (tc_show_timestamps t) (trim value) (tc_auto_scroll t) (tc_confirm_commands t)) c))
  else if arm ["tui"; "auto_scroll"] then
    Some (v ← b; Ok (set_tui (mkTuiConfig (tc_show_timestamps t) (tc_color_scheme t) v (tc_confirm_commands t)) c))
  else if arm ["tui"; "confirm_commands"] then
    Some (v ← b; Ok (set_tui (mkTuiConfig (tc_show_timestamps t) (tc_color_scheme t) (tc_auto_scroll t) v) c))
  else if arm ["cli"; "output_format"] then
    Some (v ← parse_word_arg ["tsv"; "json"] (fmt ["Unsupported output format '"; value; "'. Use 'tsv' or 'json'"]) value;
          Ok (set_cli (mkCliConfig v (lc_show_headers l) (lc_color_output l) (lc_jiggle_resize_on_resume l)) c))
  else if arm ["cli"; "show_headers"] then
    Some (v ← b; Ok (set_cli (mkCliConfig (lc_output_format l) v (lc_color_output l) (lc_jiggle_resize_on_resume l)) c))
  else if arm ["cli"; "color_output"] then
    Some (v ← parse_word_arg ["auto"; "always"; "never"]
                (fmt ["Invalid value for cli.color_output '"; value; "'. Use auto|always|never"]) value;
          Ok (set_cli (mkCliConfig (lc_output_format l) (lc_show_headers l) v (lc_jiggle_resize_on_resume l)) c))
  else if arm ["device"; "name"] then Some (Ok (set_device (set_device_string (cc_device c) true value) c))
  else if arm ["device"; "model"] then Some (Ok (set_device (set_device_string (cc_device c) false value) c))
  else None.

Definition set_config_value (cfg : ClientConfig) (key value : string) : result string ClientConfig :=
  match config_setter (split "." key) key value cfg with
  | Some r => r
  | None => Err (fmt ["Unknown configuration key '"; key; "'"])
  end.

(** ** Lemmas *)
Lemma eq_ignore_refl s : eq_ignore_ascii_case s s = true.
Proof. by apply bool_decide_eq_true. Qed.

Lemma sort_strings_elem x l : x ∈ sort_strings l ↔ x ∈ l.
Proof. unfold sort_strings. by rewrite sort_by_perm. Qed.

Lemma dedup_adjacent_elem x l : x ∈ dedup_adjacent l ↔ x ∈ l.
Proof.
  induction l as [|y [|z l] IH]; [done..|]. change (dedup_adjacent (y :: z :: l)) with
    (if bool_decide (y = z) then dedup_adjacent (z :: l) else y :: dedup_adjacent (z :: l)).
  case_bool_decide as E; [|rewrite !elem_of_cons, IH, elem_of_cons; done].
  rewrite IH, E, !elem_of_cons. tauto.
Qed.

(** *** Setting a value *)
(** The values [config set] accepts stay in the width of their fields. *)
Lemma parse_unsigned_range max s z : parse_unsigned max s = Some z → 0 ≤ z ≤ max.
Proof.
  unfold parse_unsigned. intros (n & Hn & Hz)%bind_Some. destruct (n <=? max) eqn:E; [|done]. simplify_eq. split; [|lia].
  revert Hn. unfold parse_digits. destruct (default _ _) as [|c t]; [done|]. generalize (String c t) as u.
  assert (∀ u acc, 0 ≤ acc → digits_val acc u = Some z → 0 ≤ z) as Hd; [|intros u; by apply Hd].
  induction u as [|a u IH]; intros acc Ha; cbn; [congruence|]. intros (d & Hdv & Hu)%bind_Some.
  apply IH in Hu; [done|]. unfold digit_val, is_ascii_digit, in_range in Hdv. case_match; simplify_eq. lia.
Qed.

Section found.
Context `{UuidText, UuidSimple}.

Lemma find_by_id_Some id r e : find_by_id id r = Some e → e ∈ sr_entries r ∧ sre_id e = id.
Proof.
  unfold find_by_id. intros ([i e'] & Hf & ->)%fmap_Some_1.
  apply list_find_Some in Hf as (Hl & Hid & _). split; [by eapply list_elem_of_lookup_2|done].
Qed.

Lemma find_by_id_known e r : e ∈ sr_entries r → is_Some (find_by_id (sre_id e) r).
Proof.
  intros He. unfold find_by_id. destruct (list_find_elem_of (λ e', sre_id e' = sre_id e) _ _ He eq_refl) as [[i e'] ->]; by eexists.
Qed.

(** The argument is the id or one of the names of the entry. *)
Definition designates (identifier : string) (e : ServerRegistryEntry) : Prop :=
  uuid_parse identifier = Some (sre_id e) ∨ named identifier e = true.
#[local] Instance designates_dec identifier e : Decision (designates identifier e).
Proof. unfold designates. apply _. Defined.

Lemma found_exactly identifier r e : e ∈ sr_entries r → designates identifier e →
  ∃ e', find_enrolled_server identifier r = Ok e' ∧ e' ∈ sr_entries r ∧ designates identifier e'.
Proof.
  intros He Hd. unfold find_enrolled_server. destruct (uuid_parse identifier ≫= _) as [e1|] eqn:E1.
  { apply bind_Some in E1 as (id & Hid & [Hin <-]%find_by_id_Some). exists e1. split_and!; [done..|by left]. }
  destruct Hd as [Hid|Hn].
  { rewrite Hid in E1. cbn in E1. destruct (find_by_id_known e r He) as [? E]. congruence. }
  destruct (list_find_elem_of (λ e', named identifier e' = true) _ _ He Hn) as [[i e2] Hf]. rewrite Hf.
  apply list_find_Some in Hf as (Hl & Hn2 & _). exists e2. split_and!; [done|by eapply list_elem_of_lookup_2|by right].
Qed.

Lemma identifier_is_found identifier r e : find_enrolled_server identifier r = Ok e → e ∈ sr_entries r.
Proof.
  unfold find_enrolled_server. destruct (uuid_parse identifier ≫= _) as [e1|] eqn:E1.
  { apply bind_Some in E1 as (id & _ & [Hin _]%find_by_id_Some). by intros [= <-]. }
  destruct (list_find _ _) as [[i e2]|] eqn:E2.
  { apply list_find_Some in E2 as (Hl & _). intros [= <-]. by eapply list_elem_of_lookup_2. }
  destruct (str_is_empty _); [done|]. destruct (filter _ _) as [|e3 [|? ?]] eqn:Em; [done| |done]. intros [= <-].
  assert (e3 ∈ filter (λ e, id_begins (to_ascii_lowercase identifier) (sre_id e) = true) (sr_entries r)) as He3
    by (rewrite Em; set_solver). by apply list_elem_of_filter in He3 as [_ ?].
Qed.

(** an argument is never guessed: the server [find_enrolled_server] returns is
    enrolled and has the argument as its id or one of its names, or the argument is
    the beginning of its id and of no other enrolled id, and neither an id nor a name
    of any enrolled server. *)
Lemma identifier_is_never_guessed identifier r e :
  find_enrolled_server identifier r = Ok e →
  e ∈ sr_entries r ∧
  (designates identifier e ∨
   (∀ e', e' ∈ sr_entries r → ¬ designates identifier e') ∧
   (∀ e', e' ∈ sr_entries r → id_begins (to_ascii_lowercase identifier) (sre_id e') = true ↔ e' = e)).
Proof.
  intros Hf. destruct (decide (Exists (designates identifier) (sr_entries r))) as [Hex|Hno].
  { apply Exists_exists in Hex as (e0 & He0 & Hd0). destruct (found_exactly _ _ _ He0 Hd0) as (e' & Hf' & Hin & Hd).
    rewrite Hf in Hf'. injection Hf' as ->. auto. }
  assert (∀ e', e' ∈ sr_entries r → ¬ designates identifier e') as Hnone.
  { intros e' He' Hd. apply Hno, Exists_exists. eauto. }
  unfold find_enrolled_server in Hf. destruct (uuid_parse identifier ≫= _) as [e1|] eqn:E1.
  { exfalso. apply bind_Some in E1 as (id & Hid & [Hin <-]%find_by_id_Some). by eapply (Hnone e1); [|left]. }
  destruct (list_find _ _) as [[i e2]|] eqn:E2.
  { exfalso. apply list_find_Some in E2 as (Hl & Hn & _). eapply (Hnone e2); [by eapply list_elem_of_lookup_2|by right]. }
  destruct (str_is_empty _); [done|]. destruct (filter _ _) as [|e3 [|? ?]] eqn:Em; [done| |done]. injection Hf as ->.
  assert (∀ e', e' ∈ sr_entries r ∧ id_begins (to_ascii_lowercase identifier) (sre_id e') = true ↔ e' = e) as Hiff.
  { intros e'. rewrite <-(list_elem_of_singleton e' e), <-Em, list_elem_of_filter. tauto. }
  split; [by apply Hiff|]. right. split; [done|]. intros e' He'. rewrite <-Hiff. tauto.
Qed.

Lemma entry_candidates_designate normalized e c :
  UuidTextLaws → c ∈ entry_candidates normalized e → designates c e.
Proof.
  intros Hlaws. unfold entry_candidates. rewrite elem_of_app. intros [Hc|Hc].
  { destruct (_ || _); [|by apply not_elem_of_nil in Hc]. apply list_elem_of_singleton in Hc as ->. left. apply Hlaws. }
  apply list_elem_of_filter in Hc as [_ Hc]. right. unfold named. rewrite !elem_of_app in Hc.
  destruct Hc as [Hc|[Hc|Hc]].
  - destruct (sre_hostname e) as [t|]; [apply list_elem_of_singleton in Hc as <-|by apply not_elem_of_nil in Hc]. by rewrite eq_ignore_refl.
  - destruct (sre_ip e) as [t|]; [apply list_elem_of_singleton in Hc as <-|by apply not_elem_of_nil in Hc]. by rewrite eq_ignore_refl, orb_true_r.
  - assert (existsb (λ addr, eq_ignore_ascii_case addr c) (sre_addresses e) = true) as ->; [|apply orb_true_r].
    apply existsb_exists. exists c. split; [by apply list_elem_of_In|apply eq_ignore_refl].
Qed.

Lemma server_candidates_elem c prefix r :
  c ∈ collect_server_candidates prefix r ↔ ∃ e, e ∈ sr_entries r ∧ c ∈ entry_candidates (to_ascii_lowercase prefix) e.
Proof.
  unfold collect_server_candidates. rewrite sort_strings_elem, elem_of_elements, elem_of_list_to_set, list_elem_of_bind. naive_solver.
Qed.

(** every server the shell completion proposes is accepted where a server is
    expected, and the entry found has the proposal as its id or one of its names;
    and every enrolled server is proposed for an empty prefix. *)
Lemma server_completions_are_accepted `{!UuidTextLaws} prefix r :
  (∀ c, c ∈ collect_server_candidates prefix r →
     ∃ e, find_enrolled_server c r = Ok e ∧ e ∈ sr_entries r ∧ designates c e) ∧
  (∀ e, e ∈ sr_entries r → uuid_to_string (sre_id e) ∈ collect_server_candidates "" r).
Proof.
  split.
  - intros c (e & He & Hc)%server_candidates_elem. apply (found_exactly c r e); [done|].
    by eapply entry_candidates_designate.
  - intros e He. apply server_candidates_elem. exists e. split; [done|]. unfold entry_candidates. cbn. set_solver.
Qed.

(** *** Sessions *)
Lemma matching_sessions_exact sid sessions acc s :
  s ∈ sessions → eq_ignore_ascii_case (sv_session_id s) sid = true →
  ∃ s', matching_sessions sid sessions acc = [s'] ∧ s' ∈ sessions ∧ eq_ignore_ascii_case (sv_session_id s') sid = true.
Proof.
  revert acc. induction sessions as [|x l IH]; intros acc Hin Heq; [by apply not_elem_of_nil in Hin|]. cbn [matching_sessions].
  destruct (eq_ignore_ascii_case (sv_session_id x) sid) eqn:Ex; [exists x; split_and!; [done|set_solver|done]|].
  apply elem_of_cons in Hin as [->|Hin]; [congruence|].
  repeat case_match; (match goal with |- context [matching_sessions _ l ?a] => destruct (IH a Hin Heq) as (s' & -> & ? & ?) end;
    exists s'; split_and!; [done|set_solver|done]).
Qed.

(** Every session completion proposes is accepted by [resume]. *)
Lemma session_completions_are_accepted server_id sessions prefix c :
  c ∈ collect_session_candidates sessions prefix →
  ∃ info, choose_session server_id c sessions = Ok info ∧ info ∈ sessions ∧ eq_ignore_ascii_case (sv_session_id info) c = true.
Proof.
  unfold collect_session_candidates. rewrite dedup_adjacent_elem, sort_strings_elem.
  intros (s & -> & [_ Hs]%list_elem_of_filter)%list_elem_of_fmap.
  destruct (matching_sessions_exact (sv_session_id s) sessions [] s Hs (eq_ignore_refl _)) as (s' & E & ? & ?).
  exists s'. unfold choose_session. by rewrite E.
Qed.

(** *** Resolving *)
Lemma resolve_never_empty server address port cfg discover r :
  resolve_server_targets server address port cfg discover = Ok r → rs_addresses r ≠ [].
Proof. unfold resolve_server_targets. intros H'. inv_ok. by case_bool_decide. Qed.
End found.

(** An IPv6 address given without brackets and port loses its last group, which is
    taken for a port. *)
Lemma bare_ipv6_is_split :
  parse_host_port "fe80::1" = Some ("fe80:", 1) ∧ parse_host_port "2001:db8::50" = Some ("2001:db8:", 50) ∧
  parse_host_port "::1" = Some (":", 1).
Proof. by vm_compute. Qed.

(** ** Witnesses *)
Definition demo_simple `{UuidText} : UuidSimple := λ u, compact (uuid_to_string u).
#[local] Existing Instance demo_uuid.
#[local] Existing Instance demo_uuid_laws.
#[local] Existing Instance demo_simple.
Definition two_servers : ServerRegistry :=
  mkServerRegistry [mkServerRegistryEntry 7%N (Some "desk") None None None None None None None [] None;
                    mkServerRegistryEntry 8%N (Some "attic") None None None None None None None ["10.0.0.2"] None].

Lemma identifier_is_never_guessed_witness :
  ∃ e, find_enrolled_server "ATTIC" two_servers = Ok e ∧ e ∈ sr_entries two_servers.
Proof.
  destruct (find_enrolled_server "ATTIC" two_servers) as [e|] eqn:E; [|vm_compute in E; discriminate E].
  exists e. split; [reflexivity|]. exact (proj1 (identifier_is_never_guessed "ATTIC" two_servers e E)).
Defined.

Lemma server_completions_are_accepted_witness :
  ∃ e, find_enrolled_server "10.0.0.2" two_servers = Ok e ∧ e ∈ sr_entries two_servers ∧ designates "10.0.0.2" e.
Proof.
  apply (proj1 (server_completions_are_accepted "10" two_servers)).
  assert ("10.0.0.2" = nth 0 (collect_server_candidates "10" two_servers) "") as -> by (vm_compute; reflexivity).
  vm_compute. constructor.
Defined.
