(* ===== verification/Cli.v ===== *)
(** * The commands of the command-line client (cli/src/main.rs)

    [discover], [list-servers], [info], [list], [sessions], [remove], [config],
    [enroll] and the dynamic completions: what each prints and does to the disk.
    [exec] and [resume] are in [CliSession].  Parsing the command line is [clap]'s. *)

From S2P Require Import Prelude RustStd ThirdParty Net Network Fs Io Config Validation SessionState RelayTokens ClientConfig ClientStorage Discovery ClientRelay ClientConnect ClientEnroll EnrollFlow ClientCommands CliArgs Proto.

Local Open Scope string_scope.
Local Open Scope Z_scope.

(** ** Commands that print *)
(** What leaves the program: [println!], [print!] and [eprintln!] lines, bytes
    written to standard output or error, and messages of a session's client stream. *)
Inductive out :=
  | Outln (s : string)
  | Outp (s : string)
  | Errln (s : string)
  | OutBytes (stderr : bool) (data : bytes)
  | Sent (message : proto.SessionClientMessage).

(** A command takes the disk to a new disk, prints, and returns; [None]: it panics or
    never returns.  Printing lines to the terminal succeeds. *)
Definition cli (A : Type) : Type := World → World * list out * option (result string A).
#[export] Instance cli_ret : MRet cli := λ A a w, (w, [], Some (Ok a)).
#[export] Instance cli_bind : MBind cli := λ A B f m w,
  match m w with
  | (w1, o1, Some (Ok a)) => let '(w2, o2, r) := f a w1 in (w2, (o1 ++ o2)%list, r)
  | (w1, o1, Some (Err e)) => (w1, o1, Some (Err e))
  | (w1, o1, None) => (w1, o1, None)
  end.
Definition cli_io {A} (m : io A) : cli A := λ w, let '(w', r) := m w in (w', [], Some r).
Definition cli_lift {A} (r : result string A) : cli A := λ w, (w, [], Some r).
Definition println (s : string) : cli unit := λ w, (w, [Outln s], Some (Ok tt)).
Definition cli_print (s : string) : cli unit := λ w, (w, [Outp s], Some (Ok tt)).
Definition eprintln (s : string) : cli unit := λ w, (w, [Errln s], Some (Ok tt)).
Definition print_lines (l : list string) : cli unit := λ w, (w, Outln <$> l, Some (Ok tt)).
Definition or_panic {A} (o : option A) : cli A := λ w, (w, [], Ok <$> o).

(** ** Text *)
(** A byte that does not continue a character starts one. *)
Fixpoint char_count (s : string) : nat :=
  match s with
  | EmptyString => O
  | String c s' => if cont c then char_count s' else S (char_count s')
  end.
Fixpoint spaces (n : nat) : string := match n with O => EmptyString | S n => String " " (spaces n) end.
(** [{:<n}] and [{:^n}]. *)
Definition pad_right (n : nat) (s : string) : string := String.append s (spaces (n - char_count s)).
Definition center (n : nat) (s : string) : string :=
  let pad := (n - char_count s)%nat in
  fmt [spaces (pad / 2); s; spaces (pad - pad / 2)].

(** [&s[..n]] panics inside a character. *)
Definition is_char_boundary (n : nat) (s : string) : bool :=
  match String.get n s with
  | Some c => negb (cont c)
  | None => bool_decide (n = String.length s)
  end.
Definition slice_to (n : nat) (s : string) : option string :=
  if is_char_boundary n s then Some (String.substring 0 n s) else None.
Definition ellipsis : string := String "226" (String "128" (String "166" EmptyString)).
Definition tab : string := String "009" EmptyString.

Definition truncate (value : string) (width : nat) : option string :=
  if (String.length value <=? width)%nat then Some value
  else match width with
       | 0%nat => Some ""
       | 1%nat => Some ellipsis
       | _ => s ← slice_to (width - 1) value; Some (String.append s ellipsis)
       end.

Definition short_fingerprint (fingerprint : option string) : option string :=
  match fingerprint with
  | Some fp =>
      if str_is_empty fp then Some "-"
      else if (String.length fp <=? 8)%nat then Some fp
      else s ← slice_to 8 fp; Some (String.append s ellipsis)
  | None => Some "-"
  end.

(** ** Times: nanoseconds since 1970 *)
Definition timestamp_to_datetime (ms : Z) : option Z :=
  let t := ms * 10 ^ 6 in if (ODT_MIN <=? t) && (t <=? ODT_MAX) then Some t else None.

(** [seconds]: the whole seconds of the duration.  Each unit is taken off once. *)
Definition duration_to_brief (seconds : Z) : string :=
  if seconds <=? 0 then "0s"
  else
    let days := seconds / 86400 in
    let '(parts, seconds) := if 0 <? days then ([fmt [pretty days; "d"]], seconds - days * 86400) else ([], seconds) in
    let hours := seconds / 3600 in
    let '(parts, seconds) := if 0 <? hours then ((parts ++ [fmt [pretty hours; "h"]])%list, seconds - hours * 3600)
                             else (parts, seconds) in
    let minutes := seconds / 60 in
    let '(parts, seconds) := if (0 <? minutes) && (length parts <? 2)%nat
                             then ((parts ++ [fmt [pretty minutes; "m"]])%list, seconds - minutes * 60) else (parts, seconds) in
    let parts := if (0 <? seconds) && (length parts <? 2)%nat then (parts ++ [fmt [pretty seconds; "s"]])%list else parts in
    match parts with [] => "0s" | _ => join " " parts end.

Definition format_age (now ms : Z) : string :=
  match timestamp_to_datetime ms with
  | Some created => if created <=? now then duration_to_brief ((now - created) ÷ NANOS) else "0s"
  | None => "n/a"
  end.
Definition format_since (now ms : Z) : string :=
  match timestamp_to_datetime ms with
  | Some timestamp => if timestamp <=? now then fmt [duration_to_brief ((now - timestamp) ÷ NANOS); " ago"] else "in future"
  | None => "n/a"
  end.

Definition format_remaining (total_seconds : Z) : string :=
  if total_seconds <=? 0 then "0s"
  else
    let minutes := total_seconds / 60 in
    let seconds := total_seconds mod 60 in
    if 0 <? minutes then fmt [pretty minutes; "m "; if seconds <? 10 then "0" else ""; pretty seconds; "s"]
    else fmt [pretty seconds; "s"].

(** ** Rows *)
Record DiscoverRow := mkDiscoverRow {
  dr_instance_name : string;
  dr_hostname : string;
  dr_addresses : list string;
  dr_port : Z;
  dr_server_id : option string;
  dr_status : string;
  dr_cert_fingerprint : option string;
  dr_txt_properties : gmap string string;
  dr_fullname : string;
}.
Record RegistryRow := mkRegistryRow {
  rw_server_id : string;
  rw_hostname : option string;
  rw_addresses : list string;
  rw_relay_mode : option string;
  rw_relay_url : option string;
  rw_last_seen : option string;
}.
Record InfoOutput := mkInfoOutput {
  io_server_id : Uuid;
  io_hostname : option string;
  io_version : option string;
  io_os : option string;
  io_address : string;
  io_tls_fingerprint : string;
  io_enrolled : bool;
  io_client_id : option Uuid;
}.
Record CommandsOutput := mkCommandsOutput {
  co_server_id : Uuid;
  co_config_version : Z;
  co_commands : list CommandSummary;
}.

(** [serde_json] and the [time] crate. *)
Class JsonOutput (A : Type) := json_pretty : A → result string string.
Class PayloadJson := {
  (** [from_str::<Value>], [get("valid_until")] and [as_str]. *)
  payload_valid_until : string → option (option (option string));
  odt_display : Z → string;
}.
Definition output_json {A} `{JsonOutput A} (value : A) : cli unit := json ← cli_lift (json_pretty value); println json.

Definition dash (s : option string) : string := default "-" s.
Definition tsv (fields : list string) : string := join tab fields.

Definition collect_display_addresses (entry : ServerRegistryEntry) : list string :=
  let addresses := foldl push_unique [] (sre_addresses entry) in
  let addresses := match sre_ip entry with Some ip => push_unique addresses ip | None => addresses end in
  match sre_hostname entry with Some host => push_unique addresses host | None => addresses end.

Definition output_tsv_discovery (rows : list DiscoverRow) (cfg : ClientConfig) : cli unit :=
  print_lines
    ((if lc_show_headers (cc_cli cfg) then [tsv ["INSTANCE"; "HOSTNAME"; "IP"; "PORT"; "SERVER_ID"; "STATUS"]] else []) ++
     ((λ row, tsv [dr_instance_name row; dr_hostname row; dash (head (dr_addresses row)); pretty (dr_port row);
                   dash (dr_server_id row); dr_status row]) <$> rows))%list.

Definition output_tsv_registry (rows : list RegistryRow) (cfg : ClientConfig) : cli unit :=
  print_lines
    ((if lc_show_headers (cc_cli cfg) then [tsv ["SERVER_ID"; "HOSTNAME"; "ADDRESSES"; "MODE"; "RELAY_URL"; "LAST_SEEN"]] else []) ++
     ((λ row, tsv [rw_server_id row; dash (rw_hostname row);
                   match rw_addresses row with [] => "-" | l => join ", " l end;
                   default "direct-only" (rw_relay_mode row); dash (rw_relay_url row ≫= some_text);
                   dash (rw_last_seen row)]) <$> rows))%list.

(** [{:?}] of the two enumerations. *)
Definition kind_debug (k : CommandKind) : string :=
  match k with
  | CkShellScript => "ShellScript" | CkShellInteractive => "ShellInteractive" | CkFileTransfer => "FileTransfer" | CkUnknown => "Unknown"
  end.
Definition mode_debug (m : CommandSessionMode) : string :=
  match m with
  | CsOneShot => "OneShot" | CsRealtime => "Realtime" | CsUpload => "Upload" | CsDownload => "Download" | CsUnknown => "Unknown"
  end.

Definition print_commands_tsv (commands : list CommandSummary) (cfg : ClientConfig) : cli unit :=
  print_lines
    ((if lc_show_headers (cc_cli cfg) then [tsv ["ID"; "NAME"; "DESCRIPTION"; "TAGS"; "KIND"; "SESSION_MODE"]] else []) ++
     ((λ c, tsv [cu_id c; cu_name c; dash (cu_description c); match cu_tags c with [] => "-" | l => join "," l end;
                 to_ascii_lowercase (kind_debug (cu_kind c)); to_ascii_lowercase (mode_debug (cu_session_mode c))])
        <$> commands))%list.

(** The table of sessions; the clock is read twice per row. *)
Definition table_row (cells : list string) (last : string) : string :=
  fmt (((λ p, String.append (pad_right p.1 p.2) "  ") <$> zip [36; 24; 8; 7; 10; 12]%nat cells) ++ [last])%list.
Definition session_row (clock : nat → Z) (k : nat) (info : ServerSessionInfo) : option string :=
  let capability_display := if str_is_empty (sv_capability_name info) then sv_capability_id info else sv_capability_name info in
  capability ← truncate capability_display 24;
  owner ← short_fingerprint (sv_owner_fingerprint info);
  Some (table_row [sv_session_id info; capability; mode_debug (sv_session_mode info); if sv_attached info then "yes" else "no";
                   owner; format_age (clock (2 * k)%nat) (sv_created_at_ms info)]
          (format_since (clock (2 * k + 1)%nat) (sv_last_activity_ms info))).
Fixpoint print_session_rows (clock : nat → Z) (k : nat) (sessions : list ServerSessionInfo) : cli unit :=
  match sessions with
  | [] => mret tt
  | info :: rest => row ← or_panic (session_row clock k info); _ ← println row; print_session_rows clock (S k) rest
  end.
Definition print_sessions_table (clock : nat → Z) (sessions : list ServerSessionInfo) : cli unit :=
  match sessions with
  | [] => println "No active sessions."
  | _ =>
      _ ← println (table_row ["Session ID"; "Capability"; "Mode"; "Attached"; "Owner"; "Age"] "Last Activity");
      print_session_rows clock 0 sessions
  end.

Definition format_socket_address (address : string) (port : Z) : string :=
  if str_contains_char ":" address && negb (starts_with "[" address) then fmt ["["; address; "]:"; pretty port]
  else fmt [address; ":"; pretty port].

(** ** Deleting a directory *)
Definition under (dir p : string) : bool := bool_decide (p = dir) || starts_with (path_base dir) p.
(** [fs::remove_dir_all] deletes what is under the directory; when it fails the
    paths of [gone] may already have been deleted. *)
Definition remove_paths (gone : string → bool) (fs : FileSystem) : FileSystem :=
  mkFs (filter (λ kv, gone kv.1 = false) (fs_files fs)) (filter (λ d, gone d = false) (fs_dirs fs)).
Definition io_remove_dir_all (gone : string → bool) (p : string) : io unit := λ w,
  if os_ok w && bool_decide (fs_files (w_fs w) !! p = None) then (with_fs (remove_paths (under p) (w_fs w)) w, Ok tt)
  else (with_fs (remove_paths (λ q, under p q && gone q) (w_fs w)) w, Err "failed to remove directory").

Section commands.
Context `{GrpcCrates, ClientRelayCrates, EnrollCrates, PayloadJson, UuidText, UuidSimple, Sha256, HexEncode}.
Context `{!TomlCodec RawClientConfig, !TomlCodec ServerRegistryFile}.
Context `{!JsonOutput (list DiscoverRow), !JsonOutput (list RegistryRow), !JsonOutput InfoOutput, !JsonOutput CommandsOutput,
          !JsonOutput (list ServerSessionInfo), !JsonOutput ClientConfig}.
Context (version : string) (env : ClientEnv).

Definition to_discover_row (registry : ServerRegistry) (server : DiscoveredServer) : DiscoverRow :=
  let status := match ds_server_id server ≫= λ id, find_by_id id registry with
                | Some _ => "enrolled" | None => "available" end in
  mkDiscoverRow (ds_instance_name server) (ds_hostname server) (ds_addresses server) (ds_port server)
    (uuid_to_string <$> ds_server_id server) status (ds_cert_fingerprint server) (ds_txt_properties server) (ds_fullname server).

Definition RegistryRow_from (entry : ServerRegistryEntry) : RegistryRow :=
  let '(relay_mode, relay_url) :=
    match sre_relay entry with
    | None => (None, None)
    | Some relay => (Some (if rr_relay_required relay then "relay-only" else "direct+relay"),
                     if str_is_empty (trim (rr_relay_url relay)) then None else Some (rr_relay_url relay))
    end in
  mkRegistryRow (uuid_to_string (sre_id entry)) (sre_hostname entry) (collect_display_addresses entry) relay_mode relay_url
    (sre_last_seen entry).

Definition wants_json (flag : bool) (cfg : ClientConfig) : bool := flag || eq_ignore_ascii_case (lc_output_format (cc_cli cfg)) "json".

Definition with_timeout (timeout : option Z) (d : DiscoveryConfig) : DiscoveryConfig :=
  match timeout with
  | Some t => mkDiscoveryConfig (dc_auto_discover d) t (dc_prefer_ipv6 d) (dc_include_link_local d)
  | None => d
  end.

Definition run_discover (timeout : option Z) (json : bool) (discover : DiscoveryConfig → result string (list DiscoveredServer)) : cli unit :=
  cfg ← cli_io (load_client_config env);
  registry ← cli_io (registry_load env);
  servers ← cli_lift (discover (with_timeout timeout (cc_discovery cfg)));
  let rows := sort_by (λ a b, str_cmp (dr_instance_name a) (dr_instance_name b)) (to_discover_row registry <$> servers) in
  if wants_json json cfg then output_json rows else output_tsv_discovery rows cfg.

Definition run_list_servers (json : bool) : cli unit :=
  cfg ← cli_io (load_client_config env);
  registry ← cli_io (registry_load env);
  let rows := sort_by (λ a b, str_cmp (rw_server_id a) (rw_server_id b)) (RegistryRow_from <$> sr_entries registry) in
  if wants_json json cfg then output_json rows else output_tsv_registry rows cfg.

Definition print_info_output (info : InfoOutput) : cli unit :=
  print_lines
    [fmt ["Server ID: "; uuid_to_string (io_server_id info)]; fmt ["Hostname: "; dash (io_hostname info)];
     fmt ["Version: "; dash (io_version info)]; fmt ["OS: "; dash (io_os info)]; fmt ["Address: "; io_address info];
     fmt ["TLS Fingerprint: "; io_tls_fingerprint info]; fmt ["Enrolled: "; if io_enrolled info then "yes" else "no"];
     fmt ["Client ID: "; dash (uuid_to_string <$> io_client_id info)]].

Definition run_info (server : string) (address : option string) (port : option Z) (json : bool)
    (discover : DiscoveryConfig → result string (list DiscoveredServer)) (net : string → net_answers)
    (rpc : string → option info_response) : cli unit :=
  cfg ← cli_io (load_client_config env);
  resolved ← cli_lift (resolve_server_targets server address port cfg discover);
  info ← cli_lift (fetch_server_info (rs_addresses resolved) (default 50051 (rs_port resolved)) (rs_server_id_hint resolved) net rpc);
  registry ← cli_io (registry_load env);
  let entry := find_by_id (si_server_id info) registry in
  let output := mkInfoOutput (si_server_id info) (some_text (si_hostname info)) (some_text (si_version info)) (some_text (si_os info))
                  (format_socket_address (si_address info) (si_port_ info)) (si_fingerprint info) (bool_decide (is_Some entry))
                  (entry ≫= sre_client_id) in
  if wants_json json cfg then output_json output else print_info_output output.

(** A command has every requested tag. *)
Definition has_tags (tags : list string) (c : CommandSummary) : bool :=
  forallb (λ tag, existsb (λ t, eq_ignore_ascii_case t tag) (cu_tags c)) (to_ascii_lowercase <$> tags).

Definition run_list_commands (server : string) (tags : list string) (json : bool) (an : registered_answers)
    (rpc : option (list proto.Capability * Z)) : cli unit :=
  cfg ← cli_io (load_client_config env);
  registry ← cli_io (registry_load env);
  entry ← cli_lift (find_enrolled_server server registry);
  fetched ← cli_io (list_commands version env entry an rpc);
  let commands := match tags with [] => cl_commands fetched | _ => filter (λ c, has_tags tags c = true) (cl_commands fetched) end in
  if wants_json json cfg then output_json (mkCommandsOutput (sre_id entry) (cl_config_version fetched) commands)
  else print_commands_tsv commands cfg.

Definition run_sessions (server : string) (json : bool) (an : registered_answers) (rpc : option (list proto.SessionInfo))
    (clock : nat → Z) : cli unit :=
  registry ← cli_io (registry_load env);
  entry ← cli_lift (find_enrolled_server server registry);
  sessions ← cli_io (list_sessions version env entry an rpc);
  let sessions := sort_by (λ a b, sv_created_at_ms a ?= sv_created_at_ms b) sessions in
  if json : bool then output_json sessions else print_sessions_table clock sessions.

Inductive DynamicCompletionTarget := DynServers (prefix : option string) | DynSessions (server : string) (prefix : option string).
Definition run_dynamic_completion (target : DynamicCompletionTarget) (an : registered_answers) (rpc : option (list proto.SessionInfo))
    : cli unit :=
  match target with
  | DynServers prefix =>
      registry ← cli_io (registry_load env);
      print_lines (collect_server_candidates (default "" prefix) registry)
  | DynSessions server prefix =>
      registry ← cli_io (registry_load env);
      entry ← cli_lift (find_enrolled_server server registry);
      sessions ← cli_io (list_sessions version env entry an rpc);
      print_lines (collect_session_candidates sessions (default "" prefix))
  end.

(** *** [remove] *)
Definition certificate_dir_for (entry : ServerRegistryEntry) : io string :=
  match sre_cert_path entry with
  | Some path => mret path
  | None =>
      dir ← client_config_dir env;
      mret (path_join (path_join dir "client-certs") (uuid_to_string (sre_id entry)))
  end.

(** [line]: what is read from the terminal. *)
Definition prompt_removal_confirmation (entry : ServerRegistryEntry) (line : option string) : cli bool :=
  let display_name := match sre_hostname entry, sre_ip entry with Some h, _ => h | None, Some ip => ip | None, None => "unknown" end in
  _ ← cli_print (fmt ["Remove enrollment for "; uuid_to_string (sre_id entry); " ("; display_name; ")? [y/N]: "]);
  input ← cli_lift (ok_or line "failed to read");
  mret (bool_decide (to_ascii_lowercase (trim input) ∈ ["y"; "yes"])).

Definition remove_credentials (gone : string → bool) (entry : ServerRegistryEntry) : cli unit := λ w,
  match certificate_dir_for entry w with
  | (w', Err _) => (w', [], Some (Ok tt))
  | (w', Ok cert_dir) =>
      if fs_exists cert_dir (w_fs w') then
        match io_remove_dir_all gone cert_dir w' with
        | (w'', Ok _) => (w'', [Outln (fmt ["Removed credentials in "; cert_dir])], Some (Ok tt))
        | (w'', Err err) =>
            (w'', [Errln (fmt ["Warning: failed to remove credential directory "; cert_dir; " ("; err; ")"])], Some (Ok tt))
        end
      else (w', [], Some (Ok tt))
  end.

Definition run_remove (server : string) (confirm : bool) (line : option string) (gone : string → bool) : cli unit :=
  registry ← cli_io (registry_load env);
  _ ← cli_lift (bail_if (bool_decide (sr_entries registry = [])) "No enrolled servers to remove");
  entry ← cli_lift (find_enrolled_server server registry);
  proceed ← (if confirm : bool then mret true else prompt_removal_confirmation entry line);
  if negb proceed then println "Aborted"
  else
    let server_id := sre_id entry in
    _ ← cli_io (registry_save env (registry_remove server_id registry));
    _ ← remove_credentials gone entry;
    println (fmt ["Removed enrollment for server "; uuid_to_string server_id]).

(** *** [config] *)
Inductive ConfigCommand := ConfigShow (json : bool) | ConfigPath | ConfigSet (key value : string).
Definition run_config (command : ConfigCommand) : cli unit :=
  match command with
  | ConfigShow json =>
      cfg ← cli_io (load_client_config env);
      if json : bool then output_json cfg
      else toml ← cli_lift (toml_to_string_pretty (ser_client_config cfg)); println toml
  | ConfigPath => path ← cli_io (client_config_path env); println path
  | ConfigSet key value =>
      cfg ← cli_io (load_client_config env);
      cfg' ← cli_lift (set_config_value cfg key value);
      _ ← cli_io (save_client_config env cfg');
      println (fmt ["Updated "; key])
  end.

(** *** [enroll] *)
Definition extract_token_expiry (payload : string) : result string (option Z) :=
  value ← ok_or (payload_valid_until payload) "invalid JSON";
  match value with
  | None => Ok None
  | Some valid_until =>
      raw ← ok_or valid_until "valid_until must be a string";
      expiry ← ok_or (rfc3339_parse raw) "Invalid valid_until timestamp in payload";
      Ok (Some expiry)
  end.

Definition formatted_expiry (expiry : Z) : string := default (odt_display expiry) (rfc3339_format expiry).

Definition announce_expiry (now : Z) (expiry : option Z) : cli unit :=
  match expiry with
  | Some t =>
      if t <=? now then cli_lift (Err (fmt ["Enrollment QR code expired at "; formatted_expiry t]))
      else println (fmt ["QR token expires in "; format_remaining ((t - now) ÷ NANOS); " ("; formatted_expiry t; " UTC)"])
  | None => mret tt
  end.

(** What both enrolments print about the new entry. *)
Definition print_outcome (client_id : option Uuid) (addresses : list string) (port : Z) (relay : option RegistryRelayInfo)
    (cert_directory : string) : cli unit :=
  print_lines
    (match client_id with Some id => [fmt ["Client ID: "; uuid_to_string id]] | None => [] end ++
     match addresses with
     | [] => ["No direct addresses recorded."]
     | [a] => [fmt ["Direct address: "; a; ":"; pretty port]]
     | _ => fmt ["Direct addresses (port "; pretty port; "):"] :: ((λ a, fmt ["  - "; a; ":"; pretty port]) <$> addresses)
     end ++
     match relay with
     | Some r =>
         fmt ["Relay URL: "; rr_relay_url r; " (required: "; if rr_relay_required r then "yes" else "no"; ")"] ::
         (if rr_allow_self_signed_tls r then ["Relay TLS: allowing self-signed certificates"] else [])
     | None => []
     end ++
     [fmt ["Credentials stored in "; cert_directory]])%list.

(** The arguments of [enroll qr]; [read_stdin] is what the terminal yields. *)
Record QrEnrollCommand := mkQrEnrollCommand {
  qe_payload : option string;
  qe_payload_file : option string;
  qe_server_id : option string;
  qe_device_name : option string;
  qe_device_model : option string;
}.
Definition read_payload_from_stdin (stdin : option string) : cli string :=
  _ ← println "Paste enrollment payload JSON, then press Ctrl-D (Unix) or Ctrl-Z (Windows):";
  cli_lift (ok_or stdin "Failed to read payload from stdin").

Definition or_device (explicit : option string) (field : DeviceConfig → option string) (cfg : ClientConfig) : option string :=
  match explicit with Some v => Some v | None => cc_device cfg ≫= field end.

Definition run_enroll_qr (args : QrEnrollCommand) (stdin : option string) (now1 now2 : Z) (an : qr_world) : cli unit :=
  raw ← match qe_payload args, qe_payload_file args with
        | Some raw, None => mret raw
        | None, Some path => cli_io (io_read_to_string path (fmt ["Failed to read payload file "; path]))
        | None, None => read_payload_from_stdin stdin
        | Some _, Some _ => or_panic None
        end;
  let raw_payload := trim raw in
  expiry ← cli_lift (extract_token_expiry raw_payload);
  _ ← announce_expiry now1 expiry;
  override ← cli_lift (match qe_server_id args with
                       | Some id => u ← ok_or (uuid_parse id) "Invalid UUID passed to --server-id"; Ok (Some u)
                       | None => Ok None
                       end);
  cfg ← cli_io (load_client_config env);
  outcome ← cli_io (enroll_via_qr version env
              (mkQrEnrollmentInput raw_payload override (or_device (qe_device_name args) dv_name cfg)
                 (or_device (qe_device_model args) dv_model cfg)) an);
  _ ← println (fmt ["Successfully enrolled to server "; uuid_to_string (qo_server_id outcome)]);
  _ ← print_outcome (qo_client_id outcome) (qo_addresses outcome) (qo_port outcome) (qo_relay outcome) (qo_cert_directory outcome);
  match qo_token_expiry outcome with
  | Some t =>
      println (if now2 <? t then
                 fmt ["Original QR token expires in "; format_remaining ((t - now2) ÷ NANOS); " ("; formatted_expiry t; " UTC)"]
               else fmt ["Original QR token expired at "; formatted_expiry t])
  | None => mret tt
  end.

Definition verification_block (code : string) : list string :=
  let inner_width := Nat.max (String.length code) 7 in
  let border := fmt ["+"; String.concat "" (replicate (inner_width + 4) "-"); "+"] in
  [""; "Verification code"; border; fmt ["|  "; center inner_width code; "  |"]; border;
   "Approve this request on the server to continue..."; ""].

Record ApproveEnrollCommand := mkApproveEnrollCommand {
  ae_server : string;
  ae_address : option string;
  ae_port : option Z;
  ae_timeout : Z;
  ae_poll_interval : Z;
  ae_device_name : option string;
  ae_device_model : option string;
}.

(** The callback prints each code as it comes; [None] of [enroll_via_approval] is a
    poll that goes on. *)
Definition approval_with_codes (input : ApprovalEnrollmentInput) (an : approval_world)
    : cli (option string * ApprovalEnrollmentOutcome) := λ w,
  let '(codes, r) := enroll_via_approval env input an w in
  let printed := Outln <$> (codes ≫= verification_block) in
  match r with
  | Some (w', Ok outcome) => (w', printed, Some (Ok (last codes, outcome)))
  | Some (w', Err e) => (w', printed, Some (Err e))
  | None => (w, printed, None)
  end.

Definition run_enroll_approve (args : ApproveEnrollCommand) (discover : DiscoveryConfig → result string (list DiscoveredServer))
    (an : approval_world) : cli unit :=
  cfg ← cli_io (load_client_config env);
  resolved ← cli_lift (resolve_server_targets (ae_server args) (ae_address args) (ae_port args) cfg discover);
  '(last_code, outcome) ← approval_with_codes
     (mkApprovalEnrollmentInput (rs_addresses resolved) (rs_port resolved) (rs_server_id_hint resolved)
        (or_device (ae_device_name args) dv_name cfg) (or_device (ae_device_model args) dv_model cfg)
        (ae_timeout args * NANOS) (Z.max (ae_poll_interval args) 1 * NANOS)) an;
  _ ← println (fmt ["Enrollment approved for server "; uuid_to_string (ao_server_id outcome)]);
  _ ← print_outcome (ao_client_id outcome) (ao_addresses outcome) (ao_port outcome) (ao_relay outcome) (ao_cert_directory outcome);
  match last_code with
  | Some code => println (fmt ["Verification code confirmed: "; code])
  | None => mret tt
  end.
End commands.

(** ** Reasoning *)
Lemma cli_run {A B} (m : cli A) (f : A → cli B) w w1 o1 a : m w = (w1, o1, Some (Ok a)) →
  (m ≫= f) w = ((f a w1).1.1, (o1 ++ (f a w1).1.2)%list, (f a w1).2).
Proof. intros E. unfold mbind, cli_bind. rewrite E. by destruct (f a w1) as [[]]. Qed.
Lemma cli_run_io {A B} (m : io A) (f : A → cli B) w w1 a : m w = (w1, Ok a) → (cli_io m ≫= f) w = f a w1.
Proof. intros E. rewrite (cli_run _ _ w w1 [] a) by (unfold cli_io; by rewrite E). by destruct (f a w1) as [[]]. Qed.
Lemma cli_run_io_err {A B} (m : io A) (f : A → cli B) w w1 e : m w = (w1, Err e) → (cli_io m ≫= f) w = (w1, [], Some (Err e)).
Proof. intros E. unfold mbind, cli_bind, cli_io. by rewrite E. Qed.
Lemma cli_run_lift {A B} (r : result string A) (f : A → cli B) w a : r = Ok a → (cli_lift r ≫= f) w = f a w.
Proof. intros ->. rewrite (cli_run _ _ w w [] a) by done. by destruct (f a w) as [[]]. Qed.
Lemma cli_run_lift_err {A B} (r : result string A) (f : A → cli B) w e : r = Err e → (cli_lift r ≫= f) w = (w, [], Some (Err e)).
Proof. by intros ->. Qed.

Lemma cli_bind_ok {A B} (m : cli A) (f : A → cli B) w w' o b : (m ≫= f) w = (w', o, Some (Ok b)) ↔
  ∃ w1 o1 o2 a, m w = (w1, o1, Some (Ok a)) ∧ f a w1 = (w', o2, Some (Ok b)) ∧ o = (o1 ++ o2)%list.
Proof.
  unfold mbind, cli_bind. destruct (m w) as [[w1 o1] [[a|e]|]]; [|split; [done|by intros (? & ? & ? & ? & ? & _)]..].
  split.
  - destruct (f a w1) as [[w2 o2] r] eqn:E. intros [= <- <- ->]. eauto 10.
  - intros (w2 & o2 & o3 & a' & [= <- <- <-] & -> & ->). done.
Qed.
Lemma cli_lift_ok {A} (r : result string A) w w' o a : cli_lift r w = (w', o, Some (Ok a)) ↔ w' = w ∧ o = [] ∧ r = Ok a.
Proof. unfold cli_lift. naive_solver. Qed.

(** *** Removing a server *)
Section removing.
Context `{UuidShape, UuidSimple, !TomlCodec ServerRegistryFile, !TomlLaws ServerRegistryFile, !RegistryText}.
Context (env : ClientEnv) (dir : string) (Henv : env_dir env = Some dir).

(** The directory [remove] deletes. *)
Definition cert_dir_of (e : ServerRegistryEntry) : string := default (server_dir dir (sre_id e)) (sre_cert_path e).

Lemma certificate_dir_reliable e w : reliable w →
  ∃ w', certificate_dir_for env e w = (w', Ok (cert_dir_of e)) ∧ reliable w' ∧ fs_files (w_fs w') = fs_files (w_fs w) ∧
    (fs_dirs (w_fs w') = fs_dirs (w_fs w) ∨ fs_dirs (w_fs w') = {[dir]} ∪ fs_dirs (w_fs w)).
Proof.
  intros Hw. unfold certificate_dir_for, cert_dir_of. destruct (sre_cert_path e); [exists w; auto|].
  destruct (client_config_dir_reliable env dir w Henv Hw) as (w' & E & Hf & Hr & Hd & _). exists w'.
  rewrite (io_run _ _ _ _ _ E). auto.
Qed.

Lemma loaded_on_disk fs r : registry_on_disk dir fs = Some r → loaded r = r.
Proof.
  unfold registry_on_disk. destruct (negb _); [by intros [= <-]|]. intros (text & _ & Hr)%bind_Some.
  destruct (str_is_empty _); [by injection Hr as <-|]. destruct (toml_from_str text) as [file|]; [injection Hr as <-|done].
  unfold loaded. cbn. f_equal. rewrite <-list_fmap_compose. apply list_fmap_ext. intros ? e _. cbn.
  apply loaded_entry_id, loaded_entry_filled.
Qed.

Lemma loaded_remove id r : loaded r = r → loaded (registry_remove id r) = registry_remove id r.
Proof.
  destruct r as [l]. unfold loaded, registry_remove. cbn. intros [= Hl]. f_equal.
  assert (∀ e, e ∈ l → loaded_entry e = e) as He.
  { intros e (i & Hi)%list_elem_of_lookup. pose proof (f_equal (lookup i) Hl) as Hx. rewrite list_lookup_fmap, Hi in Hx. by injection Hx. }
  rewrite <-(list_fmap_id (filter _ l)) at 2. apply list_fmap_ext. intros i e Hi.
  apply He. apply list_elem_of_lookup_2, list_elem_of_filter in Hi. by destruct Hi.
Qed.

Lemma keeps_there_registry q : keeps (on_fs (there q)) (registry_load env) ∧ ∀ r, keeps (on_fs (there q)) (registry_save env r).
Proof.
  assert (keeps (on_fs (there q)) (registry_path env)) as Hp.
  { apply keeps_bind; [|eauto with io]. unfold client_config_dir. destruct (ce_config_dir_var env) as [d|]; [destruct (str_is_empty d)|]; eauto 8 with io. }
  split; [|intros r].
  - apply keeps_bind; [done|]. intros p. apply keeps_bind; [eauto with io|]. intros []; cbn [negb]; [|eauto with io].
    apply keeps_bind; [eauto with io|]. intros s. destruct (str_is_empty (trim s)); eauto with io.
  - apply keeps_bind; [done|]. intros p. cbv zeta. apply keeps_bind; eauto with io.
Qed.

Lemma remove_paths_files gone fs q : fs_files (remove_paths gone fs) !! q = if gone q then None else fs_files fs !! q.
Proof.
  unfold remove_paths. cbn. rewrite map_lookup_filter. destruct (fs_files fs !! q) as [b|]; cbn; [|by destruct (gone q)].
  destruct (gone q) eqn:Hg; case_guard; by cbn in *; try congruence.
Qed.

Lemma remove_credentials_reliable gone e w : reliable w → there (cert_dir_of e) (w_fs w) → fs_files (w_fs w) !! cert_dir_of e = None →
  ∃ w' o, remove_credentials env gone e w = (w', o, Some (Ok tt)) ∧
    (∀ q, fs_files (w_fs w') !! q = if under (cert_dir_of e) q then None else fs_files (w_fs w) !! q) ∧
    (∀ q, q ≠ dir → under (cert_dir_of e) q = false → q ∈ fs_dirs (w_fs w') ↔ q ∈ fs_dirs (w_fs w)).
Proof.
  intros Hw Hth Hnf. destruct (certificate_dir_reliable e w Hw) as (w1 & E & Hr & Hf & Hd). unfold remove_credentials. rewrite E.
  assert (fs_exists (cert_dir_of e) (w_fs w1) = true) as ->.
  { unfold there in Hth. rewrite fs_exists_spec in *. rewrite Hf. destruct Hth as [?|?]; [by left|right].
    destruct Hd as [-> | ->]; set_solver. }
  unfold io_remove_dir_all. rewrite reliable_ok, Hf, Hnf by done. cbn [andb bool_decide]. eexists _, _. split; [reflexivity|]. split; intros q.
  - cbn [with_fs w_fs]. rewrite remove_paths_files. by rewrite Hf.
  - intros Hq Hu. cbn. rewrite elem_of_filter. destruct Hd as [-> | ->]; set_solver.
Qed.

(** [remove --confirm] forgets one server and nothing else.  On a disk without
    errors, when the argument designates [e], the command succeeds, the registry on
    the disk is the old one without the server's id, and no file is left under its
    credential directory; every file outside that directory, the registry apart, is
    as before. *)
Lemma remove_forgets_only_that_server server r e gone w :
  reliable w → registry_on_disk dir (w_fs w) = Some r → find_enrolled_server server r = Ok e →
  there (cert_dir_of e) (w_fs w) → fs_files (w_fs w) !! cert_dir_of e = None →
  under (cert_dir_of e) (path_join dir REGISTRY_FILE_NAME) = false →
  ∃ w' o, run_remove env server true None gone w = (w', o, Some (Ok tt)) ∧
    registry_on_disk dir (w_fs w') = Some (registry_remove (sre_id e) r) ∧
    registry_map (registry_remove (sre_id e) r) = delete (sre_id e) (registry_map r) ∧
    (∀ q, under (cert_dir_of e) q = true → fs_files (w_fs w') !! q = None) ∧
    (∀ q, under (cert_dir_of e) q = false → q ≠ path_join dir REGISTRY_FILE_NAME →
       fs_files (w_fs w') !! q = fs_files (w_fs w) !! q).
Proof.
  intros Hw Hd Hf Hth Hnf Hu. set (reg := path_join dir REGISTRY_FILE_NAME) in *.
  destruct (keeps_there_registry (cert_dir_of e)) as [Hkl Hks].
  destruct (registry_load_on_disk env dir w r Henv Hw Hd) as (w1 & E1 & Hf1 & Hr1).
  pose proof (Hkl w Hth) as Ht1. rewrite E1 in Ht1. cbn in Ht1.
  destruct (registry_save_reliable env dir w1 (registry_remove (sre_id e) r) Henv Hr1) as (w2 & E2 & Hr2 & Hd2 & Hf2).
  pose proof (Hks (registry_remove (sre_id e) r) w1 Ht1) as Ht2. rewrite E2 in Ht2. cbn in Ht2.
  assert (cert_dir_of e ≠ reg) as Hne.
  { intros Heq. unfold under in Hu. apply orb_false_iff in Hu as [Hu _]. by apply bool_decide_eq_false in Hu. }
  destruct (remove_credentials_reliable gone e w2 Hr2 Ht2) as (w3 & o & E3 & Hf3 & Hd3);
    [by rewrite Hf2, Hf1 by done|].
  exists w3. eexists. split.
  { unfold run_remove. rewrite (cli_run_io _ _ _ _ _ E1). rewrite (cli_run_lift _ _ _ tt).
    2:{ destruct (sr_entries r) eqn:El; [|done]. exfalso. apply identifier_is_found in Hf. rewrite El in Hf. by apply not_elem_of_nil in Hf. }
    rewrite (cli_run_lift _ _ _ e) by done. rewrite (cli_run _ _ w1 w1 [] true) by done. cbn [negb].
    rewrite (cli_run_io _ _ _ _ _ E2), (cli_run _ _ _ _ _ _ E3). reflexivity. }
  split.
  { rewrite <-(loaded_remove _ _ (loaded_on_disk _ _ Hd)), <-Hd2. apply registry_on_disk_frame; fold reg; [by rewrite Hf3, Hu|].
    apply Hd3; [|done]. apply (below_dir _ _ _ (below_registry dir)). }
  split; [apply remove_map|]. split; intros q Hq; [by rewrite Hf3, Hq|]. intros Hqr. rewrite Hf3, Hq, Hf2, Hf1 by done. done.
Qed.
End removing.

(** *** Changing the configuration *)
(** The first part of the key names the section that may change. *)
Definition changes_only (section : string) (c c' : ClientConfig) : Prop :=
  (section ≠ "discovery" → cc_discovery c' = cc_discovery c) ∧
  (section ≠ "connection" → cc_connection c' = cc_connection c) ∧
  (section ≠ "network" → cc_network_relay c' = cc_network_relay c) ∧
  (section ≠ "tui" → cc_tui c' = cc_tui c) ∧
  (section ≠ "cli" → cc_cli c' = cc_cli c) ∧
  (section ≠ "device" → cc_device c' = cc_device c) ∧
  lc_jiggle_resize_on_resume (cc_cli c') = lc_jiggle_resize_on_resume (cc_cli c).

Lemma set_config_value_section c key value c' :
  set_config_value c key value = Ok c' → ∃ s l, split "." key = s :: l ∧ changes_only s c c'.
Proof.
  unfold set_config_value. destruct (config_setter _ _ _ _) as [r|] eqn:E; [intros ->|done].
  unfold config_setter in E. revert E.
  repeat (case_bool_decide as Hk; [rewrite Hk; intros E; eexists _, _; split; [reflexivity|];
    (injection E as E; try (apply result_bind_ok in E as (v & _ & E); injection E as E); subst c'; by repeat split)|clear Hk]).
  done.
Qed.

Class ConfigText `{TomlCodec RawClientConfig} := config_text : ∀ c : ClientConfig,
  ∃ s, toml_to_string_pretty (ser_client_config c) = Ok s ∧ str_is_empty (trim s) = false.

Section configuring.
Context `{TomlLaws RawClientConfig, !ConfigText, !JsonOutput ClientConfig}.
Context (env : ClientEnv) (dir : string) (Henv : env_dir env = Some dir).

Lemma load_config_frame w : reliable w →
  reliable (load_client_config env w).1 ∧ fs_files (w_fs (load_client_config env w).1) = fs_files (w_fs w).
Proof.
  intros Hw. assert (∀ P : World → Prop, (∀ p e, keeps P (io_create_dir_all p e)) → (∀ p e, keeps P (io_read_to_string p e)) →
    keeps P (load_client_config env)) as Hk.
  { intros P Hc Hr. unfold load_client_config, client_config_path, client_config_dir.
    apply keeps_bind; [apply keeps_bind; [|eauto with io]|intros p].
    { destruct (ce_config_dir_var env) as [d|]; [destruct (str_is_empty d)|]; eauto 8 with io. }
    apply keeps_bind; [eauto with io|]. intros []; cbn [negb]; [|eauto with io].
    apply keeps_bind; [eauto with io|]. intros s. destruct (str_is_empty (trim s)); eauto with io. }
  split; [by apply (Hk reliable); eauto with io|]. apply (Hk (λ w', fs_files (w_fs w') = fs_files (w_fs w))); [|by intros ? ? ?|done].
  intros p e w' Hw'. unfold io_create_dir_all. by destruct (os_ok w').
Qed.

Lemma save_config_reliable c w : reliable w → ∃ w', save_client_config env c w = (w', Ok tt).
Proof.
  intros Hw. destruct (client_config_path_reliable env dir w Henv Hw) as (w1 & E & _ & Hr). destruct (config_text c) as (s & Hs & _).
  unfold save_client_config. rewrite (io_run _ _ _ _ _ E), (io_run_lift _ _ _ s) by by rewrite Hs.
  edestruct io_write_reliable as (w2 & E2 & _); [exact Hr|]. exists w2. exact E2.
Qed.

(** [config set] takes effect for every later command, or changes nothing.  On
    a disk without errors the command reports success exactly when the key and the
    value are accepted; then the configuration every later [load] returns is the old
    one with that value, and only the section the key names has changed.  Otherwise
    it reports the error and every file is as before. *)
Lemma config_set_is_lasting key value w w0 cfg :
  reliable w → load_client_config env w = (w0, Ok cfg) →
  match set_config_value cfg key value with
  | Ok cfg' =>
      ∃ w1 w2, run_config env (ConfigSet key value) w = (w1, [Outln (fmt ["Updated "; key])], Some (Ok tt)) ∧
        load_client_config env w1 = (w2, Ok cfg') ∧
        ∃ s l, split "." key = s :: l ∧ changes_only s cfg cfg'
  | Err e =>
      run_config env (ConfigSet key value) w = (w0, [], Some (Err e)) ∧ fs_files (w_fs w0) = fs_files (w_fs w)
  end.
Proof.
  intros Hw E. pose proof (load_config_frame w Hw) as [Hr Hf]. rewrite E in Hr, Hf. cbn in Hr, Hf.
  destruct (set_config_value cfg key value) as [cfg'|e] eqn:Es; cbn [run_config]; rewrite (cli_run_io _ _ _ _ _ E).
  - rewrite (cli_run_lift _ _ _ cfg') by done. destruct (save_config_reliable cfg' w0 Hr) as (w1 & E1).
    rewrite (cli_run_io _ _ _ _ _ E1). destruct (client_config_roundtrip env dir cfg' w0 w1 Henv Hr E1) as (w2 & E2).
    { intros s Hs. destruct (config_text cfg') as (s' & Hs' & Hb). congruence. }
    exists w1, w2. split_and!; [done..|]. by apply (set_config_value_section cfg key value).
  - by rewrite (cli_run_lift_err _ _ _ e).
Qed.
End configuring.

(** *** Details *)
(** An expired QR code is refused before anything is read, written or sent. *)
Lemma expired_qr_is_refused `{GrpcCrates, ClientRelayCrates, EnrollCrates, PayloadJson, UuidText, Sha256, HexEncode,
    !TomlCodec RawClientConfig, !TomlCodec ServerRegistryFile} version env raw id name model stdin now1 now2 an w t :
  extract_token_expiry (trim raw) = Ok (Some t) → t ≤ now1 →
  run_enroll_qr version env (mkQrEnrollCommand (Some raw) None id name model) stdin now1 now2 an w =
    (w, [], Some (Err (fmt ["Enrollment QR code expired at "; formatted_expiry t]))).
Proof.
  intros Ht Hle. unfold run_enroll_qr. cbn [qe_payload qe_payload_file]. rewrite (cli_run _ _ w w [] raw) by done.
  rewrite (cli_run_lift _ _ _ (Some t)) by done. unfold announce_expiry. rewrite (proj2 (Z.leb_le t now1) Hle).
  by rewrite (cli_run_lift_err _ _ _ (fmt ["Enrollment QR code expired at "; formatted_expiry t])).
Qed.

(** A capability name of more than 24 bytes with a character across byte 23 makes
    [sessions] panic after the heading: twenty-two letters and an umlaut here. *)
Lemma sessions_table_can_panic clock w :
  let name := String.append "abcdefghijklmnopqrstuv" (String "195" (String "164" "xy")) in
  let info := mkServerSessionInfo "s" "c" name CsRealtime None 0 0 None false "" 0 0 0 in
  utf8_valid name = true ∧ (print_sessions_table clock [info] w).2 = None.
Proof. by vm_compute. Qed.

(** ** Witnesses *)
#[local] Existing Instance demo_uuid.
#[local] Existing Instance demo_uuid_shape.
#[local] Existing Instance demo_registry_codec.
#[local] Existing Instance demo_registry_laws.
#[local] Existing Instance demo_simple.
#[local] Existing Instance demo_registry_text.

Definition demo_enrolment : ServerRegistryEntry :=
  mkServerRegistryEntry 7%N (Some "desk") (Some "10.0.0.1") None None None (Some 9%N) None (Some "/cfg/client-certs/7") ["10.0.0.1"] None.
Definition demo_other : ServerRegistryEntry :=
  mkServerRegistryEntry 8%N (Some "attic") (Some "10.0.0.2") None None None (Some 9%N) None None ["10.0.0.2"] None.
Definition demo_registry : ServerRegistry := mkServerRegistry [demo_enrolment; demo_other].
Definition credentials_world : World :=
  mkWorld (mkFs {["/cfg/client-certs/7/client.key" := [x02]; "/cfg/client-certs/8/client.key" := [x03]]} {["/cfg/client-certs/7"]})
    ∅ MODE_CERT (λ _, WOk) 0.

(** The registry is saved, then a server is removed by its name. *)
Lemma remove_forgets_only_that_server_witness :
  ∃ w w' o, registry_save demo_env demo_registry credentials_world = (w, Ok tt) ∧
    run_remove demo_env "DESK" true None (λ _, false) w = (w', o, Some (Ok tt)) ∧
    registry_on_disk "/cfg" (w_fs w') = Some (mkServerRegistry [demo_other]) ∧
    fs_files (w_fs w') !! "/cfg/client-certs/7/client.key" = None ∧
    fs_files (w_fs w') !! "/cfg/client-certs/8/client.key" = Some [x03].
Proof.
  assert (reliable credentials_world) as Hr0 by (intros k _; reflexivity).
  destruct (registry_save_reliable demo_env "/cfg" credentials_world demo_registry eq_refl Hr0) as (w & E & Hr & Hd & Hf).
  assert (there "/cfg/client-certs/7" (w_fs w)) as Hth.
  { pose proof (proj2 (keeps_there_registry demo_env "/cfg/client-certs/7") demo_registry credentials_world) as Hk.
    rewrite E in Hk. apply Hk. vm_compute. reflexivity. }
  destruct (remove_forgets_only_that_server demo_env "/cfg" eq_refl "DESK" demo_registry demo_enrolment (λ _, false) w)
    as (w' & o & E' & Hd' & _ & Hgone & Hkept).
  - exact Hr.
  - exact Hd.
  - vm_compute. reflexivity.
  - exact Hth.
  - rewrite Hf by (vm_compute; congruence). vm_compute. reflexivity.
  - vm_compute. reflexivity.
  - exists w, w', o. split; [exact E|]. split; [exact E'|]. split; [exact Hd'|]. split; [apply Hgone; vm_compute; reflexivity|].
    rewrite Hkept by (vm_compute; congruence). rewrite Hf by (vm_compute; congruence). vm_compute. reflexivity.
Defined.

(** The configuration file as text. *)
#[local] Instance RawRelayBehavior_eq_dec : EqDecision RawRelayBehavior.
Proof. solve_decision. Defined.
#[local] Instance RawDiscovery_eq_dec : EqDecision RawDiscovery.
Proof. solve_decision. Defined.
#[local] Instance RawConnection_eq_dec : EqDecision RawConnection.
Proof. solve_decision. Defined.
#[local] Instance RawTui_eq_dec : EqDecision RawTui.
Proof. solve_decision. Defined.
#[local] Instance RawCli_eq_dec : EqDecision RawCli.
Proof. solve_decision. Defined.
#[local] Instance DeviceConfig_eq_dec : EqDecision DeviceConfig.
Proof. solve_decision. Defined.
#[local] Instance RawClientConfig_eq_dec : EqDecision RawClientConfig.
Proof. solve_decision. Defined.
#[local] Program Instance RawRelayBehavior_countable : Countable RawRelayBehavior := inj_countable'
  (λ r, (rrb_prefer_relay r, rrb_relay_only_mode r, rrb_max_direct_attempts r)) (λ '(a, b, c), mkRawRelayBehavior a b c) _.
Next Obligation. by intros []. Qed.
#[local] Program Instance RawDiscovery_countable : Countable RawDiscovery := inj_countable'
  (λ r, (rdc_auto_discover r, rdc_timeout_seconds r, rdc_prefer_ipv6 r, rdc_include_link_local r))
  (λ '(a, b, c, d), mkRawDiscovery a b c d) _.
Next Obligation. by intros []. Qed.
#[local] Program Instance RawConnection_countable : Countable RawConnection := inj_countable'
  (λ r, (rcx_timeout_seconds r, rcx_command_timeout_seconds r, rcx_retry_attempts r, rcx_retry_delay_ms r))
  (λ '(a, b, c, d), mkRawConnection a b c d) _.
Next Obligation. by intros []. Qed.
#[local] Program Instance RawTui_countable : Countable RawTui := inj_countable'
  (λ r, (rtc_show_timestamps r, rtc_color_scheme r, rtc_auto_scroll r, rtc_confirm_commands r))
  (λ '(a, b, c, d), mkRawTui a b c d) _.
Next Obligation. by intros []. Qed.
#[local] Program Instance RawCli_countable : Countable RawCli := inj_countable'
  (λ r, (rlc_output_format r, rlc_show_headers r, rlc_color_output r, rlc_jiggle_resize_on_resume r))
  (λ '(a, b, c, d), mkRawCli a b c d) _.
Next Obligation. by intros []. Qed.
#[local] Program Instance DeviceConfig_countable : Countable DeviceConfig := inj_countable'
  (λ d, (dv_name d, dv_model d)) (λ '(a, b), mkDeviceConfig a b) _.
Next Obligation. by intros []. Qed.
#[local] Program Instance RawClientConfig_countable : Countable RawClientConfig := inj_countable'
  (λ r, (Some (rcc_discovery r), rcc_connection r, rcc_network r, rcc_tui r, rcc_cli r, rcc_device r))
  (λ '(a, b, c, d, e, f), mkRawClientConfig (default None a) b c d e f) _.
Next Obligation. by intros []. Qed.
#[local] Instance demo_config_codec : TomlCodec RawClientConfig := {|
  toml_to_string_pretty c := Ok (String.append "1" (bits_of_pos (encode c)));
  toml_from_str s := ok_or (strip_prefix "1" s ≫= λ t, decode (pos_of_bits t)) "invalid" |}.
#[local] Instance demo_config_laws : TomlLaws RawClientConfig.
Proof.
  intros a s [= <-]. split; [|exact (bits_of_pos_utf8 _)].
  unfold toml_from_str, demo_config_codec. rewrite (proj2 (strip_prefix_Some "1" _ _) eq_refl).
  cbn [mbind option_bind]. by rewrite pos_of_bits_of_pos, decode_encode.
Qed.
#[local] Instance demo_config_text : ConfigText.
Proof.
  intros c. eexists. split; [reflexivity|]. rewrite trim_visible; [done|]. cbn. apply bits_visible.
Qed.
#[local] Instance demo_config_json : JsonOutput ClientConfig := λ _, Err "".

Lemma config_set_is_lasting_witness :
  ∃ w1 w2, (run_config demo_env (ConfigSet "discovery.timeout_seconds" " 30") demo_world).1.1 = w1 ∧
    load_client_config demo_env w1 =
      (w2, Ok (set_discovery (mkDiscoveryConfig true 30 true false) ClientConfig_default)).
Proof.
  destruct (config_set_is_lasting demo_env "/cfg" eq_refl "discovery.timeout_seconds" " 30" demo_world
    (load_client_config demo_env demo_world).1 ClientConfig_default) as (w1 & w2 & E & E' & _).
  - intros k _. reflexivity.
  - vm_compute. reflexivity.
  - exists w1, w2. rewrite E. split; [reflexivity|exact E'].
Defined.
