(* ===== verification/CliCompletion.v ===== *)
(** * Shell completion of the command-line client (cli/src/main.rs)

    The completion scripts the client generates, and the bash function in them: which
    words it asks the client for, and what it hands to [compgen].  The scripts are
    written with single quotes here, which [dq] turns into double quotes: they contain
    no single quote of their own. *)

From S2P Require Import Prelude RustStd ThirdParty Net Network Fs Io Config Validation SessionState RelayTokens ClientConfig ClientStorage Discovery ClientRelay RelayEnds ClientConnect ClientEnroll EnrollFlow ClientCommands CliArgs Proto Cli.

Local Open Scope string_scope.
Local Open Scope Z_scope.

Fixpoint dq (s : string) : string :=
  match s with EmptyString => EmptyString | String c s' => String (if bool_decide (c = "'"%char) then "034"%char else c) (dq s') end.
Definition nl : ascii := "010".

(** ** The generated scripts *)
Definition BASH_MARK : string := String nl "# HandControl dynamic completion helpers".
Definition BASH_HELPERS : string := dq "
# HandControl dynamic completion helpers
__handcontrol_cli_collect_servers() {
    local prefix='${1-}'
    HANDCONTROL_CLI_SUPPRESS_COMPLETION=1 handcontrol-cli completions dynamic servers '${prefix}'
}

__handcontrol_cli_collect_sessions() {
    local server='$1'
    local prefix='${2-}'
    if [[ -z '$server' ]]; then
        return
    fi
    HANDCONTROL_CLI_SUPPRESS_COMPLETION=1 handcontrol-cli completions dynamic sessions '${server}' '${prefix}'
}

__handcontrol_cli_complete_dynamic() {
    local cur prev
    cur='${COMP_WORDS[COMP_CWORD]}'
    prev=''
    if (( COMP_CWORD > 0 )); then
        prev='${COMP_WORDS[COMP_CWORD-1]}'
    fi

    if [[ '$cur' == -* || '$prev' == -* ]]; then
        _handcontrol-cli
        return
    fi

    local primary=''
    local secondary=''
    local server_arg=''
    local positional_after_primary=0
    for ((i=1; i<COMP_CWORD; ++i)); do
        local word='${COMP_WORDS[i]}'
        if [[ '$word' == -* ]]; then
            continue
        fi
        if [[ -z '$primary' ]]; then
            primary='$word'
            continue
        fi
        if [[ '$primary' == 'enroll' && -z '$secondary' ]]; then
            secondary='$word'
            continue
        fi
        if [[ -z '$server_arg' ]]; then
            server_arg='$word'
            positional_after_primary=1
            continue
        fi
        positional_after_primary=2
        break
    done

    case '$primary' in
        info|list|exec|sessions|remove)
            if [[ -z '$server_arg' ]]; then
                local suggestions
                suggestions=$(__handcontrol_cli_collect_servers '$cur' 2>/dev/null)
                if [[ -n '$suggestions' ]]; then
                    COMPREPLY=($(compgen -W '$suggestions' -- '$cur'))
                    return
                fi
            fi
            ;;
        resume)
            if [[ -z '$server_arg' ]]; then
                local suggestions
                suggestions=$(__handcontrol_cli_collect_servers '$cur' 2>/dev/null)
                if [[ -n '$suggestions' ]]; then
                    COMPREPLY=($(compgen -W '$suggestions' -- '$cur'))
                    return
                fi
            elif (( positional_after_primary == 1 )); then
                local server='$server_arg'
                local suggestions
                suggestions=$(__handcontrol_cli_collect_sessions '$server' '$cur' 2>/dev/null)
                if [[ -n '$suggestions' ]]; then
                    COMPREPLY=($(compgen -W '$suggestions' -- '$cur'))
                    return
                fi
            fi
            ;;
        enroll)
            if [[ '$secondary' == 'approve' && -z '$server_arg' ]]; then
                local suggestions
                suggestions=$(__handcontrol_cli_collect_servers '$cur' 2>/dev/null)
                if [[ -n '$suggestions' ]]; then
                    COMPREPLY=($(compgen -W '$suggestions' -- '$cur'))
                    return
                fi
            fi
            ;;
    esac

    _handcontrol-cli
}
complete -F __handcontrol_cli_complete_dynamic -o nosort -o bashdefault -o default handcontrol-cli
".

Definition ZSH_MARK : string := String nl "_handcontrol_cli_servers()".
Definition ZSH_HELPERS : string := dq "
_handcontrol_cli_servers() {
    local -a suggestions
    local prefix='$words[CURRENT]'
    suggestions=(${(f)'$(HANDCONTROL_CLI_SUPPRESS_COMPLETION=1 handcontrol-cli completions dynamic servers \'$prefix\' 2>/dev/null)'})
    compadd -Q -- '${suggestions[@]}'
}

_handcontrol_cli_sessions() {
    local server='$words[3]'
    local prefix='$words[CURRENT]'
    if [[ -z '$server' ]]; then
        return
    fi
    local -a suggestions
    suggestions=(${(f)'$(HANDCONTROL_CLI_SUPPRESS_COMPLETION=1 handcontrol-cli completions dynamic sessions \'$server\' \'$prefix\' 2>/dev/null)'})
    compadd -Q -- '${suggestions[@]}'
}
".

(** [find] and [truncate]: what is before the first occurrence. *)
Fixpoint cut_before (pat s : string) : string :=
  if starts_with pat s then EmptyString
  else match s with EmptyString => EmptyString | String c s' => String c (cut_before pat s') end.
Fixpoint ends_with_newline (s : string) : bool :=
  match s with EmptyString => false | String c EmptyString => bool_decide (c = nl) | String _ s' => ends_with_newline s' end.
Definition end_line (s : string) : string := if ends_with_newline s then s else String.append s (String nl EmptyString).

Definition enhance_bash_completion (script : string) : string :=
  String.append (end_line (cut_before BASH_MARK script)) BASH_HELPERS.

(** Replacing a pattern that does not occur changes nothing. *)
Definition enhance_zsh_completion (script : string) : string :=
  let script := end_line (cut_before ZSH_MARK script) in
  let server_patterns :=
    [":server -- Server identifier (UUID, instance name, or hostname):_default";
     ":server -- Server identifier (UUID, hostname, or alias):_default"] in
  let script := foldl (λ s p, str_replace s p (str_replace p "_default" "_handcontrol_cli_servers")) script server_patterns in
  let script := str_replace script ":session-id -- Session identifier (UUID):_default"
                  ":session-id -- Session identifier (UUID):_handcontrol_cli_sessions" in
  String.append script ZSH_HELPERS.
Definition enhance_fish_completion (script : string) : string := script.

Inductive Shell := Bash | Elvish | Fish | PowerShell | Zsh.
(** [clap_complete::generate] for the command line of the client. *)
Class ClapGenerate := clap_generate : Shell → bytes.

Section generate.
Context `{ClapGenerate}.

(** [File::create] and [write_all]: with a context each. *)
Definition write_script (path script : string) : io unit := λ w,
  let step := match os_answer w with WErr (Some _) => "write" | _ => "create" end in
  io_write path (to_bytes script) (fmt ["Failed to "; step; " completion file "; path]) w.

Definition generate_completion_script (shell : Shell) (output : option string) : cli unit :=
  let buffer := String.string_of_list_byte (clap_generate shell) in
  script ← cli_lift (if utf8_valid buffer then Ok buffer else Err "Generated completion script was not UTF-8");
  let script :=
    match shell with
    | Bash => enhance_bash_completion script
    | Zsh => enhance_zsh_completion script
    | Fish => enhance_fish_completion script
    | _ => script
    end in
  match output with
  | Some path => cli_io (write_script path script)
  | None => λ w, (w, [OutBytes false (to_bytes script)], Some (Ok tt))
  end.
End generate.

(** ** The bash function *)
(** The words before the cursor. *)
Record scanned := mkScanned { sn_primary : string; sn_secondary : string; sn_server_arg : string; sn_positional : nat }.
Fixpoint scan (words : list string) (s : scanned) : scanned :=
  match words with
  | [] => s
  | word :: rest =>
      if starts_with "-" word then scan rest s
      else if str_is_empty (sn_primary s) then scan rest (mkScanned word (sn_secondary s) (sn_server_arg s) (sn_positional s))
      else if bool_decide (sn_primary s = "enroll") && str_is_empty (sn_secondary s) then
        scan rest (mkScanned (sn_primary s) word (sn_server_arg s) (sn_positional s))
      else if str_is_empty (sn_server_arg s) then scan rest (mkScanned (sn_primary s) (sn_secondary s) word 1)
      else mkScanned (sn_primary s) (sn_secondary s) (sn_server_arg s) 2
  end.

(** [Static]: the function of clap; [Offer wordlist cur]: [compgen -W wordlist -- cur]. *)
Inductive reply := Static | Offer (wordlist cur : string).
Definition offer (suggestions cur : string) : reply := if str_is_empty suggestions then Static else Offer suggestions cur.

(** [COMP_WORDS] and [COMP_CWORD]; [servers] and [sessions] are what the client prints,
    as a command substitution returns it. *)
Definition complete_dynamic (servers : string → string) (sessions : string → string → string) (words : list string) (cword : nat) : reply :=
  let word i := default "" (words !! i) in
  let cur := word cword in
  let prev := if (0 <? cword)%nat then word (cword - 1)%nat else "" in
  if starts_with "-" cur || starts_with "-" prev then Static
  else
    let s := scan (word <$> seq 1 (cword - 1)) (mkScanned "" "" "" 0) in
    let no_server := str_is_empty (sn_server_arg s) in
    if bool_decide (sn_primary s ∈ ["info"; "list"; "exec"; "sessions"; "remove"]) then
      if no_server then offer (servers cur) cur else Static
    else if bool_decide (sn_primary s = "resume") then
      if no_server then offer (servers cur) cur
      else if (sn_positional s =? 1)%nat then offer (sessions (sn_server_arg s) cur) cur
      else Static
    else if bool_decide (sn_primary s = "enroll") then
      if bool_decide (sn_secondary s = "approve") && no_server then offer (servers cur) cur else Static
    else Static.

(** [$(...)] drops the newlines at the end. *)
Fixpoint drop_newlines (s : string) : string :=
  match s with
  | EmptyString => EmptyString
  | String c s' =>
      let r := drop_newlines s' in
      if bool_decide (c = nl) && str_is_empty r then EmptyString else String c r
  end.
Definition printed (o : list out) : string :=
  String.concat "" (omap (λ x, match x with Outln s => Some (String.append s (String nl EmptyString)) | Outp s => Some s | _ => None end) o).
Definition substituted (o : list out) : string := drop_newlines (printed o).

(** The words [compgen -W] expands: the list is split at blanks, tabs and newlines, and
    each word undergoes the shell's expansions, command substitution among them.  Here
    for lists without quotes and backslashes. *)
Definition is_ifs (c : ascii) : bool := bool_decide (c ∈ [" "%char; "009"%char; nl]).
Fixpoint ifs_words (s : string) : string * list string :=
  match s with
  | EmptyString => (EmptyString, [])
  | String c s' =>
      let '(w, ws) := ifs_words s' in
      if is_ifs c then (EmptyString, if str_is_empty w then ws else w :: ws) else (String c w, ws)
  end.
Definition expanded_words (wordlist : string) : list string :=
  let '(w, ws) := ifs_words wordlist in if str_is_empty w then ws else w :: ws.

(** ** Generating a script twice *)
Lemma starts_with_cons c pat d s : starts_with (String c pat) (String d s) = bool_decide (c = d) && starts_with pat s.
Proof. unfold starts_with. cbn. destruct (ascii_dec c d); [by rewrite bool_decide_true|by rewrite bool_decide_false]. Qed.
Lemma starts_with_self s t : starts_with s (String.append s t) = true.
Proof. induction s as [|c s IH]; [by destruct t|]. rewrite append_cons, starts_with_cons, bool_decide_true by done. apply IH. Qed.
Lemma starts_with_append pat s t : starts_with pat s = true → starts_with pat (String.append s t) = true.
Proof.
  revert s. induction pat as [|c pat IH]; intros s; [by destruct (String.append s t)|]. destruct s as [|d s]; [done|].
  rewrite append_cons, !starts_with_cons. intros [-> Hs]%andb_prop. by apply IH.
Qed.

(** A pattern without [c] that begins a text begins what is before [c]. *)
Lemma starts_with_before c pat s t : str_contains_char c pat = false → starts_with pat (String.append s (String c t)) = true →
  starts_with pat s = true.
Proof.
  revert s. induction pat as [|a pat IH]; intros s Hc; [by destruct s|]. cbn in Hc. apply orb_false_iff in Hc as [Ha Hc].
  destruct s as [|d s]; rewrite ?append_nil_l, ?append_cons, starts_with_cons.
  - intros [E%bool_decide_eq_true _]%andb_prop. subst. by rewrite bool_decide_true in Ha by done.
  - rewrite starts_with_cons. intros [-> Hs]%andb_prop. by apply IH.
Qed.

(** Where a pattern does not begin. *)
Fixpoint nowhere (pat s : string) : bool :=
  negb (starts_with pat s) && match s with EmptyString => true | String _ s' => nowhere pat s' end.

Lemma cut_before_prefix pat s : ∃ t, s = String.append (cut_before pat s) t.
Proof.
  induction s as [|c s [t IH]]; cbn [cut_before].
  - destruct (starts_with _ _); by exists "".
  - destruct (starts_with _ _); [by exists (String c s)|]. exists t. rewrite append_cons. by f_equal.
Qed.
Lemma cut_before_nowhere pat s : pat ≠ "" → nowhere pat (cut_before pat s) = true.
Proof.
  intros Hp. induction s as [|c s IH]; cbn [cut_before].
  - by destruct pat.
  - destruct (starts_with pat (String c s)) eqn:E; [by destruct pat|]. cbn [nowhere]. rewrite IH, andb_true_r.
    destruct (starts_with pat (String c (cut_before pat s))) eqn:E'; [|done]. destruct (cut_before_prefix pat s) as [t Ht].
    apply (starts_with_append _ _ t) in E'. rewrite append_cons, <-Ht in E'. congruence.
Qed.

Section mark.
Context (body : string).
Hypothesis Hbody : str_contains_char nl body = false.
Let mark : string := String nl body.

Lemma cut_at_mark p t : nowhere mark p = true → cut_before mark (String.append p (String.append mark t)) = p.
Proof.
  induction p as [|c p IH]; intros Hn.
  - rewrite append_nil_l. destruct (String.append mark t) eqn:E; [done|]. cbn [cut_before]. rewrite <-E, starts_with_self. done.
  - cbn [nowhere] in Hn. apply andb_prop in Hn as [Hs Hn]. rewrite append_cons. cbn [cut_before].
    destruct (starts_with mark (String c (String.append p (String.append mark t)))) eqn:E; [|by rewrite IH].
    unfold mark in E. rewrite starts_with_cons in E. apply andb_prop in E as [Ec E]. rewrite append_cons in E.
    apply starts_with_before in E; [|done]. unfold mark in Hs. rewrite starts_with_cons, Ec, E in Hs. done.
Qed.

Lemma nowhere_end_line p : body ≠ "" → nowhere mark p = true → nowhere mark (end_line p) = true.
Proof.
  intros Hne Hn. unfold end_line. destruct (ends_with_newline p); [done|]. induction p as [|c p IH].
  - rewrite append_nil_l. cbn [nowhere]. unfold mark. rewrite starts_with_cons. destruct body; [done|]. by destruct (bool_decide (nl = nl)).
  - cbn [nowhere] in Hn. apply andb_prop in Hn as [Hs Hn]. rewrite append_cons. cbn [nowhere]. rewrite IH by done. rewrite andb_true_r.
    apply negb_true_iff, not_true_iff_false. intros E. unfold mark in E, Hs. rewrite starts_with_cons in E, Hs. apply andb_prop in E as [Ec E].
    apply starts_with_before in E; [|done]. by rewrite Ec, E in Hs.
Qed.
End mark.

Lemma end_line_idem s : end_line (end_line s) = end_line s.
Proof.
  assert (ends_with_newline (end_line s) = true) as He; [|by unfold end_line at 1; rewrite He].
  unfold end_line. destruct (ends_with_newline s) eqn:E; [done|]. clear E. induction s as [|c s IH]; [done|]. rewrite append_cons.
  destruct (String.append s (String nl "")) eqn:Es; [by destruct s|]. done.
Qed.

(** Enhancing a script that was already enhanced changes nothing. *)
Lemma enhance_bash_idempotent script : enhance_bash_completion (enhance_bash_completion script) = enhance_bash_completion script.
Proof.
  assert (∃ t, BASH_HELPERS = String.append BASH_MARK t) as [t Ht] by (eexists (string_drop (String.length BASH_MARK) BASH_HELPERS); vm_compute; reflexivity).
  unfold enhance_bash_completion. rewrite Ht. set (p := end_line (cut_before BASH_MARK script)).
  assert (cut_before BASH_MARK (String.append p (String.append BASH_MARK t)) = p) as ->; [|unfold p; by rewrite end_line_idem].
  apply cut_at_mark; [by vm_compute|]. apply nowhere_end_line; [by vm_compute|done|]. by apply cut_before_nowhere.
Qed.

(** ** What is expanded *)
Lemma ifs_words_app a s w : w ∈ (ifs_words s).2 → w ∈ (ifs_words (String.append a s)).2.
Proof.
  intros Hw. induction a as [|c a IH]; [by rewrite append_nil_l|]. rewrite append_cons. cbn [ifs_words].
  destruct (ifs_words (String.append a s)) as [x ws]. cbn in IH. destruct (is_ifs c); [|done]. cbn. destruct (str_is_empty x); [done|]. by right.
Qed.
Lemma ifs_words_word h b : string_forall visible h = true → (ifs_words b).1 = "" →
  ifs_words (String.append h b) = (h, (ifs_words b).2).
Proof.
  intros Hh Hb. induction h as [|c h IH]; [rewrite append_nil_l; by destruct (ifs_words b); cbn in *; subst|].
  cbn [string_forall] in Hh. apply andb_prop in Hh as [Hc Hh]. rewrite append_cons. cbn [ifs_words]. rewrite IH by done.
  assert (is_ifs c = false) as ->; [|done]. unfold is_ifs. apply bool_decide_eq_false. intros Hin.
  repeat (apply elem_of_cons in Hin as [->|Hin]; [done|]). by apply elem_of_nil in Hin.
Qed.

(** A visible line of the output is a word of the list. *)
Lemma drop_newlines_app h b : h ≠ "" → string_forall visible h = true → drop_newlines (String.append h b) = String.append h (drop_newlines b).
Proof.
  intros Hne Hh. induction h as [|c h IH]; [done|]. cbn [string_forall] in Hh. apply andb_prop in Hh as [Hc Hh]. rewrite !append_cons.
  cbn [drop_newlines]. assert (c ≠ nl) as Hn by (by intros ->). rewrite bool_decide_false by done. cbn [andb]. f_equal.
  destruct h as [|d h]; [by rewrite !append_nil_l|]. by apply IH.
Qed.
Lemma drop_newlines_keep a s : drop_newlines s ≠ "" → drop_newlines (String.append a s) = String.append a (drop_newlines s).
Proof.
  intros Hs. induction a as [|c a IH]; [by rewrite !append_nil_l|]. rewrite !append_cons. cbn [drop_newlines]. rewrite IH.
  destruct (String.append a (drop_newlines s)) eqn:E; [by destruct a; [rewrite append_nil_l in E|]|]. by rewrite andb_false_r.
Qed.
Lemma drop_newlines_first b : (ifs_words (drop_newlines (String nl b))).1 = "".
Proof.
  cbn [drop_newlines]. rewrite bool_decide_true by done. destruct (str_is_empty (drop_newlines b)); [done|]. cbn.
  by destruct (ifs_words (drop_newlines b)).
Qed.

Lemma line_is_expanded a h b : h ≠ "" → string_forall visible h = true →
  h ∈ expanded_words (drop_newlines (String.append a (String nl (String.append h (String nl b))))).
Proof.
  intros Hne Hh. assert (ifs_words (String.append h (drop_newlines (String nl b))) = (h, (ifs_words (drop_newlines (String nl b))).2)) as Hw
    by (by apply ifs_words_word, drop_newlines_first).
  assert (drop_newlines (String nl (String.append h (String nl b))) = String nl (String.append h (drop_newlines (String nl b)))) as Hd.
  { change (String nl (String.append h (String nl b))) with (String.append (String nl "") (String.append h (String nl b))).
    rewrite drop_newlines_keep; rewrite drop_newlines_app by done; [done|by destruct h]. }
  rewrite drop_newlines_keep by (by rewrite Hd). rewrite Hd. unfold expanded_words.
  assert (h ∈ (ifs_words (String.append a (String nl (String.append h (drop_newlines (String nl b)))))).2) as Hin.
  { apply ifs_words_app. cbn [ifs_words]. rewrite Hw. change (is_ifs nl) with true. destruct h; [done|]. by left. }
  destruct (ifs_words (String.append a _)) as [x ws]. cbn in Hin. destruct (str_is_empty x); [done|]. by right.
Qed.
Lemma first_line_is_expanded h b : h ≠ "" → string_forall visible h = true →
  h ∈ expanded_words (drop_newlines (String.append h (String nl b))).
Proof.
  intros Hne Hh. rewrite drop_newlines_app by done. unfold expanded_words.
  rewrite ifs_words_word by (done || apply drop_newlines_first). destruct h; [done|]. by left.
Qed.

(** The lines of a list of candidates. *)
Definition lines_of (cs : list string) : string := String.concat "" ((λ c, String.append c (String nl "")) <$> cs).
Lemma printed_lines cs : printed (Outln <$> cs) = lines_of cs.
Proof. unfold printed, lines_of. f_equal. induction cs as [|c cs IH]; [done|]. cbn. by rewrite IH. Qed.
Lemma lines_of_cons c cs : lines_of (c :: cs) = String.append c (String nl (lines_of cs)).
Proof.
  unfold lines_of. destruct cs as [|d cs]; cbn; [done|].
  by rewrite <-append_assoc.
Qed.
Lemma lines_of_app l k : lines_of (l ++ k) = String.append (lines_of l) (lines_of k).
Proof.
  induction l as [|c l IH]; [done|]. cbn [app]. rewrite !lines_of_cons, IH, <-append_assoc. done.
Qed.

Lemma candidate_is_expanded cs h : h ∈ cs → h ≠ "" → string_forall visible h = true → h ∈ expanded_words (drop_newlines (lines_of cs)).
Proof.
  intros (l1 & l2 & ->)%list_elem_of_split Hne Hh. destruct l1 as [|x l1 _] using rev_ind.
  - cbn [app]. rewrite lines_of_cons. by apply first_line_is_expanded.
  - rewrite lines_of_app, lines_of_app, !lines_of_cons.
    replace (String.append (String.append (lines_of l1) (String.append x (String nl (lines_of [])))) (String.append h (String nl (lines_of l2))))
      with (String.append (String.append (lines_of l1) x) (String nl (String.append h (String nl (lines_of l2))))); [by apply line_is_expanded|].
    by rewrite <-!append_assoc.
Qed.

Definition not_quoted (c : ascii) : bool := bool_decide (c ∉ ["034"%char; "'"%char; "\"%char]).

Lemma drop_newlines_forall f s : string_forall f s = true → string_forall f (drop_newlines s) = true.
Proof.
  induction s as [|c s IH]; [done|]. cbn [string_forall drop_newlines]. intros [Hc Hs]%andb_prop. destruct (_ && _); [done|].
  cbn [string_forall]. by rewrite Hc, IH.
Qed.
Lemma lines_of_forall f cs : f nl = true → Forall (λ c, string_forall f c = true) cs → string_forall f (lines_of cs) = true.
Proof.
  intros Hn. induction 1 as [|c cs Hc _ IH]; [done|]. rewrite lines_of_cons, string_forall_append. cbn [string_forall]. by rewrite Hc, Hn, IH.
Qed.

Section completion.
Context `{GrpcCrates, ClientRelayCrates, UuidText, UuidSimple, Sha256, !TomlCodec RawClientConfig, !TomlCodec ServerRegistryFile}.

(** Pressing Tab runs what a server calls itself.  A host name in the registry
    (for an enrolment by approval it is the name the server sent) is offered by the
    completion function; for every command that takes a server, the word list given to
    [compgen -W], whose words undergo command substitution, contains it unchanged. *)
Lemma completion_expands_host_names version env an rpc sessions w w' r e h primary :
  registry_load env w = (w', Ok r) → e ∈ sr_entries r → sre_hostname e = Some h → h ≠ "" → string_forall visible h = true →
  Forall (λ c, string_forall not_quoted c = true) (collect_server_candidates "" r) →
  primary ∈ ["info"; "list"; "exec"; "sessions"; "remove"; "resume"] →
  let servers prefix := substituted (run_dynamic_completion version env (DynServers (Some prefix)) an rpc w).1.2 in
  ∃ wordlist, complete_dynamic servers sessions ["handcontrol-cli"; primary; ""] 2 = Offer wordlist "" ∧
    string_forall not_quoted wordlist = true ∧ h ∈ expanded_words wordlist.
Proof.
  intros Hload He Hh Hne Hvis Hq Hp servers. assert (h ∈ collect_server_candidates "" r) as Hin.
  { apply server_candidates_elem. exists e. split; [done|]. unfold entry_candidates. rewrite Hh. cbn. set_solver. }
  assert (servers "" = drop_newlines (lines_of (collect_server_candidates "" r))) as Hs.
  { unfold servers, substituted, run_dynamic_completion, mbind, cli_bind, cli_io. rewrite Hload. exact (f_equal drop_newlines (printed_lines _)). }
  pose proof (candidate_is_expanded _ _ Hin Hne Hvis) as Hexp. exists (servers ""). rewrite Hs. split_and!; [|by apply drop_newlines_forall, lines_of_forall|done].
  assert (offer (servers "") "" = Offer (servers "") "") as Ho.
  { unfold offer. rewrite Hs. revert Hexp. by destruct (drop_newlines (lines_of _)); [intros ?%elem_of_nil|]. }
  rewrite Hs in Ho. rewrite <-Ho, <-Hs. repeat (apply elem_of_cons in Hp as [->|Hp]; [done|]). by apply elem_of_nil in Hp.
Qed.
End completion.

#[local] Existing Instance demo_grpc.
#[local] Existing Instance demo_client_relay.
#[local] Existing Instance demo_uuid.
#[local] Existing Instance demo_simple.
#[local] Existing Instance demo_sha256.

#[local] Instance no_client_config : TomlCodec RawClientConfig :=
  {| toml_to_string_pretty _ := Err "unsupported"; toml_from_str _ := Err "unsupported" |}.
(** A registry file with a server that calls itself [$(reboot)]. *)
Definition odd_server : ServerRegistryEntry :=
  mkServerRegistryEntry 7%N (Some "$(reboot)") (Some "10.0.0.7") None None None None None None ["10.0.0.7"] None.
#[local] Instance odd_registry : TomlCodec ServerRegistryFile :=
  {| toml_to_string_pretty _ := Err "unsupported"; toml_from_str _ := Ok (mkServerRegistryFile (Some [odd_server])) |}.
Definition odd_world : World := mkWorld (mkFs {["/cfg/servers.toml" := [x5b]]} {["/cfg"]}) ∅ MODE_CERT (λ _, WOk) 0.

Lemma completion_expands_host_names_witness : ∃ wordlist,
  complete_dynamic
    (λ prefix, substituted (run_dynamic_completion "1.0" demo_env (DynServers (Some prefix)) demo_answers None odd_world).1.2)
    (λ _ _, "") ["handcontrol-cli"; "info"; ""] 2 = Offer wordlist "" ∧ "$(reboot)" ∈ expanded_words wordlist.
Proof.
  destruct (completion_expands_host_names "1.0" demo_env demo_answers None (λ _ _, "") odd_world
    (registry_load demo_env odd_world).1 (mkServerRegistry [odd_server]) odd_server "$(reboot)" "info") as (wl & Hwl & _ & Hin).
  - vm_compute. reflexivity.
  - by left.
  - reflexivity.
  - discriminate.
  - vm_compute. reflexivity.
  - vm_compute. repeat constructor.
  - by left.
  - exists wl. split; [exact Hwl|exact Hin].
Defined.
