(* ===== verification/CliSession.v ===== *)
(** * Sessions from the command line (cli/src/main.rs)

    [exec], [resume] and the interactive shell.  The terminal, the select choices of
    the loop and the answers of the network are inputs: a run of the shell is a list
    of operations for each connection. *)

From S2P Require Import Prelude RustStd ThirdParty Net Network Fs Io Config Validation Registry SessionState SessionManager Delivery Service ShellScript Interactive RelayTokens ClientConfig ClientStorage Discovery ClientRelay RelayEnds ClientConnect ClientEnroll ClientCommands SessionEnds CliArgs Cli Proto.

Local Open Scope string_scope.
Local Open Scope Z_scope.

(** ** Printing the output of a command *)
Definition replay_event (event : CommandStreamEvent) : out :=
  match event with
  | EvStdout data => OutBytes false (to_bytes data)
  | EvStderr data => OutBytes true (to_bytes data)
  end.
(** Writing to the terminal succeeds. *)
Definition replay_buffered_events (events : list CommandStreamEvent) : cli unit := λ w,
  (w, replay_event <$> events, Some (Ok tt)).

(** [split_inclusive('\n')]. *)
Fixpoint split_inclusive (s : string) : list string :=
  match s with
  | EmptyString => []
  | String c s' =>
      if bool_decide (c = "010"%char) then String c EmptyString :: split_inclusive s'
      else match split_inclusive s' with
           | [] => [String c EmptyString]
           | x :: l => String c x :: l
           end
  end.
Fixpoint ends_with_newline (s : string) : bool :=
  match s with
  | EmptyString => false
  | String c EmptyString => bool_decide (c = "010"%char)
  | String _ s' => ends_with_newline s'
  end.
Definition print_prefixed_chunk (prefix data : string) : list out :=
  (λ chunk, if ends_with_newline chunk then Outp (fmt [prefix; " "; chunk]) else Outln (fmt [prefix; " "; chunk]))
    <$> split_inclusive data.
Definition print_stream_event (event : CommandStreamEvent) : list out :=
  match event with
  | EvStdout data => print_prefixed_chunk "STDOUT" data
  | EvStderr data => print_prefixed_chunk "STDERR" data
  end.

(** ** The interactive shell *)
(** *** The tasks *)
Definition DETACH_KEY : byte := x1d.

(** The two tasks of a connection: both hold a sender; [tk_detach]: the input task
    has asked to detach. *)
Record Tasks := mkTasks { tk_input : bool; tk_resize : bool; tk_detach : bool }.
Definition tasks_started : Tasks := mkTasks true true false.

(** What the tasks meet; [open]: the sender's channel still has a receiver. *)
Inductive task_op :=
  | TkRead (buf : bytes) (open : bool)            (* [Ok(n)], at most 1024 bytes *)
  | TkEof (open : bool)
  | TkReadError (open : bool)
  | TkWinch (size : option (Z * Z)) (open : bool). (* SIGWINCH and [terminal_size] *)

Definition sent_of (r : result string proto.SessionClientMessage) : list out :=
  match r with Ok m => [Sent m] | Err _ => [] end.

Fixpoint before_detach (buf : bytes) : option bytes :=
  match buf with
  | [] => None
  | b :: rest => if bool_decide (b = DETACH_KEY) then Some [] else (λ pre, b :: pre) <$> before_detach rest
  end.

(** [None]: the task does not run, or the read is impossible. *)
Definition task_step (id : string) (op : task_op) (t : Tasks) : option (Tasks * list out) :=
  let stop := mkTasks false (tk_resize t) (tk_detach t) in
  match op with
  | TkRead buf open =>
      if negb (tk_input t) || bool_decide (buf = []) || (1024 <? length buf)%nat then None
      else
        match before_detach buf with
        | Some [] => Some (mkTasks false (tk_resize t) true, [])
        | Some pre =>
            match send_input id pre false open with
            | Ok m => Some (mkTasks false (tk_resize t) true, [Sent m])
            | Err _ => Some (stop, [])
            end
        | None =>
            match send_input id buf false open with
            | Ok m => Some (t, [Sent m])
            | Err _ => Some (stop, [])
            end
        end
  | TkEof open => if tk_input t then Some (stop, sent_of (send_close id None open)) else None
  | TkReadError open => if tk_input t then Some (stop, sent_of (send_close id (Some "stdin read error") open)) else None
  | TkWinch size open =>
      if negb (tk_resize t) then None
      else match size with
           | None => Some (t, [])
           | Some (cols, rows) =>
               match send_resize id cols rows open with
               | Ok m => Some (t, [Sent m])
               | Err _ => Some (mkTasks (tk_input t) false (tk_detach t), [])
               end
           end
  end.

Fixpoint run_tasks (id : string) (ops : list task_op) (t : Tasks) : option (Tasks * list out) :=
  match ops with
  | [] => Some (t, [])
  | op :: rest => '(t1, o1) ← task_step id op t; '(t2, o2) ← run_tasks id rest t1; Some (t2, (o1 ++ o2)%list)
  end.

(** *** The loop *)
Inductive SessionOutcome := OutExit | OutStreamClosed | OutDetached.
#[export] Instance SessionOutcome_eq_dec : EqDecision SessionOutcome.
Proof. solve_decision. Defined.

Record Drive := mkDrive {
  dv_session : CapabilitySession;
  dv_tasks : Tasks;
  dv_exit_code : option Z;
  dv_timed_out : bool;
}.

(** A task moves, or [select!] takes one of its branches. *)
Inductive drive_op :=
  | DvTask (op : task_op)
  | DvDetach
  | DvRecv (write_ok : bool).

Definition exit_message (message : option string) : list out :=
  match message with
  | Some m => [OutBytes true (to_bytes (if ends_with_newline m then m else newline_after m))]
  | None => []
  end.

(** A received event: what is written, the exit code and time-out flag, and how the
    loop goes on ([None]). *)
Definition drive_event (write_ok : bool) (event : result string (option CapabilitySessionEvent)) (d : Drive)
    : Drive * list out * option (result string SessionOutcome) :=
  match event with
  | Ok (Some (EvOutput data stderr _ _ _)) =>
      if write_ok then (d, [OutBytes stderr data], None) else (d, [], Some (Ok OutStreamClosed))
  | Ok (Some (EvExit code timed_out message)) =>
      (mkDrive (dv_session d) (dv_tasks d) (Some code) timed_out, exit_message message, Some (Ok OutExit))
  | Ok (Some (EvError message _)) => (d, [], Some (Err (fmt ["Server reported capability error: "; message])))
  | Ok (Some (EvHeartbeatAck _ _)) => (d, [], None)
  | Ok (Some (EvClosed reason)) =>
      (d, [], Some (match dv_exit_code d with
                    | None => Err (match reason with
                                   | Some r => fmt ["Capability session closed: "; r]
                                   | None => "Capability session closed unexpectedly"
                                   end)
                    | Some _ => Ok OutStreamClosed
                    end))
  | Ok None => (d, [], Some (Ok OutStreamClosed))
  | Err e => (d, [], Some (Err e))
  end.

(** [None]: the operation is not possible. *)
Definition drive_step (op : drive_op) (d : Drive) : option (Drive * list out * option (result string SessionOutcome)) :=
  match op with
  | DvTask op =>
      '(t, o) ← task_step (cse_session_id (dv_session d)) op (dv_tasks d);
      Some (mkDrive (dv_session d) t (dv_exit_code d) (dv_timed_out d), o, None)
  | DvDetach => if tk_detach (dv_tasks d) then Some (d, [], Some (Ok OutDetached)) else None
  | DvRecv write_ok =>
      let '(session, event) := recv (dv_session d) in
      Some (drive_event write_ok event (mkDrive session (dv_tasks d) (dv_exit_code d) (dv_timed_out d)))
  end.

(** The operations until the loop ends; [None] when it has not. *)
Fixpoint drive_session (ops : list drive_op) (d : Drive) : option (Drive * list out * result string SessionOutcome) :=
  match ops with
  | [] => None
  | op :: rest =>
      '(d1, o1, r) ← drive_step op d;
      match r with
      | Some r => Some (d1, o1, r)
      | None => '(d2, o2, r2) ← drive_session rest d1; Some (d2, (o1 ++ o2)%list, r2)
      end
  end.

(** *** A connection *)
(** What the terminal and the channel answer to the first messages of a connection,
    what the tasks do between the two messages of the jiggle, and the loop's run. *)
Record connection := mkConnection {
  cn_size : option (Z * Z);
  cn_jiggle_size : option (Z * Z);
  cn_open : bool * bool * bool;
  cn_early : list task_op;
  cn_ops : list drive_op;
}.

Definition send_initial_resize (id : string) (c : connection) : list out :=
  match cn_size c with
  | Some (cols, rows) => sent_of (send_resize id cols rows (cn_open c).1.1)
  | None => []
  end.

(** The sizes are [u16]. *)
Definition jiggle_terminal (id : string) (c : connection) : list out * list out :=
  match cn_jiggle_size c with
  | Some (cols, rows) =>
      if (cols =? 0) || (rows =? 0) then ([], [])
      else (sent_of (send_resize id (Z.min (cols + 1) U16_MAX) rows (cn_open c).1.2), sent_of (send_resize id cols rows (cn_open c).2))
  | None => ([], [])
  end.
Definition maybe_jiggle (enabled : bool) (id : string) (c : connection) : list out * list out :=
  if enabled then jiggle_terminal id c else ([], []).

(** The first connection starts the tasks before the jiggle. *)
Definition first_connection (jiggle : bool) (c : connection) (session : CapabilitySession)
    : option (Drive * list out * result string SessionOutcome) :=
  let id := cse_session_id session in
  let '(j1, j2) := maybe_jiggle jiggle id c in
  '(t, o1) ← run_tasks id (cn_early c) tasks_started;
  '(d, o2, r) ← drive_session (cn_ops c) (mkDrive session t None false);
  Some (d, (send_initial_resize id c ++ j1 ++ o1 ++ j2 ++ o2)%list, r).

(** A later one after it. *)
Definition next_connection (jiggle : bool) (c : connection) (session : CapabilitySession) (attempt : nat) (timed_out : bool)
    : option (Drive * list out * result string SessionOutcome) :=
  let id := cse_session_id session in
  let '(j1, j2) := maybe_jiggle jiggle id c in
  '(d, o, r) ← drive_session (cn_ops c) (mkDrive session tasks_started None timed_out);
  Some (d, (send_initial_resize id c ++ j1 ++ j2 ++ [Outln (fmt ["Session resumed (attempt #"; pretty attempt; ")."])] ++ o)%list, r).

(** Running a connection inside a command. *)
Definition connected (r : option (Drive * list out * result string SessionOutcome)) : cli (Drive * SessionOutcome) := λ w,
  match r with
  | Some (d, o, Ok outcome) => (w, o, Some (Ok (d, outcome)))
  | Some (_, o, Err e) => (w, o, Some (Err e))
  | None => (w, [], None)
  end.

Section shell.
Context `{GrpcCrates, ClientRelayCrates, UuidText, UuidSimple, Sha256, HexEncode}.
Context `{!TomlCodec RawClientConfig, !TomlCodec ServerRegistryFile, !RegexEngine}.
Context (debug : proto.ServerPayload → string) (version : string) (env : ClientEnv).

(** One attempt to resume: what connecting and the RPC answer, and the connection. *)
Record resumption := mkResumption {
  rm_answers : registered_answers;
  rm_rpc : proto.SessionClientMessage → option response_stream;
  rm_connection : connection;
}.

(** The error of [resume_capability_session] is wrapped. *)
Definition resume_again (entry : ServerRegistryEntry) (state : CapabilitySessionResumeState) (rm : resumption) : cli CapabilitySession := λ w,
  match resume_capability_session version env entry state (rm_answers rm) (rm_rpc rm) w with
  | (w', Ok session) => (w', [], Some (Ok session))
  | (w', Err err) => (w', [], Some (Err (fmt ["Failed to resume session: "; err])))
  end.

(** The [while] loop. *)
Fixpoint resume_while (entry : ServerRegistryEntry) (jiggle : bool) (attempts : nat) (resumptions : list resumption)
    (d : Drive) (outcome : SessionOutcome) : cli (Drive * SessionOutcome) :=
  if bool_decide (outcome = OutStreamClosed) && bool_decide (dv_exit_code d = None) then
    _ ← println (String.append newline "Connection interrupted. Attempting to resume...");
    match resumptions with
    | [] => or_panic None
    | rm :: rest =>
        session ← resume_again entry (resume_state (dv_session d)) rm;
        '(d', outcome') ← connected (next_connection jiggle (rm_connection rm) session (S attempts) (dv_timed_out d));
        resume_while entry jiggle (S attempts) rest d' outcome'
    end
  else mret (d, outcome).

Definition resume_hint (server_label session_id : string) : string :=
  fmt ["Resume later with: handcontrol-cli resume "; server_label; " "; session_id].

(** What follows the loop; [open]: the channel for the last message. *)
Definition finish_shell (server_label : string) (open : bool) (d : Drive) (outcome : SessionOutcome) : cli unit :=
  let id := cse_session_id (dv_session d) in
  if bool_decide (outcome = OutDetached) then λ w,
    (w, (sent_of (send_close id (Some "Client detached") open) ++
         [Outln (String.append newline (fmt ["Detached from session "; id; "."])); Outln (resume_hint server_label id);
          Outln (fmt ["You can view active sessions with: handcontrol-cli sessions "; server_label])])%list, Some (Ok tt))
  else
    _ ← (λ w, (w, sent_of (send_close id None open), Some (Ok tt))) : cli unit;
    _ ← cli_lift (bail_if (dv_timed_out d) "Realtime capability timed out");
    code ← cli_lift (ok_or (dv_exit_code d) "Realtime capability ended without exit code");
    cli_lift (bail_if (negb (code =? 0)) (fmt ["Realtime capability exited with code "; pretty code])).

(** The terminal: whether both ends are one, and whether raw mode can be set. *)
Record terminal := mkTerminal { tm_tty : bool; tm_raw : bool; tm_first : connection; tm_resumptions : list resumption; tm_open : bool }.

Definition greeting (session_name : string) (session : CapabilitySession) (resumed : bool) : list string :=
  if resumed then [fmt ["Resumed interactive session '"; session_name; "'."]]
  else match cse_ready_message session with
       | Some message => if str_is_empty message then [] else [message]
       | None => [fmt ["Interactive session '"; session_name; "' ready."]]
       end.

Definition run_interactive_shell (entry : ServerRegistryEntry) (server_label session_name : string) (session : CapabilitySession)
    (resumed : bool) (tm : terminal) : cli unit :=
  _ ← cli_lift (bail_if (negb (tm_tty tm)) "Realtime capabilities require an interactive TTY");
  config ← cli_io (load_client_config env);
  let jiggle := lc_jiggle_resize_on_resume (cc_cli config) in
  _ ← print_lines (greeting session_name session resumed ++ ["Press Ctrl+] to detach."])%list;
  _ ← cli_lift (bail_if (negb (tm_raw tm)) "failed to enable raw terminal mode");
  '(d, outcome) ← connected (first_connection jiggle (tm_first tm) session);
  '(d, outcome) ← resume_while entry jiggle 0 (tm_resumptions tm) d outcome;
  finish_shell server_label (tm_open tm) d outcome.

(** ** [resume] *)
(** The numbers of the last frames the server has, not of those shown here. *)
Definition listed_resume_state (info : ServerSessionInfo) : CapabilitySessionResumeState :=
  mkCapabilitySessionResumeState (sv_session_id info) (sv_capability_id info) (sv_resume_token info)
    (Z.max (sv_stdout_next_sequence info - 1) 0) (Z.max (sv_stderr_next_sequence info - 1) 0) (sv_session_mode info).

Definition run_resume (server session_id : string) (an : registered_answers) (rpc : option (list proto.SessionInfo))
    (an' : registered_answers) (open_rpc : proto.SessionClientMessage → option response_stream) (tm : terminal) : cli unit :=
  registry ← cli_io (registry_load env);
  entry ← cli_lift (find_enrolled_server server registry);
  sessions ← cli_io (list_sessions version env entry an rpc);
  info ← cli_lift (choose_session (sre_id entry) session_id sessions);
  _ ← cli_lift (bail_if (bool_decide (sv_session_mode info ≠ CsRealtime))
        (fmt ["Session '"; sv_session_id info; "' uses '"; mode_debug (sv_session_mode info);
              "' mode which cannot be resumed interactively"]));
  session ← cli_io (resume_capability_session version env entry (listed_resume_state info) an' open_rpc);
  let session_label := if str_is_empty (sv_capability_name info) then sv_capability_id info else sv_capability_name info in
  run_interactive_shell entry server session_label session true tm.

(** ** [exec] *)
(** [execute_command] inside a command, with the callback's output. *)
Definition executed (entry : ServerRegistryEntry) (command_id : string) (parameters : gmap string string) (an : registered_answers)
    (rpc : proto.SessionClientMessage → option response_stream) (show : list CommandStreamEvent → list out)
    : cli (list CommandStreamEvent * Z) := λ w,
  match execute_command debug mode_debug version env entry command_id parameters an rpc w with
  | (w', Some (events, Ok code)) => (w', show events, Some (Ok (events, code)))
  | (w', Some (events, Err e)) => (w', show events, Some (Err e))
  | (w', None) => (w', [], None)
  end.

Definition exec_one_shot (entry : ServerRegistryEntry) (command : CommandSummary) (sanitized : gmap string string)
    (stream quiet : bool) (an : registered_answers) (rpc : proto.SessionClientMessage → option response_stream) : cli unit :=
  _ ← cli_lift (bail_if (bool_decide (cu_kind command ≠ CkShellScript))
        (fmt ["Capability '"; cu_name command; "' has type "; kind_debug (cu_kind command); " which is not supported by this CLI"]));
  _ ← print_lines (if cu_requires_confirmation command && negb quiet
                   then [fmt ["Command '"; cu_name command; "' requires confirmation on the server before execution"]] else []);
  '(events, exit_code) ← executed entry (cu_id command) sanitized an rpc
     (λ events, if stream && negb quiet then events ≫= print_stream_event else []);
  _ ← replay_buffered_events (if negb stream && negb quiet then events else []);
  _ ← print_lines (if quiet then [] else [fmt [if stream then "EXIT " else "Exit code: "; pretty exit_code]]);
  cli_lift (bail_if (negb (exit_code =? 0)) (fmt ["Remote command exited with code "; pretty exit_code])).

Definition exec_realtime (server : string) (entry : ServerRegistryEntry) (command : CommandSummary) (sanitized : gmap string string)
    (quiet : bool) (an : registered_answers) (rpc : proto.SessionClientMessage → option response_stream) (tm : terminal) : cli unit :=
  _ ← cli_lift (bail_if (bool_decide (cu_kind command ≠ CkShellInteractive))
        (fmt ["Capability '"; cu_name command; "' has type "; kind_debug (cu_kind command); " which is not supported by this CLI"]));
  _ ← cli_lift (bail_if quiet "--quiet is not supported for realtime capabilities");
  _ ← print_lines (if cu_requires_confirmation command
                   then [fmt ["Capability '"; cu_name command; "' requires confirmation on the server before execution"]] else []);
  session ← cli_io (open_capability_session debug version env entry (cu_id command) sanitized an rpc);
  _ ← cli_lift (bail_if (bool_decide (cse_session_mode session ≠ CsRealtime))
        (fmt ["Capability '"; cu_name command; "' reported unsupported session mode "; mode_debug (cse_session_mode session)]));
  let session_label := if str_is_empty (cu_name command) then cu_id command else cu_name command in
  run_interactive_shell entry server session_label session false tm.

Record ExecCommand := mkExecCommand {
  xc_server : string;
  xc_command_id : string;
  xc_parameters : list string;
  xc_stream : bool;
  xc_quiet : bool;
}.

Definition run_exec_command (cmd : ExecCommand) (an : registered_answers) (caps : option (list proto.Capability * Z))
    (an' : registered_answers) (rpc : proto.SessionClientMessage → option response_stream) (tm : terminal) : cli unit :=
  registry ← cli_io (registry_load env);
  entry ← cli_lift (find_enrolled_server (xc_server cmd) registry);
  provided ← cli_lift (parse_parameter_pairs (xc_parameters cmd));
  command_list ← cli_io (list_commands version env entry an caps);
  command ← cli_lift (ok_or (snd <$> list_find (λ c, eq_ignore_ascii_case (cu_id c) (xc_command_id cmd) = true) (cl_commands command_list))
              (fmt ["Command '"; xc_command_id cmd; "' not found on server "; uuid_to_string (sre_id entry)]));
  sanitized ← cli_lift (validate_client_parameters command provided);
  match cu_session_mode command with
  | CsOneShot => exec_one_shot entry command sanitized (xc_stream cmd) (xc_quiet cmd) an' rpc
  | CsRealtime => exec_realtime (xc_server cmd) entry command sanitized (xc_quiet cmd) an' rpc tm
  | _ => cli_lift (Err (fmt ["Capability '"; cu_name command; "' requires "; mode_debug (cu_session_mode command);
                             " sessions which are not supported by this CLI"]))
  end.
End shell.

(** ** Reasoning *)
Definition sent_messages (tr : list out) : list proto.SessionClientMessage :=
  omap (λ o, match o with Sent m => Some m | _ => None end) tr.
(** The bytes written to one of the two streams. *)
Definition written_to (stderr : bool) (tr : list out) : list bytes :=
  omap (λ o, match o with OutBytes e b => if bool_decide (e = stderr) then Some b else None | _ => None end) tr.

Lemma replayed_on stderr events : written_to stderr (replay_event <$> events) = to_bytes <$> told_on stderr events.
Proof.
  induction events as [|e events IH]; [done|]. unfold written_to, told_on in *. cbn [fmap list_fmap omap list_omap].
  destruct e, stderr; cbn [replay_event]; rewrite IH; done.
Qed.

Lemma written_to_app stderr a b : written_to stderr (a ++ b)%list = (written_to stderr a ++ written_to stderr b)%list.
Proof. apply omap_app. Qed.
Lemma written_to_lines stderr l : written_to stderr (Outln <$> l) = [].
Proof. by induction l. Qed.

(** *** Typing *)
Definition typed (ops : list task_op) : bytes := mjoin (omap (λ op, match op with TkRead buf _ => Some buf | _ => None end) ops).
Definition sent_input (tr : list out) : bytes :=
  mjoin (omap (λ m, match proto.cm_payload m with Some (proto.Input data _) => Some data | _ => None end) (sent_messages tr)).
Definition op_open (op : task_op) : bool :=
  match op with TkRead _ open | TkEof open | TkReadError open | TkWinch _ open => open end.

Lemma sent_input_app a b : sent_input (a ++ b)%list = (sent_input a ++ sent_input b)%list.
Proof. unfold sent_input, sent_messages. by rewrite omap_app, omap_app, join_app. Qed.

Lemma before_detach_app a b :
  before_detach (a ++ b)%list = match before_detach a with Some pre => Some pre | None => (λ pre, a ++ pre)%list <$> before_detach b end.
Proof.
  induction a as [|x a IH]; cbn; [by destruct (before_detach b)|]. case_bool_decide; [done|]. rewrite IH.
  destruct (before_detach a); [done|]. by destruct (before_detach b).
Qed.

(** While the channel is open, the input task sends what is typed, byte for byte, up
    to the detach key and nothing after it. *)
Lemma typed_bytes_are_sent id ops t t' tr :
  run_tasks id ops t = Some (t', tr) → Forall (λ op, op_open op = true) ops →
  sent_input tr = default (typed ops) (before_detach (typed ops)) ∧ (tk_input t = false → typed ops = []).
Proof.
  revert t tr. induction ops as [|op ops IH]; intros t tr Hr Ho; [by simplify_eq/=|].
  apply Forall_cons in Ho as [Hop Ho]. cbn [run_tasks] in Hr. apply bind_Some in Hr as ([t1 o1] & Hs & Hr).
  apply bind_Some in Hr as ([t2 o2] & Hr & [= <- <-]). destruct (IH t1 o2 Hr Ho) as [IH1 IH2]. rewrite sent_input_app, IH1.
  destruct op as [buf open|open|open|size open]; cbn in Hop; subst open; cbn [task_step] in Hs.
  2,3: (destruct (tk_input t); [|done]; injection Hs as <- <-; split; [reflexivity|intros [=]]).
  - change (typed (TkRead buf true :: ops)) with (buf ++ typed ops)%list. rewrite before_detach_app.
    destruct (tk_input t); [|done]. cbn [negb orb] in Hs. case_bool_decide; [done|]. cbn [orb] in Hs.
    destruct (1024 <? length buf)%nat; [done|].
    split; [|done]. destruct (before_detach buf) as [[|x pre]|] eqn:Eb; cbn in Hs; injection Hs as <- <-.
    + rewrite (IH2 eq_refl). done.
    + rewrite (IH2 eq_refl). cbn. by rewrite !app_nil_r.
    + cbn. rewrite app_nil_r. by destruct (before_detach (typed ops)).
  - destruct (tk_resize t); [|done]. cbn in Hs. destruct size as [[cols rows]|]; injection Hs as <- <-; (split; [reflexivity|exact IH2]).
Qed.

(** *** Detaching *)
Definition close_message (id : string) (reason : option string) : proto.SessionClientMessage :=
  proto.mkSessionClientMessage id (Some (proto.Close reason)).

(** The server hands the message to the capability, and the shell of the capability
    is sent SIGTERM, whatever its state as long as its loop runs. *)
Definition kills_shell `{UuidText} (message : proto.SessionClientMessage) : Prop :=
  ∀ id now end_now m, uuid_to_string id = proto.cm_session_id message → ∃ event,
    (forward_client_events id [(now, Ok (Some message), true)] end_now m).2 = [event] ∧
    ∀ pid s tries ioctl_ok now', 0 < pid → sh_done s = false → sh_panicked s = false → is_Some (deadlines s) →
      ∃ s', shell_step pid (ShClient event tries ioctl_ok now') s = Some s' ∧ sh_sigterms s' = S (sh_sigterms s).

Lemma close_kills_shell `{UuidText} sid reason : kills_shell (close_message sid reason).
Proof.
  intros id now end_now m Hid. exists (CClose reason). split.
  - cbn [forward_client_events]. unfold client_event. rewrite Hid. cbn [proto.cm_session_id close_message].
    rewrite bool_decide_ne_false_2 by done. rewrite andb_false_r. done.
  - intros pid s tries ok now' Hpid Hd Hp [[idle max] Hdl]. cbn [shell_step]. rewrite Hd, Hp. cbn [orb]. rewrite Hdl.
    eexists. split; [reflexivity|]. cbn. by rewrite (proj2 (Z.ltb_lt 0 pid)).
Qed.

Section detaching.
Context `{GrpcCrates, ClientRelayCrates, UuidText, UuidSimple, Sha256, HexEncode}.
Context `{!TomlCodec RawClientConfig, !TomlCodec ServerRegistryFile, !RegexEngine}.
Context (debug : proto.ServerPayload → string) (version : string) (env : ClientEnv).

Lemma finish_shell_ok label d outcome w w' tr : finish_shell label true d outcome w = (w', tr, Some (Ok tt)) →
  let id := cse_session_id (dv_session d) in
  (outcome = OutDetached ∧ ∃ o1 o2, tr = [Sent (close_message id (Some "Client detached")); o1; Outln (resume_hint label id); o2]) ∨
  (outcome ≠ OutDetached ∧ tr = [Sent (close_message id None)] ∧ dv_exit_code d = Some 0 ∧ dv_timed_out d = false).
Proof.
  unfold finish_shell. case_bool_decide as Ho.
  { intros [= _ <-]. left. split; [done|]. eexists _, _. reflexivity. }
  intros (w1 & o1 & o2 & ? & [= <- <- _] & Hf & ->)%cli_bind_ok. right.
  apply cli_bind_ok in Hf as (w2 & o3 & o4 & ? & (-> & -> & Ht%bail_if_ok)%cli_lift_ok & Hf & ->).
  apply cli_bind_ok in Hf as (w3 & o5 & o6 & code & (-> & -> & Hc%ok_or_ok)%cli_lift_ok & Hf & ->).
  apply cli_lift_ok in Hf as (-> & -> & Hz%bail_if_ok). apply negb_false_iff, Z.eqb_eq in Hz as ->.
  split_and!; done.
Qed.

(** Detaching from a shell ends it.  When an interactive command returns
    successfully, the shell has ended with exit code 0, or the user has detached:
    then the user is told how to resume the session, but the message the client
    sends before is one on which the server sends SIGTERM to the shell. *)
Lemma detaching_kills_the_shell entry label name session resumed tm w w' tr :
  run_interactive_shell version env entry label name session resumed tm w = (w', tr, Some (Ok tt)) → tm_open tm = true →
  ∃ d pre, let id := cse_session_id (dv_session d) in
    (∃ o1 o2 message, tr = (pre ++ [Sent message; o1; Outln (resume_hint label id); o2])%list ∧ proto.cm_session_id message = id ∧
       kills_shell message) ∨
    (tr = (pre ++ [Sent (close_message id None)])%list ∧ dv_exit_code d = Some 0 ∧ dv_timed_out d = false).
Proof.
  intros Hr Ho. unfold run_interactive_shell in Hr. rewrite Ho in Hr.
  apply cli_bind_ok in Hr as (w1 & o1 & p1 & ? & _ & Hr & ->). apply cli_bind_ok in Hr as (w2 & o2 & p2 & cfg & _ & Hr & ->).
  cbv zeta in Hr.
  apply cli_bind_ok in Hr as (w3 & o3 & p3 & ? & _ & Hr & ->). apply cli_bind_ok in Hr as (w4 & o4 & p4 & ? & _ & Hr & ->).
  apply cli_bind_ok in Hr as (w5 & o5 & p5 & [d1 r1] & _ & Hr & ->).
  apply cli_bind_ok in Hr as (w6 & o6 & p6 & [d outcome] & _ & Hr & ->). exists d, (o1 ++ o2 ++ o3 ++ o4 ++ o5 ++ o6)%list.
  apply finish_shell_ok in Hr as [(_ & q1 & q2 & ->)|(_ & -> & Hx & Ht)].
  - left. exists q1, q2, (close_message (cse_session_id (dv_session d)) (Some "Client detached")).
    split; [by rewrite <-!app_assoc|]. split; [done|]. apply close_kills_shell.
  - right. split; [by rewrite <-!app_assoc|done].
Qed.
End detaching.

(** *** Resuming *)
(** [resume] never shows what the shell printed while nobody was attached.  For
    every history of a session, the request the command builds from the server's list
    of sessions makes the server replay nothing, although its buffer holds the last
    outputs. *)
Lemma resume_shows_no_backlog os now token cap info :
  let s := ss_run os (SessionState_new now token cap) in
  Z.of_nat (length (log_of os)) + 1 < 2 ^ 64 →
  sv_stdout_next_sequence info = ss_stdout_next_sequence s → sv_stderr_next_sequence info = ss_stderr_next_sequence s →
  ss_output_buffer s = lastn cap (log_of os) ∧
  ∃ tok lo le, proto.cm_payload (resume_request (listed_resume_state info)) = Some (proto.Resume tok lo le) ∧
    outputs_since lo le s = [].
Proof.
  intros s Hlen Ho He. destruct (ss_run_abstracts os now token cap Hlen) as [[Hb Hn] Hcap]. fold s in Hb, Hn, Hcap.
  split; [by rewrite Hb, Hcap|]. eexists _, _, _. split; [reflexivity|]. cbn [rst_last_stdout_sequence rst_last_stderr_sequence listed_resume_state].
  rewrite Ho, He. pose proof (Hn Stdout) as Hno. pose proof (Hn Stderr) as Hne. cbn [next_sequence] in Hno, Hne. rewrite Hno, Hne.
  unfold outputs_since. apply elem_of_nil_inv. intros f [Hnew Hf]%list_elem_of_filter. rewrite Hb in Hf.
  assert (f ∈ log_of os) as Hin.
  { rewrite <-(take_drop (length (log_of os) - ss_buffer_capacity s) (log_of os)). apply elem_of_app. by right. }
  destruct (numbered_bound _ _ (log_of_numbered os) Hin) as [H1 H2]. unfold newer_than in Hnew.
  destruct (bo_stream f); (rewrite (proj2 (Z.ltb_lt _ _)) in Hnew by lia; apply Z.ltb_lt in Hnew; lia).
Qed.

(** *** Executing *)
Section executing.
Context `{GrpcCrates, ClientRelayCrates, UuidText, UuidSimple, Sha256, HexEncode}.
Context `{!TomlCodec RawClientConfig, !TomlCodec ServerRegistryFile}.
Context (debug : proto.ServerPayload → string) (version : string) (env : ClientEnv).

(** How the command ends for the result of the remote command. *)
Definition exec_status (r : result string Z) : result string unit :=
  match r with
  | Ok code => bail_if (negb (code =? 0)) (fmt ["Remote command exited with code "; pretty code])
  | Err e => Err e
  end.

(** What [exec] prints: the notice that the server asks for confirmation, the output, with
    [--stream] as it comes and otherwise at the end unless the call failed, and the exit
    code; nothing with [--quiet]. *)
Definition exec_prints (command : CommandSummary) (stream quiet : bool) (events : list CommandStreamEvent) (r : result string Z) : list out :=
  if quiet then [] else
  ((if cu_requires_confirmation command
    then [Outln (fmt ["Command '"; cu_name command; "' requires confirmation on the server before execution"])] else []) ++
   (if stream then events ≫= print_stream_event else if is_ok r then replay_event <$> events else []) ++
   match r with Ok code => [Outln (fmt [if stream then "EXIT " else "Exit code: "; pretty code])] | Err _ => [] end)%list.

Lemma exec_one_shot_prints entry command sanitized stream quiet an rpc w w1 events r :
  cu_kind command = CkShellScript →
  execute_command debug mode_debug version env entry (cu_id command) sanitized an rpc w = (w1, Some (events, r)) →
  exec_one_shot debug version env entry command sanitized stream quiet an rpc w =
    (w1, exec_prints command stream quiet events r, Some (exec_status r)).
Proof.
  intros Hk E. unfold exec_one_shot. rewrite (cli_run_lift _ _ _ tt) by by rewrite bool_decide_ne_false_2.
  rewrite (cli_run (print_lines _) _ w w (Outln <$> _) tt) by reflexivity. destruct r as [code|e].
  - erewrite (cli_run (executed _ _ _ _ _ _ _ _ _)) by (unfold executed; rewrite E; reflexivity). cbv beta iota.
    erewrite (cli_run (replay_buffered_events _)) by reflexivity. erewrite (cli_run (print_lines _)) by reflexivity.
    unfold exec_prints. destruct quiet, stream, (cu_requires_confirmation command); cbn [fst snd negb andb app is_ok cli_lift fmap list_fmap]; rewrite ?app_nil_r; reflexivity.
  - unfold mbind, cli_bind, executed. rewrite E.
    unfold exec_prints. destruct quiet, stream, (cu_requires_confirmation command); cbn [fst snd negb andb app is_ok fmap list_fmap]; rewrite ?app_nil_r; reflexivity.
Qed.

End executing.

(** ** Witnesses *)
#[local] Existing Instance demo_grpc.
#[local] Existing Instance demo_client_relay.
#[local] Existing Instance demo_uuid.
#[local] Existing Instance demo_sha256.
#[local] Existing Instance demo_hex.
#[local] Instance demo_no_config : TomlCodec RawClientConfig :=
  {| toml_to_string_pretty _ := Err "unsupported"; toml_from_str _ := Err "unsupported" |}.

(** Ctrl-] is typed after a letter. *)
Definition demo_live : CapabilitySession := mkCapabilitySession "7" "sh" CsRealtime (Some "ready") [] "token" 0 0 [].
Definition demo_keys : connection :=
  mkConnection (Some (80, 24)) (Some (80, 24)) (true, true, true) [] [DvTask (TkRead [x61; x1d; x62] true); DvDetach].
Definition demo_terminal : terminal := mkTerminal true true demo_keys [] true.

Lemma detaching_kills_the_shell_witness : ∃ id pre message o1 o2,
  (run_interactive_shell "1.0" demo_env enrolled_server "desk" "Shell" demo_live false demo_terminal demo_world).1.2 =
    (pre ++ [Sent message; o1; Outln (resume_hint "desk" id); o2])%list ∧ kills_shell message.
Proof.
  destruct (run_interactive_shell "1.0" demo_env enrolled_server "desk" "Shell" demo_live false demo_terminal demo_world)
    as [[w' tr] r] eqn:E.
  assert (r = Some (Ok tt)) as Hr by (vm_compute in E; injection E as _ _ <-; reflexivity). rewrite Hr in E.
  destruct (detaching_kills_the_shell "1.0" demo_env enrolled_server "desk" "Shell" demo_live false demo_terminal demo_world w' tr E
    eq_refl) as (d & pre & [(o1 & o2 & message & Htr & Hid & Hkill)|(Htr & _)]).
  - exists (cse_session_id (dv_session d)), pre, message, o1, o2. split; [exact Htr|exact Hkill].
  - exfalso. vm_compute in E. injection E as _ <-. apply (f_equal last) in Htr. rewrite last_snoc in Htr. discriminate Htr.
Defined.

(** Two lines were printed while nobody was attached. *)
Definition demo_backlog : list ss_op := [SsDetach 1; SsRecord 2 Stdout [x61] false None; SsRecord 3 Stdout [x62] false None].
Definition demo_listed : ServerSessionInfo := mkServerSessionInfo "7" "sh" "Shell" CsRealtime None 0 0 None false "token" 3 1 2.

Lemma resume_shows_no_backlog_witness :
  length (ss_output_buffer (ss_run demo_backlog (SessionState_new 0 "token" 10))) = 2%nat ∧
  ∃ tok lo le, proto.cm_payload (resume_request (listed_resume_state demo_listed)) = Some (proto.Resume tok lo le) ∧
    outputs_since lo le (ss_run demo_backlog (SessionState_new 0 "token" 10)) = [].
Proof.
  split; [reflexivity|].
  apply (resume_shows_no_backlog demo_backlog 0 "token" 10 demo_listed); vm_compute; reflexivity.
Defined.

Definition demo_script : CommandSummary :=
  mkCommandSummary "sh" "Script" None None [] [] false true false CkShellScript CsOneShot.

Definition exec_world : World :=
  let p := cert_paths_in (server_dir "/cfg" 7%N) in
  mkWorld (mkFs {[ct_client_cert p := [x01]; ct_client_key p := [x02]; ct_server_fingerprint p := to_bytes demo_pin]} ∅) ∅ MODE_CERT
    (λ _, WOk) 0.

