(* ===== verification/TuiApp.v ===== *)
(** * The state of the terminal user interface (tui/src/main.rs, module [app])

    The application's data and its methods: the list of servers, the list of commands
    with its filters, and the parameter form.  A [String] that is edited character by
    character is the list of its characters ([text]), each its UTF-8 bytes. *)

From S2P Require Import Prelude RustStd ThirdParty Net Network Config Validation SessionState RelayTokens ClientConfig ClientStorage Discovery ClientConnect ClientCommands CliArgs.

Local Open Scope string_scope.
Local Open Scope Z_scope.

Abbreviation text := (list string).
(** [collect::<String>()] and [chars()]. *)
Definition of_text (t : text) : string := String.concat "" t.
Fixpoint chars_fuel (fuel : nat) (s : string) : text :=
  match fuel, s with
  | S fuel', String c rest =>
      let n := Nat.max (utf8_len s) 1 in String.substring 0 n s :: chars_fuel fuel' (string_drop n s)
  | _, _ => []
  end.
Definition chars (s : string) : text := chars_fuel (String.length s) s.

(** [str::contains]. *)
Fixpoint str_contains (pat s : string) : bool :=
  starts_with pat s || match s with EmptyString => false | String _ s' => str_contains pat s' end.

(** ** Data *)
Inductive FocusPane := FServers | FCommands.
#[export] Instance FocusPane_eq_dec : EqDecision FocusPane.
Proof. solve_decision. Defined.
Inductive ServerStatus := SvEnrolled | SvAvailable | SvUnknown.

Record ServerItem := mkServerItem {
  it_id : option Uuid;
  it_label : string;
  it_subtitle : option string;
  it_status : ServerStatus;
  it_addresses : list string;
  it_port : option Z;
  it_fingerprint : option string;
  it_registry_entry : option ServerRegistryEntry;
  it_discovered : option DiscoveredServer;
}.

Record CommandListState := mkCommandListState {
  cs_commands : list CommandSummary;
  cs_filtered_indices : list nat;
  cs_selected : option nat;
  cs_search_query : text;
  cs_tag_filter : option string;
  cs_config_version : option Z;
  cs_loading : bool;
  cs_error : option string;
  cs_server_id : option Uuid;
}.
Definition CommandListState_default : CommandListState := mkCommandListState [] [] None [] None None false None None.

Inductive ParameterValue :=
  | PvSlider (value : Z) (min max : option Z) (step : Z)
  | PvText (t : text)
  | PvToggle (value : bool)
  | PvDropdown (options : list string) (selected : nat).
Record ParameterFieldState := mkParameterFieldState {
  fs_definition : CommandParameter;
  fs_value : ParameterValue;
  fs_dirty : bool;
}.
Record ParameterFormState := mkParameterFormState {
  fo_command : CommandSummary;
  fo_fields : list ParameterFieldState;
  fo_selected : nat;
  fo_editing : bool;
  fo_error : option string;
  fo_server_id : Uuid;
  fo_server_label : string;
  fo_text_cursor : option nat;
}.

Inductive OutputChannel := ChStdout | ChStderr | ChStatus.
Record CommandOutputLine := mkCommandOutputLine { ol_channel : OutputChannel; ol_content : string }.
Record CommandExecutionState := mkCommandExecutionState {
  xs_command_name : string;
  xs_server_label : string;
  xs_server_id : Uuid;
  xs_command_id : string;
  xs_output : list CommandOutputLine;
  xs_scroll_offset : nat;
  xs_auto_scroll : bool;
  xs_running : bool;
  xs_exit_code : option Z;
  xs_error : option string;
  xs_paused : bool;
}.

Record SearchState := mkSearchState { se_query : text; se_cursor : nat }.
Record TagFilterState := mkTagFilterState { tg_tags : list string; tg_selected : nat }.
Inductive PromptAction := PaNone | PaRemoveServer (server_id : Uuid).
Record PromptState := mkPromptState {
  pr_title : string;
  pr_message : string;
  pr_confirm_label : string;
  pr_cancel_label : string;
  pr_action : PromptAction;
}.

Record QrInputState := mkQrInputState { qi_payload : text; qi_cursor : nat; qi_error : option string }.
Record ApprovalState := mkApprovalState { av_verification_code : option string; av_status_message : string; av_started : bool }.
Inductive EnrollmentStep :=
  | EsMethodSelect
  | EsQrInput (q : QrInputState)
  | EsApproval (a : ApprovalState)
  | EsInProgress (message : string)
  | EsCompleted (message : string)
  | EsError (message : string).
Record EnrollmentState := mkEnrollmentState {
  en_server : ServerItem;
  en_step : EnrollmentStep;
  en_qr_token_expiry : option Z;
}.

Inductive Overlay :=
  | OvHelp
  | OvSearch (s : SearchState)
  | OvTagFilter (s : TagFilterState)
  | OvParameterForm (s : ParameterFormState)
  | OvCommandExecution (s : CommandExecutionState)
  | OvEnrollment (s : EnrollmentState)
  | OvPrompt (s : PromptState).

Record App := mkApp {
  ap_config : ClientConfig;
  ap_registry : ServerRegistry;
  ap_discovered : list DiscoveredServer;
  ap_servers : list ServerItem;
  ap_selected_server : option nat;
  ap_focus : FocusPane;
  ap_overlay : option Overlay;
  ap_status : string;
  ap_command_state : CommandListState;
  ap_discovery_in_progress : bool;
  ap_enrollment_in_progress : bool;
  ap_pending_command_server : option Uuid;
  ap_pending_escape : option (list string);
}.

(** *** Assignments *)
Definition set_ap_registry (r : ServerRegistry) (a : App) : App :=
  mkApp (ap_config a) r (ap_discovered a) (ap_servers a) (ap_selected_server a) (ap_focus a) (ap_overlay a) (ap_status a)
    (ap_command_state a) (ap_discovery_in_progress a) (ap_enrollment_in_progress a) (ap_pending_command_server a) (ap_pending_escape a).
Definition set_ap_discovered (l : list DiscoveredServer) (a : App) : App :=
  mkApp (ap_config a) (ap_registry a) l (ap_servers a) (ap_selected_server a) (ap_focus a) (ap_overlay a) (ap_status a)
    (ap_command_state a) (ap_discovery_in_progress a) (ap_enrollment_in_progress a) (ap_pending_command_server a) (ap_pending_escape a).
Definition set_ap_servers (l : list ServerItem) (i : option nat) (a : App) : App :=
  mkApp (ap_config a) (ap_registry a) (ap_discovered a) l i (ap_focus a) (ap_overlay a) (ap_status a)
    (ap_command_state a) (ap_discovery_in_progress a) (ap_enrollment_in_progress a) (ap_pending_command_server a) (ap_pending_escape a).
Definition set_ap_selected (i : option nat) (a : App) : App := set_ap_servers (ap_servers a) i a.
Definition set_ap_focus (f : FocusPane) (a : App) : App :=
  mkApp (ap_config a) (ap_registry a) (ap_discovered a) (ap_servers a) (ap_selected_server a) f (ap_overlay a) (ap_status a)
    (ap_command_state a) (ap_discovery_in_progress a) (ap_enrollment_in_progress a) (ap_pending_command_server a) (ap_pending_escape a).
Definition set_ap_overlay (o : option Overlay) (a : App) : App :=
  mkApp (ap_config a) (ap_registry a) (ap_discovered a) (ap_servers a) (ap_selected_server a) (ap_focus a) o (ap_status a)
    (ap_command_state a) (ap_discovery_in_progress a) (ap_enrollment_in_progress a) (ap_pending_command_server a) (ap_pending_escape a).
Definition set_status_message (s : string) (a : App) : App :=
  mkApp (ap_config a) (ap_registry a) (ap_discovered a) (ap_servers a) (ap_selected_server a) (ap_focus a) (ap_overlay a) s
    (ap_command_state a) (ap_discovery_in_progress a) (ap_enrollment_in_progress a) (ap_pending_command_server a) (ap_pending_escape a).
Definition set_ap_commands (c : CommandListState) (pending : option Uuid) (a : App) : App :=
  mkApp (ap_config a) (ap_registry a) (ap_discovered a) (ap_servers a) (ap_selected_server a) (ap_focus a) (ap_overlay a) (ap_status a)
    c (ap_discovery_in_progress a) (ap_enrollment_in_progress a) pending (ap_pending_escape a).
Definition set_ap_discovering (b : bool) (a : App) : App :=
  mkApp (ap_config a) (ap_registry a) (ap_discovered a) (ap_servers a) (ap_selected_server a) (ap_focus a) (ap_overlay a) (ap_status a)
    (ap_command_state a) b (ap_enrollment_in_progress a) (ap_pending_command_server a) (ap_pending_escape a).
Definition set_ap_enrolling (b : bool) (a : App) : App :=
  mkApp (ap_config a) (ap_registry a) (ap_discovered a) (ap_servers a) (ap_selected_server a) (ap_focus a) (ap_overlay a) (ap_status a)
    (ap_command_state a) (ap_discovery_in_progress a) b (ap_pending_command_server a) (ap_pending_escape a).
Definition set_ap_escape (e : option (list string)) (a : App) : App :=
  mkApp (ap_config a) (ap_registry a) (ap_discovered a) (ap_servers a) (ap_selected_server a) (ap_focus a) (ap_overlay a) (ap_status a)
    (ap_command_state a) (ap_discovery_in_progress a) (ap_enrollment_in_progress a) (ap_pending_command_server a) e.

(** ** The list of servers *)
Section servers.
Context `{UuidText}.

Definition from_registry (entry : ServerRegistryEntry) (discovered : option DiscoveredServer) : ServerItem :=
  let addresses := default [] (ds_addresses <$> discovered) in
  let addresses := match addresses with [] => option_list (sre_ip entry) | _ => addresses end in
  let label := match sre_hostname entry, discovered with
               | Some h, _ => h
               | None, Some d => ds_instance_name d
               | None, None => uuid_to_string (sre_id entry)
               end in
  let subtitle := match addresses with x :: _ => Some x | [] => sre_ip entry end in
  mkServerItem (Some (sre_id entry)) label subtitle SvEnrolled addresses (sre_port entry) (sre_cert_fingerprint entry)
    (Some entry) discovered.

Definition from_discovered (d : DiscoveredServer) : ServerItem :=
  mkServerItem (ds_server_id d) (ds_instance_name d) (head (ds_addresses d)) SvAvailable (ds_addresses d) (Some (ds_port d))
    (ds_cert_fingerprint d) None (Some d).

(** Announced servers with an id, the last one of each; and those without. *)
Definition split_discovered (l : list DiscoveredServer) : gmap Uuid DiscoveredServer * list DiscoveredServer :=
  foldl (λ acc d, match ds_server_id d with
                  | Some id => (<[id := d]> acc.1, acc.2)
                  | None => (acc.1, (acc.2 ++ [d])%list)
                  end) (∅, []) l.

(** Taking the first orphan whose instance name is the host name. *)
Fixpoint take_orphan (hostname : string) (orphans : list DiscoveredServer) : option (DiscoveredServer * list DiscoveredServer) :=
  match orphans with
  | [] => None
  | d :: rest =>
      if bool_decide (ds_instance_name d = hostname) then Some (d, rest)
      else '(x, rest') ← take_orphan hostname rest; Some (x, d :: rest')
  end.

(** One entry of the registry with the server it was announced as. *)
Definition combine_step (acc : list ServerItem * gmap Uuid DiscoveredServer * list DiscoveredServer) (entry : ServerRegistryEntry)
    : list ServerItem * gmap Uuid DiscoveredServer * list DiscoveredServer :=
  let '(combined, by_id, orphans) := acc in
  match by_id !! sre_id entry with
  | Some d => ((combined ++ [from_registry entry (Some d)])%list, delete (sre_id entry) by_id, orphans)
  | None =>
      match sre_hostname entry ≫= λ h, take_orphan h orphans with
      | Some (d, orphans') => ((combined ++ [from_registry entry (Some d)])%list, by_id, orphans')
      | None => ((combined ++ [from_registry entry None])%list, by_id, orphans)
      end
  end.

(** [order] is the order in which the hash map is emptied. *)
Definition combined_servers (order : gmap Uuid DiscoveredServer → list (Uuid * DiscoveredServer)) (registry : ServerRegistry)
    (discovered : list DiscoveredServer) : list ServerItem :=
  let '(by_id, orphans) := split_discovered discovered in
  let '(combined, by_id, orphans) := foldl combine_step ([], by_id, orphans) (sr_entries registry) in
  let seen : list Uuid := sre_id <$> sr_entries registry in
  let rest := filter (λ kv, kv.1 ∉ seen) (order by_id) in
  sort_by (λ a b, str_cmp (to_ascii_lowercase (it_label a)) (to_ascii_lowercase (it_label b)))
    (combined ++ (from_discovered <$> orphans) ++ (from_discovered ∘ snd <$> rest))%list.

Definition reselect (selected : option nat) (servers : list ServerItem) : option nat :=
  match servers with
  | [] => None
  | _ => match selected with
         | Some i => if (length servers <=? i)%nat then Some 0%nat else Some i
         | None => Some 0%nat
         end
  end.

Definition rebuild_servers (order : gmap Uuid DiscoveredServer → list (Uuid * DiscoveredServer)) (a : App) : App :=
  let servers := combined_servers order (ap_registry a) (ap_discovered a) in
  set_ap_servers servers (reselect (ap_selected_server a) servers) a.

Definition App_new (order : gmap Uuid DiscoveredServer → list (Uuid * DiscoveredServer)) (config : ClientConfig) (registry : ServerRegistry) : App :=
  rebuild_servers order
    (mkApp config registry [] [] None FServers None "" CommandListState_default false false None None).

Definition set_discovered (order : gmap Uuid DiscoveredServer → list (Uuid * DiscoveredServer)) (servers : list DiscoveredServer) (a : App) : App :=
  rebuild_servers order (set_ap_discovered servers a).

Definition selected_server (a : App) : option ServerItem := i ← ap_selected_server a; ap_servers a !! i.
Definition find_server_by_id (id : Uuid) (a : App) : option ServerItem := snd <$> list_find (λ s, it_id s = Some id) (ap_servers a).
Definition find_server_index (id : Uuid) (a : App) : option nat := fst <$> list_find (λ s, it_id s = Some id) (ap_servers a).
End servers.

(** ** The list of commands *)
Definition matches_filters (query : string) (tag : option string) (cmd : CommandSummary) : bool :=
  let matches_query :=
    str_is_empty query ||
    str_contains query (to_ascii_lowercase (cu_name cmd)) ||
    match cu_description cmd with Some d => str_contains query (to_ascii_lowercase d) | None => false end ||
    existsb (λ t, str_contains query (to_ascii_lowercase t)) (cu_tags cmd) in
  let matches_tag := match tag with Some t => existsb (λ x, bool_decide (x = t)) (cu_tags cmd) | None => true end in
  matches_query && matches_tag.

Fixpoint matching_from (i : nat) (query : string) (tag : option string) (l : list CommandSummary) : list nat :=
  match l with
  | [] => []
  | cmd :: rest => if matches_filters query tag cmd then i :: matching_from (S i) query tag rest else matching_from (S i) query tag rest
  end.

Definition set_selected (i : option nat) (s : CommandListState) : CommandListState :=
  mkCommandListState (cs_commands s) (cs_filtered_indices s) i (cs_search_query s) (cs_tag_filter s) (cs_config_version s)
    (cs_loading s) (cs_error s) (cs_server_id s).

Definition reapply_filters (s : CommandListState) : CommandListState :=
  let filtered := matching_from 0 (to_ascii_lowercase (of_text (cs_search_query s))) (cs_tag_filter s) (cs_commands s) in
  let selected := match cs_selected s with
                  | Some i => if bool_decide (i ∈ filtered) then Some i else head filtered
                  | None => head filtered
                  end in
  mkCommandListState (cs_commands s) filtered selected (cs_search_query s) (cs_tag_filter s) (cs_config_version s)
    (cs_loading s) (cs_error s) (cs_server_id s).

Definition set_command_list (server_id : Uuid) (l : CommandList) (s : CommandListState) : CommandListState :=
  reapply_filters
    (mkCommandListState (cl_commands l) (seq 0 (length (cl_commands l))) (match cl_commands l with [] => None | _ => Some 0%nat end)
       (cs_search_query s) (cs_tag_filter s) (Some (cl_config_version l)) false None (Some server_id)).

Definition set_search_query (query : text) (s : CommandListState) : CommandListState :=
  reapply_filters (mkCommandListState (cs_commands s) (cs_filtered_indices s) (cs_selected s) query (cs_tag_filter s)
    (cs_config_version s) (cs_loading s) (cs_error s) (cs_server_id s)).
Definition set_tag_filter (tag : option string) (s : CommandListState) : CommandListState :=
  reapply_filters (mkCommandListState (cs_commands s) (cs_filtered_indices s) (cs_selected s) (cs_search_query s) tag
    (cs_config_version s) (cs_loading s) (cs_error s) (cs_server_id s)).

Definition selected_command (s : CommandListState) : option CommandSummary :=
  match cs_selected s ≫= λ i, cs_commands s !! i with
  | Some c => Some c
  | None => i ← head (cs_filtered_indices s); cs_commands s !! i
  end.

(** The [BTreeSet] yields its elements in order. *)
Definition available_tags (s : CommandListState) : list string :=
  sort_strings (elements (list_to_set (cs_commands s ≫= cu_tags) : gset string)).

Definition position_of (i : nat) (l : list nat) : nat := default 0%nat (fst <$> list_find (λ j, j = i) l).
Definition select_next (s : CommandListState) : CommandListState :=
  let f := cs_filtered_indices s in
  match f with
  | [] => set_selected None s
  | x :: _ =>
      match cs_selected s with
      | None => set_selected (Some x) s
      | Some current => set_selected (f !! ((position_of current f + 1) mod length f)%nat) s
      end
  end.
Definition select_previous (s : CommandListState) : CommandListState :=
  let f := cs_filtered_indices s in
  match f with
  | [] => set_selected None s
  | _ =>
      match cs_selected s with
      | None => set_selected (last f) s
      | Some current =>
          let position := position_of current f in
          set_selected (f !! (if (position =? 0)%nat then length f - 1 else position - 1)%nat) s
      end
  end.

Definition clear_commands (a : App) : App := set_ap_commands CommandListState_default None a.
Definition set_commands (server_id : Uuid) (l : CommandList) (a : App) : App :=
  set_ap_commands (set_command_list server_id l (ap_command_state a)) None a.
Definition begin_command_load (server_id : Uuid) (a : App) : App :=
  let s := ap_command_state a in
  set_ap_commands (mkCommandListState (cs_commands s) (cs_filtered_indices s) (cs_selected s) (cs_search_query s) (cs_tag_filter s)
    (cs_config_version s) true None (cs_server_id s)) (Some server_id) a.

(** ** The parameter form *)
Definition value_from_parameter (param : CommandParameter) : ParameterValue :=
  match ca_param_type param with
  | CptSlider =>
      let d := match ca_default_value param ≫= parse_i32, ca_min param with
               | Some v, _ => v
               | None, Some m => m
               | None, None => 0
               end in
      PvSlider d (ca_min param) (ca_max param) 1
  | CptText => PvText (chars (default "" (ca_default_value param)))
  | CptToggle => PvToggle (match ca_default_value param with Some v => eq_ignore_ascii_case v "true" | None => false end)
  | CptDropdown =>
      PvDropdown (ca_options param)
        (default 0%nat (d ← ca_default_value param; fst <$> list_find (λ o, o = d) (ca_options param)))
  end.
Definition from_parameter (param : CommandParameter) : ParameterFieldState := mkParameterFieldState param (value_from_parameter param) false.

Definition value_as_string (f : ParameterFieldState) : string :=
  match fs_value f with
  | PvSlider v _ _ _ => pretty v
  | PvText t => of_text t
  | PvToggle b => if b then "true" else "false"
  | PvDropdown options selected => default "" (options !! selected)
  end.

Definition ParameterFormState_new (command : CommandSummary) (server_id : Uuid) (server_label : string) : ParameterFormState :=
  mkParameterFormState command (from_parameter <$> cu_parameters command) 0 false None server_id server_label None.

Definition parameter_values (form : ParameterFormState) : gmap string string :=
  foldl (λ m f, <[ca_name (fs_definition f) := value_as_string f]> m) ∅ (fo_fields form).

Definition CommandExecutionState_new (command_name command_id server_label : string) (server_id : Uuid) (auto_scroll : bool)
    : CommandExecutionState :=
  mkCommandExecutionState command_name server_label server_id command_id [] 0 auto_scroll true None None false.

(** ** Editing *)
Definition insert_char_at (target : text) (index : nat) (ch : string) : text :=
  if (length target <=? index)%nat then (target ++ [ch])%list else (take index target ++ ch :: drop index target)%list.
(** The text, and whether a character was removed. *)
Definition remove_char_at (target : text) (index : nat) : text * bool :=
  if (length target <=? index)%nat then (target, false) else ((take index target ++ drop (S index) target)%list, true).

Definition format_text_with_cursor (value : text) (editing : bool) (cursor : option nat) : string :=
  if negb editing then of_text value
  else
    let c := Nat.min (default (length value) cursor) (length value) in
    of_text (take c value ++ "|" :: drop c value)%list.

Definition parameter_value_display (field : ParameterFieldState) (is_selected editing : bool) (cursor : option nat) : string :=
  match fs_value field with
  | PvSlider value min max _ =>
      fmt [pretty value;
           match min, max with
           | Some lo, Some hi => fmt [" (min "; pretty lo; ", max "; pretty hi; ")"]
           | Some lo, None => fmt [" (min "; pretty lo; ")"]
           | None, Some hi => fmt [" (max "; pretty hi; ")"]
           | None, None => ""
           end]
  | PvText t => format_text_with_cursor t (is_selected && editing) cursor
  | PvToggle b => if b then "true" else "false"
  | PvDropdown options selected => default "" (options !! selected)
  end.
