(* ===== verification/Tui.v ===== *)
(** * The events of the terminal user interface (tui/src/main.rs)

    Keys and the results of background tasks change the application.  A handler takes
    the disk and the application to new ones, may start tasks ([effect]), and may end
    the program with an error.  Drawing is not modelled. *)

From S2P Require Import Prelude RustStd ThirdParty Net Network Fs Io Config Validation SessionState RelayTokens ClientConfig ClientStorage Discovery ClientRelay ClientConnect ClientEnroll ClientCommands CliArgs Cli TuiApp.

Local Open Scope string_scope.
Local Open Scope Z_scope.

(** ** Events *)
(** [KChar] carries one character. *)
Inductive KeyCode :=
  | KChar (c : string)
  | KEsc | KEnter | KTab | KBackTab | KUp | KDown | KLeft | KRight | KHome | KEnd | KBackspace | KDelete
  | KOther.
#[export] Instance KeyCode_eq_dec : EqDecision KeyCode.
Proof. solve_decision. Defined.
Inductive KeyEventKind := KPress | KRepeat | KRelease.
#[export] Instance KeyEventKind_eq_dec : EqDecision KeyEventKind.
Proof. solve_decision. Defined.
(** The modifiers: shift, control, alt, and any other. *)
Record KeyEvent := mkKeyEvent {
  ke_code : KeyCode;
  ke_shift : bool;
  ke_control : bool;
  ke_alt : bool;
  ke_other : bool;
  ke_kind : KeyEventKind;
}.
Definition KeyEvent_new (code : KeyCode) : KeyEvent := mkKeyEvent code false false false false KPress.
Definition no_modifiers (k : KeyEvent) : bool := negb (ke_shift k || ke_control k || ke_alt k || ke_other k).

Inductive CrosstermEvent := CtKey (key : KeyEvent) | CtPaste (s : string) | CtResize (cols rows : Z) | CtMouse | CtFocus (gained : bool).

Inductive CommandExecutionUpdate :=
  | CuStarted (server_id : Uuid) (command_id : string)
  | CuStream (server_id : Uuid) (command_id : string) (event : CommandStreamEvent)
  | CuFinished (server_id : Uuid) (command_id : string) (r : result string Z).
Inductive EnrollmentTaskEvent :=
  | EtStarted (server_id : option Uuid)
  | EtVerificationCode (code : string)
  | EtProgress (message : string)
  | EtCompleted (message : string) (qr_token_expiry : option Z)
  | EtFailed (error : string).
Inductive TaskEvent :=
  | TeDiscoveryFinished (r : result string (list DiscoveredServer))
  | TeCommandListLoaded (server_id : Uuid) (r : result string CommandList)
  | TeCommandExecution (update : CommandExecutionUpdate)
  | TeEnrollment (event : EnrollmentTaskEvent).

(** ** Tasks *)
Inductive effect :=
  | SpDiscovery (config : DiscoveryConfig)
  | SpLoad (entry : ServerRegistryEntry)
  | SpExecute (entry : ServerRegistryEntry) (command_id : string) (parameters : gmap string string)
  | SpApproval (input : ApprovalEnrollmentInput) (label : string)
  | SpQr (input : QrEnrollmentInput) (label : string) (token_expiry : option Z).

Definition tui (A : Type) : Type := World → World * list effect * result string A.
#[export] Instance tui_ret : MRet tui := λ A a w, (w, [], Ok a).
#[export] Instance tui_bind : MBind tui := λ A B f m w,
  match m w with
  | (w1, e1, Ok a) => let '(w2, e2, r) := f a w1 in (w2, (e1 ++ e2)%list, r)
  | (w1, e1, Err e) => (w1, e1, Err e)
  end.
Definition tui_io {A} (m : io A) : tui A := λ w, let '(w', r) := m w in (w', [], r).
Definition spawn (e : effect) : tui unit := λ w, (w, [e], Ok tt).

(** What the library answers to the tasks. *)
Record task_answers := mkTaskAnswers {
  ta_discovery : result string (list DiscoveredServer);
  ta_load : result string CommandList;
  ta_execution : list CommandStreamEvent * result string Z;
  ta_codes : list string;
  ta_approval : result string ApprovalEnrollmentOutcome;
  ta_qr : result string QrEnrollmentOutcome;
}.

Definition execution_events (server_id : Uuid) (command_id : string) (events : list CommandStreamEvent) (r : result string Z)
    : list CommandExecutionUpdate :=
  (CuStarted server_id command_id :: (CuStream server_id command_id <$> events) ++ [CuFinished server_id command_id r])%list.

(** The events a task sends, in order. *)
Definition task_events `{UuidText} (e : effect) (an : task_answers) : list TaskEvent :=
  match e with
  | SpDiscovery _ => [TeDiscoveryFinished (ta_discovery an)]
  | SpLoad entry => [TeCommandListLoaded (sre_id entry) (ta_load an)]
  | SpExecute entry command_id _ =>
      TeCommandExecution <$> execution_events (sre_id entry) command_id (ta_execution an).1 (ta_execution an).2
  | SpApproval input label =>
      TeEnrollment <$>
        ([EtStarted (an_server_id_hint input); EtProgress (fmt ["Waiting for approval from "; label])] ++
         (EtVerificationCode <$> ta_codes an) ++
         [match ta_approval an with
          | Ok outcome => EtCompleted (fmt ["Enrollment complete for "; label; " (server "; uuid_to_string (ao_server_id outcome); ")"]) None
          | Err error => EtFailed error
          end])%list
  | SpQr _ label token_expiry =>
      [TeEnrollment
         match ta_qr an with
         | Ok outcome =>
             EtCompleted (fmt ["Enrollment complete for "; label; " (server "; uuid_to_string (qo_server_id outcome); ")"])
               (match qo_token_expiry outcome with Some t => Some t | None => token_expiry end)
         | Err error => EtFailed error
         end]
  end.

(** ** Keys *)
Definition normalize (k : KeyEvent) : KeyCode :=
  if ke_shift k then match ke_code k with KChar c => KChar (to_ascii_lowercase c) | other => other end else ke_code k.
Definition ctrl_or_alt (k : KeyEvent) : bool := ke_control k || ke_alt k.

(** Escape sequences that arrive as keys. *)
Definition expand_key_event (key : KeyEvent) (a : App) : App * list KeyEvent :=
  let is_plain_press := negb (bool_decide (ke_kind key = KRelease)) && no_modifiers key in
  if is_plain_press && bool_decide (ke_code key = KEsc) then (set_ap_escape (Some []) a, [])
  else
    match ap_pending_escape a with
    | None => (a, [key])
    | Some collected =>
        let fallback := (set_ap_escape None a, [KeyEvent_new KEsc; key]) in
        if is_plain_press then
          match ke_code key with
          | KChar c =>
              match collected with
              | [] => if bool_decide (c = "[") || bool_decide (c = "O") then (set_ap_escape (Some [c]) a, []) else fallback
              | _ =>
                  let arrow code := (set_ap_escape None a, [KeyEvent_new code]) in
                  if bool_decide (c = "A") then arrow KUp
                  else if bool_decide (c = "B") then arrow KDown
                  else if bool_decide (c = "C") then arrow KRight
                  else if bool_decide (c = "D") then arrow KLeft
                  else (set_ap_escape (Some (collected ++ [c])%list) a, [])
              end
          | _ => fallback
          end
        else fallback
    end.

Inductive OverlayHandlerResult := OhContinue (o : Overlay) | OhClose | OhQuit.

(** *** Search *)
Definition handle_search_overlay_key (key : KeyEvent) (a : App) (s : SearchState) : App * OverlayHandlerResult :=
  let len := length (se_query s) in
  let go s := (a, OhContinue (OvSearch s)) in
  match normalize key with
  | KEsc => (a, OhClose)
  | KEnter =>
      let cs := set_search_query (se_query s) (ap_command_state a) in
      let cs := match head (cs_filtered_indices cs) with Some first => set_selected (Some first) cs | None => cs end in
      (set_ap_commands cs (ap_pending_command_server a) a, OhClose)
  | KBackspace =>
      if (0 <? se_cursor s)%nat then
        let i := (se_cursor s - 1)%nat in
        let '(q, removed) := remove_char_at (se_query s) i in
        go (mkSearchState q (if removed : bool then i else se_cursor s))
      else go s
  | KDelete => if (se_cursor s <? len)%nat then go (mkSearchState (remove_char_at (se_query s) (se_cursor s)).1 (se_cursor s)) else go s
  | KLeft => go (mkSearchState (se_query s) (if (0 <? se_cursor s)%nat then se_cursor s - 1 else se_cursor s)%nat)
  | KRight => go (mkSearchState (se_query s) (if (se_cursor s <? len)%nat then se_cursor s + 1 else se_cursor s)%nat)
  | KHome => go (mkSearchState (se_query s) 0)
  | KEnd => go (mkSearchState (se_query s) len)
  | KChar c => if ctrl_or_alt key then go s else go (mkSearchState (insert_char_at (se_query s) (se_cursor s) c) (se_cursor s + 1))
  | _ => go s
  end.

(** *** Tags *)
Definition handle_tag_overlay_event (key : KeyEvent) (a : App) (s : TagFilterState) : App * OverlayHandlerResult :=
  let len := length (tg_tags s) in
  if (len =? 0)%nat then (a, OhClose)
  else
    match normalize key with
    | KEsc => (a, OhClose)
    | KUp | KBackTab =>
        (a, OhContinue (OvTagFilter (mkTagFilterState (tg_tags s) (if (tg_selected s =? 0)%nat then len - 1 else tg_selected s - 1))))
    | KDown | KTab => (a, OhContinue (OvTagFilter (mkTagFilterState (tg_tags s) ((tg_selected s + 1) mod len))))
    | KEnter =>
        let cs := ap_command_state a in
        let cs := if (tg_selected s =? 0)%nat then set_tag_filter None cs
                  else match tg_tags s !! tg_selected s with Some tag => set_tag_filter (Some tag) cs | None => cs end in
        (set_ap_commands cs (ap_pending_command_server a) a, OhClose)
    | _ => (a, OhContinue (OvTagFilter s))
    end.

(** *** Execution *)
Definition handle_execution_overlay_key (key : KeyEvent) (a : App) (s : CommandExecutionState) : App * OverlayHandlerResult :=
  match normalize key with
  | KEsc =>
      if negb (xs_running s) then (a, OhClose)
      else (set_status_message "Command still running; cannot close yet" a, OhContinue (OvCommandExecution s))
  | _ => (a, OhContinue (OvCommandExecution s))
  end.

Definition begin_command_execution (a : App) (entry : ServerRegistryEntry) (command : CommandSummary) (server_label : string)
    (parameters : gmap string string) : tui Overlay :=
  _ ← spawn (SpExecute entry (cu_id command) parameters);
  mret (OvCommandExecution (CommandExecutionState_new (cu_name command) (cu_id command) server_label (sre_id entry)
          (tc_auto_scroll (cc_tui (ap_config a))))).

(** *** The parameter form *)
Definition with_form (fields : list ParameterFieldState) (selected : nat) (editing : bool) (error : option string)
    (cursor : option nat) (s : ParameterFormState) : ParameterFormState :=
  mkParameterFormState (fo_command s) fields selected editing error (fo_server_id s) (fo_server_label s) cursor.
Definition with_value (v : ParameterValue) (f : ParameterFieldState) : ParameterFieldState :=
  mkParameterFieldState (fs_definition f) v (fs_dirty f).

(** A key while a text field is edited: the text, whether editing goes on, and the
    cursor. *)
Definition edit_text (key : KeyEvent) (t : text) (text_cursor : option nat) : text * bool * option nat :=
  let cursor := default (length t) text_cursor in
  match normalize key with
  | KEsc | KEnter => (t, false, None)
  | KBackspace =>
      if (0 <? cursor)%nat then
        let '(t', removed) := remove_char_at t (cursor - 1) in (t', true, Some (if removed : bool then cursor - 1 else cursor)%nat)
      else (t, true, Some cursor)
  | KDelete => let '(t', removed) := remove_char_at t cursor in (t', true, if removed : bool then Some cursor else text_cursor)
  | KLeft => (t, true, Some (if (0 <? cursor)%nat then cursor - 1 else cursor)%nat)
  | KRight => (t, true, Some (if (cursor <? length t)%nat then cursor + 1 else cursor)%nat)
  | KHome => (t, true, Some 0%nat)
  | KEnd => (t, true, Some (length t))
  | KChar c => if ctrl_or_alt key then (t, true, text_cursor) else (insert_char_at t cursor c, true, Some (cursor + 1)%nat)
  | _ => (t, true, text_cursor)
  end.

Definition edit_field (key : KeyEvent) (s : ParameterFormState) : ParameterFormState :=
  match fo_fields s !! fo_selected s with
  | None => s
  | Some f =>
      match fs_value f with
      | PvText t =>
          let '(t', editing, cursor) := edit_text key t (fo_text_cursor s) in
          with_form (<[fo_selected s := with_value (PvText t') f]> (fo_fields s)) (fo_selected s) editing None cursor s
      | _ => with_form (fo_fields s) (fo_selected s) false (fo_error s) None s
      end
  end.

(** [i32] subtraction and addition saturate. *)
Definition value_left (v : ParameterValue) : ParameterValue :=
  match v with
  | PvSlider value min max step =>
      let new := Z.max I32_MIN (Z.min I32_MAX (value - step)) in
      PvSlider (match min with Some m => Z.max new m | None => new end) min max step
  | PvDropdown options selected => PvDropdown options (if (0 <? selected)%nat then selected - 1 else selected)
  | PvToggle b => PvToggle (negb b)
  | PvText t => PvText t
  end.
Definition value_right (v : ParameterValue) : ParameterValue :=
  match v with
  | PvSlider value min max step =>
      let new := Z.max I32_MIN (Z.min I32_MAX (value + step)) in
      PvSlider (match max with Some m => if m <? new then m else new | None => new end) min max step
  | PvDropdown options selected => PvDropdown options (if (selected + 1 <? length options)%nat then selected + 1 else selected)
  | PvToggle b => PvToggle (negb b)
  | PvText t => PvText t
  end.

Definition change_field (g : ParameterValue → ParameterValue) (s : ParameterFormState) : ParameterFormState :=
  match fo_fields s !! fo_selected s with
  | Some f => with_form (<[fo_selected s := with_value (g (fs_value f)) f]> (fo_fields s)) (fo_selected s) (fo_editing s) None (fo_text_cursor s) s
  | None => s
  end.

Definition move_field (i : nat) (s : ParameterFormState) : ParameterFormState := with_form (fo_fields s) i false None None s.

(** A key in the form outside a text field; [None]: the form is closed. *)
Definition form_key (key : KeyEvent) (s : ParameterFormState) : option ParameterFormState :=
  let field_count := length (fo_fields s) in
  match normalize key with
  | KEsc => None
  | KUp | KBackTab =>
      Some (if (0 <? field_count)%nat
            then move_field (if (fo_selected s =? 0)%nat then field_count - 1 else fo_selected s - 1) s else s)
  | KDown | KTab =>
      Some (if (0 <? field_count)%nat then move_field ((fo_selected s + 1) mod field_count) s else s)
  | KLeft => Some (change_field value_left s)
  | KRight => Some (change_field value_right s)
  | KChar c =>
      if bool_decide (c = " ") then
        Some (match fo_fields s !! fo_selected s with
              | Some f => match fs_value f with PvToggle b => change_field (λ _, PvToggle (negb b)) s | _ => s end
              | None => s
              end)
      else Some s
  | KEnter =>
      Some (match fo_fields s !! fo_selected s with
            | Some f => match fs_value f with
                        | PvText t => with_form (fo_fields s) (fo_selected s) true None (Some (length t)) s
                        | _ => s
                        end
            | None => s
            end)
  | _ => Some s
  end.

Section handlers.
Context `{EnrollCrates, PayloadJson, UuidText, !RegexEngine, !TomlCodec RawClientConfig, !TomlCodec ServerRegistryFile}.
Context (env : ClientEnv) (order : gmap Uuid DiscoveredServer → list (Uuid * DiscoveredServer)).

Definition submit_form (a : App) (s : ParameterFormState) : tui OverlayHandlerResult :=
  let s := with_form (fo_fields s) (fo_selected s) false (fo_error s) None s in
  let fail e := mret (OhContinue (OvParameterForm (with_form (fo_fields s) (fo_selected s) false (Some e) None s))) in
  match validate_client_parameters (fo_command s) (parameter_values s) with
  | Err e => fail e
  | Ok sanitized =>
      match find_server_by_id (fo_server_id s) a ≫= it_registry_entry with
      | None => fail "Server enrollment missing"
      | Some entry =>
          overlay ← begin_command_execution a entry (fo_command s) (fo_server_label s) sanitized;
          mret (OhContinue overlay)
      end
  end.

Definition handle_parameter_overlay_event (key : KeyEvent) (a : App) (s : ParameterFormState) : tui (App * OverlayHandlerResult) :=
  if bool_decide (ke_code key = KEnter) && ke_control key then r ← submit_form a s; mret (a, r)
  else if fo_editing s then mret (a, OhContinue (OvParameterForm (edit_field key s)))
  else mret (a, match form_key key s with Some s' => OhContinue (OvParameterForm s') | None => OhClose end).

(** *** Enrolment *)
Definition device_name (a : App) : option string := cc_device (ap_config a) ≫= dv_name.
Definition device_model (a : App) : option string := cc_device (ap_config a) ≫= dv_model.
Definition with_step (step : EnrollmentStep) (expiry : option Z) (s : EnrollmentState) : EnrollmentState :=
  mkEnrollmentState (en_server s) step expiry.

Definition start_approval_enrollment (a : App) (s : EnrollmentState) : tui (App * EnrollmentState) :=
  if ap_enrollment_in_progress a then mret (set_status_message "Enrollment already in progress" a, s)
  else
    let server := en_server s in
    match it_addresses server with
    | [] => mret (a, with_step (EsError "Selected server does not have any reachable addresses") (en_qr_token_expiry s) s)
    | addresses =>
        let s' := with_step (EsApproval (mkApprovalState None "Requesting enrollment..." false)) None s in
        let a' := set_status_message (fmt ["Requesting enrollment for "; it_label server]) (set_ap_enrolling true a) in
        _ ← spawn (SpApproval (mkApprovalEnrollmentInput addresses (it_port server) (it_id server) (device_name a) (device_model a)
                     (60 * NANOS) (2 * NANOS)) (it_label server));
        mret (a', s')
    end.

Definition start_qr_enrollment (a : App) (s : EnrollmentState) (payload : string) (token_expiry : option Z) : tui (App * EnrollmentState) :=
  if ap_enrollment_in_progress a then mret (set_status_message "Enrollment already in progress" a, s)
  else
    let server := en_server s in
    let s' := with_step (EsInProgress "Submitting QR enrollment...") token_expiry s in
    let a' := set_status_message (fmt ["Submitting QR enrollment for "; it_label server]) (set_ap_enrolling true a) in
    _ ← spawn (SpQr (mkQrEnrollmentInput payload (it_id server) (device_name a) (device_model a)) (it_label server) token_expiry);
    mret (a', s').

(** Submitting the payload; [now] is the clock.  Of the error of a payload that is not
    read, the text has the outermost part; the source prints its causes too. *)
Definition submit_qr (now : Z) (a : App) (s : EnrollmentState) (q : QrInputState) : tui (App * EnrollmentState) :=
  let payload := trim (of_text (qi_payload q)) in
  let fail e := mret (a, with_step (EsQrInput (mkQrInputState (qi_payload q) (qi_cursor q) (Some e))) (en_qr_token_expiry s) s) in
  if str_is_empty payload then fail "Paste a QR enrollment payload before submitting"
  else match extract_token_expiry payload with
       | Err e => fail (fmt ["Failed to parse QR payload: "; e])
       | Ok expiry =>
           match expiry with
           | Some t =>
               if t <=? now then fail (fmt ["QR token expired at "; formatted_expiry t; " UTC"])
               else start_qr_enrollment a s payload expiry
           | None => start_qr_enrollment a s payload expiry
           end
       end.

(** A key in the payload field other than Enter and Esc. *)
Definition qr_key (key : KeyEvent) (q : QrInputState) : QrInputState :=
  let len := length (qi_payload q) in
  match ke_code key with
  | KBackspace =>
      if (0 <? qi_cursor q)%nat then
        let '(p, removed) := remove_char_at (qi_payload q) (qi_cursor q - 1) in
        mkQrInputState p (if removed : bool then qi_cursor q - 1 else qi_cursor q)%nat None
      else mkQrInputState (qi_payload q) (qi_cursor q) None
  | KDelete =>
      let '(p, removed) := remove_char_at (qi_payload q) (qi_cursor q) in
      mkQrInputState p (qi_cursor q) (if removed : bool then None else qi_error q)
  | KLeft => mkQrInputState (qi_payload q) (if (0 <? qi_cursor q)%nat then qi_cursor q - 1 else qi_cursor q)%nat (qi_error q)
  | KRight => mkQrInputState (qi_payload q) (if (qi_cursor q <? len)%nat then qi_cursor q + 1 else qi_cursor q)%nat (qi_error q)
  | KHome => mkQrInputState (qi_payload q) 0 (qi_error q)
  | KEnd => mkQrInputState (qi_payload q) len (qi_error q)
  | KChar c =>
      if ctrl_or_alt key then q
      else mkQrInputState (insert_char_at (qi_payload q) (qi_cursor q) c) (qi_cursor q + 1) None
  | _ => q
  end.

Definition handle_enrollment_overlay_event (now : Z) (key : KeyEvent) (a : App) (s : EnrollmentState) : tui (App * OverlayHandlerResult) :=
  let stay := mret (a, OhContinue (OvEnrollment s)) in
  match en_step s with
  | EsMethodSelect =>
      match normalize key with
      | KChar c =>
          if bool_decide (c = "a") then '(a', s') ← start_approval_enrollment a s; mret (a', OhContinue (OvEnrollment s'))
          else if bool_decide (c = "q") then
            mret (set_status_message (fmt ["Paste QR payload for "; it_label (en_server s); " and press Enter"]) a,
                  OhContinue (OvEnrollment (with_step (EsQrInput (mkQrInputState [] 0 None)) None s)))
          else stay
      | KEsc => mret (a, OhClose)
      | _ => stay
      end
  | EsQrInput q =>
      match ke_code key with
      | KEsc => mret (a, OhClose)
      | KEnter => '(a', s') ← submit_qr now a s q; mret (a', OhContinue (OvEnrollment s'))
      | _ => mret (a, OhContinue (OvEnrollment (with_step (EsQrInput (qr_key key q)) (en_qr_token_expiry s) s)))
      end
  | EsApproval _ | EsInProgress _ => match normalize key with KEsc => mret (a, OhClose) | _ => stay end
  | EsCompleted _ | EsError _ => match normalize key with KEsc | KEnter => mret (a, OhClose) | _ => stay end
  end.

(** *** Removing a server *)
(** Errors of the directory are ignored; [gone] as in [io_remove_dir_all]. *)
Definition remove_certificates (gone : string → bool) (server_id : Uuid) : tui unit := λ w,
  match client_config_dir env w with
  | (w', Err _) => (w', [], Ok tt)
  | (w', Ok config_dir) =>
      let dir := path_join (path_join config_dir "client-certs") (uuid_to_string server_id) in
      if fs_exists dir (w_fs w') then ((io_remove_dir_all gone dir w').1, [], Ok tt) else (w', [], Ok tt)
  end.

Definition remove_server (gone : string → bool) (a : App) (server_id : Uuid) : tui App :=
  registry ← tui_io (registry_load env);
  let registry := registry_remove server_id registry in
  _ ← tui_io (registry_save env registry);
  _ ← remove_certificates gone server_id;
  mret (set_status_message "Enrollment removed" (rebuild_servers order (clear_commands (set_ap_registry registry a)))).

Definition execute_prompt_action (gone : string → bool) (a : App) (action : PromptAction) : tui App :=
  match action with PaNone => mret a | PaRemoveServer id => remove_server gone a id end.

Definition handle_prompt_overlay_event (gone : string → bool) (key : KeyEvent) (a : App) (s : PromptState) : tui (App * OverlayHandlerResult) :=
  let stay := mret (a, OhContinue (OvPrompt s)) in
  let run := a' ← execute_prompt_action gone a (pr_action s); mret (a', OhClose) in
  match normalize key with
  | KEsc => mret (a, OhClose)
  | KEnter => run
  | KChar c => if bool_decide (c = "n") then mret (a, OhClose) else if bool_decide (c = "y") then run else stay
  | _ => stay
  end.

Definition handle_overlay_value (now : Z) (gone : string → bool) (key : KeyEvent) (a : App) (overlay : Overlay) : tui (App * OverlayHandlerResult) :=
  match overlay with
  | OvSearch s => mret (handle_search_overlay_key key a s)
  | OvTagFilter s => mret (handle_tag_overlay_event key a s)
  | OvParameterForm s => handle_parameter_overlay_event key a s
  | OvCommandExecution s => mret (handle_execution_overlay_key key a s)
  | OvEnrollment s => handle_enrollment_overlay_event now key a s
  | OvPrompt s => handle_prompt_overlay_event gone key a s
  | OvHelp => mret (a, if bool_decide (ke_code key = KEsc) || bool_decide (ke_code key = KChar "q") then OhClose else OhContinue OvHelp)
  end.

(** *** Keys without an overlay *)
Definition trigger_discovery (a : App) : tui App :=
  if ap_discovery_in_progress a then mret a
  else
    _ ← spawn (SpDiscovery (cc_discovery (ap_config a)));
    mret (set_status_message "Discovering servers..." (set_ap_discovering true a)).

Definition trigger_enrollment (a : App) : App :=
  if ap_enrollment_in_progress a then set_status_message "Enrollment already in progress" a
  else match selected_server a with
       | None => set_status_message "Select a server to enroll" a
       | Some server =>
           match it_registry_entry server, it_addresses server with
           | Some _, _ => set_status_message "Server is already enrolled" a
           | None, [] => set_status_message "Selected server does not have any reachable addresses" a
           | None, _ =>
               set_status_message (fmt ["Select enrollment method for "; it_label server])
                 (set_ap_overlay (Some (OvEnrollment (mkEnrollmentState server EsMethodSelect None))) a)
           end
       end.

Definition trigger_command_activation (a : App) : tui App :=
  let cs := ap_command_state a in
  let say m := mret (set_status_message m a) in
  match cs_filtered_indices cs with
  | [] => say "No commands available"
  | _ =>
      match selected_command cs with
      | None => say "Select a command first"
      | Some command =>
          if bool_decide (cu_session_mode command ≠ CsOneShot) then
            say "Selected capability requires realtime session (not yet supported)"
          else if bool_decide (cu_kind command ≠ CkShellScript) then say "Selected capability type is not supported in the TUI"
          else
            match cs_server_id cs with
            | None => say "Unknown target server for command"
            | Some server_id =>
                match find_server_by_id server_id a ≫= it_registry_entry with
                | None => say "Server not enrolled"
                | Some entry =>
                    let server_label := default (uuid_to_string server_id) (it_label <$> find_server_by_id server_id a) in
                    let needs_confirmation := cu_requires_confirmation command || tc_confirm_commands (cc_tui (ap_config a)) in
                    if bool_decide (cu_parameters command = []) && negb needs_confirmation then
                      match validate_client_parameters command ∅ with
                      | Err e => say (fmt ["Failed to start command: "; e])
                      | Ok sanitized =>
                          overlay ← begin_command_execution a entry command server_label sanitized;
                          mret (set_ap_overlay (Some overlay) a)
                      end
                    else mret (set_ap_overlay (Some (OvParameterForm (ParameterFormState_new command server_id server_label))) a)
                end
            end
      end
  end.

Definition open_remove_prompt (a : App) : App :=
  match selected_server a with
  | None => set_status_message "Select an enrolled server to remove" a
  | Some server =>
      match it_id server, it_registry_entry server with
      | None, _ => set_status_message "Cannot remove a discovered server without enrollment" a
      | Some _, None => set_status_message "Server is not enrolled" a
      | Some server_id, Some _ =>
          set_status_message (fmt ["Confirm removal for "; it_label server; " (Enter removes, Esc cancels)"])
            (set_ap_overlay (Some (OvPrompt (mkPromptState "Remove Enrollment"
               (fmt ["Remove stored enrollment and certificates for "; it_label server; "?"]) "Remove" "Cancel"
               (PaRemoveServer server_id)))) a)
      end
  end.

Definition open_tag_filter_overlay (a : App) : App :=
  let cs := ap_command_state a in
  match cs_commands cs, available_tags cs with
  | [], _ => set_status_message "Load commands before filtering" a
  | _, [] => set_status_message "Commands do not define tags" a
  | _, tags =>
      let tags := "All" :: tags in
      let current := tag ← cs_tag_filter cs; fst <$> list_find (λ t, t = tag) tags in
      set_ap_overlay (Some (OvTagFilter (mkTagFilterState tags (default 0%nat current)))) a
  end.

Definition toggle_focus (a : App) : App :=
  match ap_focus a with
  | FServers => match cs_commands (ap_command_state a) with [] => a | _ => set_ap_focus FCommands a end
  | FCommands => set_ap_focus FServers a
  end.

Definition move_selection_up (a : App) : App :=
  match ap_servers a with
  | [] => a
  | _ => match ap_selected_server a with
         | Some current => if (0 <? current)%nat then set_ap_selected (Some (current - 1)%nat) a else a
         | None => set_ap_selected (Some (length (ap_servers a) - 1)%nat) a
         end
  end.
Definition move_selection_down (a : App) : App :=
  match ap_servers a with
  | [] => a
  | _ => match ap_selected_server a with
         | Some current => if (current + 1 <? length (ap_servers a))%nat then set_ap_selected (Some (current + 1)%nat) a else a
         | None => set_ap_selected (Some 0%nat) a
         end
  end.
Definition on_commands (f : CommandListState → CommandListState) (a : App) : App :=
  match cs_filtered_indices (ap_command_state a) with
  | [] => a
  | _ => set_ap_commands (f (ap_command_state a)) (ap_pending_command_server a) a
  end.
Definition move_up (a : App) : App := match ap_focus a with FServers => move_selection_up a | FCommands => on_commands select_previous a end.
Definition move_down (a : App) : App := match ap_focus a with FServers => move_selection_down a | FCommands => on_commands select_next a end.

(** Enter on a server. *)
Definition load_selected (a : App) : tui App :=
  match selected_server a with
  | None => mret a
  | Some server =>
      match it_registry_entry server with
      | None => mret (set_status_message "Server not enrolled; enroll before listing commands" a)
      | Some entry =>
          if cs_loading (ap_command_state a) then mret (set_status_message "Already fetching commands..." a)
          else match it_id server with
               | None => mret (set_status_message "Server has unknown ID; unable to fetch commands" a)
               | Some server_id =>
                   _ ← spawn (SpLoad entry);
                   mret (set_status_message (fmt ["Fetching commands for "; it_label server]) (begin_command_load server_id a))
               end
      end
  end.

Definition open_search (a : App) : App :=
  let cs := ap_command_state a in
  match cs_commands cs with
  | [] => set_status_message "Load commands before searching" a
  | _ => set_ap_overlay (Some (OvSearch (mkSearchState (cs_search_query cs) (length (cs_search_query cs))))) a
  end.

(** The [bool]: quit. *)
Definition handle_plain_key (code : KeyCode) (a : App) : tui (App * bool) :=
  let stay (m : tui App) : tui (App * bool) := a' ← m; mret (a', false) in
  match code with
  | KTab | KBackTab => stay (mret (toggle_focus a))
  | KRight => stay (mret (match cs_commands (ap_command_state a) with [] => a | _ => set_ap_focus FCommands a end))
  | KLeft => stay (mret (set_ap_focus FServers a))
  | KEnter => stay (match ap_focus a with FServers => load_selected a | FCommands => trigger_command_activation a end)
  | KUp => stay (mret (move_up a))
  | KDown => stay (mret (move_down a))
  | KChar c =>
      if bool_decide (c = "q") then mret (a, true)
      else if bool_decide (c = "d") then stay (trigger_discovery a)
      else if bool_decide (c = "e") then stay (mret (trigger_enrollment a))
      else if bool_decide (c = "r") then stay (mret (open_remove_prompt a))
      else if bool_decide (c = "k") || bool_decide (c = "K") then stay (mret (move_up a))
      else if bool_decide (c = "j") || bool_decide (c = "J") then stay (mret (move_down a))
      else if bool_decide (c = "/") then stay (mret (open_search a))
      else if bool_decide (c = "t") then stay (mret (open_tag_filter_overlay a))
      else if bool_decide (c = "x") then stay (trigger_command_activation a)
      else mret (a, false)
  | _ => mret (a, false)
  end.

(** What an overlay's handler leaves: the overlay was taken out before. *)
Definition after_overlay (r : App * OverlayHandlerResult) : App * bool :=
  match r.2 with
  | OhContinue next => (set_ap_overlay (Some next) r.1, false)
  | OhClose => (r.1, false)
  | OhQuit => (r.1, true)
  end.

Definition handle_key_event (now : Z) (gone : string → bool) (key : KeyEvent) (a : App) : tui (App * bool) :=
  if bool_decide (ke_kind key = KRelease) then mret (a, false)
  else if ke_control key && bool_decide (ke_code key = KChar "c") then mret (a, true)
  else
    match ap_overlay a with
    | Some overlay => r ← handle_overlay_value now gone key (set_ap_overlay None a) overlay; mret (after_overlay r)
    | None => handle_plain_key (normalize key) a
    end.

Fixpoint handle_keys (now : Z) (gone : string → bool) (keys : list KeyEvent) (a : App) : tui (App * bool) :=
  match keys with
  | [] => mret (a, false)
  | key :: rest => '(a', quit) ← handle_key_event now gone key a; if quit : bool then mret (a', true) else handle_keys now gone rest a'
  end.

Definition handle_input_event (now : Z) (gone : string → bool) (event : CrosstermEvent) (a : App) : tui (App * bool) :=
  match event with
  | CtKey key => let '(a', keys) := expand_key_event key a in handle_keys now gone keys a'
  | _ => mret (a, false)
  end.

(** ** Task events *)
Definition with_execution (running : bool) (code : option Z) (error : option string) (output : list CommandOutputLine)
    (s : CommandExecutionState) : CommandExecutionState :=
  mkCommandExecutionState (xs_command_name s) (xs_server_label s) (xs_server_id s) (xs_command_id s) output
    (xs_scroll_offset s) (xs_auto_scroll s) running code error (xs_paused s).
Definition scroll_home (s : CommandExecutionState) : CommandExecutionState :=
  mkCommandExecutionState (xs_command_name s) (xs_server_label s) (xs_server_id s) (xs_command_id s) (xs_output s)
    0 (xs_auto_scroll s) (xs_running s) (xs_exit_code s) (xs_error s) (xs_paused s).

Definition output_line (event : CommandStreamEvent) : CommandOutputLine :=
  match event with EvStdout line => mkCommandOutputLine ChStdout line | EvStderr line => mkCommandOutputLine ChStderr line end.

(** The overlay of the execution, if it is the one shown. *)
Definition shown_execution (server_id : Uuid) (command_id : string) (a : App) : option CommandExecutionState :=
  match ap_overlay a with
  | Some (OvCommandExecution s) => if bool_decide (xs_server_id s = server_id ∧ xs_command_id s = command_id) then Some s else None
  | _ => None
  end.
Definition show_execution (s : CommandExecutionState) (a : App) : App := set_ap_overlay (Some (OvCommandExecution s)) a.

Definition handle_execution_update (update : CommandExecutionUpdate) (a : App) : App :=
  match update with
  | CuStarted server_id command_id =>
      set_status_message "Command execution started"
        (match shown_execution server_id command_id a with
         | Some s => show_execution (scroll_home (with_execution true None None [] s)) a
         | None => a
         end)
  | CuStream server_id command_id event =>
      match shown_execution server_id command_id a with
      | Some s =>
          let s' := with_execution (xs_running s) (xs_exit_code s) (xs_error s) (xs_output s ++ [output_line event])%list s in
          show_execution (if xs_auto_scroll s then scroll_home s' else s') a
      | None => a
      end
  | CuFinished server_id command_id r =>
      match shown_execution server_id command_id a with
      | Some s =>
          match r with
          | Ok code =>
              let m := fmt ["Command completed with exit code "; pretty code] in
              set_status_message m
                (show_execution (with_execution false (Some code) (xs_error s) (xs_output s ++ [mkCommandOutputLine ChStatus m])%list s) a)
          | Err e =>
              let m := fmt ["Command failed: "; e] in
              set_status_message m
                (show_execution (with_execution false (xs_exit_code s) (Some e) (xs_output s ++ [mkCommandOutputLine ChStatus m])%list s) a)
          end
      | None => a
      end
  end.

(** Changing the enrolment overlay, if it is shown. *)
Definition on_enrollment (f : EnrollmentState → EnrollmentState) (a : App) : App :=
  match ap_overlay a with
  | Some (OvEnrollment s) => set_ap_overlay (Some (OvEnrollment (f s))) a
  | _ => a
  end.
Definition set_step (step : EnrollmentStep) (s : EnrollmentState) : EnrollmentState := with_step step (en_qr_token_expiry s) s.

Definition handle_enrollment_task (event : EnrollmentTaskEvent) (a : App) : tui App :=
  match event with
  | EtStarted _ =>
      let m := "Enrollment request sent; waiting for verification code" in
      mret (set_status_message m (on_enrollment (λ s,
        set_step (EsApproval (match en_step s with
                              | EsApproval ap => mkApprovalState (av_verification_code ap) m true
                              | _ => mkApprovalState None m true
                              end)) s) a))
  | EtVerificationCode code =>
      let m := "Approve this request on the server to continue" in
      mret (set_status_message (fmt ["Enter verification code "; code; " on the server to approve enrollment"])
        (on_enrollment (λ s,
          set_step (EsApproval (match en_step s with
                                | EsApproval ap => mkApprovalState (Some code) m (av_started ap)
                                | _ => mkApprovalState (Some code) m true
                                end)) s) a))
  | EtProgress message =>
      mret (set_status_message message (on_enrollment (λ s,
        set_step (match en_step s with
                  | EsApproval ap => EsApproval (mkApprovalState (av_verification_code ap) message (av_started ap))
                  | _ => EsInProgress message
                  end) s) a))
  | EtCompleted message expiry => λ w,
      let a := on_enrollment (λ s, with_step (EsCompleted message)
                 (match expiry with Some t => Some t | None => en_qr_token_expiry s end) s) (set_ap_enrolling false a) in
      match registry_load env w with
      | (w', Ok registry) => (w', [], Ok (set_status_message message (rebuild_servers order (set_ap_registry registry a))))
      | (w', Err e) => (w', [], Ok (set_status_message (fmt [message; " (registry reload failed: "; e; ")"]) a))
      end
  | EtFailed error =>
      mret (set_status_message (fmt ["Enrollment failed: "; error])
        (on_enrollment (set_step (EsError error)) (set_ap_enrolling false a)))
  end.

Definition handle_command_list (server_id : Uuid) (r : result string CommandList) (a : App) : App :=
  if match ap_pending_command_server a with Some pending => bool_decide (pending ≠ server_id) | None => false end then a
  else
    match r with
    | Ok l =>
        let a := set_commands server_id l a in
        let a := match find_server_index server_id a with Some i => set_ap_selected (Some i) a | None => a end in
        let a := set_ap_focus FCommands a in
        set_status_message
          (fmt ["Loaded commands for "; default (uuid_to_string server_id) (it_label <$> find_server_by_id server_id a)]) a
    | Err e =>
        let s := ap_command_state a in
        set_status_message (fmt ["Failed to load commands: "; e])
          (set_ap_commands (mkCommandListState (cs_commands s) (cs_filtered_indices s) (cs_selected s) (cs_search_query s) (cs_tag_filter s)
             (cs_config_version s) false (Some e) (cs_server_id s)) None a)
    end.

Definition handle_task_event (event : TaskEvent) (a : App) : tui App :=
  match event with
  | TeDiscoveryFinished r =>
      let a := set_ap_discovering false a in
      mret (match r with
            | Ok servers =>
                set_status_message (fmt ["Discovery complete ("; pretty (length servers); " servers)"]) (set_discovered order servers a)
            | Err e => set_status_message (fmt ["Discovery failed: "; e]) a
            end)
  | TeCommandListLoaded server_id r => mret (handle_command_list server_id r a)
  | TeCommandExecution update => mret (handle_execution_update update a)
  | TeEnrollment event => handle_enrollment_task event a
  end.

(** What [main] does before its loop. *)
Definition tui_start : tui App :=
  config ← tui_io (with_context "Failed to load client configuration" (load_client_config env));
  registry ← tui_io (with_context "Failed to load server registry" (registry_load env));
  let a := App_new order config registry in
  if dc_auto_discover (cc_discovery config) then trigger_discovery a else mret (set_status_message "Ready" a).

(** ** The loop *)
(** The application and the tasks started so far, each with the number of its events
    that were handled.  [an k] is what the library answers to task [k]. *)
Record Running := mkRunning { ru_app : App; ru_tasks : list (effect * nat) }.
Inductive loop_op :=
  | LpInput (event : CrosstermEvent) (now : Z) (gone : string → bool) (w : World)
  | LpTask (k : nat) (w : World)
  | LpTick.

(** [Ok None]: the program quits; [Err]: it ends with the error of a handler.  The
    outer [None]: no such event is there.  The disk is an input of each step: tasks
    and other programs write to it. *)
Definition loop_step (an : nat → task_answers) (op : loop_op) (s : Running) : option (result string (option Running)) :=
  match op with
  | LpTick => Some (Ok (Some s))
  | LpInput event now gone w =>
      let '(_, es, r) := handle_input_event now gone event (ru_app s) w in
      Some ('(a, quit) ← r; Ok (if quit : bool then None else Some (mkRunning a (ru_tasks s ++ ((λ e, (e, 0%nat)) <$> es))%list)))
  | LpTask k w =>
      '(e, n) ← ru_tasks s !! k;
      event ← task_events e (an k) !! n;
      let '(_, es, r) := handle_task_event event (ru_app s) w in
      Some (a ← r; Ok (Some (mkRunning a (<[k := (e, S n)]> (ru_tasks s) ++ ((λ e, (e, 0%nat)) <$> es))%list)))
  end.

(** A run that has not ended. *)
Fixpoint loop_run (an : nat → task_answers) (ops : list loop_op) (s : Running) : option Running :=
  match ops with
  | [] => Some s
  | op :: rest =>
      match loop_step an op s with
      | Some (Ok (Some s')) => loop_run an rest s'
      | _ => None
      end
  end.
End handlers.
