(* ===== verification/TuiRun.v ===== *)
(** * What holds of the terminal user interface (tui/src/main.rs)

    The state stays well formed under every sequence of keys and task results, and the
    execution view shows exactly what the running command sent. *)

From S2P Require Import Prelude RustStd ThirdParty Net Network Fs Io Config Validation SessionState RelayTokens ClientConfig ClientStorage Discovery ClientRelay ClientConnect ClientEnroll ClientCommands SessionEnds CliArgs Cli TuiApp Tui.

Local Open Scope string_scope.
Local Open Scope Z_scope.

(** ** Reasoning about handlers *)
(** When a handler returns, what it returns and starts satisfies [P]. *)
Definition spec {A} (m : tui A) (P : A → list effect → Prop) : Prop := ∀ w w' es a, m w = (w', es, Ok a) → P a es.

Lemma spec_ret {A} (a : A) (P : A → list effect → Prop) : P a [] → spec (mret a) P.
Proof. by intros HP w w' es b [= _ <- <-]. Qed.
Lemma spec_bind {A B} (m : tui A) (f : A → tui B) (P : A → list effect → Prop) (Q : B → list effect → Prop) :
  spec m P → (∀ a es, P a es → spec (f a) (λ b es', Q b (es ++ es')%list)) → spec (m ≫= f) Q.
Proof.
  intros Hm Hf w w' es b. unfold mbind, tui_bind. destruct (m w) as [[w1 e1] [a|e]] eqn:E; [|done].
  destruct (f a w1) as [[w2 e2] r] eqn:E2. intros [= _ <- ->]. by eapply Hf, E2; eapply Hm, E.
Qed.
Lemma spec_weaken {A} (m : tui A) (P Q : A → list effect → Prop) : spec m P → (∀ a es, P a es → Q a es) → spec m Q.
Proof. intros Hm HPQ w w' es a E. by eapply HPQ, Hm. Qed.
Lemma spec_io {A} (m : io A) : spec (tui_io m) (λ _ es, es = []).
Proof. intros w w' es a. unfold tui_io. destruct (m w). by intros [= _ <- _]. Qed.
Lemma spec_spawn e : spec (spawn e) (λ _ es, es = [e]).
Proof. by intros w w' es a [= _ <- _]. Qed.
Lemma spec_true {A} (m : tui A) : spec m (λ _ _, True).
Proof. done. Qed.

(** ** Well-formedness *)
(** An [i32] bound, as the wire has it. *)
Definition i32_opt (o : option Z) : Prop := match o with Some z => I32_MIN <= z <= I32_MAX | None => True end.
Definition param_i32 (p : CommandParameter) : Prop := i32_opt (ca_min p) ∧ i32_opt (ca_max p).
Definition command_i32 (c : CommandSummary) : Prop := Forall param_i32 (cu_parameters c).

Definition selection_ok (selected : option nat) (servers : list ServerItem) : Prop :=
  match selected with Some i => (i < length servers)%nat | None => servers = [] end.

(** The filtered list is what the filters say, and the selection is in it. *)
Record commands_ok (s : CommandListState) : Prop := {
  ko_filtered : cs_filtered_indices s = matching_from 0 (to_ascii_lowercase (of_text (cs_search_query s))) (cs_tag_filter s) (cs_commands s);
  ko_selected : match cs_selected s with Some i => i ∈ cs_filtered_indices s | None => cs_filtered_indices s = [] end;
  ko_i32 : Forall command_i32 (cs_commands s);
}.

Record base_ok (a : App) : Prop := {
  bo_selection : selection_ok (ap_selected_server a) (ap_servers a);
  bo_entries : omap it_registry_entry (ap_servers a) ≡ₚ sr_entries (ap_registry a);
  bo_ids : Forall (λ s, ∀ e, it_registry_entry s = Some e → it_id s = Some (sre_id e)) (ap_servers a);
  bo_commands : commands_ok (ap_command_state a);
  bo_loading : cs_loading (ap_command_state a) = bool_decide (is_Some (ap_pending_command_server a));
}.

(** A value fits its parameter's type.  A slider's value need not lie in its range: the
    default is taken as it is, and a step is cut off only at the end it goes towards. *)
Definition field_ok (f : ParameterFieldState) : Prop :=
  let p := fs_definition f in
  match ca_param_type p, fs_value f with
  | CptSlider, PvSlider v min max step => min = ca_min p ∧ max = ca_max p ∧ step = 1 ∧ I32_MIN <= v <= I32_MAX
  | CptText, PvText _ => True
  | CptToggle, PvToggle _ => True
  | CptDropdown, PvDropdown options selected => options = ca_options p ∧ (selected < length options ∨ selected = 0)%nat
  | _, _ => False
  end.

(** The cursor is shown while a text field is edited, and is inside the text. *)
Definition cursor_ok (s : ParameterFormState) : Prop :=
  if fo_editing s then
    ∃ f t c, fo_fields s !! fo_selected s = Some f ∧ fs_value f = PvText t ∧ fo_text_cursor s = Some c ∧ (c <= length t)%nat
  else fo_text_cursor s = None.

Record form_ok (s : ParameterFormState) : Prop := {
  fk_fields : fs_definition <$> fo_fields s = cu_parameters (fo_command s);
  fk_values : Forall field_ok (fo_fields s);
  fk_i32 : command_i32 (fo_command s);
  fk_selected : (fo_selected s < length (fo_fields s))%nat ∨ fo_fields s = [] ∧ fo_selected s = 0%nat;
  fk_cursor : cursor_ok s;
}.

Definition execution_ok (s : CommandExecutionState) : Prop :=
  xs_scroll_offset s = 0%nat ∧
  (if xs_running s then xs_exit_code s = None ∧ xs_error s = None else is_Some (xs_exit_code s) ∨ is_Some (xs_error s)).

Definition step_ok (step : EnrollmentStep) : Prop :=
  match step with EsQrInput q => (qi_cursor q <= length (qi_payload q))%nat | _ => True end.

(** The help overlay is never opened. *)
Definition overlay_ok (o : Overlay) : Prop :=
  match o with
  | OvHelp => False
  | OvSearch s => (se_cursor s <= length (se_query s))%nat
  | OvTagFilter s => (tg_selected s < length (tg_tags s))%nat
  | OvParameterForm s => form_ok s
  | OvCommandExecution s => execution_ok s
  | OvEnrollment s => it_registry_entry (en_server s) = None ∧ it_addresses (en_server s) ≠ [] ∧ step_ok (en_step s)
  | OvPrompt s => ∃ id, pr_action s = PaRemoveServer id
  end.

Definition app_ok (a : App) : Prop := base_ok a ∧ match ap_overlay a with Some o => overlay_ok o | None => True end.

(** ** Components *)
Lemma insert_char_length t i c : length (insert_char_at t i c) = S (length t).
Proof.
  unfold insert_char_at. destruct (Nat.leb_spec (length t) i); [rewrite length_app; cbn; lia|].
  rewrite length_app. cbn. rewrite length_take, length_drop. lia.
Qed.
Lemma remove_char_length t i : length (remove_char_at t i).1 = if (remove_char_at t i).2 then (length t - 1)%nat else length t.
Proof.
  unfold remove_char_at. destruct (Nat.leb_spec (length t) i); cbn; [done|]. rewrite length_app, length_take, length_drop. lia.
Qed.
Lemma remove_char_flag t i : (remove_char_at t i).2 = true ↔ (i < length t)%nat.
Proof. unfold remove_char_at. destruct (Nat.leb_spec (length t) i); cbn; split; (done || lia). Qed.

(** *** Servers *)
Section servers.
Context `{UuidText} (order : gmap Uuid DiscoveredServer → list (Uuid * DiscoveredServer)).

Lemma combine_entries entries acc :
  omap it_registry_entry (foldl combine_step acc entries).1.1 = (omap it_registry_entry acc.1.1 ++ entries)%list.
Proof.
  revert acc. induction entries as [|e entries IH]; intros [[combined by_id] orphans]; cbn [foldl]; [by rewrite app_nil_r|].
  rewrite IH, (cons_middle e), (app_assoc _ [e]). f_equal. unfold combine_step.
  destruct (by_id !! sre_id e); [|destruct (sre_hostname e ≫= _) as [[]|]]; cbn [fst]; by rewrite omap_app.
Qed.

Definition item_ok (s : ServerItem) : Prop := ∀ e, it_registry_entry s = Some e → it_id s = Some (sre_id e).

Lemma combine_items entries acc : Forall item_ok acc.1.1 → Forall item_ok (foldl combine_step acc entries).1.1.
Proof.
  revert acc. induction entries as [|e entries IH]; intros [[combined by_id] orphans] Hacc; cbn [foldl]; [done|]. apply IH.
  assert (∀ d, item_ok (from_registry e d)) as Hi by (by intros d e' [= <-]).
  unfold combine_step. destruct (by_id !! sre_id e); [|destruct (sre_hostname e ≫= _) as [[]|]]; cbn [fst];
    (apply Forall_app; split; [done|by constructor]).
Qed.

(** Every enrolled server is listed once, whatever was announced. *)
Lemma combined_servers_entries registry discovered :
  omap it_registry_entry (combined_servers order registry discovered) ≡ₚ sr_entries registry ∧
  Forall item_ok (combined_servers order registry discovered).
Proof.
  unfold combined_servers. destruct (split_discovered discovered) as [by_id orphans].
  pose proof (combine_entries (sr_entries registry) ([], by_id, orphans)) as He.
  pose proof (combine_items (sr_entries registry) ([], by_id, orphans) (Forall_nil_2 _)) as Hi.
  destruct (foldl combine_step _ _) as [[combined by_id'] orphans']. cbn [fst] in *.
  assert (∀ l, omap it_registry_entry (from_discovered <$> l) = [] ∧ Forall item_ok (from_discovered <$> l)) as Hd.
  { induction l as [|d l [IH1 IH2]]; [done|]. split; [done|]. by constructor. }
  split.
  - rewrite sort_by_perm, !omap_app, He, (proj1 (Hd orphans')). rewrite list_fmap_compose, (proj1 (Hd _)). cbn. by rewrite app_nil_r.
  - rewrite sort_by_perm. apply Forall_app. split; [done|]. apply Forall_app. rewrite list_fmap_compose. split; apply Hd.
Qed.

Lemma reselect_ok i servers : selection_ok (reselect i servers) servers.
Proof.
  unfold reselect, selection_ok. destruct servers as [|s l]; [done|]. destruct i as [i|]; [|cbn; lia].
  destruct (Nat.leb_spec (length (s :: l)) i); cbn in *; lia.
Qed.

Lemma rebuild_ok a : commands_ok (ap_command_state a) →
  cs_loading (ap_command_state a) = bool_decide (is_Some (ap_pending_command_server a)) → base_ok (rebuild_servers order a).
Proof.
  intros Hc Hl. destruct (combined_servers_entries (ap_registry a) (ap_discovered a)) as [He Hi].
  split; [apply reselect_ok|exact He|exact Hi|exact Hc|exact Hl].
Qed.
End servers.

(** *** Commands *)
Lemma matching_from_bound i query tag l j : j ∈ matching_from i query tag l → (i <= j < i + length l)%nat.
Proof.
  revert i. induction l as [|c l IH]; intros i; cbn; [by intros ?%not_elem_of_nil|].
  destruct (matches_filters query tag c); [intros [->|Hj%IH]%elem_of_cons; lia|intros Hj%IH; lia].
Qed.

Lemma reapply_ok s : Forall command_i32 (cs_commands s) → commands_ok (reapply_filters s).
Proof.
  intros Hi. split; [done| |done]. cbn. set (f := matching_from _ _ _ _).
  assert (match head f with Some i => i ∈ f | None => f = [] end) as Hh by (destruct f; [done|cbn; set_solver]).
  destruct (cs_selected s); [case_bool_decide; [done|]|]; exact Hh.
Qed.

Lemma select_next_ok s : commands_ok s → commands_ok (select_next s).
Proof.
  intros Hs. unfold select_next. destruct (cs_filtered_indices s) as [|x f] eqn:Ef.
  - destruct Hs as [H1 H2 H3]. by split.
  - destruct (cs_selected s) as [current|]; destruct Hs as [H1 H2 H3]; (split; [done| |done]); cbn [set_selected cs_selected cs_filtered_indices];
      rewrite Ef; [|set_solver].
    destruct (lookup_lt_is_Some_2 (x :: f) ((position_of current (x :: f) + 1) mod length (x :: f))) as [y Hy].
    { apply Nat.mod_upper_bound. done. }
    rewrite Hy. by eapply list_elem_of_lookup_2.
Qed.

Lemma position_of_lt i x f : (position_of i (x :: f) < length (x :: f))%nat.
Proof.
  unfold position_of. destruct (list_find _ _) as [[k y]|] eqn:E; [|cbn; lia].
  apply list_find_Some in E as (Hk%lookup_lt_Some & _). exact Hk.
Qed.

Lemma select_previous_ok s : commands_ok s → commands_ok (select_previous s).
Proof.
  intros Hs. unfold select_previous. destruct (cs_filtered_indices s) as [|x f] eqn:Ef.
  - destruct Hs as [H1 H2 H3]. by split.
  - destruct (cs_selected s) as [current|]; destruct Hs as [H1 H2 H3]; (split; [done| |done]); cbn [set_selected cs_selected cs_filtered_indices];
      rewrite Ef.
    + pose proof (position_of_lt current x f). edestruct (lookup_lt_is_Some_2 (x :: f)) as [y Hy];
        [|rewrite Hy; by eapply list_elem_of_lookup_2]. destruct (_ =? 0)%nat; cbn [length] in *; lia.
    + destruct (last (x :: f)) as [y|] eqn:El; [|by apply last_None in El]. apply last_Some in El as [l' ->]. set_solver.
Qed.

(** *** The form *)
Lemma value_from_parameter_ok p : param_i32 p → field_ok (from_parameter p).
Proof.
  intros [Hmin Hmax]. unfold field_ok, from_parameter, value_from_parameter. cbn. destruct (ca_param_type p); cbn; [|done..|].
  - split_and!; [done..| |]; (destruct (ca_default_value p ≫= parse_i32) as [v|] eqn:E;
      [apply bind_Some in E as (t & _ & [? ?]%parse_i32_range); done|]);
      (destruct (ca_min p); cbn in Hmin; [lia|unfold I32_MIN, I32_MAX; lia]).
  - split; [done|]. destruct (ca_default_value p) as [d|]; [|by right]. cbn.
    destruct (list_find _ _) as [[i o]|] eqn:E; [left|by right]. apply list_find_Some in E as (Hl%lookup_lt_Some & _). exact Hl.
Qed.

Lemma new_form_ok command id label : command_i32 command → form_ok (ParameterFormState_new command id label).
Proof.
  intros Hc. split; cbn.
  - rewrite <-list_fmap_compose. apply list_fmap_id.
  - apply Forall_fmap. eapply Forall_impl; [exact Hc|]. intros p. apply value_from_parameter_ok.
  - done.
  - destruct (cu_parameters command); [by right|left; cbn; lia].
  - done.
Qed.

Lemma form_field_i32 s f : form_ok s → f ∈ fo_fields s → param_i32 (fs_definition f).
Proof.
  intros Hs Hf. pose proof (fk_i32 s Hs) as Hi. unfold command_i32 in Hi. rewrite <-(fk_fields s Hs) in Hi.
  rewrite Forall_forall in Hi. apply Hi. by apply list_elem_of_fmap_2.
Qed.

(** Replacing the value of the selected field. *)
Lemma form_update_ok s f v editing error cursor :
  form_ok s → fo_fields s !! fo_selected s = Some f → field_ok (with_value v f) →
  (if editing : bool then ∃ t c, v = PvText t ∧ cursor = Some c ∧ (c <= length t)%nat else cursor = None) →
  form_ok (with_form (<[fo_selected s := with_value v f]> (fo_fields s)) (fo_selected s) editing error cursor s).
Proof.
  intros Hs Hf Hv Hc. split; cbn.
  - rewrite list_fmap_insert. cbn. rewrite (fk_fields s Hs). apply list_insert_id.
    rewrite <-(fk_fields s Hs), list_lookup_fmap, Hf. done.
  - apply Forall_insert; [apply (fk_values s Hs)|done].
  - apply (fk_i32 s Hs).
  - rewrite length_insert. left. by eapply lookup_lt_Some.
  - unfold cursor_ok. cbn. destruct editing; [|done]. destruct Hc as (t & c & -> & -> & Hc). eexists _, t, c.
    rewrite list_lookup_insert_eq by (by eapply lookup_lt_Some). done.
Qed.

Lemma edit_text_ok key t c : (c <= length t)%nat →
  let '(t', editing, cursor) := edit_text key t (Some c) in
  if editing : bool then ∃ c', cursor = Some c' ∧ (c' <= length t')%nat else cursor = None.
Proof.
  intros Hc. unfold edit_text. change (default (length t) (Some c)) with c. pose proof (remove_char_length t (c - 1)) as Hb. pose proof (remove_char_flag t (c - 1)) as Hbf.
  pose proof (remove_char_length t c) as Hd. pose proof (remove_char_flag t c) as Hdf. pose proof (insert_char_length t c) as Hi.
  destruct (normalize key) as [x| | | | | | | | | | | | |]; try (by eexists); try done; try (eexists; split; [reflexivity|lia]).
  - destruct (ctrl_or_alt key); eexists; (split; [reflexivity|]); [lia|]. rewrite Hi. lia.
  - destruct (Nat.ltb_spec 0 c); eexists; (split; [reflexivity|lia]).
  - destruct (Nat.ltb_spec c (length t)); eexists; (split; [reflexivity|lia]).
  - destruct (Nat.ltb_spec 0 c); [|eexists; split; [reflexivity|lia]].
    destruct (remove_char_at t (c - 1)) as [t' []]; cbn [fst snd] in *; eexists; (split; [reflexivity|lia]).
  - destruct (remove_char_at t c) as [t' []]; cbn [fst snd] in *; eexists; (split; [reflexivity|]); [|lia].
    assert (c < length t)%nat by (by apply Hdf). lia.
Qed.

Lemma edit_field_ok key s : form_ok s → fo_editing s = true → form_ok (edit_field key s).
Proof.
  intros Hs He. pose proof (fk_cursor s Hs) as Hc. unfold cursor_ok in Hc. rewrite He in Hc.
  destruct Hc as (f & t & c & Hf & Hv & Hcur & Hle). unfold edit_field. rewrite Hf, Hv, Hcur.
  pose proof (edit_text_ok key t c Hle) as Ht. destruct (edit_text key t (Some c)) as [[t' editing] cursor].
  apply form_update_ok; [done..| |].
  - pose proof (fk_values s Hs) as Hvs. rewrite Forall_lookup in Hvs. specialize (Hvs _ _ Hf). unfold field_ok in *. cbn. rewrite Hv in Hvs.
    by destruct (ca_param_type (fs_definition f)).
  - destruct editing; [|done]. destruct Ht as (c' & -> & ?). eauto.
Qed.

Lemma value_left_ok f : param_i32 (fs_definition f) → field_ok f → field_ok (with_value (value_left (fs_value f)) f).
Proof.
  intros [Hmin Hmax]. unfold field_ok. cbn [with_value fs_definition fs_value]. destruct (ca_param_type (fs_definition f)), (fs_value f) as [v lo hi step|t|b|options i]; try done; cbn [value_left].
  - intros (-> & -> & -> & Hv). split_and!; [done..| |]; destruct (ca_min (fs_definition f)); cbn in Hmin; unfold I32_MIN, I32_MAX in *; lia.
  - intros [-> Hi]. split; [done|]. destruct (Nat.ltb_spec 0 i); lia.
Qed.
Lemma value_right_ok f : param_i32 (fs_definition f) → field_ok f → field_ok (with_value (value_right (fs_value f)) f).
Proof.
  intros [Hmin Hmax]. unfold field_ok. cbn [with_value fs_definition fs_value]. destruct (ca_param_type (fs_definition f)), (fs_value f) as [v lo hi step|t|b|options i]; try done; cbn [value_right].
  - intros (-> & -> & -> & Hv). destruct (ca_max (fs_definition f)) as [m|]; cbn in Hmax.
    + destruct (Z.ltb_spec m (Z.max I32_MIN (Z.min I32_MAX (v + 1)))); unfold I32_MIN, I32_MAX in *; split_and!; (done || lia).
    + unfold I32_MIN, I32_MAX in *; split_and!; (done || lia).
  - intros [-> Hi]. split; [done|]. destruct (Nat.ltb_spec (i + 1) (length (ca_options (fs_definition f)))); lia.
Qed.

Lemma change_field_ok g s : form_ok s → fo_editing s = false →
  (∀ f, fo_fields s !! fo_selected s = Some f → field_ok f → field_ok (with_value (g (fs_value f)) f)) → form_ok (change_field g s).
Proof.
  intros Hs He Hg. unfold change_field. destruct (fo_fields s !! fo_selected s) as [f|] eqn:Hf; [|done]. rewrite He.
  apply form_update_ok; [done..| |].
  - apply Hg; [done|]. pose proof (fk_values s Hs) as Hvs. rewrite Forall_lookup in Hvs. by apply (Hvs (fo_selected s)).
  - pose proof (fk_cursor s Hs) as Hc. unfold cursor_ok in Hc. by rewrite He in Hc.
Qed.

Lemma move_field_ok i s : form_ok s → (i < length (fo_fields s))%nat → form_ok (move_field i s).
Proof. intros [] Hi. split; try done. by left. Qed.

Lemma form_key_ok key s s' : form_ok s → fo_editing s = false → form_key key s = Some s' → form_ok s'.
Proof.
  intros Hs He. unfold form_key.
  assert (∀ i, (i < length (fo_fields s))%nat → form_ok (if (0 <? length (fo_fields s))%nat then move_field i s else s)) as Hmove.
  { intros i Hi. destruct (_ <? _)%nat; [by apply move_field_ok|done]. }
  assert (∀ i, ((0 < length (fo_fields s))%nat → (i < length (fo_fields s))%nat) →
    form_ok (if (0 <? length (fo_fields s))%nat then move_field i s else s)) as Hgo.
  { intros i Hi. destruct (Nat.ltb_spec 0 (length (fo_fields s))); [apply move_field_ok; auto|done]. }
  assert (∀ f, fo_fields s !! fo_selected s = Some f → param_i32 (fs_definition f)) as Hp.
  { intros f Hf. apply (form_field_i32 s); [done|by eapply list_elem_of_lookup_2]. }
  pose proof (fk_selected s Hs) as Hsel.
  destruct (normalize key) as [x| | | | | | | | | | | | |]; intros Hk; try (injection Hk as <-); try done.
  - case_bool_decide; injection Hk as <-; [|done]. destruct (fo_fields s !! fo_selected s) as [f|] eqn:Hf; [|done].
    destruct (fs_value f) eqn:Hv; try done. apply change_field_ok; [done..|]. intros f' [= <-]%(eq_trans (eq_sym Hf)). unfold field_ok. cbn.
    rewrite Hv. by destruct (ca_param_type (fs_definition f)).
  - destruct (fo_fields s !! fo_selected s) as [f|] eqn:Hf; [|done]. destruct (fs_value f) eqn:Hv; try done.
    destruct Hs. split; try done. unfold cursor_ok. cbn. eauto 10.
  - apply Hgo. intros. apply Nat.mod_upper_bound. lia.
  - apply Hgo. intros. destruct (Nat.eqb_spec (fo_selected s) 0); lia.
  - apply Hgo. intros. destruct (Nat.eqb_spec (fo_selected s) 0); lia.
  - apply Hgo. intros. apply Nat.mod_upper_bound. lia.
  - apply change_field_ok; [done..|]. intros f Hf. apply value_left_ok. by apply Hp.
  - apply change_field_ok; [done..|]. intros f Hf. apply value_right_ok. by apply Hp.
Qed.

(** ** Keys *)
Lemma base_set_commands a cs : base_ok a → commands_ok cs → cs_loading cs = cs_loading (ap_command_state a) →
  base_ok (set_ap_commands cs (ap_pending_command_server a) a).
Proof. intros [] Hc Hl. split; try done. cbn. by rewrite Hl. Qed.

(** What an overlay's handler must leave. *)
Definition handled (r : App * OverlayHandlerResult) : Prop :=
  base_ok r.1 ∧ ap_overlay r.1 = None ∧ match r.2 with OhContinue o => overlay_ok o | OhClose => True | OhQuit => False end.

Lemma handled_stay a o : base_ok a → ap_overlay a = None → overlay_ok o → handled (a, OhContinue o).
Proof. unfold handled. intros. by split_and!. Qed.
Lemma handled_close a : base_ok a → ap_overlay a = None → handled (a, OhClose).
Proof. unfold handled. intros. by split_and!. Qed.

Lemma search_ok key a s : base_ok a → ap_overlay a = None → overlay_ok (OvSearch s) → handled (handle_search_overlay_key key a s).
Proof.
  intros Ha Ho Hs. cbn in Hs. unfold handle_search_overlay_key.
  pose proof (remove_char_length (se_query s) (se_cursor s - 1)) as Hb. pose proof (remove_char_flag (se_query s) (se_cursor s - 1)) as Hbf.
  pose proof (remove_char_length (se_query s) (se_cursor s)) as Hd.
  destruct (normalize key) as [x| | | | | | | | | | | | |]; try (by apply handled_close); try (by apply handled_stay).
  - destruct (ctrl_or_alt key); apply handled_stay; [done..|]. cbn. rewrite insert_char_length. lia.
  - split; [|done]. cbn [fst]. apply base_set_commands; [done| |].
    + set (cs := set_search_query _ _). assert (commands_ok cs) as [H1 H2 H3] by apply reapply_ok, Ha.
      destruct (head (cs_filtered_indices cs)) eqn:Eh; [|done]. split; [done| |done]. cbn.
      apply head_Some_elem_of in Eh. done.
    + by destruct (head _).
  - destruct (Nat.ltb_spec 0 (se_cursor s)); apply handled_stay; try done. cbn. lia.
  - destruct (Nat.ltb_spec (se_cursor s) (length (se_query s))); apply handled_stay; try done. cbn. lia.
  - apply handled_stay; [done..|]. cbn. lia.
  - apply handled_stay; [done..|]. cbn. lia.
  - destruct (Nat.ltb_spec 0 (se_cursor s)); [|by apply handled_stay].
    destruct (remove_char_at (se_query s) (se_cursor s - 1)) as [q []]; cbn [fst snd] in *; apply handled_stay; (done || cbn; lia).
  - destruct (Nat.ltb_spec (se_cursor s) (length (se_query s))); apply handled_stay; try done. cbn.
    rewrite Hd. destruct (remove_char_at (se_query s) (se_cursor s)).2; lia.
Qed.

Lemma tag_ok key a s : base_ok a → ap_overlay a = None → overlay_ok (OvTagFilter s) → handled (handle_tag_overlay_event key a s).
Proof.
  intros Ha Ho Hs. cbn in Hs. unfold handle_tag_overlay_event.
  destruct (Nat.eqb_spec (length (tg_tags s)) 0); [lia|].
  assert (∀ i, (i < length (tg_tags s))%nat → handled (a, OhContinue (OvTagFilter (mkTagFilterState (tg_tags s) i)))) as Hgo
    by (intros; by apply handled_stay).
  assert ((if (tg_selected s =? 0)%nat then length (tg_tags s) - 1 else tg_selected s - 1)%nat < length (tg_tags s))%nat as Hup
    by (destruct (Nat.eqb_spec (tg_selected s) 0); lia).
  assert ((tg_selected s + 1) mod length (tg_tags s) < length (tg_tags s))%nat as Hdown by (by apply Nat.mod_upper_bound).
  destruct (normalize key) as [x| | | | | | | | | | | | |]; try (by apply handled_close); try (by apply handled_stay); try (by apply Hgo).
  split; [|done]. cbn [fst]. assert (∀ t, commands_ok (set_tag_filter t (ap_command_state a))) as Ht by (intros; apply reapply_ok, Ha).
  apply base_set_commands; [done|..]; (destruct (tg_selected s =? 0)%nat; [|destruct (tg_tags s !! tg_selected s)]); try done; try apply Ht.
  apply Ha.
Qed.

Lemma qr_key_ok key q : (qi_cursor q <= length (qi_payload q))%nat → step_ok (EsQrInput (qr_key key q)).
Proof.
  intros Hq. unfold qr_key. cbn [step_ok].
  pose proof (remove_char_length (qi_payload q) (qi_cursor q - 1)) as Hb. pose proof (remove_char_flag (qi_payload q) (qi_cursor q - 1)) as Hbf.
  pose proof (remove_char_length (qi_payload q) (qi_cursor q)) as Hd. pose proof (remove_char_flag (qi_payload q) (qi_cursor q)) as Hdf.
  destruct (ke_code key) as [x| | | | | | | | | | | | |]; try done; try (cbn; lia).
  - destruct (ctrl_or_alt key); [done|]. cbn. rewrite insert_char_length. lia.
  - cbn. destruct (qi_cursor q); cbn; lia.
  - cbn [qi_cursor qi_payload]. destruct (Nat.ltb_spec (qi_cursor q) (length (qi_payload q))); lia.
  - destruct (Nat.ltb_spec 0 (qi_cursor q)); [|done].
    destruct (remove_char_at (qi_payload q) (qi_cursor q - 1)) as [p []]; cbn [fst snd qi_cursor qi_payload] in *; lia.
  - destruct (remove_char_at (qi_payload q) (qi_cursor q)) as [p []]; cbn [fst snd qi_cursor qi_payload] in *; [|lia].
    assert (qi_cursor q < length (qi_payload q))%nat by (by apply Hdf). lia.
Qed.

Section handlers.
Context `{EnrollCrates, PayloadJson, UuidText, !RegexEngine, !TomlCodec RawClientConfig, !TomlCodec ServerRegistryFile}.
Context (env : ClientEnv) (order : gmap Uuid DiscoveredServer → list (Uuid * DiscoveredServer)).

Lemma begin_execution_ok a entry command label ps :
  spec (begin_command_execution a entry command label ps) (λ o es, overlay_ok o ∧ es = [SpExecute entry (cu_id command) ps]).
Proof.
  eapply spec_bind; [apply spec_spawn|]. intros u es ->. apply spec_ret. by split_and!.
Qed.

Lemma submit_ok a s : form_ok s →
  spec (submit_form a s) (λ r _, match r with OhContinue o => overlay_ok o | OhClose => True | OhQuit => False end).
Proof.
  intros Hs. unfold submit_form. set (s' := with_form _ _ _ _ _ s).
  assert (∀ e, form_ok (with_form (fo_fields s') (fo_selected s') false e None s')) as Hf by (intros e; destruct Hs; by split).
  destruct (validate_client_parameters _ _); [|apply spec_ret, Hf]. destruct (find_server_by_id _ a ≫= _); [|apply spec_ret, Hf].
  eapply spec_bind; [apply begin_execution_ok|]. intros o es [Ho _]. by apply spec_ret.
Qed.

Lemma parameter_ok key a s : base_ok a → ap_overlay a = None → overlay_ok (OvParameterForm s) →
  spec (handle_parameter_overlay_event key a s) (λ r _, handled r).
Proof.
  intros Ha Ho Hs. cbn in Hs. unfold handle_parameter_overlay_event. destruct (_ && _).
  { eapply spec_bind; [by apply submit_ok|]. intros r es Hr. apply spec_ret. by split_and!. }
  destruct (fo_editing s) eqn:He; apply spec_ret; [apply handled_stay; [done..|]; by apply edit_field_ok|].
  destruct (form_key key s) as [s'|] eqn:E; [|by apply handled_close]. apply handled_stay; [done..|]. by eapply form_key_ok.
Qed.

(** The enrolment overlay, with the server it was opened for. *)
Definition enroll_handled (server : ServerItem) (r : App * EnrollmentState) : Prop :=
  base_ok r.1 ∧ ap_overlay r.1 = None ∧ en_server r.2 = server ∧ step_ok (en_step r.2).

Lemma start_qr_ok a s payload t : base_ok a → ap_overlay a = None → step_ok (en_step s) →
  spec (start_qr_enrollment a s payload t) (λ r _, enroll_handled (en_server s) r).
Proof.
  intros Ha Ho Hs. unfold start_qr_enrollment. destruct (ap_enrollment_in_progress a); [apply spec_ret; by destruct Ha|].
  eapply spec_bind; [apply spec_spawn|]. intros u es ->. apply spec_ret. by destruct Ha.
Qed.

Lemma submit_qr_ok now a s q : base_ok a → ap_overlay a = None → en_step s = EsQrInput q → (qi_cursor q <= length (qi_payload q))%nat →
  spec (submit_qr now a s q) (λ r _, enroll_handled (en_server s) r).
Proof.
  intros Ha Ho Hs Hq. unfold submit_qr. assert (step_ok (en_step s)) by by rewrite Hs.
  destruct (str_is_empty _); [by apply spec_ret|]. destruct (extract_token_expiry _) as [[t|]|]; [|by apply start_qr_ok|by apply spec_ret].
  destruct (t <=? now); [by apply spec_ret|by apply start_qr_ok].
Qed.

Lemma start_approval_ok a s : base_ok a → ap_overlay a = None → step_ok (en_step s) →
  spec (start_approval_enrollment a s) (λ r _, enroll_handled (en_server s) r).
Proof.
  intros Ha Ho Hs. unfold start_approval_enrollment. destruct (ap_enrollment_in_progress a); [apply spec_ret; by destruct Ha|].
  destruct (it_addresses (en_server s)); [by apply spec_ret|]. eapply spec_bind; [apply spec_spawn|]. intros u es ->.
  apply spec_ret. by destruct Ha.
Qed.

Lemma enrollment_ok now key a s : base_ok a → ap_overlay a = None → overlay_ok (OvEnrollment s) →
  spec (handle_enrollment_overlay_event now key a s) (λ r _, handled r).
Proof.
  intros Ha Ho Hs. assert (spec (mret (a, OhContinue (OvEnrollment s)) : tui _) (λ r _, handled r)) as Hstay
    by (by apply spec_ret, handled_stay).
  assert (spec (mret (a, OhClose) : tui _) (λ r _, handled r)) as Hclose by (by apply spec_ret, handled_close).
  destruct Hs as (He & Haddr & Hs).
  assert (∀ m, spec m (λ r _, enroll_handled (en_server s) r) →
    spec ('(a', s') ← m; mret (a', OhContinue (OvEnrollment s'))) (λ r _, handled r)) as Hgo.
  { intros m Hm. eapply spec_bind; [exact Hm|]. intros [a' s'] es (Ha' & Ho' & Hsv & Hst). apply spec_ret, handled_stay; [done..|].
    cbn in Hsv, Hst. cbn. by rewrite Hsv. }
  unfold handle_enrollment_overlay_event. destruct (en_step s) as [|q|ap|m|m|m] eqn:Est.
  - destruct (normalize key) as [c| | | | | | | | | | | | |]; try done. repeat case_bool_decide; try done.
    + apply Hgo, start_approval_ok; [done..|by rewrite Est].
    + apply spec_ret, handled_stay; [by destruct Ha|done|]. cbn. by split_and!.
  - cbn in Hs. assert (handled (a, OhContinue (OvEnrollment (with_step (EsQrInput (qr_key key q)) (en_qr_token_expiry s) s)))) as Hk.
    { apply handled_stay; [done..|]. cbn [overlay_ok with_step en_server en_step]. split_and!; [done..|]. by apply qr_key_ok. }
    destruct (ke_code key) eqn:Ek; try done; try (by apply spec_ret). by apply Hgo, submit_qr_ok.
  - destruct (normalize key); done.
  - destruct (normalize key); done.
  - destruct (normalize key); done.
  - destruct (normalize key); done.
Qed.

Lemma remove_server_ok gone a id : ap_overlay a = None →
  spec (remove_server env order gone a id) (λ a' _, base_ok a' ∧ ap_overlay a' = None).
Proof.
  intros Ho. unfold remove_server. eapply spec_bind; [apply spec_true|]. intros r es1 _.
  eapply spec_bind; [apply spec_true|]. intros u es2 _. eapply spec_bind; [apply spec_true|]. intros u' es3 _.
  apply spec_ret. split; [|done]. destruct (rebuild_ok order (clear_commands (set_ap_registry (registry_remove id r) a))); [|done|by split].
  split; [done..|constructor].
Qed.

Lemma prompt_ok gone key a s : base_ok a → ap_overlay a = None → overlay_ok (OvPrompt s) →
  spec (handle_prompt_overlay_event env order gone key a s) (λ r _, handled r).
Proof.
  intros Ha Ho [id Hs]. unfold handle_prompt_overlay_event. rewrite Hs. cbn [execute_prompt_action].
  assert (spec (mret (a, OhContinue (OvPrompt s)) : tui _) (λ r _, handled r)) as Hstay
    by (apply spec_ret, handled_stay; [done..|by exists id]).
  assert (spec (mret (a, OhClose) : tui _) (λ r _, handled r)) as Hclose by (by apply spec_ret, handled_close).
  assert (spec (a' ← remove_server env order gone a id; mret (a', OhClose)) (λ r _, handled r)) as Hrun.
  { eapply spec_bind; [by apply remove_server_ok|]. intros a' es [? ?]. by apply spec_ret, handled_close. }
  destruct (normalize key) as [c| | | | | | | | | | | | |]; try done. by repeat case_bool_decide.
Qed.

Lemma overlay_value_ok now gone key a o : base_ok a → ap_overlay a = None → overlay_ok o →
  spec (handle_overlay_value env order now gone key a o) (λ r _, handled r).
Proof.
  intros Ha Ho Hov. destruct o as [|s|s|s|s|s|s]; cbn [handle_overlay_value]; [done|..].
  - by apply spec_ret, search_ok.
  - by apply spec_ret, tag_ok.
  - by apply parameter_ok.
  - apply spec_ret. unfold handle_execution_overlay_key. destruct (normalize key); try (by apply handled_stay).
    destruct (negb (xs_running s)); [by apply handled_close|apply handled_stay; by destruct Ha].
  - by apply enrollment_ok.
  - by apply prompt_ok.
Qed.

Lemma selected_command_i32 cs c : commands_ok cs → selected_command cs = Some c → command_i32 c.
Proof.
  intros Hc Hs. pose proof (ko_i32 cs Hc) as Hi. rewrite Forall_lookup in Hi. unfold selected_command in Hs.
  destruct (cs_selected cs ≫= _) as [c'|] eqn:E.
  - apply bind_Some in E as (i & _ & Hl). injection Hs as <-. by eapply Hi.
  - apply bind_Some in Hs as (i & _ & Hl). by eapply Hi.
Qed.

Lemma app_ok_overlay a o : base_ok a → overlay_ok o → app_ok (set_ap_overlay (Some o) a).
Proof. by intros [] Ho. Qed.
Lemma app_ok_status m a : app_ok a → app_ok (set_status_message m a).
Proof. by intros [[] Ho]. Qed.

Lemma activation_ok a : app_ok a → spec (trigger_command_activation a) (λ a' _, app_ok a').
Proof.
  intros Ha. unfold trigger_command_activation.
  assert (∀ m, spec (mret (set_status_message m a) : tui App) (λ a' _, app_ok a')) as Hsay by (intros m; by apply spec_ret, app_ok_status).
  destruct (cs_filtered_indices _); [done|]. destruct (selected_command _) as [c|] eqn:Ec; [|done].
  case_bool_decide; [done|]. case_bool_decide; [done|]. destruct (cs_server_id _) as [id|]; [|done].
  destruct (find_server_by_id id a ≫= _) as [entry|]; [|done]. cbv zeta. destruct (_ && _).
  - destruct (validate_client_parameters _ _); [|done]. eapply spec_bind; [apply begin_execution_ok|]. intros o es [Ho _].
    apply spec_ret, app_ok_overlay; [apply Ha|done].
  - apply spec_ret, app_ok_overlay; [apply Ha|]. apply new_form_ok. eapply selected_command_i32; [apply Ha|done].
Qed.

Lemma load_selected_ok a : app_ok a → spec (load_selected a) (λ a' _, app_ok a').
Proof.
  intros Ha. unfold load_selected.
  assert (∀ m, spec (mret (set_status_message m a) : tui App) (λ a' _, app_ok a')) as Hsay by (intros m; by apply spec_ret, app_ok_status).
  destruct (selected_server a) as [server|]; [|by apply spec_ret]. destruct (it_registry_entry server); [|done].
  destruct (cs_loading (ap_command_state a)); [done|]. destruct (it_id server); [|done].
  eapply spec_bind; [apply spec_spawn|]. intros u es ->. apply spec_ret. destruct Ha as [[] Ho]. split; [|done].
  split; try done. cbn. by destruct bo_commands0.
Qed.

Lemma trigger_discovery_ok a : app_ok a → spec (trigger_discovery a) (λ a' _, app_ok a').
Proof.
  intros Ha. unfold trigger_discovery. destruct (ap_discovery_in_progress a); [by apply spec_ret|].
  eapply spec_bind; [apply spec_spawn|]. intros u es ->. apply spec_ret. by destruct Ha as [[] ?].
Qed.

Lemma trigger_enrollment_ok a : app_ok a → app_ok (trigger_enrollment a).
Proof.
  intros Ha. unfold trigger_enrollment. destruct (ap_enrollment_in_progress a); [by apply app_ok_status|].
  destruct (selected_server a) as [server|]; [|by apply app_ok_status].
  destruct (it_registry_entry server) eqn:Er; [by apply app_ok_status|]. destruct (it_addresses server) eqn:Ea; [by apply app_ok_status|].
  apply app_ok_status, app_ok_overlay; [apply Ha|]. cbn. rewrite Ea. by split_and!.
Qed.

Lemma remove_prompt_ok a : app_ok a → app_ok (open_remove_prompt a).
Proof.
  intros Ha. unfold open_remove_prompt. destruct (selected_server a) as [server|]; [|by apply app_ok_status].
  destruct (it_id server), (it_registry_entry server); try (by apply app_ok_status).
  apply app_ok_status, app_ok_overlay; [apply Ha|]. by eexists.
Qed.

Lemma tag_overlay_ok a : app_ok a → app_ok (open_tag_filter_overlay a).
Proof.
  intros Ha. unfold open_tag_filter_overlay. destruct (cs_commands _); [by apply app_ok_status|].
  destruct (available_tags _) as [|t tags]; [by apply app_ok_status|]. apply app_ok_overlay; [apply Ha|].
  cbn [overlay_ok tg_selected tg_tags]. destruct (cs_tag_filter _) as [tag|]; [|cbn; lia]. cbn [mbind option_bind].
  destruct (list_find _ _) as [[i x]|] eqn:E; [|cbn; lia]. apply list_find_Some in E as (Hl%lookup_lt_Some & _). exact Hl.
Qed.

Lemma open_search_ok a : app_ok a → app_ok (open_search a).
Proof.
  intros Ha. unfold open_search. destruct (cs_commands _); [by apply app_ok_status|]. apply app_ok_overlay; [apply Ha|]. cbn. lia.
Qed.

Lemma on_commands_ok f a : app_ok a → (∀ s, commands_ok s → commands_ok (f s)) → (∀ s, cs_loading (f s) = cs_loading s) → app_ok (on_commands f a).
Proof.
  intros [Ha Ho] Hf Hl. unfold on_commands. destruct (cs_filtered_indices _); [by split|].
  split; [|done]. apply base_set_commands; [done|apply Hf, Ha|apply Hl].
Qed.

Lemma select_server_ok i a : app_ok a → (i < length (ap_servers a))%nat → app_ok (set_ap_selected (Some i) a).
Proof. by intros [[] Ho] Hi. Qed.

Lemma move_ok a : app_ok a → app_ok (move_up a) ∧ app_ok (move_down a).
Proof.
  intros Ha. unfold move_up, move_down. destruct (ap_focus a).
  - pose proof (bo_selection a (proj1 Ha)) as Hsel. unfold move_selection_up, move_selection_down.
    destruct (ap_servers a) as [|s l] eqn:Es; [done|]. rewrite <-Es in *.
    destruct (ap_selected_server a) as [i|]; cbn in Hsel; [|by rewrite Hsel in Es]. split.
    + destruct (Nat.ltb_spec 0 i); [|done]. apply select_server_ok; [done|lia].
    + destruct (Nat.ltb_spec (i + 1) (length (ap_servers a))); [|done]. by apply select_server_ok.
  - split; apply on_commands_ok; try done; [apply select_previous_ok| |apply select_next_ok|];
      intros s; unfold select_previous, select_next; destruct (cs_filtered_indices s), (cs_selected s); done.
Qed.

Lemma plain_key_ok code a : app_ok a → spec (handle_plain_key code a) (λ r _, app_ok r.1).
Proof.
  intros Ha. unfold handle_plain_key.
  assert (∀ m : tui App, spec m (λ a' _, app_ok a') → spec (a' ← m; mret (a', false)) (λ r _, app_ok r.1)) as Hstay.
  { intros m Hm. eapply spec_bind; [exact Hm|]. intros a' es Ha'. by apply spec_ret. }
  assert (∀ f, app_ok (set_ap_focus f a)) as Hfocus by (intros f; by destruct Ha as [[] ?]).
  destruct code as [c| | | | | | | | | | | | |]; try (by apply spec_ret);
    [|apply Hstay; first [apply spec_ret|idtac]..].
  - repeat case_bool_decide; cbn [orb]; try (by apply spec_ret); apply Hstay.
    all: first [by apply trigger_discovery_ok|by apply activation_ok|apply spec_ret].
    all: first [by apply trigger_enrollment_ok|by apply remove_prompt_ok|by apply move_ok|by apply open_search_ok|by apply tag_overlay_ok].
  - destruct (ap_focus a); [by apply load_selected_ok|by apply activation_ok].
  - unfold toggle_focus. destruct (ap_focus a); [destruct (cs_commands _)|]; done.
  - unfold toggle_focus. destruct (ap_focus a); [destruct (cs_commands _)|]; done.
  - by apply move_ok.
  - by apply move_ok.
  - done.
  - destruct (cs_commands _); done.
Qed.

Lemma key_event_ok now gone key a : app_ok a → spec (handle_key_event env order now gone key a) (λ r _, app_ok r.1).
Proof.
  intros Ha. unfold handle_key_event. case_bool_decide; [by apply spec_ret|]. destruct (_ && _); [by apply spec_ret|].
  destruct (ap_overlay a) as [o|] eqn:Eo; [|by apply plain_key_ok]. destruct Ha as [Hb Ho]. rewrite Eo in Ho.
  eapply spec_bind; [apply overlay_value_ok; [by destruct Hb|done|exact Ho]|]. intros [a' r] es (Hb' & Ho' & Hr). apply spec_ret.
  unfold after_overlay. cbn in *. destruct r as [next| |]; cbn; [by apply app_ok_overlay|split; [done|by rewrite Ho']|done].
Qed.

Lemma keys_ok now gone keys a : app_ok a → spec (handle_keys env order now gone keys a) (λ r _, app_ok r.1).
Proof.
  revert a. induction keys as [|key keys IH]; intros a Ha; cbn [handle_keys]; [by apply spec_ret|].
  eapply spec_bind; [by apply key_event_ok|]. intros [a' []] es Ha'; [by apply spec_ret|]. by apply IH.
Qed.

Lemma expand_ok key a : app_ok a → app_ok (expand_key_event key a).1.
Proof.
  intros Ha. assert (∀ e, app_ok (set_ap_escape e a)) as Hs by (intros e; by destruct Ha as [[] ?]).
  unfold expand_key_event. repeat case_match; simplify_eq/=; auto.
Qed.

Lemma input_ok now gone event a : app_ok a → spec (handle_input_event env order now gone event a) (λ r _, app_ok r.1).
Proof.
  intros Ha. destruct event as [key| | | |]; cbn [handle_input_event]; try (by apply spec_ret).
  pose proof (expand_ok key a Ha) as He. destruct (expand_key_event key a) as [a' keys]. by apply keys_ok.
Qed.

(** ** Task events *)
Definition list_i32 (r : result string CommandList) : Prop := match r with Ok l => Forall command_i32 (cl_commands l) | Err _ => True end.
Definition event_i32 (e : TaskEvent) : Prop := match e with TeCommandListLoaded _ r => list_i32 r | _ => True end.

Lemma command_list_ok id r a : app_ok a → list_i32 r → app_ok (handle_command_list id r a).
Proof.
  intros Ha Hr. unfold handle_command_list. destruct (match ap_pending_command_server a with Some _ => _ | None => _ end); [done|].
  destruct r as [l|e]; cbn in Hr.
  - cbv zeta. apply app_ok_status.
    assert (app_ok (set_commands id l a)) as Hs.
    { destruct Ha as [[] Ho]. split; [|done]. split; try done. by apply reapply_ok. }
    assert (∀ a', app_ok a' → app_ok (set_ap_focus FCommands a')) as Hf by (by intros a' [[] ?]).
    apply Hf. destruct (find_server_index id (set_commands id l a)) as [i|] eqn:E; [|done]. apply select_server_ok; [done|].
    unfold find_server_index in E. apply fmap_Some in E as ([j s] & E & ->). by apply list_find_Some in E as (?%lookup_lt_Some & _).
  - destruct Ha as [[? ? ? [] ?] Ho]. by split; [split|].
Qed.

Lemma execution_update_ok u a : app_ok a → app_ok (handle_execution_update u a).
Proof.
  intros Ha. assert (∀ id cid s, shown_execution id cid a = Some s → execution_ok s) as Hx.
  { intros id cid s Hs. unfold shown_execution in Hs. destruct Ha as [_ Ho]. destruct (ap_overlay a) as [[]|]; try done.
    case_bool_decide; [|done]. by injection Hs as <-. }
  assert (∀ s, execution_ok s → app_ok (show_execution s a)) as Hshow by (intros s Hs; apply app_ok_overlay; [apply Ha|done]).
  destruct u as [id cid|id cid e|id cid r]; cbn [handle_execution_update].
  - apply app_ok_status. destruct (shown_execution id cid a) as [s|]; [|done]. by apply Hshow.
  - destruct (shown_execution id cid a) as [s|] eqn:E; [|done]. apply Hshow. destruct (Hx _ _ _ E) as [? ?].
    by destruct (xs_auto_scroll s).
  - destruct (shown_execution id cid a) as [s|] eqn:E; [|done]. destruct (Hx _ _ _ E) as [? ?].
    destruct r; apply app_ok_status, Hshow; (split; [done|]); cbn; eauto.
Qed.

Lemma on_enrollment_ok f a : app_ok a → (∀ s, en_server (f s) = en_server s ∧ (step_ok (en_step s) → step_ok (en_step (f s)))) →
  app_ok (on_enrollment f a).
Proof.
  intros [Ha Ho] Hf. unfold on_enrollment. destruct (ap_overlay a) as [[| | | | |s|]|] eqn:Eo; try (split; [done|by rewrite Eo]).
  apply app_ok_overlay; [done|]. destruct (Hf s) as [Hs Hst]. cbn in *. rewrite Hs. naive_solver.
Qed.

Lemma enrollment_task_ok e a : app_ok a → spec (handle_enrollment_task env order e a) (λ a' _, app_ok a').
Proof.
  intros Ha. assert (∀ b, app_ok (set_ap_enrolling b a)) as Hen by (intros b; by destruct Ha as [[] ?]).
  destruct e as [id|code|m|m expiry|m]; cbn [handle_enrollment_task].
  - apply spec_ret, app_ok_status, on_enrollment_ok; [done|]. intros s. by destruct (en_step s).
  - apply spec_ret, app_ok_status, on_enrollment_ok; [done|]. intros s. by destruct (en_step s).
  - apply spec_ret, app_ok_status, on_enrollment_ok; [done|]. intros s. by destruct (en_step s).
  - intros w w' es a'. set (a1 := on_enrollment _ _). assert (app_ok a1) as Ha1 by (apply on_enrollment_ok; [done|by intros s]).
    destruct (registry_load env w) as [w1 [r|err]]; intros [= _ _ <-]; [|by apply app_ok_status]. apply app_ok_status.
    split; [apply rebuild_ok; by destruct Ha1 as [[] ?]|apply Ha1].
  - apply spec_ret, app_ok_status, on_enrollment_ok; [done|]. by intros s.
Qed.

Lemma task_event_ok e a : app_ok a → event_i32 e → spec (handle_task_event env order e a) (λ a' _, app_ok a').
Proof.
  intros Ha He. destruct e as [r|id r|u|e]; cbn [handle_task_event].
  - apply spec_ret. assert (app_ok (set_ap_discovering false a)) as Ha1 by (by destruct Ha as [[] ?]).
    destruct r; apply app_ok_status; [|done]. split; [apply rebuild_ok; by destruct Ha1 as [[] ?]|apply Ha1].
  - apply spec_ret. by apply command_list_ok.
  - apply spec_ret. by apply execution_update_ok.
  - by apply enrollment_task_ok.
Qed.

(** ** Runs *)
Lemma App_new_ok config registry : app_ok (App_new order config registry).
Proof. split; [|done]. apply rebuild_ok; [|done]. split; [done..|constructor]. Qed.

Definition answers_i32 (an : nat → task_answers) : Prop := ∀ k, list_i32 (ta_load (an k)).

Lemma task_events_i32 e t : list_i32 (ta_load t) → Forall event_i32 (task_events e t).
Proof.
  intros Hl. destruct e; cbn [task_events]; repeat constructor; try done.
  - apply Forall_fmap, Forall_true. done.
  - apply Forall_fmap, Forall_true. done.
Qed.

Lemma loop_step_ok an op s s' : answers_i32 an → app_ok (ru_app s) → loop_step env order an op s = Some (Ok (Some s')) → app_ok (ru_app s').
Proof.
  intros Han Hs. destruct op as [event now gone w|k w|]; cbn [loop_step]; [| |by intros [= <-]].
  - destruct (handle_input_event env order now gone event (ru_app s) w) as [[w' es] [[a []]|]] eqn:E; cbn; intros [= <-].
    exact (input_ok now gone event _ Hs _ _ _ _ E).
  - intros ([e n] & _ & Hr)%bind_Some. apply bind_Some in Hr as (ev & Hev & Hr).
    destruct (handle_task_event env order ev (ru_app s) w) as [[w' es] [a|]] eqn:E; cbn in Hr; [|done]. injection Hr as <-.
    refine (task_event_ok ev _ Hs _ _ _ _ _ E). pose proof (task_events_i32 e (an k) (Han k)) as Hf.
    rewrite Forall_lookup in Hf. by eapply Hf.
Qed.

Lemma loop_run_ok an ops s0 s : answers_i32 an → app_ok (ru_app s0) → loop_run env order an ops s0 = Some s → app_ok (ru_app s).
Proof.
  intros Han. revert s0. induction ops as [|op ops IH]; intros s0 Hs0; cbn [loop_run]; [by intros [= <-]|].
  destruct (loop_step env order an op s0) as [[[s1|]|]|] eqn:E; try done. apply IH. by eapply loop_step_ok.
Qed.

(** C28: The state of the interface stays well formed.  From the start of the
    program, under every sequence of keys, pastes and other terminal events, under
    every order in which the results of background tasks arrive, and whatever these
    results and the disk are: the selected server, command, tag and parameter exist,
    every cursor is inside its text, the filtered commands are exactly those that
    match, each enrolled server is listed once, every form value fits its parameter's
    type, a commands request is pending exactly while the list says so, and only an
    execution without exit code or error counts as running. *)
Theorem interface_stays_well_formed an config registry ops s :
  answers_i32 an → loop_run env order an ops (mkRunning (App_new order config registry) []) = Some s → app_ok (ru_app s).
Proof. intros Han. apply loop_run_ok; [done|apply App_new_ok]. Qed.
End handlers.

(** ** The execution view *)
Definition exec_of (a : App) : option CommandExecutionState :=
  match ap_overlay a with Some (OvCommandExecution s) => Some s | _ => None end.
Definition is_exec (e : effect) : bool := match e with SpExecute _ _ _ => true | _ => false end.

(** What an operation does to the view: it starts no command and leaves the view, or
    closes the view of a command that has ended, or opens the view of the one command
    it starts. *)
Inductive exec_step (a a' : App) (es : list effect) : Prop :=
  | ExecKept : Forall (λ e, is_exec e = false) es → exec_of a' = exec_of a → exec_step a a' es
  | ExecClosed s : es = [] → exec_of a = Some s → xs_running s = false → exec_of a' = None → exec_step a a' es
  | ExecOpened entry cid ps name label auto :
      es = [SpExecute entry cid ps] → exec_of a = None →
      exec_of a' = Some (CommandExecutionState_new name cid label (sre_id entry) auto) → exec_step a a' es.

(** The same for an overlay's handler. *)
Definition plain_overlay (o : Overlay) : Prop := match o with OvCommandExecution _ => False | _ => True end.
Inductive overlay_step (r : OverlayHandlerResult) (es : list effect) : Prop :=
  | OverlayKept : Forall (λ e, is_exec e = false) es → match r with OhContinue o => plain_overlay o | _ => True end → overlay_step r es
  | OverlayOpened entry cid ps name label auto :
      es = [SpExecute entry cid ps] →
      r = OhContinue (OvCommandExecution (CommandExecutionState_new name cid label (sre_id entry) auto)) → overlay_step r es.

Section view.
Context `{EnrollCrates, PayloadJson, UuidText, !RegexEngine, !TomlCodec RawClientConfig, !TomlCodec ServerRegistryFile}.
Context (env : ClientEnv) (order : gmap Uuid DiscoveredServer → list (Uuid * DiscoveredServer)).

Lemma begin_execution_opens a entry command label ps :
  spec (begin_command_execution a entry command label ps)
    (λ o es, es = [SpExecute entry (cu_id command) ps] ∧
       ∃ name auto, o = OvCommandExecution (CommandExecutionState_new name (cu_id command) label (sre_id entry) auto)).
Proof. eapply spec_bind; [apply spec_spawn|]. intros u es ->. apply spec_ret. eauto. Qed.

Lemma parameter_step key a s : spec (handle_parameter_overlay_event key a s) (λ r es, overlay_step r.2 es).
Proof.
  unfold handle_parameter_overlay_event. destruct (_ && _).
  - eapply (spec_bind _ _ (λ r es, overlay_step r es)); [|intros r es Hr; apply spec_ret; by rewrite app_nil_r].
    unfold submit_form. set (s' := with_form _ _ _ _ _ s).
    destruct (validate_client_parameters _ _); [|by apply spec_ret, OverlayKept]. destruct (find_server_by_id _ a ≫= _); [|by apply spec_ret, OverlayKept].
    eapply spec_bind; [apply begin_execution_opens|]. intros o es (-> & name & auto & ->). apply spec_ret. rewrite app_nil_r.
    by eapply OverlayOpened.
  - destruct (fo_editing s); [by apply spec_ret, OverlayKept|]. apply spec_ret, OverlayKept; [done|]. by destruct (form_key key s).
Qed.

Lemma enrollment_step now key a s : spec (handle_enrollment_overlay_event now key a s) (λ r es, overlay_step r.2 es).
Proof.
  assert (∀ (a : App) r, match r with OhContinue o => plain_overlay o | _ => True end →
    spec (mret (a, r) : tui _) (λ r es, overlay_step r.2 es)) as Hret by (intros; by apply spec_ret, OverlayKept).
  assert (∀ e : effect, is_exec e = false → ∀ (x : App * EnrollmentState),
    spec (_ ← spawn e; mret x) (λ _ es, Forall (λ e, is_exec e = false) es)) as Hsp.
  { intros e He x. eapply spec_bind; [apply spec_spawn|]. intros u es ->. apply spec_ret. by repeat constructor. }
  assert (∀ m : tui (App * EnrollmentState), spec m (λ _ es, Forall (λ e, is_exec e = false) es) →
    spec ('(a', s') ← m; mret (a', OhContinue (OvEnrollment s'))) (λ r es, overlay_step r.2 es)) as Hgo.
  { intros m Hm. eapply spec_bind; [exact Hm|]. intros [a' s'] es Hes. apply spec_ret. rewrite app_nil_r. by apply OverlayKept. }
  unfold handle_enrollment_overlay_event. destruct (en_step s) as [|q|ap|m|m|m].
  - destruct (normalize key); try (by apply Hret). repeat case_bool_decide; try (by apply Hret). apply Hgo.
    unfold start_approval_enrollment. destruct (ap_enrollment_in_progress a); [by apply spec_ret|].
    destruct (it_addresses _); [by apply spec_ret|by apply Hsp].
  - assert (∀ p t, spec (start_qr_enrollment a s p t) (λ _ es, Forall (λ e, is_exec e = false) es)) as Hq.
    { intros p t. unfold start_qr_enrollment. destruct (ap_enrollment_in_progress a); [by apply spec_ret|by apply Hsp]. }
    destruct (ke_code key); try (by apply Hret). apply Hgo. unfold submit_qr. destruct (str_is_empty _); [by apply spec_ret|].
    destruct (extract_token_expiry _) as [[t|]|]; [|apply Hq|by apply spec_ret]. destruct (t <=? now); [by apply spec_ret|apply Hq].
  - destruct (normalize key); by apply Hret.
  - destruct (normalize key); by apply Hret.
  - destruct (normalize key); by apply Hret.
  - destruct (normalize key); by apply Hret.
Qed.

Lemma remove_server_quiet gone a id : spec (remove_server env order gone a id) (λ _ es, es = []).
Proof.
  unfold remove_server. eapply spec_bind; [apply spec_io|]. intros r es ->. eapply spec_bind; [apply spec_io|]. intros u es ->.
  eapply (spec_bind _ _ (λ _ es, es = [])).
  { intros w w' es x. unfold remove_certificates. destruct (client_config_dir env w) as [w1 [d|]]; [case_match|]; by intros [= _ <- _]. }
  intros u' es ->. by apply spec_ret.
Qed.

Lemma prompt_step gone key a s : spec (handle_prompt_overlay_event env order gone key a s) (λ r es, overlay_step r.2 es).
Proof.
  assert (∀ (a : App) r, match r with OhContinue o => plain_overlay o | _ => True end →
    spec (mret (a, r) : tui _) (λ r es, overlay_step r.2 es)) as Hret by (intros; by apply spec_ret, OverlayKept).
  assert (spec (a' ← execute_prompt_action env order gone a (pr_action s); mret (a', OhClose)) (λ r es, overlay_step r.2 es)) as Hrun.
  { eapply (spec_bind _ _ (λ _ es, es = [])); [|intros a' es ->; by apply Hret].
    destruct (pr_action s); [by apply spec_ret|apply remove_server_quiet]. }
  unfold handle_prompt_overlay_event. destruct (normalize key); try done; try (by apply Hret). repeat case_bool_decide; try done; by apply Hret.
Qed.

Lemma overlay_value_step now gone key a o : plain_overlay o →
  spec (handle_overlay_value env order now gone key a o) (λ r es, overlay_step r.2 es).
Proof.
  intros Ho. destruct o as [|s|s|s|s|s|s]; cbn [handle_overlay_value]; try done.
  - apply spec_ret, OverlayKept; [done|]. by destruct (_ || _).
  - apply spec_ret, OverlayKept; [done|]. unfold handle_search_overlay_key. repeat case_match; simplify_eq/=; done.
  - apply spec_ret, OverlayKept; [done|]. unfold handle_tag_overlay_event. repeat case_match; simplify_eq/=; done.
  - apply parameter_step.
  - apply enrollment_step.
  - apply prompt_step.
Qed.

Lemma activation_step a : ap_overlay a = None → spec (trigger_command_activation a) (λ a' es, exec_step a a' es).
Proof.
  intros Ho. assert (exec_of a = None) as Hx by (unfold exec_of; by rewrite Ho).
  assert (∀ m, spec (mret (set_status_message m a) : tui App) (λ a' es, exec_step a a' es)) as Hsay by (intros m; by apply spec_ret, ExecKept).
  unfold trigger_command_activation. destruct (cs_filtered_indices _); [done|]. destruct (selected_command _) as [c|]; [|done].
  case_bool_decide; [done|]. case_bool_decide; [done|]. destruct (cs_server_id _) as [id|]; [|done].
  destruct (find_server_by_id id a ≫= _) as [entry|]; [|done]. cbv zeta. destruct (_ && _).
  - destruct (validate_client_parameters _ _); [|done]. eapply spec_bind; [apply begin_execution_opens|].
    intros o es (-> & name & auto & ->). apply spec_ret. rewrite app_nil_r. by eapply ExecOpened.
  - apply spec_ret, ExecKept; [done|]. by rewrite Hx.
Qed.

Lemma plain_key_step code a : ap_overlay a = None → spec (handle_plain_key code a) (λ r es, exec_step a r.1 es).
Proof.
  intros Ho. assert (exec_of a = None) as Hx by (unfold exec_of; by rewrite Ho).
  assert (∀ m : tui App, spec m (λ a' es, exec_step a a' es) → spec (a' ← m; mret (a', false)) (λ r es, exec_step a r.1 es)) as Hstay.
  { intros m Hm. eapply spec_bind; [exact Hm|]. intros a' es Ha'. apply spec_ret. by rewrite app_nil_r. }
  assert (∀ a' : App, exec_of a' = None → spec (mret a' : tui App) (λ a' es, exec_step a a' es)) as Hret
    by (intros a' Ha'; apply spec_ret, ExecKept; [done|by rewrite Hx]).
  assert (∀ q : bool, spec (mret (a, q) : tui (App * bool)) (λ r es, exec_step a r.1 es)) as Hquit by (intros q; by apply spec_ret, ExecKept).
  assert (∀ e a', is_exec e = false → exec_of a' = None → spec (_ ← spawn e; mret a') (λ a' es, exec_step a a' es)) as Hsp.
  { intros e a' He Ha'. eapply spec_bind; [apply spec_spawn|]. intros u es ->. apply spec_ret. apply ExecKept; [by repeat constructor|by rewrite Hx]. }
  assert (exec_of (move_up a) = None ∧ exec_of (move_down a) = None) as [Hup Hdown].
  { unfold move_up, move_down, move_selection_up, move_selection_down, on_commands. split; repeat case_match; done. }
  unfold handle_plain_key. destruct code as [c| | | | | | | | | | | | |]; try done; [|apply Hstay..].
  - repeat case_bool_decide; cbn [orb]; try done; apply Hstay; try (by apply Hret); try (by apply activation_step).
    + unfold trigger_discovery. case_match; [by apply Hret|by apply Hsp].
    + apply Hret. unfold trigger_enrollment. repeat case_match; done.
    + apply Hret. unfold open_remove_prompt. repeat case_match; done.
    + apply Hret. unfold open_search. repeat case_match; done.
    + apply Hret. unfold open_tag_filter_overlay. repeat case_match; done.
  - destruct (ap_focus a); [|by apply activation_step]. unfold load_selected. repeat case_match; try (by apply Hret). by apply Hsp.
  - apply Hret. unfold toggle_focus. repeat case_match; done.
  - apply Hret. unfold toggle_focus. repeat case_match; done.
  - by apply Hret.
  - by apply Hret.
  - by apply Hret.
  - apply Hret. case_match; done.
Qed.

Lemma key_event_step now gone key a : app_ok a → spec (handle_key_event env order now gone key a) (λ r es, exec_step a r.1 es).
Proof.
  intros Ha. unfold handle_key_event. case_bool_decide; [by apply spec_ret, ExecKept|]. destruct (_ && _); [by apply spec_ret, ExecKept|].
  destruct (ap_overlay a) as [o|] eqn:Eo; [|by apply plain_key_step]. destruct Ha as [Hb Hov]. rewrite Eo in Hov.
  assert (plain_overlay o ∨ ∃ s, o = OvCommandExecution s) as [Hp|[s ->]] by (destruct o; eauto; by left).
  - assert (exec_of a = None) as Hx by (unfold exec_of; rewrite Eo; by destruct o).
    intros w w' es r Hr. unfold mbind, tui_bind in Hr.
    destruct (handle_overlay_value env order now gone key (set_ap_overlay None a) o w) as [[w1 e1] [[a' h]|]] eqn:E; [|done].
    injection Hr as _ <- <-. rewrite app_nil_r.
    destruct (overlay_value_ok env order now gone key (set_ap_overlay None a) o ltac:(by destruct Hb) eq_refl Hov _ _ _ _ E) as (_ & Hn & Hh).
    cbn in Hn, Hh. pose proof (overlay_value_step now gone key _ o Hp _ _ _ _ E) as Hst. cbn in Hst. unfold after_overlay. cbn.
    destruct Hst as [Hes Hr|entry cid ps name label auto -> ->].
    + apply ExecKept; [done|]. rewrite Hx. unfold exec_of. destruct h as [o'| |]; cbn; [by destruct o'|by rewrite Hn|by rewrite Hn].
    + by eapply ExecOpened.
  - cbn [handle_overlay_value]. unfold handle_execution_overlay_key.
    assert (exec_of a = Some s) as Hx by (unfold exec_of; by rewrite Eo).
    destruct (normalize key); try (apply spec_ret, ExecKept; [done|by rewrite Hx]).
    destruct (xs_running s) eqn:Hr; cbn [negb]; apply spec_ret; [apply ExecKept; [done|by rewrite Hx]|by eapply ExecClosed].
Qed.

(** [s] shows the first [n] events of an execution with output [outs] that ends with [r]. *)
Definition status_line (r : result string Z) : CommandOutputLine :=
  mkCommandOutputLine ChStatus
    match r with
    | Ok code => fmt ["Command completed with exit code "; pretty code]
    | Err e => fmt ["Command failed: "; e]
    end.
Definition shows (outs : list CommandStreamEvent) (r : result string Z) (n : nat) (s : CommandExecutionState) : Prop :=
  if decide (n < length outs + 2)%nat then
    xs_running s = true ∧ xs_output s = (output_line <$> take (n - 1) outs) ∧ xs_exit_code s = None ∧ xs_error s = None
  else
    xs_running s = false ∧ xs_output s = ((output_line <$> outs) ++ [status_line r])%list ∧
    xs_exit_code s = (match r with Ok code => Some code | Err _ => None end) ∧
    xs_error s = (match r with Ok _ => None | Err e => Some e end).

(** Task [k], if it executes a command, has sent all it had to send. *)
Definition ended (an : nat → task_answers) (tasks : list (effect * nat)) (k : nat) : Prop :=
  ∀ entry cid ps n, tasks !! k = Some (SpExecute entry cid ps, n) → (n = length (ta_execution (an k)).1 + 2)%nat.

Definition view_exact (an : nat → task_answers) (a : App) (tasks : list (effect * nat)) : Prop :=
  match exec_of a with
  | Some s =>
      ∃ k entry ps n,
        tasks !! k = Some (SpExecute entry (xs_command_id s) ps, n) ∧ sre_id entry = xs_server_id s ∧
        (n ≤ length (ta_execution (an k)).1 + 2)%nat ∧
        shows (ta_execution (an k)).1 (ta_execution (an k)).2 n s ∧ ∀ j, j ≠ k → ended an tasks j
  | None => ∀ j, ended an tasks j
  end.

Lemma started_lookup (tasks : list (effect * nat)) es j e n :
  Forall (λ e, is_exec e = false) es → is_exec e = true →
  (tasks ++ ((λ e, (e, 0%nat)) <$> es))%list !! j = Some (e, n) → tasks !! j = Some (e, n).
Proof.
  intros Hes He [Hl|[_ Hl]]%lookup_app_Some; [done|]. apply list_lookup_fmap_Some in Hl as (e' & [= -> ->] & Hl).
  rewrite Forall_lookup in Hes. apply Hes in Hl. congruence.
Qed.

Lemma view_exact_step an a a' es tasks :
  exec_step a a' es → view_exact an a tasks → view_exact an a' (tasks ++ ((λ e, (e, 0%nat)) <$> es))%list.
Proof.
  intros [Hes Hx|s -> Hx Hr Hx'|entry cid ps name label auto -> Hx Hx'] Hv; unfold view_exact in *.
  - assert (∀ j, ended an tasks j → ended an (tasks ++ ((λ e, (e, 0%nat)) <$> es))%list j) as Hen.
    { intros j Hj entry cid ps n Hl. eapply Hj. by eapply started_lookup. }
    rewrite Hx. destruct (exec_of a) as [s|]; [|by intros j; apply Hen].
    destruct Hv as (k & entry & ps & n & Hl & Hid & Hn & Hs & Hj). exists k, entry, ps, n. split_and!; try done; [by apply lookup_app_l_Some|].
    intros j ?. by apply Hen, Hj.
  - rewrite Hx in Hv. rewrite Hx'. cbn. rewrite app_nil_r. destruct Hv as (k & entry & ps & n & Hl & Hid & Hn & Hs & Hj).
    intros j. destruct (decide (j = k)) as [->|]; [|by apply Hj]. intros entry' cid' ps' n' Hl'. simplify_eq.
    unfold shows in Hs. case_decide; [destruct Hs; congruence|lia].
  - rewrite Hx in Hv. rewrite Hx'. exists (length tasks), entry, ps, 0%nat. split_and!; try done.
    + by rewrite lookup_app_r, Nat.sub_diag by done.
    + lia.
    + unfold shows. case_decide; [done|lia].
    + intros j Hj entry' cid' ps' n [Hl|[? Hl]]%lookup_app_Some; [by eapply Hv|].
      apply list_lookup_fmap_Some in Hl as (e' & _ & Hl%lookup_lt_Some). cbn in Hl. lia.
Qed.

Lemma view_exact_keys an now gone keys a tasks w w' es a' q : app_ok a → view_exact an a tasks →
  handle_keys env order now gone keys a w = (w', es, Ok (a', q)) → view_exact an a' (tasks ++ ((λ e, (e, 0%nat)) <$> es))%list.
Proof.
  revert a tasks w es. induction keys as [|key keys IH]; intros a tasks w es Ha Hv; cbn [handle_keys].
  { intros [= _ <- <- <-]. by rewrite app_nil_r. }
  unfold mbind, tui_bind. destruct (handle_key_event env order now gone key a w) as [[w1 e1] [[a1 q1]|]] eqn:E; [|done].
  pose proof (view_exact_step an _ _ _ _ (key_event_step now gone key a Ha _ _ _ _ E) Hv) as Hv1. cbn in Hv1. destruct q1.
  - intros [= _ <- <- <-]. by rewrite app_nil_r.
  - destruct (handle_keys env order now gone keys a1 w1) as [[w2 e2] r] eqn:E2. intros [= -> <- ->].
    rewrite fmap_app, (assoc_L (++)). eapply IH; [|exact Hv1|exact E2]. exact (key_event_ok env order now gone key a Ha _ _ _ _ E).
Qed.

Lemma exec_of_expand key a : exec_of (expand_key_event key a).1 = exec_of a.
Proof. unfold expand_key_event. repeat case_match; done. Qed.

(** *** Task events *)
Lemma on_enrollment_exec f a : exec_of (on_enrollment f a) = exec_of a.
Proof. unfold on_enrollment, exec_of. destruct (ap_overlay a) as [[]|] eqn:E; cbn; by rewrite ?E. Qed.

Lemma quiet_event e a : (∀ u, e ≠ TeCommandExecution u) →
  spec (handle_task_event env order e a) (λ a' es, es = [] ∧ exec_of a' = exec_of a).
Proof.
  intros He. destruct e as [r|id r|u|e]; cbn [handle_task_event]; [| |by destruct (He u)|].
  - apply spec_ret. split; [done|]. by destruct r.
  - apply spec_ret. split; [done|]. unfold handle_command_list. repeat case_match; done.
  - destruct e as [id|code|m|m expiry|m]; cbn [handle_enrollment_task]; [apply spec_ret; split; [done|apply on_enrollment_exec]..| |].
    + intros w w' es a'. destruct (registry_load env w) as [w1 [r|err]]; intros [= _ <- <-]; (split; [done|]);
        refine (on_enrollment_exec _ (set_ap_enrolling false a)).
    + apply spec_ret. split; [done|]. refine (on_enrollment_exec _ (set_ap_enrolling false a)).
Qed.

Lemma shown_execution_this a s entry : exec_of a = Some s → sre_id entry = xs_server_id s →
  shown_execution (sre_id entry) (xs_command_id s) a = Some s.
Proof.
  unfold exec_of, shown_execution. intros Hx ->. destruct (ap_overlay a) as [[]|]; try done. injection Hx as ->. by rewrite bool_decide_true.
Qed.

(** One more event of the execution that is shown. *)
Lemma execution_event_shown (an : nat → task_answers) k a s entry cid ps n e :
  exec_of a = Some s → xs_command_id s = cid → sre_id entry = xs_server_id s → shows (ta_execution (an k)).1 (ta_execution (an k)).2 n s →
  task_events (SpExecute entry cid ps) (an k) !! n = Some e →
  ∃ u s', e = TeCommandExecution u ∧ exec_of (handle_execution_update u a) = Some s' ∧ xs_command_id s' = cid ∧ xs_server_id s' = xs_server_id s ∧
    (S n ≤ length (ta_execution (an k)).1 + 2)%nat ∧ shows (ta_execution (an k)).1 (ta_execution (an k)).2 (S n) s'.
Proof.
  intros Hx <- Hid Hs Hl. cbn [task_events] in Hl. apply list_lookup_fmap_Some in Hl as (u & -> & Hl). unfold shows in *.
  destruct (ta_execution (an k)) as [outs r]. cbn [fst snd] in *. pose proof (shown_execution_this _ _ _ Hx Hid) as Hsh.
  destruct n as [|n]; cbn in Hl.
  - injection Hl as <-. exists (CuStarted (sre_id entry) (xs_command_id s)). eexists. split; [done|]. cbn [handle_execution_update].
    rewrite Hsh. split; [done|]. do 2 (split; [done|]). split; [lia|]. rewrite decide_True by lia. done.
  - apply lookup_app_Some in Hl as [Hl|[Hn Hl]].
    + apply list_lookup_fmap_Some in Hl as (ev & -> & Hl). pose proof (lookup_lt_Some _ _ _ Hl) as Hlt. rewrite decide_True in Hs by lia.
      destruct Hs as (Hr & Ho & Hc & He). eexists _, _. split; [done|]. cbn [handle_execution_update]. rewrite Hsh.
      split; [done|]. rewrite decide_True by lia.
      replace (S (S n) - 1)%nat with (S n) by lia. replace (S n - 1)%nat with n in Ho by lia. rewrite (take_S_r _ _ _ Hl), fmap_app, <- Ho.
      destruct (xs_auto_scroll s); do 2 (split; [done|]); (split; [lia|done]).
    + rewrite length_fmap in Hn, Hl. apply list_lookup_singleton_Some in Hl as [Hz <-]. rewrite decide_True in Hs by lia.
      destruct Hs as (Hr & Ho & Hc & He). rewrite take_ge in Ho by lia.
      destruct r; (eexists _, _; split; [done|]); cbn [handle_execution_update]; rewrite Hsh; (split; [done|]);
        rewrite decide_False by lia; rewrite <- Ho; do 2 (split; [done|]); (split; [lia|done]).
Qed.

Lemma task_step_view an a tasks k e n ev w w' es a' : view_exact an a tasks → tasks !! k = Some (e, n) → task_events e (an k) !! n = Some ev →
  handle_task_event env order ev a w = (w', es, Ok a') →
  view_exact an a' (<[k := (e, S n)]> tasks ++ ((λ e, (e, 0%nat)) <$> es))%list.
Proof.
  intros Hv Hk Hev Hh. assert (∀ j, j ≠ k → ended an tasks j → ended an (<[k := (e, S n)]> tasks) j) as Hother.
  { intros j Hj Hen entry cid ps m. rewrite list_lookup_insert_ne by done. apply Hen. }
  destruct (is_exec e) eqn:He.
  - destruct e as [| |entry cid ps| |]; try done.
    assert (n < length (ta_execution (an k)).1 + 2)%nat as Hn.
    { apply lookup_lt_Some in Hev. cbn in Hev. rewrite length_fmap, length_app, length_fmap in Hev. cbn in Hev. lia. }
    unfold view_exact in Hv. destruct (exec_of a) as [s|] eqn:Hx; [|specialize (Hv k _ _ _ _ Hk); lia].
    destruct Hv as (k' & entry' & ps' & n' & Hl & Hid & Hn' & Hs & Hj).
    destruct (decide (k = k')) as [<-|Hne]; [|specialize (Hj k Hne _ _ _ _ Hk); lia]. rewrite Hk in Hl. injection Hl as <- -> <- <-.
    destruct (execution_event_shown an k a s entry _ ps n ev Hx eq_refl Hid Hs Hev) as (u & s' & -> & Hx' & Hc' & Hi' & Hle & Hs').
    injection Hh as _ <- <-. unfold view_exact. rewrite Hx'. cbn. rewrite app_nil_r. exists k, entry, ps, (S n).
    split_and!; try done; [rewrite Hc'; apply list_lookup_insert_eq; by eapply lookup_lt_Some|congruence|]. intros j Hjk. by apply Hother, Hj.
  - assert (∀ u, ev ≠ TeCommandExecution u) as Hq.
    { intros u ->. apply list_elem_of_lookup_2 in Hev. destruct e; cbn in Hev; try done; set_solver. }
    destruct (quiet_event ev a Hq _ _ _ _ Hh) as [-> Hx]. cbn. rewrite app_nil_r. unfold view_exact in *. rewrite Hx.
    assert (∀ j, ended an tasks j → ended an (<[k := (e, S n)]> tasks) j) as Hen.
    { intros j Hj. destruct (decide (j = k)) as [->|]; [|by apply Hother]. intros entry cid ps m Hl.
      rewrite list_lookup_insert_eq in Hl by (by eapply lookup_lt_Some). by simplify_eq. }
    destruct (exec_of a) as [s|]; [|by intros j; apply Hen].
    destruct Hv as (k' & entry & ps & m & Hl & Hid & Hm & Hs & Hj). exists k', entry, ps, m. split_and!; try done.
    + rewrite list_lookup_insert_ne; [done|]. intros ->. by simplify_eq.
    + intros j ?. by apply Hen, Hj.
Qed.

Lemma loop_step_view an op s s' : app_ok (ru_app s) → view_exact an (ru_app s) (ru_tasks s) →
  loop_step env order an op s = Some (Ok (Some s')) → view_exact an (ru_app s') (ru_tasks s').
Proof.
  intros Ha Hv. destruct op as [event now gone w|k w|]; cbn [loop_step]; [| |by intros [= <-]].
  - destruct (handle_input_event env order now gone event (ru_app s) w) as [[w' es] [[a []]|]] eqn:E; cbn; intros [= <-]. cbn.
    destruct event as [key| | | |]; cbn [handle_input_event] in E; [|injection E as _ <- <-; by rewrite app_nil_r..].
    pose proof (exec_of_expand key (ru_app s)) as Hx. pose proof (expand_ok key (ru_app s) Ha) as Ho.
    destruct (expand_key_event key (ru_app s)) as [a1 keys]. cbn in Hx, Ho.
    refine (view_exact_keys an now gone keys a1 _ w _ _ _ _ Ho _ E). unfold view_exact in *. by rewrite Hx.
  - intros ([e n] & Hk & Hr)%bind_Some. apply bind_Some in Hr as (ev & Hev & Hr).
    destruct (handle_task_event env order ev (ru_app s) w) as [[w' es] [a|]] eqn:E; cbn in Hr; [|done]. injection Hr as <-.
    by eapply task_step_view.
Qed.

Lemma loop_run_view an ops s0 s : answers_i32 an → app_ok (ru_app s0) → view_exact an (ru_app s0) (ru_tasks s0) →
  loop_run env order an ops s0 = Some s → view_exact an (ru_app s) (ru_tasks s).
Proof.
  intros Han. revert s0. induction ops as [|op ops IH]; intros s0 Hs0 Hv0; cbn [loop_run]; [by intros [= <-]|].
  destruct (loop_step env order an op s0) as [[[s1|]|]|] eqn:E; try done.
  apply IH; [by eapply loop_step_ok|by eapply loop_step_view].
Qed.

(** C13: The execution view shows exactly what its command did.  At every moment
    of every run of the interface, while a command's view is open, one execution task
    of that server and command belongs to it: the view holds the lines of that task
    handled so far, in order and nothing else; it counts as running until the task's
    last event, and from then on it ends with the status line and holds the exit code
    or the error the task ended with.  Every other execution has ended: no two
    commands run at once, and no view is closed over a running command. *)
Theorem execution_view_is_exact an config registry ops s :
  answers_i32 an → loop_run env order an ops (mkRunning (App_new order config registry) []) = Some s →
  view_exact an (ru_app s) (ru_tasks s).
Proof. intros Han. apply loop_run_view; [done|apply App_new_ok|]. by intros j entry cid ps n. Qed.
End view.

(** ** Witnesses *)
#[local] Existing Instance demo_uuid.
#[local] Existing Instance demo_regex.
#[local] Existing Instance demo_registry_codec.
#[local] Instance no_crates : EnrollCrates :=
  {| parse_qr_payload _ := None; rfc3339_parse _ := None; rfc3339_format _ := None; rcgen_certificate _ _ _ := None |}.
#[local] Instance no_payload : PayloadJson := {| payload_valid_until _ := None; odt_display _ := "" |}.
#[local] Instance no_config : TomlCodec RawClientConfig := {| toml_to_string_pretty _ := Err ""; toml_from_str _ := Err "" |}.

Definition pressed (code : KeyCode) : loop_op :=
  LpInput (CtKey (mkKeyEvent code false false false false KPress)) 0 (λ _, false) demo_world.
Definition tui_server : ServerRegistryEntry :=
  mkServerRegistryEntry 7%N (Some "box") (Some "10.0.0.7") (Some 50051) None None None None None ["10.0.0.7"] None.
Definition uptime : CommandSummary := mkCommandSummary "up" "Uptime" None None [] [] false true false CkShellScript CsOneShot.
(** Task 0 loads the commands, task 1 runs one of them. *)
Definition tui_answers (k : nat) : task_answers :=
  mkTaskAnswers (Ok []) (Ok (mkCommandList 1 [uptime])) ([EvStdout "up 3 days"], Ok 0) [] (Err "") (Err "").
Definition tui_ops : list loop_op :=
  [pressed KEnter; LpTask 0 demo_world; pressed KEnter; LpTask 1 demo_world; pressed KDown; LpTask 1 demo_world; LpTick].

Lemma tui_answers_i32 : answers_i32 tui_answers.
Proof. intros k. repeat constructor. Qed.

Lemma interface_stays_well_formed_witness :
  match loop_run demo_env map_to_list tui_answers tui_ops
          (mkRunning (App_new map_to_list ClientConfig_default (mkServerRegistry [tui_server])) []) with
  | Some s => app_ok (ru_app s) ∧ ap_selected_server (ru_app s) = Some 0%nat
  | None => False
  end.
Proof.
  destruct (loop_run _ _ _ _ _) as [s|] eqn:E; [split|vm_compute in E; discriminate E].
  - exact (interface_stays_well_formed demo_env map_to_list tui_answers ClientConfig_default (mkServerRegistry [tui_server]) tui_ops s tui_answers_i32 E).
  - vm_compute in E. injection E as <-. reflexivity.
Defined.

(** After the command's first line: the view shows it, and the command runs. *)
Lemma execution_view_is_exact_witness :
  match loop_run demo_env map_to_list tui_answers tui_ops
          (mkRunning (App_new map_to_list ClientConfig_default (mkServerRegistry [tui_server])) []) with
  | Some s =>
      view_exact tui_answers (ru_app s) (ru_tasks s) ∧
      (xs_output <$> exec_of (ru_app s)) = Some [mkCommandOutputLine ChStdout "up 3 days"]
  | None => False
  end.
Proof.
  destruct (loop_run _ _ _ _ _) as [s|] eqn:E; [split|vm_compute in E; discriminate E].
  - exact (execution_view_is_exact demo_env map_to_list tui_answers ClientConfig_default (mkServerRegistry [tui_server]) tui_ops s tui_answers_i32 E).
  - vm_compute in E. injection E as <-. reflexivity.
Defined.
