(* ===== verification/TuiForm.v ===== *)
(** * The parameter form, end to end

    From the form of the terminal user interface (tui/src/main.rs) through the client's
    check to the server's: what the form shows is what the command runs with. *)

From S2P Require Import Prelude RustStd ThirdParty Net Network Fs Io Config Placeholders Validation Registry Parameters SessionState RelayTokens Proto ClientConfig ClientStorage Discovery ClientRelay ClientConnect ClientEnroll ClientCommands SessionEnds CliArgs Cli TuiApp Tui TuiRun.

Local Open Scope string_scope.
Local Open Scope Z_scope.

(** ** Text *)
Lemma pretty_go_visible n s : string_forall visible s = true → string_forall visible (pretty_N_go n s) = true.
Proof.
  revert s. induction (N.lt_wf_0 n) as [n _ IH]. intros s Hs. destruct (decide (n = 0)%N) as [->|]; [done|].
  rewrite pretty_N_go_step by lia. apply IH; [apply N.div_lt; lia|]. cbn [string_forall]. rewrite Hs, andb_true_r.
  assert (n `mod` 10 < 10)%N as Hm by (apply N.mod_lt; lia). revert Hm. generalize (n `mod` 10)%N as d. intros d Hd.
  destruct d as [|p]; [done|]. do 4 (destruct p as [p|p|]; try done; try lia).
Qed.
Lemma pretty_visible (z : Z) : string_forall visible (pretty z) = true.
Proof.
  assert (∀ n : N, string_forall visible (pretty n) = true) as Hn.
  { intros n. unfold pretty, pretty_N. case_decide; [done|]. by apply pretty_go_visible. }
  destruct z as [|p|p]; [done|exact (Hn (N.pos p))|]. change (pretty (Z.neg p)) with (String "-" (pretty (N.pos p))).
  cbn [string_forall]. by rewrite Hn.
Qed.

(** ** Fields *)
Definition within (q : CommandParameter) (v : Z) : Prop :=
  match ca_min q with Some m => m <= v | None => True end ∧ match ca_max q with Some m => v <= m | None => True end.
Definition field_within (f : ParameterFieldState) : Prop :=
  match fs_value f with PvSlider v _ _ _ => within (fs_definition f) v | _ => True end.

(** The first value of a slider is in its range; the options of a dropdown have no
    white space around them and differ in more than case. *)
Definition starts_well (q : CommandParameter) : Prop :=
  match value_from_parameter q with
  | PvSlider v _ _ _ => within q v
  | PvDropdown options _ => Forall (λ o, trim o = o) options ∧ NoDup (to_ascii_lowercase <$> options)
  | _ => True
  end.

Lemma left_within f : field_ok f → field_within f → field_within (with_value (value_left (fs_value f)) f).
Proof.
  unfold field_ok, field_within. cbn [with_value fs_definition fs_value].
  destruct (ca_param_type _), (fs_value f) as [v lo hi step|t|b|options i]; try done. cbn [value_left].
  intros (-> & -> & -> & Hv). unfold within. destruct (ca_min _), (ca_max _); unfold I32_MIN, I32_MAX in *; lia.
Qed.
Lemma right_within f : field_ok f → field_within f → field_within (with_value (value_right (fs_value f)) f).
Proof.
  unfold field_ok, field_within. cbn [with_value fs_definition fs_value].
  destruct (ca_param_type _), (fs_value f) as [v lo hi step|t|b|options i]; try done. cbn [value_right].
  intros (-> & -> & -> & Hv). unfold within. destruct (ca_min _), (ca_max _) as [m|]; try (destruct (Z.ltb_spec m (Z.max I32_MIN (Z.min I32_MAX (v + 1)))));
    unfold I32_MIN, I32_MAX in *; lia.
Qed.

Definition fields_within (s : ParameterFormState) : Prop := Forall field_within (fo_fields s).

Lemma change_within g s : form_ok s → fields_within s →
  (∀ f, field_ok f → field_within f → field_within (with_value (g (fs_value f)) f)) → fields_within (change_field g s).
Proof.
  intros Hs Hw Hg. unfold change_field, fields_within. destruct (fo_fields s !! fo_selected s) as [f|] eqn:Hf; [|done]. cbn.
  pose proof (fk_values s Hs) as Hv. apply Forall_insert; [done|]. unfold fields_within in Hw. rewrite Forall_lookup in Hv, Hw. by eapply Hg; eauto.
Qed.

Lemma edit_within key s : fields_within s → fields_within (edit_field key s).
Proof.
  intros Hw. unfold edit_field. destruct (_ !! _) as [f|]; [|done]. destruct (fs_value f); try done.
  destruct (edit_text key t (fo_text_cursor s)) as [[t' e] c]. by apply Forall_insert.
Qed.

Lemma form_key_within key s s' : form_ok s → fields_within s → form_key key s = Some s' → fields_within s'.
Proof.
  intros Hs Hw. unfold form_key. destruct (normalize key); intros Hk; try (injection Hk as <-); try done; try (destruct (_ <? _)%nat; exact Hw).
  - case_bool_decide; injection Hk as <-; [|done]. destruct (_ !! _) as [f|]; [|done]. destruct (fs_value f); try done. by apply change_within.
  - destruct (_ !! _) as [f|]; [destruct (fs_value f)|]; exact Hw.
  - apply change_within; [done..|]. intros f. apply left_within.
  - apply change_within; [done..|]. intros f. apply right_within.
Qed.

(** ** Values *)
(** The first option equal up to case is the option itself. *)
Lemma find_option options i o : NoDup (to_ascii_lowercase <$> options) → options !! i = Some o →
  list_find (λ opt, eq_ignore_ascii_case opt o = true) options = Some (i, o).
Proof.
  intros Hnd Hi. apply list_find_Some. split_and!; [done|by apply bool_decide_eq_true|].
  intros j y Hj Hlt He%bool_decide_eq_true. assert (i = j) as ->; [|lia].
  eapply NoDup_lookup; [exact Hnd|by rewrite list_lookup_fmap, Hi|by rewrite list_lookup_fmap, Hj, <-He].
Qed.

Lemma to_lower_visible b : parse_bool (trim (if b : bool then "true" else "false")) = Some b.
Proof. by destruct b. Qed.

Section values.
Context `{RegexEngine}.

(** A text field whose text, without white space around it, matches. *)
Definition text_matches (f : ParameterFieldState) : Prop :=
  ∀ t pattern, fs_value f = PvText t → ca_validation (fs_definition f) = Some pattern → regex_is_match pattern (trim (of_text t)) = true.

Lemma shown_is_normalized p f : param_ok p → seen_parameter p = Ok (fs_definition f) →
  field_ok f → field_within f → starts_well (fs_definition f) → text_matches f →
  normalize_value (fs_definition f) (value_as_string f) = Ok (trim (value_as_string f)).
Proof.
  intros Hp Hq Hf Hw Hst Ht. destruct (seen_parameter_ok p Hp) as (q & Hq' & _ & Hty & _ & _ & Hopt & Hval & _).
  assert (q = fs_definition f) as -> by congruence. clear Hq Hq'. unfold normalize_value, field_ok, field_within, starts_well, text_matches in *.
  unfold value_from_parameter in Hst. unfold value_as_string.
  destruct (ca_param_type (fs_definition f)), (fs_value f) as [v lo hi step|t|b|options i]; try done.
  - destruct Hf as (_ & _ & _ & Hv). rewrite trim_visible by apply pretty_visible. rewrite parse_i32_pretty by done. cbn [ok_or mbind result_bind].
    destruct Hw as [Hmin Hmax].
    apply bail_then. split; [destruct (ca_min _); [by apply Z.ltb_ge|done]|]. apply bail_then. split; [|done].
    destruct (ca_max _); [by apply Z.ltb_ge|done].
  - destruct (ca_validation (fs_definition f)) as [pattern|] eqn:Ev; [|done]. destruct Hty as [_ Hre].
    destruct (pc_validation p) as [re|] eqn:Ep; [|done]. cbn in Hval. destruct (str_is_empty re); [done|]. injection Hval as ->.
    rewrite (Hre re eq_refl). apply bail_then. split; [|done]. by rewrite (Ht t re eq_refl eq_refl).
  - by rewrite to_lower_visible; destruct b.
  - destruct Hf as [-> Hi]. assert (ca_options (fs_definition f) ≠ []) as Hne.
    { rewrite Hopt. cbn in Hty. destruct Hp as [_ Hp]. destruct Hp as [? ? E|E|E|E ?]; try done; rewrite E in Hty; done. }
    destruct (lookup_lt_is_Some_2 (ca_options (fs_definition f)) i) as [o Ho].
    { destruct Hi as [Hi|Hi]; [done|]. rewrite Hi. by destruct (ca_options _); [|cbn; lia]. }
    destruct Hst as [Htrim Hnd]. rewrite Ho. change (default "" (Some o)) with o. rewrite Forall_lookup in Htrim. rewrite (Htrim _ _ Ho).
    apply bail_then. split; [by apply bool_decide_eq_false|]. by rewrite (find_option _ _ _ Hnd Ho).
Qed.
End values.

(** ** The form as a whole *)
(** The values the form hands over: each field's, under its name. *)
Lemma parameter_values_lookup_from fields (m : gmap string string) k :
  NoDup ((ca_name ∘ fs_definition) <$> fields) →
  foldl (λ m f, <[ca_name (fs_definition f) := value_as_string f]> m) m fields !! k =
    match list_find (λ f, ca_name (fs_definition f) = k) fields with Some (_, f) => Some (value_as_string f) | None => m !! k end.
Proof.
  revert m. induction fields as [|f fields IH]; intros m Hnd; [done|]. rewrite fmap_cons in Hnd. apply list.NoDup_cons in Hnd as [Hf Hnd].
  cbn [foldl list_find]. rewrite IH by done. case_decide as Hk.
  - destruct (list_find _ fields) as [[i f']|] eqn:E; [|cbn; rewrite <-Hk; by rewrite lookup_insert_eq].
    apply list_find_Some in E as (Hi & Hk' & _). exfalso. apply Hf. apply list_elem_of_fmap. exists f'. cbn. split; [congruence|].
    by eapply list_elem_of_lookup_2.
  - destruct (list_find _ fields) as [[i f']|]; [done|]. cbn. by rewrite lookup_insert_ne.
Qed.

Lemma parameter_values_lookup s f : NoDup ((ca_name ∘ fs_definition) <$> fo_fields s) → f ∈ fo_fields s →
  parameter_values s !! ca_name (fs_definition f) = Some (value_as_string f).
Proof.
  intros Hnd Hf. unfold parameter_values. rewrite parameter_values_lookup_from by done.
  destruct (list_find _ _) as [[i f']|] eqn:E.
  - apply list_find_Some in E as (Hi & Hk & _). apply list_elem_of_lookup in Hf as [j Hj].
    assert (i = j) as ->; [|congruence].
    eapply NoDup_lookup; [exact Hnd|by rewrite list_lookup_fmap, Hi|]. rewrite list_lookup_fmap, Hj. cbn. by rewrite Hk.
  - exfalso. apply list_find_None in E. rewrite Forall_forall in E. by eapply E.
Qed.

Lemma parameter_values_known s k : NoDup ((ca_name ∘ fs_definition) <$> fo_fields s) → is_Some (parameter_values s !! k) →
  k ∈ ca_name <$> (fs_definition <$> fo_fields s).
Proof.
  intros Hnd [v Hv]. unfold parameter_values in Hv. rewrite parameter_values_lookup_from in Hv by done.
  destruct (list_find _ _) as [[i f]|] eqn:E; [|done]. apply list_find_Some in E as (Hi & <- & _).
  by apply list_elem_of_fmap_2, list_elem_of_fmap_2, (list_elem_of_lookup_2 _ i).
Qed.

Section submit.
Context `{RegexEngine}.

Lemma sanitize_succeeds provided params acc :
  Forall (λ q, ∃ raw v, provided !! ca_name q = Some raw ∧ normalize_value q raw = Ok v) params → ∃ m, sanitize provided params acc = Ok m.
Proof.
  intros Hall. revert acc. induction Hall as [|q params (raw & v & Hp & Hv) _ IH]; intros acc; cbn [sanitize]; [by eexists|].
  rewrite Hp, Hv. cbn [mbind result_bind]. apply IH.
Qed.

Lemma form_validates s ps : Forall param_ok ps → Forall2 (λ p q, seen_parameter p = Ok q) ps (cu_parameters (fo_command s)) →
  NoDup (ca_name <$> cu_parameters (fo_command s)) → form_ok s → fields_within s → Forall starts_well (cu_parameters (fo_command s)) →
  Forall text_matches (fo_fields s) →
  ∃ m, validate_client_parameters (fo_command s) (parameter_values s) = Ok m ∧
    Forall (λ f, m !! ca_name (fs_definition f) = Some (trim (value_as_string f))) (fo_fields s).
Proof.
  intros Hps Hseen Hnd Hs Hw Hst Htx. pose proof (fk_fields s Hs) as Hdef. rewrite <-Hdef in *.
  assert (NoDup ((ca_name ∘ fs_definition) <$> fo_fields s)) as Hnd' by (by rewrite list_fmap_compose).
  assert (Forall (λ f, normalize_value (fs_definition f) (value_as_string f) = Ok (trim (value_as_string f))) (fo_fields s)) as Hnorm.
  { apply Forall_forall. intros f Hf. pose proof Hf as [i Hi]%list_elem_of_lookup.
    destruct (Forall2_lookup_r _ _ _ i (fs_definition f) Hseen) as (p & Hpi & Hp); [by rewrite list_lookup_fmap, Hi|].
    pose proof (fk_values s Hs) as Hv. unfold fields_within in Hw. rewrite Forall_fmap in Hst. rewrite Forall_forall in Hv, Hw, Hst, Htx.
    apply (shown_is_normalized p); [by eapply Forall_lookup_1|done|by apply Hv|by apply Hw|by apply Hst|by apply Htx]. }
  unfold validate_client_parameters. destruct (unknown_provided _ _) as [|k l] eqn:Hu.
  2: { exfalso. assert (k ∈ unknown_provided (fo_command s) (parameter_values s)) as Hk by (rewrite Hu; left).
       unfold unknown_provided in Hk. apply list_elem_of_filter in Hk as [Hk Hin]. apply Hk. rewrite <-Hdef.
       apply parameter_values_known; [done|]. apply list_elem_of_fmap in Hin as ([k' v] & -> & Hin%elem_of_map_to_list). by eexists. }
  rewrite Forall_forall in Hnorm.
  destruct (sanitize_succeeds (parameter_values s) (cu_parameters (fo_command s)) ∅) as [m Hm].
  { rewrite <-Hdef. apply Forall_fmap, Forall_forall. intros f Hf. eexists _, _. cbn. split; [by apply parameter_values_lookup|by apply Hnorm]. }
  exists m. split; [done|]. rewrite <-Hdef in Hm. destruct (sanitize_ok _ _ _ _ Hm Hnd) as [_ Hall].
  rewrite Forall_fmap in Hall. apply Forall_forall. intros f Hf. rewrite Forall_forall in Hall. specialize (Hall f Hf). cbn in Hall.
  rewrite parameter_values_lookup in Hall by done. destruct Hall as (v & Hv & ->). rewrite Hnorm in Hv by done. congruence.
Qed.
End submit.

Section form.
Context `{RegexEngine, !RegexEmpty, ShellEscape}.
Context (cmd : CommandSummary) (id : Uuid) (label : string).

(** The forms keys can lead to, failed submissions included. *)
Inductive form_reached : ParameterFormState → Prop :=
  | FormNew : form_reached (ParameterFormState_new cmd id label)
  | FormKey s s' key a a' w w' es :
      form_reached s → handle_parameter_overlay_event key a s w = (w', es, Ok (a', OhContinue (OvParameterForm s'))) → form_reached s'.

Definition form_inv (s : ParameterFormState) : Prop :=
  form_ok s ∧ fields_within s ∧ fo_command s = cmd ∧ fo_server_id s = id.

Lemma submit_keeps_form a s w w' es s' : form_inv s →
  submit_form a s w = (w', es, Ok (OhContinue (OvParameterForm s'))) → form_inv s'.
Proof.
  intros (Hs & Hw & Hc & Hid). unfold submit_form. destruct (validate_client_parameters _ _) as [m|e].
  - destruct (find_server_by_id _ a ≫= _) as [entry|]; cbn; intros [= _ _ <-]. split_and!; try done. destruct Hs. by split.
  - cbn. intros [= _ _ <-]. split_and!; try done. destruct Hs. by split.
Qed.

Lemma key_keeps_command key s s' : form_key key s = Some s' → fo_command s' = fo_command s ∧ fo_server_id s' = fo_server_id s.
Proof.
  assert (∀ g, fo_command (change_field g s) = fo_command s ∧ fo_server_id (change_field g s) = fo_server_id s) as Hch
    by (intros g; unfold change_field; by destruct (_ !! _)).
  unfold form_key. intros Hk. destruct (normalize key); repeat case_match; simplify_eq; auto.
Qed.

Lemma form_reached_inv s : command_i32 cmd → Forall starts_well (cu_parameters cmd) → form_reached s → form_inv s.
Proof.
  intros Hi Hst. induction 1 as [|s s' key a a' w w' es _ IH Hk].
  { split_and!; [by apply new_form_ok| |done..]. apply Forall_fmap. eapply Forall_impl; [exact Hst|]. intros q. cbn.
    unfold field_within, starts_well. cbn. by destruct (value_from_parameter q). }
  unfold handle_parameter_overlay_event in Hk. destruct (_ && _).
  { unfold mbind, tui_bind in Hk. destruct (submit_form a s w) as [[w1 e1] [r|]] eqn:E; [|done]. cbn in Hk. injection Hk as _ _ _ ->.
    by eapply submit_keeps_form. }
  destruct IH as (Hs & Hw & Hc & Hid). destruct (fo_editing s) eqn:He.
  - injection Hk as _ _ _ <-. split_and!; [by apply edit_field_ok|by apply edit_within|..]; unfold edit_field; repeat case_match; done.
  - destruct (form_key key s) as [s1|] eqn:E; [|done]. injection Hk as _ _ _ ->. destruct (key_keeps_command _ _ _ E) as [Hc' Hid'].
    split_and!; [by eapply form_key_ok|by eapply form_key_within|congruence..].
Qed.

End form.

(** ** A witness *)
#[local] Existing Instance demo_regex.
#[local] Existing Instance demo_regex_empty.
#[local] Existing Instance demo_uuid.
#[local] Instance plain_escape : ShellEscape := λ v, v.

Definition mixer : CapabilityConfig :=
  mkCapabilityConfig "vol" "Volume" None [] false false
    [mkCapabilityParameterConfig "level" "slider" None (Some 0) (Some 100) (Some "10") [] None None None None None None;
     mkCapabilityParameterConfig "side" "dropdown" None None None None ["Left"; "Right"] None None None None None None]
    CapabilityAclConfig_default (DefShellScript (mkShellScriptDefinition "amixer set {side} {level}" 3 ∅ true CmOneShot)).
Definition mixer_seen : CommandSummary :=
  match CommandSummary_from_proto (proto_from_metadata (build_metadata mixer)) with Ok cmd => cmd | Err _ => uptime end.
Definition mixer_app : App := App_new map_to_list ClientConfig_default (mkServerRegistry [tui_server]).
Definition plain_press (code : KeyCode) : KeyEvent := mkKeyEvent code false false false false KPress.
Definition submit_press : KeyEvent := mkKeyEvent KEnter false true false false KPress.

(** Right, down, right: one step more on the slider, the second option. *)
Definition mixer_form : ParameterFormState :=
  change_field value_right (move_field 1 (change_field value_right (ParameterFormState_new mixer_seen 7%N "box"))).

Lemma mixer_form_reached : form_reached mixer_seen 7%N "box" mixer_form.
Proof.
  set (s0 := ParameterFormState_new mixer_seen 7%N "box").
  assert (form_reached mixer_seen 7%N "box" (change_field value_right s0)) as H1.
  { refine (FormKey _ _ _ s0 _ (plain_press KRight) mixer_app mixer_app demo_world demo_world [] (FormNew _ _ _) _). vm_compute. reflexivity. }
  assert (form_reached mixer_seen 7%N "box" (move_field 1 (change_field value_right s0))) as H2.
  { refine (FormKey _ _ _ _ _ (plain_press KDown) mixer_app mixer_app demo_world demo_world [] H1 _). vm_compute. reflexivity. }
  refine (FormKey _ _ _ _ _ (plain_press KRight) mixer_app mixer_app demo_world demo_world [] H2 _). vm_compute. reflexivity.
Qed.

