(* ===== verification/TuiDraw.v ===== *)
(** * Drawing the terminal user interface (tui/src/main.rs, [draw])

    A frame is the list of widgets drawn, each with its area.  The ratatui library
    splits areas ([Layout]) and paints widgets; what is handed to it is modelled with
    its text and its style.  A [None] frame is a panic. *)

From S2P Require Import Prelude RustStd ThirdParty Net Network Fs Io Config Validation SessionState RelayTokens ClientConfig ClientStorage Discovery ClientRelay ClientConnect ClientEnroll ClientCommands SessionEnds CliArgs Cli TuiApp Tui TuiRun.

Local Open Scope string_scope.
Local Open Scope Z_scope.

(** ** The library's data *)
Inductive Color := Cyan | Gray | Yellow | DarkGray | Green | Blue | Red.
Inductive Modifier := BOLD | UNDERLINED | ITALIC.
Record Style := mkStyle { st_fg : option Color; st_modifiers : list Modifier }.
Definition plain : Style := mkStyle None [].
Definition fg (c : Color) : Style := mkStyle (Some c) [].
Definition fg_bold (c : Color) : Style := mkStyle (Some c) [BOLD].
Definition bold : Style := mkStyle None [BOLD].

Record Span := mkSpan { sp_style : Style; sp_content : string }.
(** A line made from a string, or from spans. *)
Inductive Line := LText (s : string) | LSpans (spans : list Span).
Definition styled (s : string) (st : Style) : Line := LSpans [mkSpan st s].
Definition raw (s : string) : Span := mkSpan plain s.

Record Rect := mkRect { re_x : Z; re_y : Z; re_width : Z; re_height : Z }.
Inductive Direction := Vertical | Horizontal.
Inductive Constraint := Length (n : Z) | Min (n : Z) | Percentage (n : Z).
Inductive Alignment := AlLeft | AlCenter.
Inductive Borders := BordersNone | BordersTop | BordersAll.
Record Block := mkBlock { bl_title : option string; bl_borders : Borders }.
Definition no_block : Block := mkBlock None BordersNone.
Definition boxed (title : string) : Block := mkBlock (Some title) BordersAll.

Inductive Widget :=
  | WClear
  | WBlock (b : Block)
  | WParagraph (lines : list Line) (st : Style) (alignment : Alignment) (b : Block)
  | WList (items : list (list Line)) (highlight : option Style) (b : Block) (selected : option nat).
Inductive DrawOp := DWidget (w : Widget) (area : Rect) | DCursor (x y : Z).
Abbreviation frame := (option (list DrawOp)).

Class Layout := layout_split : Direction → list Constraint → Rect → list Rect.

Definition inside (outer r : Rect) : Prop :=
  re_x outer <= re_x r ∧ re_y outer <= re_y r ∧ 0 <= re_width r ∧ 0 <= re_height r ∧
  re_x r + re_width r <= re_x outer + re_width outer ∧ re_y r + re_height r <= re_y outer + re_height outer.
(** One area per constraint, inside the area that is split. *)
Class LayoutLaws `{Layout} := split_inside : ∀ d cs r,
  0 <= re_width r → 0 <= re_height r → length (layout_split d cs r) = length cs ∧ Forall (inside r) (layout_split d cs r).

(** [u16] *)
Definition sat_add (a b : Z) : Z := Z.min 65535 (a + b).
Definition sat_sub (a b : Z) : Z := Z.max 0 (a - b).
Definition as_u16 (z : Z) : Z := z mod 65536.
(** A sum panics on overflow where the checks are compiled in (a debug build), and wraps
    around elsewhere. *)
Definition add_u16 (checked : bool) (a b : Z) : option Z :=
  if 65535 <? a + b then (if checked then None else Some (as_u16 (a + b))) else Some (a + b).

(** Two frames one after the other. *)
Definition then_draw (f g : frame) : frame := ops ← f; ops' ← g; Some (ops ++ ops')%list.
Notation "f ;> g" := (then_draw f g) (at level 61, left associativity).
Definition render_widget (w : Widget) (area : Rect) : frame := Some [DWidget w area].
Definition text_widget (s : string) (st : Style) : Widget := WParagraph [LText s] st AlLeft no_block.

Section draw.
Context `{EnrollCrates, PayloadJson, Layout} (checked : bool) (version : string) (now : Z).

Definition render_header (area : Rect) (a : App) : frame :=
  let focus_text := match ap_focus a with FServers => "Servers" | FCommands => "Commands" end in
  render_widget
    (WParagraph [LSpans [mkSpan (fg_bold Cyan) (fmt ["HandControl TUI v"; version]); raw "   ";
       mkSpan (fg Gray) "[d] Discover  [e] Enroll  [r] Remove  [/] Search  [t] Tags  [Tab] Switch"; raw "   ";
       mkSpan (fg Gray) (fmt ["Focus: "; focus_text])]] plain AlLeft no_block) area.

Definition status_text (s : ServerStatus) : string :=
  match s with SvEnrolled => "Enrolled" | SvAvailable => "Available" | SvUnknown => "Unknown" end.
Definition status_style (s : ServerStatus) : Style :=
  match s with SvEnrolled => fg Green | SvAvailable => fg Blue | SvUnknown => fg Yellow end.
Definition relay_text (relay : RegistryRelayInfo) : string :=
  fmt [if rr_relay_required relay then "Relay required" else "Relay available";
       if str_is_empty (trim (rr_relay_url relay)) then "" else fmt [" · "; trim (rr_relay_url relay)]].
Definition server_item (server : ServerItem) : list Line :=
  ([styled (it_label server) bold] ++
   match it_subtitle server with Some s => [styled s (fg Gray)] | None => [] end ++
   match it_registry_entry server ≫= sre_relay with Some relay => [styled (relay_text relay) (fg Cyan)] | None => [] end ++
   [styled (status_text (it_status server)) (status_style (it_status server))])%list.

Definition highlight (focused : bool) : Style := fg_bold (if focused then Yellow else DarkGray).

Definition render_servers (area : Rect) (a : App) : frame :=
  let items :=
    match ap_servers a with
    | [] => [[LText "No servers found. Press 'd' to discover."]]
    | servers => server_item <$> servers
    end in
  render_widget
    (WList items (Some (highlight (bool_decide (ap_focus a = FServers))))
       (boxed (fmt ["Servers ("; pretty (length (ap_servers a)); ") [d] Discover [e] Enroll [r] Remove"]))
       (ap_selected_server a)) area.

Definition commands_title (a : App) : string :=
  let s := ap_command_state a in
  fmt ["Commands";
       match cs_server_id s ≫= λ id, find_server_by_id id a with Some server => fmt [" ("; it_label server; ")"] | None => "" end;
       match cs_search_query s with [] => "" | query => fmt [" /"; of_text query] end;
       match cs_tag_filter s with Some tag => fmt [" tag:"; tag] | None => "" end;
       " [/] Search [t] Tags [x] Execute"].
Definition command_item (c : CommandSummary) : list Line :=
  ([LSpans (mkSpan bold (cu_name c) :: if cu_requires_confirmation c then [mkSpan (fg_bold Yellow) " !confirm"] else [])] ++
   match cu_description c with Some d => [LSpans [raw d]] | None => [] end ++
   match cu_tags c with [] => [] | tags => [styled (fmt ["#"; join " #" tags]) (fg Gray)] end)%list.
Definition filtered_iter (s : CommandListState) : list CommandSummary := omap (λ i, cs_commands s !! i) (cs_filtered_indices s).
Definition selected_pos (s : CommandListState) : option nat :=
  selected ← cs_selected s; fst <$> list_find (λ i, i = selected) (cs_filtered_indices s).

Definition render_commands (area : Rect) (a : App) : frame :=
  let s := ap_command_state a in
  let block := boxed (commands_title a) in
  if cs_loading s then render_widget (WParagraph [LText "Loading commands..."] plain AlLeft block) area
  else
    match cs_filtered_indices s with
    | [] =>
        let message :=
          match cs_commands s with
          | [] => "No commands loaded. Select an enrolled server and press Enter."
          | _ =>
              if bool_decide (cs_search_query s ≠ []) || bool_decide (is_Some (cs_tag_filter s))
              then "No commands match the active filters." else "No commands available on this server."
          end in
        render_widget (WParagraph [LText message] plain AlLeft block) area
    | _ =>
        render_widget
          (WList (command_item <$> filtered_iter s) (Some (highlight (bool_decide (ap_focus a = FCommands)))) block (selected_pos s)) area
    end.

Definition render_main (area : Rect) (a : App) : frame :=
  let columns := layout_split Horizontal [Percentage 38; Percentage 62] area in
  left ← columns !! 0%nat;
  right ← columns !! 1%nat;
  render_servers left a ;> render_commands right a.

Definition render_status (area : Rect) (a : App) : frame :=
  let s := ap_command_state a in
  let status_message :=
    if ap_discovery_in_progress a then "Discovering servers..."
    else if str_is_empty (ap_status a) then "Ready" else ap_status a in
  let spans :=
    ([mkSpan (fg_bold Gray) "Status: "; raw status_message; raw "   ";
      mkSpan (fg Gray) (fmt ["Servers: "; pretty (length (ap_servers a)); "  Commands: "; pretty (length (cs_filtered_indices s))])] ++
     (if cs_loading s then [raw "   Loading..."] else []) ++
     match cs_search_query s with [] => [] | query => [raw (fmt ["   Search: "; of_text query])] end ++
     match cs_tag_filter s with Some tag => [raw (fmt ["   Tag: "; tag])] | None => [] end)%list in
  render_widget (WParagraph [LSpans spans] plain AlLeft (mkBlock None BordersTop)) area.

Definition centered_rect (area : Rect) (width_percent height_percent : Z) : option Rect :=
  let side p := Percentage ((100 - p) / 2) in
  middle ← layout_split Vertical [side height_percent; Percentage height_percent; side height_percent] area !! 1%nat;
  layout_split Horizontal [side width_percent; Percentage width_percent; side width_percent] middle !! 1%nat.

Definition inner (area : Rect) : Rect :=
  mkRect (sat_add (re_x area) 1) (sat_add (re_y area) 1) (sat_sub (re_width area) 2) (sat_sub (re_height area) 2).

Definition render_tag_filter (content_area : Rect) (s : TagFilterState) : frame :=
  area ← centered_rect content_area 40 40;
  let chunks := layout_split Vertical [Min 1; Length 1] (inner area) in
  top ← chunks !! 0%nat;
  bottom ← chunks !! 1%nat;
  let items := imap (λ i tag, [LSpans [raw (if (i =? 0)%nat then "All" else tag)]]) (tg_tags s) in
  render_widget WClear area ;> render_widget (WBlock (boxed "Filter Tags")) area ;>
  render_widget (WList items (Some (fg_bold Yellow)) no_block (Some (Nat.min (tg_selected s) (length (tg_tags s) - 1)))) top ;>
  render_widget (text_widget "Enter apply · Esc cancel" (fg Gray)) bottom.

Definition render_prompt (content_area : Rect) (s : PromptState) : frame :=
  area ← centered_rect content_area 50 35;
  let chunks := layout_split Vertical [Min 1; Length 1] (inner area) in
  top ← chunks !! 0%nat;
  bottom ← chunks !! 1%nat;
  render_widget WClear area ;> render_widget (WBlock (boxed (pr_title s))) area ;>
  render_widget (text_widget (pr_message s) plain) top ;>
  render_widget (text_widget (fmt ["[Enter/y] "; pr_confirm_label s; " · [Esc/n] "; pr_cancel_label s]) (fg Gray)) bottom.

(** The lines of a step, its alignment and its instructions. *)
Definition step_lines (step : EnrollmentStep) : list Line * Alignment * string :=
  match step with
  | EsMethodSelect =>
      ([LText "Choose how to enroll this device:"; LText ""; styled "[A] Approval code (requires server interaction)" (fg Gray);
        styled "[Q] Paste QR payload (from server UI)" (fg Gray)], AlCenter, "[a] Approval · [q] Paste QR · [Esc] Cancel")
  | EsQrInput q =>
      (([styled "Paste QR enrollment JSON and press Enter to submit." (fg Gray); LText "";
         match qi_payload q with
         | [] => styled "[payload empty]" (fg DarkGray)
         | payload => LText (format_text_with_cursor payload true (Some (qi_cursor q)))
         end] ++
        match qi_error q with Some e => [LText ""; styled e (fg_bold Red)] | None => [] end)%list, AlLeft, "[Enter] Submit · [Esc] Cancel")
  | EsApproval ap =>
      match av_verification_code ap with
      | Some code =>
          ([styled (av_status_message ap) (fg Gray); LText ""; styled code (mkStyle (Some Yellow) [BOLD; UNDERLINED]);
            styled "Enter this code on the server to approve enrollment" (fg Gray)], AlCenter, "Esc hides overlay after noting the code")
      | None => ([styled (av_status_message ap) (fg Gray)], AlCenter, "Waiting for verification code · Esc hides overlay")
      end
  | EsInProgress m => ([LSpans [raw m]], AlCenter, "Esc hides overlay")
  | EsCompleted m => ([styled m (fg Green)], AlCenter, "Press Enter or Esc to close")
  | EsError m => ([styled m (fg_bold Red)], AlCenter, "Press Enter or Esc to close")
  end.
Definition expiry_lines (expiry : option Z) : list Line :=
  match expiry with
  | Some t =>
      let '(text, color) :=
        if now <? t then (fmt ["QR token expires in "; format_remaining ((t - now) ÷ NANOS); " ("; formatted_expiry t; " UTC)"], Yellow)
        else (fmt ["QR token expired at "; formatted_expiry t; " UTC"], Red) in
      [LText ""; styled text (fg_bold color)]
  | None => []
  end.
Definition render_enrollment (content_area : Rect) (s : EnrollmentState) : frame :=
  area ← centered_rect content_area 60 50;
  let chunks := layout_split Vertical [Min 3; Length 1] (inner area) in
  top ← chunks !! 0%nat;
  bottom ← chunks !! 1%nat;
  let '(lines, alignment, instructions) := step_lines (en_step s) in
  let body := ([styled (it_label (en_server s)) bold; LText ""] ++ lines ++ expiry_lines (en_qr_token_expiry s))%list in
  render_widget WClear area ;> render_widget (WBlock (boxed (fmt ["Enroll "; it_label (en_server s)]))) area ;>
  render_widget (WParagraph body plain alignment no_block) top ;> render_widget (text_widget instructions (fg Gray)) bottom.

Definition type_label (t : CommandParameterType) : string :=
  match t with CptSlider => "slider" | CptText => "text" | CptToggle => "toggle" | CptDropdown => "dropdown" end.
Definition field_item (s : ParameterFormState) (i : nat) (f : ParameterFieldState) : list Line :=
  let selected := (i =? fo_selected s)%nat in
  let editing := fo_editing s && selected in
  ([LSpans [mkSpan bold (ca_name (fs_definition f)); raw "  "; mkSpan (fg Gray) (fmt ["["; type_label (ca_param_type (fs_definition f)); "]"])];
    LSpans [raw (parameter_value_display f selected editing (if editing then fo_text_cursor s else None))]] ++
   match ca_description (fs_definition f) with Some d => [styled d (fg Gray)] | None => [] end)%list.
Definition render_form (content_area : Rect) (s : ParameterFormState) : frame :=
  area ← centered_rect content_area 70 75;
  let chunks := layout_split Vertical [Min 3; Length 1; Length 1] (inner area) in
  top ← chunks !! 0%nat;
  middle ← chunks !! 1%nat;
  bottom ← chunks !! 2%nat;
  let items := match fo_fields s with [] => [[LText "No parameters. Press Ctrl+Enter to run."]] | fields => imap (field_item s) fields end in
  let selected := match fo_fields s with [] => None | _ => Some (fo_selected s) end in
  let style := mkStyle (Some Yellow) (if fo_editing s then [BOLD; ITALIC] else [BOLD]) in
  let instructions :=
    match fo_fields s with
    | [] => "Ctrl+Enter run · Esc cancel"
    | _ => "Ctrl+Enter run · Esc cancel · Enter edit text · Space toggle · ←/→ adjust"
    end in
  render_widget WClear area ;>
  render_widget (WBlock (boxed (fmt ["Execute "; cu_name (fo_command s); " on "; fo_server_label s]))) area ;>
  render_widget (WList items (Some style) no_block selected) top ;>
  match fo_error s with Some e => render_widget (text_widget e (fg_bold Red)) middle | None => Some [] end ;>
  render_widget (text_widget instructions (fg Gray)) bottom.

(** [&output[start..end]] *)
Definition slice {A} (l : list A) (start end_ : nat) : option (list A) :=
  if (start <=? end_)%nat && (end_ <=? length l)%nat then Some (take (end_ - start) (drop start l)) else None.
Definition output_item (line : CommandOutputLine) : list Line :=
  let '(label, color) := match ol_channel line with ChStdout => ("stdout", Green) | ChStderr => ("stderr", Red) | ChStatus => ("status", Gray) end in
  [LSpans [mkSpan (fg_bold color) (fmt [label; ": "]); raw (ol_content line)]].
Definition execution_title (s : CommandExecutionState) : string :=
  fmt [if xs_running s then "Running" else "Completed"; ": "; xs_command_name s; " on "; xs_server_label s;
       match xs_exit_code s with Some code => fmt [" · exit "; pretty code] | None => "" end].
Definition render_execution (content_area : Rect) (s : CommandExecutionState) : frame :=
  area ← centered_rect content_area 80 80;
  let chunks := layout_split Vertical [Min 3; Length 1; Length 1] (inner area) in
  top ← chunks !! 0%nat;
  middle ← chunks !! 1%nat;
  bottom ← chunks !! 2%nat;
  let total_lines := length (xs_output s) in
  let end_ := (total_lines - Nat.min (xs_scroll_offset s) total_lines)%nat in
  shown ← slice (xs_output s) (end_ - Z.to_nat (re_height top)) end_;
  render_widget WClear area ;> render_widget (WBlock (boxed (execution_title s))) area ;>
  render_widget (WList (output_item <$> shown) None no_block None) top ;>
  match xs_error s with Some e => render_widget (text_widget e (fg_bold Red)) middle | None => Some [] end ;>
  render_widget (text_widget (if xs_running s then "Command running… Esc closes once finished" else "Esc to close") (fg Gray)) bottom.

Definition render_search (content_area : Rect) (s : SearchState) : frame :=
  area ← centered_rect content_area 60 30;
  render_widget WClear area ;>
  render_widget
    (WParagraph [LSpans [mkSpan (fg Gray) "Query: "; raw (of_text (se_query s))]; styled "Enter to apply · Esc to cancel" (fg Gray)]
       plain AlLeft (boxed "Search Commands")) area ;>
  (cursor_offset ← add_u16 checked 7 (as_u16 (Z.of_nat (se_cursor s)));
   x ← add_u16 checked (re_x (inner area)) (Z.min cursor_offset (sat_sub (re_width (inner area)) 1));
   Some [DCursor x (re_y (inner area))]).

Definition render_help (content_area : Rect) : frame :=
  area ← centered_rect content_area 60 40;
  render_widget WClear area ;> render_widget (WParagraph [LText "Help is coming soon."] plain AlLeft (boxed "Help")) area.

Definition render_overlay (content_area : Rect) (a : App) : frame :=
  match ap_overlay a with
  | None => Some []
  | Some (OvTagFilter s) => render_tag_filter content_area s
  | Some (OvPrompt s) => render_prompt content_area s
  | Some (OvEnrollment s) => render_enrollment content_area s
  | Some (OvParameterForm s) => render_form content_area s
  | Some (OvCommandExecution s) => render_execution content_area s
  | Some (OvSearch s) => render_search content_area s
  | Some OvHelp => render_help content_area
  end.

Definition draw (area : Rect) (a : App) : frame :=
  let layout := layout_split Vertical [Length 1; Min 1; Length 1] area in
  header ← layout !! 0%nat;
  main ← layout !! 1%nat;
  status ← layout !! 2%nat;
  render_header header a ;> render_main main a ;> render_status status a ;> render_overlay main a.
End draw.

(** ** Every frame is drawn *)
Definition terminal_area (r : Rect) : Prop :=
  0 <= re_x r ∧ 0 <= re_y r ∧ 0 <= re_width r ∧ 0 <= re_height r ∧ re_x r + re_width r <= 65535 ∧ re_y r + re_height r <= 65535.

(** [r] is empty or lies inside [outer]. *)
Definition on_screen (outer r : Rect) : Prop :=
  0 <= re_x r ∧ 0 <= re_y r ∧ 0 <= re_width r ∧ 0 <= re_height r ∧ (0 < re_width r → 0 < re_height r → inside outer r).

(** The widget's area is on the screen, and the highlighted row of a list exists. *)
Definition fits (outer : Rect) (op : DrawOp) : Prop :=
  match op with
  | DWidget w r =>
      on_screen outer r ∧
      match w with WList items _ _ (Some i) => (i < length items)%nat | _ => True end
  | DCursor x y => 0 <= x <= 65535 ∧ 0 <= y <= 65535
  end.
Definition drawn (outer : Rect) (f : frame) : Prop := ∃ ops, f = Some ops ∧ Forall (fits outer) ops.

Lemma drawn_then outer f g : drawn outer f → drawn outer g → drawn outer (f ;> g).
Proof. intros (ops & -> & Ho) (ops' & -> & Ho'). eexists. split; [reflexivity|]. by apply Forall_app. Qed.
Lemma drawn_widget outer w r : on_screen outer r → match w with WList items _ _ (Some i) => (i < length items)%nat | _ => True end →
  drawn outer (render_widget w r).
Proof. intros Hr Hw. eexists. split; [reflexivity|]. by apply Forall_singleton. Qed.
Lemma drawn_nothing outer : drawn outer (Some []).
Proof. by exists []. Qed.

Lemma on_screen_self r : terminal_area r → on_screen r r.
Proof. unfold terminal_area, on_screen, inside. lia. Qed.
Lemma on_screen_inside outer r r' : on_screen outer r → inside r r' → on_screen outer r'.
Proof. unfold on_screen, inside. intros (Hx & Hy & Hw & Hh & Hi) Hr. split_and!; [lia..|]. intros. specialize (Hi ltac:(lia) ltac:(lia)). lia. Qed.
Lemma on_screen_inner outer r : terminal_area outer → on_screen outer r → on_screen outer (inner r).
Proof.
  unfold terminal_area, on_screen, inside, inner, sat_add, sat_sub. cbn. intros Ho (Hx & Hy & Hw & Hh & Hi). split_and!; [lia..|].
  intros. specialize (Hi ltac:(lia) ltac:(lia)). lia.
Qed.

(** With overflow checks, the query of an open search is short enough for a [u16]. *)
Definition short_query (checked : bool) (a : App) : Prop :=
  match ap_overlay a with Some (OvSearch s) => checked = true → Z.of_nat (length (se_query s)) < 65529 | _ => True end.

Section drawing.
Context `{EnrollCrates, PayloadJson, Layout, !LayoutLaws} (checked : bool) (version : string) (now : Z) (outer : Rect).
Hypothesis Houter : terminal_area outer.

(** The areas of a split. *)
Lemma chunk d cs r i : on_screen outer r → (i < length cs)%nat → ∃ r', layout_split d cs r !! i = Some r' ∧ on_screen outer r'.
Proof.
  intros Hr Hi. pose proof Hr as (_ & _ & Hw & Hh & _). destruct (split_inside d cs r Hw Hh) as [Hlen Hin].
  destruct (lookup_lt_is_Some_2 (layout_split d cs r) i) as [r' Hr']; [by rewrite Hlen|]. exists r'. split; [done|].
  rewrite Forall_lookup in Hin. eapply on_screen_inside; [done|by eapply Hin].
Qed.

Lemma centered_on_screen r w h : on_screen outer r → ∃ area, centered_rect r w h = Some area ∧ on_screen outer area.
Proof.
  intros Hr. unfold centered_rect. cbv zeta.
  edestruct (chunk Vertical [Percentage ((100 - h) / 2); Percentage h; Percentage ((100 - h) / 2)] r 1) as (m & -> & Hm); [done|cbn; lia|].
  cbn [mbind option_bind]. apply chunk; [done|cbn; lia].
Qed.

Lemma centered_inside r w h : inside outer r → ∃ area, centered_rect r w h = Some area ∧ inside outer area.
Proof.
  intros Hr. assert (∀ d cs r0 i, inside outer r0 → (i < length cs)%nat → ∃ r', layout_split d cs r0 !! i = Some r' ∧ inside outer r') as Hsplit.
  { intros d cs r0 i H0' Hi. destruct (split_inside d cs r0) as [Hlen Hin]; [unfold inside in H0'; lia..|].
    destruct (lookup_lt_is_Some_2 (layout_split d cs r0) i) as [r' Hr']; [by rewrite Hlen|]. exists r'. split; [done|].
    rewrite Forall_lookup in Hin. specialize (Hin i r' Hr'). unfold inside in *. lia. }
  unfold centered_rect. cbv zeta.
  edestruct (Hsplit Vertical [Percentage ((100 - h) / 2); Percentage h; Percentage ((100 - h) / 2)] r 1%nat) as (m & -> & Hm); [done|cbn; lia|].
  cbn [mbind option_bind]. apply Hsplit; [done|cbn; lia].
Qed.

(** Names the areas of the split that is read next. *)
Ltac take_chunk :=
  match goal with
  | |- context [layout_split ?d ?cs ?r !! ?i] =>
      let c := fresh "c" in let Hc := fresh "Hc" in
      destruct (chunk d cs r i) as (c & -> & Hc); [by auto using on_screen_inner|cbn; lia|]; cbn [mbind option_bind]
  end.
Ltac drawing := repeat (apply drawn_then); try (apply drawn_widget; [by auto|done]); try apply drawn_nothing.

Lemma servers_drawn r a : on_screen outer r → app_ok a → drawn outer (render_servers r a).
Proof.
  intros Hr [[Hsel _ _ _ _] _]. apply drawn_widget; [done|]. unfold selection_ok in Hsel. destruct (ap_selected_server a) as [i|]; [|done].
  destruct (ap_servers a); [cbn in Hsel; lia|]. by rewrite length_fmap.
Qed.

Lemma matching_from_lookup n q t cs i : i ∈ matching_from n q t cs → is_Some (cs !! (i - n)%nat) ∧ (n <= i)%nat.
Proof.
  revert n. induction cs as [|c cs IH]; intros n; cbn [matching_from]; [by intros ?%elem_of_nil|]. intros Hi.
  assert (i = n ∨ i ∈ matching_from (S n) q t cs) as [->|Hi'].
  { destruct (matches_filters q t c); [by apply elem_of_cons in Hi|by right]. }
  - rewrite Nat.sub_diag. split; [by eexists|lia].
  - destruct (IH _ Hi') as [Hs Hn]. split; [|lia]. by replace (i - n)%nat with (S (i - S n)) by lia.
Qed.
Lemma length_filtered_iter s : commands_ok s → length (filtered_iter s) = length (cs_filtered_indices s).
Proof.
  intros [Hf _ _]. assert (Forall (λ i, is_Some (cs_commands s !! i)) (cs_filtered_indices s)) as Hall.
  { apply Forall_forall. intros i Hi. rewrite Hf in Hi. apply matching_from_lookup in Hi as [Hi _]. by rewrite Nat.sub_0_r in Hi. }
  unfold filtered_iter. clear Hf. induction Hall as [|i l [c Hc] _ IH]; [done|]. cbn. rewrite Hc. cbn. by rewrite IH.
Qed.

Lemma commands_drawn r a : on_screen outer r → app_ok a → drawn outer (render_commands r a).
Proof.
  intros Hr [[_ _ _ Hc _] _]. unfold render_commands. destruct (cs_loading _); [by apply drawn_widget|].
  pose proof (length_filtered_iter _ Hc) as Hlen. destruct (cs_filtered_indices (ap_command_state a)) as [|i l] eqn:Ef; [by apply drawn_widget|].
  apply drawn_widget; [done|]. unfold selected_pos. destruct (cs_selected (ap_command_state a)) as [k|]; [|done]. cbn [mbind option_bind].
  rewrite Ef. destruct (list_find (λ j, j = k) (i :: l)) as [[p j]|] eqn:E; [|done]. cbn. rewrite length_fmap, Hlen.
  apply list_find_Some in E as (Hp & _ & _). by apply lookup_lt_Some in Hp.
Qed.

Lemma search_drawn r s : on_screen outer r → inside outer r → (se_cursor s <= length (se_query s))%nat →
  (checked = true → Z.of_nat (length (se_query s)) < 65529) → drawn outer (render_search checked r s).
Proof.
  intros Hr Hin Hcur Hq. unfold render_search. destruct (centered_on_screen r 60 30 Hr) as (area & E & Ha).
  destruct (centered_inside r 60 30 Hin) as (area' & E' & Ha'). rewrite E in E'. injection E' as <-. rewrite E. cbn [mbind option_bind].
  drawing. set (w := sat_sub (re_width (inner area)) 1).
  pose proof (Z.mod_pos_bound (Z.of_nat (se_cursor s)) 65536 ltac:(lia)) as Hm.
  assert (∃ o, add_u16 checked 7 (as_u16 (Z.of_nat (se_cursor s))) = Some o ∧ 0 <= o) as (o & -> & Ho).
  { unfold add_u16. change (as_u16 (Z.of_nat (se_cursor s))) with (Z.of_nat (se_cursor s) mod 65536).
    destruct (Z.ltb_spec 65535 (7 + Z.of_nat (se_cursor s) mod 65536)); [|eexists; split; [done|lia]].
    destruct checked; [|eexists; split; [done|unfold as_u16; apply Z.mod_pos_bound; lia]].
    specialize (Hq eq_refl). rewrite Z.mod_small in * by lia. lia. }
  cbn [mbind option_bind]. assert (0 <= re_x (inner area) + Z.min o w <= 65535) as Hx.
  { unfold terminal_area, inside in *. unfold w, inner, sat_sub, sat_add. cbn [re_x re_width]. lia. }
  unfold add_u16. rewrite (proj2 (Z.ltb_ge _ _)) by lia. cbn [mbind option_bind]. eexists. split; [reflexivity|]. apply Forall_singleton.
  split; [done|]. destruct Ha as (_ & Hy & _). cbn. unfold sat_add. lia.
Qed.

Lemma overlay_drawn r a : on_screen outer r → inside outer r → app_ok a → short_query checked a → drawn outer (render_overlay checked now r a).
Proof.
  intros Hr Hin [_ Ho] Hq. unfold render_overlay, short_query in *.
  destruct (ap_overlay a) as [[|s|s|s|s|s|s]|]; [done|..|apply drawn_nothing]; cbn in Ho.
  - by apply search_drawn.
  - unfold render_tag_filter. destruct (centered_on_screen r 40 40 Hr) as (area & -> & Ha). cbn [mbind option_bind]. repeat take_chunk.
    drawing. apply drawn_widget; [done|]. rewrite length_imap. lia.
  - unfold render_form. destruct (centered_on_screen r 70 75 Hr) as (area & -> & Ha). cbn [mbind option_bind]. repeat take_chunk.
    drawing.
    + apply drawn_widget; [done|]. pose proof (fk_selected s Ho) as Hs. destruct (fo_fields s); [done|]. rewrite length_imap.
      by destruct Hs as [Hs|[Hs _]].
    + destruct (fo_error s); [by apply drawn_widget|apply drawn_nothing].
  - unfold render_execution. destruct (centered_on_screen r 80 80 Hr) as (area & -> & Ha). cbn [mbind option_bind]. repeat take_chunk.
    unfold slice. destruct (_ && _) eqn:E; [|apply andb_false_iff in E; rewrite !Nat.leb_gt in E; lia]. cbn [mbind option_bind].
    drawing. destruct (xs_error s); [by apply drawn_widget|apply drawn_nothing].
  - unfold render_enrollment. destruct (centered_on_screen r 60 50 Hr) as (area & -> & Ha). cbn [mbind option_bind]. repeat take_chunk.
    destruct (step_lines (en_step s)) as [[lines al] instr]. drawing.
  - unfold render_prompt. destruct (centered_on_screen r 50 35 Hr) as (area & -> & Ha). cbn [mbind option_bind]. repeat take_chunk. drawing.
Qed.

Lemma frame_drawn a : app_ok a → short_query checked a → drawn outer (draw checked version now outer a).
Proof.
  intros Ha Hq. assert (on_screen outer outer) as Ho by (by apply on_screen_self).
  assert (∀ d cs i c, layout_split d cs outer !! i = Some c → inside outer c) as Hsplit.
  { intros d cs i c Hc. destruct (split_inside d cs outer) as [_ Hin]; [unfold terminal_area in Houter; lia..|].
    rewrite Forall_lookup in Hin. by eapply Hin. }
  unfold draw. cbv zeta. destruct (layout_split Vertical [Length 1; Min 1; Length 1] outer !! 1%nat) as [m|] eqn:Em.
  - pose proof (Hsplit _ _ _ _ Em) as Hm. assert (on_screen outer m) as Hms by (by eapply on_screen_inside). repeat take_chunk. drawing.
    + unfold render_main. cbv zeta. repeat take_chunk. apply drawn_then; [by apply servers_drawn|by apply commands_drawn].
    + by apply overlay_drawn.
  - edestruct (chunk Vertical [Length 1; Min 1; Length 1] outer 1) as (c & E & _); [done|cbn; lia|]. by rewrite Em in E.
Qed.

(** The output of the view is its last lines, as many as there is room for. *)
Definition shows_output (s : CommandExecutionState) (op : DrawOp) : Prop :=
  ∃ r, op = DWidget (WList (output_item <$> lastn (Z.to_nat (re_height r)) (xs_output s)) None no_block None) r.

Lemma slice_tail {A} (l : list A) n : slice l (length l - n) (length l) = Some (lastn n l).
Proof.
  unfold slice. rewrite (proj2 (Nat.leb_le _ _)) by lia. rewrite Nat.leb_refl. cbn. f_equal. unfold lastn. apply take_ge. rewrite length_drop. lia.
Qed.

Lemma execution_shown r s ops : execution_ok s → render_execution r s = Some ops → Exists (shows_output s) ops.
Proof.
  intros [Hscroll _]. unfold render_execution. cbv zeta. rewrite Hscroll. cbn [Nat.min]. rewrite Nat.sub_0_r.
  intros (area & _ & E)%bind_Some. apply bind_Some in E as (top & _ & E). apply bind_Some in E as (middle & _ & E).
  apply bind_Some in E as (bottom & _ & E). rewrite slice_tail in E. cbn in E.
  assert (∃ rest, ops = [DWidget WClear area; DWidget (WBlock (boxed (execution_title s))) area] ++
    DWidget (WList (output_item <$> lastn (Z.to_nat (re_height top)) (xs_output s)) None no_block None) top :: rest)%list as [rest ->]
    by (destruct (xs_error s); injection E as <-; by eexists).
  apply Exists_app. right. left. by exists top.
Qed.

Lemma frame_shows_output a s ops : app_ok a → exec_of a = Some s → draw checked version now outer a = Some ops → Exists (shows_output s) ops.
Proof.
  intros [_ Ho] Hx. unfold exec_of in Hx. destruct (ap_overlay a) as [o|] eqn:Eo; [|done]. destruct o as [| | | |s'| |]; try done.
  injection Hx as ->. cbn in Ho. unfold draw. cbv zeta. intros (h & _ & E)%bind_Some. apply bind_Some in E as (m & _ & E).
  apply bind_Some in E as (st & _ & E). apply bind_Some in E as (o1 & _ & E). apply bind_Some in E as (o2 & E2 & [= <-]).
  apply Exists_app. right. unfold render_overlay in E2. rewrite Eo in E2. by eapply execution_shown.
Qed.
End drawing.

Section frames.
Context `{EnrollCrates, PayloadJson, UuidText, !RegexEngine, !TomlCodec RawClientConfig, !TomlCodec ServerRegistryFile, Layout, !LayoutLaws}.

(** C34: Every frame can be drawn, and shows what happened.  At every moment of every
    run, on a terminal of any size, drawing does not panic: no index, slice or area is
    out of range, every widget lies on the screen and the highlighted row of every list
    exists.  (In a build with overflow checks this needs that the query of an open search has
    fewer than 65529 characters, see [long_query_panics].)  While the view of a command is
    open the frame contains the last lines of its output, as many as there is room for. *)
Theorem every_frame_is_drawn env order an config registry ops s checked version now area :
  answers_i32 an → loop_run env order an ops (mkRunning (App_new order config registry) []) = Some s → terminal_area area →
  short_query checked (ru_app s) →
  ∃ f, draw checked version now area (ru_app s) = Some f ∧ Forall (fits area) f ∧
    ∀ x, exec_of (ru_app s) = Some x → Exists (shows_output x) f.
Proof.
  intros Han Hrun Harea Hq. assert (app_ok (ru_app s)) as Ha by (eapply loop_run_ok; [done| |exact Hrun]; apply App_new_ok).
  destruct (frame_drawn checked version now area Harea (ru_app s) Ha Hq) as (f & Hf & Hall). exists f. split_and!; [done..|].
  intros x Hx. by eapply frame_shows_output.
Qed.

(** With overflow checks a cursor behind 65529 characters does not fit. *)
Lemma long_query_panics r s : 65529 <= Z.of_nat (se_cursor s) < 65536 → render_search true r s = None.
Proof.
  intros Hc. unfold render_search. destruct (centered_rect r 60 30) as [area|]; [|done]. cbn [mbind option_bind].
  unfold add_u16, as_u16. rewrite Z.mod_small by lia. rewrite (proj2 (Z.ltb_lt 65535 _)) by lia. done.
Qed.
End frames.

(** ** A witness *)
(** A layout that gives every part the whole area. *)
#[local] Instance whole_layout : Layout := λ _ cs r, (λ _, r) <$> cs.
#[local] Instance whole_layout_laws : LayoutLaws.
Proof.
  intros d cs r Hw Hh. split; [apply length_fmap|]. apply Forall_fmap, Forall_true. intros c. cbn. unfold inside. lia.
Qed.
#[local] Existing Instance demo_uuid.
#[local] Existing Instance demo_regex.
#[local] Existing Instance demo_registry_codec.
#[local] Existing Instance no_crates.
#[local] Existing Instance no_payload.
#[local] Existing Instance no_config.

Lemma every_frame_is_drawn_witness :
  match loop_run demo_env map_to_list tui_answers tui_ops
          (mkRunning (App_new map_to_list ClientConfig_default (mkServerRegistry [tui_server])) []) with
  | Some s => ∃ f, draw true "0.1.0" 0 (mkRect 0 0 80 24) (ru_app s) = Some f ∧ Forall (fits (mkRect 0 0 80 24)) f
  | None => False
  end.
Proof.
  destruct (loop_run _ _ _ _ _) as [s|] eqn:E; [|vm_compute in E; discriminate E].
  destruct (every_frame_is_drawn demo_env map_to_list tui_answers ClientConfig_default (mkServerRegistry [tui_server]) tui_ops s true "0.1.0" 0
    (mkRect 0 0 80 24) tui_answers_i32 E) as (f & Hf & Hall & _); [vm_compute; repeat split; discriminate| |].
  - assert (match loop_run demo_env map_to_list tui_answers tui_ops (mkRunning (App_new map_to_list ClientConfig_default
        (mkServerRegistry [tui_server])) []) with Some s => match ap_overlay (ru_app s) with Some (OvSearch _) => false | _ => true end
      | None => true end = true) as Ho by (vm_compute; reflexivity).
    rewrite E in Ho. unfold short_query. destruct (ap_overlay (ru_app s)) as [[]|]; (exact I || discriminate Ho).
  - exists f. split; [exact Hf|exact Hall].
Defined.
