(* ===== verification/Kotlin.v ===== *)
(** * What the Android application uses of Kotlin and Java

    A Kotlin [String] is the UTF-8 text of its characters.  White space, digits and
    numbers follow the Java class library, whose notion of each differs from Rust's. *)

From S2P Require Import Prelude RustStd ThirdParty.

Local Open Scope string_scope.
Local Open Scope Z_scope.

(** ** White space *)

(** The number of bytes of the character for which [Char.isWhitespace] holds at the
    start of a text, 0 if there is none: the characters of the categories Zs, Zl and Zp,
    U+0009..000D and U+001C..001F. *)
Definition kws_len (s : string) : nat :=
  match s with
  | String a s1 =>
      if in_range 9 13 a || in_range 28 32 a then 1%nat else
      match s1 with
      | String b s2 =>
          if in_range 0xC2 0xC2 a && in_range 0xA0 0xA0 b then 2%nat else
          match s2 with
          | String c _ =>
              if (in_range 0xE1 0xE1 a && in_range 0x9A 0x9A b && in_range 0x80 0x80 c)
              || (in_range 0xE2 0xE2 a && in_range 0x80 0x80 b &&
                    (in_range 0x80 0x8A c || in_range 0xA8 0xA9 c || in_range 0xAF 0xAF c))
              || (in_range 0xE2 0xE2 a && in_range 0x81 0x81 b && in_range 0x9F 0x9F c)
              || (in_range 0xE3 0xE3 a && in_range 0x80 0x80 b && in_range 0x80 0x80 c)
              then 3%nat else 0%nat
          | EmptyString => 0%nat
          end
      | EmptyString => 0%nat
      end
  | EmptyString => 0%nat
  end.

(** The length of the text bounds the number of characters removed. *)
Fixpoint ktrim_start_fuel (fuel : nat) (s : string) : string :=
  match fuel with
  | O => s
  | S fuel' => match kws_len s with O => s | n => ktrim_start_fuel fuel' (string_drop n s) end
  end.
Definition ktrim_start (s : string) : string := ktrim_start_fuel (String.length s) s.
Fixpoint ktrim_end (s : string) : string :=
  if str_is_empty (ktrim_start s) then EmptyString else
  match s with EmptyString => EmptyString | String c s' => String c (ktrim_end s') end.
(** [String.trim] *)
Definition ktrim (s : string) : string := ktrim_end (ktrim_start s).
(** [CharSequence.isBlank], [isNullOrBlank] *)
Definition is_blank (s : string) : bool := str_is_empty (ktrim_start s).
Definition is_null_or_blank (s : option string) : bool := match s with Some s => is_blank s | None => true end.
(** [takeIf { it.isNotBlank() }] *)
(** [contains(other)] *)
Fixpoint kcontains (other s : string) : bool :=
  String.prefix other s || match s with EmptyString => false | String _ s => kcontains other s end.
Definition take_not_blank (s : string) : option string := if is_blank s then None else Some s.

(** ** Numbers *)

(** The decimal digits zero outside ASCII that [Character.digit] knows in the basic
    plane; each is followed by the other nine. *)
Definition digit_zeros : list Z :=
  [0x660; 0x6F0; 0x7C0; 0x966; 0x9E6; 0xA66; 0xAE6; 0xB66; 0xBE6; 0xC66; 0xCE6; 0xD66; 0xDE6; 0xE50; 0xED0; 0xF20; 0x1040;
   0x1090; 0x17E0; 0x1810; 0x1946; 0x19D0; 0x1A80; 0x1A90; 0x1B50; 0x1BB0; 0x1C40; 0x1C50; 0xA620; 0xA8D0; 0xA900; 0xA9D0;
   0xA9F0; 0xAA50; 0xABF0; 0xFF10].
Definition code_digit (cp : Z) : option Z :=
  match filter (λ z, z <= cp < z + 10) digit_zeros with z :: _ => Some (cp - z) | [] => None end.

(** The digits of a text, [acc] the number read so far. *)
Fixpoint kdigits_val (acc : Z) (s : string) : option Z :=
  match s with
  | EmptyString => Some acc
  | String a s1 =>
      match digit_val a with
      | Some d => kdigits_val (10 * acc + d) s1
      | None =>
          match s1 with
          | String b s2 =>
              if in_range 0xC2 0xDF a then
                d ← code_digit ((ascii_code a - 0xC0) * 64 + (ascii_code b - 0x80)); kdigits_val (10 * acc + d) s2
              else
                match s2 with
                | String c s3 =>
                    if in_range 0xE0 0xEF a then
                      d ← code_digit ((ascii_code a - 0xE0) * 4096 + (ascii_code b - 0x80) * 64 + (ascii_code c - 0x80));
                      kdigits_val (10 * acc + d) s3
                    else None
                | EmptyString => None
                end
          | EmptyString => None
          end
      end
  end.
Definition kparse_digits (s : string) : option Z := match s with EmptyString => None | _ => kdigits_val 0 s end.
Definition ksigned (s : string) : option Z :=
  match s with
  | String c s' =>
      if decide (c = "+"%char) then kparse_digits s'
      else if decide (c = "-"%char) then Z.opp <$> kparse_digits s'
      else kparse_digits s
  | EmptyString => None
  end.
(** [String.toIntOrNull], [String.toLongOrNull] *)
Definition to_int_or_null (s : string) : option Z :=
  z ← ksigned s; if (I32_MIN <=? z) && (z <=? I32_MAX) then Some z else None.
Definition to_long_or_null (s : string) : option Z :=
  z ← ksigned s; if (I64_MIN <=? z) && (z <=? I64_MAX) then Some z else None.

Definition is_ascii (c : ascii) : bool := in_range 0 0x7F c.

Lemma kdigits_val_ascii acc s : string_forall is_ascii s = true → kdigits_val acc s = digits_val acc s.
Proof.
  revert acc. induction s as [|a s IH]; intros acc Hs; [done|]. cbn [string_forall] in Hs. apply andb_true_iff in Hs as [Ha Hs].
  cbn [kdigits_val digits_val]. destruct (digit_val a) as [d|]; [by apply IH|]. cbn [mbind option_bind].
  unfold is_ascii, in_range in Ha. assert (in_range 0xC2 0xDF a = false) as -> by (unfold in_range; lia).
  assert (in_range 0xE0 0xEF a = false) as -> by (unfold in_range; lia). by destruct s as [|b [|c s]].
Qed.

(** On ASCII texts the two languages read the same numbers. *)
Lemma to_int_or_null_ascii s : string_forall is_ascii s = true → to_int_or_null s = parse_i32 s.
Proof.
  intros Hs. unfold to_int_or_null, parse_i32, ksigned. f_equal. destruct s as [|c s]; [done|].
  cbn [string_forall] in Hs. apply andb_true_iff in Hs as [Hc Hs].
  assert (∀ t, string_forall is_ascii t = true → kparse_digits t = parse_digits t) as Hp.
  { intros [|x t] Ht; [done|]. by apply kdigits_val_ascii. }
  repeat case_decide; [by apply Hp|by rewrite Hp|]. apply Hp. cbn. by rewrite Hc.
Qed.

(** An Arabic three is a number for Kotlin and none for Rust. *)
Lemma other_digits : to_int_or_null (String "217" (String "163" EmptyString)) = Some 3 ∧ parse_i32 (String "217" (String "163" EmptyString)) = None.
Proof. split; vm_compute; reflexivity. Qed.

(** ** Texts *)

(** [removePrefix] and [padEnd] *)
Definition remove_prefix (p s : string) : string := default s (strip_prefix p s).
Fixpoint repeat_char (n : nat) (c : ascii) : string := match n with O => EmptyString | S n' => String c (repeat_char n' c) end.
Definition pad_end (n : nat) (c : ascii) (s : string) : string := String.append s (repeat_char (n - String.length s) c).
(** [split(c)] with a one-character separator: always at least one piece. *)
Fixpoint split_char (c : ascii) (s : string) : list string :=
  match s with
  | EmptyString => [EmptyString]
  | String a s' =>
      if decide (a = c) then EmptyString :: split_char c s'
      else match split_char c s' with p :: ps => String a p :: ps | [] => [String a EmptyString] end
  end.
(** [substringBefore] and [substringAfter] a character that occurs; without it the whole text. *)
Fixpoint substring_before (c : ascii) (s : string) : string :=
  match s with EmptyString => EmptyString | String a s' => if decide (a = c) then EmptyString else String a (substring_before c s') end.
Fixpoint after_char (c : ascii) (s : string) : option string :=
  match s with EmptyString => None | String a s' => if decide (a = c) then Some s' else after_char c s' end.
Definition substring_after (c : ascii) (s : string) : string := default s (after_char c s).

(** [Iterable.distinct]: the first occurrence of each element stays. *)
Fixpoint distinct `{EqDecision A} (l : list A) : list A :=
  match l with [] => [] | x :: l' => x :: filter (λ y, y ≠ x) (distinct l') end.

Section distinct.
Context `{EqDecision A}.
Implicit Types l k : list A.

Lemma elem_of_distinct x l : x ∈ distinct l ↔ x ∈ l.
Proof.
  induction l as [|y l IH]; [done|]. cbn [distinct]. rewrite !elem_of_cons, list_elem_of_filter, IH.
  destruct (decide (x = y)); naive_solver.
Qed.

Lemma NoDup_distinct l : NoDup (distinct l).
Proof.
  induction l as [|x l IH]; [constructor|]. cbn [distinct]. constructor; [|by apply NoDup_filter].
  rewrite list_elem_of_filter. tauto.
Qed.

Lemma distinct_NoDup l : NoDup l → distinct l = l.
Proof.
  induction 1 as [|x l Hx Hl IH]; [done|]. cbn [distinct]. rewrite IH. f_equal.
  apply filter_every. by intros y Hy ->.
Qed.

Lemma filter_distinct (P : A → Prop) `{∀ x, Decision (P x)} l : filter P (distinct l) = distinct (filter P l).
Proof.
  induction l as [|x l IH]; [done|]. cbn [distinct]. rewrite (filter_cons _ x l), filter_cons. destruct (decide (P x)) as [Hx|Hx].
  - cbn [distinct]. f_equal. rewrite <-IH, !list_filter_filter. apply list_filter_iff. naive_solver.
  - rewrite <-IH, list_filter_filter. apply list_filter_iff. intros y. split; [tauto|]. intros Hy. split; [done|]. by intros ->.
Qed.

(** A list without repetitions stays at the front of what is appended to it. *)
Lemma distinct_app l k : NoDup l → distinct (l ++ k)%list = (l ++ filter (λ y, y ∉ l) (distinct k))%list.
Proof.
  induction 1 as [|x l Hx Hl IH]; [cbn; by rewrite filter_every by (intros; apply not_elem_of_nil)|].
  cbn [distinct app]. rewrite IH, filter_app. f_equal. f_equal.
  - apply filter_every. by intros y Hy ->.
  - rewrite list_filter_filter. apply list_filter_iff. intros y. rewrite not_elem_of_cons. tauto.
Qed.
End distinct.

(** ** Joining and splitting *)
Definition no_char (c : ascii) (s : string) : bool := string_forall (λ a, negb (bool_decide (a = c))) s.

Lemma split_char_ne c s : split_char c s ≠ [].
Proof. induction s as [|a s IH]; [done|]. cbn [split_char]. case_decide; [done|]. by destruct (split_char c s). Qed.

Lemma split_char_append c s t : no_char c s = true → split_char c (String.append s (String c t)) = s :: split_char c t.
Proof.
  induction s as [|a s IH]; intros Hs.
  { rewrite append_nil_l. cbn [split_char]. by rewrite decide_True. }
  rewrite append_cons. cbn [split_char]. cbn in Hs. apply andb_true_iff in Hs as [Ha Hs].
  apply negb_true_iff, bool_decide_eq_false in Ha. rewrite decide_False by done. by rewrite IH.
Qed.

Lemma split_char_single c s : no_char c s = true → split_char c s = [s].
Proof.
  induction s as [|a s IH]; intros Hs; [done|]. cbn in Hs. cbn [split_char]. apply andb_true_iff in Hs as [Ha Hs].
  apply negb_true_iff, bool_decide_eq_false in Ha. rewrite decide_False by done. by rewrite IH.
Qed.

Lemma split_join c l : l ≠ [] → forallb (no_char c) l = true → split_char c (join (String c EmptyString) l) = l.
Proof.
  induction l as [|s l IH]; intros Hl Hc; [done|]. cbn in Hc. apply andb_true_iff in Hc as [Hs Hc].
  destruct l as [|t l]; [by apply split_char_single|]. cbn [join]. rewrite append_cons, append_nil_l, split_char_append by done.
  f_equal. by apply IH.
Qed.

Lemma no_char_split c s : forallb (no_char c) (split_char c s) = true.
Proof.
  induction s as [|a s IH]; [done|]. cbn [split_char]. case_decide; [done|].
  destruct (split_char c s) as [|p ps]; cbn [forallb] in IH |- *; unfold no_char in IH |- *; cbn [string_forall].
  - by rewrite bool_decide_false.
  - apply andb_true_iff in IH as [-> ->]. by rewrite bool_decide_false.
Qed.

(** ** What trimming keeps *)
Lemma string_forall_drop f n s : string_forall f s = true → string_forall f (string_drop n s) = true.
Proof. revert s. induction n as [|n IH]; intros [|a s] Hs; [done..|]. cbn in Hs |- *. apply andb_true_iff in Hs as [_ Hs]. by apply IH. Qed.

Lemma string_forall_ktrim_start f s : string_forall f s = true → string_forall f (ktrim_start s) = true.
Proof.
  unfold ktrim_start. generalize (String.length s) as n. intros n. revert s. induction n as [|n IH]; intros s Hs; [done|].
  cbn [ktrim_start_fuel]. destruct (kws_len s) as [|k]; [done|]. by apply IH, string_forall_drop.
Qed.

Lemma string_forall_ktrim_end f s : string_forall f s = true → string_forall f (ktrim_end s) = true.
Proof.
  induction s as [|a s IH]; intros Hs; cbn [ktrim_end]; [by destruct (str_is_empty _)|].
  destruct (str_is_empty _); [done|]. cbn in Hs |- *. apply andb_true_iff in Hs as [-> Hs]. by apply IH.
Qed.

Lemma string_forall_ktrim f s : string_forall f s = true → string_forall f (ktrim s) = true.
Proof. intros Hs. by apply string_forall_ktrim_end, string_forall_ktrim_start. Qed.

(** Texts of visible ASCII characters are not trimmed. *)
Lemma kws_len_visible c s : visible c = true → kws_len (String c s) = O.
Proof.
  unfold visible, kws_len, in_range. intros Hc. destruct s as [|b [|d s]];
    repeat match goal with |- context [if ?x then _ else _] => replace x with false by lia end; done.
Qed.

Lemma ktrim_start_visible s : string_forall visible s = true → ktrim_start s = s.
Proof.
  destruct s as [|c s]; [done|]. intros Hs. cbn in Hs. apply andb_true_iff in Hs as [Hc _].
  unfold ktrim_start. cbn [String.length ktrim_start_fuel]. by rewrite kws_len_visible.
Qed.

Lemma ktrim_visible s : string_forall visible s = true → ktrim s = s.
Proof.
  intros Hs. unfold ktrim. rewrite ktrim_start_visible by done. induction s as [|c s IH]; [done|].
  cbn [ktrim_end]. rewrite ktrim_start_visible by done. cbn [str_is_empty]. cbn in Hs. apply andb_true_iff in Hs as [_ Hs].
  by rewrite IH.
Qed.

Lemma is_blank_visible s : string_forall visible s = true → s ≠ "" → is_blank s = false.
Proof. intros Hs Hne. unfold is_blank. rewrite ktrim_start_visible by done. by destruct s. Qed.
