(* ===== verification/Fips180.v ===== *)
(** * SHA-256

    The digest functions of the Rust crate and of the Java class library are the one
    of FIPS 180-4.  It is written out here so that statements about digests can be
    evaluated on it. *)

From S2P Require Import Prelude RustStd ThirdParty Verification.

Local Open Scope Z_scope.

Module Fips.
Definition MASK32 : Z := 2 ^ 32 - 1.
Definition add32 (x y : Z) : Z := Z.land (x + y) MASK32.
Definition rotr (n x : Z) : Z := Z.land (Z.lor (Z.shiftr x n) (Z.shiftl x (32 - n))) MASK32.
Definition big_sigma0 (x : Z) : Z := Z.lxor (rotr 2 x) (Z.lxor (rotr 13 x) (rotr 22 x)).
Definition big_sigma1 (x : Z) : Z := Z.lxor (rotr 6 x) (Z.lxor (rotr 11 x) (rotr 25 x)).
Definition small_sigma0 (x : Z) : Z := Z.lxor (rotr 7 x) (Z.lxor (rotr 18 x) (Z.shiftr x 3)).
Definition small_sigma1 (x : Z) : Z := Z.lxor (rotr 17 x) (Z.lxor (rotr 19 x) (Z.shiftr x 10)).
Definition choose (x y z : Z) : Z := Z.lxor (Z.land x y) (Z.land (Z.lxor x MASK32) z).
Definition majority (x y z : Z) : Z := Z.lxor (Z.land x y) (Z.lxor (Z.land x z) (Z.land y z)).

(** The constants of the standard are the first 32 bits of the fractional parts of the
    roots of the first primes: of the cube roots of 64 of them for the rounds, of the
    square roots of eight for the initial value.  The largest [r] with [r ^ k <= n] is
    found bit by bit. *)
Fixpoint root_from (k n : Z) (bits : nat) (r : Z) : Z :=
  match bits with
  | O => r
  | S b => let r' := r + 2 ^ Z.of_nat b in root_from k n b (if r' ^ k <=? n then r' else r)
  end.
Definition first_primes (count : nat) : list Z :=
  take count (filter (λ n, forallb (λ d, negb (n mod d =? 0)) (seqZ 2 (n - 2)) = true) (seqZ 2 310)).
Definition root_fraction (k p : Z) : Z := Z.land (root_from k (p * 2 ^ (32 * k)) 40 0) MASK32.

Lemma root_from_spec k n bits r : 0 < k → 0 ≤ r → r ^ k ≤ n < (r + 2 ^ Z.of_nat bits) ^ k →
  let q := root_from k n bits r in q ^ k ≤ n < (q + 1) ^ k.
Proof.
  revert r. induction bits as [|b IH]; intros r Hk Hr Hn; [exact Hn|].
  cbn [root_from]. assert (2 ^ Z.of_nat (S b) = 2 ^ Z.of_nat b + 2 ^ Z.of_nat b) as Hb
    by (rewrite Nat2Z.inj_succ, Z.pow_succ_r by lia; lia).
  pose proof (Z.pow_pos_nonneg 2 (Z.of_nat b)). destruct (Z.leb_spec ((r + 2 ^ Z.of_nat b) ^ k) n) as [Hle|Hlt].
  - apply IH; [done|lia|]. split; [done|]. rewrite <-Z.add_assoc, <-Hb. apply Hn.
  - apply IH; [done..|]. split; [apply Hn|done].
Qed.

Definition round_constants : list Z := Eval vm_compute in root_fraction 3 <$> first_primes 64.

Record digest_state := mkDigest { dg_a : Z; dg_b : Z; dg_c : Z; dg_d : Z; dg_e : Z; dg_f : Z; dg_g : Z; dg_h : Z }.
Definition digest_of (l : list Z) : digest_state :=
  let at_ k := nth k l 0 in mkDigest (at_ 0%nat) (at_ 1%nat) (at_ 2%nat) (at_ 3%nat) (at_ 4%nat) (at_ 5%nat) (at_ 6%nat) (at_ 7%nat).
Definition initial_digest : digest_state := Eval vm_compute in digest_of (root_fraction 2 <$> first_primes 8).

Definition round (s : digest_state) (kw : Z * Z) : digest_state :=
  let '(mkDigest a b c d e f g h) := s in
  let t1 := add32 h (add32 (big_sigma1 e) (add32 (choose e f g) (add32 kw.1 kw.2))) in
  let t2 := add32 (big_sigma0 a) (majority a b c) in
  mkDigest (add32 t1 t2) a b c (add32 d t1) e f g.

(** The schedule, the last word first. *)
Fixpoint extend (n : nat) (w : list Z) : list Z :=
  match n with
  | O => w
  | S n' =>
      let at_ k := nth k w 0 in
      extend n' (add32 (small_sigma1 (at_ 1%nat)) (add32 (at_ 6%nat) (add32 (small_sigma0 (at_ 14%nat)) (at_ 15%nat))) :: w)
  end.

Definition add_digest (s t : digest_state) : digest_state :=
  mkDigest (add32 (dg_a s) (dg_a t)) (add32 (dg_b s) (dg_b t)) (add32 (dg_c s) (dg_c t)) (add32 (dg_d s) (dg_d t))
    (add32 (dg_e s) (dg_e t)) (add32 (dg_f s) (dg_f t)) (add32 (dg_g s) (dg_g t)) (add32 (dg_h s) (dg_h t)).

Fixpoint words (b : bytes) : list Z :=
  match b with w :: x :: y :: z :: b' => from_be_bytes w x y z :: words b' | _ => [] end.
Definition compress (s : digest_state) (block : list Z) : digest_state :=
  add_digest s (foldl round s (zip round_constants (reverse (extend 48 (reverse block))))).

Definition pad (b : bytes) : bytes :=
  (b ++ [x80] ++ replicate ((119 - length b mod 64) mod 64) x00 ++ be_bytes 8 (8 * N.of_nat (length b)))%list.

(** [n] blocks of sixteen words. *)
Fixpoint blocks (n : nat) (w : list Z) : list (list Z) :=
  match n with O => [] | S n' => take 16 w :: blocks n' (drop 16 w) end.

Definition word_bytes (w : Z) : bytes := be_bytes 4 (Z.to_N w).
Definition fips_sha256 : Sha256 := λ b,
  let padded := pad b in
  let '(mkDigest a b c d e f g h) := foldl compress initial_digest (blocks (length padded / 64) (words padded)) in
  concat (word_bytes <$> [a; b; c; d; e; f; g; h]).

Lemma be_bytes_length k n : length (be_bytes k n) = k.
Proof. revert n. induction k as [|k IH]; intros n; [done|]. cbn. rewrite length_app, IH. cbn. lia. Qed.

Lemma fips_sha256_laws : @Sha256Laws fips_sha256.
Proof.
  intros b. unfold sha256, fips_sha256. destruct (foldl _ _ _). cbn [fmap list_fmap concat]. unfold word_bytes.
  by rewrite !length_app, !be_bytes_length.
Qed.

(** Forty bits hold the roots taken, so each is the integer root of its prime, scaled. *)
Lemma root_fraction_spec k p : k = 2 ∨ k = 3 → 0 ≤ p < 2 ^ 16 →
  ∃ q, root_fraction k p = q mod 2 ^ 32 ∧ q ^ k ≤ p * 2 ^ (32 * k) < (q + 1) ^ k.
Proof.
  intros Hk Hp. eexists. split; [apply (Z.land_ones _ 32); lia|].
  apply root_from_spec; [lia..|]. destruct Hk as [-> | ->]; cbn; lia.
Qed.

(** The two examples of the standard's appendix that fit one and two blocks, and the
    empty message, as numbers. *)
Definition digest_number (b : bytes) : N := foldl (λ n x, 256 * n + Byte.to_N x)%N 0%N b.
Definition ascii_bytes (s : string) : bytes := String.list_byte_of_string s.

Example fips_abc : digest_number (fips_sha256 (ascii_bytes "abc"))
  = 0xba7816bf8f01cfea414140de5dae2223b00361a396177a9cb410ff61f20015ad%N.
Proof. vm_compute. reflexivity. Qed.
Example fips_empty : digest_number (fips_sha256 [])
  = 0xe3b0c44298fc1c149afbf4c8996fb92427ae41e4649b934ca495991b7852b855%N.
Proof. vm_compute. reflexivity. Qed.
Example fips_two_blocks : digest_number (fips_sha256 (ascii_bytes "abcdbcdecdefdefgefghfghighijhijkijkljklmklmnlmnomnopnopq"))
  = 0x248d6a61d20638b8e5c026930c3e6039a33ce45964ff2167f6ecedd419db06c1%N.
Proof. vm_compute. reflexivity. Qed.
End Fips.
