(* ===== verification/AndroidModel.v ===== *)
(** * Commands and their parameters on Android (data/commands/CommandModels.kt,
    data/commands/ParameterUtils.kt, feature/commands/remote/RemoteLayoutSpec.kt)

    The application's own data, the check of a parameter's value before it is sent, and
    its agreement with the server's check. *)

From S2P Require Import Prelude RustStd ThirdParty Config Validation Registry Parameters SessionState SessionManager Proto Kotlin.
From Stdlib Require Import SpecFloat.

Local Open Scope string_scope.
Local Open Scope Z_scope.

(** ** Data ([CommandModels.kt]) *)
Inductive ParameterType := SLIDER | TEXT | TOGGLE | DROPDOWN | TYPE_UNSPECIFIED.
Inductive CommandKind := SHELL_SCRIPT | SHELL_INTERACTIVE | FILE_TRANSFER | KIND_UNKNOWN.
Inductive CommandSessionMode := ONE_SHOT | REALTIME | UPLOAD | DOWNLOAD | MODE_UNSPECIFIED.
#[export] Instance ParameterType_eq_dec : EqDecision ParameterType.
Proof. solve_decision. Defined.
#[export] Instance CommandKind_eq_dec : EqDecision CommandKind.
Proof. solve_decision. Defined.
#[export] Instance CommandSessionMode_eq_dec : EqDecision CommandSessionMode.
Proof. solve_decision. Defined.

Record CommandParameter := mkCommandParameter {
  kp_name : string;
  kp_type : ParameterType;
  kp_description : string;
  kp_min : option Z;
  kp_max : option Z;
  kp_defaultValue : option string;
  kp_options : list string;
  kp_validation : option string;
  kp_labelOn : option string;
  kp_labelOff : option string;
  kp_defaultValueCommand : option string;
  kp_defaultValuePattern : option string;
}.
#[export] Instance CommandParameter_eq_dec : EqDecision CommandParameter.
Proof. solve_decision. Defined.

Record Command := mkCommand {
  kc_id : string;
  kc_name : string;
  kc_description : string;
  kc_icon : option string;
  kc_tags : list string;
  kc_parameters : list CommandParameter;
  kc_requiresConfirmation : bool;
  kc_showOutput : bool;
  kc_privileged : bool;
  kc_kind : CommandKind;
  kc_sessionMode : CommandSessionMode;
}.
#[export] Instance Command_eq_dec : EqDecision Command.
Proof. solve_decision. Defined.

Inductive CommandExecutionResult :=
  | COutput (text : string) (isError : bool)
  | CExitCode (code : Z)
  | CError (message : string).

Inductive ValidationResult := Valid | Invalid (message : string) | ValidationPending.
#[export] Instance ValidationResult_eq_dec : EqDecision ValidationResult.
Proof. solve_decision. Defined.

(** ** The layout of the remote panel ([RemoteLayoutSpec.kt]); a [Float] is a
    [spec_float]. *)
Inductive SectionType := QUICK_ACTIONS | ADJUSTMENTS | TELEMETRY.
Inductive AdjustmentControl := AcAUTO | AcSLIDER | AcTOGGLE | AcCOUNTER.
Inductive TelemetryDisplay := TdCOUNTER | TdGAUGE | TdTEXT.
Record SliderOverrides := mkSliderOverrides { so_min : option spec_float; so_max : option spec_float; so_step : option spec_float }.
Record ToggleOverrides := mkToggleOverrides { to_checkedLabel : option string; to_uncheckedLabel : option string }.
Record CounterOverrides := mkCounterOverrides { co_min : option Z; co_max : option Z }.

Inductive RemoteLayoutEntry :=
  | QuickActionEntry (id commandId : string) (labelOverride iconOverride : option string)
      (requiresConfirmationOverride showOutputOverride : option bool)
  | AdjustmentEntry (id commandId parameterName : string) (labelOverride : option string) (control : AdjustmentControl)
      (slider : option SliderOverrides) (toggle : option ToggleOverrides) (counter : option CounterOverrides)
      (helperText : option string)
  | TelemetryEntry (id sourceCommandId : string) (titleOverride : option string) (display : TelemetryDisplay)
      (unit_ : option string) (min max : option spec_float) (textTemplate : option string).

Record SectionSpec := mkSectionSpec {
  sp_sectionId : string;
  sp_type : SectionType;
  sp_title : option string;
  sp_entries : list RemoteLayoutEntry;
}.
Record RemoteLayoutSpec := mkRemoteLayoutSpec { rl_sections : list SectionSpec }.

Definition QUICK_ACTIONS_SECTION_ID : string := "quick_actions".
Definition ADJUSTMENTS_SECTION_ID : string := "adjustments".
Definition TELEMETRY_SECTION_ID : string := "telemetry".
Definition withDefaultSections : RemoteLayoutSpec :=
  mkRemoteLayoutSpec
    [mkSectionSpec QUICK_ACTIONS_SECTION_ID QUICK_ACTIONS (Some "Quick Actions") [];
     mkSectionSpec ADJUSTMENTS_SECTION_ID ADJUSTMENTS (Some "Adjustments") [];
     mkSectionSpec TELEMETRY_SECTION_ID TELEMETRY (Some "Telemetry") []].

(** ** From the wire ([GrpcCommandRepository.listCommands] and its helpers)

    Numbers the generated code does not know are [UNRECOGNIZED]. *)
Definition mapCapabilityKind (protoKind : Z) : CommandKind :=
  if protoKind =? 1 then SHELL_SCRIPT else if protoKind =? 2 then SHELL_INTERACTIVE else if protoKind =? 3 then FILE_TRANSFER
  else KIND_UNKNOWN.
Definition mapSessionMode (protoMode : Z) : CommandSessionMode :=
  if protoMode =? 1 then ONE_SHOT else if protoMode =? 2 then REALTIME else if protoMode =? 3 then UPLOAD
  else if protoMode =? 4 then DOWNLOAD else MODE_UNSPECIFIED.
Definition mapParameterType (protoType : Z) : ParameterType :=
  if protoType =? 1 then SLIDER else if protoType =? 2 then TEXT else if protoType =? 3 then TOGGLE
  else if protoType =? 4 then DROPDOWN else TYPE_UNSPECIFIED.

Definition command_parameter (p : proto.CapabilityParameter) : CommandParameter :=
  mkCommandParameter (proto.name p) (mapParameterType (proto.type p)) (proto.description p) (proto.min p) (proto.max p)
    (proto.default_value p) (proto.options p) (proto.validation p) (proto.label_on p) (proto.label_off p)
    (proto.default_value_command p) (proto.default_value_pattern p).
Definition command_of (c : proto.Capability) : Command :=
  mkCommand (proto.cap_id c) (proto.cap_name c) (proto.cap_description c) None (proto.cap_tags c)
    (command_parameter <$> proto.cap_parameters c) (default false (proto.cap_requires_confirmation c)) true
    (default false (proto.cap_privileged c)) (mapCapabilityKind (proto.cap_kind c)) (mapSessionMode (proto.cap_session_mode c)).

(** ** Checking a value ([ParameterUtils.kt]) *)
Definition toProtoParameter (p : CommandParameter) : proto.CapabilityParameter :=
  let protoType := match kp_type p with SLIDER => 1 | TEXT => 2 | TOGGLE => 3 | DROPDOWN => 4 | TYPE_UNSPECIFIED => 0 end in
  proto.mkCapabilityParameter (kp_name p) protoType (kp_description p) (kp_min p) (kp_max p) (kp_defaultValue p) (kp_options p)
    (kp_validation p) (kp_labelOn p) (kp_labelOff p) (kp_defaultValueCommand p) (kp_defaultValuePattern p).

Definition defaultValueFor (type : ParameterType) : string :=
  match type with SLIDER => "0" | TEXT => "" | TOGGLE => "false" | DROPDOWN => "" | TYPE_UNSPECIFIED => "" end.

(** Java's regular expressions: whether a pattern compiles, whether it matches a whole
    text. *)
Class JavaRegex := {
  java_pattern : string → bool;
  java_matches : string → string → bool;
}.

Section check.
Context `{JavaRegex}.

Definition validateParameterValue (parameter : proto.CapabilityParameter) (value : string) : ValidationResult :=
  if proto.type parameter =? 1 then
    match to_int_or_null value with
    | None => Invalid "Must be a number"
    | Some numValue =>
        if match proto.min parameter with Some min => numValue <? min | None => false end
        then Invalid (fmt ["Minimum value is "; pretty (default 0 (proto.min parameter))])
        else if match proto.max parameter with Some max => max <? numValue | None => false end
        then Invalid (fmt ["Maximum value is "; pretty (default 0 (proto.max parameter))])
        else Valid
    end
  else if proto.type parameter =? 2 then
    match proto.validation parameter with
    | Some validation =>
        if is_blank validation then Valid
        else if negb (java_pattern validation) then Invalid "Invalid validation pattern"
        else if negb (java_matches validation value) then Invalid "Invalid format" else Valid
    | None => Valid
    end
  else if proto.type parameter =? 3 then
    if bool_decide (value = "true") || bool_decide (value = "false") then Valid else Invalid "Must be true or false"
  else if proto.type parameter =? 4 then
    if bool_decide (value ∈ proto.options parameter) then Valid else Invalid "Invalid selection"
  else Invalid "Unknown parameter type".
End check.

(** ** Agreement with the server *)
(** The parameter as the server announces it. *)
Definition announced (p : CapabilityParameterConfig) : proto.CapabilityParameter := proto_from_parameter (CapabilityParameter_from p).

Lemma announced_kept p : toProtoParameter (command_parameter (announced p)) = announced p.
Proof.
  unfold toProtoParameter, command_parameter, announced, proto_from_parameter. cbn. f_equal.
  unfold param_type_number. repeat case_bool_decide; reflexivity.
Qed.

(** What a match in Java says about the search of the Rust crate, for the patterns of
    one configuration: a whole match is a match, and the pattern compiles. *)
Class RegexesAgree `{JavaRegex, RegexEngine} (p : CapabilityParameterConfig) := regexes_agree : ∀ re v,
  pc_validation p = Some re → java_pattern re = true → java_matches re v = true →
  regex_error re = None ∧ regex_is_match re v = true.

Section agreement.
Context `{JavaRegex, RegexEngine}.

(** The texts the two checks read alike. *)
Definition read_alike (p : CapabilityParameterConfig) (v : string) : Prop :=
  (pc_param_type p = "slider" → string_forall is_ascii v = true) ∧
  (∀ re, pc_validation p = Some re → is_blank re = false).

Lemma announced_value_accepted c p v : RegexesAgree p → param_ok p → read_alike p v →
  validateParameterValue (announced p) v = Valid → validate_parameter_value c p v = Ok tt.
Proof.
  intros Hre [_ Ht] [Hascii Hblank] Hv. apply validate_parameter_value_iff. revert Hv.
  unfold validateParameterValue, announced, proto_from_parameter. cbn -[param_type_number is_blank to_int_or_null].
  unfold param_type_number.
  destruct (bool_decide_reflect (pc_param_type p = "slider")) as [E|E]; cbn -[is_blank to_int_or_null].
  { rewrite to_int_or_null_ascii by auto. destruct (parse_i32 v) as [n|] eqn:En; [|done]. intros Hv. apply (val_slider _ _ n); [done..| |].
    - intros min Em. rewrite Em in Hv. destruct (Z.ltb_spec n min); [done|]. done.
    - intros max Em. rewrite Em in Hv. destruct (match pc_min p with Some min => n <? min | None => false end); [done|].
      destruct (Z.ltb_spec max n); done. }
  destruct (bool_decide_reflect (pc_param_type p = "text")) as [E1|E1]; cbn -[is_blank].
  { intros Hv. apply val_text; [done|]. intros re Er. rewrite Er, (Hblank _ Er) in Hv.
    destruct (java_pattern re) eqn:Hp; [|done]. destruct (java_matches re v) eqn:Hm; [|done]. by apply Hre. }
  destruct (bool_decide_reflect (pc_param_type p = "toggle")) as [E2|E2]; cbn.
  { intros Hv. apply val_toggle; [done|]. repeat case_bool_decide; [set_solver..|done]. }
  destruct (bool_decide_reflect (pc_param_type p = "dropdown")) as [E3|E3]; cbn; [|done].
  intros Hv. case_bool_decide; [|done]. by apply val_dropdown.
Qed.
End agreement.
