(* ===== verification/AndroidDb.v ===== *)
(** * The application's database (data/database: Converters.kt, EnrolledServerEntity.kt,
    EnrolledServerDao.kt, EnrolledServerRepository.kt)

    The table holds columns, some of them texts made by the converters; entities are
    what queries read from it.  Rows are in the order of their row ids. *)

From S2P Require Import Prelude RustStd ThirdParty Kotlin AndroidModel.
From stdpp Require Import sorting.
From Stdlib Require Import SpecFloat.

Local Open Scope string_scope.
Local Open Scope Z_scope.

(** ** Entities *)
Inductive ConnectionMode := DIRECT | RELAY | MODE_UNKNOWN.
Inductive ConnectionPreference := AUTO | DIRECT_ONLY | RELAY_ONLY.
#[export] Instance ConnectionMode_eq_dec : EqDecision ConnectionMode.
Proof. solve_decision. Defined.
#[export] Instance ConnectionPreference_eq_dec : EqDecision ConnectionPreference.
Proof. solve_decision. Defined.

Record EnrolledServerEntity := mkEnrolledServerEntity {
  es_serverId : string;
  es_ips : list string;
  es_serverPort : Z;
  es_clientId : string;
  es_serverName : string;
  es_certFingerprint : string;
  es_enrolledAt : Z;
  es_lastConnected : option Z;
  es_relayEnabled : bool;
  es_relayUrl : option string;
  es_relayToken : option string;
  es_relayAllowSelfSigned : bool;
  es_relayPinnedCertSha256 : option string;
  es_connectionPreference : ConnectionPreference;
  es_lastConnectionMode : ConnectionMode;
  es_remoteLayoutSpec : option RemoteLayoutSpec;
  es_serverHost : option string;
}.

(** ** Converters *)
(** kotlinx.serialization for the layout ([None]: it throws). *)
Class LayoutJson := {
  layout_encode : RemoteLayoutSpec → option string;
  layout_decode : string → option RemoteLayoutSpec;
}.
(** A number of 32 bits that is neither infinite nor NaN. *)
Definition finite_float (f : spec_float) : bool :=
  match f with S754_zero _ => true | S754_finite _ _ _ => valid_binary 24 128 f | _ => false end.
Definition finite_number (f : option spec_float) : bool := match f with Some f => finite_float f | None => true end.
Definition finite_entry (e : RemoteLayoutEntry) : bool :=
  match e with
  | QuickActionEntry _ _ _ _ _ _ => true
  | AdjustmentEntry _ _ _ _ _ slider _ _ _ =>
      match slider with Some o => finite_number (so_min o) && finite_number (so_max o) && finite_number (so_step o) | None => true end
  | TelemetryEntry _ _ _ _ _ min max _ => finite_number min && finite_number max
  end.
Definition finite_layout (s : RemoteLayoutSpec) : bool := forallb (λ sec, forallb finite_entry (sp_entries sec)) (rl_sections s).
(** JSON has no infinite numbers and no NaN; everything else is written, and read back. *)
Class LayoutJsonLaws `{LayoutJson} := {
  layout_roundtrip s text : layout_encode s = Some text → layout_decode text = Some s ∧ is_blank text = false;
  layout_writes s : is_Some (layout_encode s) ↔ finite_layout s = true;
}.

Definition fromStringList (value : list string) : string := RustStd.join "," value.
Definition toStringList (value : string) : list string := if str_is_empty value then [] else split_char "," value.
Definition fromConnectionMode (value : ConnectionMode) : string :=
  match value with DIRECT => "DIRECT" | RELAY => "RELAY" | MODE_UNKNOWN => "UNKNOWN" end.
Definition toConnectionMode (value : string) : ConnectionMode :=
  if bool_decide (value = "DIRECT") then DIRECT else if bool_decide (value = "RELAY") then RELAY else MODE_UNKNOWN.
Definition fromConnectionPreference (value : ConnectionPreference) : string :=
  match value with AUTO => "AUTO" | DIRECT_ONLY => "DIRECT_ONLY" | RELAY_ONLY => "RELAY_ONLY" end.
Definition toConnectionPreference (value : string) : ConnectionPreference :=
  if bool_decide (value = "DIRECT_ONLY") then DIRECT_ONLY else if bool_decide (value = "RELAY_ONLY") then RELAY_ONLY else AUTO.

Section database.
Context `{LayoutJson}.

(** [None]: it throws. *)
Definition fromRemoteLayoutSpec (spec : option RemoteLayoutSpec) : option (option string) :=
  match spec with Some s => Some <$> layout_encode s | None => Some None end.
Definition toRemoteLayoutSpec (value : option string) : option RemoteLayoutSpec :=
  if is_null_or_blank value then None else value ≫= layout_decode.

(** ** The table *)
Record Row := mkRow {
  row_serverId : string;
  row_ips : string;
  row_serverPort : Z;
  row_clientId : string;
  row_serverName : string;
  row_certFingerprint : string;
  row_enrolled_at : Z;
  row_last_connected : option Z;
  row_relayEnabled : bool;
  row_relayUrl : option string;
  row_relayToken : option string;
  row_relayAllowSelfSigned : bool;
  row_relayPinnedCertSha256 : option string;
  row_connectionPreference : string;
  row_lastConnectionMode : string;
  row_remoteLayoutSpec : option string;
  row_serverHost : option string;
}.
Abbreviation Table := (list Row).

(** The row of an entity, given the text of its layout. *)
Definition row_of (layout : option string) (e : EnrolledServerEntity) : Row :=
  mkRow (es_serverId e) (fromStringList (es_ips e)) (es_serverPort e) (es_clientId e) (es_serverName e) (es_certFingerprint e)
    (es_enrolledAt e) (es_lastConnected e) (es_relayEnabled e) (es_relayUrl e) (es_relayToken e) (es_relayAllowSelfSigned e)
    (es_relayPinnedCertSha256 e) (fromConnectionPreference (es_connectionPreference e))
    (fromConnectionMode (es_lastConnectionMode e)) layout (es_serverHost e).
Definition entity_of (r : Row) : EnrolledServerEntity :=
  mkEnrolledServerEntity (row_serverId r) (toStringList (row_ips r)) (row_serverPort r) (row_clientId r) (row_serverName r)
    (row_certFingerprint r) (row_enrolled_at r) (row_last_connected r) (row_relayEnabled r) (row_relayUrl r) (row_relayToken r)
    (row_relayAllowSelfSigned r) (row_relayPinnedCertSha256 r) (toConnectionPreference (row_connectionPreference r))
    (toConnectionMode (row_lastConnectionMode r)) (toRemoteLayoutSpec (row_remoteLayoutSpec r)) (row_serverHost r).

(** ** Queries ([EnrolledServerDao]) *)
(** [ORDER BY (last_connected IS NULL), last_connected DESC]; rows that compare equal
    stay in the order of their ids. *)
Definition later (a b : Row) : Prop :=
  match row_last_connected a, row_last_connected b with
  | Some x, Some y => y <= x
  | Some _, None => True
  | None, Some _ => False
  | None, None => True
  end.
#[global] Instance later_dec a b : Decision (later a b).
Proof. unfold later. destruct (row_last_connected a), (row_last_connected b); apply _. Defined.
#[global] Instance later_total : Total later.
Proof. intros a b. unfold later. destruct (row_last_connected a), (row_last_connected b); auto. lia. Qed.
#[global] Instance later_trans : Transitive later.
Proof. intros a b c. unfold later. destruct (row_last_connected a), (row_last_connected b), (row_last_connected c); try done. lia. Qed.

Definition getAllServers (t : Table) : list EnrolledServerEntity := entity_of <$> merge_sort later t.
Definition getLastConnectedServer (t : Table) : option EnrolledServerEntity := head (getAllServers t).
Definition find_row (id : string) (t : Table) : option Row := head (filter (λ r, row_serverId r = id) t).
Definition getServerById (id : string) (t : Table) : option EnrolledServerEntity := entity_of <$> find_row id t.
Definition getServerFingerprint (id : string) (t : Table) : option string := row_certFingerprint <$> find_row id t.
Definition getServerByHostAndPort (host : string) (port : Z) (t : Table) : option EnrolledServerEntity :=
  entity_of <$> head (filter (λ r, row_serverHost r = Some host ∧ row_serverPort r = port) t).
Definition getRemoteLayoutSpec (id : string) (t : Table) : option RemoteLayoutSpec :=
  r ← find_row id t; toRemoteLayoutSpec (row_remoteLayoutSpec r).

(** [DELETE ... WHERE serverId = id]; a replacing insert deletes the old row first.  A
    statement whose converter throws is not executed. *)
Definition deleteServerById (id : string) (t : Table) : Table := filter (λ r, row_serverId r ≠ id) t.
Definition insertServer (e : EnrolledServerEntity) (t : Table) : Table :=
  match fromRemoteLayoutSpec (es_remoteLayoutSpec e) with
  | Some layout => (deleteServerById (es_serverId e) t ++ [row_of layout e])%list
  | None => t
  end.
Definition deleteAllServers (t : Table) : Table := [].
(** [UPDATE ... WHERE serverId = id] *)
Definition update_row (id : string) (f : Row → Row) (t : Table) : Table :=
  (λ r, if bool_decide (row_serverId r = id) then f r else r) <$> t.

Definition dao_updateLastConnected (id : string) (timestamp : Z) : Table → Table := update_row id (λ r,
  mkRow (row_serverId r) (row_ips r) (row_serverPort r) (row_clientId r) (row_serverName r) (row_certFingerprint r)
    (row_enrolled_at r) (Some timestamp) (row_relayEnabled r) (row_relayUrl r) (row_relayToken r) (row_relayAllowSelfSigned r)
    (row_relayPinnedCertSha256 r) (row_connectionPreference r) (row_lastConnectionMode r) (row_remoteLayoutSpec r) (row_serverHost r)).
Definition dao_updateConnectionMode (id : string) (timestamp : Z) (mode : ConnectionMode) : Table → Table := update_row id (λ r,
  mkRow (row_serverId r) (row_ips r) (row_serverPort r) (row_clientId r) (row_serverName r) (row_certFingerprint r)
    (row_enrolled_at r) (Some timestamp) (row_relayEnabled r) (row_relayUrl r) (row_relayToken r) (row_relayAllowSelfSigned r)
    (row_relayPinnedCertSha256 r) (row_connectionPreference r) (fromConnectionMode mode) (row_remoteLayoutSpec r) (row_serverHost r)).
Definition dao_updateConnectionPreference (id : string) (preference : ConnectionPreference) : Table → Table := update_row id (λ r,
  mkRow (row_serverId r) (row_ips r) (row_serverPort r) (row_clientId r) (row_serverName r) (row_certFingerprint r)
    (row_enrolled_at r) (row_last_connected r) (row_relayEnabled r) (row_relayUrl r) (row_relayToken r) (row_relayAllowSelfSigned r)
    (row_relayPinnedCertSha256 r) (fromConnectionPreference preference) (row_lastConnectionMode r) (row_remoteLayoutSpec r)
    (row_serverHost r)).
Definition dao_updateCertFingerprint (id fingerprint : string) : Table → Table := update_row id (λ r,
  mkRow (row_serverId r) (row_ips r) (row_serverPort r) (row_clientId r) (row_serverName r) fingerprint
    (row_enrolled_at r) (row_last_connected r) (row_relayEnabled r) (row_relayUrl r) (row_relayToken r) (row_relayAllowSelfSigned r)
    (row_relayPinnedCertSha256 r) (row_connectionPreference r) (row_lastConnectionMode r) (row_remoteLayoutSpec r) (row_serverHost r)).
Definition with_layout_text (layout : option string) (r : Row) : Row :=
  mkRow (row_serverId r) (row_ips r) (row_serverPort r) (row_clientId r) (row_serverName r) (row_certFingerprint r)
    (row_enrolled_at r) (row_last_connected r) (row_relayEnabled r) (row_relayUrl r) (row_relayToken r) (row_relayAllowSelfSigned r)
    (row_relayPinnedCertSha256 r) (row_connectionPreference r) (row_lastConnectionMode r) layout (row_serverHost r).
Definition dao_updateRemoteLayoutSpec (id : string) (spec : option RemoteLayoutSpec) (t : Table) : Table :=
  match fromRemoteLayoutSpec spec with Some layout => update_row id (with_layout_text layout) t | None => t end.
Definition dao_updateServerIps (id : string) (ips : list string) (primaryHost : option string) : Table → Table := update_row id (λ r,
  mkRow (row_serverId r) (fromStringList ips) (row_serverPort r) (row_clientId r) (row_serverName r) (row_certFingerprint r)
    (row_enrolled_at r) (row_last_connected r) (row_relayEnabled r) (row_relayUrl r) (row_relayToken r) (row_relayAllowSelfSigned r)
    (row_relayPinnedCertSha256 r) (row_connectionPreference r) (row_lastConnectionMode r) (row_remoteLayoutSpec r) primaryHost).

(** [map { trim() }.filter { isNotEmpty() }] *)
Definition trimmed (l : list string) : list string := filter (λ s, s ≠ "") (ktrim <$> l).
(** [equals("unknown", ignoreCase = true)]: the Kelvin sign folds to a [k]. *)
Definition is_unknown (s : string) : bool :=
  bool_decide (to_ascii_lowercase (str_replace s (String "226" (String "132" (String "170" EmptyString))) "k") = "unknown").
Definition sanitized_ips (l : list string) : list string := distinct (filter (λ s, is_unknown s = false) (trimmed l)).

Definition mergeServerIpsTransactional (id : string) (discoveredIps : list string) (t : Table) : Table :=
  if bool_decide (discoveredIps = []) then t else
  match getServerById id t with
  | None => t
  | Some server =>
      let sanitized := sanitized_ips (es_ips server ++ discoveredIps) in
      if bool_decide (sanitized = []) || bool_decide (sanitized = es_ips server) then t
      else dao_updateServerIps id sanitized (head sanitized) t
  end.

(** ** [EnrolledServerRepository] *)
Definition saved_entity (now : Z) (serverId : string) (ips : list string) (serverPort : Z) (clientId serverName certFingerprint : string)
    (relayEnabled : bool) (relayUrl relayToken : option string) (relayAllowSelfSigned : bool) (relayPinned : option string)
    (initialConnectionMode : ConnectionMode) : EnrolledServerEntity :=
  let sanitizedIps := distinct (trimmed ips) in
  mkEnrolledServerEntity serverId sanitizedIps serverPort clientId serverName certFingerprint now (Some now) relayEnabled relayUrl
    relayToken relayAllowSelfSigned relayPinned AUTO initialConnectionMode None (head sanitizedIps).
Definition saveServer (now : Z) (serverId : string) (ips : list string) (serverPort : Z) (clientId serverName certFingerprint : string)
    (relayEnabled : bool) (relayUrl relayToken : option string) (relayAllowSelfSigned : bool) (relayPinned : option string)
    (initialConnectionMode : ConnectionMode) (t : Table) : Table :=
  insertServer (saved_entity now serverId ips serverPort clientId serverName certFingerprint relayEnabled relayUrl relayToken
    relayAllowSelfSigned relayPinned initialConnectionMode) t.
Definition isServerAlreadyEnrolled (host : string) (port : Z) (t : Table) : bool :=
  match getServerByHostAndPort host port t with Some _ => true | None => false end.

Inductive db_op :=
  | DbSave (now : Z) (serverId : string) (ips : list string) (serverPort : Z) (clientId serverName certFingerprint : string)
      (relayEnabled : bool) (relayUrl relayToken : option string) (relayAllowSelfSigned : bool) (relayPinned : option string)
      (mode : ConnectionMode)
  | DbLastConnected (id : string) (now : Z)
  | DbConnectionMode (id : string) (now : Z) (mode : ConnectionMode)
  | DbPreference (id : string) (preference : ConnectionPreference)
  | DbFingerprint (id fingerprint : string)
  | DbRemove (id : string)
  | DbRemoveAll
  | DbMergeIps (id : string) (discovered : list string)
  | DbLayout (id : string) (spec : option RemoteLayoutSpec).

Definition db_step (op : db_op) (t : Table) : Table :=
  match op with
  | DbSave now id ips port cid name fp re ru rt rs rp mode => saveServer now id ips port cid name fp re ru rt rs rp mode t
  | DbLastConnected id now => dao_updateLastConnected id now t
  | DbConnectionMode id now mode => dao_updateConnectionMode id now mode t
  | DbPreference id p => dao_updateConnectionPreference id p t
  | DbFingerprint id fp => dao_updateCertFingerprint id fp t
  | DbRemove id => deleteServerById id t
  | DbRemoveAll => deleteAllServers t
  | DbMergeIps id l => mergeServerIpsTransactional id l t
  | DbLayout id spec => dao_updateRemoteLayoutSpec id spec t
  end.
Definition db_run (ops : list db_op) (t : Table) : Table := foldl (λ t op, db_step op t) t ops.

(** ** The table as a map of entities *)
Definition with_lastConnected (now : Z) (e : EnrolledServerEntity) : EnrolledServerEntity :=
  mkEnrolledServerEntity (es_serverId e) (es_ips e) (es_serverPort e) (es_clientId e) (es_serverName e) (es_certFingerprint e)
    (es_enrolledAt e) (Some now) (es_relayEnabled e) (es_relayUrl e) (es_relayToken e) (es_relayAllowSelfSigned e)
    (es_relayPinnedCertSha256 e) (es_connectionPreference e) (es_lastConnectionMode e) (es_remoteLayoutSpec e) (es_serverHost e).
Definition with_mode (mode : ConnectionMode) (e : EnrolledServerEntity) : EnrolledServerEntity :=
  mkEnrolledServerEntity (es_serverId e) (es_ips e) (es_serverPort e) (es_clientId e) (es_serverName e) (es_certFingerprint e)
    (es_enrolledAt e) (es_lastConnected e) (es_relayEnabled e) (es_relayUrl e) (es_relayToken e) (es_relayAllowSelfSigned e)
    (es_relayPinnedCertSha256 e) (es_connectionPreference e) mode (es_remoteLayoutSpec e) (es_serverHost e).
Definition with_preference (p : ConnectionPreference) (e : EnrolledServerEntity) : EnrolledServerEntity :=
  mkEnrolledServerEntity (es_serverId e) (es_ips e) (es_serverPort e) (es_clientId e) (es_serverName e) (es_certFingerprint e)
    (es_enrolledAt e) (es_lastConnected e) (es_relayEnabled e) (es_relayUrl e) (es_relayToken e) (es_relayAllowSelfSigned e)
    (es_relayPinnedCertSha256 e) p (es_lastConnectionMode e) (es_remoteLayoutSpec e) (es_serverHost e).
Definition with_fingerprint (fp : string) (e : EnrolledServerEntity) : EnrolledServerEntity :=
  mkEnrolledServerEntity (es_serverId e) (es_ips e) (es_serverPort e) (es_clientId e) (es_serverName e) fp
    (es_enrolledAt e) (es_lastConnected e) (es_relayEnabled e) (es_relayUrl e) (es_relayToken e) (es_relayAllowSelfSigned e)
    (es_relayPinnedCertSha256 e) (es_connectionPreference e) (es_lastConnectionMode e) (es_remoteLayoutSpec e) (es_serverHost e).
Definition with_layout (s : option RemoteLayoutSpec) (e : EnrolledServerEntity) : EnrolledServerEntity :=
  mkEnrolledServerEntity (es_serverId e) (es_ips e) (es_serverPort e) (es_clientId e) (es_serverName e) (es_certFingerprint e)
    (es_enrolledAt e) (es_lastConnected e) (es_relayEnabled e) (es_relayUrl e) (es_relayToken e) (es_relayAllowSelfSigned e)
    (es_relayPinnedCertSha256 e) (es_connectionPreference e) (es_lastConnectionMode e) s (es_serverHost e).
Definition with_ips (ips : list string) (e : EnrolledServerEntity) : EnrolledServerEntity :=
  mkEnrolledServerEntity (es_serverId e) ips (es_serverPort e) (es_clientId e) (es_serverName e) (es_certFingerprint e)
    (es_enrolledAt e) (es_lastConnected e) (es_relayEnabled e) (es_relayUrl e) (es_relayToken e) (es_relayAllowSelfSigned e)
    (es_relayPinnedCertSha256 e) (es_connectionPreference e) (es_lastConnectionMode e) (es_remoteLayoutSpec e) (head ips).
(** The addresses of an entity after a merge. *)
Definition merged (discovered : list string) (e : EnrolledServerEntity) : EnrolledServerEntity :=
  let l := sanitized_ips (es_ips e ++ discovered) in
  if bool_decide (discovered = []) || bool_decide (l = []) || bool_decide (l = es_ips e) then e else with_ips l e.

(** The specification: what the operations mean for a map from server ids. *)
Definition spec_step (op : db_op) (m : gmap string EnrolledServerEntity) : gmap string EnrolledServerEntity :=
  match op with
  | DbSave now id ips port cid name fp re ru rt rs rp mode =>
      <[id := saved_entity now id ips port cid name fp re ru rt rs rp mode]> m
  | DbLastConnected id now => alter (with_lastConnected now) id m
  | DbConnectionMode id now mode => alter (λ e, with_mode mode (with_lastConnected now e)) id m
  | DbPreference id p => alter (with_preference p) id m
  | DbFingerprint id fp => alter (with_fingerprint fp) id m
  | DbRemove id => delete id m
  | DbRemoveAll => ∅
  | DbMergeIps id l => alter (merged l) id m
  | DbLayout id spec => if default true (finite_layout <$> spec) then alter (with_layout spec) id m else m
  end.
Definition spec_run (ops : list db_op) (m : gmap string EnrolledServerEntity) := foldl (λ m op, spec_step op m) m ops.

(** Addresses a text column can hold. *)
Definition no_commas (op : db_op) : bool :=
  match op with
  | DbSave _ _ ips _ _ _ _ _ _ _ _ _ _ => forallb (no_char ",") ips
  | DbMergeIps _ l => forallb (no_char ",") l
  | _ => true
  end.

Definition table_map (t : Table) : gmap string EnrolledServerEntity := list_to_map ((λ r, (row_serverId r, entity_of r)) <$> t).
Definition ids (t : Table) : list string := row_serverId <$> t.

Lemma table_map_lookup id t : table_map t !! id = getServerById id t.
Proof.
  unfold table_map, getServerById, find_row. induction t as [|r t IH]; [done|]. rewrite fmap_cons, list_to_map_cons, filter_cons.
  destruct (decide (row_serverId r = id)) as [<-|Hne]; [by rewrite lookup_insert_eq|]. by rewrite lookup_insert_ne.
Qed.

Lemma find_row_elem id t r : NoDup (ids t) → r ∈ t → row_serverId r = id → find_row id t = Some r.
Proof.
  intros Hnd Hr Hid. unfold find_row. induction t as [|r' t IH]; [by apply not_elem_of_nil in Hr|].
  cbn in Hnd. apply NoDup_cons in Hnd as [Hn Hnd]. rewrite filter_cons. apply elem_of_cons in Hr as [<-|Hr].
  - by rewrite decide_True.
  - rewrite decide_False; [by apply IH|]. intros E. apply Hn. rewrite E, <-Hid. by apply list_elem_of_fmap_2.
Qed.

Lemma find_row_Some id t r : find_row id t = Some r → r ∈ t ∧ row_serverId r = id.
Proof.
  unfold find_row. intros Hh. assert (r ∈ filter (λ r, row_serverId r = id) t) as Hr by (destruct (filter _ t); [done|injection Hh as ->; left]).
  apply list_elem_of_filter in Hr. tauto.
Qed.

Lemma ids_update id f t : (∀ r, row_serverId (f r) = row_serverId r) → ids (update_row id f t) = ids t.
Proof.
  intros Hf. unfold ids, update_row. rewrite <-list_fmap_compose. apply list_fmap_ext. intros i r _. cbn. by case_bool_decide.
Qed.

Lemma find_row_update id f t id' : (∀ r, row_serverId (f r) = row_serverId r) →
  find_row id' (update_row id f t) = (λ r, if bool_decide (row_serverId r = id) then f r else r) <$> find_row id' t.
Proof.
  intros Hf. unfold find_row, update_row. induction t as [|r t IH]; [done|]. rewrite fmap_cons, !filter_cons.
  assert (row_serverId (if bool_decide (row_serverId r = id) then f r else r) = row_serverId r) as E by (case_bool_decide; [apply Hf|done]).
  rewrite E. destruct (decide (row_serverId r = id')); [done|]. apply IH.
Qed.

Lemma table_map_update id f g t : (∀ r, row_serverId (f r) = row_serverId r) → (∀ r, entity_of (f r) = g (entity_of r)) →
  table_map (update_row id f t) = alter g id (table_map t).
Proof.
  intros Hf Hg. apply map_eq. intros id'. rewrite table_map_lookup. unfold getServerById. rewrite find_row_update by done.
  destruct (decide (id' = id)) as [->|Hne].
  - rewrite lookup_alter_eq, table_map_lookup. unfold getServerById. destruct (find_row id t) as [r|] eqn:E; [|done]. cbn.
    apply find_row_Some in E as [_ E]. rewrite bool_decide_true by done. by rewrite Hg.
  - rewrite lookup_alter_ne by done. rewrite table_map_lookup. unfold getServerById.
    destruct (find_row id' t) as [r|] eqn:E; [|done]. cbn. apply find_row_Some in E as [_ E].
    by rewrite bool_decide_false by congruence.
Qed.

Lemma find_row_delete id t id' : find_row id' (deleteServerById id t) = if decide (id' = id) then None else find_row id' t.
Proof.
  unfold find_row, deleteServerById. rewrite list_filter_filter. case_decide as E.
  - rewrite filter_none; [done|]. intros r _ [? ?]. congruence.
  - f_equal. apply list_filter_iff. intros r. split; [tauto|]. intros Hr. split; [done|congruence].
Qed.

Lemma table_map_delete id t : table_map (deleteServerById id t) = delete id (table_map t).
Proof.
  apply map_eq. intros id'. rewrite table_map_lookup. unfold getServerById. rewrite find_row_delete. case_decide as E.
  - subst. by rewrite lookup_delete_eq.
  - by rewrite lookup_delete_ne, table_map_lookup.
Qed.

Lemma find_row_snoc t r id' : find_row id' (t ++ [r])%list = match find_row id' t with Some r' => Some r' | None => if decide (row_serverId r = id') then Some r else None end.
Proof.
  unfold find_row. rewrite filter_app, filter_cons, filter_nil. destruct (filter _ t) as [|r' l]; cbn [app head]; [|done].
  by case_decide.
Qed.

Lemma table_map_insert e t : es_remoteLayoutSpec e = None → entity_of (row_of None e) = e → table_map (insertServer e t) = <[es_serverId e := e]> (table_map t).
Proof.
  intros Hl He. apply map_eq. intros id'. rewrite table_map_lookup. unfold getServerById, insertServer. rewrite Hl. cbn [fromRemoteLayoutSpec].
  rewrite find_row_snoc, find_row_delete.
  cbn [row_of row_serverId]. destruct (decide (id' = es_serverId e)) as [->|Hne].
  - rewrite decide_True by done. rewrite lookup_insert_eq. cbn. by rewrite He.
  - rewrite lookup_insert_ne by done. rewrite table_map_lookup. unfold getServerById. destruct (find_row id' t); [done|].
    by rewrite decide_False by congruence.
Qed.

Lemma NoDup_ids_delete id t : NoDup (ids t) → NoDup (ids (deleteServerById id t)).
Proof.
  unfold ids, deleteServerById. intros Hnd. induction t as [|r t IH]; [constructor|]. rewrite fmap_cons, NoDup_cons in Hnd.
  destruct Hnd as [Hr Hnd]. rewrite filter_cons. case_decide; [|by apply IH]. rewrite fmap_cons. constructor; [|by apply IH].
  intros Hin. apply Hr. apply list_elem_of_fmap in Hin as (r' & -> & Hin). apply list_elem_of_filter in Hin as [_ Hin].
  by apply list_elem_of_fmap_2.
Qed.

Lemma NoDup_ids_insert e t : NoDup (ids t) → NoDup (ids (insertServer e t)).
Proof.
  intros Ht. unfold insertServer. destruct (fromRemoteLayoutSpec _); [|done].
  unfold ids, deleteServerById. rewrite fmap_app. apply NoDup_app. split_and!.
  - by apply NoDup_ids_delete.
  - intros x Hx Hx'. apply list_elem_of_fmap in Hx as (r & -> & Hr). apply list_elem_of_filter in Hr as [Hne _]. cbn in Hx'.
    apply list_elem_of_singleton in Hx'. done.
  - apply NoDup_singleton.
Qed.

(** ** The converters *)
Lemma join_empty l : (∀ s, s ∈ l → s ≠ "") → RustStd.join "," l = "" → l = [].
Proof.
  destruct l as [|s [|s' l]]; [done|..]; intros Hl; cbn [RustStd.join].
  - intros ->. exfalso. by apply (Hl ""); [left|].
  - destruct s as [|a s]; [|done]. exfalso. by apply (Hl ""); [left|].
Qed.

Lemma toStringList_from l : forallb (no_char ",") l = true → (∀ s, s ∈ l → s ≠ "") → toStringList (fromStringList l) = l.
Proof.
  intros Hc Hne. unfold toStringList, fromStringList. destruct (RustStd.join "," l) eqn:E; cbn [str_is_empty].
  - by rewrite (join_empty l).
  - rewrite <-E. apply split_join; [|done]. by intros ->.
Qed.
Lemma toConnectionMode_from m : toConnectionMode (fromConnectionMode m) = m.
Proof. by destruct m. Qed.
Lemma toConnectionPreference_from p : toConnectionPreference (fromConnectionPreference p) = p.
Proof. by destruct p. Qed.
Lemma toRemoteLayoutSpec_from `{!LayoutJsonLaws} s :
  match fromRemoteLayoutSpec s with
  | Some text => default true (finite_layout <$> s) = true ∧ toRemoteLayoutSpec text = s
  | None => default true (finite_layout <$> s) = false
  end.
Proof.
  destruct s as [s|]; [|done]. cbn. pose proof (layout_writes s) as Hw. destruct (layout_encode s) as [text|] eqn:E; cbn.
  - destruct (layout_roundtrip s text E) as [Hd Hb]. split; [by apply Hw|]. unfold toRemoteLayoutSpec. cbn. by rewrite Hb, Hd.
  - destruct (finite_layout s); [|done]. by destruct (proj2 Hw eq_refl).
Qed.

Lemma forallb_elem {A} (f : A → bool) l : forallb f l = true ↔ ∀ x, x ∈ l → f x = true.
Proof. rewrite forallb_forall. by setoid_rewrite list_elem_of_In. Qed.

Lemma trimmed_ok l : forallb (no_char ",") l = true →
  ∀ s, s ∈ trimmed l → no_char "," s = true ∧ s ≠ "".
Proof.
  intros Hl s Hs. unfold trimmed in Hs. apply list_elem_of_filter in Hs as [Hne Hs]. split; [|done].
  apply list_elem_of_fmap in Hs as (s' & -> & Hs'). apply string_forall_ktrim. by apply forallb_elem with l.
Qed.

Lemma stored_ips l k : (∀ s, s ∈ k → s ∈ trimmed l) → forallb (no_char ",") l = true → toStringList (fromStringList k) = k.
Proof.
  intros Hk Hl. apply toStringList_from; [apply forallb_elem|]; intros s Hs; by apply (trimmed_ok l Hl), Hk.
Qed.

Lemma sanitized_stored l : forallb (no_char ",") l = true → toStringList (fromStringList (sanitized_ips l)) = sanitized_ips l.
Proof.
  apply stored_ips. intros s Hs. unfold sanitized_ips in Hs. apply elem_of_distinct, list_elem_of_filter in Hs. tauto.
Qed.

Lemma row_of_saved now id ips port cid name fp re ru rt rs rp mode : forallb (no_char ",") ips = true →
  let e := saved_entity now id ips port cid name fp re ru rt rs rp mode in entity_of (row_of None e) = e.
Proof.
  intros Hc. cbn. unfold entity_of, row_of, saved_entity. cbn [row_serverId row_ips row_serverPort row_clientId row_serverName
    row_certFingerprint row_enrolled_at row_last_connected row_relayEnabled row_relayUrl row_relayToken row_relayAllowSelfSigned
    row_relayPinnedCertSha256 row_connectionPreference row_lastConnectionMode row_remoteLayoutSpec row_serverHost es_ips
    es_connectionPreference es_lastConnectionMode es_remoteLayoutSpec es_serverId es_serverPort es_clientId es_serverName
    es_certFingerprint es_enrolledAt es_lastConnected es_relayEnabled es_relayUrl es_relayToken es_relayAllowSelfSigned
    es_relayPinnedCertSha256 es_serverHost].
  rewrite toConnectionMode_from, (stored_ips ips); [done| |done]. intros s. by rewrite elem_of_distinct.
Qed.

Lemma merge_refines id l t : forallb (no_char ",") l = true →
  table_map (mergeServerIpsTransactional id l t) = alter (merged l) id (table_map t) ∧ ids (mergeServerIpsTransactional id l t) = ids t.
Proof.
  intros Hl. unfold mergeServerIpsTransactional. pose proof (table_map_lookup id t) as Hlk.
  destruct (bool_decide_reflect (l = [])) as [->|Hne].
  { split; [|done]. symmetry. apply map_eq. intros i. destruct (decide (i = id)) as [->|?]; [|by rewrite lookup_alter_ne].
    rewrite lookup_alter_eq. by destruct (table_map t !! id). }
  destruct (getServerById id t) as [e|] eqn:E.
  2:{ split; [|done]. symmetry. apply map_eq. intros i. destruct (decide (i = id)) as [->|?]; [|by rewrite lookup_alter_ne].
      by rewrite lookup_alter_eq, Hlk. }
  set (s := sanitized_ips (es_ips e ++ l)). destruct (bool_decide (s = []) || bool_decide (s = es_ips e)) eqn:Es.
  { split; [|done]. symmetry. apply map_eq. intros i. destruct (decide (i = id)) as [->|?]; [|by rewrite lookup_alter_ne].
    rewrite lookup_alter_eq, Hlk. cbn. f_equal. unfold merged. fold s. by rewrite bool_decide_false, orb_false_l, Es. }
  split; [|by apply ids_update]. unfold dao_updateServerIps. rewrite (table_map_update _ _ (with_ips s)); [|done|].
  - apply map_eq. intros i. destruct (decide (i = id)) as [->|?]; [|by rewrite !lookup_alter_ne].
    rewrite !lookup_alter_eq, Hlk. cbn. f_equal. unfold merged. fold s. by rewrite bool_decide_false, orb_false_l, Es.
  - intros r. unfold entity_of, with_ips. cbn. f_equal. subst s. apply sanitized_stored.
    rewrite forallb_app, Hl, andb_true_r. unfold getServerById in E. destruct (find_row id t) as [r'|]; [|done]. injection E as <-.
    cbn. unfold toStringList. destruct (str_is_empty _); [done|]. apply no_char_split.
Qed.

Lemma db_step_refines `{!LayoutJsonLaws} op t : no_commas op = true → NoDup (ids t) →
  table_map (db_step op t) = spec_step op (table_map t) ∧ NoDup (ids (db_step op t)).
Proof.
  intros Hc Hnd. destruct op; cbn [db_step spec_step no_commas] in *.
  - split; [|by apply NoDup_ids_insert]. unfold saveServer. rewrite table_map_insert; [done|done|]. by apply row_of_saved.
  - split; [by apply table_map_update|]. unfold dao_updateLastConnected. by rewrite ids_update.
  - split; [|unfold dao_updateConnectionMode; by rewrite ids_update]. apply table_map_update; [done|]. intros r.
    unfold entity_of, with_mode, with_lastConnected. cbn. by rewrite toConnectionMode_from.
  - split; [|unfold dao_updateConnectionPreference; by rewrite ids_update]. apply table_map_update; [done|]. intros r.
    unfold entity_of, with_preference. cbn. by rewrite toConnectionPreference_from.
  - split; [by apply table_map_update|]. unfold dao_updateCertFingerprint. by rewrite ids_update.
  - split; [apply table_map_delete|by apply NoDup_ids_delete].
  - split; [done|constructor].
  - destruct (merge_refines id discovered t Hc) as [Hm Hi]. split; [done|]. by rewrite Hi.
  - unfold dao_updateRemoteLayoutSpec. pose proof (toRemoteLayoutSpec_from spec) as Hl.
    destruct (fromRemoteLayoutSpec spec) as [text|]; [destruct Hl as [-> Hl]|by rewrite Hl]. split; [|by rewrite ids_update].
    apply table_map_update; [done|]. intros r. unfold entity_of, with_layout. cbn. by f_equal.
Qed.

Lemma db_run_refines `{!LayoutJsonLaws} ops t : forallb no_commas ops = true → NoDup (ids t) →
  table_map (db_run ops t) = spec_run ops (table_map t) ∧ NoDup (ids (db_run ops t)).
Proof.
  revert t. induction ops as [|op ops IH]; intros t Hc Hnd; [done|]. cbn in Hc. apply andb_true_iff in Hc as [Hop Hc].
  destruct (db_step_refines op t Hop Hnd) as [Hm Hnd']. destruct (IH _ Hc Hnd') as [Hm' ?]. split; [|done].
  change (db_run (op :: ops) t) with (db_run ops (db_step op t)). by rewrite Hm', Hm.
Qed.

(** More recently connected, never connected last. *)
Definition recent (a b : EnrolledServerEntity) : Prop :=
  match es_lastConnected a, es_lastConnected b with
  | Some x, Some y => y <= x
  | Some _, None => True
  | None, Some _ => False
  | None, None => True
  end.

(** C21: The database is a map of servers.  After any operations whose addresses hold no
    comma, each server's row reads as the entity those operations say: saved once per
    id, changed in exactly the column updated (a layout with a number that JSON cannot write is
    refused), addresses merged without loss or repetition.  The list of servers has each of them once, the most recently
    connected first, and the last connected server is its first. *)
Theorem database_is_a_map_of_servers `{!LayoutJsonLaws} ops : forallb no_commas ops = true →
  let t := db_run ops [] in let m := spec_run ops ∅ in
  (∀ id, getServerById id t = m !! id) ∧
  getAllServers t ≡ₚ (map_to_list m).*2 ∧ Sorted recent (getAllServers t) ∧
  getLastConnectedServer t = head (getAllServers t).
Proof.
  intros Hc t m. destruct (db_run_refines ops [] Hc (NoDup_nil_2)) as [Hm Hnd]. fold t in Hm, Hnd.
  change (table_map []) with (∅ : gmap string EnrolledServerEntity) in Hm. fold m in Hm. split_and!; [| | |done].
  - intros id. by rewrite <-Hm, table_map_lookup.
  - rewrite <-Hm. unfold table_map, getAllServers. rewrite map_to_list_to_map.
    + rewrite <-list_fmap_compose, (merge_sort_Permutation later t). done.
    + rewrite <-list_fmap_compose. done.
  - unfold getAllServers. pose proof (Sorted_merge_sort later t) as Hs. induction Hs as [|r l Hl IH Hr]; [constructor|].
    rewrite fmap_cons. constructor; [done|]. destruct Hr; constructor. done.
Qed.
End database.

(** A comma inside an address splits it when the row is read. *)
#[local] Instance no_layouts : LayoutJson := {| layout_encode _ := None; layout_decode _ := None |}.
Lemma commas_split_addresses :
  es_ips <$> getServerById "s" (saveServer 0 "s" ["a,b"] 1 "c" "n" "f" false None None false None DIRECT []) = Some ["a"; "b"].
Proof. vm_compute. reflexivity. Qed.

(** ** Witness: a codec for layouts *)
#[local] Instance spec_float_eq_dec : EqDecision spec_float.
Proof. solve_decision. Defined.
#[local] Instance spec_float_countable : Countable spec_float.
Proof.
  refine (inj_countable' (λ f, match f with
      | S754_zero s => inl (inl s) | S754_infinity s => inl (inr s) | S754_nan => inr None | S754_finite s m e => inr (Some (s, m, e))
      end) (λ x, match x with
      | inl (inl s) => S754_zero s | inl (inr s) => S754_infinity s | inr None => S754_nan | inr (Some (s, m, e)) => S754_finite s m e
      end) _). by intros [].
Defined.
#[local] Instance SectionType_eq_dec : EqDecision SectionType.
Proof. solve_decision. Defined.
#[local] Instance AdjustmentControl_eq_dec : EqDecision AdjustmentControl.
Proof. solve_decision. Defined.
#[local] Instance TelemetryDisplay_eq_dec : EqDecision TelemetryDisplay.
Proof. solve_decision. Defined.
#[local] Instance SliderOverrides_eq_dec : EqDecision SliderOverrides.
Proof. solve_decision. Defined.
#[local] Instance ToggleOverrides_eq_dec : EqDecision ToggleOverrides.
Proof. solve_decision. Defined.
#[local] Instance CounterOverrides_eq_dec : EqDecision CounterOverrides.
Proof. solve_decision. Defined.
#[local] Instance RemoteLayoutEntry_eq_dec : EqDecision RemoteLayoutEntry.
Proof. solve_decision. Defined.
#[local] Instance SectionSpec_eq_dec : EqDecision SectionSpec.
Proof. solve_decision. Defined.
#[local] Instance RemoteLayoutSpec_eq_dec : EqDecision RemoteLayoutSpec.
Proof. solve_decision. Defined.
#[local] Instance SectionType_countable : Countable SectionType.
Proof.
  refine (inj_countable' (λ x, match x with QUICK_ACTIONS => None | ADJUSTMENTS => Some false | TELEMETRY => Some true end)
    (λ y, match y with None => QUICK_ACTIONS | Some false => ADJUSTMENTS | Some true => TELEMETRY end) _). by intros [].
Defined.
#[local] Instance AdjustmentControl_countable : Countable AdjustmentControl.
Proof.
  refine (inj_countable' (λ x, match x with AcAUTO => (false, false) | AcSLIDER => (false, true) | AcTOGGLE => (true, false)
      | AcCOUNTER => (true, true) end)
    (λ y, match y with (false, false) => AcAUTO | (false, true) => AcSLIDER | (true, false) => AcTOGGLE | (true, true) => AcCOUNTER end) _).
  by intros [].
Defined.
#[local] Instance TelemetryDisplay_countable : Countable TelemetryDisplay.
Proof.
  refine (inj_countable' (λ x, match x with TdCOUNTER => None | TdGAUGE => Some false | TdTEXT => Some true end)
    (λ y, match y with None => TdCOUNTER | Some false => TdGAUGE | Some true => TdTEXT end) _). by intros [].
Defined.
#[local] Instance SliderOverrides_countable : Countable SliderOverrides.
Proof. refine (inj_countable' (λ x, (so_min x, so_max x, so_step x)) (λ y, mkSliderOverrides y.1.1 y.1.2 y.2) _). by intros []. Defined.
#[local] Instance ToggleOverrides_countable : Countable ToggleOverrides.
Proof. refine (inj_countable' (λ x, (to_checkedLabel x, to_uncheckedLabel x)) (λ y, mkToggleOverrides y.1 y.2) _). by intros []. Defined.
#[local] Instance CounterOverrides_countable : Countable CounterOverrides.
Proof. refine (inj_countable' (λ x, (co_min x, co_max x)) (λ y, mkCounterOverrides y.1 y.2) _). by intros []. Defined.
#[local] Instance RemoteLayoutEntry_countable : Countable RemoteLayoutEntry.
Proof.
  refine (inj_countable' (λ x, match x with
      | QuickActionEntry a b c d e f => inl (a, b, c, d, e, f)
      | AdjustmentEntry a b c d e f g h i => inr (inl (a, b, c, d, e, f, g, h, i))
      | TelemetryEntry a b c d e f g h => inr (inr (a, b, c, d, e, f, g, h)) end)
    (λ y, match y with
      | inl (a, b, c, d, e, f) => QuickActionEntry a b c d e f
      | inr (inl (a, b, c, d, e, f, g, h, i)) => AdjustmentEntry a b c d e f g h i
      | inr (inr (a, b, c, d, e, f, g, h)) => TelemetryEntry a b c d e f g h end) _). by intros [].
Defined.
#[local] Instance SectionSpec_countable : Countable SectionSpec.
Proof.
  refine (inj_countable' (λ x, (sp_sectionId x, sp_type x, sp_title x, sp_entries x)) (λ y, mkSectionSpec y.1.1.1 y.1.1.2 y.1.2 y.2) _).
  by intros [].
Defined.
#[local] Instance RemoteLayoutSpec_countable : Countable RemoteLayoutSpec.
Proof. refine (inj_countable' rl_sections mkRemoteLayoutSpec _). by intros []. Defined.

Definition demo_layout_json : LayoutJson := {|
  layout_encode s := if finite_layout s then Some (String "{" (bits_of_pos (encode s))) else None;
  layout_decode t := match t with String _ t => decode (pos_of_bits t) | EmptyString => None end |}.
Lemma demo_layout_laws : @LayoutJsonLaws demo_layout_json.
Proof.
  split; intros s; cbn [layout_encode layout_decode demo_layout_json].
  - intros text. destruct (finite_layout s); [|done]. intros [= <-]. split; [by rewrite pos_of_bits_of_pos, decode_encode|].
    unfold is_blank, ktrim_start. cbn [String.length ktrim_start_fuel]. by rewrite kws_len_visible.
  - destruct (finite_layout s); [by eauto|]. split; [by intros [? ?]|done].
Qed.

Definition demo_db_ops : list db_op :=
  [DbSave 5 "home" ["192.168.1.2"; " 10.0.0.1 "; "10.0.0.1"] 50051 "me" "desk" "SHA256:aa" false None None false None DIRECT;
   DbMergeIps "home" ["fe80::1"; "Unknown"]; DbConnectionMode "home" 9 RELAY; DbLayout "home" (Some withDefaultSections);
   DbSave 7 "work" [] 50051 "me" "rack" "" true (Some "wss://relay") (Some "tok") false None RELAY].
Lemma database_is_a_map_of_servers_witness :
  es_ips <$> @getServerById demo_layout_json "home" (@db_run demo_layout_json demo_db_ops []) = Some ["192.168.1.2"; "10.0.0.1"; "fe80::1"].
Proof.
  destruct (@database_is_a_map_of_servers demo_layout_json demo_layout_laws demo_db_ops ltac:(vm_compute; reflexivity)) as [Hget _].
  rewrite Hget. vm_compute. reflexivity.
Defined.
