(* ===== verification/AndroidLayout.v ===== *)
(** * The layout builder (feature/commands/remote/RemoteLayoutBuilderScreen.kt,
    RemoteDragDrop.kt)

    The remote panel is arranged by dragging: entries are taken from the library of
    commands, moved between sections, reordered and removed. *)

From S2P Require Import Prelude RustStd ThirdParty Validation Kotlin AndroidModel.

Local Open Scope string_scope.
Local Open Scope Z_scope.

(** ** Drag and drop ([RemoteDragDrop.kt])

    [D] is what can be dragged.  Targets are kept in the order in which the map lists
    them; rectangles and positions are in pixels. *)
Record Rect := mkRect { rc_left : Z; rc_top : Z; rc_right : Z; rc_bottom : Z }.
Definition rect_contains (r : Rect) (p : Z * Z) : bool :=
  (rc_left r <=? p.1) && (p.1 <? rc_right r) && (rc_top r <=? p.2) && (p.2 <? rc_bottom r).

Section drag.
Context {D : Type}.

Record DragDropState := mkDragDropState {
  dd_draggingItem : option D;
  dd_dragPosition : Z * Z;
  dd_isDragging : bool;
  dd_currentTargetId : option string;
  dd_targets : list (string * Rect);
}.
Definition drag_init : DragDropState := mkDragDropState None (0, 0) false None [].

Definition target_at (targets : list (string * Rect)) (p : Z * Z) : option string :=
  fst <$> head (filter (λ t, rect_contains t.2 p = true) targets).
Definition updateCurrentTarget (s : DragDropState) : DragDropState :=
  mkDragDropState (dd_draggingItem s) (dd_dragPosition s) (dd_isDragging s)
    (if dd_isDragging s then target_at (dd_targets s) (dd_dragPosition s) else None) (dd_targets s).
Definition startDrag (item : D) (startPosition : Z * Z) (s : DragDropState) : DragDropState :=
  updateCurrentTarget (mkDragDropState (Some item) startPosition true (dd_currentTargetId s) (dd_targets s)).
Definition updateDrag (delta : Z * Z) (s : DragDropState) : DragDropState :=
  if dd_isDragging s then
    updateCurrentTarget (mkDragDropState (dd_draggingItem s) ((dd_dragPosition s).1 + delta.1, (dd_dragPosition s).2 + delta.2)
      true (dd_currentTargetId s) (dd_targets s))
  else s.
Definition drag_reset (s : DragDropState) : DragDropState := mkDragDropState None (dd_dragPosition s) false None (dd_targets s).
(** The result that is emitted: the item and the target under it. *)
Definition endDrag (s : DragDropState) : DragDropState * option (D * option string) :=
  match dd_draggingItem s with
  | None => (drag_reset s, None)
  | Some item => (drag_reset s, Some (item, dd_currentTargetId s))
  end.
Definition registerTarget (id : string) (rect : Rect) (s : DragDropState) : DragDropState :=
  let targets := if existsb (λ t, bool_decide (t.1 = id)) (dd_targets s)
                 then (λ t, if bool_decide (t.1 = id) then (id, rect) else t) <$> dd_targets s
                 else (dd_targets s ++ [(id, rect)])%list in
  updateCurrentTarget (mkDragDropState (dd_draggingItem s) (dd_dragPosition s) (dd_isDragging s) (dd_currentTargetId s) targets).
Definition unregisterTarget (id : string) (s : DragDropState) : DragDropState :=
  mkDragDropState (dd_draggingItem s) (dd_dragPosition s) (dd_isDragging s)
    (if bool_decide (dd_currentTargetId s = Some id) then None else dd_currentTargetId s)
    (filter (λ t, t.1 ≠ id) (dd_targets s)).

Inductive drag_op :=
  | DragStart (item : D) (p : Z * Z)
  | DragMove (delta : Z * Z)
  | DragEnd
  | DragCancel
  | TargetPlaced (id : string) (rect : Rect)
  | TargetGone (id : string).
Definition drag_step (op : drag_op) (s : DragDropState) : DragDropState * option (D * option string) :=
  match op with
  | DragStart item p => (startDrag item p s, None)
  | DragMove d => (updateDrag d s, None)
  | DragEnd => endDrag s
  | DragCancel => (drag_reset s, None)
  | TargetPlaced id r => (registerTarget id r s, None)
  | TargetGone id => (unregisterTarget id s, None)
  end.

(** A target is current only while something is dragged, and it is one of those placed. *)
Definition drag_wf (s : DragDropState) : Prop :=
  (dd_isDragging s = true ↔ is_Some (dd_draggingItem s)) ∧
  ∀ id, dd_currentTargetId s = Some id → dd_isDragging s = true ∧ id ∈ (dd_targets s).*1.

Lemma target_at_placed targets p id : target_at targets p = Some id → id ∈ targets.*1.
Proof.
  unfold target_at. destruct (filter _ targets) as [|t l] eqn:E; [done|]. intros [= <-].
  apply list_elem_of_fmap_2. assert (t ∈ filter (λ t, rect_contains t.2 p = true) targets) as Ht by (rewrite E; left).
  apply list_elem_of_filter in Ht. tauto.
Qed.

Lemma updateCurrentTarget_wf s : (dd_isDragging s = true ↔ is_Some (dd_draggingItem s)) → drag_wf (updateCurrentTarget s).
Proof.
  intros Hd. split; [done|]. cbn. intros id. destruct (dd_isDragging s); [|done]. intros Ht. split; [done|]. by eapply target_at_placed.
Qed.

Lemma drag_step_wf op s : drag_wf s → drag_wf (drag_step op s).1.
Proof.
  intros [Hd Ht]. destruct op; cbn [drag_step fst].
  - apply updateCurrentTarget_wf. done.
  - unfold updateDrag. destruct (dd_isDragging s) eqn:E; [|split; rewrite E; [done|exact Ht]]. apply updateCurrentTarget_wf. cbn. tauto.
  - unfold endDrag. destruct (dd_draggingItem s); (split; cbn; [split; [done|by intros [? ?]]|done]).
  - split; cbn; [split; [done|by intros [? ?]]|done].
  - by apply updateCurrentTarget_wf.
  - split; [done|]. cbn. intros id'. case_bool_decide; [done|]. intros Hid. destruct (Ht _ Hid) as [? Hin]. split; [done|].
    apply list_elem_of_fmap in Hin as (t & -> & Hin). apply list_elem_of_fmap_2, list_elem_of_filter. split; [|done].
    intros E. congruence.
Qed.
End drag.
Arguments DragDropState : clear implicits.

(** ** The library of what can be added *)
Inductive BuilderLibraryItem :=
  | LibQuickAction (command : Command)
  | LibAdjustment (command : Command) (parameter : CommandParameter) (control : AdjustmentControl)
  | LibTelemetry (command : Command).
Definition displayName (i : BuilderLibraryItem) : string :=
  match i with
  | LibQuickAction c | LibTelemetry c => kc_name c
  | LibAdjustment c p _ => fmt [kc_name c; " • "; kp_name p]
  end.
Record BuilderLibrary := mkBuilderLibrary {
  bl_quickActions : list BuilderLibraryItem;
  bl_adjustments : list BuilderLibraryItem;
  bl_telemetry : list BuilderLibraryItem;
}.
Definition buildLibrary (commands : list Command) : BuilderLibrary :=
  mkBuilderLibrary
    (LibQuickAction <$> filter (λ c, kc_parameters c = []) commands)
    (commands ≫= λ c, omap (λ p, match kp_type p with
       | SLIDER => Some (LibAdjustment c p AcSLIDER)
       | TOGGLE => Some (LibAdjustment c p AcTOGGLE)
       | TEXT | DROPDOWN | TYPE_UNSPECIFIED => None
       end) (kc_parameters c))
    (LibTelemetry <$> commands).

(** ** Changing a layout *)
Definition has_section (id : string) (spec : RemoteLayoutSpec) : bool :=
  existsb (λ s, bool_decide (sp_sectionId s = id)) (rl_sections spec).
Definition new_section (id : string) : option SectionSpec :=
  if bool_decide (id = QUICK_ACTIONS_SECTION_ID) then Some (mkSectionSpec id QUICK_ACTIONS (Some "Quick Actions") [])
  else if bool_decide (id = ADJUSTMENTS_SECTION_ID) then Some (mkSectionSpec id ADJUSTMENTS (Some "Adjustments") [])
  else if bool_decide (id = TELEMETRY_SECTION_ID) then Some (mkSectionSpec id TELEMETRY (Some "Telemetry") [])
  else None.
Definition ensureSectionById (id : string) (spec : RemoteLayoutSpec) : RemoteLayoutSpec :=
  if has_section id spec then spec
  else match new_section id with
       | Some s => mkRemoteLayoutSpec (rl_sections spec ++ [s])%list
       | None => spec
       end.
Definition ensureDefaultSections (spec : RemoteLayoutSpec) : RemoteLayoutSpec :=
  ensureSectionById TELEMETRY_SECTION_ID (ensureSectionById ADJUSTMENTS_SECTION_ID (ensureSectionById QUICK_ACTIONS_SECTION_ID spec)).
Definition updateSectionEntries (sectionId : string) (f : list RemoteLayoutEntry → list RemoteLayoutEntry) (spec : RemoteLayoutSpec)
    : RemoteLayoutSpec :=
  mkRemoteLayoutSpec ((λ s, if bool_decide (sp_sectionId s = sectionId)
    then mkSectionSpec (sp_sectionId s) (sp_type s) (sp_title s) (f (sp_entries s)) else s) <$> rl_sections spec).
Definition appendEntry (sectionId : string) (entry : RemoteLayoutEntry) : RemoteLayoutSpec → RemoteLayoutSpec :=
  updateSectionEntries sectionId (λ entries, entries ++ [entry])%list.
(** [filterIndexed { idx, _ -> idx != index }] *)
Definition remove_at {A} (index : Z) (l : list A) : list A :=
  if (0 <=? index) && (index <? Z.of_nat (length l)) then (take (Z.to_nat index) l ++ drop (S (Z.to_nat index)) l)%list else l.
Definition move (index direction : Z) (l : list RemoteLayoutEntry) : list RemoteLayoutEntry :=
  if negb ((0 <=? index) && (index <? Z.of_nat (length l))) then l else
  let targetIndex := Z.min (Z.max 0 (index + direction)) (Z.of_nat (length l) - 1) in
  if targetIndex =? index then l else
  match l !! Z.to_nat index with
  | None => l
  | Some item =>
      let mutable := remove_at index l in
      (take (Z.to_nat targetIndex) mutable ++ item :: drop (Z.to_nat targetIndex) mutable)%list
  end.

(** The entry made for an item dropped on a section; [uuid] is the fresh id. *)
Definition dropped_entry (targetId uuid : string) (item : BuilderLibraryItem) : option RemoteLayoutEntry :=
  match item with
  | LibQuickAction c =>
      if bool_decide (targetId = QUICK_ACTIONS_SECTION_ID)
      then Some (QuickActionEntry uuid (kc_id c) None (kc_icon c ≫= take_not_blank) None None) else None
  | LibAdjustment c p control =>
      if bool_decide (targetId = ADJUSTMENTS_SECTION_ID)
      then Some (AdjustmentEntry uuid (kc_id c) (kp_name p) None control None None None (take_not_blank (kp_description p))) else None
  | LibTelemetry c =>
      if bool_decide (targetId = TELEMETRY_SECTION_ID)
      then Some (TelemetryEntry uuid (kc_id c) None TdCOUNTER None None None None) else None
  end.
Definition handleLibraryDrop (targetId uuid : string) (item : BuilderLibraryItem) (spec : RemoteLayoutSpec) : RemoteLayoutSpec :=
  match dropped_entry targetId uuid item with
  | Some entry => appendEntry targetId entry (ensureSectionById targetId spec)
  | None => spec
  end.
Definition is_default_section (id : string) : bool :=
  bool_decide (id ∈ [QUICK_ACTIONS_SECTION_ID; ADJUSTMENTS_SECTION_ID; TELEMETRY_SECTION_ID]).
Definition handleCanvasDrop (targetId sectionId : string) (index : Z) (entry : RemoteLayoutEntry) (spec : RemoteLayoutSpec)
    : RemoteLayoutSpec :=
  if negb (is_default_section targetId) then spec
  else appendEntry targetId entry (ensureSectionById targetId (updateSectionEntries sectionId (remove_at index) spec)).

(** What the screen does to the layout; each change ends with [ensureDefaultSections]. *)
Inductive edit :=
  | QuickAdd (item : BuilderLibraryItem) (uuid : string)
  | LibraryDrop (targetId : string) (item : BuilderLibraryItem) (uuid : string)
  | CanvasDrop (targetId sectionId : string) (index : Z) (entry : RemoteLayoutEntry)
  | RemoveEntry (sectionId : string) (index : Z)
  | MoveEntry (sectionId : string) (index direction : Z).
Definition transform (e : edit) : RemoteLayoutSpec → RemoteLayoutSpec :=
  match e with
  | QuickAdd item uuid => handleLibraryDrop QUICK_ACTIONS_SECTION_ID uuid item
  | LibraryDrop targetId item uuid => handleLibraryDrop targetId uuid item
  | CanvasDrop targetId sectionId index entry => handleCanvasDrop targetId sectionId index entry
  | RemoveEntry sectionId index => updateSectionEntries sectionId (remove_at index)
  | MoveEntry sectionId index direction => updateSectionEntries sectionId (move index direction)
  end.
Definition updateSpec (e : edit) (spec : RemoteLayoutSpec) : RemoteLayoutSpec := ensureDefaultSections (transform e spec).

(** ** No entry is lost *)
Definition all_entries (spec : RemoteLayoutSpec) : list RemoteLayoutEntry := concat (sp_entries <$> rl_sections spec).
Definition section_ids (spec : RemoteLayoutSpec) : list string := sp_sectionId <$> rl_sections spec.
Definition entries_of (id : string) (spec : RemoteLayoutSpec) : list RemoteLayoutEntry :=
  default [] (sp_entries <$> head (filter (λ s, sp_sectionId s = id) (rl_sections spec))).

Lemma has_section_elem id spec : has_section id spec = true ↔ id ∈ section_ids spec.
Proof.
  unfold has_section, section_ids. rewrite existsb_exists, list_elem_of_fmap. split.
  - intros (s & Hs & E). apply bool_decide_eq_true in E. exists s. split; [done|]. by apply list_elem_of_In.
  - intros (s & -> & Hs). exists s. split; [by apply list_elem_of_In|]. by apply bool_decide_eq_true.
Qed.

Lemma new_section_id id s : new_section id = Some s → sp_sectionId s = id ∧ sp_entries s = [].
Proof. unfold new_section. repeat case_bool_decide; [intros [= <-]; done..|done]. Qed.

Lemma ensure_entries id spec : all_entries (ensureSectionById id spec) = all_entries spec.
Proof.
  unfold ensureSectionById. destruct (has_section id spec); [done|]. destruct (new_section id) as [s|] eqn:E; [|done].
  apply new_section_id in E as [_ E]. unfold all_entries. cbn. rewrite fmap_app, concat_app. cbn. by rewrite E, !app_nil_r.
Qed.
Lemma ensure_default_entries spec : all_entries (ensureDefaultSections spec) = all_entries spec.
Proof. unfold ensureDefaultSections. by rewrite !ensure_entries. Qed.

Lemma ensure_ids id spec : section_ids spec ⊆ section_ids (ensureSectionById id spec) ∧
  (NoDup (section_ids spec) → NoDup (section_ids (ensureSectionById id spec))) ∧
  (is_default_section id = true → id ∈ section_ids (ensureSectionById id spec)).
Proof.
  unfold ensureSectionById. destruct (has_section id spec) eqn:E; [by apply has_section_elem in E|].
  assert (id ∉ section_ids spec) as Hn by (rewrite <-has_section_elem; congruence).
  destruct (new_section id) as [s|] eqn:Es.
  - apply new_section_id in Es as [Es _]. unfold section_ids in *. cbn. rewrite fmap_app. cbn. rewrite Es. split_and!; [set_solver| |set_solver].
    intros Hnd. apply NoDup_app. split_and!; [done|set_solver|apply NoDup_singleton].
  - split_and!; [done|done|]. intros Hd. unfold is_default_section in Hd. apply bool_decide_eq_true in Hd.
    unfold new_section in Es. repeat case_bool_decide; try done. set_solver.
Qed.

Lemma update_ids sid f spec : section_ids (updateSectionEntries sid f spec) = section_ids spec.
Proof.
  unfold section_ids, updateSectionEntries. cbn. rewrite <-list_fmap_compose. apply list_fmap_ext. intros i s _. cbn. by case_bool_decide.
Qed.

(** With distinct section ids an update changes one section. *)
Lemma update_entries sid f spec : NoDup (section_ids spec) → sid ∈ section_ids spec →
  ∃ rest, all_entries spec ≡ₚ (entries_of sid spec ++ rest)%list ∧
    all_entries (updateSectionEntries sid f spec) ≡ₚ (f (entries_of sid spec) ++ rest)%list.
Proof.
  destruct spec as [l]. unfold section_ids, all_entries, updateSectionEntries, entries_of. cbn [rl_sections].
  induction l as [|s l IH]; intros Hnd Hin; [by apply not_elem_of_nil in Hin|].
  rewrite fmap_cons in Hnd, Hin. apply NoDup_cons in Hnd as [Hs Hnd]. rewrite !fmap_cons, filter_cons. cbn [concat].
  destruct (decide (sp_sectionId s = sid)) as [<-|Hne].
  - cbn [head fmap option_fmap option_map default from_option]. rewrite bool_decide_true by done. cbn [sp_entries].
    exists (concat (sp_entries <$> l)). split; [done|]. apply Permutation_app_head, reflexive_eq. f_equal.
    f_equal. rewrite <-(list_fmap_id l) at 2. apply list_fmap_ext. intros i x Hx. rewrite bool_decide_false; [done|].
    intros E. apply Hs. rewrite <-E. eapply list_elem_of_fmap_2, list_elem_of_lookup_2, Hx.
  - rewrite bool_decide_false by done. apply elem_of_cons in Hin as [?|Hin]; [congruence|].
    destruct (IH Hnd Hin) as (rest & H1 & H2). exists (sp_entries s ++ rest)%list. rewrite H1, H2.
    rewrite !(assoc_L (++)%list). split; f_equiv; apply Permutation_app_comm.
Qed.

Lemma update_absent sid f spec : (sid ∉ section_ids spec) → updateSectionEntries sid f spec = spec.
Proof.
  destruct spec as [l]. unfold section_ids, updateSectionEntries. cbn. intros Hn. f_equal. rewrite <-(list_fmap_id l) at 2.
  apply list_fmap_ext. intros i s Hs. rewrite bool_decide_false; [done|]. intros <-. apply Hn.
  eapply list_elem_of_fmap_2, list_elem_of_lookup_2, Hs.
Qed.

(** The element at an index, and the others. *)
Definition at_index {A} (index : Z) (l : list A) : option A := if 0 <=? index then l !! Z.to_nat index else None.
Lemma remove_at_perm {A} index (l : list A) : (option_list (at_index index l) ++ remove_at index l)%list ≡ₚ l.
Proof.
  unfold remove_at, at_index. destruct (Z.leb_spec 0 index); [|done]. destruct (Z.ltb_spec index (Z.of_nat (length l))); cbn [andb].
  - destruct (lookup_lt_is_Some_2 l (Z.to_nat index)) as [x Hx]; [lia|]. rewrite Hx. cbn.
    rewrite Permutation_middle. by rewrite take_drop_middle.
  - by rewrite lookup_ge_None_2 by lia.
Qed.

Lemma move_perm index direction l : move index direction l ≡ₚ l.
Proof.
  unfold move. destruct (_ && _) eqn:E; [|done]. cbn [negb]. destruct (_ =? index); [done|].
  destruct (l !! Z.to_nat index) as [item|] eqn:Ei; [|done]. rewrite <-Permutation_middle, take_drop.
  pose proof (remove_at_perm index l) as Hp. unfold at_index in Hp.
  apply andb_true_iff in E as [E _]. rewrite E, Ei in Hp. done.
Qed.

Lemma append_ids sid entry spec : section_ids (appendEntry sid entry spec) = section_ids spec.
Proof. apply update_ids. Qed.

Lemma append_entries sid entry spec : NoDup (section_ids spec) → sid ∈ section_ids spec →
  all_entries (appendEntry sid entry spec) ≡ₚ (all_entries spec ++ [entry])%list.
Proof.
  intros Hnd Hin. destruct (update_entries sid (λ l, l ++ [entry])%list spec Hnd Hin) as (rest & H1 & H2).
  unfold appendEntry. rewrite H2, H1, <-!(assoc_L (++)%list). apply Permutation_app_head, Permutation_app_comm.
Qed.

Lemma remove_entries sid index spec : NoDup (section_ids spec) →
  (all_entries (updateSectionEntries sid (remove_at index) spec) ++ option_list (at_index index (entries_of sid spec)))%list
  ≡ₚ all_entries spec.
Proof.
  intros Hnd. destruct (decide (sid ∈ section_ids spec)) as [Hin|Hn].
  - destruct (update_entries sid (remove_at index) spec Hnd Hin) as (rest & H1 & H2).
    rewrite H1, H2, Permutation_app_comm, (assoc_L (++)%list). by rewrite remove_at_perm.
  - rewrite update_absent by done. assert (entries_of sid spec = []) as ->.
    { unfold entries_of. rewrite filter_none; [done|]. intros s Hs <-. apply Hn. by apply list_elem_of_fmap_2. }
    unfold at_index. destruct (0 <=? index); by rewrite app_nil_r.
Qed.

Lemma move_entries sid index direction spec : NoDup (section_ids spec) →
  all_entries (updateSectionEntries sid (move index direction) spec) ≡ₚ all_entries spec.
Proof.
  intros Hnd. destruct (decide (sid ∈ section_ids spec)) as [Hin|Hn]; [|by rewrite update_absent].
  destruct (update_entries sid (move index direction) spec Hnd Hin) as (rest & H1 & H2). by rewrite H1, H2, move_perm.
Qed.

Lemma dropped_default targetId uuid item entry : dropped_entry targetId uuid item = Some entry → is_default_section targetId = true.
Proof.
  unfold is_default_section. intros Hd. apply bool_decide_eq_true. destruct item; cbn in Hd; case_bool_decide; try done; set_solver.
Qed.

(** What an edit adds and removes. *)
Definition added (e : edit) : list RemoteLayoutEntry :=
  match e with
  | QuickAdd item uuid => option_list (dropped_entry QUICK_ACTIONS_SECTION_ID uuid item)
  | LibraryDrop targetId item uuid => option_list (dropped_entry targetId uuid item)
  | _ => []
  end.
Definition removed (e : edit) (spec : RemoteLayoutSpec) : list RemoteLayoutEntry :=
  match e with RemoveEntry sid index => option_list (at_index index (entries_of sid spec)) | _ => [] end.
(** A dragged entry is the one at its place. *)
Definition edit_ok (e : edit) (spec : RemoteLayoutSpec) : Prop :=
  match e with CanvasDrop _ sid index entry => at_index index (entries_of sid spec) = Some entry | _ => True end.

Lemma library_drop_entries targetId uuid item spec : NoDup (section_ids spec) →
  all_entries (handleLibraryDrop targetId uuid item spec) ≡ₚ (all_entries spec ++ option_list (dropped_entry targetId uuid item))%list ∧
  NoDup (section_ids (handleLibraryDrop targetId uuid item spec)).
Proof.
  intros Hnd. unfold handleLibraryDrop. destruct (dropped_entry targetId uuid item) as [entry|] eqn:E; cbn [option_list]; [|by rewrite app_nil_r].
  apply dropped_default in E. destruct (ensure_ids targetId spec) as (_ & Hn & Hd). rewrite append_ids.
  split; [|by apply Hn]. rewrite append_entries by auto. by rewrite ensure_entries.
Qed.

Lemma transform_entries e spec : NoDup (section_ids spec) → edit_ok e spec →
  (all_entries (transform e spec) ++ removed e spec)%list ≡ₚ (all_entries spec ++ added e)%list ∧ NoDup (section_ids (transform e spec)).
Proof.
  intros Hnd Hok. destruct e; cbn [transform added removed]; rewrite ?app_nil_r.
  - by apply library_drop_entries.
  - by apply library_drop_entries.
  - unfold handleCanvasDrop. destruct (is_default_section targetId) eqn:Hd; cbn [negb]; [|done].
    pose proof (remove_entries sectionId index spec Hnd) as Hr. cbn in Hok. rewrite Hok in Hr. cbn [option_list] in Hr.
    set (spec1 := updateSectionEntries sectionId (remove_at index) spec) in *.
    assert (NoDup (section_ids spec1)) as Hnd1 by (unfold spec1; by rewrite update_ids).
    destruct (ensure_ids targetId spec1) as (_ & Hn & Hin). rewrite append_ids. split; [|by apply Hn].
    rewrite append_entries by auto. by rewrite ensure_entries.
  - rewrite update_ids. split; [|done]. by apply remove_entries.
  - rewrite update_ids. split; [|done]. by apply move_entries.
Qed.

Definition default_ids : list string := [QUICK_ACTIONS_SECTION_ID; ADJUSTMENTS_SECTION_ID; TELEMETRY_SECTION_ID].
Lemma ensure_default_ids spec : NoDup (section_ids spec) →
  NoDup (section_ids (ensureDefaultSections spec)) ∧ default_ids ⊆ section_ids (ensureDefaultSections spec).
Proof.
  intros Hnd. unfold ensureDefaultSections.
  set (s1 := ensureSectionById QUICK_ACTIONS_SECTION_ID spec). set (s2 := ensureSectionById ADJUSTMENTS_SECTION_ID s1).
  destruct (ensure_ids QUICK_ACTIONS_SECTION_ID spec) as (_ & H1 & D1). destruct (ensure_ids ADJUSTMENTS_SECTION_ID s1) as (S2 & H2 & D2).
  destruct (ensure_ids TELEMETRY_SECTION_ID s2) as (S3 & H3 & D3). split; [auto|].
  intros x Hx. unfold default_ids in Hx. rewrite !elem_of_cons in Hx. destruct Hx as [->|[->|[->|Hx]]].
  - apply S3, S2, D1. done.
  - apply S3, D2. done.
  - apply D3. done.
  - by apply not_elem_of_nil in Hx.
Qed.

Lemma updateSpec_entries e spec : NoDup (section_ids spec) → edit_ok e spec →
  (all_entries (updateSpec e spec) ++ removed e spec)%list ≡ₚ (all_entries spec ++ added e)%list ∧
  NoDup (section_ids (updateSpec e spec)) ∧ default_ids ⊆ section_ids (updateSpec e spec).
Proof.
  intros Hnd Hok. destruct (transform_entries e spec Hnd Hok) as [Hp Hnd']. unfold updateSpec. rewrite ensure_default_entries.
  split; [done|]. by apply ensure_default_ids.
Qed.

(** A sitting with the builder: the edits, what they added and what they removed. *)
Inductive edited : RemoteLayoutSpec → list RemoteLayoutEntry → list RemoteLayoutEntry → RemoteLayoutSpec → Prop :=
  | edited_nil spec : edited spec [] [] spec
  | edited_cons e spec a r spec' : edit_ok e spec → edited (updateSpec e spec) a r spec' →
      edited spec (added e ++ a)%list (removed e spec ++ r)%list spec'.

Definition entry_id (e : RemoteLayoutEntry) : string :=
  match e with QuickActionEntry id _ _ _ _ _ | AdjustmentEntry id _ _ _ _ _ _ _ _ | TelemetryEntry id _ _ _ _ _ _ _ => id end.

(** No entry of the panel is lost or doubled.  However library items are added,
    entries dragged between sections, moved up and down and removed, the layout holds
    exactly the entries it had and those added, without those removed; section ids stay
    distinct, the three default sections are there, and, added ids being fresh, entry
    ids stay distinct. *)
Lemma layout_edits_lose_nothing spec a r spec' :
  NoDup (section_ids spec) → default_ids ⊆ section_ids spec → edited spec a r spec' →
  (all_entries spec' ++ r)%list ≡ₚ (all_entries spec ++ a)%list ∧
  NoDup (section_ids spec') ∧ default_ids ⊆ section_ids spec' ∧
  (NoDup (entry_id <$> (all_entries spec ++ a)%list) → NoDup (entry_id <$> all_entries spec')).
Proof.
  intros Hnd Hd He. assert ((all_entries spec' ++ r)%list ≡ₚ (all_entries spec ++ a)%list ∧ NoDup (section_ids spec') ∧
    default_ids ⊆ section_ids spec') as (Hp & Hnd' & Hd').
  { induction He as [spec|e spec a r spec' Hok He IH]; [done|]. destruct (updateSpec_entries e spec Hnd Hok) as (Hp & Hnd1 & Hd1).
    destruct (IH Hnd1 Hd1) as (Hp' & ? & ?). split; [|done].
    rewrite (Permutation_app_comm (removed e spec)), (assoc_L (++)%list), Hp', <-(assoc_L (++)%list), (Permutation_app_comm a),
      (assoc_L (++)%list), Hp. by rewrite (assoc_L (++)%list). }
  split_and!; [done..|]. rewrite <-Hp, fmap_app. intros Hn. by apply NoDup_app in Hn as [Hn _].
Qed.

Definition demo_quick (id : string) : Command := mkCommand id id "" None [] [] false true false SHELL_SCRIPT ONE_SHOT.
Definition demo_layout : RemoteLayoutSpec :=
  updateSpec (QuickAdd (LibQuickAction (demo_quick "b")) "2") (updateSpec (QuickAdd (LibQuickAction (demo_quick "a")) "1") withDefaultSections).
Definition demo_entry (n c : string) : RemoteLayoutEntry := QuickActionEntry n c None None None None.

Lemma layout_edits_lose_nothing_witness : ∃ spec',
  edited demo_layout [demo_entry "3" "c"] [demo_entry "2" "b"] spec' ∧
  (all_entries spec' ++ [demo_entry "2" "b"])%list ≡ₚ (all_entries demo_layout ++ [demo_entry "3" "c"])%list.
Proof.
  set (e1 := CanvasDrop TELEMETRY_SECTION_ID QUICK_ACTIONS_SECTION_ID 0 (demo_entry "1" "a")).
  set (e2 := QuickAdd (LibQuickAction (demo_quick "c")) "3"). set (e3 := RemoveEntry QUICK_ACTIONS_SECTION_ID 0).
  pose proof (edited_cons e1 demo_layout _ _ _ eq_refl (edited_cons e2 _ _ _ _ I (edited_cons e3 _ _ _ _ I (edited_nil _)))) as He.
  assert (removed e1 demo_layout ++ removed e2 (updateSpec e1 demo_layout) ++ removed e3 (updateSpec e2 (updateSpec e1 demo_layout)) ++ []
    = [demo_entry "2" "b"])%list as Er by (vm_compute; reflexivity). rewrite Er in He.
  eexists. split; [exact He|]. refine (proj1 (layout_edits_lose_nothing demo_layout _ _ _ _ _ He)).
  - apply (bool_decide_unpack _). vm_compute. exact I.
  - intros x Hx. apply (list_elem_of_lookup_1) in Hx as [i Hx]. repeat (destruct i as [|i]; [injection Hx as <-; vm_compute; repeat constructor|]). done.
Defined.
