(* ===== verification/AndroidPairing.v ===== *)
(** * Codes, fingerprints and the TLS trust manager on Android
    (core/security/VerificationCodeGenerator.kt, core/network/MtlsSslContextFactory.kt,
    core/network/MtlsGrpcChannelFactory.kt) *)

From S2P Require Import Prelude RustStd ThirdParty Network SessionState RelayTokens Verification Certificates.
From S2P Require Import ClientEnroll EnrollFlow Kotlin.

Local Open Scope string_scope.
Local Open Scope Z_scope.

(** ** The verification code *)
(** [UUID.fromString] of the Java class library; it reads what [toString] prints. *)
Class JavaUuid := java_uuid : string → option Uuid.
Class JavaUuidLaws `{UuidText, JavaUuid} := java_uuid_reads : ∀ u, java_uuid (uuid_to_string u) = Some u.
(** A UUID is printed as hexadecimal digits and hyphens. *)
Class UuidVisible `{UuidText} := uuid_visible : ∀ u, string_forall visible (uuid_to_string u) = true ∧ uuid_to_string u ≠ "".

(** The first six decimal digits of a digest's hexadecimal text, filled with zeros. *)
Definition android_code (hash : bytes) : string :=
  let hex := hex_string hash in
  let digits := String.substring 0 6 (string_filter is_ascii_digit hex) in
  let paddedDigits := if (String.length digits <? 6)%nat then pad_end 6 "0" digits else digits in
  String.append (String.substring 0 3 paddedDigits) (String.append "-" (string_drop 3 paddedDigits)).

Section generator.
Context `{Sha256, JavaUuid}.

Definition toUuidBytes (s : string) : bytes :=
  match java_uuid s with Some id => uuid_as_bytes id | None => String.list_byte_of_string s end.
Definition combined_hash (clientCertificateDer serverCertificateDer : bytes) (serverId : string) (nonce : bytes) : bytes :=
  sha256 (sha256 clientCertificateDer ++ sha256 serverCertificateDer ++ toUuidBytes serverId ++ nonce)%list.
Definition generate (clientCertificateDer serverCertificateDer : bytes) (serverId : string) (nonce : bytes) : string :=
  android_code (combined_hash clientCertificateDer serverCertificateDer serverId nonce).
Definition computeFingerprint (certificateDer : bytes) : string := String.append "SHA256:" (hex_string (sha256 certificateDer)).

(** Server and phone hash the same bytes, and read the digest differently. *)
Lemma same_hash `{!UuidText, !JavaUuidLaws} client server id nonce :
  combined_hash client server (uuid_to_string id) nonce
  = sha256 (sha256 client ++ sha256 server ++ uuid_as_bytes id ++ nonce)%list.
Proof. unfold combined_hash, toUuidBytes. by rewrite java_uuid_reads. Qed.

Lemma uuid_not_blank `{!UuidText, !UuidVisible} u : is_blank (uuid_to_string u) = false.
Proof. apply is_blank_visible; apply uuid_visible. Qed.

(** The fingerprint is the one the server displays. *)
Lemma computeFingerprint_display `{HexLaws} (c : ServerCertificate) : cert_wf c →
  computeFingerprint (sc_cert_der c) = fingerprint_display c.
Proof. intros Hc. unfold computeFingerprint, fingerprint_display. by rewrite hex_encode_lower, Hc. Qed.
End generator.

(** ** The trust manager *)
(** [lowercase] as far as a comparison with a fingerprint can tell. *)
Definition normalized_fingerprint (s : string) : string := to_lowercase (remove_prefix "SHA256:" s).

Lemma to_lowercase_hex s : string_forall is_ascii_hexdigit s = true → to_lowercase s = to_ascii_lowercase s.
Proof.
  induction s as [|a s IH]; intros Hs; [done|]. cbn [string_forall] in Hs. apply andb_true_iff in Hs as [Ha Hs].
  assert (∀ t, (ascii_code a <? 226) = true → to_lowercase (String a t) = String (to_ascii_lower_char a) (to_lowercase t)) as Hstep.
  { intros t Hlt. cbn [to_lowercase]. destruct t as [|b [|c t]]; try done.
    destruct (_ && _) eqn:E; [|done]. exfalso. unfold in_range in E. lia. }
  rewrite Hstep; [cbn; by rewrite IH|]. unfold is_ascii_hexdigit, is_ascii_digit, in_range in Ha. lia.
Qed.

Lemma hex_string_lower b : to_ascii_lowercase (hex_string b) = hex_string b.
Proof.
  induction b as [|x b IH]; [done|]. cbn [hex_string foldr]. fold (hex_string b). unfold hex_byte. cbv zeta. rewrite !append_cons, append_nil_l.
  unfold to_ascii_lowercase in *. cbn [string_map]. rewrite IH. f_equal; [|f_equal]; by destruct x.
Qed.

Section trust.
Context `{Sha256}.

Lemma normalized_computed der : normalized_fingerprint (computeFingerprint der) = hex_string (sha256 der).
Proof.
  unfold normalized_fingerprint, computeFingerprint, remove_prefix. rewrite (proj2 (strip_prefix_Some _ _ _) eq_refl). cbn [default from_option].
  rewrite to_lowercase_hex by apply hex_string_digits. apply hex_string_lower.
Qed.

(** What the peer presents: its certificates, and whether the first is within its
    period of validity. *)
Record TlsPeer := mkTlsPeer { tp_chain : list bytes; tp_current : bool }.

(** [checkServerTrusted]: the certificate handed to [onServerCertificate], and the
    outcome. *)
Definition checkServerTrusted (expectedFingerprint : option string) (p : TlsPeer) : option bytes * result string unit :=
  let expected := e ← expectedFingerprint; if is_blank e then None else Some (normalized_fingerprint e) in
  match tp_chain p with
  | [] => (None, Err "Server certificate chain is empty")
  | serverCert :: _ =>
      (Some serverCert,
        bail! "Server certificate fingerprint does not match expected value"
          when match expected with Some e => negb (bool_decide (normalized_fingerprint (computeFingerprint serverCert) = e)) | None => false end;
        bail! "Server certificate is not valid" when negb (tp_current p);
        Ok tt)
  end.

(** With an expected fingerprint only a certificate with that digest is trusted. *)
Lemma trusted_is_pinned fp p cert : is_blank fp = false → checkServerTrusted (Some fp) p = (Some cert, Ok tt) →
  hex_string (sha256 cert) = normalized_fingerprint fp ∧ head (tp_chain p) = Some cert.
Proof.
  intros Hb. unfold checkServerTrusted. cbn [mbind option_bind]. rewrite Hb. destruct (tp_chain p) as [|c l]; [done|].
  intros [= -> Hok]. apply bail_then in Hok as [Hm _]. rewrite negb_false_iff, bool_decide_eq_true, normalized_computed in Hm. done.
Qed.

(** Without one, or with a blank one, every current certificate is. *)
Lemma unpinned_trusts_all fp p cert l : match fp with Some fp => is_blank fp = true | None => True end →
  tp_chain p = cert :: l → tp_current p = true → checkServerTrusted fp p = (Some cert, Ok tt).
Proof.
  intros Hb Hp Hc. unfold checkServerTrusted. rewrite Hp, Hc. destruct fp as [fp|]; cbn [mbind option_bind]; [by rewrite Hb|done].
Qed.
End trust.

(** ** Which key answers a server's request ([AliasForcingKeyManager.selectAlias])

    [chain] is the certificate chain stored under the alias, as the key algorithms in
    upper case; [keyTypes] are those the server accepts. *)
Definition selectAlias (preferredAlias : string) (chain : option (list string)) (keyTypes : option (list string)) : option string :=
  chain ← chain;
  algorithm ← head chain;
  let matches type := let n := string_map (λ c, if is_ascii_lower c then ascii_of_N (N_of_ascii c - 32) else c) type in
    bool_decide (n = algorithm) || (bool_decide (n = "EC") && bool_decide (algorithm = "ECDSA"))
    || (bool_decide (n = "ECDSA") && bool_decide (algorithm = "EC")) in
  if match keyTypes with None | Some [] => true | Some l => existsb matches l end then Some preferredAlias else None.

(** ** Where a channel connects ([MtlsGrpcChannelFactory.createChannel]) *)
Definition clean_host (host : string) : string :=
  trim_end_matches (λ c, bool_decide (c = "]"%char)) (trim_start_matches (λ c, bool_decide (c = "["%char)) host).
(** [^\d+\.\d+\.\d+\.\d+$] *)
Definition looks_ipv4 (s : string) : bool :=
  match split_char "." s with
  | [a; b; c; d] => forallb (λ p, negb (str_is_empty p) && string_forall is_ascii_digit p) [a; b; c; d]
  | _ => false
  end.
Record channel_target := mkChannelTarget { ch_host : string; ch_port : Z; ch_authority : option string }.
Definition createChannel_target (host : string) (port : Z) : channel_target :=
  let cleanHost := clean_host host in
  let isIpv6 := str_contains_char ":" cleanHost in
  mkChannelTarget cleanHost port
    (if isIpv6 || looks_ipv4 cleanHost then Some (String.append "handcontrol.local:" (pretty port)) else None).

Example bracketed_ipv6 : createChannel_target "[fe80::1]" 50051 = mkChannelTarget "fe80::1" 50051 (Some "handcontrol.local:50051").
Proof. vm_compute. reflexivity. Qed.

(** ** UUIDs for witnesses: a letter and binary digits. *)
Definition worded_uuid : UuidText := {|
  uuid_to_string u := String "u" (bits_of_pos (N.succ_pos u));
  uuid_parse s := match s with String _ s => Some (Pos.pred_N (pos_of_bits s)) | EmptyString => None end;
|}.
Definition worded_java : JavaUuid := @uuid_parse worded_uuid.
Lemma worded_laws : @UuidTextLaws worded_uuid.
Proof. intros u. cbn [uuid_to_string uuid_parse worded_uuid]. by rewrite pos_of_bits_of_pos, N.pos_pred_succ. Qed.
Lemma worded_java_laws : @JavaUuidLaws worded_uuid worded_java.
Proof. exact worded_laws. Qed.
Lemma worded_visible : @UuidVisible worded_uuid.
Proof. intros u. split; [|done]. cbn. apply bits_visible. Qed.
