(* ===== verification/AndroidEnroll.v ===== *)
(** * Enrolment on Android (data/enrollment/GrpcEnrollmentRepository.kt)

    Each attempt is a function of what the network answers and of the application's
    stored state.  Coroutine suspension points at which a time limit can strike, or a
    step can throw, are numbered. *)

From S2P Require Import Prelude RustStd ThirdParty Network SessionState RelayTokens Verification Certificates Validation SessionManager Service.
From S2P Require Import Enrollment Pairing Config ClientStore Access Fs Fips180 ClientEnroll EnrollFlow Kotlin AndroidModel AndroidDb AndroidPairing.

Local Open Scope string_scope.
Local Open Scope Z_scope.

Inductive EnrollmentResult :=
  | ESuccess (clientId serverId : string)
  | EPending (requestId : string) (timeoutSeconds : Z) (verificationCode : string)
  | EError (message : string).
Record RelayEnrollmentOptions := mkRelayEnrollmentOptions {
  ro_relayUrl : string;
  ro_relayToken : string;
  ro_relayRequired : bool;
  ro_allowSelfSignedTls : bool;
  ro_pinnedCertSha256 : option string;
}.

Abbreviation Table := (list Row).
(** What the application keeps: the database and the client id of the preferences. *)
Record AppState := mkAppState { app_table : Table; app_client_id : option string }.
Definition with_table (f : Table → Table) (s : AppState) : AppState := mkAppState (f (app_table s)) (app_client_id s).
Definition saveClientId (id : string) (s : AppState) : AppState := mkAppState (app_table s) (Some id).

(** ** gRPC failures *)
Inductive GrpcCode :=
  | G_CANCELLED | G_UNKNOWN | G_INVALID_ARGUMENT | G_DEADLINE_EXCEEDED | G_NOT_FOUND | G_ALREADY_EXISTS | G_PERMISSION_DENIED
  | G_RESOURCE_EXHAUSTED | G_FAILED_PRECONDITION | G_ABORTED | G_OUT_OF_RANGE | G_UNIMPLEMENTED | G_INTERNAL | G_UNAVAILABLE
  | G_DATA_LOSS | G_UNAUTHENTICATED.
Definition grpc_code_name (c : GrpcCode) : string :=
  match c with
  | G_CANCELLED => "CANCELLED" | G_UNKNOWN => "UNKNOWN" | G_INVALID_ARGUMENT => "INVALID_ARGUMENT"
  | G_DEADLINE_EXCEEDED => "DEADLINE_EXCEEDED" | G_NOT_FOUND => "NOT_FOUND" | G_ALREADY_EXISTS => "ALREADY_EXISTS"
  | G_PERMISSION_DENIED => "PERMISSION_DENIED" | G_RESOURCE_EXHAUSTED => "RESOURCE_EXHAUSTED"
  | G_FAILED_PRECONDITION => "FAILED_PRECONDITION" | G_ABORTED => "ABORTED" | G_OUT_OF_RANGE => "OUT_OF_RANGE"
  | G_UNIMPLEMENTED => "UNIMPLEMENTED" | G_INTERNAL => "INTERNAL" | G_UNAVAILABLE => "UNAVAILABLE" | G_DATA_LOSS => "DATA_LOSS"
  | G_UNAUTHENTICATED => "UNAUTHENTICATED"
  end.
Record GrpcStatus := mkGrpcStatus { gs_code : GrpcCode; gs_description : option string }.
Definition mapGrpcError (s : GrpcStatus) : string :=
  match gs_code s with
  | G_UNAUTHENTICATED => "Authentication failed"
  | G_PERMISSION_DENIED => "Permission denied"
  | G_NOT_FOUND => "Server not found"
  | G_INVALID_ARGUMENT => "Invalid request"
  | G_DEADLINE_EXCEEDED => "Request timeout"
  | G_UNAVAILABLE => "Server unavailable"
  | c => String.append "Network error: " (default (grpc_code_name c) (gs_description s))
  end.
(** The exceptions a call can end with: a status, a failure to reach the relay with
    its text for the user, or another exception with its message. *)
Inductive call_failure := FStatus (s : GrpcStatus) | FRelay (userMessage : string) | FOther (message : option string).
Definition null_text (m : option string) : string := default "null" m.

Section enrol.
Context `{Sha256, LayoutJson, JavaUuid}.

Definition EXPIRED_MESSAGE : string := "This enrollment QR code has expired. Generate a new code and try again.".
Definition is_after (now : Z) (validUntil : option Z) : bool := match validUntil with Some t => t <? now | None => false end.

(** ** After the server said yes ([handleSuccessfulEnrollment])

    [cut] is the number of suspension points passed before the attempt is cut off:
    point 3 is the question for the server's information, 4 saving the server, 5 its
    preference, 6 the client id, 7 closing the channel, which is still within the time
    limit of a host.  [None]: an exception leaves the function. *)
Definition passes (cut : option nat) (k : nat) : bool := match cut with Some c => (k <? c)%nat | None => true end.

Record enrolled_row := mkEnrolledRow {
  en_relayEnabled : bool;
  en_relayUrl : option string;
  en_relayToken : option string;
  en_allowSelfSigned : bool;
  en_pinned : option string;
  en_relayRequired : bool;
}.
(** The relay's part of the row: the response's information first, then the code's. *)
Definition relay_columns (response : EnrollResponse) (relayOptions : option RelayEnrollmentOptions) : enrolled_row :=
  let relayInfo := es_relay_info response in
  let relayUrl := match relayInfo ≫= (λ i, take_not_blank (ri_relay_url i)) with Some u => Some u | None => ro_relayUrl <$> relayOptions end in
  let relayToken := match relayInfo ≫= (λ i, take_not_blank (ri_relay_token i)) with Some t => Some t | None => ro_relayToken <$> relayOptions end in
  let relayEnabled := negb (is_null_or_blank relayUrl) && negb (is_null_or_blank relayToken) in
  mkEnrolledRow relayEnabled relayUrl relayToken
    (if relayEnabled then default false (ro_allowSelfSignedTls <$> relayOptions) else false)
    (if relayEnabled then relayOptions ≫= (λ o, ro_pinnedCertSha256 o ≫= take_not_blank) else None)
    (default false (ri_relay_required <$> relayInfo) || default false (ro_relayRequired <$> relayOptions)).

Definition handleSuccessfulEnrollment (cut : option nat) (now : Z) (info : result string ServerInfoResponse) (response : EnrollResponse)
    (fingerprint expectedServerId : string) (allHosts : list string) (port : Z) (relayOptions : option RelayEnrollmentOptions)
    (st : AppState) : AppState * option EnrollmentResult :=
  if negb (passes cut 3) then (st, None) else
  match info with
  | Err e => (st, Some (EError (String.append "Failed to fetch server information: " e)))
  | Ok serverInfo =>
      let serverId := sir_server_id serverInfo in
      if is_blank serverId then (st, Some (EError "Server returned an invalid server ID"))
      else if bool_decide (expectedServerId ≠ serverId) then
        (st, Some (EError "Security verification failed: server ID does not match QR code"))
      else
        let r := relay_columns response relayOptions in
        if negb (passes cut 4) then (st, None) else
        let st1 := with_table (saveServer now serverId allHosts port (es_client_id response) (sir_hostname serverInfo) fingerprint
          (en_relayEnabled r) (en_relayUrl r) (en_relayToken r) (en_allowSelfSigned r) (en_pinned r) DIRECT) st in
        if negb (passes cut 5) then (st1, None) else
        let st2 := if en_relayEnabled r && en_relayRequired r
                   then with_table (dao_updateConnectionPreference serverId RELAY_ONLY) st1 else st1 in
        if negb (passes cut 6) then (st2, None) else
        (saveClientId (es_client_id response) st2, Some (ESuccess (es_client_id response) serverId))
  end.

(** ** One host *)
Record host_world := mkHostWorld {
  hw_cut : option nat;                  (* points 0 certificate, 1 channel, 2 the answer, then as above *)
  hw_now : Z;
  hw_certificate : bytes;               (* the client's own *)
  hw_peer : option TlsPeer;             (* [None]: nobody answers *)
  hw_enroll : EnrollRequest → option EnrollResponse;   (* [None]: the call fails *)
  hw_info : result string ServerInfoResponse;
}.

Definition verified_enrollment (w : host_world) (cert : bytes) (response : EnrollResponse) (expectedCertFingerprint expectedServerId : string)
    (allHosts : list string) (port : Z) (relayOptions : option RelayEnrollmentOptions) (st : AppState) : AppState * option EnrollmentResult :=
  let fingerprint := computeFingerprint cert in
  if bool_decide (fingerprint ≠ expectedCertFingerprint) then
    (st, Some (EError "Security verification failed: server certificate does not match QR code"))
  else if es_success response then
    handleSuccessfulEnrollment (hw_cut w) (hw_now w) (hw_info w) response fingerprint expectedServerId allHosts port relayOptions st
  else (st, Some (EError (es_error_message response))).

Definition tryEnrollWithHost (port : Z) (token deviceName expectedCertFingerprint expectedServerId : string) (validUntil : option Z)
    (allHosts : list string) (relayOptions : option RelayEnrollmentOptions) (w : host_world) (st : AppState)
    : AppState * option EnrollmentResult :=
  if is_after (hw_now w) validUntil then (st, Some (EError EXPIRED_MESSAGE)) else
  if negb (passes (hw_cut w) 1) then (st, None) else
  match hw_peer w with
  | None => (st, None)
  | Some peer =>
      match checkServerTrusted (Some expectedCertFingerprint) peer with
      | (_, Err _) => (st, None)
      | (None, Ok _) => (st, Some (EError "Security verification failed: could not extract server certificate"))
      | (Some cert, Ok _) =>
          match hw_enroll w (mkEnrollRequest token (hw_certificate w) deviceName) with
          | None => (st, None)
          | Some response =>
              if negb (passes (hw_cut w) 2) then (st, None) else
              let '(st', r) := verified_enrollment w cert response expectedCertFingerprint expectedServerId allHosts port relayOptions st in
              (st', if passes (hw_cut w) 7 then r else None)
          end
      end
  end.

(** ** Through the relay *)
Definition relay_error_text (f : call_failure) : string :=
  match f with
  | FRelay userMessage => String.append "Relay connection failed: " userMessage
  | FStatus s => fmt ["gRPC "; grpc_code_name (gs_code s); ": "; mapGrpcError s]
  | FOther m => String.append "Relay enrollment error: " (null_text m)
  end.
(** [rw_open]: opening the tunnel; [rw_host]: the server at its far end (there is no time
    limit here, [hw_cut] is a step that throws); [rw_failure]: what it throws. *)
Record relay_world := mkRelayWorld { rw_open : result call_failure unit; rw_host : host_world; rw_failure : call_failure }.
Definition tryEnrollViaRelay (options : RelayEnrollmentOptions) (token deviceName expectedCertFingerprint expectedServerId : string)
    (validUntil : option Z) (allHosts : list string) (port : Z) (w : relay_world) (st : AppState) : AppState * EnrollmentResult :=
  let h := rw_host w in
  let failed := EError (relay_error_text (rw_failure w)) in
  if is_after (hw_now h) validUntil then (st, EError EXPIRED_MESSAGE) else
  match java_uuid token with
  | None => (st, EError "Relay enrollment is unavailable because the enrollment token is not a UUID")
  | Some _ =>
      match rw_open w with
      | Err e => (st, EError (relay_error_text e))
      | Ok _ =>
          match checkServerTrusted (Some expectedCertFingerprint) <$> hw_peer h with
          | Some (Some cert, Ok _) =>
              match hw_enroll h (mkEnrollRequest token (hw_certificate h) deviceName) with
              | None => (st, failed)
              | Some response =>
                  let '(st', r) := verified_enrollment h cert response expectedCertFingerprint expectedServerId allHosts port (Some options) st in
                  (st', default failed r)
              end
          | _ => (st, failed)
          end
      end
  end.
(** [computeDefaultRelayAuthority] *)
Definition computeDefaultRelayAuthority (hosts : list string) (port : Z) : string :=
  let host := match head hosts with Some h => if str_is_empty (ktrim h) then "handcontrol.local" else ktrim h | None => "handcontrol.local" end in
  let authority := if str_contains_char ":" host && negb (starts_with "[" host) then fmt ["["; host; "]"] else host in
  fmt [authority; ":"; pretty port].

(** ** All hosts ([enrollWithToken])

    The first two hosts in turn, then the others at once.  Of these [order] lists those
    that came to their end, in that order; the others were cancelled when an earlier
    one in the list had succeeded. *)
Record enrol_world := mkEnrolWorld {
  ew_now : Z;
  ew_hosts : list (string * host_world);
  ew_order : list nat;
  ew_relay : relay_world;
}.

Definition no_host_message (hosts : list string) : string :=
  fmt ["Failed to connect to any of "; pretty (Z.of_nat (length hosts)); " IP addresses"].

Fixpoint run_parallel (try : host_world → AppState → AppState * option EnrollmentResult) (ws : list host_world) (order : list nat)
    (st : AppState) : AppState * list (nat * EnrollmentResult) :=
  match order with
  | [] => (st, [])
  | i :: order' =>
      match ws !! i with
      | None => run_parallel try ws order' st
      | Some w =>
          let '(st1, r) := try w st in
          let '(st2, rs) := run_parallel try ws order' st1 in
          (st2, match r with Some r => (i, r) :: rs | None => rs end)
      end
  end.
Definition is_success (r : EnrollmentResult) : bool := match r with ESuccess _ _ => true | _ => false end.
(** The success of the earliest host in the list. *)
Definition first_success (n : nat) (rs : list (nat * EnrollmentResult)) : option EnrollmentResult :=
  head (omap (λ i, head (omap (λ jr, if bool_decide (jr.1 = i) && is_success jr.2 then Some jr.2 else None) rs)) (seq 0 n)).

(** One host in turn: the new [lastError], and the success if it is one. *)
Definition in_turn (try : host_world → AppState → AppState * option EnrollmentResult) (w : option host_world) (st : AppState)
    (lastError : option EnrollmentResult) : AppState * option EnrollmentResult * option EnrollmentResult :=
  match w with
  | None => (st, lastError, None)
  | Some hw =>
      match try hw st with
      | (st', Some r) => if is_success r then (st', lastError, Some r) else (st', Some r, None)
      | (st', None) => (st', lastError, None)
      end
  end.
(** The remaining hosts at once. *)
Definition in_parallel (try : host_world → AppState → AppState * option EnrollmentResult) (hosts : list string) (ws : list host_world)
    (order : list nat) (st : AppState) : AppState * option EnrollmentResult :=
  match ws with
  | [] => (st, None)
  | _ => let '(st', rs) := run_parallel try ws order st in
         (st', Some (default (EError (no_host_message hosts)) (first_success (length ws) rs)))
  end.

(** [None]: a [require] failed. *)
Definition enrollWithToken (port : Z) (token deviceName expectedCertFingerprint expectedServerId : string) (validUntil : option Z)
    (relayOptions : option RelayEnrollmentOptions) (w : enrol_world) (st : AppState) : option (AppState * EnrollmentResult) :=
  let hosts := (ew_hosts w).*1 in
  let worlds := (ew_hosts w).*2 in
  if bool_decide (hosts = []) || str_is_empty expectedCertFingerprint || str_is_empty expectedServerId then None else
  if is_after (ew_now w) validUntil then Some (st, EError EXPIRED_MESSAGE) else
  let try := tryEnrollWithHost port token deviceName expectedCertFingerprint expectedServerId validUntil hosts relayOptions in
  let '(st1, err1, ok1) := in_turn try (worlds !! 0%nat) st None in
  match ok1 with
  | Some r => Some (st1, r)
  | None =>
      let '(st2, err2, ok2) := in_turn try (worlds !! 1%nat) st1 err1 in
      match ok2 with
      | Some r => Some (st2, r)
      | None =>
          let '(st3, parallelResult) := in_parallel try hosts (drop 2 worlds) (ew_order w) st2 in
          let lastError := match parallelResult with Some r => Some r | None => err2 end in
          if default false (is_success <$> parallelResult) then
            Some (st3, default (EError (no_host_message hosts)) parallelResult)
          else
            match relayOptions with
            | Some options => Some (tryEnrollViaRelay options token deviceName expectedCertFingerprint expectedServerId validUntil hosts
                                      port (ew_relay w) st3)
            | None => Some (st3, default (EError (no_host_message hosts)) lastError)
            end
      end
  end.

(** ** Approval at the server's machine ([requestApproval]) *)
Record approval_world := mkApprovalWorld {
  aw_certificate : bytes;
  aw_peer : option TlsPeer;
  aw_info : option ServerInfoResponse;      (* [None]: the call fails, which is only logged *)
  aw_pairing : RequestPairingRequest → result call_failure RequestPairingResponse;
  aw_failure : call_failure;                (* of a call when TLS fails *)
}.
Definition approval_error_text (f : call_failure) : string :=
  match f with
  | FStatus s => mapGrpcError s
  | FRelay m => String.append "Network error: " m
  | FOther m => String.append "Network error: " (null_text m)
  end.
(** The checks on the server's answer. *)
Definition approval_answer (certificate serverCert : bytes) (serverId : string) (response : RequestPairingResponse) : EnrollmentResult :=
  let fp := rps_server_cert_fingerprint response in
  let verificationCode := generate certificate serverCert serverId (rps_verification_nonce response) in
  if negb (str_is_empty (rps_error_message response)) then EError (rps_error_message response)
  else if bool_decide (rps_verification_nonce response = []) then EError "Invalid server response: missing nonce"
  else if bool_decide (fp ≠ []) && bool_decide (fp ≠ sha256 serverCert) then EError "Security verification failed"
  else if negb (str_is_empty (rps_verification_code response)) && bool_decide (rps_verification_code response ≠ verificationCode) then
    EError "Security verification failed"
  else if rps_pending response then EPending (rps_pairing_request_id response) (rps_timeout_seconds response) verificationCode
  else EError "Unexpected server response".
Definition requestApproval (deviceName : string) (deviceModel serverId : option string) (w : approval_world) : EnrollmentResult :=
  let '(captured, up) := match aw_peer w with
    | Some p => let '(c, r) := checkServerTrusted None p in (c, is_ok r)
    | None => (None, false)
    end in
  let info := if up then aw_info w else None in
  let resolvedServerId := match info ≫= (λ i, take_not_blank (sir_server_id i)) with Some i => Some i | None => serverId end in
  if is_null_or_blank resolvedServerId then EError "Server did not provide an ID for pairing" else
  match captured with
  | None => EError "Failed to extract server certificate"
  | Some serverCert =>
      let request := mkRequestPairingRequest deviceName (default "" deviceModel) (aw_certificate w) "" in
      match (if up then aw_pairing w request else Err (aw_failure w)) with
      | Err e => EError (approval_error_text e)
      | Ok response => approval_answer (aw_certificate w) serverCert (default "" resolvedServerId) response
      end
  end.

(** ** Asking whether it was approved ([pollApprovalStatus])

    Each question opens a connection of its own.  [pw_cut] as above: a step that throws,
    with [pw_failure]. *)
Record poll_world := mkPollWorld {
  pw_now : Z;
  pw_cut : option nat;
  pw_failure : call_failure;
  pw_peer : option TlsPeer;
  pw_status : result call_failure CheckPairingStatusResponse;
  pw_info : result (option string) ServerInfoResponse;
}.
Definition failure_message (f : call_failure) : option string :=
  match f with FStatus s => gs_description s | FRelay m => Some m | FOther m => m end.
Definition approved_server (host : string) (port : Z) (w : poll_world) (response : CheckPairingStatusResponse) (captured : option bytes)
    (st : AppState) : AppState * result (option string) string :=
  match pw_info w with
  | Err e => (st, Err e)
  | Ok serverInfo =>
      let serverId := sir_server_id serverInfo in
      let fingerprint := match captured with Some der => computeFingerprint der | None => "" end in
      let relay := i ← cps_relay_info response; if str_is_empty (ri_relay_url i) then None else Some i in
      if negb (passes (pw_cut w) 4) then (st, Err (failure_message (pw_failure w))) else
      let st1 := with_table (saveServer (pw_now w) serverId [host] port (cps_client_id response) (sir_hostname serverInfo) fingerprint
        (bool_decide (is_Some relay)) (ri_relay_url <$> relay) (ri_relay_token <$> relay) false None DIRECT) st in
      if default false (ri_relay_required <$> relay) then
        if negb (passes (pw_cut w) 5) then (st1, Err (failure_message (pw_failure w)))
        else (with_table (dao_updateConnectionPreference serverId RELAY_ONLY) st1, Ok serverId)
      else (st1, Ok serverId)
  end.
Definition pollApprovalStatus (host : string) (port : Z) (requestId : string) (w : poll_world) (st : AppState) : AppState * EnrollmentResult :=
  let tls := checkServerTrusted None <$> pw_peer w in
  match (match tls with Some (_, Ok _) => pw_status w | _ => Err (pw_failure w) end) with
  | Err e => (st, EError (approval_error_text e))
  | Ok response =>
      if cps_status response =? 2 then
        match approved_server host port w response (tls ≫= fst) st with
        | (st1, Err m) => (st1, EError (String.append "Failed to fetch server information: " (null_text m)))
        | (st1, Ok serverId) =>
            if negb (passes (pw_cut w) 6) then (st1, EError (approval_error_text (pw_failure w)))
            else (saveClientId (cps_client_id response) st1, ESuccess (cps_client_id response) serverId)
        end
      else (st, if cps_status response =? 1 then EPending requestId 0 ""
                else if cps_status response =? 3 then EError "Pairing rejected by server"
                else if cps_status response =? 4 then EError "Pairing request timed out"
                else EError "Unknown pairing status")
  end.
Definition activeClientCertificate (certificate : bytes) (st : AppState) : option bytes :=
  match app_client_id st with Some _ => Some certificate | None => None end.

(** ** What an enrolment may change *)
Lemma find_row_insert e t i : es_remoteLayoutSpec e = None →
  find_row i (insertServer e t) = if decide (i = es_serverId e) then Some (row_of None e) else find_row i t.
Proof.
  intros Hl. unfold insertServer. rewrite Hl. cbn [fromRemoteLayoutSpec]. rewrite find_row_snoc, find_row_delete. cbn [row_of row_serverId].
  destruct (decide (i = es_serverId e)) as [->|Hne]; [by rewrite decide_True by done|].
  destruct (find_row i t); [done|]. by rewrite decide_False by done.
Qed.

(** Between two states only the row of [id] changed, and what is there now has [V]. *)
Definition only_row (id : string) (V : EnrolledServerEntity → Prop) (st st' : AppState) : Prop :=
  (∀ i, i ≠ id → getServerById i (app_table st') = getServerById i (app_table st)) ∧
  (getServerById id (app_table st') = getServerById id (app_table st) ∨ ∃ e, getServerById id (app_table st') = Some e ∧ V e).
Definition has_row (id : string) (V : EnrolledServerEntity → Prop) (st : AppState) : Prop :=
  ∃ e, getServerById id (app_table st) = Some e ∧ V e.

Lemma only_row_refl id V st : only_row id V st st.
Proof. split; [done|by left]. Qed.
Lemma only_row_trans id V st1 st2 st3 : only_row id V st1 st2 → only_row id V st2 st3 → only_row id V st1 st3.
Proof.
  intros [K1 K2] [K3 K4]. split; [intros i Hi; by rewrite K3, K1|]. destruct K4 as [->|?]; [|by right].
  destruct K2 as [->|?]; [by left|by right].
Qed.
Lemma only_row_keeps id V st st' : only_row id V st st' → has_row id V st → has_row id V st'.
Proof. intros [_ [E|?]] He; [|done]. unfold has_row. by rewrite E. Qed.
Lemma only_row_mono id (V V' : EnrolledServerEntity → Prop) st st' : (∀ e, V e → V' e) → only_row id V st st' → only_row id V' st st'.
Proof. intros HV [K1 K2]. split; [done|]. destruct K2 as [?|(e & ? & ?)]; [by left|right; exists e; auto]. Qed.

(** A step of an enrolment: [only_row], and after a success the row is there. *)
Definition enrol_step (id : string) (V : EnrolledServerEntity → Prop) (st st' : AppState) (r : option EnrollmentResult) : Prop :=
  only_row id V st st' ∧ ∀ c s, r = Some (ESuccess c s) → s = id ∧ has_row id V st'.
Lemma enrol_step_none id V st st' : only_row id V st st' → enrol_step id V st st' None.
Proof. by split. Qed.
Lemma enrol_step_error id V st e : enrol_step id V st st (Some (EError e)).
Proof. split; [apply only_row_refl|done]. Qed.

Lemma enrol_step_after id V st1 st2 st3 r : only_row id V st1 st2 → enrol_step id V st2 st3 r → enrol_step id V st1 st3 r.
Proof. intros K1 [K2 K3]. split; [by eapply only_row_trans|done]. Qed.

Lemma saved_row id V now ips port cid name fp re ru rt rs rp mode st :
  (∀ e, es_certFingerprint e = fp → es_clientId e = cid → es_serverPort e = port → V e) →
  let st' := with_table (saveServer now id ips port cid name fp re ru rt rs rp mode) st in only_row id V st st' ∧ has_row id V st'.
Proof.
  intros HV st'. assert (has_row id V st') as Hrow.
  { eexists. split.
    - unfold st', getServerById, saveServer. cbn [app_table with_table]. rewrite find_row_insert by done. cbn [saved_entity es_serverId].
      by rewrite decide_True by done.
    - by apply HV. }
  split; [|done]. split; [|by right]. intros i Hi. unfold st', getServerById, saveServer. cbn [app_table with_table].
  rewrite find_row_insert by done. cbn [saved_entity es_serverId]. by rewrite decide_False.
Qed.
Lemma preference_row id V p st : (∀ e, V e → V (with_preference p e)) → has_row id V st →
  let st' := with_table (dao_updateConnectionPreference id p) st in only_row id V st st' ∧ has_row id V st'.
Proof.
  intros HV (e & He & HVe) st'. assert (∀ i, getServerById i (app_table st') =
    (if decide (i = id) then with_preference p else λ e, e) <$> getServerById i (app_table st)) as Hget.
  { intros i. unfold st'. cbn [app_table with_table]. rewrite <-!table_map_lookup. unfold dao_updateConnectionPreference.
    rewrite (table_map_update id _ (with_preference p)).
    - case_decide as E; [subst; by rewrite lookup_alter_eq|rewrite lookup_alter_ne by done; by destruct (_ !! i)].
    - done.
    - intros r. unfold entity_of, with_preference. cbn. by rewrite toConnectionPreference_from. }
  assert (has_row id V st') as Hrow by (exists (with_preference p e); rewrite Hget, decide_True, He by done; auto).
  split; [|done]. split; [|by right]. intros i Hi. rewrite Hget, decide_False by done. by destruct (getServerById i _).
Qed.

Lemma handle_step (V : EnrolledServerEntity → Prop) cut now info response fp id hosts port relay st :
  (∀ e, es_certFingerprint e = fp → es_clientId e = es_client_id response → V e) →
  (∀ e p, V e → V (with_preference p e)) →
  let '(st', r) := handleSuccessfulEnrollment cut now info response fp id hosts port relay st in enrol_step id V st st' r.
Proof.
  intros HV HP. unfold handleSuccessfulEnrollment. destruct (passes cut 3); cbn [negb]; [|apply enrol_step_none, only_row_refl].
  destruct info as [i|e]; [|apply enrol_step_error]. destruct (is_blank _); [apply enrol_step_error|].
  case_bool_decide as Hid; [apply enrol_step_error|]. rewrite <-Hid. set (r := relay_columns _ _).
  destruct (passes cut 4); cbn [negb]; [|apply enrol_step_none, only_row_refl].
  match goal with |- context [with_table ?f st] => set (st1 := with_table f st) end.
  destruct (saved_row id V now hosts port (es_client_id response) (sir_hostname i) fp (en_relayEnabled r) (en_relayUrl r)
    (en_relayToken r) (en_allowSelfSigned r) (en_pinned r) DIRECT st (λ e Ef Ec _, HV e Ef Ec)) as [K1 R1]. fold st1 in K1, R1.
  destruct (passes cut 5); cbn [negb]; [|by apply enrol_step_none].
  set (st2 := if en_relayEnabled r && en_relayRequired r then _ else st1). assert (only_row id V st st2 ∧ has_row id V st2) as [K2 R2].
  { unfold st2. destruct (_ && _); [|done]. destruct (preference_row id V RELAY_ONLY st1 (λ e, HP e _) R1) as [K2 R2].
    split; [by eapply only_row_trans|done]. }
  destruct (passes cut 6); cbn [negb]; [|by apply enrol_step_none].
  split; [done|]. by intros c s [= <- <-].
Qed.

Lemma handle_ok now info response fp hosts port relay st : let id := sir_server_id info in is_blank id = false →
  ∃ st', handleSuccessfulEnrollment None now (Ok info) response fp id hosts port relay st = (st', Some (ESuccess (es_client_id response) id)) ∧
    app_client_id st' = Some (es_client_id response) ∧
    has_row id (λ e, es_certFingerprint e = fp ∧ es_clientId e = es_client_id response ∧ es_serverPort e = port) st'.
Proof.
  intros id Hb. unfold handleSuccessfulEnrollment. cbn [passes negb]. fold id. rewrite Hb, bool_decide_ne_false_2 by done.
  set (r := relay_columns _ _). set (V e := es_certFingerprint e = fp ∧ es_clientId e = es_client_id response ∧ es_serverPort e = port).
  destruct (saved_row id V now hosts port (es_client_id response) (sir_hostname info) fp (en_relayEnabled r) (en_relayUrl r)
    (en_relayToken r) (en_allowSelfSigned r) (en_pinned r) DIRECT st (λ e Ef Ec Ep, conj Ef (conj Ec Ep))) as [_ R1].
  eexists. split; [reflexivity|]. split; [done|]. destruct (_ && _); [|done].
  apply (preference_row id V RELAY_ONLY _ ltac:(by intros [])) in R1 as [_ R1]. done.
Qed.

(** The row names the pinned certificate, and one of the parties in [ws] that presented
    this certificate granted the client id for this very request. *)
Definition vouched (fp token name : string) (ws : list host_world) (e : EnrolledServerEntity) : Prop :=
  es_certFingerprint e = fp ∧ ∃ h p cert response, h ∈ ws ∧ hw_peer h = Some p ∧ head (tp_chain p) = Some cert ∧
    computeFingerprint cert = fp ∧ hw_enroll h (mkEnrollRequest token (hw_certificate h) name) = Some response ∧
    es_success response = true ∧ es_clientId e = es_client_id response.

Section one_code.
Context (port : Z) (token name fp id : string) (validUntil : option Z) (hosts : list string).

Lemma checkServerTrusted_head e p cert r : checkServerTrusted e p = (Some cert, r) → head (tp_chain p) = Some cert.
Proof. unfold checkServerTrusted. destruct (tp_chain p); [done|]. by intros [= -> _]. Qed.

Lemma verified_step ws h p cert response relay st :
  h ∈ ws → hw_peer h = Some p → head (tp_chain p) = Some cert →
  hw_enroll h (mkEnrollRequest token (hw_certificate h) name) = Some response →
  let '(st', r) := verified_enrollment h cert response fp id hosts port relay st in enrol_step id (vouched fp token name ws) st st' r.
Proof.
  intros Hh Hp Hc He. unfold verified_enrollment. case_bool_decide as Hfp; [apply enrol_step_error|].
  destruct (es_success response) eqn:Hs; [|apply enrol_step_error]. apply handle_step.
  - intros e E1 E2. split; [congruence|]. exists h, p, cert, response. by split_and!.
  - intros e q. by destruct e.
Qed.

Lemma host_step ws relay h st : h ∈ ws →
  let '(st', r) := tryEnrollWithHost port token name fp id validUntil hosts relay h st in enrol_step id (vouched fp token name ws) st st' r.
Proof.
  intros Hh. unfold tryEnrollWithHost. destruct (is_after _ _); [apply enrol_step_error|].
  destruct (passes _ 1); cbn [negb]; [|apply enrol_step_none, only_row_refl].
  destruct (hw_peer h) as [p|] eqn:Hp; [|apply enrol_step_none, only_row_refl].
  destruct (checkServerTrusted _ p) as [[cert|] [[]|e]] eqn:Hc; try (apply enrol_step_none, only_row_refl); [|apply enrol_step_error].
  apply checkServerTrusted_head in Hc. destruct (hw_enroll h _) as [response|] eqn:He; [|apply enrol_step_none, only_row_refl].
  destruct (passes _ 2); cbn [negb]; [|apply enrol_step_none, only_row_refl].
  pose proof (verified_step ws h p cert response relay st Hh Hp Hc He) as Hv. destruct (verified_enrollment _ _ _ _ _ _ _ _ _) as [st' r].
  destruct (passes _ 7); [done|]. apply enrol_step_none, Hv.
Qed.

Lemma relay_step ws options w st : rw_host w ∈ ws →
  let '(st', r) := tryEnrollViaRelay options token name fp id validUntil hosts port w st in
  enrol_step id (vouched fp token name ws) st st' (Some r).
Proof.
  intros Hh. unfold tryEnrollViaRelay. destruct (is_after _ _); [apply enrol_step_error|].
  destruct (java_uuid token); [|apply enrol_step_error]. destruct (rw_open w) as [[]|]; [|apply enrol_step_error].
  destruct (hw_peer (rw_host w)) as [p|] eqn:Hp; cbn [fmap option_fmap option_map]; [|apply enrol_step_error].
  destruct (checkServerTrusted _ p) as [[cert|] [[]|e]] eqn:Hc; try apply enrol_step_error.
  apply checkServerTrusted_head in Hc. destruct (hw_enroll _ _) as [response|] eqn:He; [|apply enrol_step_error].
  pose proof (verified_step ws (rw_host w) p cert response (Some options) st Hh Hp Hc He) as Hv.
  destruct (verified_enrollment _ _ _ _ _ _ _ _ _) as [st' [r|]]; [done|]. split; [apply Hv|done].
Qed.

Lemma parallel_step V try ws order st :
  (∀ h st, h ∈ ws → let '(st', r) := try h st in enrol_step id V st st' r) →
  let '(st', rs) := run_parallel try ws order st in
  only_row id V st st' ∧ ∀ i c s, (i, ESuccess c s) ∈ rs → s = id ∧ has_row id V st'.
Proof.
  intros Htry. revert st. induction order as [|i order IH]; intros st; cbn [run_parallel].
  { split; [apply only_row_refl|]. intros i c s Hi. by apply not_elem_of_nil in Hi. }
  destruct (ws !! i) as [h|] eqn:Hi; [|apply IH].
  specialize (Htry h st (list_elem_of_lookup_2 _ _ _ Hi)). destruct (try h st) as [st1 r]. destruct Htry as [K1 R1].
  specialize (IH st1). destruct (run_parallel try ws order st1) as [st2 rs]. destruct IH as [K2 R2].
  split; [by eapply only_row_trans|]. intros j c s Hj. destruct r as [r|]; [|by eapply R2].
  apply elem_of_cons in Hj as [[= -> <-]|Hj]; [|by eapply R2].
  destruct (R1 c s eq_refl) as [-> Hrow]. split; [done|by eapply only_row_keeps].
Qed.

Lemma first_success_elem n rs r : first_success n rs = Some r → is_success r = true ∧ ∃ i, (i, r) ∈ rs.
Proof.
  unfold first_success. intros Hr. apply head_Some in Hr as [l Hl].
  assert (r ∈ omap (λ i, head (omap (λ jr, if bool_decide (jr.1 = i) && is_success jr.2 then Some jr.2 else None) rs)) (seq 0 n)) as Hin
    by (rewrite Hl; left).
  apply list_elem_of_omap in Hin as (i & _ & Hi). apply head_Some in Hi as [l' Hl'].
  assert (r ∈ omap (λ jr : nat * EnrollmentResult, if bool_decide (jr.1 = i) && is_success jr.2 then Some jr.2 else None) rs) as Hin
    by (rewrite Hl'; left).
  apply list_elem_of_omap in Hin as ([j q] & Hq & Hs). cbn in Hs. destruct (bool_decide (j = i)), (is_success q) eqn:E; try done.
  cbn in Hs. injection Hs as <-. eauto.
Qed.
Lemma in_turn_step V try w st err : (∀ h s, w = Some h → let '(s', x) := try h s in enrol_step id V s s' x) →
  default false (is_success <$> err) = false →
  let '(st', err', ok) := in_turn try w st err in enrol_step id V st st' ok ∧ default false (is_success <$> err') = false.
Proof.
  intros Htry Herr. unfold in_turn. destruct w as [h|]; [|split; [apply enrol_step_none, only_row_refl|done]].
  specialize (Htry h st eq_refl). destruct (try h st) as [st' [r|]]; [|done]. destruct (is_success r) eqn:E; [done|].
  split; [apply enrol_step_none, Htry|done].
Qed.
Lemma in_parallel_step V try names ws order st :
  (∀ h s, h ∈ ws → let '(s', x) := try h s in enrol_step id V s s' x) →
  let '(st', r) := in_parallel try names ws order st in enrol_step id V st st' r.
Proof.
  intros Htry. unfold in_parallel. pose proof (parallel_step V try ws order st Htry) as Hp.
  destruct ws as [|h ws]; [apply enrol_step_none, only_row_refl|]. destruct (run_parallel _ _ _ _) as [st' rs]. destruct Hp as [K1 K2].
  split; [done|]. intros c s [= E]. destruct (first_success _ rs) as [r|] eqn:F; cbn in E; [|done]. subst r.
  apply first_success_elem in F as (_ & i & Hi). by eapply K2.
Qed.
End one_code.

(** The parties an enrolment can talk to. *)
Definition parties (w : enrol_world) : list host_world := ((ew_hosts w).*2 ++ [rw_host (ew_relay w)])%list.

(** C11: An enrolment with a QR code trusts nobody but the holder of the code's
    certificate.  Whatever the hosts and the relay answer, in whatever order the parallel
    attempts end and wherever a time limit or an exception cuts them off, the only row of
    the database that can change is that of the server the code names, and a changed row
    carries the code's fingerprint and a client id granted, for the code's token, by a
    party that presented a certificate with this fingerprint.  If the enrolment reports
    success, it is for that server and the row is there. *)
Theorem android_enrolment_pins_the_code port token name fp id validUntil relay w st st' r :
  enrollWithToken port token name fp id validUntil relay w st = Some (st', r) →
  (∀ i, i ≠ id → getServerById i (app_table st') = getServerById i (app_table st)) ∧
  (getServerById id (app_table st') = getServerById id (app_table st) ∨ has_row id (vouched fp token name (parties w)) st') ∧
  (∀ c s, r = ESuccess c s → s = id ∧ has_row id (vouched fp token name (parties w)) st').
Proof.
  intros Hrun. set (V := vouched fp token name (parties w)). enough (enrol_step id V st st' (Some r)) as [[K1 K2] K3].
  { split_and!; [done..|]. intros c s ->. by apply (K3 c s). }
  revert Hrun. unfold enrollWithToken. destruct (_ || _); [done|]. destruct (is_after _ _); [intros [= <- <-]; apply enrol_step_error|].
  set (hosts := (ew_hosts w).*1). set (try := tryEnrollWithHost port token name fp id validUntil hosts relay).
  assert (∀ h s, h ∈ (ew_hosts w).*2 → let '(s', x) := try h s in enrol_step id V s s' x) as Htry.
  { intros h s Hh. apply host_step. unfold parties. set_solver. }
  assert (∀ k h s, (ew_hosts w).*2 !! k = Some h → let '(s', x) := try h s in enrol_step id V s s' x) as Hk
    by (intros k h s ?%list_elem_of_lookup_2; by apply Htry).
  pose proof (in_turn_step id V try _ st None (Hk 0%nat) eq_refl) as S1.
  destruct (in_turn _ _ _ _) as [[st1 err1] ok1]. destruct S1 as [S1 E1].
  destruct ok1 as [x|]; [by intros [= <- <-]|].
  pose proof (in_turn_step id V try _ st1 err1 (Hk 1%nat) E1) as S2.
  destruct (in_turn _ _ _ _) as [[st2 err2] ok2]. destruct S2 as [S2 E2].
  apply (enrol_step_after _ _ _ _ _ _ (proj1 S1)) in S2. destruct ok2 as [x|]; [by intros [= <- <-]|].
  pose proof (in_parallel_step id V try hosts (drop 2 (ew_hosts w).*2) (ew_order w) st2) as S3.
  destruct (in_parallel _ _ _ _ _) as [st3 pr]. specialize (S3 ltac:(intros h s Hh; apply Htry; rewrite <-(take_drop 2 (ew_hosts w).*2); apply elem_of_app; by right)).
  apply (enrol_step_after _ _ _ _ _ _ (proj1 S2)) in S3. destruct (default false (is_success <$> pr)) eqn:Hs.
  { destruct pr as [x|]; [|done]. by intros [= <- <-]. }
  destruct relay as [options|].
  - pose proof (relay_step port token name fp id validUntil hosts (parties w) options (ew_relay w) st3 ltac:(unfold parties; set_solver)) as S4.
    intros [= E]. rewrite E in S4. by apply (enrol_step_after _ _ _ _ _ _ (proj1 S3)) in S4.
  - intros [= <- <-]. split; [apply S3|]. intros c s [= E]. destruct pr as [x|]; [|destruct err2 as [x|]; [|done]]; cbn in E; by subst x.
Qed.
End enrol.

(** ** Approval against the server *)
Section approval.
Context `{Sha256Laws, LayoutJson, !UuidText, !JavaUuid, !JavaUuidLaws, !UuidVisible}.

(** Approval works only when two ways to read a digest happen to agree.  The phone
    reaches the server itself and the server takes its pairing request, so a request is
    pending there with the code the server computed.  The phone computes its own code
    from the same digest, but takes the first decimal digits of its hexadecimal text
    where the server takes its first four bytes modulo a million.  The phone goes on to
    wait if and only if the two codes are equal; otherwise it reports a failed security
    check and leaves the request pending. *)
Lemma android_approval_needs_equal_codes pi c sv sv1 resp name model hint w p info :
  cert_wf (sv_server_cert sv) → pi_nonce pi ≠ [] →
  aw_peer w = Some p → head (tp_chain p) = Some (sc_cert_der (sv_server_cert sv)) → tp_current p = true →
  aw_info w = Some info → sir_server_id info = uuid_to_string (sv_server_id sv) →
  let request := mkRequestPairingRequest name (default "" model) (aw_certificate w) "" in
  request_pairing pi c request sv = Some (sv1, Ok resp) → rps_pending resp = true → aw_pairing w request = Ok resp →
  let hash := sha256 (sha256 (aw_certificate w) ++ sha256 (sc_cert_der (sv_server_cert sv)) ++ uuid_as_bytes (sv_server_id sv) ++ pi_nonce pi)%list in
  ∃ r, pm_requests (sv_pairing_manager sv1) !! pi_request_id pi = Some r ∧ pr_status r = Pending ∧
    code_of_hash hash = Some (pr_verification_code r) ∧
    requestApproval name model hint w =
      if bool_decide (pr_verification_code r = android_code hash)
      then EPending (pi_request_id pi) (rps_timeout_seconds resp) (pr_verification_code r)
      else EError "Security verification failed".
Proof.
  intros Hwf Hn Hp Hhead Hcur Hinfo Hsid request Hreq Hpend Hrpc hash. unfold request_pairing in Hreq.
  destruct (negb _); [by simplify_eq|]. case_bool_decide; [done|]. cbn [request rpr_client_certificate rpr_verification_code] in Hreq.
  unfold generate_verification_code in Hreq. fold hash in Hreq.
  destruct (code_of_hash hash) as [code|] eqn:Hcode; [|done]. cbn [mbind option_bind str_is_empty negb andb] in Hreq.
  unfold create_request in Hreq. destruct (PairingRequest_new _ _ _ _ _ _ _ _) as [r|] eqn:Hr; [|done].
  cbn [mbind option_bind] in Hreq. unfold PairingRequest_new in Hr. destruct (odt_add _ _); [|done]. cbn in Hr. injection Hr as <-.
  cbn [pr_request_id] in Hreq. injection Hreq as <- <-. eexists. split; [cbn; apply lookup_insert_eq|].
  cbn [pr_status pr_verification_code]. split_and!; [done..|]. unfold requestApproval. rewrite Hp, Hinfo.
  unfold checkServerTrusted. destruct (tp_chain p) as [|cert l]; [done|]. injection Hhead as ->. rewrite Hcur.
  cbn [mbind option_bind bail_if result_bind negb is_ok]. unfold take_not_blank. rewrite Hsid, uuid_not_blank.
  cbn [is_null_or_blank default from_option]. rewrite uuid_not_blank. fold request. rewrite Hrpc.
  unfold approval_answer. cbn [rps_error_message rps_verification_nonce rps_server_cert_fingerprint rps_verification_code rps_pending
    rps_pairing_request_id rps_timeout_seconds str_is_empty negb].
  rewrite bool_decide_eq_false_2 by done. rewrite Hwf. unfold compute_fingerprint. rewrite (bool_decide_eq_false_2 (sha256 ?[x] ≠ sha256 ?x)) by (intros E; by apply E).
  rewrite andb_false_r. unfold generate. cbn [mbind option_bind from_option id]. rewrite same_hash. fold hash.
  assert (str_is_empty code = false) as ->.
  { revert Hcode. unfold code_of_hash. destruct hash as [|? [|? [|? [|? ?]]]]; try done. intros [= <-]. by destruct (pad3 _). }
  cbn [negb andb]. destruct (decide (code = android_code hash)) as [<-|E]; [|by rewrite bool_decide_eq_true_2, bool_decide_eq_false_2].
  by rewrite bool_decide_ne_false_2, bool_decide_eq_true_2.
Qed.

(** Approval trusts whoever says it was given.  The question whether a request was
    approved goes over a connection of its own on which any certificate is accepted; the
    answer "approved" is enough for the phone to store the server under the id the
    same party names and to pin the certificate of this connection, which need not be
    the one the verification code was computed from. *)
Lemma android_approval_pins_the_poller host port id w st p cert rest response info :
  pw_peer w = Some p → tp_chain p = cert :: rest → tp_current p = true →
  pw_status w = Ok response → cps_status response = 2 → pw_info w = Ok info → pw_cut w = None →
  ∃ st' e, pollApprovalStatus host port id w st = (st', ESuccess (cps_client_id response) (sir_server_id info)) ∧
    app_client_id st' = Some (cps_client_id response) ∧ getServerById (sir_server_id info) (app_table st') = Some e ∧
    es_certFingerprint e = computeFingerprint cert ∧ es_clientId e = cps_client_id response.
Proof.
  intros Hp Hchain Hcur Hst Happ Hinfo Hcut. unfold pollApprovalStatus. rewrite Hp. cbn [fmap option_fmap option_map].
  rewrite (unpinned_trusts_all None p cert rest I Hchain Hcur). cbn [mbind option_bind fst]. rewrite Hst, Happ. cbn [Z.eqb Pos.eqb].
  unfold approved_server. rewrite Hinfo, Hcut. cbn [passes negb]. set (relay := cps_relay_info response ≫= _).
  set (V e := es_certFingerprint e = computeFingerprint cert ∧ es_clientId e = cps_client_id response).
  destruct (saved_row (sir_server_id info) V (pw_now w) [host] port (cps_client_id response) (sir_hostname info) (computeFingerprint cert)
    (bool_decide (is_Some relay)) (ri_relay_url <$> relay) (ri_relay_token <$> relay) false None DIRECT st) as [_ Hrow]; [done|].
  match type of Hrow with has_row _ _ ?s => set (st1 := s) in * end. fold st1. destruct (default false _).
  - destruct (preference_row (sir_server_id info) V RELAY_ONLY st1) as [_ (e & He & HV)]; [by intros []|done|].
    eexists _, e. split; [reflexivity|]. split_and!; [done|exact He|apply HV..].
  - destruct Hrow as (e & He & HV). eexists _, e. split; [reflexivity|]. split_and!; [done|exact He|apply HV..].
Qed.
End approval.

(** ** Witnesses *)
#[local] Existing Instance demo_layout_json.
#[local] Existing Instance Fips.fips_sha256.
#[local] Existing Instance Fips.fips_sha256_laws.
#[local] Existing Instance worded_uuid.
#[local] Existing Instance worded_java.
#[local] Existing Instance worded_java_laws.
#[local] Existing Instance worded_visible.
#[local] Existing Instance demo_tokens.

#[local] Strategy 1000 [Fips.fips_sha256].

(** The first host does not answer, the second has another certificate, the third is the
    server, the fourth grants the request as well but is cut off before it says so. *)
Definition server_key : bytes := Fips.ascii_bytes "server".
Definition granting (cut : option nat) (id : string) (der : bytes) : host_world :=
  mkHostWorld cut 0 [x01] (Some (mkTlsPeer [der] true)) (λ _, Some (mkEnrollResponse true id "" None))
    (Ok (mkServerInfoResponse "home" "den" "1.0" "linux")).
Definition four_hosts : enrol_world :=
  mkEnrolWorld 0 [("10.0.0.1", mkHostWorld None 0 [x01] None (λ _, None) (Err "")); ("10.0.0.2", granting None "evil" [x02]);
                  ("10.0.0.3", granting None "me" server_key); ("10.0.0.4", granting (Some 7%nat) "me too" server_key)] [1%nat; 0%nat]
    (mkRelayWorld (Err (FRelay "unreachable")) (granting None "" []) (FOther None)).
Definition four_hosts_run : option (AppState * EnrollmentResult) :=
  enrollWithToken 50051 "token" "phone" (computeFingerprint server_key) "home" None None four_hosts (mkAppState [] None).

Lemma android_enrolment_pins_the_code_witness : ∃ st', four_hosts_run = Some (st', ESuccess "me" "home") ∧
  ∃ e, getServerById "home" (app_table st') = Some e ∧ es_certFingerprint e = computeFingerprint server_key.
Proof.
  assert (snd <$> four_hosts_run = Some (ESuccess "me" "home")) as Hr by (vm_compute; reflexivity).
  destruct four_hosts_run as [[st' r]|] eqn:E; [|discriminate Hr]. injection Hr as ->.
  destruct (android_enrolment_pins_the_code 50051 "token" "phone" (computeFingerprint server_key) "home" None None four_hosts _ st' _ E)
    as (_ & _ & Hs).
  exists st'. split; [reflexivity|]. destruct (Hs _ _ eq_refl) as (_ & e & He & Hv & _). exists e. split; [exact He|exact Hv].
Defined.

(** With the real digest the codes of this phone and this server differ. *)
Definition approval_service : RemoteControlService :=
  mkService strict_config (mkServerCertificate server_key [] (sha256 server_key)) 7%N demo_fs demo_store (EnrollmentTokenManager_new 300)
    (PairingRequestManager_new 60) 1 0 None demo_open.
Definition approval_peer : TlsPeer := mkTlsPeer [server_key] true.
Definition approval_request : RequestPairingRequest := mkRequestPairingRequest "phone" "" [x01] "".
Definition approval_pair : option (RemoteControlService * result Status RequestPairingResponse) :=
  request_pairing flow_pairing anonymous approval_request approval_service.
Definition approval_hash : bytes := sha256 (sha256 [x01] ++ sha256 server_key ++ uuid_as_bytes 7%N ++ pi_nonce flow_pairing)%list.
Definition approval_demo : approval_world :=
  mkApprovalWorld [x01] (Some approval_peer) (Some (mkServerInfoResponse (uuid_to_string 7%N) "den" "1.0" "linux"))
    (λ _, match approval_pair with Some (_, Ok r) => Ok r | _ => Err (FOther None) end) (FOther None).
Lemma android_approval_needs_equal_codes_witness :
  requestApproval "phone" None None approval_demo = EError "Security verification failed".
Proof.
  assert (match approval_pair with Some (_, Ok r) => rps_pending r && negb (bool_decide (code_of_hash approval_hash = Some (android_code approval_hash)))
          | _ => false end = true) as Hd by (vm_compute; reflexivity).
  destruct approval_pair as [[sv1 [resp|e]]|] eqn:E; [|discriminate Hd..].
  apply andb_true_iff in Hd as [Hpend Hne]. apply negb_true_iff, bool_decide_eq_false in Hne.
  destruct (android_approval_needs_equal_codes flow_pairing anonymous approval_service sv1 resp "phone" None None approval_demo
    approval_peer (mkServerInfoResponse (uuid_to_string 7%N) "den" "1.0" "linux")) as (r & Hr & _ & Hc & ->).
  - reflexivity.
  - discriminate.
  - reflexivity.
  - reflexivity.
  - reflexivity.
  - reflexivity.
  - reflexivity.
  - exact E.
  - exact Hpend.
  - cbn [approval_demo aw_pairing]. rewrite E. reflexivity.
  - rewrite bool_decide_eq_false_2; [reflexivity|]. intros Heq. apply Hne. transitivity (Some (pr_verification_code r)); [exact Hc|]. f_equal. exact Heq.
Defined.

Definition impostor_poll : poll_world :=
  mkPollWorld 5 None (FOther None) (Some (mkTlsPeer [[x66]] true)) (Ok (mkCheckPairingStatusResponse 2 "client" "" None))
    (Ok (mkServerInfoResponse "home" "den" "1.0" "linux")).
Lemma android_approval_pins_the_poller_witness : ∃ st' e,
  pollApprovalStatus "10.0.0.3" 50051 "request" impostor_poll (mkAppState [] None) = (st', ESuccess "client" "home") ∧
  getServerById "home" (app_table st') = Some e ∧ es_certFingerprint e = computeFingerprint [x66].
Proof.
  destruct (android_approval_pins_the_poller "10.0.0.3" 50051 "request" impostor_poll (mkAppState [] None) (mkTlsPeer [[x66]] true)
    [x66] [] (mkCheckPairingStatusResponse 2 "client" "" None) (mkServerInfoResponse "home" "den" "1.0" "linux") eq_refl eq_refl eq_refl
    eq_refl eq_refl eq_refl eq_refl) as (st' & e & E & _ & He & Hf & _).
  exists st', e. split; [exact E|]. split; [exact He|exact Hf].
Defined.
