(* ===== verification/AndroidQr.v ===== *)
(** * Scanning a code and waiting for an approval on Android
    (feature/enrollment/QrScannerScreen.kt, feature/enrollment/EnrollmentViewModel.kt)

    What the camera reads, the view model of enrolment, and the run of both against the
    server's handlers. *)

From S2P Require Import Prelude RustStd ThirdParty Network SessionState RelayTokens Verification Certificates Validation SessionManager Service.
From S2P Require Import Enrollment Pairing Config ClientStore Access Fs Fips180 ClientConnect ClientEnroll EnrollFlow Kotlin AndroidModel AndroidDb AndroidPairing AndroidEnroll.

Local Open Scope string_scope.
Local Open Scope Z_scope.

(** ** The payload *)
Inductive json := JNull | JBool (b : bool) | JInt (n : Z) | JStr (s : string) | JArr (l : list json) | JObj (fields : list (string * json)).
(** [org.json] and [java.time.Instant.parse] of the platform.  [json_string] and the like
    are its conversions of a value of any kind. *)
Class OrgJson := {
  json_object : string → option (list (string * json));
  json_string : json → string;
  json_int : json → option Z;
  json_bool : json → option bool;
  java_instant : string → option Z;
}.
(** What [serde_json] prints of the payload, in the order of its fields; an absent relay
    or pin is left out. *)
Definition relay_json (r : RelayQrInfo) : list (string * json) :=
  ([("relay_url", JStr (rq_relay_url r)); ("relay_token", JStr (rq_relay_token r)); ("relay_required", JBool (rq_relay_required r));
    ("allow_self_signed_tls", JBool (rq_allow_self_signed_tls r))]
   ++ match rq_pinned_cert_sha256 r with Some p => [("pinned_cert_sha256", JStr p)] | None => [] end)%list.
Definition payload_json (p : EnrollmentQrPayload) : list (string * json) :=
  ([("ips", JArr (JStr <$> eq_ips p)); ("port", JInt (eq_port p)); ("cert_fingerprint", JStr (eq_cert_fingerprint p));
    ("enrollment_token", JStr (eq_enrollment_token p)); ("server_id", JStr (eq_server_id p)); ("valid_until", JStr (eq_valid_until p))]
   ++ match eq_relay p with Some r => [("relay", JObj (relay_json r))] | None => [] end)%list.
Class OrgJsonLaws `{QrCrates, OrgJson} := {
  json_reads : ∀ p s, qr_json p = Some s → json_object s = Some (payload_json p);
  json_string_of : ∀ s, json_string (JStr s) = s;
  json_int_of : ∀ n, - 2 ^ 31 <= n < 2 ^ 31 → json_int (JInt n) = Some n;
  json_bool_of : ∀ b, json_bool (JBool b) = Some b;
  java_instant_reads : ∀ t s, format_rfc3339 t = Some s → java_instant s = Some t;
}.

Record scanned := mkScanned {
  sc_ips : list string;
  sc_port : Z;
  sc_token : string;
  sc_fingerprint_text : string;
  sc_server_id_text : string;
  sc_valid_until : option Z;
  sc_relay : option RelayEnrollmentOptions;
}.

Section scan.
Context `{OrgJson}.

Definition field (name : string) (o : list (string * json)) : option json := snd <$> head (filter (λ f, f.1 = name) o).
Definition getString (name : string) (o : list (string * json)) : option string := json_string <$> field name o.
Definition optString (name : string) (o : list (string * json)) : string := default "" (getString name o).
Definition optBoolean (name : string) (fallback : bool) (o : list (string * json)) : bool := default fallback (field name o ≫= json_bool).

Definition scan_relay (json : list (string * json)) : option (option RelayEnrollmentOptions) :=
  match field "relay" json with
  | None | Some JNull => Some None
  | Some (JObj relayJson) =>
      let relayUrl := optString "relay_url" relayJson in
      let relayToken := optString "relay_token" relayJson in
      Some (if is_blank relayUrl || is_blank relayToken then None
            else Some (mkRelayEnrollmentOptions relayUrl relayToken (optBoolean "relay_required" false relayJson)
                   (optBoolean "allow_self_signed_tls" false relayJson) (take_not_blank (optString "pinned_cert_sha256" relayJson))))
  | Some _ => None
  end.
(** [None]: an exception, after which the scanner goes on. *)
Definition scan (qrData : string) : option scanned :=
  json ← json_object qrData;
  ips ← match field "ips" json with Some (JArr l) => Some (json_string <$> l) | _ => None end;
  if bool_decide (ips = []) then None else
  port ← field "port" json ≫= json_int;
  token ← getString "enrollment_token" json;
  fingerprint ← getString "cert_fingerprint" json;
  if str_is_empty fingerprint then None else
  serverId ← getString "server_id" json;
  if str_is_empty serverId then None else
  let validUntil := getString "valid_until" json ≫= java_instant in
  relayOptions ← scan_relay json;
  Some (mkScanned ips port token fingerprint serverId validUntil relayOptions).
End scan.

(** ** The view model *)
Inductive EnrollmentUiState :=
  | UIdle | UScanningQr | UQrEnrolling (token : string) | UApprovalPending (requestId verificationCode : string) (timeoutSeconds : Z)
  | USuccess (clientId serverId : string) | UError (message : string) | UAlreadyEnrolled (serverName serverId : string).
Inductive user_act := startQrScan | cancelEnrollment | clearError.
Definition act (a : user_act) (ui : EnrollmentUiState) : EnrollmentUiState :=
  match a with startQrScan => UScanningQr | cancelEnrollment | clearError => UIdle end.
Definition acts (l : list user_act) (ui : EnrollmentUiState) : EnrollmentUiState := foldl (λ ui a, act a ui) ui l.

Section viewmodel.
Context `{Sha256, LayoutJson, JavaUuid}.

(** [enrollWithQrCode]: the last state it sets.  While the repository works the state is
    [UQrEnrolling]; what the user does then is overwritten by the result. *)
Definition enrollWithQrCode (now : Z) (deviceName : string) (c : scanned) (w : enrol_world) (st : AppState) : AppState * EnrollmentUiState :=
  if is_after now (sc_valid_until c) then (st, UError EXPIRED_MESSAGE) else
  match head (sc_ips c) with
  | None => (st, UError "No valid IP addresses provided")
  | Some primaryHost =>
      match getServerByHostAndPort primaryHost (sc_port c) (app_table st) with
      | Some existing => (st, UAlreadyEnrolled (es_serverName existing) (es_serverId existing))
      | None =>
          match enrollWithToken (sc_port c) (sc_token c) deviceName (sc_fingerprint_text c) (sc_server_id_text c) (sc_valid_until c)
                  (sc_relay c) w st with
          | Some (st', ESuccess clientId serverId) => (st', USuccess clientId serverId)
          | Some (st', EError message) => (st', UError message)
          | Some (st', EPending _ _ _) => (st', UError "Unexpected response from server")
          | None => (st, UError (String.append "Connection failed: "
              (if bool_decide (sc_ips c = []) then "At least one host is required"
               else if str_is_empty (sc_fingerprint_text c) then "Certificate fingerprint is required for secure enrollment"
               else "Server ID is required for secure enrollment")))
          end
      end
  end.

(** The polling coroutine.  A round is what the user does before its test of the state and
    during its second of waiting and its call, and how the call is answered. *)
Record poll_round := mkPollRound { rd_before : list user_act; rd_during : list user_act; rd_world : poll_world }.
Definition maxAttempts : nat := 60.
Definition is_pending (ui : EnrollmentUiState) : bool := match ui with UApprovalPending _ _ _ => true | _ => false end.
(** After the loop: the test of the number of attempts. *)
Definition after_loop (attempts : nat) (ui : EnrollmentUiState) : EnrollmentUiState :=
  if (maxAttempts <=? attempts)%nat then UError "Approval request timed out" else ui.
(** [None] as the last component: the loop still waits for the next round. *)
Fixpoint poll_loop (host : string) (port : Z) (requestId : string) (attempts : nat) (rounds : list poll_round) (st : AppState)
    (ui : EnrollmentUiState) : AppState * EnrollmentUiState * option unit :=
  if (maxAttempts <=? attempts)%nat then (st, after_loop attempts ui, Some tt) else
  match rounds with
  | [] => (st, ui, None)
  | r :: rounds =>
      let ui1 := acts (rd_before r) ui in
      if negb (is_pending ui1) then (st, after_loop attempts ui1, Some tt) else
      let ui2 := acts (rd_during r) ui1 in
      match pollApprovalStatus host port requestId (rd_world r) st with
      | (st', ESuccess clientId serverId) => (st', after_loop (S attempts) (USuccess clientId serverId), Some tt)
      | (st', EPending _ _ _) => poll_loop host port requestId (S attempts) rounds st' ui2
      | (st', EError message) => (st', after_loop (S attempts) (UError message), Some tt)
      end
  end.

(** [requestApprovalPairing] up to the start of the polling. *)
Definition requestApprovalPairing (host : string) (port : Z) (deviceName deviceModel : string) (serverId : option string) (w : approval_world)
    (st : AppState) : EnrollmentUiState * option string :=
  match getServerByHostAndPort host port (app_table st) with
  | Some existing => (UAlreadyEnrolled (es_serverName existing) (es_serverId existing), None)
  | None =>
      match requestApproval deviceName (Some deviceModel) serverId w with
      | EPending requestId timeoutSeconds code => (UApprovalPending requestId code timeoutSeconds, Some requestId)
      | ESuccess clientId serverId => (USuccess clientId serverId, None)
      | EError message => (UError message, None)
      end
  end.

(** ** The last poll *)
Definition waits (r : poll_round) : Prop :=
  rd_before r = [] ∧ rd_during r = [] ∧ ∃ p cert rest response, pw_peer (rd_world r) = Some p ∧ tp_chain p = cert :: rest ∧
    tp_current p = true ∧ pw_status (rd_world r) = Ok response ∧ cps_status response = 1.
Lemma waits_pending host port id r st : waits r → pollApprovalStatus host port id (rd_world r) st = (st, EPending id 0 "").
Proof.
  intros (_ & _ & p & cert & rest & response & Hp & Hc & Hcur & Hs & H1'). unfold pollApprovalStatus. rewrite Hp.
  cbn [fmap option_fmap option_map]. rewrite (unpinned_trusts_all None p cert rest I Hc Hcur), Hs, H1'. done.
Qed.
Lemma poll_waits host port id k rounds rest st ui : (k + length rounds < 60)%nat → Forall waits rounds → is_pending ui = true →
  poll_loop host port id k (rounds ++ rest)%list st ui = poll_loop host port id (k + length rounds) rest st ui.
Proof.
  intros Hk Hr Hui. revert k Hk. induction Hr as [|r rounds Hw Hr IH]; intros k Hk; cbn [app length].
  { by rewrite Nat.add_0_r. }
  cbn [length] in Hk. cbn [poll_loop]. rewrite (proj2 (Nat.leb_gt _ _)) by (unfold maxAttempts; lia).
  rewrite (waits_pending host port id r st Hw). destruct Hw as (-> & -> & _). cbn [acts foldl]. rewrite Hui. cbn [negb].
  rewrite IH by lia. f_equal. lia.
Qed.

(** The phone waits a minute for an approval, and loses one that comes with its last
    question.  When the first [k] of its sixty questions are answered "pending" and the next
    one "approved", it stores the server; it then reports success, except after the
    sixtieth question, where it reports that the request timed out although the
    server has been stored and the client is enrolled. *)
Lemma approval_at_the_last_poll_is_lost host port id code timeout rounds w st st' c s : (length rounds < 60)%nat → Forall waits rounds →
  pollApprovalStatus host port id w st = (st', ESuccess c s) →
  poll_loop host port id 0 (rounds ++ [mkPollRound [] [] w])%list st (UApprovalPending id code timeout)
  = (st', if bool_decide (length rounds = 59%nat) then UError "Approval request timed out" else USuccess c s, Some tt).
Proof.
  intros Hk Hw Hok. rewrite poll_waits by done. rewrite Nat.add_0_l. cbn [poll_loop rd_before rd_during rd_world acts foldl is_pending negb].
  rewrite (proj2 (Nat.leb_gt _ _)) by (unfold maxAttempts; lia). rewrite Hok. unfold after_loop, maxAttempts.
  destruct (decide (length rounds = 59%nat)) as [E|E]; [by rewrite E|]. rewrite (proj2 (Nat.leb_gt _ _)) by lia.
  by rewrite bool_decide_eq_false_2.
Qed.
End viewmodel.

(** ** From the server's code to an enrolled phone *)
Section end_to_end.
Context `{OrgJsonLaws, HexLaws, UuidTextLaws, !UuidVisible, Sha256, TokenCrates, LayoutJson, !JavaUuid}.
Context `{!TomlCodec ClientRegistry, !ClientsText}.

Lemma field_here name v o : field name ((name, v) :: o) = Some v.
Proof. unfold field. rewrite filter_cons, decide_True by done. done. Qed.
Lemma field_next name name' v o : name' ≠ name → field name ((name', v) :: o) = field name o.
Proof. intros Hne. unfold field. rewrite filter_cons, decide_False by done. done. Qed.

(** The phone reads in the code what the server put there. *)
Lemma scan_payload p s t : qr_json p = Some s → eq_ips p ≠ [] → - 2 ^ 31 <= eq_port p < 2 ^ 31 → str_is_empty (eq_cert_fingerprint p) = false →
  str_is_empty (eq_server_id p) = false → java_instant (eq_valid_until p) = Some t →
  ∃ relay, scan s = Some (mkScanned (eq_ips p) (eq_port p) (eq_enrollment_token p) (eq_cert_fingerprint p) (eq_server_id p) (Some t) relay).
Proof.
  intros Hj Hips Hport Hfp Hid Ht. unfold scan. rewrite (json_reads _ _ Hj). cbn [mbind option_bind]. unfold payload_json.
  cbn [app]. unfold getString. repeat (rewrite field_here || rewrite field_next by done). cbn [mbind option_bind fmap option_fmap option_map].
  rewrite <-list_fmap_compose, (list_fmap_ext _ id) by (intros; apply json_string_of). rewrite list_fmap_id.
  rewrite bool_decide_eq_false_2, json_int_of by done. cbn [mbind option_bind]. rewrite !json_string_of, Hfp, Hid, Ht.
  unfold scan_relay. repeat (rewrite field_next by done).
  destruct (eq_relay p) as [r|]; [rewrite field_here|]; cbn [field filter list_filter fmap option_fmap option_map head mbind option_bind]; by eexists.
Qed.

(** The server's side of a code: its text, its deadline, and a token that is still good. *)
Lemma scan_server_code qi sv sv1 resp : generate_enrollment_qr qi sv = Some (sv1, resp) → qr_success resp = true →
  let deadline := qi_now qi + duration_seconds_u64 (em_ttl_seconds (sv_enrollment_manager sv)) in
  is_Some (format_rfc3339 deadline) → qr_server_ips resp ≠ [] → - 2 ^ 31 <= qr_server_port resp < 2 ^ 31 →
  ∃ relay, scan (qr_payload resp) = Some (mkScanned (qr_server_ips resp) (qr_server_port resp) (qr_enrollment_token resp)
    (fingerprint_display (sv_server_cert sv)) (uuid_to_string (sv_server_id sv)) (Some deadline) relay).
Proof.
  intros Hq Hs deadline [text Hfmt] Hips Hport. unfold generate_enrollment_qr in Hq.
  destruct (negb _); [by simplify_eq|]. destruct (generate_token _ _ _ _) as [[ts t]|] eqn:Hg; [|done]. cbn in Hq.
  assert (et_expires_at t = deadline) as Hexp.
  { unfold generate_token in Hg. destruct (EnrollmentToken_new _ _ _) as [t'|] eqn:Hnew; [|done]. cbn in Hg. simplify_eq.
    apply EnrollmentToken_new_wf in Hnew as ((_ & Hexp) & Hcr & _). by rewrite Hexp, Hcr. }
  set (payload := EnrollmentQrPayload_new _ _ _ _ _ _ _) in Hq. unfold to_json in Hq.
  destruct (qr_json payload) as [json|] eqn:Hj; cbn [ok_or] in Hq; [|by simplify_eq]. injection Hq as <- <-.
  apply (scan_payload payload json deadline Hj Hips Hport).
  - cbn. unfold fingerprint_display. done.
  - cbn. destruct (uuid_visible (sv_server_id sv)) as [_ Hne]. by destruct (uuid_to_string (sv_server_id sv)).
  - cbn. rewrite Hexp, Hfmt. by apply java_instant_reads.
Qed.

Lemma trusted_server (sc : ServerCertificate) q : cert_wf sc → head (tp_chain q) = Some (sc_cert_der sc) → tp_current q = true →
  checkServerTrusted (Some (fingerprint_display sc)) q = (head (tp_chain q), Ok tt).
Proof.
  intros Hwf Hhead Hcur. rewrite <-computeFingerprint_display by done. unfold checkServerTrusted. cbn [mbind option_bind].
  destruct (is_blank _); destruct (tp_chain q) as [|cert l]; try done; injection Hhead as ->; rewrite Hcur.
  - done.
  - by rewrite bool_decide_eq_true_2.
Qed.

Lemma pinned_only (sc : ServerCertificate) q cert : cert_wf sc → checkServerTrusted (Some (fingerprint_display sc)) q = (Some cert, Ok tt) →
  sha256 cert = sha256 (sc_cert_der sc).
Proof.
  intros Hwf Ht. assert (is_blank (fingerprint_display sc) = false) as Hb.
  { apply is_blank_visible; [|done]. unfold fingerprint_display. rewrite hex_encode_lower. apply fingerprint_text_visible. }
  apply (trusted_is_pinned _ _ _ Hb) in Ht as [Hd _]. rewrite <-computeFingerprint_display, normalized_computed in Hd by done.
  pose proof (parse_fingerprint_text (sha256 cert)) as E. rewrite Hd, parse_fingerprint_text in E. by injection E.
Qed.

Section one_host.
Context (port : Z) (token name fp id : string) (deadline : Z) (hosts : list string) (relay : option RelayEnrollmentOptions).
Let try := tryEnrollWithHost port token name fp id (Some deadline) hosts relay.

Lemma silent_host hw st : hw_now hw <= deadline → hw_peer hw = None → try hw st = (st, None).
Proof.
  intros Hn Hp. unfold try, tryEnrollWithHost. cbn [is_after]. rewrite (proj2 (Z.ltb_ge _ _)) by done. rewrite Hp. by destruct (negb _).
Qed.
Lemma granting_host hw p cert response info st : hw_now hw <= deadline → hw_cut hw = None → hw_peer hw = Some p →
  checkServerTrusted (Some fp) p = (Some cert, Ok tt) → computeFingerprint cert = fp →
  hw_enroll hw (mkEnrollRequest token (hw_certificate hw) name) = Some response → es_success response = true →
  hw_info hw = Ok info → sir_server_id info = id → is_blank id = false →
  ∃ st', try hw st = (st', Some (ESuccess (es_client_id response) id)) ∧ app_client_id st' = Some (es_client_id response) ∧
    has_row id (λ e, es_certFingerprint e = fp ∧ es_clientId e = es_client_id response ∧ es_serverPort e = port) st'.
Proof.
  intros Hn Hcut Hp Ht Hfp He Hs Hi Hid Hb. unfold try, tryEnrollWithHost. cbn [is_after]. rewrite (proj2 (Z.ltb_ge _ _)) by done.
  rewrite Hcut, Hp, Ht, He. cbn [passes negb]. unfold verified_enrollment. rewrite bool_decide_ne_false_2, Hs, Hi, Hcut, Hfp by done.
  subst id. destruct (handle_ok (hw_now hw) info response fp hosts port relay st Hb) as (st' & -> & Hrest). by exists st'.
Qed.
End one_host.

(** ** Hosts tried at once of which one answers *)
Section at_once.
Context (try : host_world → AppState → AppState * option EnrollmentResult) (ws : list host_world) (m : nat).
Hypothesis others_silent : ∀ i w st, i ≠ m → ws !! i = Some w → try w st = (st, None).

Lemma parallel_silent order st : m ∉ order → run_parallel try ws order st = (st, []).
Proof.
  induction order as [|i order IH]; intros Hm; [done|]. apply not_elem_of_cons in Hm as [Hi Hm]. cbn [run_parallel].
  destruct (ws !! i) as [w|] eqn:Hw; [|by apply IH]. by rewrite (others_silent i w), IH.
Qed.
Lemma parallel_alone w st st' r order : ws !! m = Some w → try w st = (st', Some r) → NoDup order → m ∈ order →
  run_parallel try ws order st = (st', [(m, r)]).
Proof.
  intros Hw Ht. induction order as [|i order IH]; intros Hnd Hm; [by apply not_elem_of_nil in Hm|].
  apply NoDup_cons in Hnd as [Hi Hnd]. cbn [run_parallel]. destruct (decide (i = m)) as [->|Hne].
  - rewrite Hw, Ht. by rewrite (parallel_silent order).
  - apply elem_of_cons in Hm as [->|Hm]; [done|]. destruct (ws !! i) as [w'|] eqn:Hw'; [|by apply IH].
    by rewrite (others_silent i w'), IH.
Qed.
Lemma first_success_alone n r : (m < n)%nat → is_success r = true → first_success n [(m, r)] = Some r.
Proof.
  intros Hn Hr. unfold first_success. set (f := λ i, head (omap _ _)).
  assert (∀ i, f i = if bool_decide (m = i) then Some r else None) as Hf.
  { intros i. unfold f. cbn. rewrite Hr, andb_true_r. by destruct (bool_decide (m = i)). }
  replace n with (m + S (n - S m))%nat by lia. rewrite seq_app, omap_app. cbn [seq omap list_omap].
  rewrite Hf, bool_decide_eq_true_2 by lia.
  destruct (omap f (seq 0 m)) as [|y l] eqn:E; [done|].
  assert (y ∈ omap f (seq 0 m)) as (i & Hi%elem_of_seq & Hy)%list_elem_of_omap by (rewrite E; left).
  rewrite Hf, bool_decide_eq_false_2 in Hy by lia. done.
Qed.
Lemma in_parallel_alone hosts w st st' r order : ws !! m = Some w → try w st = (st', Some r) → is_success r = true → NoDup order → m ∈ order →
  in_parallel try hosts ws order st = (st', Some r).
Proof.
  intros Hw Ht Hr Hnd Hm. unfold in_parallel. pose proof (lookup_lt_Some _ _ _ Hw) as Hlt.
  pose proof (parallel_alone w st st' r order Hw Ht Hnd Hm) as ->. rewrite first_success_alone by done.
  by destruct ws.
Qed.
End at_once.

(** One host answers; those asked before it, or along with it, are silent. *)
Lemma enrollWithToken_reaches port token name fp id deadline relay w st k h st' r :
  let try := tryEnrollWithHost port token name fp id (Some deadline) (ew_hosts w).*1 relay in
  (ew_hosts w).*1 ≠ [] → str_is_empty fp = false → str_is_empty id = false → ew_now w <= deadline →
  (ew_hosts w).*2 !! k = Some h → try h st = (st', Some r) → is_success r = true →
  (∀ j hw s0, (j < k)%nat ∨ (2 <= k)%nat ∧ j ≠ k → (ew_hosts w).*2 !! j = Some hw → try hw s0 = (s0, None)) →
  NoDup (ew_order w) → ((2 <= k)%nat → (k - 2)%nat ∈ ew_order w) →
  enrollWithToken port token name fp id (Some deadline) relay w st = Some (st', r).
Proof.
  intros try Hh Hfp Hid Hnow Hk Ht Hr Hsil Hnd Hord. unfold enrollWithToken.
  rewrite bool_decide_eq_false_2, Hfp, Hid by done. cbn [orb is_after]. rewrite (proj2 (Z.ltb_ge _ _)) by done. fold try.
  assert (∀ j, (j < k)%nat → in_turn try ((ew_hosts w).*2 !! j) st None = (st, None, None)) as Hj.
  { intros j Hj. destruct ((ew_hosts w).*2 !! j) as [hw|] eqn:Hl; [|done]. cbn [in_turn]. by rewrite (Hsil j) by auto. }
  destruct k as [|[|k]].
  - rewrite Hk. cbn [in_turn]. by rewrite Ht, Hr.
  - rewrite (Hj 0%nat), Hk by lia. cbn [in_turn]. by rewrite Ht, Hr.
  - rewrite (Hj 0%nat), (Hj 1%nat) by lia. rewrite (in_parallel_alone try _ k) with (w := h) (st' := st') (r := r); try done.
    + cbn [fmap option_fmap option_map default]. by rewrite Hr.
    + intros i hw s0 Hi Hl. rewrite lookup_drop in Hl. apply (Hsil (2 + i)%nat); [lia|done].
    + by rewrite lookup_drop.
    + replace k with (S (S k) - 2)%nat by lia. apply Hord. lia.
Qed.

(** C10: A phone that scans the server's code is enrolled, with the server's own
    certificate pinned.  The server shows a code; the phone scans it before its deadline and
    does not know the server's first address yet.  The server answers at one of the
    advertised addresses, with a certificate within its period of validity, and nobody at
    those tried before it (the first two are tried in turn) or, from the third on, along
    with it (those are tried at once); no time limit strikes and the server can store its files.
    Then the screen reports success; the server accepts the phone's certificate from now
    on; and the database names the server under its id with the client id the server gave,
    its port, and the fingerprint of the server's certificate.  Under it later
    connections to this server are trusted, and every certificate trusted under it has the
    digest of the server's. *)
Theorem android_qr_enrolment_end_to_end qi sv sv1 resp ei c name now w k h host p st info hostname version os :
  generate_enrollment_qr qi sv = Some (sv1, resp) → qr_success resp = true → cert_wf (sv_server_cert sv) →
  let deadline := qi_now qi + duration_seconds_u64 (em_ttl_seconds (sv_enrollment_manager sv)) in
  qi_cleanup_now qi <= deadline → ei_now ei <= deadline → is_Some (format_rfc3339 deadline) →
  - 2 ^ 31 <= qr_server_port resp < 2 ^ 31 →
  now <= deadline → ew_now w <= deadline → (∀ hw, hw ∈ (ew_hosts w).*2 → hw_now hw <= deadline) →
  (ew_hosts w).*1 = qr_server_ips resp →
  (∀ a, head (qr_server_ips resp) = Some a → getServerByHostAndPort a (qr_server_port resp) (app_table st) = None) →
  ew_hosts w !! k = Some (host, h) →
  (∀ j hw, (j < k)%nat ∨ (2 <= k)%nat ∧ j ≠ k → (ew_hosts w).*2 !! j = Some hw → hw_peer hw = None) →
  NoDup (ew_order w) → ((2 <= k)%nat → (k - 2)%nat ∈ ew_order w) →
  hw_cut h = None → hw_peer h = Some p → head (tp_chain p) = Some (sc_cert_der (sv_server_cert sv)) → tp_current p = true →
  hw_certificate h ≠ [] → hw_enroll h = server_rpc ei c sv1 → ei_cert_write ei = WOk → ei_meta_write ei = WOk →
  info = get_server_info hostname version os sv → hw_info h = Ok info →
  let sv2 := (enroll ei c (mkEnrollRequest (qr_enrollment_token resp) (hw_certificate h) name) sv1).1 in
  ∃ code st' e, scan (qr_payload resp) = Some code ∧
    enrollWithQrCode now name code w st = (st', USuccess (ei_client_id ei) (uuid_to_string (sv_server_id sv))) ∧
    enrolled (hw_certificate h) sv2 ∧ app_client_id st' = Some (ei_client_id ei) ∧
    getServerById (uuid_to_string (sv_server_id sv)) (app_table st') = Some e ∧ es_clientId e = ei_client_id ei ∧
    es_serverPort e = qr_server_port resp ∧ es_certFingerprint e = fingerprint_display (sv_server_cert sv) ∧
    checkServerTrusted (Some (es_certFingerprint e)) p = (head (tp_chain p), Ok tt) ∧
    ∀ q cert, checkServerTrusted (Some (es_certFingerprint e)) q = (Some cert, Ok tt) → sha256 cert = sha256 (sc_cert_der (sv_server_cert sv)).
Proof.
  intros Hq Hs Hwf deadline Hcl Hn Hfmt Hport Hnow Hew Hhw Hhosts Hnew Hh Hbefore Hnd Hord Hcut Hp Hhead Hcur Hcert Hrpc Hw1 Hw2 -> Hinfo sv2.
  destruct (qr_token_live qi sv sv1 resp (ei_now ei) Hq Hs Hcl Hn) as [Hlive Hen].
  destruct (enroll_succeeds ei c sv1 _ (hw_certificate h) name Hlive Hen Hcert Hw1 Hw2) as (sv2' & rinfo & He & Henr).
  assert (qr_server_ips resp ≠ []) as Hips.
  { rewrite <-Hhosts. intros E%fmap_nil_inv. by rewrite E in Hh. }
  destruct (scan_server_code qi sv sv1 resp Hq Hs Hfmt Hips Hport) as [relay Hscan]. fold deadline in Hscan.
  set (fp := fingerprint_display (sv_server_cert sv)) in *. set (id := uuid_to_string (sv_server_id sv)) in *.
  set (code := mkScanned _ _ _ _ _ _ _) in Hscan. exists code.
  assert ((ew_hosts w).*2 !! k = Some h) as Hlk by (rewrite list_lookup_fmap, Hh; done).
  pose proof (list_elem_of_lookup_2 _ _ _ Hlk) as Hel. pose proof (trusted_server _ p Hwf Hhead Hcur) as Htr. fold fp in Htr.
  destruct (granting_host (qr_server_port resp) (qr_enrollment_token resp) name fp id deadline (ew_hosts w).*1 relay h p
    (sc_cert_der (sv_server_cert sv)) (mkEnrollResponse true (ei_client_id ei) "" rinfo) (get_server_info hostname version os sv) st)
    as (st' & Htry & Hcid & e & Hrow & Hfp & Hec & Hep); try done.
  { by apply Hhw. } { by rewrite Htr, Hhead. } { by apply computeFingerprint_display. } { rewrite Hrpc. unfold server_rpc. by rewrite He. }
  { apply uuid_not_blank. }
  exists st', e. split; [done|]. split; [|unfold sv2; rewrite He, Hfp; split_and!; try done; intros q cert; by apply pinned_only].
  unfold enrollWithQrCode, code. cbn [sc_ips sc_port sc_token sc_fingerprint_text sc_server_id_text sc_valid_until sc_relay is_after].
  rewrite (proj2 (Z.ltb_ge _ _)) by done. destruct (head (qr_server_ips resp)) as [a|] eqn:Ha; [|by destruct (qr_server_ips resp)].
  rewrite (Hnew a eq_refl). rewrite (enrollWithToken_reaches _ _ _ _ _ _ _ w st k h _ _) with (6 := Htry); try done.
  - by rewrite Hhosts.
  - unfold id. destruct (uuid_visible (sv_server_id sv)) as [_ Hu]. by destruct (uuid_to_string (sv_server_id sv)).
  - intros j hw s0 Hj Hl. apply silent_host; [apply Hhw; by eapply list_elem_of_lookup_2|by apply (Hbefore j hw)].
Qed.
End end_to_end.

(** ** Witnesses *)
#[local] Existing Instance demo_layout_json.
#[local] Existing Instance worded_uuid.
#[local] Existing Instance worded_laws.
#[local] Existing Instance worded_java.
#[local] Existing Instance worded_visible.
#[local] Existing Instance demo_tokens.
#[local] Existing Instance demo_sha256.
#[local] Existing Instance lower_hex.
#[local] Existing Instance demo_grpc.
#[local] Existing Instance demo_hex_laws.
#[local] Existing Instance qr_crates.
#[local] Existing Instance clients_codec.
#[local] Existing Instance demo_clients_text.
#[local] Instance demo_org_json : OrgJson := {|
  json_object s := payload_json <$> dec_payload s;
  json_string v := match v with JStr s => s | _ => "" end;
  json_int v := match v with JInt n => Some n | _ => None end;
  json_bool v := match v with JBool b => Some b | _ => None end;
  java_instant := dec_Z;
|}.
#[local] Instance demo_org_json_laws : OrgJsonLaws.
Proof. split; [intros p s [= <-]; cbn [json_object demo_org_json]; by rewrite dec_enc_payload|done..|intros t s [= <-]; apply dec_enc_Z]. Qed.

Definition scanned_code : RemoteControlService * GenerateEnrollmentQrResponse :=
  default (flow_service, qr_refused "") (generate_enrollment_qr flow_qr flow_service).
Definition server_peer : TlsPeer := mkTlsPeer [[x2a]] true.
Definition server_host : host_world :=
  mkHostWorld None 1 [x07] (Some server_peer) (server_rpc flow_enroll anonymous scanned_code.1)
    (Ok (get_server_info (Some "den") "1.0" "linux" flow_service)).
Definition phone_world : enrol_world :=
  mkEnrolWorld 1 [("10.0.0.1", server_host)] [] (mkRelayWorld (Err (FOther None)) server_host (FOther None)).
Definition new_phone : AppState := mkAppState [] None.

Lemma android_qr_enrolment_end_to_end_witness : ∃ code st', scan (qr_payload scanned_code.2) = Some code ∧
  enrollWithQrCode 1 "phone" code phone_world new_phone = (st', USuccess (ei_client_id flow_enroll) (uuid_to_string 7%N)).
Proof.
  edestruct (android_qr_enrolment_end_to_end flow_qr flow_service scanned_code.1 scanned_code.2 flow_enroll anonymous "phone" 1
    phone_world 0%nat server_host "10.0.0.1" server_peer new_phone (get_server_info (Some "den") "1.0" "linux" flow_service)
    (Some "den") "1.0" "linux") as (code & st' & e & Hs & He & _).
  1-3: (vm_compute; reflexivity).
  1, 2: (vm_compute; discriminate).
  1: (eexists; reflexivity).
  1: (vm_compute; split; [discriminate|reflexivity]).
  1, 2: (vm_compute; discriminate).
  - intros hw ->%list_elem_of_singleton. vm_compute. discriminate.
  - vm_compute. reflexivity.
  - intros a _. reflexivity.
  - reflexivity.
  - intros j hw Hj. lia.
  - apply NoDup_nil_2.
  - lia.
  - reflexivity.
  - reflexivity.
  - reflexivity.
  - reflexivity.
  - discriminate.
  - reflexivity.
  - reflexivity.
  - reflexivity.
  - reflexivity.
  - reflexivity.
  - exists code, st'. split; [exact Hs|exact He].
Defined.

Definition waiting_round : poll_round :=
  mkPollRound [] [] (mkPollWorld 5 None (FOther None) (Some server_peer) (Ok (mkCheckPairingStatusResponse 1 "" "" None)) (Err None)).
Definition approving : poll_world :=
  mkPollWorld 5 None (FOther None) (Some server_peer) (Ok (mkCheckPairingStatusResponse 2 "client" "" None))
    (Ok (mkServerInfoResponse "home" "den" "1.0" "linux")).
Lemma approval_at_the_last_poll_is_lost_witness : ∃ st',
  poll_loop "10.0.0.1" 50051 "r" 0 (replicate 59 waiting_round ++ [mkPollRound [] [] approving])%list new_phone (UApprovalPending "r" "123-456" 60)
    = (st', UError "Approval request timed out", Some tt) ∧ is_Some (getServerById "home" (app_table st')).
Proof.
  destruct (pollApprovalStatus "10.0.0.1" 50051 "r" approving new_phone) as [st' r] eqn:E.
  exists st'. split.
  - apply (approval_at_the_last_poll_is_lost "10.0.0.1" 50051 "r" "123-456" 60 (replicate 59 waiting_round) approving new_phone st' "client" "home").
    + rewrite length_replicate. lia.
    + apply Forall_replicate. repeat split. exists server_peer, [x2a], [], (mkCheckPairingStatusResponse 1 "" "" None). repeat split.
    + rewrite E. f_equal. assert (snd (pollApprovalStatus "10.0.0.1" 50051 "r" approving new_phone) = ESuccess "client" "home") as Hr
        by (vm_compute; reflexivity). rewrite E in Hr. exact Hr.
  - assert (match getServerById "home" (app_table (fst (pollApprovalStatus "10.0.0.1" 50051 "r" approving new_phone))) with
      Some _ => True | None => False end) as Hr by (vm_compute; exact I).
    rewrite E in Hr. cbn [fst] in Hr. destruct (getServerById "home" (app_table st')); [eexists; reflexivity|destruct Hr].
Defined.
