(* ===== verification/AndroidSettings.v ===== *)
(** * Settings of the Android application
    (data/settings/AppSettings.kt, SettingsDataStore.kt, SettingsRepository.kt)

    The preferences are a map from key to value; reading decodes it, every update writes
    one key. *)

From S2P Require Import Prelude RustStd ThirdParty Kotlin AndroidModel AndroidDb.

Local Open Scope string_scope.
Local Open Scope Z_scope.

Inductive Theme := LIGHT | DARK | SYSTEM.
Inductive IpPreference := IPV6_PREFERRED | IPV4_PREFERRED | IPV6_ONLY | IPV4_ONLY.
Inductive LogLevel := VERBOSE | DEBUG | INFO | WARN | ERROR.
Record AppSettings := mkAppSettings {
  as_theme : Theme;
  as_enableRelayFallback : bool;
  as_ipv6Preference : IpPreference;
  as_directConnectionTimeoutSeconds : Z;
  as_autoDiscovery : bool;
  as_discoveryTimeoutSeconds : Z;
  as_logLevel : LogLevel;
  as_enableNetworkLogging : bool;
  as_enableNetworkDiagnostics : bool;
  as_defaultConnectionPreference : ConnectionPreference;
}.
Definition AppSettings_default : AppSettings := mkAppSettings SYSTEM true IPV6_PREFERRED 5 true 5 INFO false false AUTO.

(** ** Names of the constants *)
Definition theme_name (t : Theme) : string := match t with LIGHT => "LIGHT" | DARK => "DARK" | SYSTEM => "SYSTEM" end.
Definition ip_name (p : IpPreference) : string :=
  match p with
  | IPV6_PREFERRED => "IPV6_PREFERRED" | IPV4_PREFERRED => "IPV4_PREFERRED" | IPV6_ONLY => "IPV6_ONLY" | IPV4_ONLY => "IPV4_ONLY"
  end.
Definition level_name (l : LogLevel) : string :=
  match l with VERBOSE => "VERBOSE" | DEBUG => "DEBUG" | INFO => "INFO" | WARN => "WARN" | ERROR => "ERROR" end.
(** [valueOf]: the constant of this name; [None] is an exception. *)
Definition value_of {A} (name : A → string) (all : list A) (s : string) : option A := head (filter (λ a, name a = s) all).
Definition all_themes : list Theme := [LIGHT; DARK; SYSTEM].
Definition all_ips : list IpPreference := [IPV6_PREFERRED; IPV4_PREFERRED; IPV6_ONLY; IPV4_ONLY].
Definition all_levels : list LogLevel := [VERBOSE; DEBUG; INFO; WARN; ERROR].
Definition all_preferences : list ConnectionPreference := [AUTO; DIRECT_ONLY; RELAY_ONLY].

Inductive pref := PStr (s : string) | PBool (b : bool) | PInt (n : Z).
Abbreviation Prefs := (gmap string pref).
(** A typed key reads nothing of another type: that is a [ClassCastException]. *)
Definition str_key (k : string) (d : string) (m : Prefs) : option string :=
  match m !! k with None => Some d | Some (PStr s) => Some s | Some _ => None end.
Definition bool_key (k : string) (d : bool) (m : Prefs) : option bool :=
  match m !! k with None => Some d | Some (PBool b) => Some b | Some _ => None end.
Definition int_key (k : string) (d : Z) (m : Prefs) : option Z :=
  match m !! k with None => Some d | Some (PInt n) => Some n | Some _ => None end.

(** [settings]; a file that cannot be read counts as empty ([None]). *)
Definition read_settings (stored : option Prefs) : option AppSettings :=
  let prefs := default ∅ stored in
  theme ← str_key "theme" (theme_name SYSTEM) prefs ≫= value_of theme_name all_themes;
  relay ← bool_key "enable_relay_fallback" true prefs;
  ip ← str_key "ipv6_preference" (ip_name IPV6_PREFERRED) prefs ≫= value_of ip_name all_ips;
  direct ← int_key "direct_connection_timeout" 5 prefs;
  auto ← bool_key "auto_discovery" true prefs;
  discovery ← int_key "discovery_timeout" 5 prefs;
  level ← str_key "log_level" (level_name INFO) prefs ≫= value_of level_name all_levels;
  logging ← bool_key "enable_network_logging" false prefs;
  diagnostics ← bool_key "enable_network_diagnostics" false prefs;
  preference ← str_key "default_connection_preference" (fromConnectionPreference AUTO) prefs
               ≫= value_of fromConnectionPreference all_preferences;
  Some (mkAppSettings theme relay ip direct auto discovery level logging diagnostics preference).

(** ** Updates *)
Inductive settings_op :=
  | updateTheme (theme : Theme)
  | updateRelayFallback (enabled : bool)
  | updateIpv6Preference (preference : IpPreference)
  | updateDirectConnectionTimeout (seconds : Z)
  | updateAutoDiscovery (enabled : bool)
  | updateDiscoveryTimeout (seconds : Z)
  | updateLogLevel (level : LogLevel)
  | updateNetworkLogging (enabled : bool)
  | updateNetworkDiagnostics (enabled : bool)
  | updateDefaultConnectionPreference (preference : ConnectionPreference)
  | resetToDefaults.
Definition write_settings (op : settings_op) (prefs : Prefs) : Prefs :=
  match op with
  | updateTheme theme => <["theme" := PStr (theme_name theme)]> prefs
  | updateRelayFallback enabled => <["enable_relay_fallback" := PBool enabled]> prefs
  | updateIpv6Preference preference => <["ipv6_preference" := PStr (ip_name preference)]> prefs
  | updateDirectConnectionTimeout seconds => <["direct_connection_timeout" := PInt seconds]> prefs
  | updateAutoDiscovery enabled => <["auto_discovery" := PBool enabled]> prefs
  | updateDiscoveryTimeout seconds => <["discovery_timeout" := PInt seconds]> prefs
  | updateLogLevel level => <["log_level" := PStr (level_name level)]> prefs
  | updateNetworkLogging enabled => <["enable_network_logging" := PBool enabled]> prefs
  | updateNetworkDiagnostics enabled => <["enable_network_diagnostics" := PBool enabled]> prefs
  | updateDefaultConnectionPreference preference =>
      <["default_connection_preference" := PStr (fromConnectionPreference preference)]> prefs
  | resetToDefaults => ∅
  end.
(** What the user sees when a write fails. *)
Definition settings_error (op : settings_op) : string :=
  match op with
  | updateTheme _ => "Failed to save theme setting"
  | updateRelayFallback _ => "Failed to save relay setting"
  | updateIpv6Preference _ => "Failed to save IPv6 preference"
  | updateDirectConnectionTimeout _ => "Failed to save connection timeout"
  | updateAutoDiscovery _ => "Failed to save auto-discovery setting"
  | updateDiscoveryTimeout _ => "Failed to save discovery timeout"
  | updateLogLevel _ => "Failed to save log level"
  | updateNetworkLogging _ => "Failed to save network logging setting"
  | updateNetworkDiagnostics _ => "Failed to save network diagnostics setting"
  | updateDefaultConnectionPreference _ => "Failed to save default connection preference"
  | resetToDefaults => "Failed to reset settings"
  end.
Record SettingsState := mkSettingsState { ss_prefs : Prefs; ss_error : option string }.
Definition settings_step (s : SettingsState) (x : settings_op * bool) : SettingsState :=
  let '(op, written) := x in
  if written then mkSettingsState (write_settings op (ss_prefs s)) (ss_error s) else mkSettingsState (ss_prefs s) (Some (settings_error op)).

(** ** What an update means *)
Definition set_setting (op : settings_op) (s : AppSettings) : AppSettings :=
  let '(mkAppSettings theme relay ip direct auto discovery level logging diagnostics preference) := s in
  match op with
  | updateTheme x => mkAppSettings x relay ip direct auto discovery level logging diagnostics preference
  | updateRelayFallback x => mkAppSettings theme x ip direct auto discovery level logging diagnostics preference
  | updateIpv6Preference x => mkAppSettings theme relay x direct auto discovery level logging diagnostics preference
  | updateDirectConnectionTimeout x => mkAppSettings theme relay ip x auto discovery level logging diagnostics preference
  | updateAutoDiscovery x => mkAppSettings theme relay ip direct x discovery level logging diagnostics preference
  | updateDiscoveryTimeout x => mkAppSettings theme relay ip direct auto x level logging diagnostics preference
  | updateLogLevel x => mkAppSettings theme relay ip direct auto discovery x logging diagnostics preference
  | updateNetworkLogging x => mkAppSettings theme relay ip direct auto discovery level x diagnostics preference
  | updateNetworkDiagnostics x => mkAppSettings theme relay ip direct auto discovery level logging x preference
  | updateDefaultConnectionPreference x => mkAppSettings theme relay ip direct auto discovery level logging diagnostics x
  | resetToDefaults => AppSettings_default
  end.
Definition spec_settings (s : AppSettings) (x : settings_op * bool) : AppSettings := if x.2 then set_setting x.1 s else s.

(** Reading succeeds with [s] when every key reads as the field of [s]. *)
Lemma read_settings_iff m s : read_settings (Some m) = Some s ↔
  (str_key "theme" "SYSTEM" m ≫= value_of theme_name all_themes) = Some (as_theme s) ∧
  bool_key "enable_relay_fallback" true m = Some (as_enableRelayFallback s) ∧
  (str_key "ipv6_preference" "IPV6_PREFERRED" m ≫= value_of ip_name all_ips) = Some (as_ipv6Preference s) ∧
  int_key "direct_connection_timeout" 5 m = Some (as_directConnectionTimeoutSeconds s) ∧
  bool_key "auto_discovery" true m = Some (as_autoDiscovery s) ∧
  int_key "discovery_timeout" 5 m = Some (as_discoveryTimeoutSeconds s) ∧
  (str_key "log_level" "INFO" m ≫= value_of level_name all_levels) = Some (as_logLevel s) ∧
  bool_key "enable_network_logging" false m = Some (as_enableNetworkLogging s) ∧
  bool_key "enable_network_diagnostics" false m = Some (as_enableNetworkDiagnostics s) ∧
  (str_key "default_connection_preference" "AUTO" m ≫= value_of fromConnectionPreference all_preferences)
    = Some (as_defaultConnectionPreference s).
Proof.
  unfold read_settings. cbn [default from_option id theme_name ip_name level_name fromConnectionPreference]. split.
  - intros E. repeat (apply bind_Some in E as (? & ? & E)). injection E as <-. by split_and!.
  - intros (E1 & E2 & E3 & E4 & E5 & E6 & E7 & E8 & E9 & E10). rewrite E1, E2, E3, E4, E5, E6, E7, E8, E9, E10. by destruct s.
Qed.

Lemma theme_roundtrip t : value_of theme_name all_themes (theme_name t) = Some t.
Proof. by destruct t. Qed.
Lemma ip_roundtrip t : value_of ip_name all_ips (ip_name t) = Some t.
Proof. by destruct t. Qed.
Lemma level_roundtrip t : value_of level_name all_levels (level_name t) = Some t.
Proof. by destruct t. Qed.
Lemma preference_roundtrip t : value_of fromConnectionPreference all_preferences (fromConnectionPreference t) = Some t.
Proof. by destruct t. Qed.

Lemma write_read op prefs s : read_settings (Some prefs) = Some s → read_settings (Some (write_settings op prefs)) = Some (set_setting op s).
Proof.
  assert (op = resetToDefaults ∨ op ≠ resetToDefaults) as [->|Hop] by (destruct op; (by left) || (right; discriminate));
    [destruct s; intros _; vm_compute; reflexivity|].
  rewrite !read_settings_iff. unfold str_key, bool_key, int_key. destruct s. intros E.
  destruct op; cbn [write_settings set_setting as_theme as_enableRelayFallback as_ipv6Preference as_directConnectionTimeoutSeconds
    as_autoDiscovery as_discoveryTimeoutSeconds as_logLevel as_enableNetworkLogging as_enableNetworkDiagnostics
    as_defaultConnectionPreference] in *; try done;
  destruct E as (? & ? & ? & ? & ? & ? & ? & ? & ? & ?);
  repeat (rewrite lookup_insert_eq || (rewrite lookup_insert_ne by discriminate)); cbn [mbind option_bind];
  rewrite ?theme_roundtrip, ?ip_roundtrip, ?level_roundtrip, ?preference_roundtrip; split_and!; assumption || reflexivity.
Qed.

(** Settings are kept.  After any sequence of updates, some of which may fail to be
    written, the application reads back exactly the settings it starts with, changed by
    the updates that were written, in order; reading never fails, and the reported error
    names the last update that was not written. *)
Lemma settings_are_kept ops :
  let s := foldl settings_step (mkSettingsState ∅ None) ops in
  read_settings (Some (ss_prefs s)) = Some (foldl spec_settings AppSettings_default ops) ∧
  ss_error s = last (settings_error ∘ fst <$> filter (λ x, x.2 = false) ops).
Proof.
  induction ops as [|[op b] ops IH] using rev_ind; [split; [vm_compute; reflexivity|done]|].
  cbv zeta in *. rewrite !foldl_snoc, filter_app, fmap_app. destruct IH as [IH1 IH2].
  set (s := foldl settings_step _ ops) in *. destruct b; cbn [settings_step spec_settings fst snd ss_prefs ss_error].
  - split; [by apply write_read|]. rewrite filter_cons, decide_False by done. cbn. by rewrite app_nil_r.
  - split; [done|]. rewrite filter_cons, decide_True by done. cbn. by rewrite last_snoc.
Qed.
