(* ===== verification/AndroidConnect.v ===== *)
(** * Connections of the Android application (core/network/ServerConnectionManager.kt)

    Which way a connection takes, and the cache of relay connections as a state machine
    whose steps are the regions its lock protects. *)

From S2P Require Import Prelude RustStd ThirdParty Certificates Validation ClientEnroll EnrollFlow Kotlin AndroidModel AndroidDb AndroidPairing.
From S2P Require Import AndroidSettings.

Local Open Scope string_scope.
Local Open Scope Z_scope.

(** ** Addresses *)
Definition prioritizeIps (server : EnrolledServerEntity) (preference : IpPreference) : list string :=
  let rawIps := match es_ips server with [] => match es_serverHost server with Some h => [h] | None => [] end | l => l end in
  let sanitized := distinct (trimmed rawIps) in
  let ipv6 := filter (λ a, str_contains_char ":" a = true) sanitized in
  let ipv4 := filter (λ a, str_contains_char ":" a = false) sanitized in
  match preference with
  | IPV6_PREFERRED => ipv6 ++ ipv4
  | IPV4_PREFERRED => ipv4 ++ ipv6
  | IPV6_ONLY => ipv6
  | IPV4_ONLY => ipv4
  end%list.
Definition defaultRelayAuthority (server : EnrolledServerEntity) : string :=
  match ktrim <$> es_serverHost server with
  | Some h => if str_is_empty h then fmt ["handcontrol.local:"; pretty (es_serverPort server)] else h
  | None => fmt ["handcontrol.local:"; pretty (es_serverPort server)]
  end.
(** In milliseconds. *)
Definition directTimeoutMs (s : AppSettings) : Z := Z.max (1000 * Z.max 1 (Z.min 30 (as_directConnectionTimeoutSeconds s))) (5000 / 5).

(** ** The way of a connection *)
Record direct_world := mkDirectWorld {
  dw_created : bool;                    (* the channel could be made in time *)
  dw_in_time : bool;                    (* and the handshake ended in time *)
  dw_peer : option TlsPeer;
}.
Inductive relay_problem := RpTimeout | RpRelay (shortMessage userMessage : string) | RpIo (message : option string)
  | RpOther (message : option string) (className : string).
Record connect_world := mkConnectWorld { cw_direct : string → direct_world; cw_relay : result relay_problem nat }.
Inductive failure := RelayFailure (shortMessage userMessage : string) | PlainFailure (message : string).
Inductive connection := Direct (address : string) | Relayed (channel : nat).

(** [tryRelayConnection]'s exceptions. *)
Definition relay_failure (p : relay_problem) : failure :=
  match p with
  | RpTimeout => RelayFailure "Connection timeout"
      "Failed to establish relay connection within 15 seconds. The relay server may be unreachable."
  | RpRelay s u => RelayFailure s u
  | RpIo m =>
      let has t := match m with Some m => kcontains t m | None => false end in
      RelayFailure "Network error"
        (if has "Software caused connection abort" then "Network connection was interrupted or lost."
         else if has "Failed to connect" then "Unable to reach the relay server. Check your internet connection."
         else if has "tunnel health check" then "Relay connection became unresponsive and was closed."
         else default "Network error occurred during relay connection." m)
  | RpOther m c => RelayFailure "Connection failed" (default (String.append "An unexpected error occurred: " c) m)
  end.

Section connect.
Context `{Sha256}.

(** The channel becomes ready: somebody answers whom the trust manager accepts. *)
Definition becomes_ready (fingerprint : string) (w : direct_world) : bool :=
  dw_in_time w && match dw_peer w with Some p => is_ok (checkServerTrusted (Some fingerprint) p).2 | None => false end.
(** What became of each dialled address. *)
Inductive dial := NotCreated | Closed | Kept.
Fixpoint tryDirectConnection (fingerprint : string) (w : string → direct_world) (ips : list string) : option string * list (string * dial) :=
  match ips with
  | [] => (None, [])
  | ip :: ips =>
      if negb (dw_created (w ip)) then let '(r, log) := tryDirectConnection fingerprint w ips in (r, (ip, NotCreated) :: log)
      else if becomes_ready fingerprint (w ip) then (Some ip, [(ip, Kept)])
      else let '(r, log) := tryDirectConnection fingerprint w ips in (r, (ip, Closed) :: log)
  end.

Definition effective_preference (s : AppSettings) (server : EnrolledServerEntity) (override : option ConnectionPreference) : ConnectionPreference :=
  match override with
  | Some p => p
  | None => match es_connectionPreference server with AUTO => as_defaultConnectionPreference s | p => p end
  end.

Definition connect (s : AppSettings) (server : EnrolledServerEntity) (override : option ConnectionPreference) (w : connect_world)
    : result failure connection :=
  let preference := effective_preference s server override in
  let preferRelay := bool_decide (preference = RELAY_ONLY) in
  let allowRelayFallback := negb (bool_decide (preference = DIRECT_ONLY)) in
  let direct := if preferRelay then None
                else (tryDirectConnection (es_certFingerprint server) (cw_direct w) (prioritizeIps server (as_ipv6Preference s))).1 in
  match direct with
  | Some ip => Ok (Direct (fmt [ip; ":"; pretty (es_serverPort server)]))
  | None =>
      if negb preferRelay && negb allowRelayFallback then Err (PlainFailure "Relay disabled by connection preference")
      else if es_relayEnabled server && bool_decide (is_Some (es_relayUrl server)) && bool_decide (is_Some (es_relayToken server)) then
        if negb (as_enableRelayFallback s) && negb preferRelay then Err (PlainFailure "Relay fallback disabled by user settings")
        else match cw_relay w with Ok c => Ok (Relayed c) | Err p => Err (relay_failure p) end
      else if preferRelay then Err (RelayFailure "Relay connection not available" "Relay connection not available")
      else Err (PlainFailure "All connection attempts failed")
  end.

Lemma tryDirect_Some fp w ips ip : (tryDirectConnection fp w ips).1 = Some ip →
  ip ∈ ips ∧ dw_created (w ip) = true ∧ becomes_ready fp (w ip) = true.
Proof.
  induction ips as [|a ips IH]; [done|]. cbn. destruct (dw_created (w a)) eqn:Hc; cbn [negb].
  - destruct (becomes_ready fp (w a)) eqn:Hr; [intros [= <-]; split_and!; [left|done..]|].
    destruct (tryDirectConnection fp w ips) as [r log]. cbn in *. intros Hr'. destruct (IH Hr') as (? & ? & ?). split_and!; [by right|done..].
  - destruct (tryDirectConnection fp w ips) as [r log]. cbn in *. intros Hr'. destruct (IH Hr') as (? & ? & ?). split_and!; [by right|done..].
Qed.
Lemma tryDirect_None fp w ips : (tryDirectConnection fp w ips).1 = None →
  Forall (λ ip, dw_created (w ip) = false ∨ becomes_ready fp (w ip) = false) ips.
Proof.
  induction ips as [|a ips IH]; [done|]. cbn. destruct (dw_created (w a)) eqn:Hc; cbn [negb].
  - destruct (becomes_ready fp (w a)) eqn:Hr; [done|]. destruct (tryDirectConnection fp w ips) as [r log]. constructor; auto.
  - destruct (tryDirectConnection fp w ips) as [r log]. constructor; auto.
Qed.

Lemma ready_is_pinned fp w : is_blank fp = false → becomes_ready fp w = true →
  ∃ p cert, dw_peer w = Some p ∧ head (tp_chain p) = Some cert ∧ hex_string (sha256 cert) = normalized_fingerprint fp.
Proof.
  intros Hb Hr. unfold becomes_ready in Hr. apply andb_true_iff in Hr as [_ Hr]. destruct (dw_peer w) as [p|]; [|done].
  destruct (checkServerTrusted _ p) as [[cert|] [[]|e]] eqn:Ht; try done.
  - apply trusted_is_pinned in Ht as [Ht Hh]; [|done]. by exists p, cert.
  - unfold checkServerTrusted in Ht. by destruct (tp_chain p).
Qed.

(** C14: A connection goes the way the preference allows, to the pinned server.  With the
    preference in force (the call's, else the server's, else the default of the settings):
    a direct connection is made only when it is not "relay only", to one of the
    server's addresses, and the peer there presented the certificate pinned at enrolment;
    the relay is used only when it is not "direct only", the server has a relay, and
    either the preference is "relay only" or the settings allow the fallback and no
    address of the server answered with the pinned certificate; and an attempt fails
    only if one of these ways is closed and the other did not work. *)
Theorem connect_follows_the_preference s server override w :
  is_blank (es_certFingerprint server) = false →
  let preference := effective_preference s server override in
  let ips := prioritizeIps server (as_ipv6Preference s) in
  let has_relay := es_relayEnabled server = true ∧ is_Some (es_relayUrl server) ∧ is_Some (es_relayToken server) in
  let unreachable := Forall (λ ip, dw_created (cw_direct w ip) = false ∨ becomes_ready (es_certFingerprint server) (cw_direct w ip) = false) ips in
  match connect s server override w with
  | Ok (Direct address) => preference ≠ RELAY_ONLY ∧ ∃ ip p cert, ip ∈ ips ∧ address = fmt [ip; ":"; pretty (es_serverPort server)] ∧
      dw_peer (cw_direct w ip) = Some p ∧ head (tp_chain p) = Some cert ∧
      hex_string (sha256 cert) = normalized_fingerprint (es_certFingerprint server)
  | Ok (Relayed c) => cw_relay w = Ok c ∧ preference ≠ DIRECT_ONLY ∧ has_relay ∧
      (preference = RELAY_ONLY ∨ as_enableRelayFallback s = true ∧ unreachable)
  | Err _ => (preference = RELAY_ONLY ∨ unreachable) ∧
      (preference = DIRECT_ONLY ∨ ¬ has_relay ∨ (as_enableRelayFallback s = false ∧ preference ≠ RELAY_ONLY) ∨ is_ok (cw_relay w) = false)
  end.
Proof.
  intros Hb preference ips has_relay unreachable. unfold connect. fold preference ips.
  assert (preference = RELAY_ONLY ∨ preference = DIRECT_ONLY ∨ preference = AUTO) as Hcases by (destruct preference; auto).
  set (direct := if bool_decide (preference = RELAY_ONLY) then _ else _).
  assert (match direct with
    | Some ip => preference ≠ RELAY_ONLY ∧ ip ∈ ips ∧ becomes_ready (es_certFingerprint server) (cw_direct w ip) = true
    | None => preference = RELAY_ONLY ∨ unreachable end) as Hd.
  { unfold direct. case_bool_decide as E; [by left|]. destruct (_).1 as [ip|] eqn:Et.
    - by apply tryDirect_Some in Et as (? & _ & ?).
    - right. by apply tryDirect_None. }
  destruct direct as [ip|].
  - destruct Hd as (Hne & Hip & Hr). split; [done|]. destruct (ready_is_pinned _ _ Hb Hr) as (p & cert & ? & ? & ?). by exists ip, p, cert.
  - destruct (negb (bool_decide (preference = RELAY_ONLY)) && _) eqn:E1.
    { split; [done|]. left. apply andb_true_iff in E1 as [_ E1]. by rewrite negb_involutive, bool_decide_eq_true in E1. }
    destruct (es_relayEnabled server && _ && _) eqn:E2.
    + rewrite !andb_true_iff, !bool_decide_eq_true in E2. destruct (negb (as_enableRelayFallback s) && _) eqn:E3.
      * rewrite andb_true_iff, !negb_true_iff, bool_decide_eq_false in E3. split; [done|]. right. right. by left.
      * destruct (cw_relay w) as [c|p] eqn:Er; [|split; [done|]; do 3 right; done].
        assert (preference ≠ DIRECT_ONLY) as Hnd.
        { intros Hp. rewrite Hp in E1. done. }
        destruct E2 as [[R1 R2] R3]. split; [done|]. split; [done|]. split; [by split_and!|].
        destruct (decide (preference = RELAY_ONLY)) as [?|Hnr]; [by left|]. right.
        destruct Hd as [?|Hu]; [done|]. split; [|done]. rewrite (bool_decide_eq_false_2 _ Hnr), andb_true_r in E3. by destruct (as_enableRelayFallback s).
    + assert (¬ has_relay) as Hno.
      { intros (R1 & R2 & R3). rewrite R1, !bool_decide_eq_true_2 in E2; done. }
      destruct (bool_decide (preference = RELAY_ONLY)); (split; [done|]; right; by left).
Qed.
End connect.

(** ** The cache of relay connections

    Channels and shutdown jobs are numbered.  [rc_handed] are the channels that were handed to
    [shutdownChannel] (which says nothing about its end), [rc_dead] those that closed by
    themselves and [rc_stale] those that were dropped because they were not ready; a cached
    channel answers [isShutdown] when it is in [rc_dead], those handed over are not cached any
    more.  [rc_flights] are the calls of [tryRelayConnection] under way, [rc_held] the
    connections in the hands of callers and [rc_closing] the calls of [performRelayShutdown]
    about to run. *)
Record CachedRelayConnection := mkCached { ca_channel : nat; ca_refCount : nat; ca_job : option nat }.
Inductive flight :=
  | Checking (serverId : string) (channel : nat)    (* [awaitChannelReady] of a cached channel *)
  | Dropping (serverId : string) (channel : nat)    (* before its [shutdownChannel] *)
  | Closing (serverId : string)                     (* in [shutdownChannel] *)
  | Opening (serverId : string).                    (* [createChannelViaRelay] *)
#[export] Instance flight_eq_dec : EqDecision flight.
Proof. solve_decision. Defined.
Definition flight_server (f : flight) : string := match f with Checking s _ | Dropping s _ | Closing s | Opening s => s end.
Record relay_cache := mkRC {
  rc_cache : gmap string CachedRelayConnection;
  rc_jobs : gmap nat (string * nat);
  rc_nextjob : nat;
  rc_next : nat;
  rc_handed : gset nat;
  rc_dead : gset nat;
  rc_stale : gset nat;
  rc_flights : list flight;
  rc_held : list (string * nat);
  rc_closing : list (string * nat);
}.
Definition rc_init : relay_cache := mkRC ∅ ∅ 0 0 ∅ ∅ ∅ [] [] [].

Inductive cache_event :=
  | EvConnect (serverId : string)       (* the first locked region *)
  | EvReady (k : nat) (ready : bool)    (* the check of flight [k] ends *)
  | EvDropped (k : nat)                 (* it calls [shutdownChannel] for the stale channel *)
  | EvReturns (k : nat)                 (* this [shutdownChannel] returns or throws *)
  | EvOpened (k : nat) (ok : bool)      (* its new channel is there, or not *)
  | EvLost (k : nat)                    (* its new channel is there when the caller is cancelled or the time is over *)
  | EvCancel (k : nat) (locked : bool)  (* the caller of flight [k] is cancelled *)
  | EvDisconnect (k : nat) (force : bool)   (* of the [k]th connection held *)
  | EvJob (j : nat)                     (* the delay of a shutdown job is over *)
  | EvClose (k : nat)                   (* [performRelayShutdown] of a disconnect *)
  | EvDies (channel : nat).             (* a channel closes by itself *)

Definition pick {A} (k : nat) (l : list A) : option (A * list A) := a ← l !! k; Some (a, (take k l ++ drop (S k) l)%list).
Definition cancel (job : option nat) (jobs : gmap nat (string * nat)) : gmap nat (string * nat) :=
  match job with Some j => delete j jobs | None => jobs end.
(** [performRelayShutdown] *)
Definition performRelayShutdown (c : string * nat) (s : relay_cache) : relay_cache :=
  let '(mkRC cache jobs nj next handed dead stale flights held closing) := s in
  match cache !! c.1 with
  | Some e => if bool_decide (ca_channel e = c.2)
              then mkRC (delete c.1 cache) jobs nj next ({[c.2]} ∪ handed) dead stale flights held closing else s
  | None => s
  end.
(** [disconnectRelay]: the locked region. *)
Definition disconnectRelay (c : string * nat) (force : bool) (s : relay_cache) : relay_cache :=
  let '(mkRC cache jobs nj next handed dead stale flights held closing) := s in
  let close_now := mkRC cache jobs nj next handed dead stale flights held (c :: closing) in
  match cache !! c.1 with
  | None => close_now
  | Some e =>
      if negb (bool_decide (ca_channel e = c.2)) then close_now else
      let jobs := cancel (ca_job e) jobs in
      let refCount := Nat.pred (ca_refCount e) in
      if force then mkRC (<[c.1 := mkCached (ca_channel e) 0 None]> cache) jobs nj next handed dead stale flights held (c :: closing)
      else if (0 <? refCount)%nat then mkRC (<[c.1 := mkCached (ca_channel e) refCount None]> cache) jobs nj next handed dead stale flights held closing
      else mkRC (<[c.1 := mkCached (ca_channel e) refCount (Some nj)]> cache) (<[nj := c]> jobs) (S nj) next handed dead stale flights held closing
  end.

(** A cancelled caller that was waiting for the channel to become ready takes the
    cancellation for "not ready" ([catch (e: Exception)]).  If the lock is taken just then,
    waiting for it throws; otherwise the entry is removed, and then [shutdownChannel] and
    the new connection throw before they begin. *)
Definition cache_step (ev : cache_event) (s : relay_cache) : relay_cache :=
  let '(mkRC cache jobs nj next handed dead stale flights held closing) := s in
  match ev with
  | EvConnect sid =>
      match cache !! sid with
      | None => mkRC cache jobs nj next handed dead stale (Opening sid :: flights) held closing
      | Some e =>
          if bool_decide (ca_channel e ∈ dead)
          then mkRC (delete sid cache) (cancel (ca_job e) jobs) nj next handed dead stale (Opening sid :: flights) held closing
          else mkRC (<[sid := mkCached (ca_channel e) (S (ca_refCount e)) None]> cache) (cancel (ca_job e) jobs) nj next handed dead stale
                 (Checking sid (ca_channel e) :: flights) held closing
      end
  | EvReady k ready =>
      match pick k flights with
      | Some (Checking sid ch, rest) =>
          if ready then mkRC cache jobs nj next handed dead stale rest ((sid, ch) :: held) closing
          else mkRC (delete sid cache) jobs nj next handed dead ({[ch]} ∪ stale) (Dropping sid ch :: rest) held closing
      | _ => s
      end
  | EvDropped k =>
      match pick k flights with
      | Some (Dropping sid ch, rest) => mkRC cache jobs nj next ({[ch]} ∪ handed) dead stale (Closing sid :: rest) held closing
      | _ => s
      end
  | EvReturns k =>
      match pick k flights with
      | Some (Closing sid, rest) => mkRC cache jobs nj next handed dead stale (Opening sid :: rest) held closing
      | _ => s
      end
  | EvOpened k ok =>
      match pick k flights with
      | Some (Opening sid, rest) =>
          if ok then mkRC (<[sid := mkCached next 1 None]> cache) jobs nj (S next) handed dead stale rest ((sid, next) :: held) closing
          else mkRC cache jobs nj next handed dead stale rest held closing
      | _ => s
      end
  | EvLost k =>
      match pick k flights with
      | Some (Opening sid, rest) => mkRC cache jobs nj (S next) handed dead stale rest held closing
      | _ => s
      end
  | EvCancel k locked =>
      match pick k flights with
      | Some (Checking sid ch, rest) =>
          if locked then mkRC cache jobs nj next handed dead stale rest held closing
          else mkRC (delete sid cache) jobs nj next handed dead ({[ch]} ∪ stale) rest held closing
      | Some (_, rest) => mkRC cache jobs nj next handed dead stale rest held closing
      | None => s
      end
  | EvDisconnect k force =>
      match pick k held with
      | Some (c, rest) => disconnectRelay c force (mkRC cache jobs nj next handed dead stale flights rest closing)
      | None => s
      end
  | EvJob j =>
      match jobs !! j with
      | Some c => performRelayShutdown c (mkRC cache (delete j jobs) nj next handed dead stale flights held closing)
      | None => s
      end
  | EvClose k =>
      match pick k closing with
      | Some (c, rest) => performRelayShutdown c (mkRC cache jobs nj next handed dead stale flights held rest)
      | None => s
      end
  | EvDies ch => if (ch <? next)%nat then mkRC cache jobs nj next handed ({[ch]} ∪ dead) stale flights held closing else s
  end.

(** Calls for one server do not overlap; nobody forces a channel to be closed (nobody in the
    application does); a caller is not cancelled while it has a cached channel in hand, and no new
    channel is lost on the way to it. *)
Definition orderly_event (ev : cache_event) (s : relay_cache) : bool :=
  match ev with
  | EvConnect sid => bool_decide (sid ∉ flight_server <$> rc_flights s)
  | EvDisconnect _ force => negb force
  | EvLost _ => false
  | EvCancel k _ => match pick k (rc_flights s) with Some (Checking _ _, _) | Some (Dropping _ _, _) => false | _ => true end
  | _ => true
  end.
Fixpoint cache_run (evs : list cache_event) (s : relay_cache) : relay_cache :=
  match evs with [] => s | ev :: evs => cache_run evs (cache_step ev s) end.
Fixpoint orderly (evs : list cache_event) (s : relay_cache) : bool :=
  match evs with [] => true | ev :: evs => orderly_event ev s && orderly evs (cache_step ev s) end.

(** How often a channel is in use. *)
Definition uses (sid : string) (ch : nat) (held : list (string * nat)) (flights : list flight) : nat :=
  (length (filter (λ c, c = (sid, ch)) held) + length (filter (λ f, f = Checking sid ch) flights))%nat.
#[global] Arguments uses : simpl never.

(** ** Its invariant *)
Record cache_ok (s : relay_cache) : Prop := {
  ok_flights : NoDup (flight_server <$> rc_flights s);
  ok_fresh : ∀ sid e, rc_cache s !! sid = Some e → (ca_channel e < rc_next s)%nat;
  ok_count : ∀ sid e, rc_cache s !! sid = Some e → ca_refCount e = uses sid (ca_channel e) (rc_held s) (rc_flights s);
  ok_job : ∀ sid e, rc_cache s !! sid = Some e →
    match ca_job e with Some j => ca_refCount e = O ∧ rc_jobs s !! j = Some (sid, ca_channel e) | None => ca_refCount e ≠ O end;
  ok_jobs : ∀ j c, rc_jobs s !! j = Some c → (j < rc_nextjob s)%nat ∧ ∃ e, rc_cache s !! c.1 = Some e ∧ ca_channel e = c.2 ∧ ca_job e = Some j;
  ok_absent : ∀ f, f ∈ rc_flights s → match f with
    | Checking sid ch => ∃ e, rc_cache s !! sid = Some e ∧ ca_channel e = ch
    | Dropping sid ch => rc_cache s !! sid = None ∧ (ch < rc_next s)%nat ∧ ∀ sid' e, rc_cache s !! sid' = Some e → ca_channel e ≠ ch
    | Closing sid | Opening sid => rc_cache s !! sid = None
    end;
  ok_inj : ∀ s1 s2 e1 e2, rc_cache s !! s1 = Some e1 → rc_cache s !! s2 = Some e2 → ca_channel e1 = ca_channel e2 → s1 = s2;
  ok_live : ∀ sid e, rc_cache s !! sid = Some e → ca_channel e ∉ rc_handed s;
  ok_held : ∀ sid ch, (sid, ch) ∈ rc_held s → (ch < rc_next s)%nat ∧ (ch ∈ rc_stale s ∨ ch ∈ rc_dead s ∨ ∃ e, rc_cache s !! sid = Some e ∧ ca_channel e = ch);
  ok_closing : ∀ c e, c ∈ rc_closing s → rc_cache s !! c.1 = Some e → ca_channel e ≠ c.2;
  ok_handed : ∀ ch, ch ∈ rc_handed s → (ch < rc_next s)%nat;
  ok_closing_fresh : ∀ c, c ∈ rc_closing s → (c.2 < rc_next s)%nat;
  ok_leak : ∀ ch, (ch < rc_next s)%nat → ch ∈ rc_handed s ∨ ch ∈ rc_dead s ∨ (∃ sid e, rc_cache s !! sid = Some e ∧ ca_channel e = ch) ∨
    ∃ sid, Dropping sid ch ∈ rc_flights s;
}.

Lemma rc_init_ok : cache_ok rc_init.
Proof. split; cbn; try set_solver by lia. constructor. Qed.

Lemma pick_perm {A} k (l : list A) a rest : pick k l = Some (a, rest) → l ≡ₚ a :: rest.
Proof.
  unfold pick. intros E. apply bind_Some in E as (x & Hx & [= <- <-]). apply list_elem_of_split_length in Hx as (l1 & l2 & -> & ->).
  rewrite take_app_length, drop_app_ge by lia. replace (S (length l1) - length l1)%nat with 1%nat by lia. cbn. by rewrite <-Permutation_middle.
Qed.
(** The order of the lists does not matter. *)
Lemma cache_ok_perm cache jobs nj next handed dead stale f1 f2 h1 h2 c1 c2 : f1 ≡ₚ f2 → h1 ≡ₚ h2 → c1 ≡ₚ c2 →
  cache_ok (mkRC cache jobs nj next handed dead stale f1 h1 c1) → cache_ok (mkRC cache jobs nj next handed dead stale f2 h2 c2).
Proof.
  intros Hf Hh Hc [K1 K2 K3 K4 K5 K6 K7 K8 K9 K10 K11 K12 K13]. cbn in *. split; cbn; try done.
  - by rewrite <-Hf.
  - intros sid e He. unfold uses. cbn. rewrite <-Hf, <-Hh. by apply K3.
  - intros f Hin. apply K6. by rewrite Hf.
  - intros sid ch Hin. apply K9. by rewrite Hh.
  - intros c e Hin. apply K10. by rewrite Hc.
  - intros c Hin. apply K12. by rewrite Hc.
  - intros ch Hch. setoid_rewrite <-Hf. by apply K13.
Qed.

Lemma uses_held sid ch c held flights : uses sid ch (c :: held) flights = ((if decide (c = (sid, ch)) then 1 else 0) + uses sid ch held flights)%nat.
Proof. unfold uses. rewrite filter_cons. by case_decide. Qed.
Lemma uses_flight sid ch f held flights :
  uses sid ch held (f :: flights) = ((if decide (f = Checking sid ch) then 1 else 0) + uses sid ch held flights)%nat.
Proof. unfold uses. rewrite filter_cons. case_decide; cbn [length]; lia. Qed.
Lemma uses_zero sid ch held flights : uses sid ch held flights = O → ((sid, ch) ∉ held) ∧ (Checking sid ch ∉ flights).
Proof.
  unfold uses. intros E. split; intros Hin.
  - assert ((sid, ch) ∈ filter (λ c, c = (sid, ch)) held) as Hf by by apply list_elem_of_filter.
    destruct (filter _ held); [by apply not_elem_of_nil in Hf|]. cbn in E. lia.
  - assert (Checking sid ch ∈ filter (λ f, f = Checking sid ch) flights) as Hf by by apply list_elem_of_filter.
    destruct (filter (λ f, f = Checking sid ch) flights); [by apply not_elem_of_nil in Hf|]. cbn in E. lia.
Qed.

Ltac lookups := repeat match goal with
  | H : <[_ := _]> _ !! _ = Some _ |- _ => apply lookup_insert_Some in H as [[? ?]|[? ?]]
  | H : delete _ _ !! _ = Some _ |- _ => apply lookup_delete_Some in H as [? ?]
  end; simplify_eq; cbn in *.

(** The jobs of the other servers survive the cancellation of one server's. *)
Lemma cancel_others s sid e : cache_ok s → rc_cache s !! sid = Some e →
  (∀ j c, cancel (ca_job e) (rc_jobs s) !! j = Some c → c.1 ≠ sid ∧ rc_jobs s !! j = Some c) ∧
  (∀ j c, rc_jobs s !! j = Some c → c.1 ≠ sid → cancel (ca_job e) (rc_jobs s) !! j = Some c).
Proof.
  intros Hok He. split; intros j c Hj.
  - assert (rc_jobs s !! j = Some c) as Hj'.
    { destruct (ca_job e); [|done]. cbn in Hj. by apply lookup_delete_Some in Hj as [_ Hj]. }
    split; [|done]. intros <-. destruct (ok_jobs s Hok j c Hj') as (_ & e' & He' & _ & Hje). rewrite He in He'. injection He' as <-.
    rewrite Hje in Hj. cbn in Hj. by rewrite lookup_delete_eq in Hj.
  - intros Hne. pose proof (ok_job s Hok sid e He) as K. destruct (ca_job e) as [j'|]; [|done]. cbn. rewrite lookup_delete_ne; [done|].
    intros ->. destruct K as [_ K]. rewrite Hj in K. injection K as ->. done.
Qed.

(** Removing a server's entry. *)
Lemma drop_entry_ok cache jobs nj next handed dead stale flights held closing sid e jobs' handed' stale' flights' :
  cache_ok (mkRC cache jobs nj next handed dead stale flights held closing) → cache !! sid = Some e →
  (∀ j c, jobs' !! j = Some c → c.1 ≠ sid ∧ jobs !! j = Some c) → (∀ j c, jobs !! j = Some c → c.1 ≠ sid → jobs' !! j = Some c) →
  handed ⊆ handed' → (∀ ch, ch ∈ handed' → ch ∈ handed ∨ ch = ca_channel e) → stale ⊆ stale' →
  NoDup (flight_server <$> flights') →
  (∀ f, f ∈ flights' → (f ∈ flights ∧ flight_server f ≠ sid) ∨ f = Opening sid ∨ f = Dropping sid (ca_channel e)) →
  (∀ x ch, Dropping x ch ∈ flights → Dropping x ch ∈ flights') →
  (∀ x ch, x ≠ sid → uses x ch held flights' = uses x ch held flights) →
  (ca_channel e ∈ handed' ∨ ca_channel e ∈ dead ∨ Dropping sid (ca_channel e) ∈ flights') →
  ((sid, ca_channel e) ∈ held → ca_channel e ∈ stale' ∨ ca_channel e ∈ dead) →
  cache_ok (mkRC (delete sid cache) jobs' nj next handed' dead stale' flights' held closing).
Proof.
  intros [K1 K2 K3 K4 K5 K6 K7 K8 K9 K10 K11 K12 K13] He C1 C2 Hs1 Hs2 Hst Hnd Hf Hd Hu Hacc Hheld. cbn in *. split; cbn; try done.
  - intros sid' e' ?; lookups. by eapply K2.
  - intros sid' e' ?; lookups. rewrite Hu by done. by apply K3.
  - intros sid' e' ?; lookups. specialize (K4 sid' e' ltac:(done)). destruct (ca_job e') as [j|]; [|done].
    destruct K4 as [Kr Kj]. split; [done|]. by apply C2.
  - intros j c Hj. destruct (C1 j c Hj) as [Hne Hj']. destruct (K5 j c Hj') as (? & e' & ? & ? & ?). split; [done|].
    exists e'. by rewrite lookup_delete_ne by done.
  - intros f Hin. destruct (Hf f Hin) as [[Hin' Hne]|[->| ->]]; [|apply lookup_delete_eq|].
    + specialize (K6 f Hin'). destruct f as [sid' ch|sid' ch|sid'|sid']; cbn in *; rewrite lookup_delete_ne by done; [done| |done|done].
      destruct K6 as (? & ? & K6). split_and!; [done..|]. intros sid2 e2 ?; lookups. by eapply K6.
    + split_and!; [apply lookup_delete_eq|by eapply K2|]. intros sid' e' ? Heq; lookups. by apply H, (K7 sid sid' e e').
  - intros s1 s2 e1 e2 ? ?; lookups. by eapply K7.
  - intros sid' e' ? Hin; lookups. destruct (Hs2 _ Hin) as [?|Heq]; [by eapply K8|]. by apply H, (K7 sid sid' e e').
  - intros sid' ch Hh. destruct (K9 sid' ch Hh) as [? [?|[?|(e' & He' & Hch)]]]; split; auto.
    destruct (decide (sid' = sid)) as [->|]; [|right; right; exists e'; by rewrite lookup_delete_ne].
    rewrite He in He'. injection He' as <-. subst ch. destruct (Hheld Hh); auto.
  - intros c e' Hc ?; lookups. by eapply K10.
  - intros ch Hch. destruct (Hs2 ch Hch) as [?| ->]; [by apply K11|by eapply K2].
  - intros ch Hch. destruct (K13 ch Hch) as [?|[?|[(sid' & e' & He' & <-)|[sid' Hin]]]]; [left; by apply Hs1|by auto| |do 3 right; exists sid'; auto].
    destruct (decide (sid' = sid)) as [->|]; [rewrite He in He'; injection He' as <-; destruct Hacc as [?|[?|?]]; eauto 6|].
    do 2 right. left. exists sid', e'. by rewrite lookup_delete_ne.
Qed.

(** Changing the count and the job of a server's entry. *)
Lemma set_entry_ok cache jobs nj next handed dead stale flights held closing sid e n job jobs' nj' flights' held' closing' :
  cache_ok (mkRC cache jobs nj next handed dead stale flights held closing) → cache !! sid = Some e →
  (∀ j c, jobs' !! j = Some c → (c.1 ≠ sid ∧ jobs !! j = Some c) ∨ (Some j = job ∧ c = (sid, ca_channel e) ∧ (j < nj')%nat)) →
  (∀ j c, jobs !! j = Some c → c.1 ≠ sid → jobs' !! j = Some c) → (nj <= nj')%nat →
  match job with Some j => n = O ∧ jobs' !! j = Some (sid, ca_channel e) | None => n ≠ O end →
  NoDup (flight_server <$> flights') →
  (∀ f, f ∈ flights' → f ∈ flights ∨ f = Checking sid (ca_channel e)) → (∀ x ch, Dropping x ch ∈ flights → Dropping x ch ∈ flights') →
  (∀ c, c ∈ held' → c ∈ held) → (∀ c, c ∈ closing' → c ∈ closing) →
  n = uses sid (ca_channel e) held' flights' → (∀ x ch, x ≠ sid → uses x ch held' flights' = uses x ch held flights) →
  cache_ok (mkRC (<[sid := mkCached (ca_channel e) n job]> cache) jobs' nj' next handed dead stale flights' held' closing').
Proof.
  intros [K1 K2 K3 K4 K5 K6 K7 K8 K9 K10 K11 K12 K13] He C1 C2 Hnj Hjob Hnd Hf Hd Hheld Hcl Hn Hu. cbn in *. split; cbn; try done.
  - intros sid' e' ?; lookups; by eapply K2.
  - intros sid' e' ?; lookups; [done|]. rewrite Hu by done. by apply K3.
  - intros sid' e' ?; lookups; [done|]. specialize (K4 sid' e' ltac:(done)). destruct (ca_job e') as [j|]; [|done].
    destruct K4 as [Kr Kj]. split; [done|]. by apply C2.
  - intros j c Hj. destruct (C1 j c Hj) as [[Hne Hj']|(<- & -> & ?)].
    + destruct (K5 j c Hj') as (? & e' & ? & ? & ?). split; [lia|]. exists e'. by rewrite lookup_insert_ne by done.
    + split; [done|]. eexists. by rewrite lookup_insert_eq.
  - intros f Hin. destruct (Hf f Hin) as [Hin'| ->]; [|eexists; split; [apply lookup_insert_eq|done]].
    specialize (K6 f Hin'). destruct f as [sid' ch|sid' ch|sid'|sid'].
    + destruct K6 as (e' & He' & <-). destruct (decide (sid' = sid)) as [->|]; [|exists e'; by rewrite lookup_insert_ne].
      eexists. split; [apply lookup_insert_eq|]. cbn. by rewrite He in He'; injection He' as <-.
    + destruct K6 as (? & ? & K6). rewrite lookup_insert_ne by congruence. split_and!; [done..|]. intros sid2 e2 ?; lookups; [|by eapply K6].
      by eapply K6.
    + rewrite lookup_insert_ne by congruence. done.
    + rewrite lookup_insert_ne by congruence. done.
  - intros s1 s2 e1 e2 ? ? ?; lookups; try done; eapply K7; eauto.
  - intros sid' e' ?; lookups; by eapply K8.
  - intros sid' ch Hh. destruct (K9 sid' ch (Hheld _ Hh)) as [? [?|[?|(e' & He' & Hch)]]]; split; auto.
    right. right. destruct (decide (sid' = sid)) as [->|]; [|exists e'; by rewrite lookup_insert_ne].
    eexists. split; [apply lookup_insert_eq|]. cbn. rewrite He in He'. by injection He' as <-.
  - intros c e' Hc ?; lookups; eapply K10; eauto.
  - intros c Hc. auto.
  - intros ch Hch. destruct (K13 ch Hch) as [?|[?|[(sid' & e' & He' & <-)|[sid' Hin]]]]; [by auto..| |do 3 right; exists sid'; auto].
    do 2 right. left. destruct (decide (sid' = sid)) as [->|]; [|exists sid', e'; by rewrite lookup_insert_ne].
    rewrite He in He'. injection He' as <-. exists sid. eexists. by rewrite lookup_insert_eq.
Qed.

Lemma connect_ok s sid : cache_ok s → sid ∉ flight_server <$> rc_flights s → cache_ok (cache_step (EvConnect sid) s).
Proof.
  intros Hok Hnew. pose proof (cancel_others s sid) as Hcan. specialize (Hcan) with (1 := Hok).
  destruct s as [cache jobs nj next handed dead stale flights held closing]. cbn in Hcan. cbn [rc_flights] in Hnew. cbn [cache_step].
  assert (∀ f, f ∈ flights → flight_server f ≠ sid) as Hother.
  { intros f Hf <-. apply Hnew. by apply list_elem_of_fmap_2. }
  pose proof (ok_flights _ Hok) as Hnd. cbn in Hnd.
  destruct (cache !! sid) as [e|] eqn:He; [destruct (Hcan e eq_refl) as [C1 C2]; case_bool_decide as Hdead|].
  - apply (drop_entry_ok _ _ _ _ _ _ _ _ _ _ sid e _ _ _ _ Hok He); try done.
    + auto.
    + by constructor.
    + intros f [->|Hf]%elem_of_cons; auto.
    + intros x ch ?; by right.
    + auto.
    + auto.
  - apply (set_entry_ok _ _ _ _ _ _ _ _ _ _ sid e _ _ _ _ _ _ _ Hok He); try done.
    + intros j c Hjc. left. auto.
    + by constructor.
    + intros f [->|Hf]%elem_of_cons; auto.
    + intros x ch ?; by right.
    + rewrite uses_flight, decide_True by done. by rewrite (ok_count _ Hok sid e He).
    + intros x ch Hne. rewrite uses_flight, decide_False by congruence. done.
  - destruct Hok as [K1 K2 K3 K4 K5 K6 K7 K8 K9 K10 K11 K12 K13]. cbn in *. split; cbn; try done.
    + by constructor.
    + intros f [->|Hf]%elem_of_cons; [done|by apply K6].
    + intros ch Hch. destruct (K13 ch Hch) as [?|[?|[?|[x Hx]]]]; [by auto..|]. do 3 right. exists x. by right.
Qed.

Lemma ready_ok s k ready : cache_ok s → cache_ok (cache_step (EvReady k ready) s).
Proof.
  destruct s as [cache jobs nj next handed dead stale flights held closing]. intros Hok. cbn [cache_step].
  destruct (pick k flights) as [[[sid ch|sid ch|sid|sid] rest]|] eqn:Hp; try done. apply pick_perm in Hp.
  apply (cache_ok_perm _ _ _ _ _ _ _ _ _ _ held _ closing Hp (reflexivity _) (reflexivity _)) in Hok.
  pose proof (ok_flights _ Hok) as Hnd. cbn in Hnd. apply NoDup_cons in Hnd as [Hn Hnd].
  destruct (ok_absent _ Hok (Checking sid ch)) as (e & He & <-); [left|]. cbn in He.
  assert (ca_job e = None) as Hj.
  { pose proof (ok_job _ Hok sid e He) as K. pose proof (ok_count _ Hok sid e He) as Kc. cbn in K, Kc.
    rewrite uses_flight, decide_True in Kc by done. destruct (ca_job e); [|done]. destruct K. lia. }
  destruct ready.
  - destruct Hok as [K1 K2 K3 K4 K5 K6 K7 K8 K9 K10 K11 K12 K13]. cbn in *. split; cbn; try done.
    + intros x e' Hx. rewrite (K3 x e' Hx), uses_held, uses_flight. by repeat case_decide; simplify_eq.
    + intros f Hf. apply K6. by right.
    + intros x ch [[= -> ->]|Hx]%elem_of_cons; [|by apply K9]. split; [by eapply K2|]. right. right. by exists e.
    + intros ch Hch. destruct (K13 ch Hch) as [?|[?|[?|[x [?|Hx]%elem_of_cons]]]]; eauto 6. done.
  - assert (∀ f, f ∈ rest → flight_server f ≠ sid) as Hother.
    { intros f Hf <-. apply Hn. by apply list_elem_of_fmap_2. }
    apply (drop_entry_ok _ _ _ _ _ _ _ _ _ _ sid e _ _ _ _ Hok He); try done.
    + intros j c Hjc. split; [|done]. intros <-. destruct (ok_jobs _ Hok j c Hjc) as (_ & e' & He' & _ & Hje). cbn in He'. congruence.
    + auto.
    + apply union_subseteq_r.
    + by constructor.
    + intros f [->|Hf]%elem_of_cons; [auto|]. left. split; [by right|auto].
    + intros x ch [?|Hx]%elem_of_cons; [done|by right].
    + intros x ch Hne. rewrite !uses_flight, !decide_False by congruence. done.
    + do 2 right. left.
    + intros _. left. apply elem_of_union_l, elem_of_singleton_2. done.
Qed.

Lemma dropped_ok s k : cache_ok s → cache_ok (cache_step (EvDropped k) s).
Proof.
  destruct s as [cache jobs nj next handed dead stale flights held closing]. intros Hok. cbn [cache_step].
  destruct (pick k flights) as [[[sid ch|sid ch|sid|sid] rest]|] eqn:Hp; try done. apply pick_perm in Hp.
  apply (cache_ok_perm _ _ _ _ _ _ _ _ _ _ held _ closing Hp (reflexivity _) (reflexivity _)) in Hok.
  destruct Hok as [K1 K2 K3 K4 K5 K6 K7 K8 K9 K10 K11 K12 K13]. cbn in *.
  destruct (K6 (Dropping sid ch)) as (Hno & Hlt & Hch); [left|]. split; cbn; try done.
  - intros f [->|Hf]%elem_of_cons; [done|]. apply K6. by right.
  - intros x e Hx [Heq%elem_of_singleton|?]%elem_of_union; [by apply Hch in Hx|by eapply K8].
  - intros c Hc. apply elem_of_union in Hc as [->%elem_of_singleton|?]; auto.
  - intros c Hc. destruct (K13 c Hc) as [?|[?|[?|[x [[= -> ->]|Hx]%elem_of_cons]]]]; [set_solver|by auto..|set_solver|]. do 3 right. exists x. by right.
Qed.

Lemma opened_ok s k ok : cache_ok s → cache_ok (cache_step (EvOpened k ok) s).
Proof.
  destruct s as [cache jobs nj next handed dead stale flights held closing]. intros Hok. cbn [cache_step].
  destruct (pick k flights) as [[[sid ch|sid ch|sid|sid] rest]|] eqn:Hp; try done. apply pick_perm in Hp.
  apply (cache_ok_perm _ _ _ _ _ _ _ _ _ _ held _ closing Hp (reflexivity _) (reflexivity _)) in Hok.
  destruct Hok as [K1 K2 K3 K4 K5 K6 K7 K8 K9 K10 K11 K12 K13]. cbn in *. apply NoDup_cons in K1 as [Hn K1].
  assert (cache !! sid = None) as Hno by (apply (K6 (Opening sid)); left).
  assert (∀ x c, uses x c held (Opening sid :: rest) = uses x c held rest) as Hu.
  { intros x c. by rewrite uses_flight, decide_False by done. }
  destruct ok; split; cbn; try done.
  - intros x e Hx; lookups; [lia|]. specialize (K2 x e ltac:(done)). lia.
  - intros x e Hx; lookups.
    + rewrite uses_held, decide_True by done. f_equal. symmetry. destruct (uses x next held rest) eqn:E; [done|]. exfalso.
      unfold uses in E. destruct (filter (λ c, c = (x, next)) held) as [|c l] eqn:Eh.
      * destruct (filter (λ f, f = Checking x next) rest) as [|f l] eqn:Ef; [done|].
        assert (f ∈ filter (λ f, f = Checking x next) rest) as [-> Hf]%list_elem_of_filter by (rewrite Ef; left).
        destruct (K6 (Checking x next)) as (e & He & Hc); [by right|]. congruence.
      * assert (c ∈ filter (λ c, c = (x, next)) held) as [-> Hc]%list_elem_of_filter by (rewrite Eh; left).
        destruct (K9 x next Hc) as [? _]. lia.
    + rewrite uses_held, decide_False by congruence. rewrite (K3 x e) by done. apply Hu.
  - intros x e Hx; lookups; [done|]. by apply K4.
  - intros j c Hj. destruct (K5 j c Hj) as (? & e & He & ?). split; [done|]. exists e. by rewrite lookup_insert_ne by congruence.
  - intros f Hf. assert (flight_server f ≠ sid) as Hne by (intros <-; apply Hn; by apply list_elem_of_fmap_2).
    specialize (K6 f ltac:(by right)). destruct f as [x c|x c|x|x]; cbn in *; rewrite lookup_insert_ne by done; [done| |done|done].
    destruct K6 as (? & ? & K6). split_and!; [done|lia|]. intros y e Hy; lookups; [lia|]. by eapply K6.
  - intros s1 s2 e1 e2 L1 L2 Heq. apply lookup_insert_Some in L1 as [[<- <-]|[N1 L1]]; apply lookup_insert_Some in L2 as [[<- <-]|[N2 L2]].
    + done.
    + apply K2 in L2. cbn in Heq. lia.
    + apply K2 in L1. cbn in Heq. lia.
    + by eapply K7.
  - intros x e Hx Hin; lookups; [apply K11 in Hin; lia|]. by eapply K8.
  - intros x c [[= -> ->]|Hx]%elem_of_cons.
    + split; [lia|]. right. right. eexists. by rewrite lookup_insert_eq.
    + destruct (K9 x c Hx) as [? [?|[?|(e & He & ?)]]]; (split; [lia|]); auto. right. right. exists e. by rewrite lookup_insert_ne by congruence.
  - intros c e Hc He; lookups; [apply K12 in Hc; lia|]. by eapply K10.
  - intros c Hc. apply K11 in Hc. lia.
  - intros c Hc. apply K12 in Hc. lia.
  - intros c Hc. destruct (decide (c = next)) as [->|Hne]; [do 2 right; left; exists sid; eexists; by rewrite lookup_insert_eq|].
    destruct (K13 c ltac:(lia)) as [?|[?|[(x & e & He & ?)|[x [?|Hx]%elem_of_cons]]]]; [by auto..| |done|do 3 right; by exists x].
    do 2 right. left. exists x, e. by rewrite lookup_insert_ne by congruence.
  - intros f Hf. apply K6. by right.
  - intros c Hc. destruct (K13 c Hc) as [?|[?|[?|[x [?|Hx]%elem_of_cons]]]]; [by auto..|done|do 3 right; by exists x].
Qed.

Lemma uses_rest_le sid ch c held flights : (uses sid ch held flights <= uses sid ch (c :: held) flights)%nat.
Proof. rewrite uses_held. lia. Qed.

(** A caller gives a connection back that the cache no longer has. *)
Lemma close_now_ok cache jobs nj next handed dead stale flights c held closing :
  cache_ok (mkRC cache jobs nj next handed dead stale flights (c :: held) closing) →
  (∀ e, cache !! c.1 = Some e → ca_channel e ≠ c.2) →
  cache_ok (mkRC cache jobs nj next handed dead stale flights held (c :: closing)).
Proof.
  intros [K1 K2 K3 K4 K5 K6 K7 K8 K9 K10 K11 K12 K13] Hne. cbn in *. split; cbn; try done.
  - intros x e Hx. rewrite (K3 x e Hx), uses_held, decide_False; [done|]. intros ->. cbn in Hne. by apply (Hne e).
  - intros x ch Hh. apply K9. by right.
  - intros d e [->|Hd]%elem_of_cons; [apply Hne|by apply K10].
  - intros d [->|Hd]%elem_of_cons; [|by apply K12]. destruct c as [x ch]. apply (K9 x ch). left.
Qed.

Lemma disconnect_ok s k : cache_ok s → cache_ok (cache_step (EvDisconnect k false) s).
Proof.
  destruct s as [cache jobs nj next handed dead stale flights held closing]. intros Hok. cbn [cache_step].
  destruct (pick k held) as [[[sid ch] rest]|] eqn:Hp; [|done]. apply pick_perm in Hp.
  apply (cache_ok_perm _ _ _ _ _ _ _ _ flights _ _ _ closing (reflexivity _) Hp (reflexivity _)) in Hok.
  unfold disconnectRelay. cbn [fst snd]. destruct (cache !! sid) as [e|] eqn:He; [|apply close_now_ok; [done|cbn; congruence]].
  case_bool_decide as Hch; cbn [negb]; [subst ch|apply close_now_ok; [done|cbn; congruence]].
  pose proof (ok_count _ Hok sid e He) as Hc. cbn in Hc. rewrite uses_held, decide_True in Hc by done.
  pose proof (ok_job _ Hok sid e He) as Hj. cbn in Hj. destruct (ca_job e) as [j|] eqn:Ej; [destruct Hj; lia|]. cbn [cancel].
  assert (∀ j c, jobs !! j = Some c → c.1 ≠ sid) as Hno.
  { intros j c Hjc <-. destruct (ok_jobs _ Hok j c Hjc) as (_ & e' & He' & _ & ?). cbn in He'. congruence. }
  assert (∀ x d, x ≠ sid → uses x d rest flights = uses x d ((sid, ca_channel e) :: rest) flights) as Hu.
  { intros x d Hne. by rewrite uses_held, decide_False by congruence. }
  pose proof (ok_flights _ Hok) as Hnd. cbn in Hnd. destruct (0 <? Nat.pred (ca_refCount e))%nat eqn:Hpos.
  - apply Nat.ltb_lt in Hpos. apply (set_entry_ok _ _ _ _ _ _ _ _ _ _ sid e _ _ _ _ _ _ _ Hok He); try done; try lia.
    + intros j c Hjc. left. eauto.
    + auto.
    + intros c Hc'. by right.
  - apply Nat.ltb_ge in Hpos. apply (set_entry_ok _ _ _ _ _ _ _ _ _ _ sid e _ _ _ _ _ _ _ Hok He); try done; try lia.
    + intros j c Hjc. apply lookup_insert_Some in Hjc as [[<- <-]|[_ Hjc]]; [right; split_and!; [done..|lia]|left; eauto].
    + intros j c Hjc Hne. destruct (ok_jobs _ Hok j c Hjc) as [Hlt _]. cbn in Hlt. rewrite lookup_insert_ne by lia. done.
    + split; [lia|]. apply lookup_insert_eq.
    + auto.
    + intros c Hc'. by right.
Qed.

Lemma job_ok s j : cache_ok s → cache_ok (cache_step (EvJob j) s).
Proof.
  destruct s as [cache jobs nj next handed dead stale flights held closing]. intros Hok. cbn [cache_step].
  destruct (jobs !! j) as [[sid ch]|] eqn:Hj; [|done]. destruct (ok_jobs _ Hok j _ Hj) as (_ & e & He & Hch & Hje). cbn in He, Hch. subst ch.
  pose proof (ok_job _ Hok sid e He) as Hz. rewrite Hje in Hz. destruct Hz as [Hz _]. pose proof (ok_count _ Hok sid e He) as Hc. cbn in Hc.
  rewrite Hz in Hc. symmetry in Hc. apply uses_zero in Hc as [Hheld Hcheck].
  unfold performRelayShutdown. cbn [fst snd]. rewrite He, bool_decide_eq_true_2 by done.
  pose proof (ok_flights _ Hok) as Hnd. cbn in Hnd. apply (drop_entry_ok _ _ _ _ _ _ _ _ _ _ sid e _ _ _ _ Hok He); try done.
  - intros j' c Hjc. apply lookup_delete_Some in Hjc as [Hne Hjc]. split; [|done]. intros <-.
    destruct (ok_jobs _ Hok j' c Hjc) as (_ & e' & He' & _ & ?). cbn in He'. congruence.
  - intros j' c Hjc Hne. rewrite lookup_delete_ne; [done|]. intros <-. rewrite Hj in Hjc. by injection Hjc as <-.
  - apply union_subseteq_r.
  - intros c [->%elem_of_singleton|?]%elem_of_union; auto.
  - intros f Hf. left. split; [done|]. intros <-. pose proof (ok_absent _ Hok f Hf) as K. destruct f as [x c|x c|x|x]; cbn in *.
    + destruct K as (e' & He' & <-). rewrite He in He'. by injection He' as <-.
    + destruct K as [K _]. congruence.
    + congruence.
    + congruence.
  - left. apply elem_of_union_l, elem_of_singleton_2. done.
Qed.

Lemma close_ok s k : cache_ok s → cache_ok (cache_step (EvClose k) s).
Proof.
  destruct s as [cache jobs nj next handed dead stale flights held closing]. intros Hok. cbn [cache_step].
  destruct (pick k closing) as [[c rest]|] eqn:Hp; [|done]. apply pick_perm in Hp.
  apply (cache_ok_perm _ _ _ _ _ _ _ _ flights _ held _ _ (reflexivity _) (reflexivity _) Hp) in Hok.
  assert (cache_ok (mkRC cache jobs nj next handed dead stale flights held rest)) as Hok'.
  { destruct Hok as [K1 K2 K3 K4 K5 K6 K7 K8 K9 K10 K11 K12 K13]. split; cbn in *; try done.
    - intros d e Hd. apply K10. by right.
    - intros d Hd. apply K12. by right. }
  unfold performRelayShutdown. destruct (cache !! c.1) as [e|] eqn:He; [|done]. rewrite bool_decide_eq_false_2; [done|].
  apply (ok_closing _ Hok c e); [left|done].
Qed.

Lemma dies_ok s ch : cache_ok s → cache_ok (cache_step (EvDies ch) s).
Proof.
  destruct s as [cache jobs nj next handed dead stale flights held closing]. intros Hok. cbn [cache_step].
  destruct (ch <? next)%nat eqn:Hlt; [|done]. apply Nat.ltb_lt in Hlt.
  destruct Hok as [K1 K2 K3 K4 K5 K6 K7 K8 K9 K10 K11 K12 K13]. split; cbn in *; try done.
  - intros x c Hh. destruct (K9 x c Hh) as [? [?|[?|?]]]; (split; [done|]); [by left|right; left; set_solver|by auto].
  - intros c Hc. destruct (K13 c Hc) as [?|[?|?]]; [by left|right; left; set_solver|by auto].
Qed.

(** A flight that is neither waiting for nor dropping a cached channel moves on or ends. *)
Lemma flight_ok cache jobs nj next handed dead stale f f' rest held closing :
  cache_ok (mkRC cache jobs nj next handed dead stale (f :: rest) held closing) →
  match f with Closing _ | Opening _ => True | _ => False end →
  match f' with None => True | Some g => ∃ sid, g = Opening sid ∧ flight_server f = sid end →
  cache_ok (mkRC cache jobs nj next handed dead stale (option_list f' ++ rest)%list held closing).
Proof.
  intros Hok Hf Hf'. assert (f' = None ∨ f' = Some (Opening (flight_server f))) as Hcase.
  { destruct f' as [g|]; [|by left]. destruct Hf' as (sid & -> & <-). by right. }
  destruct Hok as [K1 K2 K3 K4 K5 K6 K7 K8 K9 K10 K11 K12 K13]. cbn in *. apply NoDup_cons in K1 as [Hn K1].
  assert (cache !! flight_server f = None) as Hno by (specialize (K6 f ltac:(left)); by destruct f).
  split; cbn; try done.
  - destruct Hcase as [-> | ->]; [done|by constructor].
  - intros x e Hx. rewrite (K3 x e Hx), uses_flight, decide_False by (by intros ->).
    destruct Hcase as [-> | ->]; [done|]. change (option_list _ ++ rest)%list with (Opening (flight_server f) :: rest).
    by rewrite uses_flight, decide_False.
  - intros g Hg. destruct Hcase as [-> | ->]; cbn [option_list app] in Hg; [apply K6; by right|].
    apply elem_of_cons in Hg as [->|Hg]; [done|]. apply K6. by right.
  - intros c Hc. destruct (K13 c Hc) as [?|[?|[?|[x [<-|Hx]%elem_of_cons]]]]; [by auto..|done|].
    do 3 right. exists x. apply elem_of_app. by right.
Qed.
Lemma returns_ok s k : cache_ok s → cache_ok (cache_step (EvReturns k) s).
Proof.
  destruct s as [cache jobs nj next handed dead stale flights held closing]. intros Hok. cbn [cache_step].
  destruct (pick k flights) as [[[sid ch|sid ch|sid|sid] rest]|] eqn:Hp; try done. apply pick_perm in Hp.
  apply (cache_ok_perm _ _ _ _ _ _ _ _ _ _ held _ closing Hp (reflexivity _) (reflexivity _)) in Hok.
  apply (flight_ok _ _ _ _ _ _ _ _ (Some (Opening sid)) _ _ _ Hok); [done|]. by exists sid.
Qed.
Lemma cancel_ok s k locked : orderly_event (EvCancel k locked) s = true → cache_ok s → cache_ok (cache_step (EvCancel k locked) s).
Proof.
  destruct s as [cache jobs nj next handed dead stale flights held closing]. cbn. intros Ho Hok.
  destruct (pick k flights) as [[[sid ch|sid ch|sid|sid] rest]|] eqn:Hp; try done; apply pick_perm in Hp;
    apply (cache_ok_perm _ _ _ _ _ _ _ _ _ _ held _ closing Hp (reflexivity _) (reflexivity _)) in Hok;
    by apply (flight_ok _ _ _ _ _ _ _ _ None _ _ _ Hok).
Qed.

Lemma cache_step_ok ev s : orderly_event ev s = true → cache_ok s → cache_ok (cache_step ev s).
Proof.
  intros Ho Hok. destruct ev as [sid|k r|k|k|k o|k|k locked|k force|j|k|ch]; try (by apply cancel_ok); cbn in Ho; try done.
  - apply bool_decide_eq_true in Ho. by apply connect_ok.
  - by apply ready_ok.
  - by apply dropped_ok.
  - by apply returns_ok.
  - by apply opened_ok.
  - destruct force; [done|]. by apply disconnect_ok.
  - by apply job_ok.
  - by apply close_ok.
  - by apply dies_ok.
Qed.
Lemma cache_run_ok evs s : orderly evs s = true → cache_ok s → cache_ok (cache_run evs s).
Proof.
  revert s. induction evs as [|ev evs IH]; intros s Ho Hok; [done|]. cbn in Ho. apply andb_true_iff in Ho as [H1 H2].
  cbn. apply IH; [done|]. by apply cache_step_ok.
Qed.

(** C22: Relay connections are shared and given up correctly as long as calls do not overlap.
    In every run of the connection manager in which calls for one server follow one
    another (interleaved in any way with calls for other servers, with callers that give
    their connections back, with delayed shutdowns and with channels that die), no caller
    is cancelled with a cached channel in hand and no new channel is lost on the way to a cancelled
    caller: every channel that was ever opened died, or has been handed to [shutdownChannel],
    or is cached, or is about to be handed over.  (What [shutdownChannel] then does
    is another matter: see [relay_shutdown_never_ends].)  A cached channel's count is the
    number of its users, and once it has none its handing over is scheduled; and a channel in a caller's
    hands is handed over only if it died or another call found it not ready. *)
Theorem relay_channels_are_accounted_for evs : orderly evs rc_init = true →
  let s := cache_run evs rc_init in
  (∀ ch, (ch < rc_next s)%nat → ch ∈ rc_dead s ∨ ch ∈ rc_handed s ∨ (∃ sid e, rc_cache s !! sid = Some e ∧ ca_channel e = ch) ∨
    ∃ sid, Dropping sid ch ∈ rc_flights s) ∧
  (∀ sid e, rc_cache s !! sid = Some e → (ca_channel e ∉ rc_handed s) ∧
    ca_refCount e = uses sid (ca_channel e) (rc_held s) (rc_flights s) ∧
    (ca_refCount e = O → ∃ j, rc_jobs s !! j = Some (sid, ca_channel e))) ∧
  (∀ sid ch, (sid, ch) ∈ rc_held s → ch ∈ rc_handed s → ch ∈ rc_dead s ∨ ch ∈ rc_stale s).
Proof.
  intros Ho s. pose proof (cache_run_ok evs rc_init Ho rc_init_ok) as Hok. fold s in Hok. split_and!.
  - intros ch Hch. destruct (ok_leak s Hok ch Hch) as [?|[?|?]]; auto.
  - intros sid e He. split; [by apply (ok_live s Hok sid)|]. split; [by apply (ok_count s Hok)|].
    intros Hz. pose proof (ok_job s Hok sid e He) as K. destruct (ca_job e) as [j|]; [|done]. exists j. by destruct K.
  - intros sid ch Hh Hs. destruct (ok_held s Hok sid ch Hh) as [_ [?|[?|(e & He & <-)]]]; auto. by apply (ok_live s Hok sid) in Hs.
Qed.

(** Two overlapping calls for one server open two channels; the cache forgets the first,
    and giving it back does not close it. *)
Definition overlap : list cache_event :=
  [EvConnect "home"; EvConnect "home"; EvOpened 0 true; EvOpened 0 true; EvDisconnect 1 false; EvClose 0; EvDisconnect 0 false; EvJob 0].
Lemma overlapping_calls_leak : let s := cache_run overlap rc_init in
  rc_held s = [] ∧ rc_flights s = [] ∧ rc_closing s = [] ∧ rc_cache s = ∅ ∧ rc_jobs s = ∅ ∧ rc_next s = 2%nat ∧ rc_handed s = {[1%nat]}.
Proof. vm_compute. repeat split. Qed.

(** A caller that is cancelled while it checks a cached channel takes it out of the cache
    without closing it; one that is cancelled just when its new channel arrives loses it. *)
Definition cancelled_check : list cache_event :=
  [EvConnect "home"; EvOpened 0 true; EvDisconnect 0 false; EvConnect "home"; EvCancel 0 false].
Lemma cancelled_call_leaks :
  cache_run cancelled_check rc_init = mkRC ∅ ∅ 1 1 ∅ ∅ {[0%nat]} [] [] [] ∧
  cache_run [EvConnect "home"; EvLost 0] rc_init = mkRC ∅ ∅ 0 1 ∅ ∅ ∅ [] [] [].
Proof. vm_compute. done. Qed.

(** ** Witnesses *)
Definition calm : list cache_event :=
  [EvConnect "home"; EvConnect "work"; EvOpened 1 true; EvConnect "home"; EvReady 0 true; EvOpened 0 false; EvDisconnect 0 false;
   EvDisconnect 0 false].
Lemma relay_channels_are_accounted_for_witness : let s := cache_run calm rc_init in
  ∃ j, rc_jobs s !! j = Some ("home", 0%nat).
Proof.
  destruct (relay_channels_are_accounted_for calm ltac:(vm_compute; reflexivity)) as (_ & H & _).
  destruct (H "home" (mkCached 0 0 (Some 0%nat)) ltac:(vm_compute; reflexivity)) as (_ & _ & Hj). exact (Hj eq_refl).
Defined.

#[local] Existing Instance demo_sha256.
Definition connected_server : EnrolledServerEntity :=
  mkEnrolledServerEntity "home" ["192.168.1.2"; "fe80::1"] 50051 "me" "den" (computeFingerprint [x2a]) 0 None true (Some "wss://relay")
    (Some "token") false None AUTO MODE_UNKNOWN None None.
Definition nobody_direct : connect_world := mkConnectWorld (λ _, mkDirectWorld true true (Some (mkTlsPeer [[x66]] true))) (Ok 0%nat).
Lemma connect_follows_the_preference_witness :
  connect AppSettings_default connected_server None nobody_direct = Ok (Relayed 0) ∧
  as_enableRelayFallback AppSettings_default = true.
Proof.
  pose proof (connect_follows_the_preference AppSettings_default connected_server None nobody_direct ltac:(vm_compute; reflexivity)) as H.
  assert (connect AppSettings_default connected_server None nobody_direct = Ok (Relayed 0)) as E by (vm_compute; reflexivity).
  split; [exact E|]. rewrite E in H. destruct H as (_ & _ & _ & [H|[H _]]); [discriminate H|exact H].
Defined.
