(* ===== verification/AndroidRelay.v ===== *)
(** * Relay tunnels of the Android application
    (core/network/relay/RelayTunnelFactory.kt, RelayGrpcChannelFactory.kt)

    The WebSocket listener with the coroutines it starts, the health monitor, and the local
    bridge between a tunnel and a gRPC channel. *)

From S2P Require Import Prelude RustStd ThirdParty Network SessionState Certificates Validation ClientEnroll EnrollFlow Kotlin.

Local Open Scope string_scope.
Local Open Scope Z_scope.

(** ** Texts *)
Definition connect_url (relayUrl : string) : string :=
  String.append (trim_end_matches (λ c, bool_decide (c = "/"%char)) relayUrl) "/connect".
Definition parseAuthorityHost (authority : string) : option string :=
  if is_blank authority then None
  else if starts_with "[" authority then take_not_blank (substring_before "]" (substring_after "[" authority))
  else let h := substring_before ":" authority in Some (if str_is_empty h then authority else h).
(** [isExpectedSocketClosure] of an exception's message. *)
Definition expected_closure (message : option string) : bool :=
  match message with
  | None => false
  | Some m => let m := to_lowercase m in
      kcontains "socket closed" m || kcontains "software caused connection abort" m || kcontains "connection reset" m || kcontains "broken pipe" m
  end.

(** ** Trust in the relay *)
(** The pin, for ASCII text: letters and digits are kept, so a prefix such as [SHA256:]
    makes the rest unreadable. *)
Definition hex_value (c : ascii) : option N :=
  if is_ascii_digit c then Some (N_of_ascii c - 48)%N
  else if in_range 97 102 c then Some (N_of_ascii c - 87)%N else None.
Fixpoint decode_hex (s : string) : option bytes :=
  match s with
  | EmptyString => Some []
  | String a (String b s) =>
      x ← hex_value a; y ← hex_value b; rest ← decode_hex s; d ← Byte.of_N (16 * x + y); Some (d :: rest)
  | String _ EmptyString => None
  end.
Definition letter_or_digit (c : ascii) : bool := is_ascii_digit c || is_ascii_alpha c.
Definition parsePinnedSha256 (raw : option string) : option bytes :=
  match raw with
  | None => None
  | Some raw =>
      if is_blank raw then None
      else
        let normalized := to_ascii_lowercase (string_filter letter_or_digit raw) in
        if str_is_empty normalized || negb (Nat.even (String.length normalized)) then None else decode_hex normalized
  end.

(** What a relay presents: its certificates, whether the platform trusts them for its
    name, and the digests of their public keys (which [CertificatePinner] compares). *)
Record RelayPeer := mkRelayPeer { rp_chain : list bytes; rp_trusted : bool; rp_spki : list bytes }.
Definition relay_accepted `{Sha256} (allowSelfSignedTls : bool) (pinned host : option string) (p : RelayPeer) : bool :=
  let pin := parsePinnedSha256 pinned in
  if allowSelfSignedTls then
    match rp_chain p with
    | [] => false
    | cert :: _ => match pin with Some d => bool_decide (sha256 cert = d) | None => true end
    end
  else rp_trusted p && match pin with Some d => is_null_or_blank host || bool_decide (d ∈ rp_spki p) | None => true end.

(** A pin written with the prefix that fingerprints are displayed with is not enforced:
    any certificate is accepted. *)
Lemma prefixed_pin_accepts_anyone `{Sha256} rest host cert l k : string_forall is_ascii rest = true →
  relay_accepted true (Some (String.append "SHA256:" rest)) host (mkRelayPeer (cert :: l) false k) = true.
Proof.
  intros _. unfold relay_accepted. assert (parsePinnedSha256 (Some (String.append "SHA256:" rest)) = None) as ->; [|done].
  rewrite append_cons. generalize (String.append "HA256:" rest). intros t. unfold parsePinnedSha256.
  change (string_filter letter_or_digit (String "S" t)) with (String "S" (string_filter letter_or_digit t)).
  change (to_ascii_lowercase (String "S" ?u)) with (String "s" (to_ascii_lowercase u)).
  destruct (is_blank _); [done|]. destruct (_ || _); [done|]. by destruct (to_ascii_lowercase _).
Qed.

(** ** The WebSocket listener *)
Record ConnectAck := mkConnectAck {
  ack_type : string;
  ack_status : string;
  ack_tunnel_id : option string;
  ack_relay_host : option string;
  ack_expires_at : option Z;
  ack_server_authority : option string;
}.
(** kotlinx.serialization: a message as JSON, and back ([Err]: the exception's message). *)
Class TunnelJson := {
  connect_json : string → string → string → string → string;
  ready_json : string → string;
  decode_ack : string → result string ConnectAck;
}.
Record Tunnel := mkTunnel { tn_tunnelId : string; tn_relayHost : option string; tn_serverAuthority : option string }.
Record Monitor := mkMonitor { mn_running : bool; mn_last : Z }.
Inductive ws_frame := WText (text : string) | WBinary (data : bytes).
(** [ls_pending] are the coroutines that will send a frame, [ls_queue] the channel
    [incomingData], [ls_taken] what the bridge took from it, [ls_sent] what was handed to
    the WebSocket. *)
Record Listener := mkListener {
  ls_tunnelId : option string;
  ls_dataMode : bool;
  ls_ready : option (result string Tunnel);
  ls_monitor : option Monitor;
  ls_pending : list bytes;
  ls_queue : list bytes;
  ls_taken : list bytes;
  ls_closed : bool;
  ls_sent : list ws_frame;
  ls_ws_closed : list (Z * string);
}.
Definition Listener_new : Listener := mkListener None false None None [] [] [] false [] [].
Definition record_activity (now : Z) (m : option Monitor) : option Monitor := (λ m, mkMonitor (mn_running m) now) <$> m.
Definition stop_monitor (m : option Monitor) : option Monitor := (λ m, mkMonitor false (mn_last m)) <$> m.
(** [CompletableDeferred.complete]: only the first counts. *)
Definition complete (r : result string Tunnel) (d : option (result string Tunnel)) : option (result string Tunnel) :=
  match d with Some x => Some x | None => Some r end.

Inductive ws_event :=
  | OnOpen
  | OnText (now : Z) (text : string)
  | OnBytes (now : Z) (frame : bytes)
  | OnFailure (http : option (Z * string)) (io : bool) (message : option string) (className : string)
  | OnClosed
  | Sends (k : nat)                     (* the coroutine of a frame runs *)
  | Takes                               (* the bridge receives *)
  | SendsData (now : Z) (data : bytes)  (* [RelayTunnel.sendData], by the bridge *)
  | CloseTunnel                         (* [RelayTunnel.close] *)
  | Ticks (now : Z).                    (* the health monitor wakes up *)

Definition HEALTH_CHECK_INTERVAL_MS : Z := 10000.
Definition MAX_IDLE_TIME_MS : Z := 120000.
(** [Channel.BUFFERED] *)
Definition INCOMING_CAPACITY : nat := 64.

Section listener.
Context `{TunnelJson} (serverId relayToken clientId clientVersion : string).

Definition on_text (now : Z) (text : string) (s : Listener) : Listener :=
  let '(mkListener tid data ready mon pending queue taken closed sent wsc) := s in
  let mon := record_activity now mon in
  if data then mkListener tid data ready mon pending queue taken closed sent wsc else
  match decode_ack text with
  | Err e => mkListener tid data (complete (Err (fmt ["Protocol error: "; e])) ready) mon pending queue taken closed sent
               (wsc ++ [(1002, "Protocol error")])%list
  | Ok ack =>
      if bool_decide (ack_type ack = "connect_ack") then
        match ack_tunnel_id ack with
        | Some id =>
            if bool_decide (ack_status ack = "ok") then
              mkListener (Some id) true (complete (Ok (mkTunnel id (ack_relay_host ack) (ack_server_authority ack))) ready)
                (Some (mkMonitor true now)) pending queue taken closed (sent ++ [WText (ready_json id)])%list wsc
            else mkListener tid data (complete (Err (fmt ["Relay connection rejected: "; ack_status ack])) ready) mon pending queue taken
                   closed sent (wsc ++ [(1000, "Connection rejected")])%list
        | None => mkListener tid data (complete (Err (fmt ["Relay connection rejected: "; ack_status ack])) ready) mon pending queue taken
                    closed sent (wsc ++ [(1000, "Connection rejected")])%list
        end
      else mkListener tid data ready mon pending queue taken closed sent wsc
  end.

Definition failure_text (http : option (Z * string)) (io : bool) (message : option string) (className : string) : string :=
  match http with
  | Some (code, reason) => fmt ["WebSocket failed with HTTP "; pretty code; ": "; reason]
  | None =>
      if io && match message with Some m => kcontains "Software caused connection abort" m | None => false end
      then "Connection lost: network error or server disconnected"
      else String.append "WebSocket connection failed: " (default className message)
  end.

Definition listener_step (s : Listener) (ev : ws_event) : Listener :=
  let '(mkListener tid data ready mon pending queue taken closed sent wsc) := s in
  match ev with
  | OnOpen => mkListener tid data ready mon pending queue taken closed
                (sent ++ [WText (connect_json serverId relayToken clientId clientVersion)])%list wsc
  | OnText now text => on_text now text s
  | OnBytes now frame =>
      mkListener tid data ready (record_activity now mon) (if data then pending ++ [frame] else pending)%list queue taken closed sent wsc
  | OnFailure http io message className =>
      mkListener tid data (complete (Err (failure_text http io message className)) ready)
        (match ready with Some _ => stop_monitor mon | None => mon end) pending queue taken true sent wsc
  | OnClosed => mkListener tid data ready (stop_monitor mon) pending queue taken true sent wsc
  | Sends k =>
      match pending !! k with
      | Some frame =>
          let rest := (take k pending ++ drop (S k) pending)%list in
          if closed then mkListener tid data ready mon rest queue taken closed sent wsc
          else if (length queue <? INCOMING_CAPACITY)%nat then mkListener tid data ready mon rest (queue ++ [frame])%list taken closed sent wsc
          else s
      | None => s
      end
  | Takes =>
      match queue with
      | frame :: queue => mkListener tid data ready mon pending queue (taken ++ [frame])%list closed sent wsc
      | [] => s
      end
  | SendsData now frame => mkListener tid data ready (record_activity now mon) pending queue taken closed (sent ++ [WBinary frame])%list wsc
  | CloseTunnel => mkListener tid data ready (stop_monitor mon) pending queue taken true sent (wsc ++ [(1000, "Tunnel closed")])%list
  | Ticks now =>
      match mon with
      | Some m =>
          if mn_running m && (MAX_IDLE_TIME_MS <? now - mn_last m)
          then mkListener tid data ready (Some (mkMonitor false (mn_last m))) pending queue taken true sent
                 (wsc ++ [(1001, "Health check timeout")])%list
          else s
      | None => s
      end
  end.
Definition listener_run (evs : list ws_event) (s : Listener) : Listener := foldl listener_step s evs.

(** The frames that arrived while the tunnel carried data. *)
Definition data_frames (evs : list ws_event) : list bytes := omap (λ ev, match ev with OnBytes _ f => Some f | _ => None end) evs.
Definition quiet_event (ev : ws_event) : bool := match ev with OnBytes _ _ | Sends _ | Takes | SendsData _ _ => true | _ => false end.

(** In data mode, as long as nothing closes the tunnel, every frame is taken, queued or
    waiting for its coroutine, once. *)
Lemma frames_kept evs s : ls_dataMode s = true → ls_closed s = false → forallb quiet_event evs = true →
  let s' := listener_run evs s in ls_dataMode s' = true ∧ ls_closed s' = false ∧
  ls_taken s' ++ ls_queue s' ++ ls_pending s' ≡ₚ ls_taken s ++ ls_queue s ++ ls_pending s ++ data_frames evs.
Proof.
  revert s. induction evs as [|ev evs IH]; intros s Hd Hc Hq; cbn [data_frames omap]; [by rewrite app_nil_r|].
  cbn in Hq. apply andb_true_iff in Hq as [Hev Hq]. cbn [listener_run foldl]. fold (listener_run evs (listener_step s ev)).
  destruct s as [tid data ready mon pending queue taken closed sent wsc]. cbn in Hd, Hc. subst data closed.
  destruct ev as [| |now frame| | |k| |now frame| |]; try done; cbn [listener_step].
  - destruct (IH (mkListener tid true ready (record_activity now mon) (pending ++ [frame]) queue taken false sent wsc)) as (? & ? & E); try done.
    split_and!; [done..|]. rewrite E. cbn. by rewrite <-!(assoc_L (++)).
  - destruct (pending !! k) as [frame|] eqn:Hk; [|by apply IH]. destruct (length queue <? INCOMING_CAPACITY)%nat; [|by apply IH].
    destruct (IH (mkListener tid true ready mon (take k pending ++ drop (S k) pending) (queue ++ [frame]) taken false sent wsc))
      as (? & ? & E); try done. split_and!; [done..|]. rewrite E. cbn. f_equiv.
    apply list_elem_of_split_length in Hk as (l1 & l2 & -> & ->). rewrite take_app_length, drop_app_ge by lia.
    replace (S (length l1) - length l1)%nat with 1%nat by lia. cbn. rewrite <-!(assoc_L (++)). f_equiv. cbn.
    by rewrite Permutation_middle.
  - destruct queue as [|frame queue]; [by apply IH|].
    destruct (IH (mkListener tid true ready mon pending queue (taken ++ [frame]) false sent wsc)) as (? & ? & E); try done.
    split_and!; [done..|]. rewrite E. cbn. by rewrite <-!(assoc_L (++)).
  - by apply (IH (mkListener tid true ready (record_activity now mon) pending queue taken false (sent ++ [WBinary frame]) wsc)).
Qed.

Lemma taken_grows evs s : ∃ l, ls_taken (listener_run evs s) = (ls_taken s ++ l)%list.
Proof.
  revert s. induction evs as [|ev evs IH]; intros s; [exists []; by rewrite app_nil_r|]. cbn [listener_run foldl].
  destruct (IH (listener_step s ev)) as [l E]. unfold listener_run in E. rewrite E.
  assert (∃ k, ls_taken (listener_step s ev) = (ls_taken s ++ k)%list) as [k ->]; [|exists (k ++ l)%list; by rewrite <-(assoc_L (++))].
  destruct s as [tid data ready mon pending queue taken closed sent wsc].
  destruct ev as [|now text| | | |k| |now data'| |now]; cbn [listener_step ls_taken]; try (exists []; by rewrite app_nil_r).
  - exists []. rewrite app_nil_r. unfold on_text. destruct data; [done|]. destruct (decode_ack text) as [ack|]; [|done].
    case_bool_decide; [|done]. destruct (ack_tunnel_id ack); [|done]. by case_bool_decide.
  - exists []. rewrite app_nil_r. destruct (pending !! k); [|done]. destruct closed; [done|]. by destruct (_ <? _)%nat.
  - destruct queue as [|f queue]; [exists []; by rewrite app_nil_r|by exists [f]].
  - exists []. rewrite app_nil_r. destruct mon as [m|]; [|done]. by destruct (_ && _).
Qed.

(** Waiting frames can be sent in any order. *)
Lemma send_any_order l' : ∀ tid ready mon pending taken sent wsc, pending ≡ₚ l' → ∃ evs,
  forallb quiet_event evs = true ∧ data_frames evs = [] ∧
  listener_run evs (mkListener tid true ready mon pending [] taken false sent wsc)
  = mkListener tid true ready mon [] [] (taken ++ l')%list false sent wsc.
Proof.
  induction l' as [|f l' IH]; intros tid ready mon pending taken sent wsc Hp.
  - apply Permutation_nil_r in Hp as ->. exists []. by rewrite app_nil_r.
  - assert (f ∈ pending) as [k Hk]%list_elem_of_lookup by (rewrite Hp; left).
    set (rest := (take k pending ++ drop (S k) pending)%list).
    assert (pending ≡ₚ f :: rest) as Hrest.
    { apply list_elem_of_split_length in Hk as (l1 & l2 & -> & ->). unfold rest. rewrite take_app_length, drop_app_ge by lia.
      replace (S (length l1) - length l1)%nat with 1%nat by lia. cbn. by rewrite Permutation_middle. }
    destruct (IH tid ready mon rest (taken ++ [f])%list sent wsc) as (evs & Hq & Hd & E).
    { eapply (Permutation_cons_inv (a := f)). by rewrite <-Hrest. }
    exists (Sends k :: Takes :: evs). split_and!; [done|done|]. cbn [listener_run foldl listener_step]. rewrite Hk.
    change (length (@nil bytes) <? INCOMING_CAPACITY)%nat with true. cbn [app]. fold rest. cbn [listener_step]. unfold listener_run in E. rewrite E. by rewrite <-(assoc_L (++)).
Qed.
Lemma frames_arrive tid ready mon pending taken sent wsc now l :
  listener_run (OnBytes now <$> l) (mkListener tid true ready mon pending [] taken false sent wsc)
  = mkListener tid true ready (match l with [] => mon | _ => record_activity now mon end) (pending ++ l)%list [] taken false sent wsc.
Proof.
  revert mon pending. induction l as [|f l IH]; intros mon pending; [cbn; by rewrite app_nil_r|].
  cbn [fmap list_fmap listener_run foldl listener_step]. unfold listener_run in IH. rewrite IH. rewrite <-(assoc_L (++)).
  f_equal. destruct l; [done|]. by destruct mon.
Qed.

(** The frames of a tunnel arrive complete but in any order.  While a tunnel carries
    data and is not closed, whatever the phone's threads do, the bridge to the gRPC channel
    receives each frame of the relay at most once and none is lost; but every frame is
    passed on by a coroutine of its own, and for every permutation of the frames there is a
    schedule under which the bridge receives them in that order. *)
Lemma tunnel_frames_can_be_reordered s l : ls_dataMode s = true → ls_closed s = false → ls_pending s = [] → ls_queue s = [] →
  (∀ evs, forallb quiet_event evs = true → data_frames evs = l →
    ∃ delivered, let s' := listener_run evs s in
      ls_taken s' = (ls_taken s ++ delivered)%list ∧ delivered ++ ls_queue s' ++ ls_pending s' ≡ₚ l) ∧
  (∀ l', l ≡ₚ l' → ∃ evs, forallb quiet_event evs = true ∧ data_frames evs = l ∧ ls_taken (listener_run evs s) = (ls_taken s ++ l')%list).
Proof.
  intros Hd Hc Hp Hqu. split.
  - intros evs Hq <-. destruct (taken_grows evs s) as [delivered Hg]. exists delivered. split; [done|].
    destruct (frames_kept evs s Hd Hc Hq) as (_ & _ & E). rewrite Hg, Hp, Hqu in E. rewrite <-(assoc_L (++)) in E.
    by apply Permutation_app_inv_l in E.
  - intros l' Hl. destruct s as [tid data ready mon pending queue taken closed sent wsc]. cbn in Hd, Hc, Hp, Hqu. subst.
    destruct (send_any_order l' tid ready (match l with [] => mon | _ => record_activity 0 mon end) l taken sent wsc Hl) as (evs & Hq & Hf & E).
    exists ((OnBytes 0 <$> l) ++ evs)%list. split_and!.
    + rewrite forallb_app, Hq, andb_true_r. clear. by induction l.
    + unfold data_frames in *. rewrite omap_app, Hf, app_nil_r. clear. induction l as [|f l IH]; [done|]. cbn. by rewrite IH.
    + unfold listener_run. rewrite foldl_app. fold (listener_run (OnBytes 0 <$> l) (mkListener tid true ready mon [] [] taken false sent wsc)).
      rewrite frames_arrive. unfold listener_run in E. cbn [app]. by rewrite E.
Qed.

(** ** The health monitor *)
(** It wakes up after each interval, at most [late] later. *)
Fixpoint cadence (late from : Z) (ticks : list Z) : Prop :=
  match ticks with
  | [] => True
  | t :: ticks => from + HEALTH_CHECK_INTERVAL_MS <= t <= from + HEALTH_CHECK_INTERVAL_MS + late ∧ cadence late t ticks
  end.
Definition ticks_of (evs : list ws_event) : list Z := omap (λ ev, match ev with Ticks t => Some t | _ => None end) evs.
(** Nothing arrives and nothing is sent: frames that came before may still be passed on. *)
Definition silent (ev : ws_event) : bool := match ev with Ticks _ | Sends _ | Takes => true | _ => false end.

Lemma last_cons_from {A} (x y : A) l : last (x :: l) = Some y → y = x ∨ last l = Some y.
Proof. destruct l; [intros [= ->]; by left|by right]. Qed.

(** A silent event other than the check that fails leaves monitor and sockets alone. *)
Lemma silent_step s a ev : ls_monitor s = Some (mkMonitor true a) → silent ev = true →
  (∀ t, ev = Ticks t → t - a <= MAX_IDLE_TIME_MS) →
  let s' := listener_step s ev in
  ls_monitor s' = Some (mkMonitor true a) ∧ ls_closed s' = ls_closed s ∧ ls_ws_closed s' = ls_ws_closed s.
Proof.
  destruct s as [tid data ready mon pending queue taken closed sent wsc]. cbn [ls_monitor]. intros -> Hs Ht.
  destruct ev as [| | | | |k| | | |t]; try done; cbn [listener_step].
  - destruct (pending !! k); [|done]. destruct closed; [done|]. by destruct (_ <? _)%nat.
  - by destruct queue.
  - cbn. rewrite (proj2 (Z.ltb_ge _ _)) by (by apply Ht). done.
Qed.

(** C38: A silent tunnel is given up after two minutes, not before, and with the next check.
    If after [a] nothing arrives and nothing is sent (a send counts as activity too), while
    frames that came before may still be passed on, and the monitor wakes up every ten
    seconds with a delay of at most [late], then the tunnel stays up through all checks
    within 120 seconds and is closed at a check between 120 and 130 seconds, plus that
    delay, after [a], with the code for a failed health check. *)
Theorem silent_tunnel_is_closed s a from late evs t_end :
  ls_monitor s = Some (mkMonitor true a) → from <= a + MAX_IDLE_TIME_MS → forallb silent evs = true →
  cadence late from (ticks_of evs) → last (ticks_of evs) = Some t_end → a + MAX_IDLE_TIME_MS < t_end →
  ∃ before t after, evs = (before ++ Ticks t :: after)%list ∧ MAX_IDLE_TIME_MS < t - a <= MAX_IDLE_TIME_MS + HEALTH_CHECK_INTERVAL_MS + late ∧
    let s1 := listener_run before s in let s2 := listener_step s1 (Ticks t) in
    ls_monitor s1 = Some (mkMonitor true a) ∧ ls_closed s1 = ls_closed s ∧ ls_ws_closed s1 = ls_ws_closed s ∧
    ls_monitor s2 = Some (mkMonitor false a) ∧ ls_closed s2 = true ∧ ls_ws_closed s2 = (ls_ws_closed s ++ [(1001, "Health check timeout")])%list.
Proof.
  revert s from. induction evs as [|ev evs IH]; intros s from Hm Hfrom Hs Hcad Hlast Hend; [done|].
  cbn in Hs. apply andb_true_iff in Hs as [Hev Hs].
  assert (∀ from', (∀ t, ev = Ticks t → t - a <= MAX_IDLE_TIME_MS) → from' <= a + MAX_IDLE_TIME_MS → cadence late from' (ticks_of evs) →
    last (ticks_of evs) = Some t_end → ∃ before t after, ev :: evs = (before ++ Ticks t :: after)%list ∧
      MAX_IDLE_TIME_MS < t - a <= MAX_IDLE_TIME_MS + HEALTH_CHECK_INTERVAL_MS + late ∧
      let s1 := listener_run before s in let s2 := listener_step s1 (Ticks t) in
      ls_monitor s1 = Some (mkMonitor true a) ∧ ls_closed s1 = ls_closed s ∧ ls_ws_closed s1 = ls_ws_closed s ∧
      ls_monitor s2 = Some (mkMonitor false a) ∧ ls_closed s2 = true ∧
      ls_ws_closed s2 = (ls_ws_closed s ++ [(1001, "Health check timeout")])%list) as Hgo.
  { intros from' Ht Hf Hc Hl. destruct (silent_step s a ev Hm Hev Ht) as (M1 & C1 & W1).
    destruct (IH (listener_step s ev) from' M1 Hf Hs Hc Hl Hend) as (before & t & after & -> & Hb & Hrest).
    exists (ev :: before), t, after. split; [done|]. split; [done|]. by rewrite C1, W1 in Hrest. }
  destruct ev as [| | | | |k| | | |t]; try done; cbn [ticks_of omap list_omap] in Hcad, Hlast; try (by apply (Hgo from)).
  fold (ticks_of evs) in Hcad, Hlast. cbn [cadence] in Hcad. destruct Hcad as [Ht Hcad]. destruct (decide (t - a <= MAX_IDLE_TIME_MS)) as [Hle|Hgt].
  - apply (Hgo t); [by intros ? [= <-]|lia|done|]. apply last_cons_from in Hlast as [->|?]; [lia|done].
  - exists [], t, evs. split; [done|]. split; [lia|]. destruct s as [tid data ready mon pending queue taken closed sent wsc]. cbn in Hm. subst mon.
    cbn. by rewrite (proj2 (Z.ltb_lt _ _)) by lia.
Qed.
End listener.

(** ** The local bridge

    [br_accepting]: the coroutine of [serverSocket.accept()] runs; this call ends when
    somebody connects or the socket is closed, and cancelling the coroutine does not end it.
    [br_children] are the bridged sockets.  [br_pc] counts the steps of [shutdownChannel]: 1 the
    coroutine is cancelled and waited for, 2 it has ended, 3 the server socket is closed,
    4 the tunnel is closed, 5 the gRPC channel is shut down. *)
Record bridge := mkBridge {
  br_accepting : bool;
  br_cancelled : bool;
  br_children : nat;
  br_socket_open : bool;
  br_pc : nat;
}.
Inductive bridge_step : bridge → bridge → Prop :=
  | bridge_connects n pc cancelled :
      bridge_step (mkBridge true cancelled n true pc) (mkBridge true cancelled (if cancelled then n else S n) true pc)
  | bridge_socket_ends a c n o pc : bridge_step (mkBridge a c (S n) o pc) (mkBridge a c n o pc)
  | bridge_accept_fails c n pc : bridge_step (mkBridge true c n false pc) (mkBridge false c n false pc)
  | shutdown_cancels a c n o : bridge_step (mkBridge a c n o 0) (mkBridge a true n o 1)
  | shutdown_joins c o : bridge_step (mkBridge false c 0 o 1) (mkBridge false c 0 o 2)
  | shutdown_closes_socket a c n o : bridge_step (mkBridge a c n o 2) (mkBridge a c n false 3)
  | shutdown_closes_tunnel a c n o : bridge_step (mkBridge a c n o 3) (mkBridge a c n o 4)
  | shutdown_closes_channel a c n o : bridge_step (mkBridge a c n o 4) (mkBridge a c n o 5).

(** A relay channel is never shut down.  Closing the bridge cancels the accepting
    coroutine and waits for its end before it closes the server socket, but the coroutine
    is blocked in the socket's [accept] and ends only when the socket is closed.  So from
    a bridge that accepts connections no sequence of steps gets past this wait: the server
    socket and the tunnel stay open, and [shutdownChannel] does not return. *)
Lemma relay_shutdown_never_ends n b : rtc bridge_step (mkBridge true false n true 0) b →
  br_accepting b = true ∧ br_socket_open b = true ∧ (br_pc b <= 1)%nat.
Proof.
  intros Hr. apply (rtc_ind_r (λ b, br_accepting b = true ∧ br_socket_open b = true ∧ (br_pc b <= 1)%nat) (mkBridge true false n true 0)) with (3 := Hr).
  - cbn. lia.
  - intros x y _ Hs (Ha & Ho & Hp). inversion Hs; subst; cbn in *; try done; try lia.
Qed.
(** It does not even wait for the bridged sockets: with them gone the same holds, and the
    only steps left are new connections. *)
Lemma relay_shutdown_stuck b : bridge_step (mkBridge true true 0 true 1) b → b = mkBridge true true 0 true 1.
Proof. intros Hs. inversion Hs; subst; done. Qed.

(** ** Witnesses *)
#[local] Instance demo_tunnel_json : TunnelJson := {|
  connect_json _ _ _ _ := "connect";
  ready_json _ := "ready";
  decode_ack s := if bool_decide (s = "ack") then Ok (mkConnectAck "connect_ack" "ok" (Some "t1") None None None) else Err "unexpected";
|}.
Definition data_listener : Listener := listener_run "home" "token" "me" "0.1.0" [OnOpen; OnText 0 "ack"] Listener_new.
Lemma tunnel_frames_can_be_reordered_witness : ∃ evs, data_frames evs = [[x01]; [x02]] ∧
  ls_taken (listener_run "home" "token" "me" "0.1.0" evs data_listener) = [[x02]; [x01]].
Proof.
  destruct (tunnel_frames_can_be_reordered "home" "token" "me" "0.1.0" data_listener [[x01]; [x02]]) as [_ H]; try reflexivity.
  destruct (H [[x02]; [x01]]) as (evs & _ & Hd & Ht); [apply Permutation_swap|]. exists evs. split; [exact Hd|exact Ht].
Defined.
(** Thirteen checks, each half a second late; a frame that had arrived is passed on between
    the first two. *)
Definition late_ticks : list ws_event :=
  let t k := Ticks (10500 * Z.of_nat k) in t 1%nat :: Sends 0 :: Takes :: (t <$> seq 2 12).
Lemma silent_tunnel_is_closed_witness : ∃ before t after, late_ticks = (before ++ Ticks t :: after)%list ∧ 120000 < t - 0 <= 130500.
Proof.
  destruct (silent_tunnel_is_closed "home" "token" "me" "0.1.0" data_listener 0 0 500 late_ticks 136500) as (before & t & after & E & Ht & _).
  - reflexivity.
  - vm_compute. discriminate.
  - reflexivity.
  - vm_compute. repeat split; (reflexivity || discriminate).
  - reflexivity.
  - reflexivity.
  - exists before, t, after. split; [exact E|exact Ht].
Defined.
Lemma relay_shutdown_never_ends_witness : rtc bridge_step (mkBridge true false 1 true 0) (mkBridge true true 0 true 1) ∧
  br_accepting (mkBridge true true 0 true 1) = true.
Proof.
  assert (rtc bridge_step (mkBridge true false 1 true 0) (mkBridge true true 0 true 1)) as H.
  { eapply rtc_l; [apply shutdown_cancels|]. eapply rtc_l; [apply bridge_socket_ends|]. apply rtc_refl. }
  split; [exact H|]. destruct (relay_shutdown_never_ends 1 _ H) as [Ha _]. exact Ha.
Defined.
