(* ===== verification/AndroidCommands.v ===== *)
(** * Running commands on Android (data/commands/GrpcCommandRepository.kt,
    feature/commands/CommandListViewModel.kt)

    The certificate check after a call, the flow of an execution's results, the state of the
    screen that shows them, and the run of all of it against a script of the server. *)

From S2P Require Import Prelude RustStd ThirdParty Network Config Certificates Validation Registry SessionState SessionManager RelayTokens Proto Delivery Service.
From S2P Require Import ClientCommands ShellScript SessionEnds ClientEnroll EnrollFlow Fips180 Kotlin AndroidModel AndroidDb AndroidPairing AndroidEnroll.

Local Open Scope string_scope.
Local Open Scope Z_scope.

(** ** The certificate after a call ([verifyServerCertificate]) *)
Definition normalized_pin (s : string) : string := to_lowercase (str_replace (remove_prefix "SHA256:" s) ":" "").
(** [captured]: the certificate of the connection, if the TLS layer reported one. *)
Definition verifyServerCertificate `{Sha256, LayoutJson} (server : EnrolledServerEntity) (captured : option bytes) (t : list Row)
    : list Row * result string unit :=
  match captured with
  | None => (t, Ok tt)
  | Some certificate =>
      let fingerprint := computeFingerprint certificate in
      if is_blank (es_certFingerprint server) then (dao_updateCertFingerprint (es_serverId server) fingerprint t, Ok tt)
      else if bool_decide (normalized_pin (es_certFingerprint server) ≠ normalized_pin fingerprint) then
        (t, Err "Server certificate fingerprint mismatch")
      else (t, Ok tt)
  end.
(** [mapGrpcError] of this repository. *)
Definition command_grpc_error (s : GrpcStatus) : string :=
  match gs_code s with
  | G_UNAUTHENTICATED => "Authentication failed"
  | G_PERMISSION_DENIED => "Permission denied"
  | G_NOT_FOUND => "Capability not found"
  | G_INVALID_ARGUMENT => "Invalid capability parameters"
  | G_DEADLINE_EXCEEDED => "Request timeout"
  | G_UNAVAILABLE => "Server unavailable"
  | c => String.append "Network error: " (default (grpc_code_name c) (gs_description s))
  end.

(** ** The flow of an execution ([executeCommand]) *)
(** [ByteString.toStringUtf8] *)
Class JavaUtf8 := java_utf8 : bytes → string.
Inductive stream_end := EndOk | EndStatus (s : GrpcStatus) | EndSecurity (message : option string) | EndOther (message : option string).
Definition session_mode_name (m : CommandSessionMode) : string :=
  match m with
  | ONE_SHOT => "ONE_SHOT" | REALTIME => "REALTIME" | UPLOAD => "UPLOAD" | DOWNLOAD => "DOWNLOAD" | MODE_UNSPECIFIED => "UNSPECIFIED"
  end.

Section execution.
Context `{JavaUtf8}.

(** One message: what is emitted, or the exception. *)
Definition exec_message (commandId : string) (m : proto.SessionServerMessage) : result string (list CommandExecutionResult) :=
  match proto.sm_payload m with
  | Some (proto.Ready _ mode _ _) =>
      let sessionMode := mapSessionMode mode in
      if bool_decide (sessionMode = ONE_SHOT) then Ok []
      else Err (fmt ["Capability "; commandId; " requires "; session_mode_name sessionMode; " sessions which are not supported on Android yet"])
  | Some (proto.Output data stderr binary _ _) =>
      let text := if default false binary then fmt ["[binary data: "; pretty (Z.of_nat (length data)); " bytes]"] else java_utf8 data in
      Ok [COutput text (default false stderr)]
  | Some (proto.Exit code timed_out message) =>
      Ok ((match message with Some t => if is_blank t then [] else [COutput t (default false timed_out)] | None => [] end) ++ [CExitCode code])%list
  | Some (proto.Error message _) => Ok [CError message]
  | _ => Ok []
  end.
Definition end_result (e : stream_end) : list CommandExecutionResult :=
  match e with
  | EndOk => []
  | EndStatus s => [CError (command_grpc_error s)]
  | EndSecurity m => [CError (default "Security verification failed" m)]
  | EndOther m => [CError (default "Unknown error" m)]
  end.
Fixpoint exec_stream (commandId : string) (msgs : list proto.SessionServerMessage) (e : stream_end) : list CommandExecutionResult :=
  match msgs with
  | [] => end_result e
  | m :: msgs =>
      match exec_message commandId m with
      | Ok l => (l ++ exec_stream commandId msgs e)%list
      | Err x => [CError x]
      end
  end.

(** The request, the emitted results, the database and the exception after the flow has
    completed. *)
Definition open_request (commandId : string) (parameters : gmap string string) : proto.SessionClientMessage :=
  proto.mkSessionClientMessage "" (Some (proto.Open commandId parameters None)).
Definition executeCommand `{Sha256, LayoutJson} (server : EnrolledServerEntity) (mode : ConnectionMode) (now : Z) (commandId : string)
    (msgs : list proto.SessionServerMessage) (e : stream_end) (captured : option bytes) (t : list Row)
    : list CommandExecutionResult * list Row * option string :=
  let results := exec_stream commandId msgs e in
  match verifyServerCertificate server captured t with
  | (t1, Ok _) => (results, dao_updateConnectionMode (es_serverId server) now mode t1, None)
  | (t1, Err x) => (results, t1, Some x)
  end.

(** ** The screen ([CommandListViewModel.executeCommand]) *)
Record CommandOutputLine := mkOutputLine { ol_text : string; ol_isError : bool }.
Inductive CommandExecutionState :=
  | XIdle
  | XExecuting (commandId commandName : string) (output : list CommandOutputLine)
  | XCompleted (commandId commandName : string) (exitCode : Z) (output : list CommandOutputLine)
  | XFailed (message : string).
Definition collect (commandId commandName : string) (st : CommandExecutionState) (r : CommandExecutionResult) : CommandExecutionState :=
  match st with
  | XExecuting id name output =>
      match r with
      | COutput text isError => XExecuting id name (output ++ [mkOutputLine text isError])%list
      | CExitCode code => XCompleted commandId commandName code output
      | CError message => XFailed message
      end
  | _ => st
  end.
Definition isOneShotCommand (c : Command) : bool := bool_decide (kc_sessionMode c = ONE_SHOT) && bool_decide (kc_kind c = SHELL_SCRIPT).
Definition kind_name (k : CommandKind) : string :=
  match k with SHELL_SCRIPT => "shell_script" | SHELL_INTERACTIVE => "shell_interactive" | FILE_TRANSFER => "file_transfer" | KIND_UNKNOWN => "unknown" end.
Definition unsupportedCapabilityMessage (c : Command) : string :=
  if negb (bool_decide (kc_sessionMode c = ONE_SHOT)) then
    fmt [kc_name c; " requires a "; to_ascii_lowercase (session_mode_name (kc_sessionMode c)); " session, which isn't supported on Android yet."]
  else if negb (bool_decide (kc_kind c = SHELL_SCRIPT)) then
    fmt [kc_name c; " uses an unsupported capability kind ("; kind_name (kc_kind c); ")."]
  else fmt [kc_name c; " can't run on this client yet."].
(** The last state of the screen for one command, when nothing else writes it.  [run] is the
    exception of connecting, or the results of the flow with the exception after them. *)
Definition run_screen (commandId commandName : string) (known : option Command)
    (run : result (option string) (list CommandExecutionResult * option string)) : CommandExecutionState :=
  let unsupported := c ← known; if isOneShotCommand c then None else Some (unsupportedCapabilityMessage c) in
  match unsupported, run with
  | Some message, _ => XFailed message
  | None, Err message => XFailed (default "Unknown error" message)
  | None, Ok (results, None) => foldl (collect commandId commandName) (XExecuting commandId commandName []) results
  | None, Ok (_, Some message) => XFailed message
  end.

(** ** Against the server *)
Definition line_of (e : SessionServerEvent) : list CommandOutputLine :=
  match e with SOutput data stderr _ _ => [mkOutputLine (java_utf8 data) stderr] | _ => [] end.
Definition lines_on (stderr : bool) (l : list CommandOutputLine) : list string :=
  omap (λ x, if Bool.eqb (ol_isError x) stderr then Some (ol_text x) else None) l.

Lemma lines_on_shown stderr outs : Forall is_output outs → lines_on stderr (outs ≫= line_of) = java_utf8 <$> shown stderr outs.
Proof.
  induction 1 as [|e outs He Hf IH]; [done|]. rewrite bind_cons. unfold lines_on, shown in *. rewrite omap_app, IH.
  destruct e as [|data b ? ?| | | |]; try done. cbn [line_of omap list_omap ol_isError ol_text]. by destruct (Bool.eqb b stderr).
Qed.

Lemma exec_stream_app cid m1 m2 e : Forall (λ m, is_ok (exec_message cid m) = true) m1 →
  exec_stream cid (m1 ++ m2)%list e = (exec_stream cid m1 EndOk ++ exec_stream cid m2 e)%list.
Proof.
  induction 1 as [|m m1 Hm Hf IH]; [done|]. cbn. destruct (exec_message cid m); [|done]. by rewrite IH, (assoc_L (++)).
Qed.
Lemma exec_outputs_stream sid cid mode bes : Forall is_output (be_event <$> bes) →
  Forall (λ m, is_ok (exec_message cid m) = true) (event_message sid cid mode <$> bes) ∧
  ∀ name out, foldl (collect cid name) (XExecuting cid name out) (exec_stream cid (event_message sid cid mode <$> bes) EndOk)
    = XExecuting cid name (out ++ ((be_event <$> bes) ≫= line_of))%list.
Proof.
  induction bes as [|be bes IH]; [intros _; split; [constructor|intros; cbn; by rewrite app_nil_r]|].
  rewrite fmap_cons. intros [Hbe Ho]%Forall_cons. destruct (IH Ho) as [IH1 IH2]. rewrite fmap_cons. unfold event_message at 1 3.
  destruct (be_event be) as [|data stderr binary ts| | | |] eqn:Ebe; try done. destruct Hbe as [-> _]. split.
  - constructor; [done|exact IH1].
  - intros name out. cbn [exec_stream exec_message session_event_to_proto proto.sm_payload default from_option id app foldl collect].
    rewrite IH2, bind_cons. cbn [line_of app]. by rewrite <-(assoc_L (++)).
Qed.

(** The state at the end of a script. *)
Definition script_state (cid name : string) (outcome : option (result string ExecutionResult)) (lines : list CommandOutputLine)
    : CommandExecutionState :=
  match outcome with
  | Some (Ok r) => XCompleted cid name (ex_exit_code r) lines
  | Some (Err e) => XFailed (String.append "Command execution failed: " e)
  | None => XCompleted cid name (-1) lines
  end.

(** C20: The phone shows what a command did.  A script runs on the server until its loop
    ends and the messages of its session reach the phone, the server's forwarding task
    keeping up, over a connection whose certificate passes the check; no other command
    writes to the screen meanwhile.  Then the screen shows the exit code of the process (-1
    after a time-out, the error when waiting failed), and for each stream the first lines
    the process wrote to it, in order; and the way of the connection is stored. *)
Theorem android_shows_what_the_script_did `{Sha256, LayoutJson, UuidText} show t ops s outcome id msgs cid name known server mode now captured tbl :
  script_run show t ops script_init = Some s → sc_phase s = Finished outcome →
  reaches_client id cid OneShot (script_session true s) msgs →
  isOneShotCommand known = true → (verifyServerCertificate server captured tbl).2 = Ok tt →
  let '(results, tbl', thrown) := executeCommand server mode now cid msgs EndOk captured tbl in
  ∃ lines, run_screen cid name (Some known) (Ok (results, thrown)) = script_state cid name outcome lines ∧
    (∀ stderr, lines_on stderr lines `prefix_of` (java_utf8 <$> ok_lines (written stderr ops))) ∧
    tbl' = dao_updateConnectionMode (es_serverId server) now mode (verifyServerCertificate server captured tbl).1.
Proof.
  intros Hr Hp Hreach Hone Hcert. apply reaches_client_messages in Hreach as (bes & Hbes & ->). set (sid := uuid_to_string id).
  unfold executeCommand. destruct (verifyServerCertificate _ _ _) as [t1 r1]. cbn in Hcert. subst r1.
  destruct (script_session_protocol show t ops s outcome Hr Hp) as (outs & Hs & Hout & _ & Hpre & _ & Hfrom).
  rewrite Hs in Hbes. destruct bes as [|b0 bes]; [done|]. rewrite fmap_cons in Hbes. injection Hbes as Hb0 Hbes.
  apply fmap_app_inv in Hbes as (bo & be & Ho & He & ->). destruct be as [|b1 [|b2 [|? ?]]]; try done. injection He as E1 E2.
  exists (outs ≫= line_of). split; [|split; [|done]].
  - unfold run_screen. cbn [mbind option_bind]. rewrite Hone. destruct (exec_outputs_stream sid cid OneShot bo) as [Hok Hrun]; [by rewrite <-Ho|].
    rewrite fmap_cons, fmap_app. cbn [exec_stream]. unfold event_message at 1. rewrite Hb0.
    cbn [exec_message session_event_to_proto proto.sm_payload session_mode_number mapSessionMode Z.eqb Pos.eqb]. rewrite bool_decide_eq_true_2 by done.
    cbn [app]. rewrite exec_stream_app by done. rewrite foldl_app, Hrun, <-Ho. cbn [app]. rewrite !fmap_cons, fmap_nil. cbn [exec_stream].
    unfold event_message. rewrite <-E1, <-E2. destruct outcome as [[r|e]|]; [destruct Hfrom as (status & _ & ->)|..]; cbn; done.
  - intros stderr. rewrite lines_on_shown by done. apply fmap_prefix, Hpre.
Qed.
End execution.

(** ** Witness *)
#[local] Existing Instance demo_layout_json.
#[local] Existing Instance demo_uuid.
#[local] Existing Instance Fips.fips_sha256.
#[local] Strategy 1000 [Fips.fips_sha256].
Definition demo_utf8 : JavaUtf8 := text_of.
#[local] Existing Instance demo_utf8.
Definition demo_pinned : EnrolledServerEntity :=
  mkEnrolledServerEntity "home" ["192.168.1.2"] 50051 "me" "den" (computeFingerprint [x2a]) 0 None false None None false None
    AUTO DIRECT None None.

Lemma android_shows_what_the_script_did_witness : ∃ lines,
  run_screen "sh" "Script" None
    (Ok ((executeCommand demo_pinned DIRECT 7 "sh" demo_script_messages EndOk (Some [x2a]) []).1.1, None)) = XCompleted "sh" "Script" 3 lines ∧
  lines_on true lines `prefix_of` ["oops"].
Proof.
  destruct demo_script_end as [s|] eqn:E; [|vm_compute in E; discriminate E].
  assert ((verifyServerCertificate demo_pinned (Some [x2a]) []).2 = Ok tt) as Hc by (vm_compute; reflexivity).
  assert (sc_phase s = Finished (Some (Ok (mkExecutionResult 3 false)))) as Hp by (vm_compute in E; injection E as <-; reflexivity).
  pose proof (android_shows_what_the_script_did true 10 demo_script_ops s _ 7%N demo_script_messages "sh" "Script"
    (mkCommand "sh" "Script" "" None [] [] false true false SHELL_SCRIPT ONE_SHOT) demo_pinned DIRECT 7 (Some [x2a]) [] E Hp
    (demo_script_reaches_client s E) eq_refl Hc) as Hr.
  destruct (executeCommand _ _ _ _ _ _ _ _) as [[results tbl] thrown] eqn:Ex. destruct Hr as (lines & Hrun & Hpre & _).
  assert (thrown = None) as ->.
  { unfold executeCommand in Ex. destruct (verifyServerCertificate _ _ _) as [t1 r1]. cbn in Hc. subst r1. exact (eq_sym (f_equal snd Ex)). }
  exists lines. split; [exact Hrun|exact (Hpre true)].
Defined.
