(* ===== verification/AndroidShell.v ===== *)
(** * Interactive shells on Android (data/commands/GrpcCommandRepository.kt [openShellSession],
    termux/RemoteTerminalSession.kt, feature/commands/shell/ShellSessionViewModel.kt)

    The loop that opens, follows and resumes a realtime session, the channel of its events,
    the terminal they reach, the form and the screen; and the run of it against the
    server's session manager. *)

From stdpp Require Import sorting.
From S2P Require Import CliSession.
From S2P Require Import Prelude RustStd ThirdParty Network Config Certificates Validation Registry SessionState SessionManager Proto Delivery Service.
From S2P Require Import RelayTokens Parameters ClientCommands SessionEnds Interactive ClientEnroll EnrollFlow Fips180 Kotlin AndroidModel AndroidDb AndroidPairing.
From S2P Require Import AndroidEnroll AndroidCommands.

Local Open Scope string_scope.
Local Open Scope Z_scope.

(** A [uint64] field read as a [Long], and the way back. *)
Definition to_long (z : Z) : Z := if z <? 2 ^ 63 then z else z - 2 ^ 64.
Definition of_long (z : Z) : Z := z mod 2 ^ 64.

(** ** The resume state *)
Record CapabilityResumeState := mkResumeState {
  rs_sessionId : option string;
  rs_resumeToken : option string;
  rs_lastStdout : Z;
  rs_lastStderr : Z;
}.
Definition canResume (rs : CapabilityResumeState) : bool :=
  negb (is_null_or_blank (rs_sessionId rs)) && negb (is_null_or_blank (rs_resumeToken rs)).
Definition clear (rs : CapabilityResumeState) : CapabilityResumeState := mkResumeState (rs_sessionId rs) None 0 0.
Definition with_token (t : string) (rs : CapabilityResumeState) : CapabilityResumeState :=
  mkResumeState (rs_sessionId rs) (Some t) (rs_lastStdout rs) (rs_lastStderr rs).

Record ResumeSessionSpec := mkResumeSpec {
  rsp_sessionId : string;
  rsp_resumeToken : string;
  rsp_lastStdoutSequence : Z;
  rsp_lastStderrSequence : Z;
}.
Definition initial_state (spec : option ResumeSessionSpec) : CapabilityResumeState :=
  match spec with
  | Some s => mkResumeState (Some (rsp_sessionId s)) (Some (rsp_resumeToken s)) (rsp_lastStdoutSequence s) (rsp_lastStderrSequence s)
  | None => mkResumeState None None 0 0
  end.

(** ** The events *)
Inductive ShellSessionEvent :=
  | ShReady (capabilityId message : string)
  | ShResuming (attempt : Z)
  | ShResumeAcknowledged (message : string)
  | ShOutput (data : bytes) (isError isBinary : bool) (timestampMs : Z) (text : string)
  | ShExit (exitCode : Z) (timedOut : bool) (message : string)
  | ShError (message : string) (code : option Z)
  | ShHeartbeat (timestampMs latencyHintMs : Z)
  | ShClosed (reason : string).

(** The exceptions that end a stream. *)
Inductive throwable := TStatus (s : GrpcStatus) | TIo (message : option string) | TCancelled (message : option string) | TOther (message : option string).

(** [shouldAttemptResume] *)
Definition resumable (t : throwable) : bool :=
  match t with
  | TStatus s =>
      match gs_code s with
      | G_UNAVAILABLE | G_UNKNOWN | G_DEADLINE_EXCEEDED | G_INTERNAL | G_ABORTED => true
      | _ => false
      end
  | TIo _ => true
  | _ => false
  end.
Definition shouldAttemptResume (userClosed : bool) (rs : CapabilityResumeState) (t : throwable) : bool :=
  if userClosed || negb (canResume rs) then false else resumable t.

(** U+FFFD *)
Definition replacement_char : string := String.string_of_list_byte [xef; xbf; xbd].

Section shell.
Context `{JavaUtf8}.

(** A message: the resume state, the attempts counted, the event. *)
Definition note_output (stderr : bool) (sequence : Z) (rs : CapabilityResumeState) : CapabilityResumeState :=
  if stderr then mkResumeState (rs_sessionId rs) (rs_resumeToken rs) (rs_lastStdout rs) (Z.max (rs_lastStderr rs) sequence)
  else mkResumeState (rs_sessionId rs) (rs_resumeToken rs) (Z.max (rs_lastStdout rs) sequence) (rs_lastStderr rs).
Definition shell_message (m : proto.SessionServerMessage) (st : CapabilityResumeState * Z)
    : CapabilityResumeState * Z * list ShellSessionEvent :=
  let '(rs0, attempts) := st in
  let id := proto.sm_session_id m in
  let rs := if is_blank id then rs0 else mkResumeState (Some id) (rs_resumeToken rs0) (rs_lastStdout rs0) (rs_lastStderr rs0) in
  match proto.sm_payload m with
  | Some (proto.Ready capability_id _ message token) => (with_token token rs, 0, [ShReady capability_id (default "" message)])
  | Some (proto.ResumeAck token _ message) => (with_token token rs, 0, [ShResumeAcknowledged (default "" message)])
  | Some (proto.Output data stderr binary timestamp sequence) =>
      let decoded := java_utf8 data in
      (note_output (default false stderr) (to_long sequence) rs, attempts,
       [ShOutput data (default false stderr) (default false binary || kcontains replacement_char decoded) (default 0 timestamp) decoded])
  | Some (proto.Exit code timed_out message) => (clear rs, attempts, [ShExit code (default false timed_out) (default "" message)])
  | Some (proto.Error message code) => (rs, attempts, [ShError message (Some (default 0 code))])
  | Some (proto.HeartbeatAck timestamp latency) => (rs, attempts, [ShHeartbeat timestamp (default 0 latency)])
  | Some (proto.Closed reason) => (clear rs, attempts, [ShClosed (default "" reason)])
  | None => (rs, attempts, [])
  end.
Fixpoint shell_stream (msgs : list proto.SessionServerMessage) (st : CapabilityResumeState * Z)
    : CapabilityResumeState * Z * list ShellSessionEvent :=
  match msgs with
  | [] => (st, [])
  | m :: msgs =>
      let '(st1, e1) := shell_message m st in
      let '(st2, e2) := shell_stream msgs st1 in (st2, (e1 ++ e2)%list)
  end.

(** The end of a stream: whether a resume is planned, the attempts, the event. *)
Definition failure_message (t : throwable) : string :=
  match t with
  | TStatus s => command_grpc_error s
  | TIo m | TCancelled m | TOther m => default "Shell session failed" m
  end.
Definition stream_ended (userClosed : bool) (failure : option throwable) (st : CapabilityResumeState * Z)
    : bool * Z * list ShellSessionEvent :=
  let '(rs, attempts) := st in
  match failure with
  | None => (false, attempts, [])
  | Some t =>
      if match t with TCancelled _ => userClosed | _ => false end then (false, attempts, [])
      else if shouldAttemptResume userClosed rs t then (true, attempts + 1, [ShResuming (attempts + 1)])
      else (false, attempts, if userClosed then [] else [ShError (failure_message t) None])
  end.

(** The first message of a connection. *)
Definition initialMessage (commandId : string) (parameters : gmap string string) (pendingReconnect : bool) (rs : CapabilityResumeState)
    : proto.SessionClientMessage :=
  if pendingReconnect && canResume rs then
    proto.mkSessionClientMessage (default "" (rs_sessionId rs))
      (Some (proto.Resume (default "" (rs_resumeToken rs)) (Some (of_long (rs_lastStdout rs))) (Some (of_long (rs_lastStderr rs)))))
  else proto.mkSessionClientMessage "" (Some (proto.Open commandId parameters None)).

(** One round of the loop: [connect], the certificate the connection had when the first
    message came, the messages, how the stream ended, and whether the user had closed the
    session by then. *)
Record connection := mkConnection {
  cn_mode : result (option string) ConnectionMode;
  cn_captured : option bytes;
  cn_now : Z;
  cn_messages : list proto.SessionServerMessage;
  cn_failure : option throwable;
  cn_userClosed : bool;
}.
Record loop_state := mkLoopState {
  lp_resume : CapabilityResumeState;
  lp_attempts : Z;
  lp_pendingReconnect : bool;
  lp_table : list Row;
}.
Record round_result := mkRound {
  rd_state : loop_state;
  rd_request : option proto.SessionClientMessage;
  rd_events : list ShellSessionEvent;
  rd_again : bool;
}.
Definition shell_round `{Sha256, LayoutJson} (server : EnrolledServerEntity) (commandId : string) (parameters : gmap string string)
    (c : connection) (s : loop_state) : round_result :=
  match cn_mode c with
  | Err message => mkRound s None [ShError (default "Failed to connect to server" message) None] false
  | Ok mode =>
      let request := initialMessage commandId parameters (lp_pendingReconnect s) (lp_resume s) in
      let finish t st events :=
        let '(again, attempts, last) := stream_ended (cn_userClosed c) (cn_failure c) st in
        let again := again && negb (cn_userClosed c) in
        mkRound (mkLoopState st.1 attempts again t) (Some request) (events ++ last)%list again in
      match cn_messages c with
      | [] => finish (lp_table s) (lp_resume s, lp_attempts s) []
      | m :: _ =>
          match verifyServerCertificate server (cn_captured c) (lp_table s) with
          | (t1, Ok _) =>
              let '(st, events) := shell_stream (cn_messages c) (lp_resume s, lp_attempts s) in
              finish (dao_updateConnectionMode (es_serverId server) (cn_now c) mode t1) st events
          | (t1, Err x) =>
              let id := proto.sm_session_id m in
              let rs := lp_resume s in
              mkRound (mkLoopState (if is_blank id then rs else mkResumeState (Some id) (rs_resumeToken rs) (rs_lastStdout rs) (rs_lastStderr rs))
                         (lp_attempts s) false t1) (Some request) [ShError x None] false
          end
      end
  end.
(** The loop over the connections the network gives it: requests, events, final state. *)
Fixpoint shell_loop `{Sha256, LayoutJson} (server : EnrolledServerEntity) (commandId : string) (parameters : gmap string string)
    (cs : list connection) (s : loop_state) : list proto.SessionClientMessage * list ShellSessionEvent * loop_state :=
  match cs with
  | [] => ([], [], s)
  | c :: cs =>
      let r := shell_round server commandId parameters c s in
      let '(requests, events, s') := if rd_again r then shell_loop server commandId parameters cs (rd_state r) else ([], [], rd_state r) in
      (option_list (rd_request r) ++ requests, rd_events r ++ events, s')%list
  end.
Definition loop_init (spec : option ResumeSessionSpec) (t : list Row) : loop_state :=
  mkLoopState (initial_state spec) 0 (bool_decide (is_Some spec)) t.
End shell.

(** ** The channel of the events ([callbackFlow]: 64 places, [trySend] drops when full) *)
Definition FLOW_CAPACITY : nat := 64.
Inductive flow_op := FSend (e : ShellSessionEvent) | FTake.
Record event_flow := mkFlow {
  fl_buffer : list ShellSessionEvent;
  fl_taken : list ShellSessionEvent;
  fl_dropped : list ShellSessionEvent;
}.
Definition flow_step (f : event_flow) (o : flow_op) : event_flow :=
  match o with
  | FSend e =>
      if (length (fl_buffer f) <? FLOW_CAPACITY)%nat then mkFlow (fl_buffer f ++ [e])%list (fl_taken f) (fl_dropped f)
      else mkFlow (fl_buffer f) (fl_taken f) (fl_dropped f ++ [e])%list
  | FTake =>
      match fl_buffer f with
      | e :: b => mkFlow b (fl_taken f ++ [e])%list (fl_dropped f)
      | [] => f
      end
  end.
Definition flow_run (ops : list flow_op) : event_flow := foldl flow_step (mkFlow [] [] []) ops.
Definition sent (ops : list flow_op) : list ShellSessionEvent := omap (λ o, match o with FSend e => Some e | FTake => None end) ops.

(** ** The terminal ([RemoteTerminalSession]) *)
Record Terminal := mkTerminal {
  tm_running : bool;
  tm_emulator : option (list bytes);
  tm_pendingOutput : list bytes;
  tm_events : list ShellSessionEvent;
  tm_finishedNotified : bool;
}.
Definition Terminal_new : Terminal := mkTerminal true None [] [] false.
Definition onEvent (e : ShellSessionEvent) (t : Terminal) : Terminal :=
  mkTerminal (tm_running t) (tm_emulator t) (tm_pendingOutput t) (tm_events t ++ [e])%list (tm_finishedNotified t).
Definition handleOutput (data : bytes) (e : ShellSessionEvent) (t : Terminal) : Terminal :=
  if negb (tm_running t) then t
  else onEvent e (if bool_decide (data = []) then t
    else match tm_emulator t with
      | Some fed => mkTerminal true (Some (fed ++ [data])%list) (tm_pendingOutput t) (tm_events t) (tm_finishedNotified t)
      | None => mkTerminal true None (tm_pendingOutput t ++ [data])%list (tm_events t) (tm_finishedNotified t)
      end).
Definition handleEnd (e : ShellSessionEvent) (t : Terminal) : Terminal :=
  let t1 := onEvent e t in mkTerminal false (tm_emulator t1) (tm_pendingOutput t1) (tm_events t1) true.
Definition terminal_event (t : Terminal) (e : ShellSessionEvent) : Terminal :=
  match e with
  | ShOutput data _ _ _ _ => handleOutput data e t
  | ShExit _ _ _ | ShClosed _ => handleEnd e t
  | _ => onEvent e t
  end.
(** [updateSize]: the first call makes the emulator, which gets the output that waited. *)
Definition updateSize (t : Terminal) : Terminal :=
  match tm_emulator t with
  | None => mkTerminal (tm_running t) (Some (tm_pendingOutput t)) [] (tm_events t) (tm_finishedNotified t)
  | Some _ => t
  end.
(** [finishIfRunning] and [dispose]: the reason sent to the server, if any. *)
Definition finishIfRunning (t : Terminal) : Terminal * option (option string) :=
  if tm_running t then (mkTerminal false (tm_emulator t) (tm_pendingOutput t) (tm_events t) true, Some (Some "Client closed")) else (t, None).
Definition dispose (reason : option string) (t : Terminal) : Terminal * option (option string) :=
  (mkTerminal false (tm_emulator t) (tm_pendingOutput t) (tm_events t) true, Some reason).

Inductive terminal_op := TmEvent (e : ShellSessionEvent) | TmSize.
Definition terminal_step (t : Terminal) (o : terminal_op) : Terminal :=
  match o with TmEvent e => terminal_event t e | TmSize => updateSize t end.
Definition terminal_run (ops : list terminal_op) : Terminal := foldl terminal_step Terminal_new ops.
Definition terminal_events (ops : list terminal_op) : list ShellSessionEvent := omap (λ o, match o with TmEvent e => Some e | TmSize => None end) ops.
Definition sized (ops : list terminal_op) : bool := existsb (λ o, match o with TmSize => true | _ => false end) ops.
Definition fed (t : Terminal) : bytes := concat (default [] (tm_emulator t)).
Definition outputs (l : list ShellSessionEvent) : list bytes := omap (λ e, match e with ShOutput data _ _ _ _ => Some data | _ => None end) l.
Definition ends (e : ShellSessionEvent) : bool := match e with ShExit _ _ _ | ShClosed _ => true | _ => false end.

(** ** The screen ([ShellSessionViewModel.handleTerminalEvent]) *)
Inductive ShellConnectionState :=
  | NotStarted
  | Connecting
  | Active (readyMessage : string)
  | Completed (exitCode : Z) (message : string)
  | Failed (message : string)
  | ConnClosed (reason : option string).
Record ShellScreen := mkShellScreen {
  vs_connectionState : ShellConnectionState;
  vs_statusMessage : option string;
  vs_activeSession : bool;
  vs_toasts : list string;
}.
Definition handleTerminalEvent (s : ShellScreen) (e : ShellSessionEvent) : ShellScreen :=
  match e with
  | ShReady _ message => mkShellScreen (Active message) (Some message) (vs_activeSession s) (vs_toasts s)
  | ShResuming attempt =>
      let message := fmt ["Connection lost. Attempting to resume (attempt "; pretty attempt; ")..."] in
      mkShellScreen Connecting (Some message) (vs_activeSession s) (vs_toasts s ++ [message])%list
  | ShResumeAcknowledged message => mkShellScreen (Active message) (Some message) (vs_activeSession s) (vs_toasts s)
  | ShOutput _ _ _ _ _ | ShHeartbeat _ _ => s
  | ShExit code _ message => mkShellScreen (Completed code message) (Some message) false (vs_toasts s)
  | ShError message _ => mkShellScreen (Failed message) (Some message) false (vs_toasts s ++ [message])%list
  | ShClosed reason => mkShellScreen (ConnClosed (Some reason)) (Some reason) false (vs_toasts s)
  end.

(** The messages behind the handlers of a session whose id is known. *)
Definition input_request (sid : string) (data : bytes) : proto.SessionClientMessage :=
  proto.mkSessionClientMessage sid (Some (proto.Input data None)).
Definition resize_request (sid : string) (cols rows : Z) : proto.SessionClientMessage :=
  proto.mkSessionClientMessage sid (Some (proto.Resize cols rows)).
Definition close_request (sid : string) (reason : option string) : proto.SessionClientMessage :=
  proto.mkSessionClientMessage sid (Some (proto.Close reason)).
(** [sendText], [sendCtrlC]: nothing without a session. *)
Definition sendText (sid text : string) (appendNewline : bool) (s : ShellScreen) : ShellScreen * list proto.SessionClientMessage :=
  if vs_activeSession s then
    (s, [input_request sid (String.list_byte_of_string (if appendNewline then fmt [text; String "010" EmptyString] else text))])
  else (mkShellScreen (vs_connectionState s) (vs_statusMessage s) false (vs_toasts s ++ ["Session is not active"])%list, []).
Definition sendCtrlC (sid : string) (s : ShellScreen) : ShellScreen * list proto.SessionClientMessage :=
  if vs_activeSession s then (s, [input_request sid [x03]])
  else (mkShellScreen (vs_connectionState s) (vs_statusMessage s) false (vs_toasts s ++ ["Session is not active"])%list, []).
(** [closeSession] on a terminal, and [detachSession]. *)
Definition closeSession (sid : string) (reason : option string) (t : option Terminal) (s : ShellScreen)
    : option Terminal * ShellScreen * list proto.SessionClientMessage :=
  match t with
  | None => (None, s, [])
  | Some t =>
      (None, mkShellScreen (ConnClosed reason) reason false (vs_toasts s), close_request sid <$> option_list (dispose reason t).2)
  end.
Definition detachSession (sid : string) := closeSession sid (Some "Client detached").

(** ** The form ([load], [updateParameter], [refreshDefault]) *)
Record ParameterInputState := mkInputState {
  ps_parameter : proto.CapabilityParameter;
  ps_currentValue : string;
  ps_validationResult : ValidationResult;
  ps_isDirty : bool;
}.
(** A [LinkedHashMap]: a new key goes to the end, an old one keeps its place. *)
Abbreviation form := (list (string * ParameterInputState)).
Fixpoint put (k : string) (v : ParameterInputState) (f : form) : form :=
  match f with
  | [] => [(k, v)]
  | (k', v') :: f' => if bool_decide (k' = k) then (k, v) :: f' else (k', v') :: put k v f'
  end.
Definition state_of (k : string) (f : form) : option ParameterInputState := snd <$> (list_find (λ kv, kv.1 = k) f ≫= λ x, Some x.2).

Section form.
Context `{JavaRegex}.

Definition input_state (parameter : proto.CapabilityParameter) (value : string) (dirty : bool) : ParameterInputState :=
  mkInputState parameter value (validateParameterValue parameter value) dirty.
Definition initialStates (c : Command) : form :=
  foldl (λ f p, put (kp_name p) (input_state (toProtoParameter p) (default (defaultValueFor (kp_type p)) (kp_defaultValue p)) false) f)
    [] (kc_parameters c).
(** What [load] takes from the list of the server. *)
Definition loaded_command (commandId : string) (commands : list Command) : result string Command :=
  match list_find (λ c, kc_id c = commandId) commands with
  | None => Err "Capability not found on server"
  | Some (_, c) =>
      if bool_decide (kc_kind c ≠ SHELL_INTERACTIVE ∨ kc_sessionMode c ≠ REALTIME) then
        Err (fmt [kc_name c; " is not an interactive shell capability"])
      else Ok c
  end.
Definition updateParameter (name value : string) (f : form) : form :=
  match state_of name f with
  | None => f
  | Some current => put name (input_state (ps_parameter current) value true) f
  end.
(** A refresh holds the state it started with and writes it back with the new value. *)
Definition refreshDefault (name : string) (state : ParameterInputState) (value : string) (f : form) : form :=
  put name (input_state (ps_parameter state) value false) f.
Definition isFormValid (f : form) : bool := forallb (λ kv, bool_decide (ps_validationResult kv.2 = Valid)) f.
Definition is_invalid (r : ValidationResult) : bool := match r with Invalid _ => true | _ => false end.

(** The operations of the user and of finished refreshes. *)
Inductive form_op := FmUpdate (name value : string) | FmRefreshed (name value : string) (started : form).
Definition form_step (f : form) (o : form_op) : form :=
  match o with
  | FmUpdate name value => updateParameter name value f
  | FmRefreshed name value started =>
      match state_of name started with Some state => refreshDefault name state value f | None => f end
  end.
End form.

(** [fetchDynamicDefault] *)
Definition fetchDynamicDefault (regex_find : string → string → option (option (list string))) (results : list CommandExecutionResult)
    (pattern : option string) (fallback : string) : string :=
  let raw := ktrim (fmt (omap (λ r, match r with COutput text false => Some text | _ => None end) results)) in
  if is_null_or_blank pattern then if str_is_empty raw then fallback else raw
  else
    match regex_find (default "" pattern) raw with
    | None => fallback
    | Some None => fallback
    | Some (Some groups) => default fallback (group ← groups !! 1%nat; if is_blank group then None else Some group)
    end.

(** ** Sessions to resume ([refreshResumeCandidates]) *)
Definition toLastSequence (n : Z) : Z := if n <=? 0 then 0 else n - 1.
Record ResumeCandidate := mkCandidate {
  rc_sessionId : string;
  rc_capabilityId : string;
  rc_capabilityName : string;
  rc_ownerFingerprint : string;
  rc_createdAtMs : Z;
  rc_lastActivityMs : Z;
  rc_bufferLength : Z;
  rc_resumeSpec : ResumeSessionSpec;
}.
Definition toResumeCandidate (i : proto.SessionInfo) : option ResumeCandidate :=
  if is_blank (proto.resume_token i) then None
  else Some (mkCandidate (proto.session_id i) (proto.capability_id i)
    (if is_blank (proto.capability_name i) then proto.capability_id i else proto.capability_name i)
    (default "" (proto.owner_fingerprint i)) (proto.created_at_ms i) (proto.last_activity_ms i) (proto.buffer_len i)
    (mkResumeSpec (proto.session_id i) (proto.resume_token i) (toLastSequence (to_long (proto.stdout_next_sequence i)))
       (toLastSequence (to_long (proto.stderr_next_sequence i))))).
Definition more_recent (a b : ResumeCandidate) : Prop := rc_lastActivityMs b <= rc_lastActivityMs a.
#[global] Instance more_recent_dec a b : Decision (more_recent a b).
Proof. unfold more_recent. apply _. Defined.
Definition resumeCandidates (commandId : string) (sessions : list proto.SessionInfo) : list ResumeCandidate :=
  merge_sort more_recent (omap toResumeCandidate
    (filter (λ i, proto.capability_id i = commandId ∧ mapSessionMode (proto.session_mode i) = REALTIME ∧ proto.attached i = false) sessions)).

(** ** Starting ([launchSession]) *)
Record launch := mkLaunch { ln_parameters : gmap string string; ln_resumeSpec : option ResumeSessionSpec; ln_message : option string }.
Definition launchSession (loaded active : bool) (f : form) (candidate : option ResumeCandidate) : result string launch :=
  if negb loaded then Err "Capability not loaded yet"
  else if active then Err "Session already active"
  else
    match candidate with
    | Some c => Ok (mkLaunch ∅ (Some (rc_resumeSpec c)) (Some "Resuming previous session..."))
    | None =>
        match list_find (λ kv, is_invalid (ps_validationResult kv.2) = true) f with
        | Some (_, (key, _)) => Err (fmt ["Fix parameter '"; key; "' before starting the session"])
        | None => Ok (mkLaunch (list_to_map ((λ kv, (kv.1, ps_currentValue kv.2)) <$> f)) None None)
        end
    end.

(** ** The form against the server *)
(** Every line of the form is one announced parameter with the verdict on its value. *)
Definition line_ok `{JavaRegex} (p : CapabilityParameterConfig) (kv : string * ParameterInputState) : Prop :=
  kv.1 = pc_name p ∧ ps_parameter kv.2 = announced p ∧ ps_validationResult kv.2 = validateParameterValue (announced p) (ps_currentValue kv.2).

Section form_lemmas.
Context `{JavaRegex}.

(** The forms of a command: as loaded, after an input, after a refresh that started with
    an earlier form. *)
Inductive form_reached (c : Command) : form → Prop :=
  | reached_load : form_reached c (initialStates c)
  | reached_update f name value : form_reached c f → form_reached c (form_step f (FmUpdate name value))
  | reached_refresh f name value started :
      form_reached c f → form_reached c started → form_reached c (form_step f (FmRefreshed name value started)).

Lemma nodup_key {A} (g : A → string) l x y : NoDup (g <$> l) → x ∈ l → y ∈ l → g x = g y → x = y.
Proof.
  induction l as [|z l IH]; [by intros _ ?%elem_of_nil|]. rewrite fmap_cons. intros [Hz Hnd]%list.NoDup_cons.
  rewrite !elem_of_cons. intros [->|Hx] [->|Hy] E; [done|..|by apply IH].
  - exfalso. apply Hz. rewrite E. by apply list_elem_of_fmap_2.
  - exfalso. apply Hz. rewrite <-E. by apply list_elem_of_fmap_2.
Qed.

Lemma lines_names ps (f : form) : Forall2 line_ok ps f → f.*1 = pc_name <$> ps.
Proof. induction 1 as [|p kv ps f Hp Hf IH]; [done|]. rewrite !fmap_cons, IH. f_equal. apply Hp. Qed.

Lemma put_new k v (f : form) : k ∉ f.*1 → put k v f = (f ++ [(k, v)])%list.
Proof.
  induction f as [|[k' v'] f IH]; [done|]. rewrite fmap_cons, not_elem_of_cons. intros [Hk Hf]. cbn in Hk |- *.
  rewrite bool_decide_eq_false_2 by congruence. by rewrite IH.
Qed.

Lemma put_lines ps k v (f : form) : Forall2 line_ok ps f → (∀ p, p ∈ ps → pc_name p = k → line_ok p (k, v)) → k ∈ f.*1 →
  Forall2 line_ok ps (put k v f).
Proof.
  induction 1 as [|p [k' v'] ps f Hp Hf IH]; intros Hv; [by intros ?%elem_of_nil|]. rewrite fmap_cons, elem_of_cons. cbn. intros Hk.
  case_bool_decide as E.
  - subst k'. constructor; [|done]. apply Hv; [set_solver|]. symmetry. apply Hp.
  - constructor; [done|]. apply IH; [|by destruct Hk as [->|]]. intros p' Hp'. apply Hv. set_solver.
Qed.

Lemma state_of_line ps k s (f : form) : NoDup (pc_name <$> ps) → Forall2 line_ok ps f → state_of k f = Some s →
  k ∈ pc_name <$> ps ∧ ∀ p, p ∈ ps → pc_name p = k → ps_parameter s = announced p.
Proof.
  intros Hnd Hf Hs. unfold state_of in Hs. destruct (list_find _ f) as [[i [k' s']]|] eqn:E; [|done]. injection Hs as <-.
  apply list_find_Some in E as (Hi & Hk & _). cbn in Hk. subst k'.
  destruct (Forall2_lookup_r _ _ _ _ _ Hf Hi) as (p' & Hp'%list_elem_of_lookup_2 & (Hn' & Hpar & _)). cbn in Hn', Hpar. split.
  - rewrite Hn'. by apply list_elem_of_fmap_2.
  - intros p Hp Hn. cbn. rewrite Hpar. f_equal. apply (nodup_key pc_name ps); congruence.
Qed.

Lemma put_input ps k s value dirty (f g : form) : NoDup (pc_name <$> ps) → Forall2 line_ok ps f → Forall2 line_ok ps g →
  state_of k g = Some s → Forall2 line_ok ps (put k (input_state (ps_parameter s) value dirty) f).
Proof.
  intros Hnd Hf Hg Hs. destruct (state_of_line _ _ _ _ Hnd Hg Hs) as [Hk Hp]. apply put_lines; [done| |by rewrite (lines_names _ _ Hf)].
  intros p Hin Hn. specialize (Hp p Hin Hn). split; [done|]. unfold input_state. cbn. by rewrite Hp.
Qed.

Definition listed (c : CapabilityConfig) : Command := command_of (proto_from_metadata (build_metadata c)).
Lemma listed_parameters c : kc_parameters (listed c) = (λ p, command_parameter (announced p)) <$> cap_parameters c.
Proof. unfold listed, announced. cbn. by rewrite <-!list_fmap_compose. Qed.

Lemma initial_lines c : NoDup (pc_name <$> cap_parameters c) → Forall2 line_ok (cap_parameters c) (initialStates (listed c)).
Proof.
  unfold initialStates. rewrite listed_parameters. intros Hnd. set (step := λ _ _, _).
  assert (∀ rest before f, Forall2 line_ok before f → NoDup (pc_name <$> (before ++ rest)%list) →
    Forall2 line_ok (before ++ rest)%list (foldl step f ((λ p, command_parameter (announced p)) <$> rest))) as Hgen.
  { intros rest. induction rest as [|p rest IH]; intros before f Hf Hn; [by rewrite app_nil_r|]. rewrite fmap_cons. cbn [foldl].
    rewrite cons_middle, (assoc_L (++)) in Hn |- *. apply IH; [|done]. unfold step at 1. rewrite put_new.
    - apply Forall2_app; [done|]. constructor; [|done]. rewrite announced_kept. by split.
    - rewrite (lines_names _ _ Hf). rewrite fmap_app in Hn. apply NoDup_app in Hn as [Hn _]. rewrite fmap_app in Hn.
      apply NoDup_app in Hn as (_ & Hd & _). intros Hin. apply (Hd _ Hin). by apply list_elem_of_singleton. }
  by apply (Hgen _ [] []).
Qed.

Lemma reached_lines c f : NoDup (pc_name <$> cap_parameters c) → form_reached (listed c) f → Forall2 line_ok (cap_parameters c) f.
Proof.
  intros Hnd. induction 1 as [|f name value Hr IH|f name value g Hr IH Hg IHg]; [by apply initial_lines|..]; cbn [form_step].
  - unfold updateParameter. destruct (state_of name f) as [s|] eqn:E; [|done]. by eapply put_input.
  - destruct (state_of name g) as [s|] eqn:E; [|done]. by eapply put_input.
Qed.

Lemma verdict_decides p v : is_invalid (validateParameterValue p v) = false → validateParameterValue p v = Valid.
Proof. unfold validateParameterValue. repeat (case_match; try done). Qed.
End form_lemmas.

(** C30: A form the phone lets start is accepted by the server.  A capability of a valid
    configuration is listed, its form is loaded, edited and refreshed in any order; if
    [launchSession] then starts the session, the values it sends pass the server's check
    of the parameters unchanged.  Provided: what Java's regular expressions match as a whole the
    server's match too, for the patterns used; numbers are typed in ASCII digits; and a
    parameter's pattern is not blank. *)
Theorem android_form_is_accepted `{JavaRegex, RegexEngine} c f ln :
  capability_ok c → Forall RegexesAgree (cap_parameters c) → form_reached (listed c) f →
  launchSession true false f None = Ok ln →
  (∀ p v, p ∈ cap_parameters c → ln_parameters ln !! pc_name p = Some v → read_alike p v) →
  ∃ m', Parameters.validate_parameters c (ln_parameters ln) = Ok m' ∧ ∀ k v, ln_parameters ln !! k = Some v → m' !! k = Some v.
Proof.
  intros (_ & _ & Hnd & Hparams & _) Hre Hf Hl Halike. pose proof (reached_lines c f Hnd Hf) as Hlines.
  unfold launchSession in Hl. cbn [negb] in Hl. destruct (list_find _ f) as [[i [k s]]|] eqn:Hfind; [done|]. injection Hl as <-. cbn [ln_parameters] in *.
  apply list_find_None in Hfind. rewrite Forall_forall in Hfind. set (m := list_to_map _) in *.
  assert (∀ p kv, p ∈ cap_parameters c → kv ∈ f → line_ok p kv → m !! pc_name p = Some (ps_currentValue kv.2)) as Hm.
  { intros p kv Hp Hkv Hline. apply elem_of_list_to_map_1; [rewrite <-list_fmap_compose; rewrite <-(lines_names _ _ Hlines) in Hnd; exact Hnd|].
    apply list_elem_of_fmap. exists kv. split; [|done]. f_equal. symmetry. apply Hline. }
  apply chosen_values_accepted; [done|..].
  - apply Forall_forall. intros p Hp. pose proof Hp as [j Hj]%list_elem_of_lookup. destruct (Forall2_lookup_l _ _ _ _ _ Hlines Hj) as (kv & Hkv%list_elem_of_lookup_2 & Hline).
    specialize (Hm p kv Hp Hkv Hline). exists (ps_currentValue kv.2). unfold chosen_value. rewrite Hm. split; [done|].
    apply (validate_parameter_value_iff c), announced_value_accepted; [by apply (proj1 (Forall_forall _ _) Hre)|by apply (proj1 (Forall_forall _ _) Hparams)|by apply Halike|].
    destruct Hline as (_ & _ & Hv). apply verdict_decides. rewrite <-Hv. by apply not_true_is_false, Hfind.
  - intros k [v Hk]. apply elem_of_list_to_map_2, list_elem_of_fmap in Hk as (kv & [= -> ->] & Hkv). rewrite <-(lines_names _ _ Hlines).
    by apply list_elem_of_fmap_2.
Qed.

(** ** Resuming against the server *)
Definition up_to (log : list BufferedOutput) (rs : CapabilityResumeState) : Prop :=
  rs_lastStdout rs = default 0 (last_seen Stdout log) ∧ rs_lastStderr rs = default 0 (last_seen Stderr log).

Lemma default_last_seen st log : numbered log → default 0 (last_seen st log) = Z.of_nat (count_of st log).
Proof. intros Hn. rewrite numbered_last_seen by done. case_decide as E; cbn; lia. Qed.

Lemma note_next log f rs : numbered (log ++ [f])%list → up_to log rs → bo_sequence f < 2 ^ 63 →
  up_to (log ++ [f])%list (note_output (bool_decide (bo_stream f = Stderr)) (to_long (bo_sequence f)) rs).
Proof.
  intros Hn [Ho He] Hlt. unfold to_long. rewrite (proj2 (Z.ltb_lt _ _) Hlt). unfold up_to in *.
  assert (default 0 (last_seen (bo_stream f) log) < bo_sequence f) as Hnext.
  { rewrite default_last_seen by (by eapply numbered_app_inv). apply (numbered_later log [f]); [done|]. by apply list_elem_of_singleton. }
  rewrite !last_seen_snoc. unfold note_output. destruct f as [[] seq data binary ts]; cbn [bo_stream bo_sequence] in *;
    repeat first [rewrite bool_decide_eq_true_2 by done|rewrite bool_decide_eq_false_2 by done]; cbn; rewrite ?Ho, ?He; split; try done; lia.
Qed.

Lemma filter_same {A} (P Q : A → bool) (l : list A) : (∀ x, x ∈ l → P x = Q x) → filter (λ x, P x = true) l = filter (λ x, Q x = true) l.
Proof.
  induction l as [|x l IH]; intros Hl; [done|]. rewrite !filter_cons, IH by (intros y Hy; apply Hl; by right).
  rewrite (Hl x) by (by left). done.
Qed.

Lemma since_zero id (p : list BufferedOutput) m : log_inv id m → numbered p →
  buffered_output_since id (Some (default 0 (last_seen Stdout p))) (Some (default 0 (last_seen Stderr p))) m =
  buffered_output_since id (last_seen Stdout p) (last_seen Stderr p) m.
Proof.
  intros [Hn Hs] Hp. unfold buffered_output_since, with_session_state, get_entry. destruct (sm_sessions m !! id) as [e|] eqn:He; [|done]. cbn. f_equal.
  destruct (Hs e eq_refl) as [[Hb _] _]. unfold outputs_since. rewrite Hb. apply filter_same. intros f Hf.
  assert (1 <= bo_sequence f) as Hf1.
  { destruct (numbered_bound (session_log id m) f Hn) as [? _]; [|done].
    pose proof (lastn_suffix (ss_buffer_capacity (se_state e)) (session_log id m)) as [k Hk]. rewrite Hk. set_solver. }
  unfold newer_than. destruct (bo_stream f).
  - destruct (last_seen Stdout p); cbn; [done|]. apply Z.ltb_lt. lia.
  - destruct (last_seen Stderr p); cbn; [done|]. apply Z.ltb_lt. lia.
Qed.

Section replay.
Context `{JavaUtf8}.

Lemma shell_stream_app m1 m2 st : shell_stream (m1 ++ m2)%list st =
  let '(st1, e1) := shell_stream m1 st in let '(st2, e2) := shell_stream m2 st1 in (st2, (e1 ++ e2)%list).
Proof.
  revert st. induction m1 as [|m m1 IH]; intros st; cbn [app shell_stream]; [by destruct (shell_stream m2 st)|].
  destruct (shell_message m st) as [st1 e1]. rewrite IH. destruct (shell_stream m1 st1) as [st2 e2]. destruct (shell_stream m2 st2) as [st3 e3].
  by rewrite (assoc_L (++)).
Qed.

(** Frames on the wire move the state on and come out as output. *)
Lemma frames_received sid cid mode seen fs rs n :
  numbered (seen ++ fs)%list → Forall (λ f, bo_sequence f < 2 ^ 63) fs → up_to seen rs → rs_sessionId rs = Some sid → is_blank sid = false →
  ∃ rs' es, shell_stream (frame_message sid cid mode <$> fs) (rs, n) = ((rs', n), es) ∧ up_to (seen ++ fs)%list rs' ∧
    rs_sessionId rs' = Some sid ∧ rs_resumeToken rs' = rs_resumeToken rs ∧ outputs es = bo_data <$> fs ∧ Forall (λ e, ends e = false) es.
Proof.
  revert seen rs. induction fs as [|f fs IH]; intros seen rs Hn Hlt Hk Hid Hb.
  { exists rs, []. rewrite app_nil_r. by split_and!. }
  apply Forall_cons in Hlt as [Hf Hlt]. rewrite cons_middle, (assoc_L (++)) in Hn. rewrite fmap_cons. cbn [shell_stream]. unfold shell_message at 1.
  cbn [frame_message session_event_to_proto proto.sm_session_id proto.sm_payload default fmap option_fmap option_map from_option id]. rewrite Hb.
  set (rs1 := note_output _ _ _). destruct (IH (seen ++ [f])%list rs1) as (rs' & es & E & Hk' & Hid' & Ht & Ho & He); [done..| | |done|].
  - apply note_next; [by eapply numbered_app_inv| |done]. exact Hk.
  - unfold rs1, note_output. by destruct (bool_decide _).
  - rewrite E. eexists rs', _. split; [reflexivity|]. rewrite <-(assoc_L (++)) in Hk'. split_and!; try done.
    + rewrite Ht. unfold rs1, note_output. by destruct (bool_decide _).
    + cbn. f_equal. exact Ho.
    + by constructor.
Qed.
End replay.

(** The terminal shows the output it is given, whenever its emulator is made. *)
Lemma terminal_shows ops : Forall (λ e, ends e = false) (terminal_events ops) →
  let t := terminal_run ops in let shown := concat (outputs (terminal_events ops)) in
  tm_running t = true ∧
  if sized ops then tm_pendingOutput t = [] ∧ ∃ l, tm_emulator t = Some l ∧ concat l = shown
  else tm_emulator t = None ∧ concat (tm_pendingOutput t) = shown.
Proof.
  unfold terminal_run. induction ops as [|o ops IH] using rev_ind; [done|].
  unfold terminal_events, outputs, sized in *. rewrite foldl_app, !omap_app, Forall_app, existsb_app. intros [He Ho]. destruct (IH He) as (Hr & Hs). clear IH.
  set (t := foldl _ _ ops) in *. cbn [foldl]. fold (terminal_events ops). fold (outputs (terminal_events ops)). rewrite concat_app.
  destruct o as [e|]; cbn [terminal_step].
  - cbn [existsb]. rewrite !orb_false_r. apply Forall_cons in Ho as [Ho _].
    destruct e; cbn in Ho; try discriminate Ho; cbn; rewrite ?app_nil_r; try exact (conj Hr Hs). unfold handleOutput. rewrite Hr. cbn [negb].
    case_bool_decide as Hd; [subst; cbn; by rewrite ?app_nil_r|]. destruct (existsb _ ops).
    + destruct Hs as (Hp & l & -> & Hl). cbn. split_and!; [done..|]. eexists. split; [done|]. rewrite concat_app, Hl. cbn. by rewrite app_nil_r.
    + destruct Hs as (-> & Hl). cbn. split_and!; [done..|]. rewrite concat_app, Hl. cbn. by rewrite app_nil_r.
  - cbn. rewrite orb_true_r, app_nil_r. unfold updateSize. destruct (existsb _ ops).
    + destruct Hs as (Hp & l & Em & Hl). rewrite Em. split_and!; [done..|]. exists l. split; [exact Em|exact Hl].
    + destruct Hs as (Em & Hl). rewrite Em. split_and!; [done..|]. eexists. split; [reflexivity|exact Hl].
Qed.

Lemma verify_any_table `{Sha256, LayoutJson} server captured t t' :
  (verifyServerCertificate server captured t).2 = (verifyServerCertificate server captured t').2.
Proof. unfold verifyServerCertificate. by repeat case_match. Qed.

(** While nothing is dropped the collector gets what was sent, in order. *)
Lemma flow_conserves ops : fl_dropped (flow_run ops) = [] →
  (fl_taken (flow_run ops) ++ fl_buffer (flow_run ops))%list = sent ops.
Proof.
  unfold flow_run. induction ops as [|o ops IH] using rev_ind; [done|]. rewrite foldl_app. unfold sent in *. rewrite omap_app. set (f := foldl _ _ ops) in *.
  destruct o as [e|]; cbn [foldl flow_step].
  - destruct (length (fl_buffer f) <? FLOW_CAPACITY)%nat; cbn; [intros Hd; rewrite <-IH by done; by rewrite (assoc_L (++))|]. by intros [_ ?]%app_nil.
  - cbn [omap list_omap]. rewrite app_nil_r. destruct (fl_buffer f) as [|e b] eqn:E; cbn; intros Hd; rewrite <-IH by done; rewrite ?E; [done|]. by rewrite <-(assoc_L (++)).
Qed.

Section exactly_once.
Context `{JavaUtf8, Sha256, LayoutJson, UuidText, !UuidTextLaws}.

(** A round whose certificate passes. *)
Lemma round_follows server cid ps c s mode : cn_mode c = Ok mode → (verifyServerCertificate server (cn_captured c) (lp_table s)).2 = Ok tt →
  cn_messages c ≠ [] →
  let '(st, events) := shell_stream (cn_messages c) (lp_resume s, lp_attempts s) in
  let '(again, attempts, last) := stream_ended (cn_userClosed c) (cn_failure c) st in
  ∃ t, shell_round server cid ps c s =
    mkRound (mkLoopState st.1 attempts (again && negb (cn_userClosed c)) t)
      (Some (initialMessage cid ps (lp_pendingReconnect s) (lp_resume s))) (events ++ last)%list (again && negb (cn_userClosed c)).
Proof.
  intros Hm Hc Hne. unfold shell_round. rewrite Hm. destruct (verifyServerCertificate _ _ _) as [t1 r1]. cbn in Hc. subst r1.
  destruct (cn_messages c) as [|m l] eqn:E; [done|]. destruct (shell_stream _ _) as [st events].
  destruct (stream_ended _ _ _) as [[again attempts] last]. by eexists.
Qed.

(** The events that end a stream are no output. *)
Lemma ended_quiet u f st : outputs (stream_ended u f st).2 = [] ∧ Forall (λ e, ends e = false) (stream_ended u f st).2.
Proof. unfold stream_ended. destruct st. by repeat (case_match; simplify_eq/=; repeat constructor). Qed.

Lemma stream_ended_resumes rs n failure : canResume rs = true → resumable failure = true →
  stream_ended false (Some failure) (rs, n) = (true, n + 1, [ShResuming (n + 1)]).
Proof. intros Hc Hf. unfold stream_ended, shouldAttemptResume. rewrite Hc. cbn. rewrite Hf. by destruct failure. Qed.

(** What the first connection of a session leaves behind. *)
Lemma first_connection server cid ps mode1 cap1 now1 sid rcap rmode message tok scap smode p failure tbl :
  numbered p → Forall (λ f, bo_sequence f < 2 ^ 63) p → is_blank sid = false → is_blank tok = false → resumable failure = true →
  (verifyServerCertificate server cap1 tbl).2 = Ok tt →
  let c1 := mkConnection (Ok mode1) cap1 now1
    (proto.mkSessionServerMessage sid (Some (proto.Ready rcap rmode message tok)) :: (frame_message sid scap smode <$> p)) (Some failure) false in
  ∃ rs t es, up_to p rs ∧ rs_sessionId rs = Some sid ∧ rs_resumeToken rs = Some tok ∧
    shell_round server cid ps c1 (loop_init None tbl) =
      mkRound (mkLoopState rs 1 true t) (Some (proto.mkSessionClientMessage "" (Some (proto.Open cid ps None)))) es true ∧
    outputs es = bo_data <$> p ∧ Forall (λ e, ends e = false) es.
Proof.
  intros Hn Hlt Hid Htok Hfail Hcert c1. pose proof (round_follows server cid ps c1 (loop_init None tbl) mode1 eq_refl Hcert ltac:(done)) as Hr.
  remember (shell_round server cid ps c1 (loop_init None tbl)) as r eqn:Er in *. clear Er.
  cbn [cn_messages c1 shell_stream lp_resume lp_attempts loop_init] in Hr. unfold shell_message at 1 in Hr.
  cbn [proto.sm_session_id proto.sm_payload] in Hr. rewrite Hid in Hr.
  destruct (frames_received sid scap smode [] p (with_token tok (mkResumeState (Some sid) None 0 0)) 0) as (rs & es & E & Hk & Hsid & Ht & Ho & He);
    [done..|]. cbn in E, Hr. rewrite E in Hr. rewrite stream_ended_resumes in Hr; [|unfold canResume; rewrite Hsid, Ht; cbn; by rewrite Hid, Htok|done].
  cbn in Hr. destruct Hr as [t Hr]. exists rs, t. eexists. split_and!; [done|done|done|exact Hr|..].
  - cbn. unfold outputs in *. rewrite omap_app, Ho. cbn. by rewrite app_nil_r.
  - constructor; [done|]. apply Forall_app. split; [done|]. by repeat constructor.
Qed.

(** The replay of the server, followed by the acknowledgement. *)
Lemma replay_received sid cid mode next seen fs rs n :
  numbered (seen ++ fs)%list → Forall (λ f, bo_sequence f < 2 ^ 63) fs → up_to seen rs → rs_sessionId rs = Some sid → is_blank sid = false →
  ∃ rs' es, shell_stream (replay_messages sid cid mode fs next) (rs, n) = ((rs', 0), es) ∧ up_to (seen ++ fs)%list rs' ∧
    rs_sessionId rs' = Some sid ∧ rs_resumeToken rs' = Some next ∧ outputs es = bo_data <$> fs ∧ Forall (λ e, ends e = false) es.
Proof.
  intros Hn Hlt Hk Hid Hb. destruct (frames_received sid cid mode seen fs rs n Hn Hlt Hk Hid Hb) as (rs1 & es & E & Hk1 & Hid1 & Ht1 & Ho & He).
  exists (with_token next rs1), (es ++ [ShResumeAcknowledged ""])%list. unfold replay_messages. fold (frame_message sid cid mode).
  rewrite shell_stream_app, E. cbn. rewrite Hb. destruct rs1 as [sid1 tok1 o1 e1]. cbn in Hid1. subst sid1. split_and!; try done.
  - unfold outputs in *. rewrite omap_app, Ho. cbn. by rewrite app_nil_r.
  - apply Forall_app. split; [done|]. by repeat constructor.
Qed.

(** The loop over both connections. *)
Lemma second_connection server cid ps c1 tbl rs t es1 sid tok next scap smode p q mode2 cap2 now2 failure2 :
  numbered (p ++ q)%list → Forall (λ f, bo_sequence f < 2 ^ 63) q → Forall (λ f, bo_sequence f < 2 ^ 63) p →
  up_to p rs → rs_sessionId rs = Some sid → rs_resumeToken rs = Some tok → is_blank sid = false → is_blank tok = false →
  (∀ t, (verifyServerCertificate server cap2 t).2 = Ok tt) →
  shell_round server cid ps c1 (loop_init None tbl) =
    mkRound (mkLoopState rs 1 true t) (Some (proto.mkSessionClientMessage "" (Some (proto.Open cid ps None)))) es1 true →
  outputs es1 = bo_data <$> p → Forall (λ e, ends e = false) es1 →
  let c2 := mkConnection (Ok mode2) cap2 now2 (replay_messages sid scap smode q next) failure2 false in
  let '(requests, events, s) := shell_loop server cid ps [c1; c2] (loop_init None tbl) in
  requests = [proto.mkSessionClientMessage "" (Some (proto.Open cid ps None));
              proto.mkSessionClientMessage sid (Some (proto.Resume tok (Some (default 0 (last_seen Stdout p))) (Some (default 0 (last_seen Stderr p)))))] ∧
  outputs events = bo_data <$> (p ++ q)%list ∧ Forall (λ e, ends e = false) events ∧
  rs_resumeToken (lp_resume s) = Some next ∧ up_to (p ++ q)%list (lp_resume s).
Proof.
  intros Hn Hlq Hlp Hk Hs Ht Hid Htok Hcert E1 Ho1 He1 c2. cbn [shell_loop]. rewrite E1. cbn [rd_again rd_state rd_request rd_events option_list].
  destruct (replay_received sid scap smode next p q rs 1 Hn Hlq Hk Hs Hid) as (rs2 & es2 & E2 & Hk2 & Hs2 & Ht2 & Ho2 & He2).
  pose proof (round_follows server cid ps c2 (mkLoopState rs 1 true t) mode2 eq_refl (Hcert _)) as Hr.
  cbn [cn_messages lp_resume lp_attempts c2 cn_userClosed cn_failure lp_pendingReconnect] in Hr. rewrite E2 in Hr.
  pose proof (ended_quiet false failure2 (rs2, 0)) as [Hq1 Hq2].
  destruct (stream_ended false failure2 (rs2, 0)) as [[again attempts] final]. cbn in Hq1, Hq2.
  destruct Hr as [t2 Hr]; [by intros [_ ?]%app_nil|]. rewrite Hr. cbn [rd_again rd_state rd_request rd_events option_list].
  assert (initialMessage cid ps true rs = proto.mkSessionClientMessage sid
    (Some (proto.Resume tok (Some (default 0 (last_seen Stdout p))) (Some (default 0 (last_seen Stderr p)))))) as ->.
  { unfold initialMessage, canResume. rewrite Hs, Ht. cbn. rewrite Hid, Htok. cbn. destruct Hk as [-> ->].
    assert (∀ st, of_long (default 0 (last_seen st p)) = default 0 (last_seen st p)) as Hof; [|by rewrite !Hof].
    intros st. apply Z.mod_small. unfold last_seen. destruct (last (filter (λ f, bo_stream f = st) p)) as [f|] eqn:El; cbn; [|lia].
    apply last_Some_elem_of, list_elem_of_filter in El as [_ Hf]. rewrite Forall_forall in Hlp. specialize (Hlp f Hf).
    apply (numbered_positive p) in Hf; [lia|]. by eapply numbered_app_inv. }
  rewrite andb_true_r. assert (outputs (es1 ++ es2 ++ final)%list = bo_data <$> (p ++ q)%list) as Hout.
  { unfold outputs in *. by rewrite !omap_app, Ho1, Ho2, Hq1, app_nil_r, fmap_app. }
  assert (Forall (λ e, ends e = false) (es1 ++ es2 ++ final)%list) as Hends by (by repeat (apply Forall_app; split)).
  destruct again; cbn; rewrite ?app_nil_r; by split_and!.
Qed.

(** C9: A shell on the phone survives a dropped connection.  The phone opens a session and
    receives its output [p], then the connection fails in a way it can recover from while
    the session goes on to produce [q], fewer than 128 frames.  The phone asks to resume
    and the server accepts the token.  If nothing else touches the session until the
    handler has sent its messages ([quiet_call]), the phone has received over both
    connections the output of the session exactly once and in order, and the state kept is
    ready for the next break.  If, moreover, the channel of 64 events between the
    connection and the screen never overflows, the terminal shows precisely these bytes
    once it has got its size and taken all events. *)
Theorem android_resumes_exactly_once i id token t0 sender cap ofp m0 os p q server cid ps mode1 cap1 now1 rcap rmode message tok scap
    smode failure tbl fp m1 att mode2 cap2 now2 failure2 :
  let m := sm_run os (open_session (Ok tt) id token t0 sender cap ofp m0).1 in
  let log := session_log id m in
  let sid := uuid_to_string id in
  Forall (λ o, ¬ opens id o) os → log = (p ++ q)%list → (length q < 128)%nat → Z.of_nat (length log) + 1 < 2 ^ 63 →
  is_blank sid = false → is_blank tok = false → quiet_call i → (length q < handler_steps (oi_meanwhile i))%nat → resumable failure = true →
  (∀ t, (verifyServerCertificate server cap1 t).2 = Ok tt ∧ (verifyServerCertificate server cap2 t).2 = Ok tt) →
  attach_with_token (oi_attachment i) (oi_attach_now i) (oi_next_token i) id (mkAttachmentMetadata fp) tok m = (m1, Ok att) →
  let c1 := mkConnection (Ok mode1) cap1 now1
    (proto.mkSessionServerMessage sid (Some (proto.Ready rcap rmode message tok)) :: (frame_message sid scap smode <$> p)) (Some failure) false in
  ∃ lo le r, handle_resume_session i sid tok lo le fp m = (m1, Some (Ok r)) ∧
    let '(requests, events, s) := shell_loop server cid ps [c1; mkConnection (Ok mode2) cap2 now2 (delivered r) failure2 false] (loop_init None tbl) in
    requests = [proto.mkSessionClientMessage "" (Some (proto.Open cid ps None));
                proto.mkSessionClientMessage sid (Some (proto.Resume tok lo le))] ∧
    outputs events = bo_data <$> log ∧
    rs_resumeToken (lp_resume s) = Some (oi_next_token i) ∧ up_to log (lp_resume s) ∧
    (∀ flow ops, sent flow = events → fl_dropped (flow_run flow) = [] → fl_buffer (flow_run flow) = [] →
       terminal_events ops = fl_taken (flow_run flow) → sized ops = true → fed (terminal_run ops) = concat (bo_data <$> log)).
Proof.
  intros m log sid Hos Hlog Hq Hlen Hid Htok Hquiet Hsteps Hfail Hcert Ha c1.
  assert (log_inv id m) as Hinv.
  { apply (step_inv _ _ _ (sm_run_ok id os (open_session (Ok tt) id token t0 sender cap ofp m0).1 Hos)); [apply open_session_inv|].
    change (Z.of_nat (length log) + 1 < 2 ^ 64). lia. }
  assert (Forall (λ f, bo_sequence f < 2 ^ 63) log) as Hlt.
  { apply Forall_forall. intros f Hf. pose proof (numbered_bound _ _ (proj1 Hinv) Hf) as [_ Hb]. fold log in Hb. unfold count_of in Hb.
    pose proof (length_filter (λ g, bo_stream g = bo_stream f) log). lia. }
  assert (numbered (p ++ q)%list) as Hn by (rewrite <-Hlog; apply Hinv). rewrite Hlog in Hlt. apply Forall_app in Hlt as [Hlp Hlq].
  destruct (first_connection server cid ps mode1 cap1 now1 sid rcap rmode message tok scap smode p failure tbl)
    as (rs & t & es & Hk & Hs & Ht & E1 & Ho1 & He1); [by eapply numbered_app_inv|done..|apply Hcert|].
  destruct (attach_keeps_log _ _ _ _ _ _ _ _ _ Ha Hinv) as (Hl1 & Hi1 & Hex).
  set (lo := Some (default 0 (last_seen Stdout p))). set (le := Some (default 0 (last_seen Stderr p))). destruct (Hex lo le) as [fs Hfs].
  assert (fs = q) as ->.
  { unfold lo, le in Hfs. rewrite since_zero in Hfs; [|done|by eapply numbered_app_inv].
    apply (replay_is_missed id m1 p q); [done|by rewrite Hl1|unfold DEFAULT_OUTPUT_BUFFER_CAPACITY; lia|done]. }
  destruct (quiet_resume i id tok lo le fp m m1 att q) as (r & rpcid & rpmode & Hh & Hd);
    [intros E; unfold sid in Hid; by rewrite E in Hid|done..|].
  exists lo, le, r. split; [exact Hh|]. rewrite Hd. fold sid.
  pose proof (second_connection server cid ps c1 tbl rs t es sid tok (oi_next_token i) rpcid rpmode p q mode2 cap2
    now2 failure2 Hn Hlq Hlp Hk Hs Ht Hid Htok (λ t, proj2 (Hcert t)) E1 Ho1 He1) as Hr. cbv zeta in Hr. rewrite <-Hlog in Hr.
  destruct (shell_loop _ _ _ _ _) as [[requests events] s]. destruct Hr as (? & Hout & Hends & ? & ?). split_and!; try done.
  intros flow ops Hsent Hdrop Hbuf Hev Hsz. pose proof (flow_conserves flow Hdrop) as Hf. rewrite Hbuf, app_nil_r, Hsent in Hf. rewrite Hf in Hev.
  rewrite <-Hev in Hends. destruct (terminal_shows ops Hends) as [_ Hsh]. rewrite Hsz in Hsh. destruct Hsh as (_ & l & Hl & Hc).
  unfold fed. rewrite Hl. cbn. by rewrite Hc, Hev, Hout.
Qed.
End exactly_once.

(** A full channel drops output that is then never asked for again: the resume state has
    moved past it. *)
Lemma slow_screen_loses_output : let e := ShOutput [x61] false false 0 "a" in
  let f := flow_run (FSend <$> (replicate 64 (ShHeartbeat 0 0) ++ [e]))%list in
  fl_dropped f = [e] ∧ e ∉ (fl_taken f ++ fl_buffer f)%list.
Proof. split; [vm_compute; reflexivity|]. vm_compute. intros Hin. repeat (apply elem_of_cons in Hin as [?|Hin]; [done|]). by apply elem_of_nil in Hin. Qed.

(** The exit code of a finished shell does not stay on the screen: the [Closed] that
    follows it replaces the state. *)
Lemma finished_shell_hides_exit_code `{JavaUtf8} sid cid exit ops n rs scr :
  let msgs := event_message sid cid Realtime <$> ((λ e, mkSessionBroadcastEvent e None None) <$> farewell exit ops) in
  let scr' := foldl handleTerminalEvent scr (shell_stream msgs (rs, n)).2 in
  vs_connectionState scr' = ConnClosed (Some "Session terminated") ∧ vs_statusMessage scr' = Some "Session terminated".
Proof. by split. Qed.

(** A session chosen from the list is resumed without what it printed while detached. *)
Lemma candidate_shows_no_backlog os now token cap info candidate :
  let s := ss_run os (SessionState_new now token cap) in
  Z.of_nat (length (log_of os)) + 1 < 2 ^ 63 → toResumeCandidate info = Some candidate →
  proto.stdout_next_sequence info = ss_stdout_next_sequence s → proto.stderr_next_sequence info = ss_stderr_next_sequence s →
  is_blank (proto.session_id info) = false →
  ∃ tok lo le, proto.cm_payload (initialMessage "" ∅ true (initial_state (Some (rc_resumeSpec candidate)))) = Some (proto.Resume tok lo le) ∧
    outputs_since lo le s = [].
Proof.
  intros s Hlen Hc Ho He Hid. unfold toResumeCandidate in Hc. destruct (is_blank (proto.resume_token info)) eqn:Htok; [done|]. injection Hc as <-.
  destruct (ss_run_abstracts os now token cap) as [[Hb Hn] Hcap]; [lia|]. fold s in Hb, Hn, Hcap.
  cbn. unfold initialMessage, canResume. cbn. rewrite Hid, Htok. cbn. eexists _, _, _. split; [reflexivity|]. rewrite Ho, He.
  pose proof (Hn Stdout) as Hno. pose proof (Hn Stderr) as Hne. cbn [next_sequence] in Hno, Hne. rewrite Hno, Hne.
  unfold outputs_since. apply elem_of_nil_inv. intros f [Hnew Hf]%list_elem_of_filter. rewrite Hb in Hf.
  assert (f ∈ log_of os) as Hin.
  { rewrite <-(take_drop (length (log_of os) - ss_buffer_capacity s) (log_of os)). apply elem_of_app. by right. }
  destruct (numbered_bound _ _ (log_of_numbered os) Hin) as [Hf1 Hf2]. unfold newer_than in Hnew.
  assert (∀ st, of_long (toLastSequence (to_long (Z.of_nat (count_of st (log_of os)) + 1))) = Z.of_nat (count_of st (log_of os))) as Hseq.
  { intros st. assert (Z.of_nat (count_of st (log_of os)) + 1 < 2 ^ 63) as Hlt.
    { unfold count_of. pose proof (length_filter (λ g, bo_stream g = st) (log_of os)). lia. }
    unfold to_long, toLastSequence, of_long. rewrite (proj2 (Z.ltb_lt _ _) Hlt), (proj2 (Z.leb_gt _ _)) by lia.
    rewrite Z.mod_small by lia. lia. }
  rewrite !Hseq in Hnew. destruct (bo_stream f); apply Z.ltb_lt in Hnew; lia.
Qed.

(** Detaching ends the shell: the message it sends makes the server terminate it. *)
Lemma detaching_ends_the_shell `{UuidText} sid t s : ∃ message, (detachSession sid (Some t) s).2 = [message] ∧ kills_shell message.
Proof. eexists. split; [reflexivity|]. apply close_kills_shell. Qed.

(** ** Witnesses *)
#[local] Existing Instance demo_layout_json.
#[local] Existing Instance Fips.fips_sha256.
#[local] Strategy 1000 [Fips.fips_sha256].
#[local] Existing Instance demo_utf8.
#[local] Existing Instance worded_uuid.
#[local] Existing Instance worded_laws.
#[local] Existing Instance demo_regex.

Definition seven : string := uuid_to_string 7%N.
Definition dropped_connection : connection :=
  mkConnection (Ok DIRECT) None 1
    (proto.mkSessionServerMessage seven (Some (proto.Ready "sh" 2 None "t0")) :: (frame_message seven "sh" Realtime <$> [demo_frame 1 x01]))
    (Some (TStatus (mkGrpcStatus G_UNAVAILABLE None))) false.

Lemma android_resumes_exactly_once_witness : ∃ lo le r,
  (handle_resume_session resume_now seven "t0" lo le None went_on).2 = Some (Ok r) ∧
  outputs (shell_loop demo_pinned "sh" ∅ [dropped_connection; mkConnection (Ok DIRECT) None 2 (delivered r) None false] (loop_init None [])).1.2
    = [[x01]; [x02]].
Proof.
  destruct (attach_with_token 1%N 5 "t1" 7%N (mkAttachmentMetadata None) "t0" went_on) as [m1 [att|e]] eqn:Ha;
    [|vm_compute in Ha; discriminate Ha].
  destruct (android_resumes_exactly_once resume_now 7%N "t0" 0 1%N demo_cap None SessionManager_new
    (demo_output x01 ++ demo_output x02)%list [demo_frame 1 x01] [demo_frame 2 x02] demo_pinned "sh" ∅ DIRECT None 1 "sh" 2 None "t0" "sh" Realtime
    (TStatus (mkGrpcStatus G_UNAVAILABLE None)) [] None m1 att DIRECT None 2 None) as (lo & le & r & Hh & Hr); try reflexivity.
  - repeat constructor; simpl; tauto.
  - vm_compute. lia.
  - repeat split; reflexivity.
  - vm_compute. lia.
  - intros t. split; reflexivity.
  - exact Ha.
  - exists lo, le, r. split; [exact (f_equal snd Hh)|]. fold seven in Hr. fold dropped_connection in Hr.
    destruct (shell_loop _ _ _ _ _) as [[requests events] s']. destruct Hr as (_ & Ho & _). exact Ho.
Defined.

Definition demo_java : JavaRegex := {| java_pattern _ := true; java_matches _ _ := true |}.
#[local] Existing Instance demo_java.
Lemma android_form_is_accepted_witness : ∃ f ln m', launchSession true false f None = Ok ln ∧ ln_parameters ln !! "level" = Some "42" ∧
  Parameters.validate_parameters volume (ln_parameters ln) = Ok m'.
Proof.
  destruct (android_form_is_accepted volume (form_step (initialStates (listed volume)) (FmUpdate "level" "42")) (mkLaunch {["level" := "42"]} None None))
    as (m' & Hm' & _).
  - apply validate_capability_iff. vm_compute. reflexivity.
  - constructor; [|constructor]. intros re v Hre. discriminate Hre.
  - apply reached_update, reached_load.
  - vm_compute. reflexivity.
  - intros p v Hp Hv. apply list_elem_of_singleton in Hp as ->. vm_compute in Hv. injection Hv as <-. split; [intros _; vm_compute; reflexivity|].
    intros re Hre. discriminate Hre.
  - exists (form_step (initialStates (listed volume)) (FmUpdate "level" "42")), (mkLaunch {["level" := "42"]} None None), m'.
    split; [vm_compute; reflexivity|]. split; [reflexivity|exact Hm'].
Defined.
