(* ===== verification/AndroidPanel.v ===== *)
(** * The remote panel (feature/commands/CommandListViewModel.kt, feature/commands/remote/RemotePanelUiModel.kt)

    What the panel of a server shows for a layout and a list of commands, the jobs that
    poll its telemetry, and commands run from it. *)

From Stdlib Require Import SpecFloat.
From S2P Require Import Prelude RustStd ThirdParty Config Validation Registry SessionState SessionManager Proto Parameters Kotlin.
From S2P Require Import AndroidModel AndroidDb AndroidLayout AndroidCommands.

Local Open Scope string_scope.
Local Open Scope Z_scope.

(** ** Numbers *)
(** [Int.toFloat], comparison and subtraction of [Float]. *)
Definition to_float (z : Z) : spec_float := binary_normalize 24 128 z 0 false.
Definition float_sub : spec_float → spec_float → spec_float := SFsub 24 128.
Definition half : spec_float := S754_finite false 8388608 (-24).
Definition in_range_f (v lo hi : spec_float) : bool := SFleb lo v && SFleb v hi.
(** [coerceIn]: an exception when the bounds are the wrong way round. *)
Definition coerceIn (v lo hi : spec_float) : option spec_float :=
  if SFltb hi lo then None else Some (if SFltb v lo then lo else if SFltb hi v then hi else v).
(** [String.toFloatOrNull] (Java's decimal parser) and a search that ignores case. *)
Class JavaText := {
  to_float_or_null : string → option spec_float;
  contains_ignore_case : string → string → bool;
}.
Definition long_sub (a b : Z) : Z := let d := (a - b) mod 2 ^ 64 in if d <? 2 ^ 63 then d else d - 2 ^ 64.

(** [numberRegex]: [[-+]?[0-9]*\.?[0-9]+], the leftmost match. *)
Fixpoint take_digits (s : string) : string * string :=
  match s with
  | String c s' => if is_ascii_digit c then let '(d, r) := take_digits s' in (String c d, r) else (EmptyString, s)
  | EmptyString => (EmptyString, EmptyString)
  end.
Definition unsigned_at (s : string) : option string :=
  let '(d1, rest) := take_digits s in
  let whole := if str_is_empty d1 then None else Some d1 in
  match rest with
  | String "." rest' =>
      let '(d2, _) := take_digits rest' in
      if str_is_empty d2 then whole else Some (fmt [d1; "."; d2])
  | _ => whole
  end.
Definition number_at (s : string) : option string :=
  match s with
  | String c s' =>
      if bool_decide (c = "-"%char) || bool_decide (c = "+"%char) then String c <$> unsigned_at s' else unsigned_at s
  | EmptyString => None
  end.
Fixpoint extractNumber (s : string) : option string :=
  match number_at s with
  | Some n => Some n
  | None => match s with String _ s' => extractNumber s' | EmptyString => None end
  end.

(** [equals(..., ignoreCase = true)] with the two words; the long s has the capital S. *)
Definition parseBoolean (value : option string) : option bool :=
  value ← value;
  if bool_decide (to_ascii_lowercase value = "true") then Some true
  else if bool_decide (to_ascii_lowercase (str_replace value "ſ" "s") = "false") then Some false
  else if bool_decide (value = "1") then Some true
  else if bool_decide (value = "0") then Some false
  else None.

(** ** The model of the panel *)
Record RemoteQuickAction := mkQuickAction {
  qa_id : string;
  qa_title : string;
  qa_subtitle : option string;
  qa_iconKey : option string;
  qa_isEnabled : bool;
  qa_isBusy : bool;
  qa_requiresConfirmation : bool;
  qa_showOutput : bool;
}.
Inductive RemoteAdjustment :=
  | AdSlider (id label : string) (value start end_ : spec_float) (step : option spec_float) (helperText : option string)
  | AdCounter (id label : string) (value : Z) (min max : option Z) (helperText : option string)
  | AdToggle (id label : string) (isChecked : bool) (helperText : option string).
Record RemoteAdjustmentGroup := mkAdjustmentGroup { ag_id : string; ag_title : option string; ag_controls : list RemoteAdjustment }.
Inductive Direction := UP | DOWN | STEADY.
Inductive RemoteTelemetryCard :=
  | TcGauge (id title : string) (isLoading : bool) (lastUpdated : option Z) (value min max : spec_float) (unit_ : option string)
      (trend : option (Direction * spec_float))
  | TcCounter (id title : string) (isLoading : bool) (lastUpdated : option Z) (value : Z) (unit_ : option string) (delta : option Z)
  | TcText (id title : string) (isLoading : bool) (lastUpdated : option Z) (body : string).
Definition card_id (c : RemoteTelemetryCard) : string :=
  match c with TcGauge id _ _ _ _ _ _ _ _ | TcCounter id _ _ _ _ _ _ | TcText id _ _ _ _ => id end.
Definition card_display (c : RemoteTelemetryCard) : TelemetryDisplay :=
  match c with TcGauge _ _ _ _ _ _ _ _ _ => TdGAUGE | TcCounter _ _ _ _ _ _ _ => TdCOUNTER | TcText _ _ _ _ _ => TdTEXT end.
Record RemotePanelUiModel := mkPanel {
  pn_quickActions : list RemoteQuickAction;
  pn_adjustments : list RemoteAdjustmentGroup;
  pn_telemetry : list RemoteTelemetryCard;
}.
Definition hasContent (p : RemotePanelUiModel) : bool :=
  negb (bool_decide (pn_quickActions p = [])) || negb (bool_decide (pn_adjustments p = [])) || negb (bool_decide (pn_telemetry p = [])).

(** ** From layout and commands to the panel *)
Section build.
Context `{JavaText}.

Definition description_of (s : string) : option string := take_not_blank s.
Definition slider_id (c : Command) (p : CommandParameter) : string := fmt [kc_id c; ":"; kp_name p].

Definition mapAdjustmentEntry (e : RemoteLayoutEntry) (command : Command) : option RemoteAdjustment :=
  match e with
  | AdjustmentEntry _ _ parameterName labelOverride control slider toggle counter helperText0 =>
      '(_, parameter) ← list_find (λ p, kp_name p = parameterName) (kc_parameters command);
      let helperText := match helperText0 with Some h => Some h | None => description_of (kp_description parameter) end in
      let label := default (kp_name parameter) labelOverride in
      let resolvedControl := match control with
        | AcAUTO => match kp_type parameter with SLIDER => AcSLIDER | TOGGLE => AcTOGGLE | _ => AcCOUNTER end
        | c => c
        end in
      match resolvedControl with
      | AcSLIDER =>
          let min := default (default (to_float 0) (to_float <$> kp_min parameter)) (slider ≫= so_min) in
          let max := default (default (if SFltb min (to_float 100) then to_float 100 else SFadd 24 128 min (to_float 1)) (to_float <$> kp_max parameter))
                       (slider ≫= so_max) in
          let '(start, end_) := if SFltb min max then (min, max) else (to_float 0, to_float 100) in
          let value := default start (v ← kp_defaultValue parameter ≫= to_float_or_null; if in_range_f v start end_ then Some v else None) in
          Some (AdSlider (slider_id command parameter) label value start end_ (slider ≫= so_step) helperText)
      | AcTOGGLE =>
          let isChecked := default false (parseBoolean (kp_defaultValue parameter)) in
          let derivedHelper := match helperText with
            | Some h => Some h
            | None => t ← toggle; if isChecked then to_checkedLabel t else to_uncheckedLabel t
            end in
          Some (AdToggle (slider_id command parameter) label isChecked derivedHelper)
      | AcCOUNTER =>
          let min := match counter ≫= co_min with Some m => Some m | None => kp_min parameter end in
          let max := match counter ≫= co_max with Some m => Some m | None => kp_max parameter end in
          let value := match kp_defaultValue parameter ≫= to_int_or_null with Some v => v | None => default 0 min end in
          Some (AdCounter (slider_id command parameter) label value min max helperText)
      | AcAUTO => None
      end
  | _ => None
  end.

(** A telemetry entry, taken apart. *)
Record telemetry_entry := mkTelemetryEntry {
  te_id : string;
  te_sourceCommandId : string;
  te_titleOverride : option string;
  te_display : TelemetryDisplay;
  te_unit : option string;
  te_min : option spec_float;
  te_max : option spec_float;
  te_textTemplate : option string;
}.
Definition as_telemetry (e : RemoteLayoutEntry) : option telemetry_entry :=
  match e with
  | TelemetryEntry id src title display unit_ min max template => Some (mkTelemetryEntry id src title display unit_ min max template)
  | _ => None
  end.
Definition gauge_range (e : telemetry_entry) : spec_float * spec_float :=
  let min := default (to_float 0) (te_min e) in
  (min, default (to_float 100) (m ← te_max e; if SFltb min m then Some m else None)).
Definition mapTelemetryEntry (e : telemetry_entry) (command : Command) : RemoteTelemetryCard :=
  let title := default (kc_name command) (te_titleOverride e) in
  match te_display e with
  | TdCOUNTER => TcCounter (te_id e) title true None 0 (te_unit e) None
  | TdGAUGE => let '(min, max) := gauge_range e in TcGauge (te_id e) title true None min min max (te_unit e) None
  | TdTEXT =>
      TcText (te_id e) title true None
        (match te_textTemplate e with Some t => t | None => default "" (description_of (kc_description command)) end)
  end.

Definition quick_action (e : RemoteLayoutEntry) (command : Command) : option RemoteQuickAction :=
  match e with
  | QuickActionEntry _ _ labelOverride iconOverride requiresConfirmationOverride showOutputOverride =>
      Some (mkQuickAction (kc_id command) (default (kc_name command) labelOverride) (description_of (kc_description command))
        (match iconOverride with Some i => Some i | None => kc_icon command ≫= take_not_blank end) true false
        (default (kc_requiresConfirmation command) requiresConfirmationOverride) (default (kc_showOutput command) showOutputOverride))
  | _ => None
  end.
Definition entry_command (e : RemoteLayoutEntry) : string :=
  match e with QuickActionEntry _ c _ _ _ _ | AdjustmentEntry _ c _ _ _ _ _ _ _ | TelemetryEntry _ c _ _ _ _ _ _ => c end.
(** [associateBy]: of two commands with one id the last counts. *)
Definition command_with (id : string) (commands : list Command) : option Command :=
  snd <$> (list_find (λ c, kc_id c = id) (reverse commands)).

Definition default_adjustment (command : Command) (p : CommandParameter) : option RemoteAdjustment :=
  let helperText := description_of (kp_description p) in
  match kp_type p with
  | SLIDER =>
      let min := default (to_float 0) (to_float <$> kp_min p) in
      let max := default (to_float 100) (to_float <$> kp_max p) in
      let '(start, end_) := if SFltb min max then (min, max) else (to_float 0, to_float 100) in
      let value := default start (v ← kp_defaultValue p ≫= to_float_or_null; coerceIn v start end_) in
      Some (AdSlider (slider_id command p) (kp_name p) value start end_ None helperText)
  | TOGGLE => Some (AdToggle (slider_id command p) (kp_name p) (default false (parseBoolean (kp_defaultValue p))) helperText)
  | _ => None
  end.
Definition buildDefaultRemotePanel (commands : list Command) : RemotePanelUiModel :=
  mkPanel
    ((λ c, mkQuickAction (kc_id c) (kc_name c) (description_of (kc_description c)) (kc_icon c ≫= take_not_blank) true false
        (kc_requiresConfirmation c) (kc_showOutput c))
      <$> take 6 (filter (λ c, kc_parameters c = []) (filter (λ c, isOneShotCommand c = true) commands)))
    (omap (λ c, let controls := omap (default_adjustment c) (kc_parameters c) in
        if bool_decide (controls = []) then None else Some (mkAdjustmentGroup (kc_id c) (take_not_blank (kc_name c)) controls))
      (take 3 (filter (λ c, kc_parameters c ≠ []) commands)))
    [].

(** What a layout contributes, before the fallback: the panel and the sources polled. *)
Record TelemetrySource := mkSource { src_command : Command; src_entry : telemetry_entry }.
Definition layout_quick (commands : list Command) (s : SectionSpec) : list RemoteQuickAction :=
  match sp_type s with
  | QUICK_ACTIONS => omap (λ e, c ← command_with (entry_command e) commands; quick_action e c) (sp_entries s)
  | _ => []
  end.
Definition layout_adjustments (commands : list Command) (s : SectionSpec) : list RemoteAdjustmentGroup :=
  match sp_type s with
  | ADJUSTMENTS =>
      let controls := omap (λ e, c ← command_with (entry_command e) commands; mapAdjustmentEntry e c) (sp_entries s) in
      if bool_decide (controls = []) then [] else [mkAdjustmentGroup (sp_sectionId s) (sp_title s) controls]
  | _ => []
  end.
Definition layout_sources (commands : list Command) (s : SectionSpec) : list TelemetrySource :=
  match sp_type s with
  | TELEMETRY =>
      omap (λ e, t ← as_telemetry e; c ← command_with (te_sourceCommandId t) commands; Some (mkSource c t)) (sp_entries s)
  | _ => []
  end.
End build.

(** ** The jobs that poll *)
#[local] Existing Instance spec_float_eq_dec.
#[local] Existing Instance TelemetryDisplay_eq_dec.
#[global] Instance telemetry_entry_eq_dec : EqDecision telemetry_entry.
Proof. solve_decision. Defined.
#[global] Instance TelemetrySource_eq_dec : EqDecision TelemetrySource.
Proof. solve_decision. Defined.

Inductive panel_ui := UiLoading | UiError (message : string)
  | UiSuccess (commands filtered : list Command) (query : string) (panel : RemotePanelUiModel) (layout : option RemoteLayoutSpec).
Record PanelView := mkPanelView {
  pv_serverId : option string;
  pv_sources : gmap string TelemetrySource;
  pv_jobs : gmap string (string * TelemetrySource);
  pv_latest : gmap string RemoteTelemetryCard;
  pv_ui : panel_ui;
}.
Definition PanelView_new : PanelView := mkPanelView None ∅ ∅ ∅ UiLoading.
Definition sources_map (l : list TelemetrySource) : gmap string TelemetrySource :=
  foldl (λ m s, <[te_id (src_entry s) := s]> m) ∅ l.

(** [refreshTelemetrySources] *)
Definition forget (id : string) (v : PanelView) : PanelView :=
  mkPanelView (pv_serverId v) (pv_sources v) (delete id (pv_jobs v)) (delete id (pv_latest v)) (pv_ui v).
Definition start_job (id : string) (s : TelemetrySource) (v : PanelView) : PanelView :=
  match pv_serverId v with
  | Some srv => mkPanelView (pv_serverId v) (pv_sources v) (<[id := (srv, s)]> (pv_jobs v)) (pv_latest v) (pv_ui v)
  | None => v
  end.
Definition refresh_one (x : string * TelemetrySource) (v : PanelView) : PanelView :=
  if bool_decide (pv_sources v !! x.1 = Some x.2) then v else start_job x.1 x.2 (forget x.1 v).
Definition refreshTelemetrySources (new : gmap string TelemetrySource) (v : PanelView) : PanelView :=
  let v1 := foldr forget v (elements (dom (pv_sources v) ∖ dom new)) in
  let v2 := foldr refresh_one v1 (map_to_list new) in
  mkPanelView (pv_serverId v2) new (pv_jobs v2) (pv_latest v2) (pv_ui v2).

Section view.
Context `{JavaText}.

Definition buildRemotePanelModel (commands : list Command) (layoutSpec : option RemoteLayoutSpec) (v : PanelView)
    : PanelView * RemotePanelUiModel :=
  let available := filter (λ c, isOneShotCommand c = true) commands in
  let fallback v := (refreshTelemetrySources ∅ v, buildDefaultRemotePanel available) in
  match layoutSpec with
  | None | Some (mkRemoteLayoutSpec []) => fallback v
  | Some (mkRemoteLayoutSpec sections) =>
      let sources := sections ≫= layout_sources available in
      let quickActions := sections ≫= layout_quick available in
      let adjustments := sections ≫= layout_adjustments available in
      let cards := (λ s, default (mapTelemetryEntry (src_entry s) (src_command s)) (pv_latest v !! te_id (src_entry s))) <$> sources in
      let v1 := refreshTelemetrySources (sources_map sources) v in
      let panel := mkPanel quickActions adjustments cards in
      if hasContent panel then (v1, panel) else fallback v1
  end.

(** ** A poll *)
Definition buildTelemetryCardFromOutput (id : string) (s : TelemetrySource) (output : string) (timestamp : Z) (previous : option RemoteTelemetryCard)
    : option RemoteTelemetryCard :=
  let e := src_entry s in
  let title := default (kc_name (src_command s)) (te_titleOverride e) in
  match te_display e with
  | TdCOUNTER =>
      numeric ← extractNumber output ≫= to_long_or_null;
      let delta := match previous with Some (TcCounter _ _ _ _ old _ _) => Some (long_sub numeric old) | _ => None end in
      Some (TcCounter id title false (Some timestamp) numeric (te_unit e) delta)
  | TdGAUGE =>
      numeric ← extractNumber output ≫= to_float_or_null;
      let '(min, max) := gauge_range e in
      clamped ← coerceIn numeric min max;
      let trend := match previous with
        | Some (TcGauge _ _ _ _ old _ _ _ _) =>
            let diff := float_sub clamped old in
            Some (if SFltb half diff then UP else if SFltb diff (SFopp half) then DOWN else STEADY, SFabs diff)
        | _ => None
        end in
      Some (TcGauge id title false (Some timestamp) clamped min max (te_unit e) trend)
  | TdTEXT =>
      let body := match te_textTemplate e with
        | Some t => str_replace t "{value}" (if str_is_empty output then "—" else output)
        | None => if str_is_empty output then kc_description (src_command s) else output
        end in
      Some (TcText id title false (Some timestamp) (if str_is_empty body then "—" else body))
  end.
(** [fetchTelemetryCard]: the results of the command, with the exception after them. *)
Definition telemetry_output (results : list CommandExecutionResult) : string :=
  ktrim (fmt (omap (λ r, match r with COutput text false => Some (fmt [text; String "010" EmptyString]) | _ => None end) results)).
Definition is_error (r : CommandExecutionResult) : bool := match r with CError _ => true | _ => false end.
Definition fetchTelemetryCard (id : string) (s : TelemetrySource) (run : result (option string) (list CommandExecutionResult * option string))
    (timestamp : Z) (previous : option RemoteTelemetryCard) : option RemoteTelemetryCard :=
  match run with
  | Ok (results, None) =>
      if existsb is_error results then None else buildTelemetryCardFromOutput id s (telemetry_output results) timestamp previous
  | _ => None
  end.
Definition set_ui (u : panel_ui) (v : PanelView) : PanelView := mkPanelView (pv_serverId v) (pv_sources v) (pv_jobs v) (pv_latest v) u.
Definition updateTelemetryCard (id : string) (card : RemoteTelemetryCard) (v : PanelView) : PanelView :=
  let v1 := mkPanelView (pv_serverId v) (pv_sources v) (pv_jobs v) (<[id := card]> (pv_latest v)) (pv_ui v) in
  match pv_ui v with
  | UiSuccess commands filtered query panel layout =>
      set_ui (UiSuccess commands filtered query
        (mkPanel (pn_quickActions panel) (pn_adjustments panel)
           ((λ existing, if bool_decide (card_id existing = id) then card else existing) <$> pn_telemetry panel)) layout) v1
  | _ => v1
  end.

(** ** What the view model does *)
Definition searchCommands (query : string) (commands : list Command) : list Command :=
  if is_blank query then commands
  else filter (λ c, contains_ignore_case query (kc_name c) || contains_ignore_case query (kc_description c)
                    || existsb (contains_ignore_case query) (kc_tags c) = true) commands.
Inductive panel_op :=
  | PvLoad (serverId : string)
  | PvLoaded (commands : list Command) (layout : option RemoteLayoutSpec)
  | PvFailed (message : string)
  | PvSearch (query : string)
  | PvLayout (spec : option RemoteLayoutSpec)
  | PvPolled (id : string) (run : result (option string) (list CommandExecutionResult * option string)) (timestamp : Z)
  | PvCleared.
Definition panel_step (v : PanelView) (o : panel_op) : PanelView :=
  match o with
  | PvLoad serverId => mkPanelView (Some serverId) (pv_sources v) (pv_jobs v) (pv_latest v) UiLoading
  | PvLoaded commands layout =>
      match pv_serverId v with
      | None => v
      | Some _ => let '(v1, panel) := buildRemotePanelModel commands layout v in set_ui (UiSuccess commands commands "" panel layout) v1
      end
  | PvFailed message => set_ui (UiError message) v
  | PvSearch query =>
      match pv_ui v with
      | UiSuccess commands _ _ panel layout => set_ui (UiSuccess commands (searchCommands query commands) query panel layout) v
      | _ => v
      end
  | PvLayout spec =>
      match pv_serverId v, pv_ui v with
      | Some _, UiSuccess commands filtered query _ _ =>
          let '(v1, panel) := buildRemotePanelModel commands spec v in set_ui (UiSuccess commands filtered query panel spec) v1
      | _, _ => v
      end
  | PvPolled id run timestamp =>
      match pv_jobs v !! id with
      | Some (_, source) =>
          match fetchTelemetryCard id source run timestamp (pv_latest v !! id) with
          | Some card => updateTelemetryCard id card v
          | None => v
          end
      | None => v
      end
  | PvCleared => mkPanelView (pv_serverId v) (pv_sources v) ∅ (pv_latest v) (pv_ui v)
  end.
Definition panel_run (ops : list panel_op) : PanelView := foldl panel_step PanelView_new ops.
End view.

(** ** One poller for each card *)
Record panel_ok (v : PanelView) : Prop := {
  po_server : pv_serverId v = None → pv_sources v = ∅;
  po_jobs : ∀ id src, (∃ srv, pv_jobs v !! id = Some (srv, src)) ↔ pv_sources v !! id = Some src;
  po_key : ∀ id src, pv_sources v !! id = Some src → te_id (src_entry src) = id;
  po_latest : ∀ id c, pv_latest v !! id = Some c →
    card_id c = id ∧ ∃ src, pv_sources v !! id = Some src ∧ card_display c = te_display (src_entry src);
}.
Definition panel_cards (v : PanelView) : option (list string) :=
  match pv_ui v with UiSuccess _ _ _ panel _ => Some (card_id <$> pn_telemetry panel) | _ => None end.

Lemma forget_all ids v : let v' := foldr forget v ids in
  pv_serverId v' = pv_serverId v ∧ pv_sources v' = pv_sources v ∧ pv_ui v' = pv_ui v ∧
  ∀ id, pv_jobs v' !! id = (if decide (id ∈ ids) then None else pv_jobs v !! id) ∧
        pv_latest v' !! id = (if decide (id ∈ ids) then None else pv_latest v !! id).
Proof.
  induction ids as [|i ids (H1 & H2 & H3 & IH)]; cbn [foldr]; [by split_and!|]. split_and!; [done..|]. intros id. destruct (IH id) as [IHj IHl].
  unfold forget at 1 3. cbn [pv_jobs pv_latest]. destruct (decide (i = id)) as [->|Hne].
  - rewrite !lookup_delete_eq. by rewrite !decide_True by set_solver.
  - rewrite !lookup_delete_ne, IHj, IHl by done. by rewrite !(decide_ext (id ∈ i :: ids) (id ∈ ids)) by set_solver.
Qed.

Lemma refresh_each l v srv : pv_serverId v = Some srv → NoDup l.*1 → let v' := foldr refresh_one v l in
  pv_serverId v' = Some srv ∧ pv_sources v' = pv_sources v ∧ pv_ui v' = pv_ui v ∧
  ∀ id, let keep := match (list_to_map l : gmap string TelemetrySource) !! id with
                    | Some s => bool_decide (pv_sources v !! id = Some s) | None => true end in
    pv_jobs v' !! id = (if keep then pv_jobs v !! id else s ← (list_to_map l : gmap string TelemetrySource) !! id; Some (srv, s)) ∧
    pv_latest v' !! id = (if keep then pv_latest v !! id else None).
Proof.
  intros Hsrv. induction l as [|[i s] l IH]; intros Hnd; cbn [foldr]; [by split_and!|].
  rewrite fmap_cons in Hnd. apply list.NoDup_cons in Hnd as [Hi Hnd]. destruct (IH Hnd) as (G1 & G2 & G3 & G4). clear IH.
  cbn [list_to_map foldr]. fold (list_to_map l : gmap string TelemetrySource).
  assert ((list_to_map l : gmap string TelemetrySource) !! i = None) as Hnone by by apply not_elem_of_list_to_map_1.
  set (v2 := foldr refresh_one v l) in *. unfold refresh_one. cbn [fst snd]. rewrite G2. case_bool_decide as Hs.
  - split_and!; [done..|]. intros id. destruct (decide (i = id)) as [<-|Hne].
    + rewrite lookup_insert_eq, bool_decide_eq_true_2 by done. destruct (G4 i) as [Hj Hl]. rewrite Hnone in Hj, Hl. done.
    + rewrite lookup_insert_ne by done. apply G4.
  - unfold start_job, forget. cbn. rewrite G1. cbn. split_and!; [done..|]. intros id. destruct (decide (i = id)) as [<-|Hne].
    + rewrite !lookup_insert_eq, lookup_delete_eq. by rewrite bool_decide_eq_false_2 by done.
    + rewrite !lookup_insert_ne, !lookup_delete_ne by done. apply G4.
Qed.

Lemma refresh_all new v srv : pv_serverId v = Some srv → let v' := refreshTelemetrySources new v in
  pv_serverId v' = Some srv ∧ pv_sources v' = new ∧ pv_ui v' = pv_ui v ∧
  ∀ id, (pv_sources v !! id = None → pv_jobs v !! id = None ∧ pv_latest v !! id = None) →
    pv_jobs v' !! id = (s ← new !! id; if decide (pv_sources v !! id = Some s) then pv_jobs v !! id else Some (srv, s)) ∧
    pv_latest v' !! id = (s ← new !! id; if decide (pv_sources v !! id = Some s) then pv_latest v !! id else None).
Proof.
  intros Hsrv. unfold refreshTelemetrySources. set (ids := elements _). destruct (forget_all ids v) as (F1 & F2 & F3 & F4). set (v1 := foldr forget v ids) in *.
  destruct (refresh_each (map_to_list new) v1 srv) as (G1 & G2 & G3 & G4); [congruence|apply NoDup_fst_map_to_list|].
  cbn. split_and!; [done|done|congruence|]. intros id Hnone. destruct (G4 id) as [Hj Hl]. rewrite Hj, Hl. rewrite list_to_map_to_list, F2.
  destruct (F4 id) as [Hj1 Hl1]. rewrite Hj1, Hl1. assert (id ∈ ids ↔ is_Some (pv_sources v !! id) ∧ new !! id = None) as Hids.
  { unfold ids. rewrite elem_of_elements, elem_of_difference, !elem_of_dom, eq_None_not_Some. done. }
  destruct (new !! id) as [s|] eqn:En; cbn.
  - destruct (decide (id ∈ ids)) as [Hin|_]; [apply Hids in Hin; naive_solver|]. by case_bool_decide; case_decide.
  - destruct (decide (id ∈ ids)) as [|Hni]; [done|]. apply Hnone. apply eq_None_not_Some. rewrite Hids in Hni. naive_solver.
Qed.

Section follow.
Context `{JavaText}.

Lemma refresh_ok new v srv : pv_serverId v = Some srv → panel_ok v → (∀ id s, new !! id = Some s → te_id (src_entry s) = id) →
  panel_ok (refreshTelemetrySources new v).
Proof.
  intros Hsrv Hok Hkey. destruct (refresh_all new v srv Hsrv) as (R1 & R2 & R3 & R4).
  assert (∀ id, pv_sources v !! id = None → pv_jobs v !! id = None ∧ pv_latest v !! id = None) as Hnone.
  { intros id Hn. split.
    - destruct (pv_jobs v !! id) as [[srv' s]|] eqn:E; [|done]. destruct (po_jobs _ Hok id s) as [Hj _]. rewrite Hj in Hn by eauto. done.
    - destruct (pv_latest v !! id) as [c|] eqn:E; [|done]. destruct (po_latest _ Hok _ _ E) as (_ & s & Hs & _). congruence. }
  split.
  - congruence.
  - intros id s. rewrite R2. destruct (R4 id (Hnone id)) as [-> _]. destruct (new !! id) as [s'|]; cbn; [|naive_solver].
    case_decide as Hs; [|naive_solver]. rewrite <-Hs. apply Hok.
  - rewrite R2. exact Hkey.
  - intros id c. rewrite R2. destruct (R4 id (Hnone id)) as [_ ->]. destruct (new !! id) as [s'|]; cbn; [|done].
    case_decide as Hs; [|done]. intros Hc. destruct (po_latest _ Hok _ _ Hc) as (? & s & Hs' & ?). split; [done|]. exists s. split; [congruence|done].
Qed.

Lemma sources_map_lookup l id s : sources_map l !! id = Some s → te_id (src_entry s) = id ∧ s ∈ l.
Proof.
  unfold sources_map. revert s. induction l as [|x l IH] using rev_ind; intros s; [cbn; by rewrite lookup_empty|]. rewrite foldl_app. cbn.
  destruct (decide (te_id (src_entry x) = id)) as [<-|Hne]; [rewrite lookup_insert_eq; intros [= <-]; split; [done|set_solver]|].
  rewrite lookup_insert_ne by done. intros [? ?]%IH. split; [done|set_solver].
Qed.
Lemma sources_map_keys l id : is_Some (sources_map l !! id) ↔ id ∈ ((λ s, te_id (src_entry s)) <$> l).
Proof.
  unfold sources_map. induction l as [|x l IH] using rev_ind; [cbn; rewrite lookup_empty; split; [by intros []|by intros ?%elem_of_nil]|].
  rewrite foldl_app, fmap_app, elem_of_app. cbn. rewrite list_elem_of_singleton. destruct (decide (te_id (src_entry x) = id)) as [<-|Hne].
  - rewrite lookup_insert_eq. split; [by right|by eexists].
  - rewrite lookup_insert_ne, IH by done. split; [by left|by intros [|Heq]].
Qed.

Lemma base_card_id e c : card_id (mapTelemetryEntry e c) = te_id e.
Proof. unfold mapTelemetryEntry. destruct (te_display e); [done| |done]. by destruct (gauge_range e). Qed.

Lemma build_ok commands layout v srv : pv_serverId v = Some srv → panel_ok v →
  let '(v', panel) := buildRemotePanelModel commands layout v in
  panel_ok v' ∧ pv_serverId v' = Some srv ∧ ∀ id, id ∈ card_id <$> pn_telemetry panel ↔ is_Some (pv_sources v' !! id).
Proof.
  intros Hsrv Hok.
  assert (∀ v, pv_serverId v = Some srv → panel_ok v → panel_ok (refreshTelemetrySources ∅ v) ∧ pv_serverId (refreshTelemetrySources ∅ v) = Some srv ∧
    ∀ id, id ∈ card_id <$> [] ↔ is_Some (pv_sources (refreshTelemetrySources ∅ v) !! id)) as Hfall.
  { intros w Hw Hwok. destruct (refresh_all ∅ w srv Hw) as (R1 & R2 & _). split_and!; [|done|].
    - apply (refresh_ok _ _ srv); [done..|]. intros id s. by rewrite lookup_empty.
    - intros id. rewrite R2, lookup_empty, fmap_nil. split; [by intros ?%elem_of_nil|by intros []]. }
  unfold buildRemotePanelModel. destruct layout as [[[|sec sections]]|]; [by apply Hfall| |by apply Hfall].
  set (available := filter _ commands). set (sources := (sec :: sections) ≫= layout_sources available).
  assert (panel_ok (refreshTelemetrySources (sources_map sources) v)) as Hr.
  { apply (refresh_ok _ _ srv); [done..|]. intros id s Hs. by apply sources_map_lookup in Hs as [? _]. }
  destruct (refresh_all (sources_map sources) v srv Hsrv) as (R1 & R2 & _).
  destruct (hasContent _); [|by apply Hfall]. split_and!; [done..|]. intros id. cbn [pn_telemetry]. rewrite R2, sources_map_keys, <-list_fmap_compose.
  assert (card_id ∘ (λ s, default (mapTelemetryEntry (src_entry s) (src_command s)) (pv_latest v !! te_id (src_entry s)))
    <$> sources = (λ s, te_id (src_entry s)) <$> sources) as ->; [|done].
  apply list_fmap_ext. intros i s _. cbn. destruct (pv_latest v !! te_id (src_entry s)) as [c|] eqn:E; cbn; [|apply base_card_id].
  by apply (po_latest _ Hok) in E as [-> _].
Qed.

Lemma polled_card id s run timestamp previous card : fetchTelemetryCard id s run timestamp previous = Some card →
  card_id card = id ∧ card_display card = te_display (src_entry s).
Proof.
  unfold fetchTelemetryCard, buildTelemetryCardFromOutput. destruct run as [[results [m|]]|]; [done| |done]. destruct (existsb _ _); [done|].
  destruct (te_display (src_entry s)) eqn:Ed.
  - intros (n & _ & [= <-])%bind_Some. done.
  - intros (n & _ & Hb)%bind_Some. destruct (gauge_range _). apply bind_Some in Hb as (c & _ & [= <-]). done.
  - intros [= <-]. done.
Qed.

(** The invariant of a view: each card shown has its source, and the other way round. *)
Definition view_ok (v : PanelView) : Prop :=
  panel_ok v ∧ ∀ ids, panel_cards v = Some ids → ∀ id, id ∈ ids ↔ is_Some (pv_sources v !! id).
Lemma panel_ok_ui u v : panel_ok v → panel_ok (set_ui u v).
Proof. by intros []. Qed.

Lemma panel_step_ok v o : o ≠ PvCleared → view_ok v → view_ok (panel_step v o).
Proof.
  intros Ho [Hok Hui]. destruct o as [srv|commands layout|message|query|spec|id run timestamp|]; cbn [panel_step]; [..|done].
  - split; [|done]. destruct Hok as [_ ? ? ?]. by split.
  - destruct (pv_serverId v) as [srv|] eqn:Hs; [|done]. pose proof (build_ok commands layout v srv Hs Hok) as Hb.
    destruct (buildRemotePanelModel commands layout v) as [v1 panel]. destruct Hb as (Hok1 & _ & Hcards).
    split; [by apply panel_ok_ui|]. intros ids [= <-]. exact Hcards.
  - split; [by apply panel_ok_ui|done].
  - destruct (pv_ui v) as [| |commands filtered q panel layout] eqn:Eui; [by split..|]. split; [by apply panel_ok_ui|].
    intros ids Hids. apply Hui. unfold panel_cards. by rewrite Eui.
  - destruct (pv_serverId v) as [srv|] eqn:Hs; [|done]. destruct (pv_ui v) as [| |commands filtered q panel layout]; [by split..|].
    pose proof (build_ok commands spec v srv Hs Hok) as Hb. destruct (buildRemotePanelModel commands spec v) as [v1 panel1].
    destruct Hb as (Hok1 & _ & Hcards). split; [by apply panel_ok_ui|]. intros ids [= <-]. exact Hcards.
  - destruct (pv_jobs v !! id) as [[srv src]|] eqn:Ej; [|done]. destruct (fetchTelemetryCard _ _ _ _ _) as [card|] eqn:Ef; [|done].
    apply polled_card in Ef as [Hid Hd]. assert (pv_sources v !! id = Some src) as Hsrc by (apply (po_jobs _ Hok); eauto).
    assert (panel_ok (mkPanelView (pv_serverId v) (pv_sources v) (pv_jobs v) (<[id := card]> (pv_latest v)) (pv_ui v))) as Hok1.
    { destruct Hok as [? ? ? Hl]. split; try done. cbn. intros i c [[<- <-]|[Hne Hc]]%lookup_insert_Some; [by eauto|by apply Hl]. }
    unfold updateTelemetryCard. destruct (pv_ui v) as [| |commands filtered q panel layout] eqn:Eui; [by split..|].
    split; [by apply panel_ok_ui|]. intros ids [= <-] i. cbn [pv_sources set_ui]. rewrite <-(Hui (card_id <$> pn_telemetry panel)) by (unfold panel_cards; by rewrite Eui). cbn [pn_telemetry]. rewrite <-list_fmap_compose.
    assert (card_id ∘ (λ existing, if bool_decide (card_id existing = id) then card else existing) <$> pn_telemetry panel = card_id <$> pn_telemetry panel) as ->; [|done].
    apply list_fmap_ext. intros k c _. cbn. case_bool_decide; congruence.
Qed.

(** C31: Every telemetry card has one poller, and nothing else polls.  After any loads,
    searches, changes of the layout and polls: a job runs for an id exactly when the panel
    has a source with this id, and it polls that source; a panel on the screen has a card
    for exactly these ids; and the values kept for later belong to such an id and are of
    the kind its entry asks for. *)
Theorem telemetry_follows_the_panel ops : PvCleared ∉ ops →
  let v := panel_run ops in
  (∀ id src, (∃ srv, pv_jobs v !! id = Some (srv, src)) ↔ pv_sources v !! id = Some src) ∧
  (∀ ids, panel_cards v = Some ids → ∀ id, id ∈ ids ↔ is_Some (pv_jobs v !! id)) ∧
  (∀ id c, pv_latest v !! id = Some c →
     card_id c = id ∧ ∃ src, pv_sources v !! id = Some src ∧ card_display c = te_display (src_entry src)).
Proof.
  intros Hops v. assert (view_ok v) as [Hok Hui].
  { unfold v, panel_run. assert (view_ok PanelView_new) as Hinit.
    { split; [|done]. split; [done|..]; cbn; intros id x; rewrite ?lookup_empty; naive_solver. }
    revert Hinit. generalize PanelView_new. induction ops as [|o ops IH]; intros w Hw; [done|]. apply IH; [set_solver|]. apply panel_step_ok; [set_solver|done]. }
  split; [apply Hok|]. split; [|apply Hok]. intros ids Hids id. rewrite (Hui ids Hids id). split.
  - intros [src Hs]. apply (po_jobs _ Hok) in Hs as [srv Hj]. by eexists.
  - intros [[srv src] Hj]. exists src. apply (po_jobs _ Hok). by eexists.
Qed.
End follow.

(** ** Running from the panel ([triggerQuickCommand], [executeCommandWithMode]) *)
Record run_view := mkRunView { rv_state : CommandExecutionState; rv_toasts : list string }.
Definition add_toast (t : string) (v : run_view) : run_view := mkRunView (rv_state v) (rv_toasts v ++ [t])%list.
Definition set_state (s : CommandExecutionState) (v : run_view) : run_view := mkRunView s (rv_toasts v).
Definition mode_failed (showOutput : bool) (shown toast : string) (v : run_view) : run_view :=
  if showOutput then set_state (XFailed shown) v else add_toast (fmt ["Error: "; toast]) v.
Definition mode_result (commandId commandName : string) (showOutput : bool) (v : run_view) (r : CommandExecutionResult) : run_view :=
  if showOutput then
    match r with
    | CError message => set_state (XFailed message) v
    | _ => set_state (collect commandId commandName (rv_state v) r) v
    end
  else
    match r with
    | COutput _ _ => v
    | CExitCode code =>
        add_toast (if code =? 0 then fmt [commandName; " completed successfully"]
                   else fmt [commandName; " failed (exit code: "; pretty code; ")"]) v
    | CError message => add_toast (fmt ["Error: "; message]) v
    end.
Definition executeCommandWithMode (commandId commandName : string) (known : option Command) (showOutput : bool)
    (run : result (option string) (list CommandExecutionResult * option string)) (v : run_view) : run_view :=
  match c ← known; if isOneShotCommand c then None else Some (unsupportedCapabilityMessage c) with
  | Some message => if showOutput then set_state (XFailed message) v else add_toast message v
  | None =>
      let v1 := if showOutput then set_state (XExecuting commandId commandName []) v else v in
      match run with
      | Err message => mode_failed showOutput (default "Unknown error" message) (default "null" message) v1
      | Ok (results, thrown) =>
          let v2 := foldl (mode_result commandId commandName showOutput) v1 results in
          match thrown with Some message => mode_failed showOutput message message v2 | None => v2 end
      end
  end.
Definition triggerQuickCommand (command : Command) (showOutputOverride : option bool)
    (run : result (option string) (list CommandExecutionResult * option string)) (v : run_view) : run_view :=
  if negb (isOneShotCommand command) then add_toast (unsupportedCapabilityMessage command) v
  else executeCommandWithMode (kc_id command) (kc_name command) (Some command) (default (kc_showOutput command) showOutputOverride) run v.

(** ** Witness and examples *)
Definition no_floats : JavaText := {| to_float_or_null _ := None; contains_ignore_case _ _ := false |}.
#[local] Existing Instance no_floats.
Definition uptime : Command := mkCommand "uptime" "Uptime" "" None [] [] false true false SHELL_SCRIPT ONE_SHOT.
Definition one_card (display : TelemetryDisplay) : RemoteLayoutSpec :=
  mkRemoteLayoutSpec [mkSectionSpec TELEMETRY_SECTION_ID TELEMETRY None [TelemetryEntry "card" "uptime" None display None None None None]].
Definition polled_once : list panel_op :=
  [PvLoad "home"; PvLoaded [uptime] (Some (one_card TdCOUNTER)); PvPolled "card" (Ok ([COutput "up 12 days" false; CExitCode 0], None)) 7].

Lemma telemetry_follows_the_panel_witness :
  panel_cards (panel_run polled_once) = Some ["card"] ∧ is_Some (pv_jobs (panel_run polled_once) !! "card") ∧
  pv_latest (panel_run polled_once) !! "card" = Some (TcCounter "card" "Uptime" false (Some 7) 12 None None).
Proof.
  destruct (telemetry_follows_the_panel polled_once) as (_ & Hc & _).
  - intros Hin. repeat (apply elem_of_cons in Hin as [E|Hin]; [discriminate E|]). by apply elem_of_nil in Hin.
  - assert (panel_cards (panel_run polled_once) = Some ["card"]) as Hp by (vm_compute; reflexivity).
    split; [exact Hp|]. split; [apply (Hc _ Hp "card"); by left|]. vm_compute. reflexivity.
Defined.

(** After a change of its display an entry is shown with the old card until the next poll. *)
Lemma changed_card_is_stale :
  match pv_ui (panel_run (polled_once ++ [PvLayout (Some (one_card TdTEXT))])) with
  | UiSuccess _ _ _ panel _ => card_display <$> pn_telemetry panel
  | _ => []
  end = [TdCOUNTER].
Proof. vm_compute. reflexivity. Qed.

(** A gauge that starts at 100 or above and has no maximum never gets a value. *)
Lemma gauge_above_100_never_updates `{JavaText} id c title u min template output now previous :
  SFltb (to_float 100) min = true →
  buildTelemetryCardFromOutput id (mkSource c (mkTelemetryEntry id (kc_id c) title TdGAUGE u (Some min) None template)) output now previous = None.
Proof. intros Hm. unfold buildTelemetryCardFromOutput, coerceIn. cbn -[to_float].
  destruct (extractNumber output) as [n|]; [|done]. cbn -[to_float]. destruct (to_float_or_null n); [|done]. cbn -[to_float]. by rewrite Hm. Qed.

(** The builder offers every command, the panel shows only scripts: an entry for a shell
    is not on the panel. *)
Definition shell_command : Command := mkCommand "sh" "Shell" "" None [] [] false true false SHELL_INTERACTIVE REALTIME.
Lemma library_offers_what_the_panel_hides :
  bl_quickActions (buildLibrary [uptime; shell_command]) = [LibQuickAction uptime; LibQuickAction shell_command] ∧
  (buildRemotePanelModel [uptime; shell_command]
     (Some (handleLibraryDrop QUICK_ACTIONS_SECTION_ID "n" (LibQuickAction shell_command) withDefaultSections)) PanelView_new).2 =
  (buildRemotePanelModel [uptime; shell_command] None PanelView_new).2.
Proof. split; vm_compute; reflexivity. Qed.
