(* ===== verification/AndroidDiscovery.v ===== *)
(** * Finding servers and watching them on Android (core/discovery/AndroidNsdDiscoveryManager.kt,
    core/network/ServerHealthCheckerImpl.kt, feature/serverdetails/ServerDetailsViewModel.kt,
    feature/discovery/ServerDiscoveryViewModel.kt, feature/serverlist/ServerListViewModel.kt)

    The discovery manager with the platform's listeners, the addresses it merges into the
    database, the health check and what the screens show; and that what is announced on the
    network does not change whom the application talks to. *)

From S2P Require Import Prelude RustStd ThirdParty Network Config Certificates Validation Registry SessionState SessionManager Proto.
From S2P Require Import ClientEnroll EnrollFlow Fips180 Kotlin AndroidModel AndroidDb AndroidPairing AndroidEnroll AndroidSettings AndroidConnect AndroidCommands.

Local Open Scope string_scope.
Local Open Scope Z_scope.

(** ** Services *)
Record DiscoveredServer := mkDiscovered {
  ds_name : string;
  ds_host : string;
  ds_port : Z;
  ds_fingerprint : option string;
  ds_serverId : option string;
  ds_version : option string;
  ds_ips : list string;
}.
(** [NsdServiceInfo]: the addresses of newer systems, and the host of older ones as its
    address and name. *)
Record NsdServiceInfo := mkServiceInfo {
  si_serviceName : string;
  si_port : Z;
  si_attributes : gmap string bytes;
  si_hostAddresses : list (option string);
  si_host : option (option string * option string);
}.

Definition push_new (l : list string) (a : string) : list string := if bool_decide (a ∈ l) then l else (l ++ [a])%list.
Definition extractHostAddressesLegacy (i : NsdServiceInfo) : list string :=
  let addresses := match si_host i with Some (Some a, _) => [a] | _ => [] end in
  match si_host i with
  | Some (_, Some hostName) => if is_blank hostName then addresses else push_new addresses hostName
  | _ => addresses
  end.
Definition extractHostAddresses (newer : bool) (i : NsdServiceInfo) : list string :=
  if negb newer then extractHostAddressesLegacy i
  else foldl (λ l a, match a with Some a => if is_blank a then l else push_new l a | None => l end) [] (si_hostAddresses i).
Definition discovered `{JavaUtf8} (newer : bool) (i : NsdServiceInfo) : DiscoveredServer :=
  let ips := extractHostAddresses newer i in
  mkDiscovered (si_serviceName i) (default "unknown" (head ips)) (si_port i) (java_utf8 <$> si_attributes i !! "cert_fingerprint")
    (java_utf8 <$> si_attributes i !! "server_id") (java_utf8 <$> si_attributes i !! "version") ips.

(** What is handed to [mergeServerIps]. *)
Definition mergeDiscoveredIps (serverId : option string) (ips : list string) : option (string * list string) :=
  if is_null_or_blank serverId || bool_decide (ips = []) then None
  else
    let filteredIps := filter (λ ip, is_blank ip = false ∧ ip ≠ "unknown") ips in
    if bool_decide (filteredIps = []) then None else Some (default "" serverId, filteredIps).

(** ** The manager *)
Record Nsd := mkNsd {
  nd_isDiscovering : bool;
  nd_listener : option nat;
  nd_registered : list nat;
  nd_next : nat;
  nd_discovered : list (string * DiscoveredServer);
  nd_servers : list DiscoveredServer;
  nd_merging : list (string * list string);
  nd_table : list Row;
}.
Definition Nsd_new (t : list Row) : Nsd := mkNsd false None [] 0 [] [] [] t.
Fixpoint put_server (d : DiscoveredServer) (l : list (string * DiscoveredServer)) : list (string * DiscoveredServer) :=
  match l with
  | [] => [(ds_name d, d)]
  | (k, d') :: l' => if bool_decide (k = ds_name d) then (k, d) :: l' else (k, d') :: put_server d l'
  end.

Inductive nsd_op :=
  | NdStart (accepted : bool)
  | NdStarted (listener : nat)
  | NdStartFailed (listener : nat)
  | NdResolved (newer : bool) (info : NsdServiceInfo)
  | NdLost (serviceName : string)
  | NdStop (accepted : bool)
  | NdStopped (listener : nat)
  | NdMerge (k : nat).

Section manager.
Context `{JavaUtf8, LayoutJson}.

Definition with_servers (l : list (string * DiscoveredServer)) (s : Nsd) : Nsd :=
  mkNsd (nd_isDiscovering s) (nd_listener s) (nd_registered s) (nd_next s) l (snd <$> l) (nd_merging s) (nd_table s).
(** The calls, the platform's answers ([nd_registered] are the listeners it knows), and
    the coroutines that merge. *)
Definition nsd_step (s : Nsd) (o : nsd_op) : Nsd :=
  let '(mkNsd discovering listener registered next found servers merging table) := s in
  match o with
  | NdStart accepted =>
      if discovering then s
      else if accepted then mkNsd discovering (Some next) (next :: registered) (S next) found servers merging table
      else mkNsd false None registered (S next) found servers merging table
  | NdStarted k => if bool_decide (k ∈ registered) then mkNsd true listener registered next found servers merging table else s
  | NdStartFailed k =>
      if bool_decide (k ∈ registered) then mkNsd false listener (filter (λ j, j ≠ k) registered) next found servers merging table else s
  | NdResolved newer info =>
      let d := discovered newer info in
      let s1 := with_servers (put_server d found) s in
      mkNsd discovering listener registered next (nd_discovered s1) (nd_servers s1)
        (merging ++ option_list (mergeDiscoveredIps (ds_serverId d) (ds_ips d)))%list table
  | NdLost name => with_servers (filter (λ kv, kv.1 ≠ name) found) s
  | NdStop accepted =>
      if negb discovering then s
      else
        match listener with
        | None => s
        | Some k => if accepted then mkNsd discovering None registered next [] [] merging table else s
        end
  | NdStopped k =>
      if bool_decide (k ∈ registered) then mkNsd false listener (filter (λ j, j ≠ k) registered) next found servers merging table else s
  | NdMerge k =>
      match pick k merging with
      | Some ((id, ips), merging') => mkNsd discovering listener registered next found servers merging' (mergeServerIpsTransactional id ips table)
      | None => s
      end
  end.
Definition nsd_run (ops : list nsd_op) (s : Nsd) : Nsd := foldl nsd_step s ops.
End manager.

(** ** The health check ([checkHealth]) and the screens *)
Inductive health_run := HealthOk (mode : ConnectionMode) (latency : Z) | HealthRelay (userMessage : string) | HealthStatus (s : GrpcStatus)
  | HealthOther (message : option string).
Record HealthCheckResult := mkHealth { hc_isReachable : bool; hc_latencyMs : option Z; hc_error : option string }.
Definition checkHealth (server : EnrolledServerEntity) (run : health_run) (now : Z) (t : list Row) : list Row * HealthCheckResult :=
  match run with
  | HealthOk mode latency => (dao_updateConnectionMode (es_serverId server) now mode t, mkHealth true (Some latency) None)
  | HealthRelay m => (t, mkHealth false None (Some m))
  | HealthStatus s =>
      (t, mkHealth false None (Some (match gs_code s with
        | G_UNAVAILABLE => "Server unavailable"
        | G_DEADLINE_EXCEEDED => "Connection timeout"
        | G_UNAUTHENTICATED => "Authentication failed"
        | c => default (String.append "gRPC error: " (grpc_code_name c)) (gs_description s)
        end)))
  | HealthOther m => (t, mkHealth false None (Some (default "Connection failed" m)))
  end.
Inductive ServerHealthStatus := HsChecking | HsConnected (latencyMs : Z) | HsDisconnected (reason : option string) | HsUnknown.
Definition health_status (r : HealthCheckResult) : ServerHealthStatus :=
  if hc_isReachable r then HsConnected (default 0 (hc_latencyMs r)) else HsDisconnected (hc_error r).

Definition findDiscoveredServer (server : EnrolledServerEntity) (l : list DiscoveredServer) : option DiscoveredServer :=
  match list_find (λ d, ds_serverId d = Some (es_serverId server)) l with
  | Some (_, d) => Some d
  | None =>
      match list_find (λ d, ds_fingerprint d = Some (es_certFingerprint server)) l with
      | Some (_, d) => Some d
      | None =>
          snd <$> list_find (λ d,
            let discoveredIps := if bool_decide (ds_ips d = []) then [ds_host d] else ds_ips d in
            ds_port d = es_serverPort server ∧ Exists (λ ip, ip ∈ discoveredIps) (es_ips server)) l
      end
  end.
Inductive ServerListUiState := SlEmpty | SlSuccess (servers : list EnrolledServerEntity).
Definition server_list (servers : list EnrolledServerEntity) : ServerListUiState := match servers with [] => SlEmpty | _ => SlSuccess servers end.
(** [ServerDiscoveryUiState]: the servers found, marked when they are enrolled. *)
Definition enrolledServerIds `{LayoutJson} (t : list Row) : gset string := list_to_set (es_serverId <$> getAllServers t).

(** ** Announcements change addresses only *)
Definition moved (ips : list string) (host : option string) (e : EnrolledServerEntity) : EnrolledServerEntity :=
  mkEnrolledServerEntity (es_serverId e) ips (es_serverPort e) (es_clientId e) (es_serverName e) (es_certFingerprint e)
    (es_enrolledAt e) (es_lastConnected e) (es_relayEnabled e) (es_relayUrl e) (es_relayToken e) (es_relayAllowSelfSigned e)
    (es_relayPinnedCertSha256 e) (es_connectionPreference e) (es_lastConnectionMode e) (es_remoteLayoutSpec e) host.

Section announcements.
Context `{JavaUtf8, LayoutJson}.

Lemma merge_moves id id' l t e : getServerById id t = Some e →
  ∃ ips host, getServerById id (mergeServerIpsTransactional id' l t) = Some (moved ips host e).
Proof.
  intros He. assert (∃ ips host, getServerById id t = Some (moved ips host e)) as Hsame.
  { exists (es_ips e), (es_serverHost e). rewrite He. by destruct e. }
  unfold mergeServerIpsTransactional. case_bool_decide; [done|]. destruct (getServerById id' t); [|done]. destruct (_ || _); [done|].
  unfold getServerById, dao_updateServerIps in *. rewrite find_row_update by done.
  destruct (find_row id t) as [r|]; [|done]. cbn in *. case_bool_decide; [|done]. injection He as <-. by eexists _, _.
Qed.

Lemma nsd_step_moves s o id e : getServerById id (nd_table s) = Some e →
  ∃ ips host, getServerById id (nd_table (nsd_step s o)) = Some (moved ips host e).
Proof.
  intros He. assert (∃ ips host, getServerById id (nd_table s) = Some (moved ips host e)) as Hsame.
  { exists (es_ips e), (es_serverHost e). rewrite He. by destruct e. }
  destruct s as [discovering listener registered next found servers merging table]. destruct o; cbn in *; try done.
  all: repeat case_match; try done. by apply merge_moves.
Qed.
Lemma nsd_run_moves ops s id e : getServerById id (nd_table s) = Some e →
  ∃ ips host, getServerById id (nd_table (nsd_run ops s)) = Some (moved ips host e).
Proof.
  revert s e. induction ops as [|o ops IH]; intros s e He.
  - exists (es_ips e), (es_serverHost e). cbn. rewrite He. by destruct e.
  - destruct (nsd_step_moves s o id e He) as (ips & host & Hs). destruct (IH (nsd_step s o) _ Hs) as (ips' & host' & Hr).
    exists ips', host'. exact Hr.
Qed.

(** C15: What the network announces cannot redirect the application.  Whatever services are
    announced, resolved and lost, and in whatever order their addresses are merged: an
    enrolled server keeps everything but its addresses, and a direct connection is still
    made only to a peer that presents the certificate pinned at enrolment. *)
Theorem announcements_cannot_redirect `{Sha256} ops t id e :
  getServerById id t = Some e → is_blank (es_certFingerprint e) = false →
  ∃ ips host, let e' := moved ips host e in getServerById id (nd_table (nsd_run ops (Nsd_new t))) = Some e' ∧
    ∀ settings override w address, connect settings e' override w = Ok (Direct address) →
    ∃ ip p cert, ip ∈ prioritizeIps e' (as_ipv6Preference settings) ∧ dw_peer (cw_direct w ip) = Some p ∧ head (tp_chain p) = Some cert ∧
      hex_string (sha256 cert) = normalized_fingerprint (es_certFingerprint e).
Proof.
  intros He Hb. destruct (nsd_run_moves ops (Nsd_new t) id e He) as (ips & host & Hr). exists ips, host. split; [done|].
  intros settings override w address Hc. unfold connect in Hc. destruct (if bool_decide _ then _ else _) as [ip|] eqn:Ed; [|by repeat case_match].
  case_bool_decide; [done|]. apply tryDirect_Some in Ed as (Hip & _ & Hready). destruct (ready_is_pinned _ _ Hb Hready) as (p & cert & ? & ? & ?).
  by exists ip, p, cert.
Qed.
End announcements.

(** ** Examples and witness *)
#[local] Existing Instance demo_layout_json.
#[local] Existing Instance demo_utf8.
#[local] Existing Instance Fips.fips_sha256.
#[local] Strategy 1000 [Fips.fips_sha256].

(** Two starts before the platform answers leave a listener nobody can stop. *)
Lemma two_starts_leak : let s := nsd_run [NdStart true; NdStart true; NdStarted 0; NdStarted 1; NdStop true; NdStopped 1] (Nsd_new []) in
  nd_registered s = [0%nat] ∧ nd_listener s = None ∧ nd_isDiscovering s = false.
Proof. vm_compute. done. Qed.

Definition intruder : NsdServiceInfo :=
  mkServiceInfo "evil" 50051 {["server_id" := Fips.ascii_bytes "home"]} [Some "10.6.6.6"] None.
Definition announced_ops : list nsd_op := [NdStart true; NdStarted 0; NdResolved true intruder; NdMerge 0].

Lemma announcements_cannot_redirect_witness : ∃ e',
  getServerById "home" (nd_table (nsd_run announced_ops (Nsd_new [row_of None demo_pinned]))) = Some e' ∧
  es_ips e' = ["192.168.1.2"; "10.6.6.6"] ∧ es_certFingerprint e' = computeFingerprint [x2a].
Proof.
  destruct (announcements_cannot_redirect announced_ops [row_of None demo_pinned] "home" demo_pinned) as (ips & host & Hr & _).
  - vm_compute. reflexivity.
  - vm_compute. reflexivity.
  - eexists. split; [exact Hr|]. split; [|reflexivity].
    assert (es_ips <$> getServerById "home" (nd_table (nsd_run announced_ops (Nsd_new [row_of None demo_pinned]))) = Some ["192.168.1.2"; "10.6.6.6"]) as E
      by (vm_compute; reflexivity).
    rewrite Hr in E. injection E as E. exact E.
Defined.
